(* ===== verification/_CoqProject ===== *)
-Q . S2P
Prelude.v
Text.v
SyncErrors.v
Paths.v
Merge.v
SyncDb.v
Scanner.v
Disk.v
Planner.v
Crypto.v
Keys.v
AccountKeys.v
Packer.v
Watcher.v
Commit.v
Transfer.v
SyncState.v
VaultConfig.v
Pull.v
Push.v
Account.v
Commands.v
Runs.v
Toys.v
Devices.v
PushPull.v
PullSafety.v
PullReplay.v
Knowledge.v
DecisionDocument.v
KnowledgeApply.v
ApplyPlan.v
ApplySafety.v
ApplyRecovery.v
KnowledgeToys.v
ApplyExamples.v
Chars.v
Indexer.v
Wikilinks.v
Extract.v
IndexerExamples.v
SearchLinks.v
SearchDb.v
SearchWriter.v
SearchIncremental.v
SearchRebuild.v
SearchRuntime.v
SearchCatchUp.v
SearchQueries.v
SearchSimple.v
SearchGraph.v
SearchExamples.v
AiTypes.v
AiSession.v
AiHistory.v
AiCompact.v
AiEndpoint.v
AiState.v
AiTurn.v
AiApproval.v
AiInvariants.v
AiTurnTheorems.v
AiRounds.v
AiExamples.v
Guarded.v
ProtectedPaths.v
AiHost.v
AiTools.v
HostTheorems.v
ToolTheorems.v
HostExamples.v
