(* ===== verification/Prelude.v ===== *)
(** * Verification of the Kuku desktop application

    Kuku keeps a vault of markdown notes in a folder. It synchronises the vault, end
    to end encrypted, through a server that stores commits and objects; an assistant
    answers questions about it and changes it with the user's approval, and proposes
    changes to a knowledge base, which the user decides on in decision documents. The
    core of the Rust code is the sync engine under
    src/apps/desktop/src-tauri/src/sync/, with the vault's path handling and file
    watcher in .../src/vault/, the knowledge code in .../src/knowledge/, the search
    index in .../src/search/ and crates/kuku-indexer, and the assistant in
    crates/kuku-ai, .../src/ai_host/ and .../src/ai_tools/.
    The definitions translate the source, function by function and with its names,
    and run on concrete inputs.

    ** The parts of the program and their files

    Values and text.
    - [Prelude] (this file): results, loops with early return, the state monad
      [Act] (an error keeps the state the steps before it made), strings and bytes
      as the standard library of Rust treats them, generic lemmas and tactics.
    - [Text]: lemmas on [trim]. [SyncErrors]: sync/errors.rs.
    - [Paths]: [std::path] on Unix, the confinement of a vault-relative path
      (vault/mod.rs), the normal form of a synchronised path (sync/scanner.rs).

    Local data.
    - [Scanner]: the file system as a finite map, the scan of a vault
      (sync/scanner.rs). [SyncDb]: the tables of the sync database and every
      statement of sync/db.rs. [Merge]: sync/merge.rs. [Planner]: what a commit
      contains and how its files are packed (sync/planner.rs).
    - [Watcher]: vault/watcher.rs and vault/mutation_sync.rs, the ledger by which
      the watcher recognises the writes of the application itself.

    Cryptography.
    - [Crypto]: the format of an encrypted blob, associated data and commit
      signatures (sync/crypto.rs). [Keys]: derived keys, the passphrase envelope,
      the keychain (sync/keys.rs, secure_storage.rs). [AccountKeys]: the recovery
      phrase and the blobs of an account (sync/account_keys.rs). [Packer]: packs
      (sync/packer.rs).

    Exchange with the service.
    - [Commit]: the records on the wire and their checks. [Transfer]: uploads and
      downloads with their retry loop (sync/transfer.rs). [Push]:
      sync/checkpoint.rs. [Pull]: sync/applier.rs.

    The application around the engine.
    - [SyncState]: the status shown to the user, a state machine with a step
      relation (sync/mod.rs, sync/types.rs). [VaultConfig]: .kuku/sync.json
      (sync/vault_config.rs). [Account]: account, workspaces and devices, the
      sources of the workspace key (sync/commands.rs, with the interface of
      sync/client.rs). [Commands]: the commands of sync/commands.rs on the state of
      a whole device.

    The knowledge base.
    - [Disk]: file-system calls as steps of a process that may fail or stop, with a
      program logic for both ends of a process. [Knowledge]: identifiers, paths,
      checksums, memory items and wiki pages (knowledge/markdown.rs, models.rs).
      [DecisionDocument]: the blocks of a decision document, its rendering and its
      consistency (knowledge/decision_document.rs). [KnowledgeApply]: the
      application of a document with its journal, its recovery and its locks
      (knowledge/apply.rs).
    - [ApplyPlan]: what a memory document will write. [ApplySafety]: the places of
      an application and what each of its calls does to a disk. [ApplyRecovery]:
      the phases of an application, and that any number of stops is survived.

    Notes and their index.
    - [Chars]: the characters of a UTF-8 text. [Indexer]: chunks, snippets,
      normalization and the plan of a query (crates/kuku-indexer). [Wikilinks]: the
      links written in a note. [Extract]: a note as sections and chunks.
    - [SearchLinks]: what a link means (search/wikilink.rs). [SearchDb]: the tables
      of the index (search/db.rs). [SearchWriter]: the jobs that change them
      (search/writer.rs). [SearchRuntime]: notices, rebuild requests, configuration
      (search/mod.rs). [SearchQueries], [SearchSimple], [SearchGraph]: what is read.
    - [SearchIncremental]: jobs leave links resolved. [SearchRebuild]: a rebuild is
      exact. [SearchCatchUp]: files, notices and jobs as one step relation.

    The assistant (crates/kuku-ai).
    - [AiTypes]: messages, tools, mutations, the tool registry (types.rs, mutation.rs,
      error.rs, tools/). [AiSession]: a chat session with its approvals, cancellation
      and snapshots; [AiHistory], [AiCompact]: the texts of a turn and the history that
      is sent (session.rs). [AiEndpoint]: base URLs and keys (provider/openai.rs).
      [AiState]: configuration, backends, the commands (state.rs, commands.rs).
    - [AiTurn]: a whole turn (session.rs [run_turn]). [AiApproval]: rules for turns,
      and that changes are approved. [AiInvariants]: what every turn keeps.
      [AiTurnTheorems], [AiRounds]: its end and the history it leaves. [AiExamples].
    - [Guarded]: checksums and guarded changes (vault/checksum.rs). [ProtectedPaths]:
      the paths the assistant may not change (knowledge/protected_paths.rs). [AiHost]:
      the application of a plan (ai_host/desktop_host.rs). [AiTools]: the tools
      (ai_tools/). [HostTheorems], [ToolTheorems], [HostExamples]: what plans and tools
      do to a vault that other programs change too.

    Theorems that span components, and examples.
    - [PushPull]: what one device publishes another accepts. [PullSafety]: a pull
      does not lose local edits. [PullReplay]: a pull ends at the remote head with
      the tree of the history. [Runs]: the commands and the status.
    - [Toys], [Devices]: concrete instances of the external code; a device that
      publishes its vault, restarts, lists conflicts. [KnowledgeToys],
      [ApplyExamples]: documents, disks and processes that stop. [IndexerExamples],
      [SearchExamples]: notes, vaults and their index.

    ** How state and operations correspond to the code

    A method that changes state is a function that takes the state and returns it
    with its result. A vault's database is a [Db] record of finite maps, one per
    table; a file system is a finite map from absolute paths to nodes; the
    keychain is a value of a type with the operations of [Keyring]; the pull works
    on a [World] (files, database, ledger, search notices), the commands on a
    [Device] (status, keychain and service, files, databases by path, ledger,
    notices, statuses emitted), the knowledge code on a [Machine] (files, number
    of steps) in an [Environment] that decides the fate of each call. A turn of the
    assistant is a task on a session and a state whose script lists the commands that
    other tasks execute before each of its steps and the answers it waits for (the
    provider, the tools, the host, the user). [SyncState]'s transitions are functions on
    [SyncInner], and each is a constructor of the relation [SyncState.step]. A
    64-bit integer is a [Z] with its saturation or conversion written out; times
    are arguments; a random draw is a nonce argument or numbered by a counter.

    External code is a parameter: the ciphers, hashes, signatures and Argon2
    ([CryptoLib], [Blake3], [KeyLib]), tar and zstd ([PackLib]), serde_json
    ([Serialize], [Deserialize] with [SerdeLaws], the reading back of what was
    written; [JournalJson]), serde_yaml ([YamlRead], [YamlWrite]), Unicode
    normalization ([Nfc]), the url crate ([UrlCrate]), the clients of the providers
    ([Backends]), the calendar ([Chrono]), SQLite's refusals ([Sqlite]), the operating system ([Os], [Host],
    [Keyring]), Unicode tables ([Unicode]), the service ([TransferNet], [Remote],
    [Publisher], [SetupApi]). Their laws are classes beside them; every one has a
    concrete instance, and each theorem with hypotheses is applied to one in its
    witness.

    ** What the theorems show

    - Pull and push: a pull that applied commits ends at the remote head with the
      tree of the history; a published commit decrypts elsewhere and replays to the
      publisher's tree; a replayed change keeps a local edit: it merges it over the recorded base with the
      remote text where they merge, and files a conflict copy only where they do not;
      files outside a commit keep their content; the listing of an honest history ends and is complete.
    - The knowledge base: an application of a memory document on free places, none of
      whose calls reports an error, that was stopped any number of times, at any step,
      is completed by the next one (a wiki document is not: see
      [ApplyExamples.Wiki.updated_page_forgotten]); meanwhile the
      document is old or whole and every planned file is absent or whole. The files
      are those that were validated, and accepted paths and identifiers are safe.
    - The application: a run reports its outcome truthfully and gives its slot
      back; the status stays well formed under all commands; run identifiers do
      not repeat; a second device that has the recovery phrase obtains the same
      keys; a later run finds the workspace key; conflicts are listed exactly;
      the configuration file keeps every setting over a round trip, and a reset clears
      file and secrets.
    - The index: for notes that can be read and whose paths are distinct up to case,
      with incremental updates on, once every change of the vault was notified and the
      queue is empty the index holds every note and no other, if no notice of a write
      was left to a rebuild behind which a job takes the same note out; every job leaves
      every link resolved as a full resolution would; a rebuild removes the notes that
      are gone and describes those that are there; a link means the
      note at its path or the only closest one of its name; the graph and the
      queries show what is stored; a text is split into chunks that cover it, and
      the links written in a note, outside its code, are the links extracted.
    - The assistant: a change reaches the vault only after it was shown and approved, by
      a tool of the mode, never in Ask mode, under every interleaving; a turn ends once,
      after its error, and leaves the session idle; calls and results pair up; the history
      that is sent is a summary of what was left out and the rest, within its budget; keys
      are only sent over https; the backend is one of a configuration that was set, and
      the current one if no change of the configuration overlapped another call.
      The host makes the changes of the plan and no others, each only on a free place or
      on a file or directory with the checksum of the plan, and reports what it did; a
      tool proposes one change, of guarded paths, with the checksum of what was read, so
      an edit replaces only what the model was shown.
    - Local data: path confinement and normal forms, exactness of the scan,
      refinement of [apply_scan] to an abstract difference of scan and table,
      schema initialisation, the merge against a line-wise three-way merge, free
      names for conflict copies, the Gregorian calendar, plans and pack bounds,
      the reporting of renames and recognised writes by the watcher.
    - Cryptography and transfer: round trips of blobs, packs and envelopes, the
      separation of derived keys, the soundness of what is downloaded, unpacked,
      uploaded and acknowledged, the bound of the retry loop.

    ** Fuel

    A few loops of the code take fuel. The listing of commits takes one
    unit per page, and a run passes the bound on to its pulls; it is exhausted
    ([None]) only while the service keeps returning pages, and
    [Pull.list_all_commits_complete] proves that one unit more than there are
    commits is enough. The search for a free conflict name takes one unit per
    candidate; [Merge.conflict_copy_relative_path_fresh] proves that one more than
    there are names taken is enough. The search for a free knowledge identifier
    counts down as the code does; the loop over the lines of a decision document
    takes the number of its lines, the loops over a note one unit more than it has
    characters ([Indexer.chunk_loop_windows] shows that it suffices), the walk
    through a vault the depth of its tree. Everything else is structurally
    recursive.

    ** Not modelled

    Threads and locks: the methods of [SyncState] are steps under one lock, and
    concurrent requests of one transfer attempt are a sequence of their answers.
    The Tauri glue (windows, dialogs, command registration), the HTTP and RPC
    clients with their conversion of messages, debug-only storage of secrets,
    Windows paths. Two names of one file on the [Disk] are two files; an error of the
    system during an application is modelled, but the theorem on recovery excludes
    it, because of the findings on failed publications. The full-text index of
    SQLite, regular expressions, the markdown and YAML parsers are parameters.
    Of the assistant, the streaming clients of the providers, the conversion of
    messages for them, and two turns at once on one session (which the finding
    about busy sessions makes possible) are left out. Each method of a session
    is one step; [set_config], [reset_state] and [backend] of the state take one
    step per lock, and interleave. A guarded change of the host is one step too:
    a program that writes between its check and its change is not noticed by the
    code, and is not in the model. A full rebuild of the index reads every note
    at a time of its own, but the walk that looks for the notes sees one state
    of the directories. A vault's root is its real path: a root that is a
    symbolic link, which [scan_vault] of the code follows, is refused by the
    model. Also left out: the making of knowledge proposals, the editor's
    commands on files, and the storage of plugins. *)
From Stdlib Require Import Ascii String.
From Stdlib Require Export ZArith Lia.
From stdpp Require Export base gmap strings list list_monad sorting pretty.

(** ** Results *)

(** Rust's [Result<T, E>]; [?] is the monadic bind. *)
Inductive Result (E A : Type) : Type :=
| Ok (a : A)
| Err (e : E).
Arguments Ok {E A} a.
Arguments Err {E A} e.

#[export] Instance result_ret {E} : MRet (Result E) := λ A a, Ok a.
#[export] Instance result_bind {E} : MBind (Result E) := λ A B f m,
  match m with Ok a => f a | Err e => Err e end.
#[export] Instance result_fmap {E} : FMap (Result E) := λ A B f m,
  match m with Ok a => Ok (f a) | Err e => Err e end.
#[export] Instance Result_eq_dec {E A} `{EqDecision E, EqDecision A} : EqDecision (Result E A).
Proof. solve_decision. Defined.

Definition ok_or {E A} (o : option A) (e : E) : Result E A :=
  match o with Some a => Ok a | None => Err e end.

Definition map_err {E F A} (f : E → F) (m : Result E A) : Result F A :=
  match m with Ok a => Ok a | Err e => Err (f e) end.

(** [if guard { return Err(e) }] *)
Definition reject_if {E} (guard : bool) (e : E) : Result E unit :=
  if guard then Err e else Ok tt.

(** [for x in l { s = f(s, x)? }]: a loop whose body may return early. *)
Fixpoint try_fold {E S X} (f : S → X → Result E S) (s : S) (l : list X) : Result E S :=
  match l with
  | [] => Ok s
  | x :: l => s' ← f s x; try_fold f s' l
  end.

(** [iter.map(f).collect::<Result<Vec<_>, _>>()] *)
Fixpoint try_map {E X Y} (f : X → Result E Y) (l : list X) : Result E (list Y) :=
  match l with
  | [] => Ok []
  | x :: l => y ← f x; ys ← try_map f l; Ok (y :: ys)
  end.

Section result_lemmas.
Context {E S X Y : Type}.

Lemma bind_Ok_inv {A B} (m : Result E A) (f : A → Result E B) b :
  (x ← m; f x) = Ok b → ∃ a, m = Ok a ∧ f a = Ok b.
Proof. destruct m; simpl; [eauto|done]. Qed.

Lemma Ok_inj {A} (a b : A) : Ok (E := E) a = Ok b → a = b.
Proof. by intros [= ->]. Qed.

Lemma ok_or_Ok {A} (o : option A) (e : E) a : ok_or o e = Ok a ↔ o = Some a.
Proof. destruct o; simpl; split; congruence. Qed.

Lemma map_err_Ok {F A} (f : E → F) (m : Result E A) a : map_err f m = Ok a ↔ m = Ok a.
Proof. destruct m; simpl; split; congruence. Qed.

Lemma reject_if_Ok b (e : E) u : reject_if b e = Ok u ↔ b = false.
Proof. destruct b, u; simpl; split; congruence. Qed.

Lemma try_fold_app (f : S → X → Result E S) s l1 l2 :
  try_fold f s (l1 ++ l2) = (s' ← try_fold f s l1; try_fold f s' l2).
Proof.
  revert s; induction l1 as [|x l1 IH]; intros s; [done|].
  simpl. destruct (f s x) as [s'|e]; simpl; [apply IH|done].
Qed.

(** A property of the loop state that the body preserves. *)
Lemma try_fold_invariant (P : S → Prop) (f : S → X → Result E S) s l s' :
  P s → (∀ s x s', x ∈ l → P s → f s x = Ok s' → P s') →
  try_fold f s l = Ok s' → P s'.
Proof.
  revert s; induction l as [|x l IH]; intros s HP Hf; simpl.
  - by intros [= <-].
  - intros (s1 & H1 & H2)%bind_Ok_inv.
    eapply (IH s1); [eapply Hf; eauto; set_solver| |done].
    intros s2 y s3 Hy. apply Hf. set_solver.
Qed.

(** The same with the consumed prefix in the invariant. *)
Lemma try_fold_prefix_invariant (P : list X → S → Prop) (f : S → X → Result E S) done_ s l s' :
  P done_ s →
  (∀ d s x s', x ∈ l → P d s → f s x = Ok s' → P (d ++ [x]) s') →
  try_fold f s l = Ok s' → P (done_ ++ l) s'.
Proof.
  revert done_ s; induction l as [|x l IH]; intros d s HP Hf; simpl.
  - intros [= <-]. by rewrite app_nil_r.
  - intros (s1 & H1 & H2)%bind_Ok_inv.
    replace (d ++ x :: l) with ((d ++ [x]) ++ l) by (by rewrite <- app_assoc).
    eapply (IH _ s1); [eapply Hf; eauto; set_solver| |done].
    intros d' s2 y s3 Hy. apply Hf. set_solver.
Qed.

Lemma try_map_Ok (f : X → Result E Y) l ys :
  try_map f l = Ok ys ↔ Forall2 (λ x y, f x = Ok y) l ys.
Proof.
  revert ys; induction l as [|x l IH]; intros ys; simpl.
  - split; [intros [= <-]; constructor|by intros ->%Forall2_nil_inv_l].
  - split.
    + intros (y & Hy & (ys' & Hys & [= <-])%bind_Ok_inv)%bind_Ok_inv.
      constructor; [done|]. by apply IH.
    + intros (y & ys' & Hy & Hl & ->)%Forall2_cons_inv_l. rewrite Hy. simpl.
      apply IH in Hl as ->. done.
Qed.
End result_lemmas.

Arguments bind_Ok_inv {E A B m f b} _.

(** ** Inversion of the error monad *)

(** [ok_inv H] turns [H : (x ← m; k) = Ok r] into equations for every bound
    call, and the guards [reject_if b e = Ok _] into [b = false]. *)
Ltac ok_step H :=
  lazymatch type of H with
  | Ok _ = Ok _ => injection H as H; try subst
  | Err _ = Ok _ => discriminate H
  | mbind _ ?m = Ok _ =>
      let a := fresh "a" in let H1 := fresh "Hok" in
      apply bind_Ok_inv in H as (a & H1 & H); cbn beta in H;
      try (apply reject_if_Ok in H1)
  end.
Ltac ok_inv H := repeat (ok_step H).

(** ** Stateful computations

    A computation on a world of type [W] that may fail; what it did to the world
    before failing stays done. *)
Definition Act (W E A : Type) : Type := W → Result E A * W.
#[export] Instance act_ret {W E} : MRet (Act W E) := λ A a w, (Ok a, w).
#[export] Instance act_bind {W E} : MBind (Act W E) := λ A B f m w,
  match m w with
  | (Ok a, w) => f a w
  | (Err e, w) => (Err e, w)
  end.
(** A computation that does not touch the world. *)
Definition lift {W E A} (r : Result E A) : Act W E A := λ w, (r, w).
Definition gets {W E A} (f : W → A) : Act W E A := λ w, (Ok (f w), w).
Definition modify {W E} (f : W → W) : Act W E unit := λ w, (Ok tt, f w).
(** A computation on a part of the world. *)
Definition zoom {W S E A} (get : W → S) (put : S → W → W) (m : Act S E A) : Act W E A := λ w,
  let '(r, s) := m (get w) in (r, put s w).
(** The outcome as a value: the caller looks at the error itself. *)
Definition attempt {W E A} (m : Act W E A) : Act W E (Result E A) := λ w,
  let '(r, w) := m w in (Ok r, w).
(** [for x in l { body(x)? }] *)
Fixpoint act_fold {W E S X} (f : S → X → Act W E S) (s : S) (l : list X) : Act W E S :=
  match l with
  | [] => mret s
  | x :: l => s' ← f s x; act_fold f s' l
  end.

Lemma act_bind_Ok {W E A B} (m : Act W E A) (f : A → Act W E B) w b w' :
  (x ← m; f x) w = (Ok b, w') → ∃ a w1, m w = (Ok a, w1) ∧ f a w1 = (Ok b, w').
Proof. unfold mbind, act_bind. destruct (m w) as [[a|e] w1]; [eauto|done]. Qed.
Lemma act_lift_Ok {W E A B} (r : Result E A) (f : A → Act W E B) w b w' :
  (x ← lift r; f x) w = (Ok b, w') → ∃ a, r = Ok a ∧ f a w = (Ok b, w').
Proof. unfold mbind, act_bind, lift. destruct r; [eauto|done]. Qed.
Lemma act_fold_invariant {W E S X} (P : list X → S → W → Prop) (f : S → X → Act W E S) d s l w s' w' :
  P d s w →
  (∀ d s w x s' w', x ∈ l → P d s w → f s x w = (Ok s', w') → P (d ++ [x]) s' w') →
  act_fold f s l w = (Ok s', w') → P (d ++ l) s' w'.
Proof.
  revert d s w. induction l as [|x l IH]; intros d s w HP Hf; simpl.
  - intros [= <- <-]. by rewrite app_nil_r.
  - intros (s1 & w1 & H1 & H2)%act_bind_Ok.
    replace (d ++ x :: l) with ((d ++ [x]) ++ l) by (by rewrite <- app_assoc).
    eapply IH; [| |done]; [eapply Hf; eauto; set_solver|].
    intros d' s2 w2 y s3 w3 Hy. apply Hf. set_solver.
Qed.

(** Partial correctness for every outcome, failures included: the outcome and the
    final world of [m] from [w] satisfy [Q]. *)
Definition act_post {W E A} (m : Act W E A) (w : W) (Q : Result E A → W → Prop) : Prop :=
  Q (m w).1 (m w).2.
Lemma act_post_intro {W E A} (m : Act W E A) w (Q : Result E A → W → Prop) :
  (∀ r w', m w = (r, w') → Q r w') → act_post m w Q.
Proof. intros H. unfold act_post. apply H. by destruct (m w). Qed.
Lemma act_post_elim {W E A} (m : Act W E A) w Q r w' :
  act_post m w Q → m w = (r, w') → Q r w'.
Proof. unfold act_post. by intros HQ Hm; rewrite Hm in HQ. Qed.
Lemma act_post_bind {W E A B} (m : Act W E A) (f : A → Act W E B) w (Q : Result E B → W → Prop) :
  act_post m w (λ r w', match r with Ok a => act_post (f a) w' Q | Err e => Q (Err e) w' end) →
  act_post (x ← m; f x) w Q.
Proof. unfold act_post, mbind, act_bind. by destruct (m w) as [[a|e] w']. Qed.
Lemma act_post_mono {W E A} (m : Act W E A) w (Q R : Result E A → W → Prop) :
  act_post m w Q → (∀ r w', Q r w' → R r w') → act_post m w R.
Proof. unfold act_post. auto. Qed.
Lemma act_post_lift {W E A B} (r : Result E A) (f : A → Act W E B) w (Q : Result E B → W → Prop) :
  (∀ a, r = Ok a → act_post (f a) w Q) → (∀ e, r = Err e → Q (Err e) w) →
  act_post (x ← lift r; f x) w Q.
Proof. intros HO HE. apply act_post_bind. unfold act_post, lift. destruct r as [a|e]; [exact (HO a eq_refl)|exact (HE e eq_refl)]. Qed.
Lemma act_post_gets {W E A B} (g : W → A) (f : A → Act W E B) w (Q : Result E B → W → Prop) :
  act_post (f (g w)) w Q → act_post (x ← gets g; f x) w Q.
Proof. done. Qed.
Lemma act_post_seq {W E A B} (I : W → Prop) (m : Act W E A) (f : A → Act W E B) w :
  act_post m w (λ _, I) → (∀ a w', I w' → act_post (f a) w' (λ _, I)) →
  act_post (x ← m; f x) w (λ _, I).
Proof.
  intros Hm Hf. apply act_post_bind. eapply act_post_mono; [exact Hm|]. intros [a|e] w' HI; [|done].
  by apply Hf.
Qed.
(** An invariant of the world that every step keeps, whatever its outcome. *)
Lemma act_post_fold {W E S X} (I : W → Prop) (f : S → X → Act W E S) s l w :
  I w → (∀ s x w, x ∈ l → I w → act_post (f s x) w (λ _, I)) → act_post (act_fold f s l) w (λ _, I).
Proof.
  revert s w. induction l as [|x l IH]; intros s w HI Hf; [done|]. simpl. apply act_post_bind.
  eapply act_post_mono; [apply Hf; [set_solver|done]|]. intros [s'|e] w' HI'; [|done].
  apply IH; [done|]. intros. apply Hf; [set_solver|done].
Qed.

Create HintDb kuku discriminated.
Create Rewrite HintDb kuku.
#[export] Hint Constructors Forall StronglySorted : kuku.

(** ** Machine integers *)

(** [i64] arithmetic in two's complement. *)
Definition i64_max : Z := 9223372036854775807.
Definition i64_min : Z := -9223372036854775808.
Definition wrap64 (z : Z) : Z := (z - i64_min) `mod` (2 ^ 64) + i64_min.
Definition i64_add (a b : Z) : Z := wrap64 (a + b).
Definition in_i64 (z : Z) : Prop := (i64_min ≤ z ≤ i64_max)%Z.
(** [i64::try_from(n)] on an unsigned [n]. *)
Definition i64_try_from (n : Z) : option Z :=
  if (n <=? i64_max)%Z then Some n else None.

Lemma wrap64_id z : in_i64 z → wrap64 z = z.
Proof.
  unfold in_i64, wrap64, i64_min, i64_max. intros H.
  rewrite Z.mod_small; lia.
Qed.
Lemma wrap64_range z : in_i64 (wrap64 z).
Proof.
  unfold in_i64, wrap64, i64_min, i64_max.
  pose proof (Z.mod_pos_bound (z - -9223372036854775808) (2 ^ 64)). lia.
Qed.
Lemma i64_add_exact a b : in_i64 (a + b) → i64_add a b = (a + b)%Z.
Proof. apply wrap64_id. Qed.

(** ** Byte strings

    A Rust [String] and a [Vec<u8>] are both modelled by [string], the sequence
    of their (UTF-8) bytes. *)
Abbreviation bytes := string (only parsing).

Definition byte_len (s : string) : Z := Z.of_nat (String.length s).

Definition ascii_code (a : ascii) : N := N_of_ascii a.

Fixpoint str_forallb (p : ascii → bool) (s : string) : bool :=
  match s with
  | EmptyString => true
  | String a s => p a && str_forallb p s
  end.

Fixpoint str_existsb (p : ascii → bool) (s : string) : bool :=
  match s with
  | EmptyString => false
  | String a s => p a || str_existsb p s
  end.

(** [s.replace(a, b)] on one-byte patterns. *)
Fixpoint str_replace (a b : ascii) (s : string) : string :=
  match s with
  | EmptyString => EmptyString
  | String c s => String (if Ascii.eqb c a then b else c) (str_replace a b s)
  end.

(** [s.starts_with(p)], [s.strip_prefix(p)] *)
Fixpoint strip_prefix (p s : string) : option string :=
  match p, s with
  | EmptyString, _ => Some s
  | String a p, String b s => if Ascii.eqb a b then strip_prefix p s else None
  | String _ _, EmptyString => None
  end.
Definition starts_with (p s : string) : bool := bool_decide (is_Some (strip_prefix p s)).

Definition ends_with (p s : string) : bool := starts_with (String.rev p) (String.rev s).

(** [s.contains(needle)] *)
Fixpoint str_contains (needle s : string) : bool :=
  starts_with needle s ||
  match s with EmptyString => false | String _ s => str_contains needle s end.

(** [s.split(sep)]: always at least one segment. *)
Fixpoint split_on (sep : ascii) (s : string) : list string :=
  match s with
  | EmptyString => [EmptyString]
  | String a s =>
      if Ascii.eqb a sep then EmptyString :: split_on sep s
      else match split_on sep s with
           | seg :: segs => String a seg :: segs
           | [] => [String a EmptyString]
           end
  end.

(** [s.split_inclusive(sep)]: no trailing empty segment. *)
Fixpoint split_inclusive (sep : ascii) (s : string) : list string :=
  match s with
  | EmptyString => []
  | String a s =>
      if Ascii.eqb a sep then String a EmptyString :: split_inclusive sep s
      else match split_inclusive sep s with
           | seg :: segs => String a seg :: segs
           | [] => [String a EmptyString]
           end
  end.

(** [segs.join(sep)] *)
Fixpoint join (sep : string) (segs : list string) : string :=
  match segs with
  | [] => EmptyString
  | [s] => s
  | s :: segs => s +:+ sep +:+ join sep segs
  end.

(** [s.concat()] of pushed pieces *)
Definition str_concat (segs : list string) : string := foldr String.append EmptyString segs.

(** [s[..n]] for ASCII strings *)
Definition str_take (n : nat) (s : string) : string := String.substring 0 n s.

(** [s[n..]] and [s[a..b]] on bytes, for [a ≤ b ≤ len] *)
Fixpoint str_drop (n : nat) (s : string) : string :=
  match n, s with
  | O, _ => s
  | S n, String _ s => str_drop n s
  | S _, EmptyString => EmptyString
  end.
Definition str_slice (a b : nat) (s : string) : string := str_take (b - a) (str_drop a s).
(** [s[i]], for [i < len] *)
Definition str_at (i : nat) (s : string) : ascii := default Ascii.zero (String.get i s).

Definition ascii_lower (a : ascii) : ascii :=
  let n := N_of_ascii a in
  if ((65 <=? n) && (n <=? 90))%N then ascii_of_N (n + 32) else a.
Definition is_ascii_alphanumeric (a : ascii) : bool :=
  let n := N_of_ascii a in
  (((48 <=? n) && (n <=? 57)) || ((65 <=? n) && (n <=? 90)) || ((97 <=? n) && (n <=? 122)))%N.
Fixpoint to_ascii_lowercase (s : string) : string :=
  match s with
  | EmptyString => EmptyString
  | String a s => String (ascii_lower a) (to_ascii_lowercase s)
  end.
Definition eq_ignore_ascii_case (s t : string) : bool :=
  bool_decide (to_ascii_lowercase s = to_ascii_lowercase t).

(** *** Unicode white space, on UTF-8 bytes

    [char::is_whitespace] is the White_Space property: U+0009..U+000D, U+0020,
    U+0085, U+00A0, U+1680, U+2000..U+200A, U+2028, U+2029, U+202F, U+205F and
    U+3000; the tests below recognise their encodings of one, two and three
    bytes. *)
Definition ws1 (a : ascii) : bool :=
  let n := ascii_code a in (((9 <=? n) && (n <=? 13)) || (n =? 32))%N.
Definition ws2 (a b : ascii) : bool :=
  ((ascii_code a =? 194) && ((ascii_code b =? 133) || (ascii_code b =? 160)))%N.
Definition ws3 (a b c : ascii) : bool :=
  let x := ascii_code a in let y := ascii_code b in let z := ascii_code c in
  (((x =? 225) && (y =? 154) && (z =? 128)) ||
   ((x =? 226) && (y =? 128) &&
    (((128 <=? z) && (z <=? 138)) || (z =? 168) || (z =? 169) || (z =? 175))) ||
   ((x =? 226) && (y =? 129) && (z =? 159)) ||
   ((x =? 227) && (y =? 128) && (z =? 128)))%N.

Fixpoint trim_start (s : string) : string :=
  match s with
  | EmptyString => EmptyString
  | String a s1 =>
      if ws1 a then trim_start s1 else
      match s1 with
      | EmptyString => s
      | String b s2 =>
          if ws2 a b then trim_start s2 else
          match s2 with
          | EmptyString => s
          | String c s3 => if ws3 a b c then trim_start s3 else s
          end
      end
  end.

(** [trim_start] read from the other end of the string. *)
Fixpoint trim_start_rev (s : string) : string :=
  match s with
  | EmptyString => EmptyString
  | String a s1 =>
      if ws1 a then trim_start_rev s1 else
      match s1 with
      | EmptyString => s
      | String b s2 =>
          if ws2 b a then trim_start_rev s2 else
          match s2 with
          | EmptyString => s
          | String c s3 => if ws3 c b a then trim_start_rev s3 else s
          end
      end
  end.
Definition trim_end (s : string) : string := String.rev (trim_start_rev (String.rev s)).
Definition trim (s : string) : string := trim_end (trim_start s).

(** [s.split_whitespace()]: the non-empty runs between white space. *)
Fixpoint ws_fields (s : string) : list string :=
  let push a fields :=
    match fields with f :: fields => String a f :: fields | [] => [String a EmptyString] end in
  match s with
  | EmptyString => [EmptyString]
  | String a s1 =>
      if ws1 a then EmptyString :: ws_fields s1 else
      match s1 with
      | EmptyString => push a (ws_fields s1)
      | String b s2 =>
          if ws2 a b then EmptyString :: ws_fields s2 else
          match s2 with
          | EmptyString => push a (ws_fields s1)
          | String c s3 =>
              if ws3 a b c then EmptyString :: ws_fields s3 else push a (ws_fields s1)
          end
      end
  end.

Definition str_is_empty (s : string) : bool :=
  match s with EmptyString => true | _ => false end.
Definition split_whitespace (s : string) : list string :=
  List.filter (λ f, negb (str_is_empty f)) (ws_fields s).
(** [s.trim().is_empty()] *)
Definition is_blank (s : string) : bool := str_is_empty (trim s).

(** [str::from_utf8(bytes).is_ok()]: the well-formed sequences of table 3-7 of
    the Unicode standard. *)
Definition in_range (lo hi : N) (a : ascii) : bool :=
  ((lo <=? ascii_code a) && (ascii_code a <=? hi))%N.
Definition utf8_cont (a : ascii) : bool := in_range 128 191 a.
Definition utf8_second_of_3 (a b : ascii) : bool :=
  let n := ascii_code a in
  if (n =? 224)%N then in_range 160 191 b
  else if (n =? 237)%N then in_range 128 159 b
  else in_range 225 239 a && utf8_cont b.
Definition utf8_second_of_4 (a b : ascii) : bool :=
  let n := ascii_code a in
  if (n =? 240)%N then in_range 144 191 b
  else if (n =? 244)%N then in_range 128 143 b
  else in_range 241 243 a && utf8_cont b.
Fixpoint utf8_valid (s : bytes) : bool :=
  match s with
  | EmptyString => true
  | String a s1 =>
      if in_range 0 127 a then utf8_valid s1 else
      match s1 with
      | EmptyString => false
      | String b s2 =>
          if in_range 194 223 a && utf8_cont b then utf8_valid s2 else
          match s2 with
          | EmptyString => false
          | String c s3 =>
              if utf8_second_of_3 a b && utf8_cont c then utf8_valid s3 else
              match s3 with
              | EmptyString => false
              | String d s4 =>
                  utf8_second_of_4 a b && utf8_cont c && utf8_cont d && utf8_valid s4
              end
          end
      end
  end.

Lemma utf8_valid_ascii s : str_forallb (in_range 0 127) s = true → utf8_valid s = true.
Proof. induction s as [|a s IH]; simpl; [done|]. intros [-> Hs]%andb_true_iff. auto. Qed.
Lemma str_forallb_impl (p q : ascii → bool) s :
  (∀ a, p a = true → q a = true) → str_forallb p s = true → str_forallb q s = true.
Proof. intros Hpq. induction s as [|a s IH]; simpl; [done|]. intros [Ha Hs]%andb_true_iff. by rewrite Hpq, IH. Qed.
Lemma str_forallb_existsb (p q : ascii → bool) s :
  (∀ a, p a = true → q a = false) → str_forallb p s = true → str_existsb q s = false.
Proof. intros Hpq. induction s as [|a s IH]; simpl; [done|]. intros [Ha Hs]%andb_true_iff. by rewrite Hpq, IH. Qed.

(** *** Decimal rendering: [{n}] and [{n:0width}] *)
Definition fmt_int (z : Z) : string := pretty z.
Fixpoint zeros (n : nat) : string :=
  match n with O => EmptyString | S n => String "0" (zeros n) end.
Definition fmt_padded (width : nat) (z : Z) : string :=
  let digits := pretty (Z.abs_N z) in
  if (z <? 0)%Z then "-" +:+ zeros (width - 1 - String.length digits) +:+ digits
  else zeros (width - String.length digits) +:+ digits.

(** ** String lemmas *)

Lemma str_app_length s t : String.length (s +:+ t) = String.length s + String.length t.
Proof. induction s; simpl; [done|]. unfold String.append; fold String.append. simpl. by rewrite IHs. Qed.

Lemma str_app_nil_r s : s +:+ "" = s.
Proof. induction s as [|a s IH]; [done|]. change (String a (s +:+ "") = String a s). by rewrite IH. Qed.

Lemma str_app_assoc s t u : s +:+ (t +:+ u) = (s +:+ t) +:+ u.
Proof. induction s as [|a s IH]; [done|]. change (String a (s +:+ (t +:+ u)) = String a ((s +:+ t) +:+ u)). by rewrite IH. Qed.

Lemma str_app_inv_l s t u : s +:+ t = s +:+ u → t = u.
Proof. induction s as [|a s IH]; [done|]. intros H. apply IH. by injection H. Qed.

Lemma str_app_inv_r s t u : s +:+ u = t +:+ u → s = t.
Proof.
  revert t; induction s as [|a s IH]; intros [|b t] Heq; [done| | |].
  - apply (f_equal String.length) in Heq. rewrite !str_app_length in Heq. simpl in Heq. lia.
  - apply (f_equal String.length) in Heq. rewrite !str_app_length in Heq. simpl in Heq. lia.
  - injection Heq as -> Heq. f_equal. by apply IH.
Qed.

Lemma str_take_drop n s : str_take n s +:+ str_drop n s = s.
Proof.
  revert s; induction n as [|n IH]; intros s; [by destruct s|].
  destruct s as [|a s]; [done|]. unfold str_take in *. simpl.
  change (String a (substring 0 n s +:+ str_drop n s) = String a s). by rewrite IH.
Qed.

Lemma str_take_app n s t : String.length s = n → str_take n (s +:+ t) = s.
Proof.
  intros <-. unfold str_take. induction s as [|a s IH]; [by destruct t|].
  change (String a (substring 0 (String.length s) (s +:+ t)) = String a s). by rewrite IH.
Qed.

Lemma str_drop_app n s t : String.length s = n → str_drop n (s +:+ t) = t.
Proof. intros <-. induction s as [|a s IH]; [done|]. apply IH. Qed.

Lemma str_length_drop n s : String.length (str_drop n s) = String.length s - n.
Proof. revert s; induction n as [|n IH]; intros [|a s]; simpl; [done..|apply IH]. Qed.

Lemma str_length_take n s : n ≤ String.length s → String.length (str_take n s) = n.
Proof.
  unfold str_take. revert s; induction n as [|n IH]; intros [|a s]; simpl; try done; [lia|].
  intros Hn. by rewrite IH by lia.
Qed.

Lemma str_drop_drop a b s : str_drop a (str_drop b s) = str_drop (b + a) s.
Proof. revert s; induction b as [|b IH]; intros [|c s]; simpl; try done. by destruct a. Qed.

Lemma str_drop_at n s : n < String.length s → str_drop n s = String (str_at n s) (str_drop (S n) s).
Proof.
  revert s; induction n as [|n IH]; intros [|a s] Hn; simpl in *; try lia; [done|].
  rewrite IH by lia. done.
Qed.

Lemma str_replace_app a b s t : str_replace a b (s +:+ t) = str_replace a b s +:+ str_replace a b t.
Proof.
  induction s as [|c s IH]; [done|].
  change (String c s +:+ t) with (String c (s +:+ t)). simpl. by rewrite IH.
Qed.

Lemma str_replace_length a b s : String.length (str_replace a b s) = String.length s.
Proof. induction s; simpl; congruence. Qed.

Lemma join_cons2 sep s t l : join sep (s :: t :: l) = s +:+ sep +:+ join sep (t :: l).
Proof. done. Qed.

Lemma join_snoc sep l s :
  join sep (l ++ [s]) = (if l is [] then "" else join sep l +:+ sep) +:+ s.
Proof.
  induction l as [|x l IH]; [done|]. destruct l as [|y l].
  - change (join sep ([x] ++ [s])) with (x +:+ sep +:+ s). by rewrite str_app_assoc.
  - change ((x :: y :: l) ++ [s]) with (x :: y :: (l ++ [s])).
    rewrite join_cons2. change (y :: (l ++ [s])) with ((y :: l) ++ [s]).
    rewrite IH, join_cons2. by rewrite !str_app_assoc.
Qed.

Lemma str_concat_app l1 l2 : str_concat (l1 ++ l2) = str_concat l1 +:+ str_concat l2.
Proof.
  induction l1 as [|s l1 IH]; simpl; [done|].
  by rewrite IH, str_app_assoc.
Qed.

Lemma strip_prefix_Some p s t : strip_prefix p s = Some t ↔ s = p +:+ t.
Proof.
  revert s; induction p as [|a p IH]; intros s; simpl.
  - split; [by intros [= ->]|by intros ->].
  - destruct s as [|b s]; [split; discriminate|].
    destruct (Ascii.eqb_spec a b) as [<-|Hne].
    + rewrite IH. split; [intros ->; done|intros H; by injection H].
    + split; [done|intros H; by injection H as ->].
Qed.

Lemma starts_with_true p s : starts_with p s = true ↔ ∃ t, s = p +:+ t.
Proof.
  unfold starts_with. rewrite bool_decide_eq_true. split.
  - intros [t Ht]. exists t. by apply strip_prefix_Some.
  - intros [t ->]. exists t. by apply strip_prefix_Some.
Qed.

(** [split_inclusive] only cuts: the pieces concatenate to the input. *)
Lemma split_inclusive_concat sep s : str_concat (split_inclusive sep s) = s.
Proof.
  induction s as [|a s IH]; simpl; [done|].
  destruct (Ascii.eqb_spec a sep) as [->|]; simpl.
  - by rewrite IH.
  - destruct (split_inclusive sep s) as [|seg segs]; simpl in *; by rewrite <- IH.
Qed.

(** Characters of the segments of [split_on]. *)
Lemma split_on_no_sep sep s seg :
  seg ∈ split_on sep s → str_existsb (Ascii.eqb sep) seg = false.
Proof.
  revert seg; induction s as [|a s IH]; intros seg; simpl.
  - intros ->%list_elem_of_singleton. done.
  - destruct (Ascii.eqb_spec a sep) as [->|Hne].
    + intros [->|Hin]%elem_of_cons; [done|auto].
    + destruct (split_on sep s) as [|s0 segs] eqn:Hs; simpl in *.
      * intros ->%list_elem_of_singleton. simpl. rewrite orb_false_r.
        by apply Ascii.eqb_neq.
      * intros [->|Hin]%elem_of_cons; [|apply IH; set_solver].
        simpl. rewrite (IH s0) by set_solver. rewrite orb_false_r. by apply Ascii.eqb_neq.
Qed.

Lemma split_on_not_nil sep s : split_on sep s ≠ [].
Proof.
  destruct s as [|a s]; simpl; [done|].
  destruct (Ascii.eqb a sep); [done|]. by destruct (split_on sep s).
Qed.

Lemma split_on_no_sep_id sep s :
  str_existsb (Ascii.eqb sep) s = false → split_on sep s = [s].
Proof.
  induction s as [|a s IH]; simpl; [done|].
  intros [Ha Hs]%orb_false_iff. rewrite IH by done.
  rewrite Ascii.eqb_sym in Ha. by rewrite Ha.
Qed.

Lemma split_on_app sep s t :
  str_existsb (Ascii.eqb sep) s = false →
  split_on sep (s +:+ String sep t) = s :: split_on sep t.
Proof.
  induction s as [|a s IH]; simpl.
  - intros _. change ("" +:+ String sep t) with (String sep t). simpl.
    by rewrite Ascii.eqb_refl.
  - intros [Ha Hs]%orb_false_iff.
    change (String a s +:+ String sep t) with (String a (s +:+ String sep t)). simpl.
    rewrite Ascii.eqb_sym in Ha. rewrite Ha, IH by done. done.
Qed.

(** [join] and [split_on] are inverse on segments without the separator. *)
Lemma split_on_join sep segs :
  segs ≠ [] → Forall (λ s, str_existsb (Ascii.eqb sep) s = false) segs →
  split_on sep (join (String sep "") segs) = segs.
Proof.
  induction segs as [|s segs IH]; [done|intros _ Hs].
  apply Forall_cons in Hs as [Hs Hsegs].
  destruct segs as [|s' segs].
  - simpl. by apply split_on_no_sep_id.
  - change (split_on sep (s +:+ String sep (join (String sep "") (s' :: segs))) = s :: s' :: segs).
    rewrite split_on_app by done. by rewrite IH.
Qed.

Lemma join_split_on sep s : join (String sep "") (split_on sep s) = s.
Proof.
  induction s as [|a s IH]; simpl; [done|].
  destruct (split_on sep s) as [|s0 segs] eqn:Hs; [by apply split_on_not_nil in Hs|].
  destruct (Ascii.eqb_spec a sep) as [->|Hne]; destruct segs; simpl in *;
    by rewrite <- IH.
Qed.

Lemma str_replace_no a b s :
  a ≠ b → str_existsb (Ascii.eqb a) (str_replace a b s) = false.
Proof.
  intros Hne; induction s as [|c s IH]; simpl; [done|].
  rewrite IH, orb_false_r. destruct (Ascii.eqb_spec c a) as [->|Hc].
  - by apply Ascii.eqb_neq.
  - by apply Ascii.eqb_neq.
Qed.

Lemma str_replace_id a b s :
  str_existsb (Ascii.eqb a) s = false → str_replace a b s = s.
Proof.
  induction s as [|c s IH]; simpl; [done|].
  intros [Ha Hs]%orb_false_iff. rewrite Ascii.eqb_sym in Ha. by rewrite Ha, IH.
Qed.

Lemma str_existsb_app p s t : str_existsb p (s +:+ t) = str_existsb p s || str_existsb p t.
Proof.
  induction s as [|a s IH]; [done|].
  change (String a s +:+ t) with (String a (s +:+ t)). simpl. by rewrite IH, orb_assoc.
Qed.

Lemma join_existsb p sep segs :
  str_existsb p sep = false → Forall (λ s, str_existsb p s = false) segs →
  str_existsb p (join sep segs) = false.
Proof.
  intros Hsep. induction 1 as [|s [|s' segs] Hs Hsegs IH]; [done|by simpl|].
  change (str_existsb p (s +:+ sep +:+ join sep (s' :: segs)) = false).
  by rewrite !str_existsb_app, Hs, Hsep, IH.
Qed.

(** Decimal numerals are made of digits and a sign. *)
Section numerals.
Context (p : ascii → bool).
Hypothesis Hdigit : ∀ n : N, p (pretty_N_char n) = false.

Lemma pretty_N_go_existsb x s :
  str_existsb p s = false → str_existsb p (pretty_N_go x s) = false.
Proof.
  revert s; induction (N.lt_wf_0 x) as [x _ IH]; intros s Hs.
  destruct (decide (0 < x)%N) as [Hx|Hx].
  - rewrite pretty_N_go_step by done. apply IH; [by apply N.div_lt|].
    simpl. by rewrite Hdigit, Hs.
  - assert (x = 0%N) as -> by lia. by rewrite pretty_N_go_0.
Qed.

Lemma pretty_N_existsb (x : N) : str_existsb p (pretty x) = false.
Proof.
  unfold pretty, pretty_N. case_decide.
  - simpl. pose proof (Hdigit 0%N) as H0. simpl in H0. by rewrite H0.
  - by apply pretty_N_go_existsb.
Qed.

Lemma fmt_int_existsb z : (0 ≤ z)%Z → str_existsb p (fmt_int z) = false.
Proof.
  intros Hz. unfold fmt_int, pretty, pretty_Z. destruct z as [|x|x]; [|apply pretty_N_existsb|lia].
  simpl. pose proof (Hdigit 0%N) as H0. simpl in H0. by rewrite H0.
Qed.
Lemma fmt_padded_existsb width z : p "-" = false → str_existsb p (fmt_padded width z) = false.
Proof.
  intros Hminus.
  assert (Hz0 : ∀ n, str_existsb p (zeros n) = false).
  { pose proof (Hdigit 0%N) as H0. simpl in H0. induction n as [|n IH]; [done|]. simpl. by rewrite H0, IH. }
  unfold fmt_padded. case_match; rewrite !str_existsb_app, Hz0, pretty_N_existsb; [|done].
  simpl. by rewrite Hminus.
Qed.
End numerals.

Lemma fmt_int_inj a b : fmt_int a = fmt_int b → a = b.
Proof. unfold fmt_int. apply (inj pretty). Qed.

Lemma list_elem_of_concat {A} (x : A) ls : x ∈ concat ls ↔ ∃ l, x ∈ l ∧ l ∈ ls.
Proof.
  rewrite list_elem_of_In, List.in_concat. setoid_rewrite list_elem_of_In. naive_solver.
Qed.

(** Inserting the pairs of a list one after the other. *)
Definition insert_all {V} (m : gmap string V) (l : list (string * V)) : gmap string V :=
  foldl (λ m kv, <[kv.1 := kv.2]> m) m l.
Lemma insert_all_union {V} (m : gmap string V) l :
  NoDup l.*1 → insert_all m l = list_to_map l ∪ m.
Proof.
  revert m; induction l as [|[k v] l IH]; intros m; simpl; [by rewrite (left_id_L ∅ (∪))|].
  intros [Hk Hnd]%NoDup_cons. rewrite IH by done.
  rewrite <- insert_union_r; [by rewrite insert_union_l|].
  by apply not_elem_of_list_to_map_1.
Qed.
Lemma size_insert_all {V} (l : list (string * V)) : NoDup l.*1 → size (insert_all ∅ l) = length l.
Proof. intros Hnd. by rewrite insert_all_union, (right_id_L ∅ (∪)), map_size_list_to_map. Qed.
Lemma lookup_insert_all {V} (l : list (string * V)) k v :
  NoDup l.*1 → (k, v) ∈ l → insert_all ∅ l !! k = Some v.
Proof.
  intros Hnd Hin. rewrite insert_all_union, (right_id_L ∅ (∪)) by done.
  by apply elem_of_list_to_map_1.
Qed.

Lemma NoDup_fmap_filter {A K} (f : A → K) (P : A → Prop) `{∀ x, Decision (P x)} (l : list A) :
  NoDup (f <$> l) → NoDup (f <$> filter P l).
Proof.
  induction l as [|x l IH]; [done|]. rewrite fmap_cons, NoDup_cons, filter_cons.
  intros [Hx Hl]. case_decide; [|auto]. rewrite fmap_cons. constructor; [|auto].
  intros (y & Hy & [_ Hin]%list_elem_of_filter)%list_elem_of_fmap. apply Hx. rewrite Hy.
  by apply list_elem_of_fmap_2.
Qed.

(** A list without duplicate keys holds one element per key. *)
Lemma NoDup_key_inj {A B} (key : A → B) (l : list A) x y :
  NoDup (key <$> l) → x ∈ l → y ∈ l → key x = key y → x = y.
Proof.
  intros Hnd Hx Hy Heq. apply list_elem_of_lookup in Hx as [i Hi], Hy as [j Hj].
  assert (i = j) as <-; [|congruence].
  eapply (NoDup_lookup _ i j (key x) Hnd); rewrite list_lookup_fmap; [by rewrite Hi|].
  by rewrite Hj, Heq.
Qed.

(** ** Ordering and sorting

    [sort_by leb] is the stable sort of [slice::sort_by]: an element goes before
    the first later element that it does not exceed. *)
Fixpoint insert_by {A} (leb : A → A → bool) (x : A) (l : list A) : list A :=
  match l with
  | [] => [x]
  | y :: l' => if leb x y then x :: l else y :: insert_by leb x l'
  end.
Definition sort_by {A} (leb : A → A → bool) (l : list A) : list A :=
  foldr (insert_by leb) [] l.

(** Byte-wise order of strings, [Ord for str]. *)
Definition str_leb (s t : string) : bool := String.leb s t.
Definition leb_on {A} (key : A → string) (x y : A) : bool := str_leb (key x) (key y).
(** Lexicographic order of pairs of strings. *)
Definition str_pair_leb (x y : string * string) : bool :=
  if decide (x.1 = y.1) then str_leb x.2 y.2 else str_leb x.1 y.1.

Class TotalPreorder {A} (leb : A → A → bool) : Prop := {
  tpo_total x y : leb x y = true ∨ leb y x = true;
  tpo_trans x y z : leb x y = true → leb y z = true → leb x z = true }.

Lemma str_leb_trans s t u : str_leb s t = true → str_leb t u = true → str_leb s u = true.
Proof.
  unfold str_leb. intros H1%Is_true_true H2%Is_true_true. apply Is_true_true.
  change (String.le s u). by etrans.
Qed.
Lemma str_leb_antisym s t : str_leb s t = true → str_leb t s = true → s = t.
Proof. apply String.leb_antisym. Qed.
Lemma str_leb_refl s : str_leb s s = true.
Proof. apply Is_true_true. change (String.le s s). done. Qed.
Lemma str_leb_total s t : str_leb s t = true ∨ str_leb t s = true.
Proof. apply String.leb_total. Qed.

#[export] Instance str_leb_preorder : TotalPreorder str_leb.
Proof. split; intros; [apply str_leb_total|by eapply str_leb_trans]. Qed.
#[export] Instance leb_on_total {A} (key : A → string) : TotalPreorder (leb_on key).
Proof. split; unfold leb_on; intros; [apply str_leb_total|by eapply str_leb_trans]. Qed.

#[export] Instance str_pair_leb_total {A} (key : A → string * string) :
  TotalPreorder (λ x y, str_pair_leb (key x) (key y)).
Proof.
  split; unfold str_pair_leb; intros x y.
  - repeat case_decide; try congruence; apply str_leb_total.
  - intros z. repeat case_decide; try congruence; intros Hxy Hyz; eauto using str_leb_trans.
    + exfalso. apply H. apply str_leb_antisym; congruence.
Qed.

Section sorting.
Context {A : Type} (leb : A → A → bool).

Lemma insert_by_perm x l : insert_by leb x l ≡ₚ x :: l.
Proof.
  induction l as [|y l IH]; simpl; [done|].
  destruct (leb x y); [done|]. rewrite IH. by constructor.
Qed.
Lemma sort_by_perm l : sort_by leb l ≡ₚ l.
Proof. induction l as [|x l IH]; simpl; [done|]. by rewrite insert_by_perm, IH. Qed.
Lemma elem_of_sort_by x l : x ∈ sort_by leb l ↔ x ∈ l.
Proof. by rewrite sort_by_perm. Qed.
Lemma length_sort_by l : length (sort_by leb l) = length l.
Proof. by rewrite sort_by_perm. Qed.
Lemma NoDup_sort_by {B} (f : A → B) l : NoDup (f <$> l) → NoDup (f <$> sort_by leb l).
Proof. by rewrite sort_by_perm. Qed.

Lemma sort_by_sorted_id l :
  StronglySorted (λ x y, leb x y = true) l → sort_by leb l = l.
Proof.
  induction 1 as [|x l Hl IH Hx]; simpl; [done|]. rewrite IH.
  destruct l as [|y l]; simpl; [done|]. by apply Forall_cons in Hx as [-> _].
Qed.

Context `{!TotalPreorder leb}.
Lemma insert_by_sorted x l :
  StronglySorted (λ x y, leb x y = true) l →
  StronglySorted (λ x y, leb x y = true) (insert_by leb x l).
Proof.
  induction 1 as [|y l Hl IH Hy]; simpl; [by repeat constructor|].
  destruct (leb x y) eqn:Hxy.
  - constructor; [by constructor|]. constructor; [done|].
    eapply Forall_impl; [done|]. intros z Hz. by eapply tpo_trans.
  - constructor; [done|]. rewrite insert_by_perm. constructor; [|done].
    destruct (tpo_total x y); congruence.
Qed.
Lemma sort_by_sorted l : StronglySorted (λ x y, leb x y = true) (sort_by leb l).
Proof. induction l; simpl; [constructor|by apply insert_by_sorted]. Qed.
Lemma sort_by_idemp l : sort_by leb (sort_by leb l) = sort_by leb l.
Proof. apply sort_by_sorted_id, sort_by_sorted. Qed.
End sorting.

(** A sorted list is determined by its elements when their keys are distinct. *)
Lemma sorted_perm_unique {A K} (leb : A → A → bool) (key : A → K) l1 l2 :
  (∀ x y, leb x y = true → leb y x = true → key x = key y) →
  NoDup (key <$> l1) → l1 ≡ₚ l2 →
  StronglySorted (λ x y, leb x y = true) l1 → StronglySorted (λ x y, leb x y = true) l2 →
  l1 = l2.
Proof.
  intros Hanti Hnd Hp H1 H2. eapply StronglySorted_unique_strong; [|done..].
  intros x y Hx Hy Hxy Hyx. rewrite <- Hp in Hy. by eapply NoDup_key_inj; eauto.
Qed.

(** Sorting strings depends only on the multiset. *)
Lemma str_sort_perm (l1 l2 : list string) : l1 ≡ₚ l2 → sort_by str_leb l1 = sort_by str_leb l2.
Proof.
  intros Hp. apply (StronglySorted_unique_strong (λ x y, str_leb x y = true)).
  - intros x y _ _. apply str_leb_antisym.
  - apply sort_by_sorted, _.
  - apply sort_by_sorted, _.
  - by rewrite !sort_by_perm.
Qed.

(** Sorting by a key depends only on the elements when the keys are distinct. *)
Lemma sort_by_key_unique {A} (key : A → string) (l1 l2 : list A) :
  l1 ≡ₚ l2 → NoDup (key <$> l1) → sort_by (leb_on key) l1 = sort_by (leb_on key) l2.
Proof.
  intros Hp Hnd. eapply (sorted_perm_unique _ key); [| | |apply sort_by_sorted, _..].
  - intros x y. apply str_leb_antisym.
  - by rewrite sort_by_perm.
  - by rewrite !sort_by_perm.
Qed.

(** Mapping and filtering sorted lists *)
Lemma insert_by_fmap {A B} (f : A → B) (lA : A → A → bool) (lB : B → B → bool) x l :
  (∀ a b, lB (f a) (f b) = lA a b) → insert_by lB (f x) (f <$> l) = f <$> insert_by lA x l.
Proof.
  intros Hl. induction l as [|y l IH]; [done|]. cbn [insert_by fmap list_fmap].
  rewrite Hl. destruct (lA x y); [done|]. by rewrite fmap_cons, <- IH.
Qed.
Lemma sort_by_fmap {A B} (f : A → B) (lA : A → A → bool) (lB : B → B → bool) l :
  (∀ a b, lB (f a) (f b) = lA a b) → sort_by lB (f <$> l) = f <$> sort_by lA l.
Proof.
  intros Hl. induction l as [|x l IH]; [done|].
  change (insert_by lB (f x) (sort_by lB (f <$> l)) = f <$> insert_by lA x (sort_by lA l)).
  rewrite IH. by apply insert_by_fmap.
Qed.

Lemma filter_insert_by {A} (key : A → string) (P : A → Prop) `{∀ x, Decision (P x)} x l :
  StronglySorted (λ x y, leb_on key x y = true) l →
  filter P (insert_by (leb_on key) x l) =
    if decide (P x) then insert_by (leb_on key) x (filter P l) else filter P l.
Proof.
  induction 1 as [|y l Hl IH Hy]; simpl.
  - rewrite filter_cons. by case_decide.
  - destruct (leb_on key x y) eqn:Hxy.
    + rewrite filter_cons. case_decide; [|done].
      assert (Hins : ∀ k, Forall (λ z, leb_on key x z = true) k → insert_by (leb_on key) x k = x :: k).
      { intros [|z k] Hk; [done|]. apply Forall_cons in Hk as [Hz _]. simpl. by rewrite Hz. }
      rewrite Hins; [done|]. apply Forall_forall. intros z [_ Hz]%list_elem_of_filter.
      apply elem_of_cons in Hz as [->|Hz]; [done|]. apply (proj1 (Forall_forall _ _) Hy) in Hz.
      unfold leb_on in *. by eapply str_leb_trans.
    + rewrite !filter_cons. repeat case_decide; simpl; rewrite ?Hxy, ?IH; repeat case_decide; done.
Qed.
Lemma filter_sort_by {A} (key : A → string) (P : A → Prop) `{∀ x, Decision (P x)} l :
  filter P (sort_by (leb_on key) l) = sort_by (leb_on key) (filter P l).
Proof.
  induction l as [|x l IH]; [done|]. simpl. rewrite filter_insert_by by apply sort_by_sorted, _.
  rewrite filter_cons, IH. by case_decide.
Qed.
(** Filtering all or nothing *)
Lemma list_filter_all {A} (P : A → Prop) `{∀ x, Decision (P x)} (l : list A) : (∀ x, x ∈ l → P x) → filter P l = l.
Proof.
  induction l as [|x l IH]; intros Hl; [done|]. rewrite filter_cons_True by (apply Hl; set_solver).
  f_equal. apply IH. intros y Hy. apply Hl. set_solver.
Qed.
Lemma list_filter_none {A} (P : A → Prop) `{∀ x, Decision (P x)} (l : list A) : (∀ x, x ∈ l → ¬ P x) → filter P l = [].
Proof.
  induction l as [|x l IH]; intros Hl; [done|]. rewrite filter_cons_False by (apply Hl; set_solver).
  apply IH. intros y Hy. apply Hl. set_solver.
Qed.
Lemma Forall_filter_of {A} (P Q : A → Prop) `{∀ x, Decision (P x)} (l : list A) : Forall Q l → Forall Q (filter P l).
Proof. rewrite !Forall_forall. intros Hl x [_ Hx]%list_elem_of_filter. by apply Hl. Qed.

#[export] Hint Resolve sort_by_perm sort_by_sorted : kuku.
#[export] Hint Rewrite @elem_of_sort_by @length_sort_by : kuku.

(** ** External functions *)

(** Unicode case mapping, [str::to_lowercase]: the tables of the Unicode
    standard are data the model does not copy. The laws are the ones the path
    code relies on: lower-casing is idempotent, it neither creates nor removes a
    separator, a dot segment or the empty string. *)
Class Unicode := { to_lowercase : string → string }.
Class UnicodeLaws `{Unicode} : Prop := {
  to_lowercase_idemp s : to_lowercase (to_lowercase s) = to_lowercase s;
  to_lowercase_sep c s : c = "/"%char ∨ c = "\"%char →
    str_existsb (Ascii.eqb c) (to_lowercase s) = str_existsb (Ascii.eqb c) s;
  to_lowercase_reserved s r : r = "" ∨ r = "." ∨ r = ".." →
    to_lowercase s = r ↔ s = r }.

(** BLAKE3 in lower-case hexadecimal, [blake3::hash(b).to_hex()]. *)
Class Blake3 := { blake3_hex : bytes → string }.
Class Blake3Laws `{Blake3} : Prop := { blake3_hex_length b : String.length (blake3_hex b) = 64 }.

(** Concrete instances, used to evaluate the model on examples: ASCII case
    mapping and a length-correct stand-in for the hash. *)
Module Concrete.
Definition ascii_unicode : Unicode := {| to_lowercase := to_ascii_lowercase |}.

Lemma ascii_lower_idemp a : ascii_lower (ascii_lower a) = ascii_lower a.
Proof. by destruct a as [[] [] [] [] [] [] [] []]. Qed.
Lemma ascii_lower_fixed (c a : ascii) :
  c = "/"%char ∨ c = "\"%char ∨ c = "."%char →
  Ascii.eqb c (ascii_lower a) = Ascii.eqb c a.
Proof. by intros [->|[->| ->]]; destruct a as [[] [] [] [] [] [] [] []]. Qed.
Lemma lower_dot a : ascii_lower a = "."%char ↔ a = "."%char.
Proof.
  split; intros Ha; [|by subst].
  pose proof (ascii_lower_fixed "."%char a ltac:(by auto)) as H.
  rewrite Ha, Ascii.eqb_refl in H. by apply Ascii.eqb_eq.
Qed.

Lemma ascii_unicode_laws : @UnicodeLaws ascii_unicode.
Proof.
  split; simpl.
  - induction s as [|a s IH]; simpl; [done|]. by rewrite ascii_lower_idemp, IH.
  - intros c s Hc. induction s as [|a s IH]; simpl; [done|].
    rewrite IH. f_equal. apply ascii_lower_fixed. naive_solver.
  - intros s r Hr. split.
    + destruct Hr as [->|[->| ->]]; destruct s as [|a [|b [|c s]]]; simpl; try done.
      * intros H. injection H as H. by apply lower_dot in H as ->.
      * intros H. injection H as H1 H2. apply lower_dot in H1 as ->. by apply lower_dot in H2 as ->.
    + intros ->. by destruct Hr as [->|[->| ->]].
Qed.

Definition pad_hash (b : bytes) : string := str_take 64 (b +:+ zeros 64).
Definition pad_blake3 : Blake3 := {| blake3_hex := pad_hash |}.

Lemma length_zeros n : String.length (zeros n) = n.
Proof. induction n; simpl; congruence. Qed.
Lemma pad_blake3_laws : @Blake3Laws pad_blake3.
Proof.
  split; intros b. unfold blake3_hex, pad_blake3, pad_hash.
  rewrite str_length_take; [done|]. rewrite str_app_length, length_zeros. lia.
Qed.
End Concrete.
