(* ===== verification/Text.v ===== *)
(** * Text

    Characters of UTF-8 texts, and [str::trim], which removes white space at both
    ends; what it leaves has none there, so trimming twice is trimming once. *)
From Stdlib Require Import Ascii String.
From S2P Require Import Prelude.

(** [value.chars().count()] of valid UTF-8: the bytes that start a character *)
Fixpoint char_count (s : string) : nat :=
  match s with
  | EmptyString => 0
  | String a s => (if utf8_cont a then 0 else 1) + char_count s
  end.
(** [value.chars().take(n).collect()] *)
Fixpoint take_chars (n : nat) (s : string) : string :=
  match s with
  | EmptyString => EmptyString
  | String a s =>
      if utf8_cont a then String a (take_chars n s)
      else match n with O => EmptyString | S n => String a (take_chars n s) end
  end.
(** [char::is_control] on some character: U+0000..U+001F and U+007F..U+009F *)
Fixpoint has_control (s : string) : bool :=
  match s with
  | EmptyString => false
  | String a s =>
      let n := ascii_code a in
      ((n <=? 31) || (n =? 127))%N
      || ((n =? 194)%N && match s with String b _ => (ascii_code b <=? 159)%N | EmptyString => false end)
      || has_control s
  end.
Definition ascii_upper (a : ascii) : ascii :=
  let n := ascii_code a in if ((97 <=? n) && (n <=? 122))%N then ascii_of_N (n - 32) else a.
Fixpoint to_ascii_uppercase (s : string) : string :=
  match s with
  | EmptyString => EmptyString
  | String a s => String (ascii_upper a) (to_ascii_uppercase s)
  end.

Lemma str_app_cons a s t : String a s +:+ t = String a (s +:+ t).
Proof. done. Qed.
Lemma str_rev_app_eq s t : String.rev_app s t = String.rev s +:+ t.
Proof.
  unfold String.rev. revert t. induction s as [|a s IH]; intros t; [done|].
  change (String.rev_app s (String a t) = String.rev_app s (String a "") +:+ t).
  rewrite (IH (String a t)), (IH (String a "")), <- str_app_assoc. done.
Qed.
Lemma str_rev_cons a s : String.rev (String a s) = String.rev s +:+ String a "".
Proof. exact (str_rev_app_eq s (String a "")). Qed.
Lemma str_rev_app s t : String.rev (s +:+ t) = String.rev t +:+ String.rev s.
Proof.
  induction s as [|a s IH]; [by rewrite str_app_nil_r|].
  by rewrite str_app_cons, !str_rev_cons, IH, str_app_assoc.
Qed.
Lemma str_rev_involutive s : String.rev (String.rev s) = s.
Proof. induction s as [|a s IH]; [done|]. by rewrite str_rev_cons, str_rev_app, IH. Qed.

(** White space at the start of a string, read forwards and backwards. *)
Definition starts_ws (s : string) : bool :=
  match s with
  | EmptyString => false
  | String a EmptyString => ws1 a
  | String a (String b EmptyString) => ws1 a || ws2 a b
  | String a (String b (String c _)) => ws1 a || ws2 a b || ws3 a b c
  end.
Definition starts_ws_rev (s : string) : bool :=
  match s with
  | EmptyString => false
  | String a EmptyString => ws1 a
  | String a (String b EmptyString) => ws1 a || ws2 b a
  | String a (String b (String c _)) => ws1 a || ws2 b a || ws3 c b a
  end.

(** The first step of [trim_start]. *)
Lemma trim_start_eq s : trim_start s =
  match s with
  | EmptyString => s
  | String a EmptyString => if ws1 a then "" else s
  | String a (String b EmptyString) =>
      if ws1 a then trim_start (String b "") else if ws2 a b then "" else s
  | String a (String b (String c s3)) =>
      if ws1 a then trim_start (String b (String c s3))
      else if ws2 a b then trim_start (String c s3) else if ws3 a b c then trim_start s3 else s
  end.
Proof. by destruct s as [|a [|b [|c s]]]. Qed.
Lemma trim_start_rev_eq s : trim_start_rev s =
  match s with
  | EmptyString => s
  | String a EmptyString => if ws1 a then "" else s
  | String a (String b EmptyString) =>
      if ws1 a then trim_start_rev (String b "") else if ws2 b a then "" else s
  | String a (String b (String c s3)) =>
      if ws1 a then trim_start_rev (String b (String c s3))
      else if ws2 b a then trim_start_rev (String c s3)
      else if ws3 c b a then trim_start_rev s3 else s
  end.
Proof. by destruct s as [|a [|b [|c s]]]. Qed.

Lemma trim_start_clean s : starts_ws (trim_start s) = false.
Proof.
  remember (String.length s) as n eqn:Hn. revert s Hn. induction (lt_wf n) as [n _ IH]. intros s ->.
  rewrite trim_start_eq. destruct s as [|a [|b [|c s]]]; repeat case_match; try done;
    try (eapply IH; [|reflexivity]; simpl; lia); simpl;
    repeat match goal with Heq : _ = false |- _ => rewrite Heq end; done.
Qed.
Lemma trim_start_rev_clean s : starts_ws_rev (trim_start_rev s) = false.
Proof.
  remember (String.length s) as n eqn:Hn. revert s Hn. induction (lt_wf n) as [n _ IH]. intros s ->.
  rewrite trim_start_rev_eq. destruct s as [|a [|b [|c s]]]; repeat case_match; try done;
    try (eapply IH; [|reflexivity]; simpl; lia); simpl;
    repeat match goal with Heq : _ = false |- _ => rewrite Heq end; done.
Qed.
Lemma trim_start_fixed s : starts_ws s = false → trim_start s = s.
Proof.
  rewrite trim_start_eq. destruct s as [|a [|b [|c s]]]; simpl; repeat case_match; simpl; done.
Qed.
Lemma trim_start_rev_fixed s : starts_ws_rev s = false → trim_start_rev s = s.
Proof.
  rewrite trim_start_rev_eq. destruct s as [|a [|b [|c s]]]; simpl; repeat case_match; simpl; done.
Qed.

Lemma starts_ws_prefix s t : starts_ws (s +:+ t) = false → starts_ws s = false.
Proof.
  destruct s as [|a [|b [|c s]]]; simpl; try done; destruct t as [|x [|y t]]; simpl; try done;
    rewrite !orb_false_iff; tauto.
Qed.

Lemma trim_start_rev_suffix s : ∃ p, s = p +:+ trim_start_rev s.
Proof.
  remember (String.length s) as n eqn:Hn. revert s Hn. induction (lt_wf n) as [n _ IH]. intros s ->.
  assert (Hex : ∀ q r, s = q +:+ r → String.length r < String.length s →
    ∃ p, s = p +:+ trim_start_rev r).
  { intros q r -> Hlt. destruct (IH _ Hlt r eq_refl) as [p Hp]. exists (q +:+ p).
    by rewrite <- str_app_assoc, <- Hp. }
  rewrite trim_start_rev_eq. destruct s as [|a [|b [|c s]]]; repeat case_match; try (by exists "");
    first [by apply (Hex (String a "")); simpl; [|lia] | by apply (Hex (String a (String b ""))); simpl; [|lia]
          | by apply (Hex (String a (String b (String c "")))); simpl; [|lia]
          | (by exists (String a "")) | by exists (String a (String b ""))].
Qed.

Lemma trim_end_prefix s : ∃ p, s = trim_end s +:+ p.
Proof.
  destruct (trim_start_rev_suffix (String.rev s)) as [p Hp]. exists (String.rev p).
  unfold trim_end. by rewrite <- str_rev_app, <- Hp, str_rev_involutive.
Qed.

Lemma trim_idemp s : trim (trim s) = trim s.
Proof.
  assert (Hclean : starts_ws (trim s) = false).
  { destruct (trim_end_prefix (trim_start s)) as [p Hp]. apply (starts_ws_prefix _ p).
    unfold trim. rewrite <- Hp. apply trim_start_clean. }
  unfold trim at 1. rewrite (trim_start_fixed _ Hclean). unfold trim, trim_end.
  by rewrite str_rev_involutive, trim_start_rev_fixed by apply trim_start_rev_clean.
Qed.
Lemma is_blank_trim s : is_blank (trim s) = is_blank s.
Proof. unfold is_blank. by rewrite trim_idemp. Qed.
#[export] Hint Rewrite trim_idemp is_blank_trim : kuku.

(** ** Printable ASCII *)

Definition printable (a : ascii) : bool := in_range 33 126 a.
Lemma printable_code a : printable a = true → (33 ≤ ascii_code a ≤ 126)%N.
Proof. unfold printable, in_range. by rewrite andb_true_iff, !N.leb_le. Qed.
(** A test on the code of a printable character that needs another code. *)
Ltac wrong_code := apply not_true_is_false; unfold ws1, ws2, ws3; cbv zeta;
  rewrite ?orb_true_iff, ?andb_true_iff, ?orb_true_iff, ?andb_true_iff, ?N.leb_le, ?N.eqb_eq; lia.
Lemma printable_ws1 a : printable a = true → ws1 a = false.
Proof. intros Ha%printable_code. wrong_code. Qed.
Lemma printable_ws2 a b : printable a = true → ws2 a b = false ∧ ws2 b a = false.
Proof. intros Ha%printable_code. split; wrong_code. Qed.
Lemma printable_ws3 a b c : printable a = true → ws3 a b c = false ∧ ws3 b c a = false.
Proof. intros Ha%printable_code. split; wrong_code. Qed.
Lemma starts_ws_printable a s : printable a = true → starts_ws (String a s) = false.
Proof.
  intros Ha. destruct s as [|b [|c s]]; simpl; rewrite (printable_ws1 a Ha), ?(proj1 (printable_ws2 a b Ha)); try done.
  by rewrite (proj1 (printable_ws3 a b c Ha)).
Qed.
Lemma starts_ws_rev_printable a s : printable a = true → starts_ws_rev (String a s) = false.
Proof.
  intros Ha. destruct s as [|b [|c s]]; simpl; rewrite (printable_ws1 a Ha), ?(proj2 (printable_ws2 a b Ha)); try done.
  by rewrite (proj2 (printable_ws3 a c b Ha)).
Qed.
Lemma str_forallb_app p s t : str_forallb p (s +:+ t) = str_forallb p s && str_forallb p t.
Proof.
  induction s as [|a s IH]; [done|]. rewrite str_app_cons. simpl. by rewrite IH, andb_assoc.
Qed.
Lemma str_forallb_rev p s : str_forallb p (String.rev s) = str_forallb p s.
Proof.
  induction s as [|a s IH]; [done|]. rewrite str_rev_cons, str_forallb_app, IH. simpl.
  by rewrite andb_true_r, andb_comm.
Qed.
Lemma trim_printable s : str_forallb printable s = true → trim s = s.
Proof.
  intros Hs. unfold trim, trim_end.
  assert (Hstart : trim_start s = s).
  { apply trim_start_fixed. destruct s as [|a s]; [done|]. simpl in Hs.
    apply andb_true_iff in Hs as [Ha _]. by apply starts_ws_printable. }
  rewrite Hstart, trim_start_rev_fixed, str_rev_involutive; [done|].
  rewrite <- str_forallb_rev in Hs. destruct (String.rev s) as [|a t]; [done|]. simpl in Hs.
  apply andb_true_iff in Hs as [Ha _]. by apply starts_ws_rev_printable.
Qed.
Lemma has_control_printable s : str_forallb printable s = true → has_control s = false.
Proof.
  induction s as [|a s IH]; [done|]. simpl. intros [Ha Hs]%andb_true_iff. rewrite (IH Hs), orb_false_r.
  apply printable_code in Ha.
  assert (Hc : ((ascii_code a <=? 31) || (ascii_code a =? 127) = false)%N) by wrong_code.
  assert (H194 : (ascii_code a =? 194)%N = false) by wrong_code. by rewrite Hc, H194.
Qed.
