(* ===== verification/SyncErrors.v ===== *)
(** * The error type of the sync engine (sync/errors.rs)

    [SyncError] with its [Display] text, and [SyncError::category], the
    classification the desktop shell acts on. *)
From Stdlib Require Import Ascii String.
From S2P Require Import Prelude.

Inductive SyncErrorCategory :=
| CatNotConfigured | CatLoginRequired | CatPermissionRequired | CatSyncDisabled
| CatOffline | CatQuotaExceeded | CatPassphraseFailed | CatServer | CatUnknown.

#[export] Instance SyncErrorCategory_eq_dec : EqDecision SyncErrorCategory.
Proof. solve_decision. Defined.

Inductive SyncError :=
| Crypto (message : string)
| Integrity (message : string)
| InvalidArgument (message : string)
| LoginRequired
| NotConfigured
| Offline (message : string)
| PermissionRequired
| QuotaExceeded (message : string)
| Serialization (message : string)
| Server (message : string)
| Storage (message : string)
| SyncDisabled
| Transport (message : string)
| UnsupportedVersion (version : Z).

#[export] Instance SyncError_eq_dec : EqDecision SyncError.
Proof. solve_decision. Defined.

Abbreviation SyncResult := (Result SyncError).

Record SyncCommandError := { ce_category : SyncErrorCategory; ce_message : string }.

(** [Display for SyncError] *)
Definition display (e : SyncError) : string :=
  match e with
  | Crypto m => "sync crypto error: " +:+ m
  | Integrity m => "sync integrity error: " +:+ m
  | InvalidArgument m => "invalid sync argument: " +:+ m
  | LoginRequired => "sync login is required"
  | NotConfigured => "sync is not configured"
  | Offline m => "sync connection error: " +:+ m
  | PermissionRequired => "sync account permission is required"
  | QuotaExceeded m => "sync quota exceeded: " +:+ m
  | Serialization m => "sync serialization error: " +:+ m
  | Server m => "sync server error: " +:+ m
  | Storage m => "sync storage error: " +:+ m
  | SyncDisabled => "sync is disabled on this server"
  | Transport m => "sync transport error: " +:+ m
  | UnsupportedVersion v => "unsupported sync version: " +:+ fmt_int v
  end.

Section category.
Context `{Unicode}.

Definition contains_case_insensitive (value needle : string) : bool :=
  str_contains needle (to_lowercase value).

Definition category_from_transport_message (message : string) : SyncErrorCategory :=
  let lower := to_lowercase message in
  let has needle := str_contains needle lower in
  if has "sync disabled" then CatSyncDisabled
  else if has "resource_exhausted" || has "quota" then CatQuotaExceeded
  else if has "permission_denied" || has "permission denied" then CatPermissionRequired
  else if has "unauthenticated" || has "unauthorized" || has "login" then CatLoginRequired
  else if has "unavailable" || has "deadline_exceeded" || has "network" || has "offline"
          || has "connection refused" || has "error sending request" then CatOffline
  else if has "internal" || has "unknown" then CatServer
  else CatUnknown.

(** [SyncError::category] *)
Definition category (e : SyncError) : SyncErrorCategory :=
  match e with
  | NotConfigured => CatNotConfigured
  | LoginRequired => CatLoginRequired
  | PermissionRequired => CatPermissionRequired
  | SyncDisabled => CatSyncDisabled
  | Offline _ => CatOffline
  | QuotaExceeded _ => CatQuotaExceeded
  | Server _ => CatServer
  | Crypto message =>
      if contains_case_insensitive message "passphrase"
         || contains_case_insensitive message "recovery phrase"
      then CatPassphraseFailed else CatUnknown
  | Transport message => category_from_transport_message message
  | _ => CatUnknown
  end.

(** [SyncCommandError::from_sync_error] and [command_error] *)
Definition command_error (e : SyncError) : SyncCommandError :=
  {| ce_category := category e; ce_message := display e |}.
End category.

(** The shared argument check [validate_required] of the applier, the
    checkpoint pipeline and the transfer queue. *)
Definition validate_required (value field : string) : SyncResult unit :=
  reject_if (is_blank value) (InvalidArgument (field +:+ " is required")).
