(* ===== verification/Paths.v ===== *)
(** * Paths (std::path on Unix, vault/mod.rs, sync/scanner.rs)

    [Path::components], [file_stem] and [extension] as the standard library
    defines them for Unix paths; the vault path resolution of vault/mod.rs; the
    normal form of a synchronised path computed by the scanner. An absolute path
    is the list of its normal components below the root directory. *)
From Stdlib Require Import Ascii String.
#[local] Set Warnings "-clear-no-such-hyp".
From S2P Require Import Prelude SyncErrors.

(** ** std::path *)

Inductive Component :=
| RootDir
| CurDir
| ParentDir
| Normal (name : string).

Definition slash : ascii := "/"%char.
Definition backslash : ascii := "\"%char.

(** A segment after the first one: empty and "." segments disappear. *)
Definition component_of_segment (seg : string) : option Component :=
  if bool_decide (seg = "" ∨ seg = ".") then None
  else if bool_decide (seg = "..") then Some ParentDir
  else Some (Normal seg).

(** [Path::new(p).components()] *)
Definition components (p : string) : list Component :=
  match split_on slash p with
  | [] => []
  | first :: rest =>
      let tail := omap component_of_segment rest in
      if bool_decide (first = "") then
        (* a leading separator, unless the whole path is empty *)
        match rest with [] => [] | _ => RootDir :: tail end
      else if bool_decide (first = ".") then CurDir :: tail
      else option_list (component_of_segment first) ++ tail
  end.

(** Absolute paths, as the names from the root of the file system down. *)
Abbreviation AbsPath := (list string).
(** [Path::join] with a text; parent components go up as the system resolves them. *)
Definition join_component (p : AbsPath) (c : Component) : AbsPath :=
  match c with
  | RootDir => []
  | CurDir => p
  | ParentDir => removelast p
  | Normal name => p ++ [name]
  end.
Definition path_join (base : AbsPath) (s : string) : AbsPath := fold_left join_component (components s) base.
(** [rsplit_file_at_dot]: text before and after the last dot. *)
Fixpoint rsplit_dot (s : string) : option (string * string) :=
  match s with
  | EmptyString => None
  | String a s' =>
      match rsplit_dot s' with
      | Some (before, after) => Some (String a before, after)
      | None => if Ascii.eqb a "." then Some (EmptyString, s') else None
      end
  end.

(** [Path::file_stem] and [Path::extension] of a path whose last component is
    the normal component [name]. *)
Definition file_stem (name : string) : string :=
  match rsplit_dot name with
  | Some (EmptyString, _) | None => name
  | Some (before, _) => before
  end.
Definition extension (name : string) : option string :=
  match rsplit_dot name with
  | Some (EmptyString, _) | None => None
  | Some (_, after) => Some after
  end.

(** The last component, when it is a normal one ([Path::file_name]). *)
Definition file_name (p : string) : option string :=
  match last (components p) with Some (Normal n) => Some n | _ => None end.

(** [PathBuf::to_string_lossy] of a relative path of normal components. *)
Definition slash_join (p : list string) : string := join "/" p.

(** ** vault/mod.rs *)

(** One component of the loop of [resolve_vault_path]. *)
Definition resolve_component (root : AbsPath) (relative_path : string)
    (resolved : AbsPath) (c : Component) : Result string AbsPath :=
  match c with
  | Normal name => Ok (resolved ++ [name])
  | ParentDir =>
      let popped := removelast resolved in
      if bool_decide (root `prefix_of` popped) then Ok popped
      else Err ("Path traversal denied: '" +:+ relative_path +:+ "' escapes vault root")
  | CurDir => Ok resolved
  | RootDir => Err ("Absolute paths not allowed: '" +:+ relative_path +:+ "'")
  end.

Definition resolve_vault_path (root : AbsPath) (relative_path : string) : Result string AbsPath :=
  if str_is_empty relative_path then Ok root else
  resolved ← try_fold (resolve_component root relative_path) root (components relative_path);
  if bool_decide (root `prefix_of` resolved) then Ok resolved
  else Err ("Path traversal denied: '" +:+ relative_path +:+ "' resolved outside vault").

(** The walk of [assert_no_symlink_within_vault]: every prefix of [resolved]
    below the root, shortest first. [is_symlink] is [symlink_metadata]'s answer,
    [false] for a missing entry; [display] renders the offending path. *)
Fixpoint assert_no_symlink_from (is_symlink : AbsPath → bool) (current : AbsPath)
    (segments : list string) : Result string unit :=
  match segments with
  | [] => Ok tt
  | seg :: segments =>
      let current := current ++ [seg] in
      if is_symlink current
      then Err ("Symlinks are not allowed in the vault: /" +:+ slash_join current)
      else assert_no_symlink_from is_symlink current segments
  end.

Definition assert_no_symlink_within_vault (is_symlink : AbsPath → bool)
    (root resolved : AbsPath) : Result string unit :=
  if bool_decide (root `prefix_of` resolved)
  then assert_no_symlink_from is_symlink root (drop (length root) resolved)
  else Err ("Path not within vault: /" +:+ slash_join resolved).

Definition resolve_vault_path_strict (is_symlink : AbsPath → bool)
    (root : AbsPath) (relative_path : string) : Result string AbsPath :=
  resolved ← resolve_vault_path root relative_path;
  _ ← assert_no_symlink_within_vault is_symlink root resolved;
  Ok resolved.

(** [should_ignore_path] on a relative path of normal components: hidden
    anywhere, or a temporary name in last position. *)
Definition should_ignore_path (path : list string) : bool :=
  if existsb (starts_with ".") path then true
  else match last path with
       | Some name => bool_decide (name = ".DS_Store") || ends_with ".tmp" name || ends_with "~" name
       | None => false
       end.

(** [to_relative_path] below the root: separators become slashes. *)
Definition to_relative_path (path : list string) : string :=
  str_replace backslash slash (slash_join path).

Definition matches_extensions (name : string) (extensions : list string) : bool :=
  match extensions with
  | [] => true
  | _ => existsb (λ ext, ends_with ("." +:+ to_ascii_lowercase ext) (to_ascii_lowercase name))
           extensions
  end.

(** ** sync/scanner.rs: normal form of a path *)

Definition is_markdown_path (name : string) : bool :=
  match extension name with
  | Some ext => eq_ignore_ascii_case ext "md"
  | None => false
  end.

Section normalize.
Context `{Unicode}.

Definition normalize_segment (comps : list string) (segment : string) : SyncResult (list string) :=
  if bool_decide (segment = "" ∨ segment = ".") then Ok comps
  else if bool_decide (segment = "..") then
    Err (InvalidArgument "sync path traversal is not allowed")
  else Ok (comps ++ [to_lowercase segment]).

Definition normalize_vault_relative_path (relative_path : string) : SyncResult string :=
  let normalized_separators := str_replace backslash slash relative_path in
  _ ← reject_if (str_is_empty normalized_separators || starts_with "/" normalized_separators)
        (InvalidArgument "sync path must be vault-relative");
  comps ← try_fold normalize_segment [] (split_on slash normalized_separators);
  match comps with
  | [] => Err (InvalidArgument "sync path must include a file name")
  | _ => Ok (join "/" comps)
  end.
End normalize.

(** ** Resolution stays inside the vault *)

Lemma resolve_component_inside root rel resolved c resolved' :
  root `prefix_of` resolved →
  resolve_component root rel resolved c = Ok resolved' → root `prefix_of` resolved'.
Proof.
  intros Hin. destruct c as [| | |name]; simpl.
  - done.
  - by intros [= <-].
  - case_bool_decide; [by intros [= <-]|done].
  - intros [= <-]. by apply prefix_app_r.
Qed.

Lemma resolve_vault_path_inside root rel resolved :
  resolve_vault_path root rel = Ok resolved → root `prefix_of` resolved.
Proof.
  unfold resolve_vault_path. destruct (str_is_empty rel); [by intros [= <-]|].
  intros H. ok_step H. case_bool_decide; [|done]. by injection H as <-.
Qed.

Lemma assert_no_symlink_from_Ok is_symlink current segs :
  assert_no_symlink_from is_symlink current segs = Ok tt →
  ∀ p, current `prefix_of` p → p ≠ current → p `prefix_of` current ++ segs → is_symlink p = false.
Proof.
  revert current; induction segs as [|seg segs IH]; simpl; intros current H p Hc Hne Hp.
  - rewrite app_nil_r in Hp. destruct Hne. symmetry. apply prefix_length_eq; [done|].
    by apply prefix_length.
  - destruct (is_symlink (current ++ [seg])) eqn:Hs; [done|].
    destruct Hc as [[|s k] ->]; [by rewrite app_nil_r in Hne|].
    apply prefix_app_inv, prefix_cons_inv_1 in Hp as Hs1. subst s.
    destruct k as [|t k]; [done|].
    eapply (IH _ H).
    + exists (t :: k). by rewrite <- app_assoc.
    + intros Heq%(f_equal length). rewrite !length_app in Heq. simpl in Heq. lia.
    + rewrite <- app_assoc. by apply prefix_app.
Qed.

(** A path that resolves strictly lies in the vault and no component of it below
    the root is a symbolic link. *)
Lemma resolve_strict_safe is_symlink root rel resolved :
  resolve_vault_path_strict is_symlink root rel = Ok resolved →
  root `prefix_of` resolved ∧
  ∀ p, root `prefix_of` p → p ≠ root → p `prefix_of` resolved → is_symlink p = false.
Proof.
  unfold resolve_vault_path_strict, assert_no_symlink_within_vault. intros H.
  ok_inv H. pose proof (resolve_vault_path_inside _ _ _ Hok) as [k ->].
  split; [by apply prefix_app_r|].
  rewrite bool_decide_eq_true_2 in Hok0 by (by apply prefix_app_r).
  rewrite drop_app_length in Hok0.
  match goal with u : unit |- _ => destruct u end.
  by apply assert_no_symlink_from_Ok.
Qed.

(** ** The normal form of a path *)

Lemma str_existsb_split p sep s seg :
  seg ∈ split_on sep s → str_existsb p s = false → str_existsb p seg = false.
Proof.
  revert seg; induction s as [|a s IH]; intros seg; simpl.
  - by intros ->%list_elem_of_singleton.
  - intros Hin [Ha Hs]%orb_false_iff.
    destruct (Ascii.eqb a sep); [apply elem_of_cons in Hin as [->|Hin]; auto|].
    destruct (split_on sep s) as [|s0 segs] eqn:E; simpl in *.
    + apply list_elem_of_singleton in Hin as ->. simpl. by rewrite Ha.
    + apply elem_of_cons in Hin as [->|Hin]; [|apply IH; set_solver].
      simpl. rewrite Ha. apply IH; [set_solver|done].
Qed.

(** Names of entries: what a segment of a path must be to name a child. *)
Definition plain_name (s : string) : Prop :=
  s ≠ "" ∧ s ≠ "." ∧ s ≠ ".." ∧ str_existsb (Ascii.eqb slash) s = false.
Lemma component_plain s : plain_name s → component_of_segment s = Some (Normal s).
Proof.
  intros (H1 & H2 & H3 & _). unfold component_of_segment.
  rewrite bool_decide_false by naive_solver. by rewrite bool_decide_false.
Qed.
Lemma components_plain segs : Forall plain_name segs → omap component_of_segment segs = Normal <$> segs.
Proof.
  induction 1 as [|x l Hx Hl IH]; [done|].
  change (match component_of_segment x with Some c => c :: omap component_of_segment l
          | None => omap component_of_segment l end = Normal x :: (Normal <$> l)).
  by rewrite (component_plain x), IH.
Qed.
Lemma components_join segs : segs ≠ [] → Forall plain_name segs → components (join "/" segs) = Normal <$> segs.
Proof.
  intros Hne Hs. unfold components.
  rewrite split_on_join; [|done|by eapply Forall_impl; [done|]; intros s (_ & _ & _ & ?)].
  destruct segs as [|s segs]; [done|]. apply Forall_cons in Hs as [Hs Hsegs].
  destruct Hs as (H1 & H2 & H3 & H4). rewrite !bool_decide_false by done.
  rewrite component_plain by done. simpl. f_equal. by apply components_plain.
Qed.
Lemma path_join_segments root segs :
  segs ≠ [] → Forall plain_name segs → path_join root (join "/" segs) = root ++ segs.
Proof.
  intros Hne Hs. unfold path_join. rewrite components_join by done. clear Hne Hs. revert root.
  induction segs as [|s segs IH]; intros root; [by rewrite app_nil_r|].
  simpl. rewrite IH. by rewrite <- app_assoc.
Qed.
Lemma path_join_name root s : plain_name s → path_join root s = root ++ [s].
Proof. intros Hs. by apply (path_join_segments root [s]); [|constructor]. Qed.

Section normalize_lemmas.
Context `{UnicodeLaws}.

(** Segments the normal form is made of. *)
Definition plain_segment (s : string) : Prop :=
  s ≠ "" ∧ s ≠ "." ∧ s ≠ ".." ∧
  str_existsb (Ascii.eqb slash) s = false ∧ str_existsb (Ascii.eqb backslash) s = false ∧
  to_lowercase s = s.

Lemma normalize_segment_Ok comps seg comps' :
  str_existsb (Ascii.eqb slash) seg = false → str_existsb (Ascii.eqb backslash) seg = false →
  Forall plain_segment comps → normalize_segment comps seg = Ok comps' →
  Forall plain_segment comps'.
Proof.
  intros Hs Hb Hc. unfold normalize_segment.
  case_bool_decide as H1; [by intros [= <-]|]. case_bool_decide as H2; [done|].
  intros [= <-]. apply Forall_app. split; [done|]. apply Forall_singleton.
  unfold plain_segment. rewrite !to_lowercase_sep, to_lowercase_idemp by auto.
  rewrite !to_lowercase_reserved by auto. naive_solver.
Qed.

Lemma normalize_segment_plain1 comps s :
  plain_segment s → normalize_segment comps s = Ok (comps ++ [s]).
Proof.
  intros (H1 & H2 & H3 & _ & _ & H4). unfold normalize_segment.
  rewrite bool_decide_eq_false_2 by naive_solver.
  rewrite bool_decide_eq_false_2 by done. by rewrite H4.
Qed.

Lemma normalize_segment_plain comps segs :
  Forall plain_segment segs → try_fold normalize_segment comps segs = Ok (comps ++ segs).
Proof.
  revert comps; induction segs as [|s segs IH]; intros comps Hs; simpl.
  - by rewrite app_nil_r.
  - apply Forall_cons in Hs as [Hs1 Hs].
    rewrite normalize_segment_plain1 by done. simpl.
    rewrite IH by done. by rewrite <- app_assoc.
Qed.

(** The result is a non-empty "/"-join of plain segments. *)
Lemma normalize_shape p n :
  normalize_vault_relative_path p = Ok n →
  ∃ segs, segs ≠ [] ∧ Forall plain_segment segs ∧ n = join "/" segs.
Proof.
  unfold normalize_vault_relative_path. intros Hn.
  apply bind_Ok_inv in Hn as (u & _ & Hn).
  apply bind_Ok_inv in Hn as (comps & Hf & Hn).
  exists comps. assert (Hp : Forall plain_segment comps).
  { revert Hf. apply try_fold_invariant; [by constructor|].
    intros s x s' Hx Hs. apply normalize_segment_Ok; [| |done].
    - by eapply split_on_no_sep.
    - eapply str_existsb_split; [done|]. by apply str_replace_no. }
  destruct comps; [done|]. by injection Hn as <-.
Qed.

Lemma normalize_join segs :
  segs ≠ [] → Forall plain_segment segs →
  normalize_vault_relative_path (join "/" segs) = Ok (join "/" segs).
Proof.
  intros Hne Hs. unfold normalize_vault_relative_path.
  assert (Hb : str_existsb (Ascii.eqb backslash) (join "/" segs) = false).
  { apply join_existsb; [done|]. eapply Forall_impl; [done|]. by intros s (?&?&?&?&?&?). }
  rewrite str_replace_id by done.
  rewrite split_on_join; [|done|].
  2: { eapply Forall_impl; [done|]. by intros s (?&?&?&?&?&?). }
  assert (Hnot : str_is_empty (join "/" segs) || starts_with "/" (join "/" segs) = false).
  { destruct segs as [|[|a s] segs]; [done| |].
    - apply Forall_cons in Hs as [(? & _) _]. done.
    - apply Forall_cons in Hs as [(_ & _ & _ & Ha & _) _]. simpl in Ha.
      apply orb_false_iff in Ha as [Ha _].
      destruct segs; simpl; unfold starts_with; simpl; unfold slash in Ha; by rewrite Ha. }
  rewrite Hnot. simpl. rewrite normalize_segment_plain by done. simpl.
  by destruct segs.
Qed.
End normalize_lemmas.

(** ** Properties of the paths *)

(** C9: vault confinement. When [resolve_vault_path_strict] accepts a
    vault-relative path, the resolved absolute path extends the vault root, every
    entry on the way from the root to it (the target included) is not a symbolic
    link, and the path contained no root component; conversely a path made of
    normal components resolves to exactly those components below the root, unless
    one of them is a symbolic link. *)
Theorem resolve_vault_path_strict_confined (is_symlink : AbsPath → bool) (root : AbsPath)
    (relative_path : string) :
  (∀ resolved, resolve_vault_path_strict is_symlink root relative_path = Ok resolved →
     root `prefix_of` resolved ∧
     (∀ p, root `prefix_of` p → p ≠ root → p `prefix_of` resolved → is_symlink p = false) ∧
     RootDir ∉ components relative_path) ∧
  (∀ names, components relative_path = Normal <$> names →
     resolve_vault_path_strict is_symlink root relative_path =
       (_ ← assert_no_symlink_from is_symlink root names; Ok (root ++ names))).
Proof.
  split.
  - intros resolved Hr. pose proof (resolve_strict_safe _ _ _ _ Hr) as [H1 H2].
    split; [done|]. split; [done|]. intros Hroot.
    unfold resolve_vault_path_strict in Hr. ok_step Hr.
    unfold resolve_vault_path in Hok. destruct (str_is_empty relative_path) eqn:He.
    { destruct relative_path; [by apply not_elem_of_nil in Hroot|done]. }
    ok_step Hok. clear -Hok0 Hroot. revert Hok0. generalize root at 2 as r.
    induction (components relative_path) as [|c cs IH]; intros r; simpl; [set_solver|].
    intros (r' & Hc & Hf)%bind_Ok_inv.
    apply elem_of_cons in Hroot as [<-|Hin]; [done|by eapply IH].
  - intros names Hn. unfold resolve_vault_path_strict, resolve_vault_path.
    destruct (str_is_empty relative_path) eqn:He.
    { destruct relative_path; [|done]. destruct names; [|done]. simpl.
      unfold assert_no_symlink_within_vault. rewrite bool_decide_eq_true_2 by done.
      rewrite drop_all. by rewrite app_nil_r. }
    rewrite Hn.
    assert (Hf : ∀ r, try_fold (resolve_component root relative_path) r (Normal <$> names)
                      = Ok (r ++ names)).
    { clear. induction names as [|n ns IH]; intros r; simpl; [by rewrite app_nil_r|].
      rewrite IH. by rewrite <- app_assoc. }
    rewrite Hf. simpl. rewrite bool_decide_eq_true_2 by (by apply prefix_app_r). simpl.
    unfold assert_no_symlink_within_vault.
    rewrite bool_decide_eq_true_2 by (by apply prefix_app_r).
    by rewrite drop_app_length.
Qed.

(** Normal form of synchronised paths. A successful
    [normalize_vault_relative_path] yields a non-empty "/"-joined list of
    lower-case segments, none of which is empty, "." or ".." or holds a separator;
    every such path is its own normal form, so normalisation is idempotent. *)
Theorem normalize_vault_relative_path_normal_form `{UnicodeLaws} (p n : string) :
  normalize_vault_relative_path p = Ok n →
  (∃ segs, segs ≠ [] ∧ Forall plain_segment segs ∧ n = join "/" segs ∧
           split_on slash n = segs) ∧
  normalize_vault_relative_path n = Ok n.
Proof.
  intros (segs & Hne & Hs & ->)%normalize_shape. split; [|by apply normalize_join].
  exists segs. repeat split; try done. apply split_on_join; [done|].
  eapply Forall_impl; [done|]. by intros s (?&?&?&?&?&?).
Qed.

Lemma normalize_witness :
  let _ := Concrete.ascii_unicode in
  normalize_vault_relative_path "Notes\./Project//Plan.MD" = Ok "notes/project/plan.md" ∧
  normalize_vault_relative_path "notes/project/plan.md" = Ok "notes/project/plan.md".
Proof.
  split; [vm_compute; reflexivity|].
  apply (@normalize_vault_relative_path_normal_form Concrete.ascii_unicode
           Concrete.ascii_unicode_laws "Notes\./Project//Plan.MD").
  vm_compute; reflexivity.
Defined.

Example resolve_escape :
  resolve_vault_path ["v"] "a/../../etc" =
  Err "Path traversal denied: 'a/../../etc' escapes vault root".
Proof. reflexivity. Qed.
Example resolve_dots : resolve_vault_path ["v"] "./a/../b.md" = Ok ["v"; "b.md"].
Proof. reflexivity. Qed.
Example extension_examples :
  (extension ".md", extension "a.md", extension "a.", file_stem ".x.y", extension "noext") =
  (None, Some "md", Some "", ".x", None).
Proof. reflexivity. Qed.

Lemma resolve_vault_path_strict_witness :
  resolve_vault_path_strict (λ _, false) ["v"] "a/b.md" = Ok ["v"; "a"; "b.md"] ∧
  RootDir ∉ components "a/b.md".
Proof.
  destruct (resolve_vault_path_strict_confined (λ _, false) ["v"] "a/b.md") as [Hsafe Hnames].
  assert (Hr : resolve_vault_path_strict (λ _, false) ["v"] "a/b.md" = Ok ["v"; "a"; "b.md"])
    by (apply (Hnames ["a"; "b.md"]); reflexivity).
  split; [exact Hr|]. exact (proj2 (proj2 (Hsafe _ Hr))).
Defined.
