(* ===== verification/Merge.v ===== *)
(** * Three-way merge and conflict copies (sync/merge.rs)

    [merge_markdown], the positional line merge of two divergent edits, and
    [conflict_copy_relative_path], the search for a free name for a conflict
    copy, with the civil-calendar arithmetic of its timestamp. *)
From Stdlib Require Import Ascii String.
#[local] Set Warnings "-clear-no-such-hyp".
From S2P Require Import Prelude SyncErrors Paths.

(** ** merge_markdown *)

Inductive MarkdownMergeOutcome :=
| Merged (content : bytes)
| Conflict.

#[export] Instance MarkdownMergeOutcome_eq_dec : EqDecision MarkdownMergeOutcome.
Proof. solve_decision. Defined.

Definition newline : ascii := "010"%char.

Definition utf8_or_conflict (b : bytes) : SyncResult string :=
  if utf8_valid b then Ok b
  else Err (InvalidArgument "markdown merge requires utf-8 content").

Definition split_lines (text : string) : list string :=
  if str_is_empty text then [] else split_inclusive newline text.

(** [lines.get(index).copied().unwrap_or("")] *)
Definition line_at (lines : list string) (index : nat) : string := default "" (lines !! index).

(** The body of the loop: the line to push, or [None] for a conflict. *)
Definition merge_line (base_line local_line remote_line : string) : option string :=
  if bool_decide (local_line = remote_line) then Some local_line
  else if bool_decide (local_line = base_line) then Some remote_line
  else if bool_decide (remote_line = base_line) then Some local_line
  else None.

(** [for index in start..start+count]: the merged text, or [None] at the first
    conflicting line. *)
Fixpoint merge_loop (base_lines local_lines remote_lines : list string)
    (index count : nat) (merged : string) : option string :=
  match count with
  | O => Some merged
  | S count =>
      match merge_line (line_at base_lines index) (line_at local_lines index)
              (line_at remote_lines index) with
      | Some line => merge_loop base_lines local_lines remote_lines (S index) count (merged +:+ line)
      | None => None
      end
  end.

Definition merge_markdown (base local remote : bytes) : SyncResult MarkdownMergeOutcome :=
  if bool_decide (local = remote) then Ok (Merged local)
  else if bool_decide (base = local) then Ok (Merged remote)
  else if bool_decide (base = remote) then Ok (Merged local)
  else
    base ← utf8_or_conflict base;
    local ← utf8_or_conflict local;
    remote ← utf8_or_conflict remote;
    let base_lines := split_lines base in
    let local_lines := split_lines local in
    let remote_lines := split_lines remote in
    let max_len := Nat.max (Nat.max (length base_lines) (length local_lines)) (length remote_lines) in
    match merge_loop base_lines local_lines remote_lines 0 max_len "" with
    | Some merged => Ok (Merged merged)
    | None => Ok Conflict
    end.

(** ** conflict_copy_relative_path *)

(** Truncating division and remainder are [Z.quot] and [Z.rem]; [div_euclid] by
    a positive constant is [Z.div]. *)
Definition civil_from_days (days : Z) : Z * Z * Z :=
  (let z := days + 719468 in
   let era := Z.quot (if 0 <=? z then z else z - 146096) 146097 in
   let doe := z - era * 146097 in
   let yoe := Z.quot (doe - Z.quot doe 1460 + Z.quot doe 36524 - Z.quot doe 146096) 365 in
   let y := yoe + era * 400 in
   let doy := doe - (365 * yoe + Z.quot yoe 4 - Z.quot yoe 100) in
   let mp := Z.quot (5 * doy + 2) 153 in
   let day := doy - Z.quot (153 * mp + 2) 5 + 1 in
   let month := mp + (if mp <? 10 then 3 else -9) in
   let year := y + (if month <=? 2 then 1 else 0) in
   (year, month, day))%Z.

Definition timestamp_utc (ms : Z) : string :=
  let seconds := (ms / 1000)%Z in
  let days := (seconds / 86400)%Z in
  let seconds_of_day := (seconds `mod` 86400)%Z in
  let '(year, month, day) := civil_from_days days in
  let hour := Z.quot seconds_of_day 3600 in
  let minute := Z.quot (Z.rem seconds_of_day 3600) 60 in
  let second := Z.rem seconds_of_day 60 in
  fmt_padded 4 year +:+ fmt_padded 2 month +:+ fmt_padded 2 day +:+ "-" +:+
  fmt_padded 2 hour +:+ fmt_padded 2 minute +:+ fmt_padded 2 second.

Definition validate_component (out : list string) (c : Component) : SyncResult (list string) :=
  match c with
  | Normal value => Ok (out ++ [value])
  | CurDir => Ok out
  | _ => Err (InvalidArgument "conflict source path must be vault-relative")
  end.

Definition validate_relative_path (path : string) : SyncResult (list string) :=
  if is_blank path then Err (InvalidArgument "conflict source path is required") else
  out ← try_fold validate_component [] (components path);
  match out with
  | [] => Err (InvalidArgument "conflict source path is required")
  | _ => Ok out
  end.

Definition path_to_slash_string (p : list string) : string :=
  str_replace backslash slash (slash_join p).

(** The candidate name for one value of [suffix]. *)
Definition conflict_file_name (stem timestamp : string) (ext : option string) (suffix : Z) : string :=
  match ext with
  | Some ext =>
      if (suffix =? 1)%Z then stem +:+ ".conflict-" +:+ timestamp +:+ "." +:+ ext
      else stem +:+ ".conflict-" +:+ timestamp +:+ "-" +:+ fmt_int suffix +:+ "." +:+ ext
  | None =>
      if (suffix =? 1)%Z then stem +:+ ".conflict-" +:+ timestamp
      else stem +:+ ".conflict-" +:+ timestamp +:+ "-" +:+ fmt_int suffix
  end.

Definition conflict_candidate (original : list string) (timestamp : string) (suffix : Z) : string :=
  let name := default "" (last original) in
  path_to_slash_string
    (removelast original ++
     [conflict_file_name (file_stem name) timestamp (extension name) suffix]).

(** [for suffix in 1..]: [fuel] bounds the number of candidates tried. *)
Fixpoint first_free (candidate : Z → string) (exists_ : string → bool)
    (suffix : Z) (fuel : nat) : option string :=
  match fuel with
  | O => None
  | S fuel =>
      if exists_ (candidate suffix) then first_free candidate exists_ (suffix + 1) fuel
      else Some (candidate suffix)
  end.

Definition conflict_copy_relative_path (fuel : nat) (original_path : string)
    (created_at_ms : Z) (exists_ : string → bool) : SyncResult (option string) :=
  original ← validate_relative_path original_path;
  Ok (first_free (conflict_candidate original (timestamp_utc created_at_ms)) exists_ 1 fuel).

Example merge_keeps_non_overlapping_edits :
  let nl := String newline "" in
  merge_markdown ("a" +:+ nl +:+ "b" +:+ nl) ("A" +:+ nl +:+ "b" +:+ nl) ("a" +:+ nl +:+ "B" +:+ nl)
  = Ok (Merged ("A" +:+ nl +:+ "B" +:+ nl)).
Proof. reflexivity. Qed.
Example merge_same_line_conflict : merge_markdown "a" "local" "remote" = Ok Conflict.
Proof. reflexivity. Qed.
Example conflict_copy_uses_timestamp_and_suffix :
  conflict_copy_relative_path 5 "notes/a.md" 1000
    (λ c, bool_decide (c = "notes/a.conflict-19700101-000001.md"))
  = Ok (Some "notes/a.conflict-19700101-000001-2.md").
Proof. vm_compute. reflexivity. Qed.

(** ** The merge against its specification *)

(** The reference three-way rule for one line: what either side changed with
    respect to the base is kept, what both sides agree on is kept. *)
Definition three_way (b l r p : string) : Prop :=
  (l = r → p = l) ∧ (l ≠ b → p = l) ∧ (r ≠ b → p = r).

Lemma merge_line_Some b l r p : merge_line b l r = Some p ↔ three_way b l r p.
Proof.
  unfold merge_line, three_way. repeat case_bool_decide; subst; naive_solver.
Qed.
Lemma merge_line_None b l r : merge_line b l r = None ↔ l ≠ r ∧ l ≠ b ∧ r ≠ b.
Proof. unfold merge_line. repeat case_bool_decide; naive_solver. Qed.

Lemma merge_loop_Some bl ll rl count index acc m :
  merge_loop bl ll rl index count acc = Some m →
  ∃ pieces, m = acc +:+ str_concat pieces ∧ length pieces = count ∧
    ∀ i p, pieces !! i = Some p →
      three_way (line_at bl (index + i)) (line_at ll (index + i)) (line_at rl (index + i)) p.
Proof.
  revert index acc; induction count as [|count IH]; intros index acc; simpl.
  - intros [= <-]. exists []. split; [by rewrite str_app_nil_r|]. done.
  - destruct (merge_line _ _ _) as [line|] eqn:Hl; [|done].
    intros (pieces & -> & Hlen & Hp)%IH. exists (line :: pieces).
    split; [by rewrite <- str_app_assoc|]. split; [by simpl; rewrite Hlen|].
    intros [|i] p; simpl.
    + intros [= <-]. rewrite Nat.add_0_r. by apply merge_line_Some.
    + intros Hi. replace (index + S i) with (S index + i) by lia. by apply Hp.
Qed.

Lemma merge_loop_None bl ll rl count index acc :
  merge_loop bl ll rl index count acc = None →
  ∃ i, index ≤ i < index + count ∧
    line_at ll i ≠ line_at rl i ∧ line_at ll i ≠ line_at bl i ∧ line_at rl i ≠ line_at bl i.
Proof.
  revert index acc; induction count as [|count IH]; intros index acc; simpl; [done|].
  destruct (merge_line _ _ _) as [line|] eqn:Hl.
  - intros (i & Hi & ?)%IH. exists i. split; [lia|done].
  - intros _. exists index. split; [lia|]. by apply merge_line_None.
Qed.

(** The lines of a text, as the merge reads them. *)
Lemma split_lines_concat s : str_concat (split_lines s) = s.
Proof.
  unfold split_lines. destruct s as [|a s]; [done|]. simpl str_is_empty. cbv iota.
  apply split_inclusive_concat.
Qed.

Definition merge_len (base local remote : string) : nat :=
  Nat.max (Nat.max (length (split_lines base)) (length (split_lines local)))
    (length (split_lines remote)).

(** [pieces] are the lines of a correct three-way merge of the three texts. *)
Definition three_way_lines (base local remote : string) (pieces : list string) : Prop :=
  length pieces = merge_len base local remote ∧
  ∀ i p, pieces !! i = Some p →
    three_way (line_at (split_lines base) i) (line_at (split_lines local) i)
      (line_at (split_lines remote) i) p.

Lemma concat_padded (lines : list string) n :
  str_concat (lines ++ replicate n "") = str_concat lines.
Proof.
  rewrite str_concat_app.
  replace (str_concat (replicate n "")) with "" by (by induction n).
  apply str_app_nil_r.
Qed.

Lemma line_at_padded lines n i p :
  (lines ++ replicate n "") !! i = Some p → p = line_at lines i.
Proof.
  unfold line_at. rewrite lookup_app. destruct (lines !! i); [by intros [= ->]|].
  by intros [-> _]%lookup_replicate.
Qed.

(** One text is a correct merge when the other side made no change of its own. *)
Lemma three_way_lines_of base local remote side :
  (∀ i, three_way (line_at (split_lines base) i) (line_at (split_lines local) i)
          (line_at (split_lines remote) i) (line_at (split_lines side) i)) →
  length (split_lines side) ≤ merge_len base local remote →
  ∃ pieces, side = str_concat pieces ∧ three_way_lines base local remote pieces.
Proof.
  intros Hw Hlen.
  exists (split_lines side ++ replicate (merge_len base local remote - length (split_lines side)) "").
  split; [by rewrite concat_padded, split_lines_concat|]. split.
  - rewrite length_app, length_replicate. lia.
  - by intros i p ->%line_at_padded.
Qed.

(** C14: three-way merge. A [Merged] outcome is the concatenation of one piece
    per line index, and each piece follows the three-way rule: a line only one
    side changed carries that side's text, a line both sides agree on is kept; so
    no one-sided edit is lost. [Conflict] is answered only when some line was
    changed by both sides, differently, and the error only when the three texts
    are pairwise different and one of them is not UTF-8. *)
Theorem merge_markdown_three_way (base local remote : bytes) :
  match merge_markdown base local remote with
  | Ok (Merged m) => ∃ pieces, m = str_concat pieces ∧ three_way_lines base local remote pieces
  | Ok Conflict => ∃ i, i < merge_len base local remote ∧
      line_at (split_lines local) i ≠ line_at (split_lines remote) i ∧
      line_at (split_lines local) i ≠ line_at (split_lines base) i ∧
      line_at (split_lines remote) i ≠ line_at (split_lines base) i
  | Err e => e = InvalidArgument "markdown merge requires utf-8 content" ∧
      local ≠ remote ∧ base ≠ local ∧ base ≠ remote ∧
      utf8_valid base && utf8_valid local && utf8_valid remote = false
  end.
Proof.
  unfold merge_markdown, merge_len.
  case_bool_decide as H1; [subst; apply three_way_lines_of; [unfold three_way; naive_solver|unfold merge_len; lia]|].
  case_bool_decide as H2; [subst; apply three_way_lines_of; [unfold three_way; naive_solver|unfold merge_len; lia]|].
  case_bool_decide as H3; [subst; apply three_way_lines_of; [unfold three_way; naive_solver|unfold merge_len; lia]|].
  unfold utf8_or_conflict.
  destruct (utf8_valid base) eqn:Vb; simpl; [|done].
  destruct (utf8_valid local) eqn:Vl; simpl; [|done].
  destruct (utf8_valid remote) eqn:Vr; simpl; [|done].
  destruct (merge_loop _ _ _ _ _ _) as [m|] eqn:Hm.
  - apply merge_loop_Some in Hm as (pieces & -> & Hlen & Hp). by exists pieces.
  - apply merge_loop_None in Hm as (i & Hi & Hc). exists i. split; [|done].
    destruct Hi as [_ Hi]. exact Hi.
Qed.

Lemma merge_line_comm b l r : merge_line b l r = merge_line b r l.
Proof. unfold merge_line. repeat case_bool_decide; congruence. Qed.

Lemma merge_loop_comm bl ll rl index count acc :
  merge_loop bl ll rl index count acc = merge_loop bl rl ll index count acc.
Proof.
  revert index acc; induction count as [|count IH]; intros index acc; simpl; [done|].
  rewrite merge_line_comm. by case_match.
Qed.

Lemma utf8_or_conflict_comm l r {B} (k : string → string → SyncResult B) :
  (x ← utf8_or_conflict l; y ← utf8_or_conflict r; k x y) =
  (y ← utf8_or_conflict r; x ← utf8_or_conflict l; k x y).
Proof. unfold utf8_or_conflict. by destruct (utf8_valid l), (utf8_valid r). Qed.

(** Convergence. The merge does not depend on which device calls itself the
    local one: exchanging the two sides gives the same outcome, so two devices
    that merge each other's edits end with the same text. *)
Theorem merge_markdown_comm (base local remote : bytes) :
  merge_markdown base local remote = merge_markdown base remote local.
Proof.
  unfold merge_markdown. repeat case_bool_decide; try congruence.
  unfold utf8_or_conflict.
  destruct (utf8_valid base), (utf8_valid local), (utf8_valid remote); try done.
  simpl. rewrite merge_loop_comm.
  by rewrite <- (Nat.max_assoc _ (length (split_lines remote))), (Nat.max_comm (length (split_lines remote))), Nat.max_assoc.
Qed.

(** ** The civil calendar

    The reference: the proleptic Gregorian calendar counted from 1970-01-01, by
    the number of days before a year and before a month of it. *)
Definition is_leap (y : Z) : bool :=
  ((y `mod` 4 =? 0) && (negb (y `mod` 100 =? 0) || (y `mod` 400 =? 0)))%Z.
Definition month_length (leap : bool) (m : Z) : Z :=
  (if m =? 2 then if leap then 29 else 28
   else if (m =? 4) || (m =? 6) || (m =? 9) || (m =? 11) then 30 else 31)%Z.
Definition days_in_month (y m : Z) : Z := month_length (is_leap y) m.
(** Days from 1970-01-01 to January 1st of year [y]. *)
Definition days_before_year (y : Z) : Z :=
  (365 * (y - 1970) + ((y - 1) / 4 - (y - 1) / 100 + (y - 1) / 400) - 477)%Z.
Fixpoint month_start (leap : bool) (m : nat) : Z :=
  match m with
  | O => 0
  | S m => month_start leap m + (if m is O then 0 else month_length leap (Z.of_nat m))
  end%Z.
Definition days_before_month (y m : Z) : Z := month_start (is_leap y) (Z.to_nat m).
Definition days_from_civil (y m d : Z) : Z :=
  (days_before_year y + days_before_month y m + (d - 1))%Z.

Local Open Scope Z_scope.

(** The year-of-era step of the algorithm: [doe] is day [doy] of year [yoe]. *)
Lemma yoe_bounds doe :
  0 <= doe <= 146096 →
  let yoe := (doe - doe / 1460 + doe / 36524 - doe / 146096) / 365 in
  let doy := doe - (365 * yoe + yoe / 4 - yoe / 100) in
  0 <= yoe <= 399 ∧ 0 <= doy <= 365 ∧
  (doy = 365 → (yoe + 1) mod 4 = 0 ∧ ((yoe + 1) mod 100 = 0 → yoe = 399)).
Proof. intros H yoe doy. subst doy yoe. Z.to_euclidean_division_equations. lia. Qed.

Lemma is_leap_count y :
  (if is_leap y then 1 else 0) + ((y - 1) / 4 - (y - 1) / 100 + (y - 1) / 400)
  = y / 4 - y / 100 + y / 400.
Proof.
  unfold is_leap.
  destruct (Z.eqb_spec (y mod 4) 0), (Z.eqb_spec (y mod 100) 0), (Z.eqb_spec (y mod 400) 0);
    simpl; Z.to_euclidean_division_equations; lia.
Qed.

(** The month step: day-of-year [doy], counted from March 1st. *)
Lemma month_bounds doy :
  0 <= doy <= 365 →
  let mp := (5 * doy + 2) / 153 in
  0 <= mp <= 11 ∧ 0 <= doy - (153 * mp + 2) / 5.
Proof. intros H mp. subst mp. Z.to_euclidean_division_equations. lia. Qed.

(** The algorithm with floor divisions only. *)
Lemma civil_from_days_floor days :
  civil_from_days days =
  (let z := days + 719468 in
   let era := z / 146097 in
   let doe := z mod 146097 in
   let yoe := (doe - doe / 1460 + doe / 36524 - doe / 146096) / 365 in
   let doy := doe - (365 * yoe + yoe / 4 - yoe / 100) in
   let mp := (5 * doy + 2) / 153 in
   let day := doy - (153 * mp + 2) / 5 + 1 in
   let month := mp + (if mp <? 10 then 3 else -9) in
   (yoe + era * 400 + (if month <=? 2 then 1 else 0), month, day)).
Proof.
  unfold civil_from_days. set (z := days + 719468).
  assert (Hera : Z.quot (if 0 <=? z then z else z - 146096) 146097 = z / 146097).
  { destruct (Z.leb_spec 0 z).
    - by rewrite Z.quot_div_nonneg by lia.
    - Z.to_euclidean_division_equations. lia. }
  rewrite Hera.
  assert (Hdoe : z - z / 146097 * 146097 = z mod 146097) by (rewrite Z.mod_eq by lia; lia).
  cbv zeta. rewrite Hdoe.
  pose proof (Z.mod_pos_bound z 146097 ltac:(lia)) as Hb.
  set (doe := z mod 146097) in *.
  rewrite (Z.quot_div_nonneg doe 1460), (Z.quot_div_nonneg doe 36524),
    (Z.quot_div_nonneg doe 146096) by lia.
  rewrite (Z.quot_div_nonneg (doe - doe / 1460 + doe / 36524 - doe / 146096) 365)
    by (try lia; Z.to_euclidean_division_equations; lia).
  destruct (yoe_bounds doe ltac:(lia)) as (Hy & Hd & _).
  set (yoe := (doe - doe / 1460 + doe / 36524 - doe / 146096) / 365) in *.
  rewrite (Z.quot_div_nonneg yoe 4), (Z.quot_div_nonneg yoe 100) by lia.
  set (doy := doe - (365 * yoe + yoe / 4 - yoe / 100)) in *.
  rewrite (Z.quot_div_nonneg (5 * doy + 2) 153) by lia.
  pose proof (month_bounds doy Hd) as Hm. cbv zeta in Hm.
  set (mp := (5 * doy + 2) / 153) in *.
  rewrite (Z.quot_div_nonneg (153 * mp + 2) 5) by lia. done.
Qed.

(** Leap days of the years of [era] before its year [yoe]. *)
Lemma era_leap_days yoe era :
  0 <= yoe <= 399 →
  (yoe + era * 400) / 4 - (yoe + era * 400) / 100 + (yoe + era * 400) / 400
  = yoe / 4 - yoe / 100 + 97 * era.
Proof. intros Hy. Z.to_euclidean_division_equations. lia. Qed.

(** Only a leap year has a day 365 after March 1st of the year before. *)
Lemma leap_of_last_day yoe era doy :
  0 <= yoe <= 399 →
  (doy = 365 → (yoe + 1) mod 4 = 0 ∧ ((yoe + 1) mod 100 = 0 → yoe = 399)) →
  doy = 365 → is_leap (yoe + era * 400 + 1) = true.
Proof.
  intros Hy Hleap H365. destruct (Hleap H365) as [H4 H100]. unfold is_leap.
  replace ((yoe + era * 400 + 1) mod 4) with ((yoe + 1) mod 4)
    by (Z.to_euclidean_division_equations; lia).
  rewrite H4. simpl.
  destruct (Z.eqb_spec ((yoe + era * 400 + 1) mod 100) 0) as [E|]; [|done]. simpl.
  apply Z.eqb_eq. rewrite H100; Z.to_euclidean_division_equations; lia.
Qed.

(** The closed form of [days_before_year] counts the length of every year. *)
Lemma days_before_year_step y :
  days_before_year 1970 = 0 ∧
  days_before_year (y + 1) = days_before_year y + (if is_leap y then 366 else 365).
Proof.
  split; [reflexivity|]. unfold days_before_year. pose proof (is_leap_count y) as H.
  replace (y + 1 - 1) with y by lia. destruct (is_leap y); lia.
Qed.

(** One month of the year that starts on March 1st. *)
Definition month_of_mp (mp : Z) : Z := mp + (if mp <? 10 then 3 else -9).

Lemma month_step mp doy (leap leap1 : bool) :
  0 <= mp <= 11 → 153 * mp <= 5 * doy + 2 < 153 * mp + 153 →
  0 <= doy <= 365 → (doy = 365 → leap1 = true) →
  let month := month_of_mp mp in
  let day := doy - (153 * mp + 2) / 5 + 1 in
  let l := if month <=? 2 then leap1 else leap in
  1 <= month <= 12 ∧ 1 <= day <= month_length l month ∧
  month_start l (Z.to_nat month) + (day - 1) =
    (if month <=? 2 then doy - 306 else doy + 59 + (if leap then 1 else 0)).
Proof.
  intros Hmp Hrange Hdoy Hl.
  assert (Hcases : mp = 0 ∨ mp = 1 ∨ mp = 2 ∨ mp = 3 ∨ mp = 4 ∨ mp = 5 ∨ mp = 6 ∨ mp = 7 ∨
                   mp = 8 ∨ mp = 9 ∨ mp = 10 ∨ mp = 11) by lia.
  repeat destruct Hcases as [-> |Hcases]; try subst mp; destruct leap, leap1;
    intros month day l; subst l day;
    let m := eval vm_compute in month in change month with m;
    repeat match goal with
    | |- context [?m <=? 2] => let v := eval vm_compute in (m <=? 2) in change (m <=? 2) with v
    | |- context [month_length ?b ?m] =>
        let v := eval vm_compute in (month_length b m) in change (month_length b m) with v
    | |- context [month_start ?b ?m] =>
        let v := eval vm_compute in (month_start b m) in change (month_start b m) with v
    | |- context [(153 * ?m + 2) / 5] =>
        let v := eval vm_compute in ((153 * m + 2) / 5) in change ((153 * m + 2) / 5) with v
    end; cbv iota; repeat split; try lia;
    (destruct (Z.eq_dec doy 365) as [E|]; [by discriminate (Hl E)|lia]).
Qed.

(** The timestamp calendar. For every day number [civil_from_days] returns
    a valid date of the proleptic Gregorian calendar (month 1..12, day 1 up to the
    length of that month, leap years included) and it is the date whose distance
    from 1970-01-01 is that number of days. *)
Theorem civil_from_days_correct (days : Z) :
  let '(y, m, d) := civil_from_days days in
  1 <= m <= 12 ∧ 1 <= d <= days_in_month y m ∧ days_from_civil y m d = days.
Proof.
  rewrite civil_from_days_floor. cbv zeta.
  pose proof (Z.div_mod (days + 719468) 146097 ltac:(lia)) as Hz.
  pose proof (Z.mod_pos_bound (days + 719468) 146097 ltac:(lia)) as Hb.
  set (era := (days + 719468) / 146097) in *. set (doe := (days + 719468) mod 146097) in *.
  destruct (yoe_bounds doe ltac:(lia)) as (Hy & Hd & Hleap).
  set (yoe := (doe - doe / 1460 + doe / 36524 - doe / 146096) / 365) in *.
  set (doy := doe - (365 * yoe + yoe / 4 - yoe / 100)) in *.
  pose proof (month_bounds doy Hd) as [Hm _].
  assert (Hdoe : doe = doy + (365 * yoe + yoe / 4 - yoe / 100)) by lia.
  clearbody yoe doe era. clearbody doy.
  remember ((5 * doy + 2) / 153) as mp eqn:Emp.
  assert (Hrange : 153 * mp <= 5 * doy + 2 < 153 * mp + 153)
    by (subst mp; clear; Z.to_euclidean_division_equations; lia).
  destruct (month_step mp doy (is_leap (yoe + era * 400)) (is_leap (yoe + era * 400 + 1))
              Hm Hrange Hd (leap_of_last_day yoe era doy Hy Hleap)) as (H1 & H2 & H3).
  fold (month_of_mp mp). pose proof (is_leap_count (yoe + era * 400)) as Hc.
  pose proof (era_leap_days yoe era Hy) as Hq.
  unfold days_from_civil, days_before_year, days_before_month, days_in_month.
  destruct (month_of_mp mp <=? 2); rewrite ?Z.add_0_r, ?Z.add_simpl_r in *;
    (split; [done|]); (split; [done|]); lia.
Qed.

Local Close Scope Z_scope.

(** ** Conflict copies *)

Lemma first_free_Some candidate exists_ suffix fuel c :
  first_free candidate exists_ suffix fuel = Some c →
  ∃ k, (suffix ≤ k)%Z ∧ c = candidate k ∧ exists_ c = false ∧
       ∀ j, (suffix ≤ j < k)%Z → exists_ (candidate j) = true.
Proof.
  revert suffix; induction fuel as [|fuel IH]; intros suffix; simpl; [done|].
  destruct (exists_ (candidate suffix)) eqn:Hc.
  - intros (k & Hk & -> & He & Hj)%IH. exists k. repeat split; try done; [lia|].
    intros j ?. destruct (decide (j = suffix)) as [->|]; [done|]. apply Hj. lia.
  - intros [= <-]. exists suffix. repeat split; try done; lia.
Qed.

Lemma first_free_None candidate exists_ suffix fuel :
  first_free candidate exists_ suffix fuel = None →
  ∀ j, j < fuel → exists_ (candidate (suffix + Z.of_nat j)%Z) = true.
Proof.
  revert suffix; induction fuel as [|fuel IH]; intros suffix; simpl; [lia|].
  destruct (exists_ (candidate suffix)) eqn:Hc; [|done].
  intros H [|j] Hj; [by rewrite Z.add_0_r|].
  replace (suffix + Z.of_nat (S j))%Z with (suffix + 1 + Z.of_nat j)%Z by lia.
  apply IH; [done|lia].
Qed.

(** The search ends when there are fewer occupied names than attempts. *)
Lemma first_free_terminates candidate exists_ occupied fuel :
  (∀ j k, (1 ≤ j)%Z → (1 ≤ k)%Z → candidate j = candidate k → j = k) →
  (∀ c, exists_ c = true → c ∈ occupied) → length occupied < fuel →
  is_Some (first_free candidate exists_ 1 fuel).
Proof.
  intros Hinj Hocc Hfuel. destruct (first_free _ _ _ _) eqn:Hf; [by eexists|exfalso].
  pose proof (first_free_None _ _ _ _ Hf) as Hall.
  set (tried := (λ j, candidate (1 + Z.of_nat j)%Z) <$> seq 0 fuel).
  assert (Hsub : tried ⊆+ occupied).
  { apply NoDup_submseteq.
    - apply NoDup_fmap_2_strong; [|apply NoDup_seq].
      intros j k _ _ Heq%Hinj; lia.
    - intros c (j & -> & Hj%elem_of_seq)%list_elem_of_fmap. apply Hocc, Hall. lia. }
  apply submseteq_length in Hsub. subst tried. rewrite length_fmap, length_seq in Hsub. lia.
Qed.

(** Candidates are pairwise different. *)
Lemma numeral_replace z : (0 ≤ z)%Z → str_replace backslash slash (fmt_int z) = fmt_int z.
Proof.
  intros Hz. apply str_replace_id, fmt_int_existsb; [|done].
  intros n. unfold pretty_N_char. by repeat case_match.
Qed.

Lemma conflict_file_name_eq stem ts ext k :
  conflict_file_name stem ts ext k =
  (stem +:+ ".conflict-" +:+ ts) +:+
  (if (k =? 1)%Z then "" else "-" +:+ fmt_int k) +:+ default "" ((λ e, "." +:+ e) <$> ext).
Proof.
  unfold conflict_file_name. destruct ext, (k =? 1)%Z; simpl;
    by rewrite <- ?str_app_assoc, ?str_app_nil_r.
Qed.

Lemma conflict_candidate_inj original ts j k :
  (1 ≤ j)%Z → (1 ≤ k)%Z → conflict_candidate original ts j = conflict_candidate original ts k → j = k.
Proof.
  intros Hj Hk. unfold conflict_candidate, path_to_slash_string, slash_join.
  rewrite !join_snoc, !conflict_file_name_eq, !str_replace_app.
  intros H%str_app_inv_l%str_app_inv_l%str_app_inv_r.
  destruct (Z.eqb_spec j 1), (Z.eqb_spec k 1); try lia;
    rewrite ?str_replace_app, ?numeral_replace in H by lia; try done.
  apply str_app_inv_l in H. by apply fmt_int_inj in H.
Qed.

(** Conflict copies never overwrite. When the names that already exist form
    a finite collection and the search is given one attempt more than their
    number, [conflict_copy_relative_path] on an acceptable path returns a name
    that does not exist, the first free one of the suffix sequence, in the
    directory of the original. *)
Theorem conflict_copy_relative_path_fresh (original_path : string) (ms : Z)
    (exists_ : string → bool) (occupied : list string) (fuel : nat) (original : list string) :
  (∀ c, exists_ c = true → c ∈ occupied) → length occupied < fuel →
  validate_relative_path original_path = Ok original →
  ∃ k, conflict_copy_relative_path fuel original_path ms exists_ =
         Ok (Some (conflict_candidate original (timestamp_utc ms) k)) ∧
       (1 ≤ k)%Z ∧
       exists_ (conflict_candidate original (timestamp_utc ms) k) = false ∧
       ∀ j, (1 ≤ j < k)%Z → exists_ (conflict_candidate original (timestamp_utc ms) j) = true.
Proof.
  intros Hocc Hfuel Hv. unfold conflict_copy_relative_path. rewrite Hv. simpl.
  destruct (first_free_terminates (conflict_candidate original (timestamp_utc ms))
              exists_ occupied fuel) as [c Hc]; [|done|done|].
  - intros j k. apply conflict_candidate_inj.
  - destruct (first_free_Some _ _ _ _ _ Hc) as (k & Hk & -> & Hex & Hj).
    exists k. by rewrite Hc.
Qed.

Definition occupied_example (c : string) : bool :=
  bool_decide (c = "notes/a.conflict-19700101-000001.md").

Lemma conflict_copy_witness :
  ∃ k, conflict_copy_relative_path 2 "notes/a.md" 1000 occupied_example =
         Ok (Some (conflict_candidate ["notes"; "a.md"] (timestamp_utc 1000) k)) ∧
       (1 ≤ k)%Z ∧
       occupied_example (conflict_candidate ["notes"; "a.md"] (timestamp_utc 1000) k) = false ∧
       ∀ j, (1 ≤ j < k)%Z →
         occupied_example (conflict_candidate ["notes"; "a.md"] (timestamp_utc 1000) j) = true.
Proof.
  apply (conflict_copy_relative_path_fresh "notes/a.md" 1000 occupied_example
    ["notes/a.conflict-19700101-000001.md"] 2 ["notes"; "a.md"]).
  - intros c Hc. apply bool_decide_eq_true in Hc. subst. by apply list_elem_of_singleton.
  - simpl. lia.
  - vm_compute. reflexivity.
Defined.
