(* ===== verification/SyncDb.v ===== *)
(** * The sync database (sync/db.rs)

    The SQLite tables of a vault's sync database and the statements db.rs runs on
    them. A table is a finite map from its key to its row: [sync_files] is keyed
    by its UNIQUE column [normalized_path] (its primary key [file_id] is checked
    on insertion), [sync_tree_entries] by [(commit_id, file_id)], the others by
    their primary key. Integer flags hold 0 or 1 only and are read as booleans. A
    transaction that fails leaves the database as it was: operations return the
    new database only on success. *)
From Stdlib Require Import Ascii String.
#[local] Set Warnings "-clear-no-such-hyp".
From S2P Require Import Prelude SyncErrors Paths.

Definition CURRENT_SCHEMA_VERSION : Z := 2.
Definition SCHEMA_VERSION_KEY : string := "schema_version".
Definition FILE_KIND_MARKDOWN : string := "markdown".

Record SyncVaultRecord := {
  v_vault_id : string;
  v_root_path : string;
  v_remote_workspace_id : string;
  v_remote_head_commit_id : option string;
  v_local_head_commit_id : option string;
  v_device_id : string;
  v_next_device_seq : Z;
  v_enabled : bool;
  v_created_at_ms : Z;
  v_updated_at_ms : Z }.

Record SyncFileInput := {
  i_path : string;
  i_normalized_path : string;
  i_kind : string;
  i_plaintext_hash : option string;
  i_size_bytes : option Z;
  i_mtime_ms : option Z }.

Record SyncFileRecord := {
  f_file_id : string;
  f_path : string;
  f_normalized_path : string;
  f_kind : string;
  f_plaintext_hash : option string;
  f_size_bytes : option Z;
  f_mtime_ms : option Z;
  f_last_synced_commit_id : option string;
  f_dirty : bool;
  f_deleted : bool }.

Record ScanApplyResult := {
  upserts : list SyncFileRecord;
  deletions : list SyncFileRecord }.

Record SyncTreeEntryRecord := {
  t_commit_id : string;
  t_file_id : string;
  t_normalized_path : string;
  t_plaintext_hash : option string;
  t_content_object_id : option string;
  t_pack_entry_id : option string;
  t_kind : string }.

Record SyncCommitRecord := {
  c_commit_id : string;
  c_parent_commit_ids_json : string;
  c_commit_kind : string;
  c_direction : string;
  c_status : string;
  c_created_at_ms : Z;
  c_applied_at_ms : option Z;
  c_error : option string }.

Record SyncConflictRecord := {
  k_conflict_id : string;
  k_path : string;
  k_conflict_path : string;
  k_base_commit_id : option string;
  k_local_commit_id : option string;
  k_remote_commit_id : option string;
  k_status : string;
  k_created_at_ms : Z }.

(** A row of [sync_commit_trees]. *)
Record CommitTreeRow := {
  ct_tree_id : string;
  ct_tree_json : string;
  ct_source : string;
  ct_created_at_ms : Z }.

(** A row of [sync_tree_entries]; its key is [(commit_id, file_id)]. *)
Record TreeEntryRow := {
  te_content_commit_id : option string;
  te_normalized_path : string;
  te_plaintext_hash : option string;
  te_content_object_id : option string;
  te_pack_entry_id : option string;
  te_kind : string }.

#[export] Instance SyncFileRecord_eq_dec : EqDecision SyncFileRecord.
Proof. solve_decision. Defined.
#[export] Instance SyncTreeEntryRecord_eq_dec : EqDecision SyncTreeEntryRecord.
Proof. solve_decision. Defined.

(** The database. [db_tree_column] tells whether [sync_tree_entries] has the
    column [content_commit_id], which older files lack. *)
Record Db := {
  db_tree_column : bool;
  db_metadata : gmap string string;
  db_vaults : gmap string SyncVaultRecord;
  db_files : gmap string SyncFileRecord;
  db_commits : gmap string SyncCommitRecord;
  db_commit_trees : gmap string CommitTreeRow;
  db_tree_entries : gmap (string * string) TreeEntryRow;
  db_conflicts : gmap string SyncConflictRecord }.

(** A file without any table becomes this one once the schema is created. *)
Definition empty_db : Db :=
  {| db_tree_column := true; db_metadata := ∅; db_vaults := ∅; db_files := ∅;
     db_commits := ∅; db_commit_trees := ∅; db_tree_entries := ∅; db_conflicts := ∅ |}.

Definition with_metadata (db : Db) m := {| db_tree_column := db_tree_column db; db_metadata := m;
  db_vaults := db_vaults db; db_files := db_files db; db_commits := db_commits db;
  db_commit_trees := db_commit_trees db; db_tree_entries := db_tree_entries db;
  db_conflicts := db_conflicts db |}.
Definition with_vaults (db : Db) v := {| db_tree_column := db_tree_column db;
  db_metadata := db_metadata db; db_vaults := v; db_files := db_files db;
  db_commits := db_commits db; db_commit_trees := db_commit_trees db;
  db_tree_entries := db_tree_entries db; db_conflicts := db_conflicts db |}.
Definition with_files (db : Db) f := {| db_tree_column := db_tree_column db;
  db_metadata := db_metadata db; db_vaults := db_vaults db; db_files := f;
  db_commits := db_commits db; db_commit_trees := db_commit_trees db;
  db_tree_entries := db_tree_entries db; db_conflicts := db_conflicts db |}.
Definition with_commits (db : Db) c := {| db_tree_column := db_tree_column db;
  db_metadata := db_metadata db; db_vaults := db_vaults db; db_files := db_files db;
  db_commits := c; db_commit_trees := db_commit_trees db;
  db_tree_entries := db_tree_entries db; db_conflicts := db_conflicts db |}.
Definition with_trees (db : Db) column trees entries := {| db_tree_column := column;
  db_metadata := db_metadata db; db_vaults := db_vaults db; db_files := db_files db;
  db_commits := db_commits db; db_commit_trees := trees;
  db_tree_entries := entries; db_conflicts := db_conflicts db |}.
Definition with_conflicts (db : Db) k := {| db_tree_column := db_tree_column db;
  db_metadata := db_metadata db; db_vaults := db_vaults db; db_files := db_files db;
  db_commits := db_commits db; db_commit_trees := db_commit_trees db;
  db_tree_entries := db_tree_entries db; db_conflicts := k |}.

(** The texts SQLite and rusqlite report: a violated uniqueness constraint on a
    column, and a query that should return a row and returns none. *)
Class Sqlite := { unique_violation : string → string; no_rows : string }.

(** ** Schema *)

Definition metadata_value (db : Db) (key : string) : option string := db_metadata db !! key.

Definition persist_schema_version (db : Db) : Db :=
  with_metadata db (<[SCHEMA_VERSION_KEY := fmt_int CURRENT_SCHEMA_VERSION]> (db_metadata db)).

Definition ensure_tree_entry_content_commit_id_column (db : Db) : Db :=
  if db_tree_column db then db else with_trees db true ∅ ∅.

(** [reset_schema] drops every table; creating the schema again gives empty ones. *)
Definition reset_schema (db : Db) : Db := empty_db.

(** [init_schema]; [CREATE TABLE IF NOT EXISTS] keeps existing tables. *)
Definition init_schema (db : Db) : Db :=
  let db := ensure_tree_entry_content_commit_id_column db in
  match metadata_value db SCHEMA_VERSION_KEY with
  | Some value =>
      if bool_decide (value = fmt_int CURRENT_SCHEMA_VERSION) then db
      else persist_schema_version
             (ensure_tree_entry_content_commit_id_column (reset_schema db))
  | None => persist_schema_version db
  end.

(** ** Vaults *)

Definition upsert_vault (db : Db) (vault : SyncVaultRecord) : Db :=
  let row := match db_vaults db !! v_vault_id vault with
             | Some old =>
                 {| v_vault_id := v_vault_id vault; v_root_path := v_root_path vault;
                    v_remote_workspace_id := v_remote_workspace_id vault;
                    v_remote_head_commit_id := v_remote_head_commit_id vault;
                    v_local_head_commit_id := v_local_head_commit_id vault;
                    v_device_id := v_device_id vault;
                    v_next_device_seq := v_next_device_seq vault;
                    v_enabled := v_enabled vault;
                    v_created_at_ms := v_created_at_ms old;
                    v_updated_at_ms := v_updated_at_ms vault |}
             | None => vault
             end in
  with_vaults db (<[v_vault_id vault := row]> (db_vaults db)).

Definition get_vault (db : Db) (vault_id : string) : option SyncVaultRecord :=
  db_vaults db !! vault_id.

Definition delete_vault (db : Db) (vault_id : string) : Db :=
  with_vaults db (delete vault_id (db_vaults db)).

Definition update_vault_after_publish (db : Db) (vault_id commit_id : string)
    (next_device_seq updated_at_ms : Z) : Db :=
  with_vaults db (alter (λ v,
    {| v_vault_id := v_vault_id v; v_root_path := v_root_path v;
       v_remote_workspace_id := v_remote_workspace_id v;
       v_remote_head_commit_id := Some commit_id;
       v_local_head_commit_id := Some commit_id;
       v_device_id := v_device_id v;
       v_next_device_seq := next_device_seq;
       v_enabled := v_enabled v;
       v_created_at_ms := v_created_at_ms v;
       v_updated_at_ms := updated_at_ms |}) vault_id (db_vaults db)).

Definition update_vault_after_pull (db : Db) (vault_id commit_id : string)
    (updated_at_ms : Z) : Db :=
  with_vaults db (alter (λ v,
    {| v_vault_id := v_vault_id v; v_root_path := v_root_path v;
       v_remote_workspace_id := v_remote_workspace_id v;
       v_remote_head_commit_id := Some commit_id;
       v_local_head_commit_id := Some commit_id;
       v_device_id := v_device_id v;
       v_next_device_seq := v_next_device_seq v;
       v_enabled := v_enabled v;
       v_created_at_ms := v_created_at_ms v;
       v_updated_at_ms := updated_at_ms |}) vault_id (db_vaults db)).

Definition is_vault_id_char (ch : ascii) : bool :=
  is_ascii_alphanumeric ch || Ascii.eqb ch "-" || Ascii.eqb ch "_".
Definition validate_vault_id (vault_id : string) : SyncResult unit :=
  reject_if (str_is_empty vault_id || negb (str_forallb is_vault_id_char vault_id))
    (InvalidArgument "invalid vault_id").

(** The file name of [sync_db_path] below the data root's [sync] directory. *)
Definition sync_db_path (data_root : AbsPath) (vault_id : string) : SyncResult AbsPath :=
  _ ← validate_vault_id vault_id;
  Ok (data_root ++ ["sync"; vault_id +:+ ".sqlite"]).

(** ** Files *)

Definition by_normalized_path : SyncFileRecord → SyncFileRecord → bool := leb_on f_normalized_path.

(** [SELECT ... FROM sync_files ORDER BY normalized_path] *)
Definition list_files (db : Db) : list SyncFileRecord :=
  sort_by by_normalized_path ((map_to_list (db_files db)).*2).

Definition list_dirty_files (db : Db) : list SyncFileRecord :=
  sort_by by_normalized_path (List.filter f_dirty ((map_to_list (db_files db)).*2)).

(** [UPDATE sync_files SET ... WHERE cond] *)
Definition update_files (cond : SyncFileRecord → bool) (set : SyncFileRecord → SyncFileRecord)
    (files : gmap string SyncFileRecord) : gmap string SyncFileRecord :=
  (λ r, if cond r then set r else r) <$> files.

Definition set_deleted (dirty : bool) (now_ms : Z) (r : SyncFileRecord) : SyncFileRecord :=
  {| f_file_id := f_file_id r; f_path := f_path r; f_normalized_path := f_normalized_path r;
     f_kind := f_kind r; f_plaintext_hash := f_plaintext_hash r; f_size_bytes := f_size_bytes r;
     f_mtime_ms := Some now_ms; f_last_synced_commit_id := f_last_synced_commit_id r;
     f_dirty := dirty; f_deleted := true |}.

Definition set_synced (commit_id : string) (r : SyncFileRecord) : SyncFileRecord :=
  {| f_file_id := f_file_id r; f_path := f_path r; f_normalized_path := f_normalized_path r;
     f_kind := f_kind r; f_plaintext_hash := f_plaintext_hash r; f_size_bytes := f_size_bytes r;
     f_mtime_ms := f_mtime_ms r; f_last_synced_commit_id := Some commit_id;
     f_dirty := false; f_deleted := f_deleted r |}.

Definition validate_file_input (file : SyncFileInput) : SyncResult unit :=
  _ ← reject_if (is_blank (i_path file) || is_blank (i_normalized_path file))
        (InvalidArgument "sync file path is required");
  reject_if (is_blank (i_kind file)) (InvalidArgument "sync file kind is required").

Definition rows (db : Db) : list SyncFileRecord := (map_to_list (db_files db)).*2.

Section files.
Context `{Sqlite, Blake3}.

Definition file_id_for_normalized_path (normalized_path : string) : string :=
  "file_" +:+ str_take 32 (blake3_hex normalized_path).

Definition get_file_by_normalized_tx (db : Db) (normalized_path : string)
  : SyncResult SyncFileRecord :=
  ok_or (db_files db !! normalized_path) (Storage ("failed to read sync file: " +:+ no_rows)).

(** [SELECT ... WHERE file_id = ?1], at most one row. *)
Definition get_file_by_id_tx (db : Db) (file_id : string) : SyncResult SyncFileRecord :=
  ok_or (List.find (λ r, bool_decide (f_file_id r = file_id)) (rows db))
    (Storage ("failed to read sync file: " +:+ no_rows)).

(** The condition under which a scanned file differs from its row. *)
Definition scan_dirty (previous : option SyncFileRecord) (file : SyncFileInput) : bool :=
  match previous with
  | None => true
  | Some row =>
      f_deleted row || bool_decide (f_path row ≠ i_path file)
      || bool_decide (f_kind row ≠ i_kind file)
      || bool_decide (f_plaintext_hash row ≠ i_plaintext_hash file)
      || bool_decide (f_size_bytes row ≠ i_size_bytes file)
  end.

(** The upsert statement of [apply_scan]. *)
Definition upsert_scanned (db : Db) (file : SyncFileInput) (file_id : string) (dirty : bool)
  : SyncResult Db :=
  match db_files db !! i_normalized_path file with
  | Some old =>
      Ok (with_files db (<[i_normalized_path file :=
        {| f_file_id := f_file_id old; f_path := i_path file;
           f_normalized_path := i_normalized_path file; f_kind := i_kind file;
           f_plaintext_hash := i_plaintext_hash file; f_size_bytes := i_size_bytes file;
           f_mtime_ms := i_mtime_ms file;
           f_last_synced_commit_id := f_last_synced_commit_id old;
           f_dirty := f_dirty old || dirty; f_deleted := false |}]> (db_files db)))
  | None =>
      if existsb (λ r, bool_decide (f_file_id r = file_id)) (rows db)
      then Err (Storage ("failed to upsert sync file: " +:+ unique_violation "sync_files.file_id"))
      else Ok (with_files db (<[i_normalized_path file :=
        {| f_file_id := file_id; f_path := i_path file;
           f_normalized_path := i_normalized_path file; f_kind := i_kind file;
           f_plaintext_hash := i_plaintext_hash file; f_size_bytes := i_size_bytes file;
           f_mtime_ms := i_mtime_ms file; f_last_synced_commit_id := None;
           f_dirty := dirty; f_deleted := false |}]> (db_files db)))
  end.

(** The first loop of [apply_scan], over the scanned files. *)
Record ScanLoop := { sl_db : Db; sl_seen : list string; sl_upserts : list SyncFileRecord }.

Definition scan_file_step (existing : list SyncFileRecord) (st : ScanLoop) (file : SyncFileInput)
  : SyncResult ScanLoop :=
  _ ← validate_file_input file;
  _ ← reject_if (bool_decide (i_normalized_path file ∈ sl_seen st))
        (InvalidArgument ("duplicate normalized sync path: " +:+ i_normalized_path file));
  let previous := List.find (λ row, bool_decide (f_normalized_path row = i_normalized_path file))
                    existing in
  let file_id := match previous with
                 | Some row => f_file_id row
                 | None => file_id_for_normalized_path (i_normalized_path file)
                 end in
  db ← upsert_scanned (sl_db st) file file_id (scan_dirty previous file);
  row ← get_file_by_normalized_tx db (i_normalized_path file);
  Ok {| sl_db := db; sl_seen := sl_seen st ++ [i_normalized_path file];
        sl_upserts := sl_upserts st ++ [row] |}.

(** The second loop, over the rows that existed before the scan. *)
Definition scan_delete_step (seen : list string) (now_ms : Z) (st : Db * list SyncFileRecord)
    (row : SyncFileRecord) : SyncResult (Db * list SyncFileRecord) :=
  let '(db, deletions) := st in
  if f_deleted row || bool_decide (f_normalized_path row ∈ seen) then Ok st else
  let db := with_files db (update_files (λ r, bool_decide (f_file_id r = f_file_id row))
                             (set_deleted true now_ms) (db_files db)) in
  r ← get_file_by_id_tx db (f_file_id row);
  Ok (db, deletions ++ [r]).

Definition apply_scan (db : Db) (files : list SyncFileInput) (now_ms : Z)
  : SyncResult (ScanApplyResult * Db) :=
  let existing := list_files db in
  st ← try_fold (scan_file_step existing)
         {| sl_db := db; sl_seen := []; sl_upserts := [] |} files;
  '(db, dels) ← try_fold (scan_delete_step (sl_seen st) now_ms) (sl_db st, []) existing;
  Ok ({| upserts := sl_upserts st; deletions := dels |}, db).

(** [UPDATE ... WHERE normalized_path = ?1 AND last_synced_commit_id IS NULL] *)
Definition mark_unsynced_file_deleted_clean (db : Db) (normalized_path : string) (now_ms : Z) : Db :=
  with_files db (update_files
    (λ r, bool_decide (f_normalized_path r = normalized_path)
          && bool_decide (f_last_synced_commit_id r = None))
    (set_deleted false now_ms) (db_files db)).

Definition mark_files_synced (db : Db) (commit_id : string) (file_ids : list string) : Db :=
  with_files db (foldl (λ files file_id,
    update_files (λ r, bool_decide (f_file_id r = file_id)) (set_synced commit_id) files)
    (db_files db) file_ids).

(** [EXISTS (SELECT 1 FROM sync_tree_entries WHERE commit_id = ?1 AND cond)] *)
Definition tree_entry_exists (db : Db) (commit_id : string)
    (cond : string → TreeEntryRow → bool) : bool :=
  existsb (λ '((c, fid), e), bool_decide (c = commit_id) && cond fid e)
    (map_to_list (db_tree_entries db)).

(** The WHERE clause of [clear_dirty_files_matching_head]. *)
Definition matches_head (db : Db) (commit_id : string) (r : SyncFileRecord) : bool :=
  f_dirty r &&
  ((negb (f_deleted r) && tree_entry_exists db commit_id (λ fid e,
      bool_decide (fid = f_file_id r)
      && bool_decide (te_normalized_path e = f_normalized_path r)
      && bool_decide (te_kind e = f_kind r)
      && bool_decide (default "" (te_plaintext_hash e) = default "" (f_plaintext_hash r))))
   || (f_deleted r && negb (tree_entry_exists db commit_id (λ fid _,
         bool_decide (fid = f_file_id r))))).

(** Returns the number of rows changed. *)
Definition clear_dirty_files_matching_head (db : Db) (commit_id : string) : nat * Db :=
  (length (List.filter (matches_head db commit_id) (rows db)),
   with_files db (update_files (matches_head db commit_id) (set_synced commit_id) (db_files db))).
End files.

(** ** Trees *)

Section trees.
Context `{Sqlite}.

Definition tree_row (entry : SyncTreeEntryRecord) : TreeEntryRow :=
  {| te_content_commit_id := Some (t_commit_id entry);
     te_normalized_path := t_normalized_path entry;
     te_plaintext_hash := t_plaintext_hash entry;
     te_content_object_id := t_content_object_id entry;
     te_pack_entry_id := t_pack_entry_id entry;
     te_kind := t_kind entry |}.

Definition insert_tree_entry (commit_id : string)
    (entries : gmap (string * string) TreeEntryRow) (entry : SyncTreeEntryRecord)
  : SyncResult (gmap (string * string) TreeEntryRow) :=
  match entries !! (commit_id, t_file_id entry) with
  | Some _ => Err (Storage ("failed to persist tree entry: "
      +:+ unique_violation "sync_tree_entries.commit_id, sync_tree_entries.file_id"))
  | None => Ok (<[(commit_id, t_file_id entry) := tree_row entry]> entries)
  end.

Definition persist_tree_cache (db : Db) (commit_id tree_id tree_json source : string)
    (entries : list SyncTreeEntryRecord) (created_at_ms : Z) : SyncResult Db :=
  let trees := <[commit_id := {| ct_tree_id := tree_id; ct_tree_json := tree_json;
                   ct_source := source; ct_created_at_ms := created_at_ms |}]>
                 (db_commit_trees db) in
  let cleared := filter (λ x : (string * string) * TreeEntryRow, x.1.1 ≠ commit_id)
                   (db_tree_entries db) in
  new ← try_fold (insert_tree_entry commit_id) cleared entries;
  Ok (with_trees db (db_tree_column db) trees new).
End trees.

(** A selected row; [COALESCE(content_commit_id, commit_id)]. *)
Definition tree_record (commit_id file_id : string) (e : TreeEntryRow) : SyncTreeEntryRecord :=
  {| t_commit_id := default commit_id (te_content_commit_id e);
     t_file_id := file_id;
     t_normalized_path := te_normalized_path e;
     t_plaintext_hash := te_plaintext_hash e;
     t_content_object_id := te_content_object_id e;
     t_pack_entry_id := te_pack_entry_id e;
     t_kind := te_kind e |}.

Definition list_tree_entries (db : Db) (commit_id : string) : list SyncTreeEntryRecord :=
  sort_by (leb_on t_normalized_path)
    ((λ x : (string * string) * TreeEntryRow, tree_record x.1.1 x.1.2 x.2)
       <$> filter (λ x : (string * string) * TreeEntryRow, x.1.1 = commit_id)
             (map_to_list (db_tree_entries db))).

(** ** Commits and conflicts *)

Definition upsert_local_commit (db : Db) (commit : SyncCommitRecord) : Db :=
  let created := match db_commits db !! c_commit_id commit with
                 | Some old => c_created_at_ms old
                 | None => c_created_at_ms commit
                 end in
  with_commits db (<[c_commit_id commit :=
    {| c_commit_id := c_commit_id commit;
       c_parent_commit_ids_json := c_parent_commit_ids_json commit;
       c_commit_kind := c_commit_kind commit; c_direction := c_direction commit;
       c_status := c_status commit; c_created_at_ms := created;
       c_applied_at_ms := c_applied_at_ms commit; c_error := c_error commit |}]> (db_commits db)).

Definition upsert_conflict (db : Db) (conflict : SyncConflictRecord) : Db :=
  let created := match db_conflicts db !! k_conflict_id conflict with
                 | Some old => k_created_at_ms old
                 | None => k_created_at_ms conflict
                 end in
  with_conflicts db (<[k_conflict_id conflict :=
    {| k_conflict_id := k_conflict_id conflict; k_path := k_path conflict;
       k_conflict_path := k_conflict_path conflict;
       k_base_commit_id := k_base_commit_id conflict;
       k_local_commit_id := k_local_commit_id conflict;
       k_remote_commit_id := k_remote_commit_id conflict;
       k_status := k_status conflict; k_created_at_ms := created |}]> (db_conflicts db)).

(** [ORDER BY created_at_ms, conflict_path] *)
Definition conflict_leb (x y : SyncConflictRecord) : bool :=
  (k_created_at_ms x <? k_created_at_ms y)%Z
  || ((k_created_at_ms x =? k_created_at_ms y)%Z && leb_on k_conflict_path x y).

Definition list_open_conflicts (db : Db) : list SyncConflictRecord :=
  sort_by conflict_leb
    (List.filter (λ k, bool_decide (k_status k = "open")) ((map_to_list (db_conflicts db)).*2)).

Definition mark_conflict_resolved (db : Db) (conflict_id : string) : Db :=
  with_conflicts db (alter (λ k,
    if bool_decide (k_status k = "open") then
      {| k_conflict_id := k_conflict_id k; k_path := k_path k;
         k_conflict_path := k_conflict_path k; k_base_commit_id := k_base_commit_id k;
         k_local_commit_id := k_local_commit_id k; k_remote_commit_id := k_remote_commit_id k;
         k_status := "resolved"; k_created_at_ms := k_created_at_ms k |}
    else k) conflict_id (db_conflicts db)).

Definition get_conflict_status (db : Db) (conflict_id : string) : option string :=
  k_status <$> db_conflicts db !! conflict_id.

(** ** Invariant of the file table *)

Section scan_proofs.
Context `{Sqlite, Blake3}.
Implicit Types (db : Db) (r : SyncFileRecord) (f : SyncFileInput).

(** Rows are stored under their normalised path, carry the identifier derived
    from it, and identifiers are unique (the primary key). *)
Record files_wf (files : gmap string SyncFileRecord) : Prop := {
  wf_key n r : files !! n = Some r → f_normalized_path r = n;
  wf_id n r : files !! n = Some r → f_file_id r = file_id_for_normalized_path n;
  wf_unique n1 n2 r1 r2 : files !! n1 = Some r1 → files !! n2 = Some r2 →
    f_file_id r1 = f_file_id r2 → n1 = n2 }.
Definition db_wf db : Prop := files_wf (db_files db).

Lemma elem_of_rows db r : db_wf db → r ∈ rows db ↔ db_files db !! f_normalized_path r = Some r.
Proof.
  intros Hwf. unfold rows. rewrite list_elem_of_fmap. split.
  - intros ([n r'] & -> & Hin%elem_of_map_to_list). simpl.
    by rewrite (wf_key _ Hwf _ _ Hin).
  - intros Hr. exists (f_normalized_path r, r). split; [done|]. by apply elem_of_map_to_list.
Qed.

Lemma elem_of_list_files db r :
  db_wf db → r ∈ list_files db ↔ db_files db !! f_normalized_path r = Some r.
Proof. intros Hwf. unfold list_files. rewrite elem_of_sort_by. by apply elem_of_rows. Qed.

Lemma list_find_Some {A} (p : A → bool) l x : List.find p l = Some x → x ∈ l ∧ p x = true.
Proof. rewrite list_elem_of_In. apply List.find_some. Qed.

(** Searching the listing by normalised path is a lookup by key. *)
Lemma find_existing db n :
  db_wf db →
  List.find (λ row, bool_decide (f_normalized_path row = n)) (list_files db) = db_files db !! n.
Proof.
  intros Hwf. destruct (List.find _ _) as [r|] eqn:Hf.
  - apply list_find_Some in Hf as [Hin Hn%bool_decide_eq_true].
    apply elem_of_list_files in Hin; [|done]. by subst.
  - destruct (db_files db !! n) as [r|] eqn:Hr; [|done].
    pose proof (wf_key _ Hwf _ _ Hr) as Hk.
    assert (Hin : r ∈ list_files db) by (apply elem_of_list_files; [done|by rewrite Hk]).
    apply list_elem_of_In in Hin. eapply List.find_none in Hf; [|done].
    apply bool_decide_eq_false in Hf. done.
Qed.

Lemma get_file_by_id_lookup db r n :
  db_wf db → db_files db !! n = Some r → get_file_by_id_tx db (f_file_id r) = Ok r.
Proof.
  intros Hwf Hr. unfold get_file_by_id_tx.
  destruct (List.find _ _) as [r'|] eqn:Hf; simpl.
  - apply list_find_Some in Hf as [Hin Hid%bool_decide_eq_true].
    apply elem_of_rows in Hin; [|done].
    pose proof (wf_unique _ Hwf _ _ _ _ Hin Hr Hid) as Hn. rewrite Hn in Hin. congruence.
  - pose proof (wf_key _ Hwf _ _ Hr) as Hk.
    assert (Hin : r ∈ rows db) by (apply elem_of_rows; [done|by rewrite Hk]).
    apply list_elem_of_In in Hin. eapply List.find_none in Hf; [|done].
    by apply bool_decide_eq_false in Hf.
Qed.

Lemma lookup_update_files cond set (files : gmap string SyncFileRecord) n :
  update_files cond set files !! n = (λ r, if cond r then set r else r) <$> files !! n.
Proof. apply lookup_fmap. Qed.

Lemma update_files_wf cond set (files : gmap string SyncFileRecord) :
  files_wf files →
  (∀ r, f_file_id (set r) = f_file_id r ∧ f_normalized_path (set r) = f_normalized_path r) →
  files_wf (update_files cond set files).
Proof.
  intros Hwf Hset.
  assert (Hsame : ∀ n r, update_files cond set files !! n = Some r →
    ∃ r0, files !! n = Some r0 ∧ f_file_id r = f_file_id r0 ∧
          f_normalized_path r = f_normalized_path r0).
  { intros n r. rewrite lookup_update_files. intros (r0 & Hr0 & ->)%fmap_Some_1.
    exists r0. split; [done|]. destruct (cond r0); [apply Hset|done]. }
  split.
  - intros n r (r0 & Hr0 & _ & ->)%Hsame. by eapply wf_key.
  - intros n r (r0 & Hr0 & -> & _)%Hsame. by eapply wf_id.
  - intros n1 n2 r1 r2 (s1 & Hs1 & E1 & _)%Hsame (s2 & Hs2 & E2 & _)%Hsame Heq.
    eapply (wf_unique _ Hwf); eauto. congruence.
Qed.

(** ** The scan against its abstract specification *)

(** What a scan makes of one normalised path, from the row it had and the file
    found on disk. *)
Definition scanned_row (old : option SyncFileRecord) f : SyncFileRecord :=
  {| f_file_id := match old with
                  | Some r => f_file_id r
                  | None => file_id_for_normalized_path (i_normalized_path f) end;
     f_path := i_path f; f_normalized_path := i_normalized_path f; f_kind := i_kind f;
     f_plaintext_hash := i_plaintext_hash f; f_size_bytes := i_size_bytes f;
     f_mtime_ms := i_mtime_ms f;
     f_last_synced_commit_id := old ≫= f_last_synced_commit_id;
     f_dirty := match old with Some r => f_dirty r | None => false end || scan_dirty old f;
     f_deleted := false |}.
Definition vanished_row (now_ms : Z) r : SyncFileRecord :=
  if f_deleted r then r else set_deleted true now_ms r.
Definition spec_row (now_ms : Z) (old : option SyncFileRecord) (found : option SyncFileInput)
  : option SyncFileRecord :=
  match found with
  | Some f => Some (scanned_row old f)
  | None => vanished_row now_ms <$> old
  end.
Definition input_at (files : list SyncFileInput) (n : string) : option SyncFileInput :=
  List.find (λ f, bool_decide (i_normalized_path f = n)) files.

Lemma upsert_scanned_Ok db f id dirty db' :
  upsert_scanned db f id dirty = Ok db' →
  db' = with_files db (db_files db') ∧
  ((∃ old, db_files db !! i_normalized_path f = Some old) ∨
   (db_files db !! i_normalized_path f = None ∧ ∀ r, r ∈ rows db → f_file_id r ≠ id)).
Proof.
  unfold upsert_scanned. destruct (db_files db !! i_normalized_path f) as [old|] eqn:Hold.
  - intros [= <-]. split; [done|]. left. by exists old.
  - destruct (existsb _ _) eqn:Hx; [done|]. intros [= <-]. split; [done|]. right.
    split; [done|]. intros r Hr Hid.
    assert (existsb (λ r, bool_decide (f_file_id r = id)) (rows db) = true) as Ht; [|congruence].
    apply existsb_exists. exists r. rewrite <- list_elem_of_In.
    split; [done|]. by apply bool_decide_eq_true.
Qed.

(** One upsert stores exactly the specified row. *)
Lemma upsert_scanned_row db f db' old :
  db_files db !! i_normalized_path f = old →
  upsert_scanned db f
    (match old with Some r => f_file_id r
     | None => file_id_for_normalized_path (i_normalized_path f) end)
    (scan_dirty old f) = Ok db' →
  db_files db' = <[i_normalized_path f := scanned_row old f]> (db_files db).
Proof.
  intros Hold. unfold upsert_scanned. rewrite Hold. destruct old as [r|].
  - intros [= <-]. done.
  - destruct (existsb _ _); [done|]. intros [= <-]. done.
Qed.

Lemma insert_scanned_wf db f db' old :
  db_wf db → db_files db !! i_normalized_path f = old →
  upsert_scanned db f
    (match old with Some r => f_file_id r
     | None => file_id_for_normalized_path (i_normalized_path f) end)
    (scan_dirty old f) = Ok db' → db_wf db'.
Proof.
  intros Hwf Hold Hup. pose proof (upsert_scanned_row _ _ _ _ Hold Hup) as Hfiles.
  apply upsert_scanned_Ok in Hup as [_ Hcase]. unfold db_wf. rewrite Hfiles.
  set (n := i_normalized_path f) in *.
  assert (Hid : f_file_id (scanned_row old f) = file_id_for_normalized_path n).
  { simpl. destruct old as [r|]; [by eapply wf_id|done]. }
  assert (Hclash : ∀ m r, m ≠ n → db_files db !! m = Some r →
            f_file_id r ≠ f_file_id (scanned_row old f)).
  { intros m r Hm Hr Heq. destruct Hcase as [[r0 Hr0]|[Hnone Hfresh]].
    - apply Hm. eapply (wf_unique _ Hwf); [done|exact Hr0|].
      rewrite Heq, Hid. symmetry. by eapply wf_id.
    - eapply (Hfresh r); [apply elem_of_rows; [done|by erewrite wf_key by done]|].
      rewrite Heq, Hid. destruct old; [congruence|done]. }
  split.
  - intros m r [[<- <-]|[Hm Hr]]%lookup_insert_Some; [done|by eapply wf_key].
  - intros m r [[<- <-]|[Hm Hr]]%lookup_insert_Some; [done|by eapply wf_id].
  - intros m1 m2 r1 r2 [[<- <-]|[Hm1 Hr1]]%lookup_insert_Some
      [[<- <-]|[Hm2 Hr2]]%lookup_insert_Some Heq; [done| | |by eapply (wf_unique _ Hwf)].
    + by edestruct (Hclash m2 r2).
    + by edestruct (Hclash m1 r1).
Qed.

(** *** The first loop *)

Definition scan_inv (db0 : Db) (d : list SyncFileInput) (st : ScanLoop) : Prop :=
  sl_seen st = i_normalized_path <$> d ∧ NoDup (i_normalized_path <$> d) ∧
  db_wf (sl_db st) ∧ sl_db st = with_files db0 (db_files (sl_db st)) ∧
  (∀ n, db_files (sl_db st) !! n =
     match input_at d n with
     | Some f => Some (scanned_row (db_files db0 !! n) f)
     | None => db_files db0 !! n
     end) ∧
  sl_upserts st = (λ f, scanned_row (db_files db0 !! i_normalized_path f) f) <$> d.

Lemma input_at_snoc d f n :
  input_at (d ++ [f]) n =
  match input_at d n with
  | Some g => Some g
  | None => if bool_decide (i_normalized_path f = n) then Some f else None
  end.
Proof.
  unfold input_at. induction d as [|g d IH]; simpl; [by case_bool_decide|].
  destruct (bool_decide (i_normalized_path g = n)); [done|apply IH].
Qed.

Lemma input_at_None d n : input_at d n = None ↔ n ∉ i_normalized_path <$> d.
Proof.
  unfold input_at. induction d as [|g d IH]; simpl; [split; [set_solver|done]|].
  case_bool_decide; set_solver.
Qed.

Lemma input_at_Some d n f : input_at d n = Some f → f ∈ d ∧ i_normalized_path f = n.
Proof.
  unfold input_at. intros [Hin Hn]%list_find_Some. split; [done|].
  by apply bool_decide_eq_true in Hn.
Qed.

Lemma scan_file_step_inv db0 d st f st' :
  db_wf db0 → scan_inv db0 d st →
  scan_file_step (list_files db0) st f = Ok st' → scan_inv db0 (d ++ [f]) st'.
Proof.
  intros Hwf0 (Hseen & Hnd & Hwf & Hdb & Hrows & Hups) Hstep.
  unfold scan_file_step in Hstep. rewrite find_existing in Hstep by done. ok_inv Hstep.
  rename Hok0 into Hnew, Hok1 into Hup, Hok2 into Hget.
  apply bool_decide_eq_false in Hnew. rewrite Hseen in Hnew.
  assert (Hold : db_files (sl_db st) !! i_normalized_path f = db_files db0 !! i_normalized_path f).
  { rewrite Hrows. apply input_at_None in Hnew. by rewrite Hnew. }
  pose proof (upsert_scanned_row _ _ _ _ Hold Hup) as Hfiles.
  pose proof (insert_scanned_wf _ _ _ _ Hwf Hold Hup) as Hwf'.
  apply upsert_scanned_Ok in Hup as [Hdb' _].
  unfold get_file_by_normalized_tx in Hget. rewrite Hfiles, lookup_insert_eq in Hget.
  injection Hget as <-.
  unfold scan_inv; simpl. rewrite !fmap_app, Hseen, Hups. simpl.
  split; [done|]. split.
  { apply NoDup_app. split; [done|]. split; [set_solver|apply NoDup_singleton]. }
  split; [done|]. split; [rewrite Hdb', Hdb; done|]. split; [|done].
  intros n. rewrite Hfiles, input_at_snoc. destruct (decide (n = i_normalized_path f)) as [->|Hn].
  - rewrite lookup_insert_eq. apply input_at_None in Hnew. rewrite Hnew.
    by rewrite bool_decide_eq_true_2.
  - rewrite lookup_insert_ne by done. rewrite Hrows.
    destruct (input_at d n); [done|]. by rewrite bool_decide_eq_false_2.
Qed.

Lemma scan_files_loop db0 files st :
  db_wf db0 →
  try_fold (scan_file_step (list_files db0))
    {| sl_db := db0; sl_seen := []; sl_upserts := [] |} files = Ok st →
  scan_inv db0 files st.
Proof.
  intros Hwf. change files with ([] ++ files) at 2.
  apply (try_fold_prefix_invariant (scan_inv db0)).
  - split_and!; simpl; try done; [apply NoDup_nil_2|by destruct db0].
  - intros d st1 f st2 _ Hinv. by apply scan_file_step_inv.
Qed.

(** *** The second loop *)

(** The rows the loop marks: listed, not deleted, not seen. *)
Definition vanishes (seen : list string) r : bool :=
  negb (f_deleted r) && negb (bool_decide (f_normalized_path r ∈ seen)).

Definition delete_inv (db1 : Db) (seen : list string) (now_ms : Z)
    (d : list SyncFileRecord) (st : Db * list SyncFileRecord) : Prop :=
  db_wf st.1 ∧ st.1 = with_files db1 (db_files st.1) ∧
  (∀ n, db_files st.1 !! n =
     (λ r, if vanishes seen r && bool_decide (r ∈ d) then set_deleted true now_ms r else r)
       <$> db_files db1 !! n) ∧
  st.2 = set_deleted true now_ms <$> List.filter (vanishes seen) d.

Lemma scan_delete_step_inv db1 seen now_ms d st r st' :
  db_wf db1 → db_files db1 !! f_normalized_path r = Some r ∨ vanishes seen r = false →
  r ∉ d → delete_inv db1 seen now_ms d st →
  scan_delete_step seen now_ms st r = Ok st' →
  delete_inv db1 seen now_ms (d ++ [r]) st'.
Proof.
  intros Hwf1 Hr Hnd (Hwf & Hdb & Hrows & Hdels) Hstep.
  destruct st as [db dels]; simpl in *. unfold delete_inv.
  rewrite List.filter_app, fmap_app. simpl.
  assert (Hguard : f_deleted r || bool_decide (f_normalized_path r ∈ seen) = negb (vanishes seen r))
    by (unfold vanishes; by destruct (f_deleted r), (bool_decide _)).
  rewrite Hguard in Hstep. destruct (vanishes seen r) eqn:Hv; simpl in Hstep.
  - destruct Hr as [Hr|]; [|done].
    assert (Hcur : db_files db !! f_normalized_path r = Some r).
    { rewrite Hrows, Hr. simpl. rewrite bool_decide_eq_false_2 by done. by rewrite andb_false_r. }
    set (files' := update_files (λ r0, bool_decide (f_file_id r0 = f_file_id r))
                     (set_deleted true now_ms) (db_files db)) in *.
    assert (Hwf' : db_wf (with_files db files')).
    { apply update_files_wf; [done|]. by intros []. }
    assert (Hlook : files' !! f_normalized_path r = Some (set_deleted true now_ms r)).
    { unfold files'. rewrite lookup_update_files, Hcur. simpl. by rewrite bool_decide_eq_true_2. }
    change (f_file_id r) with (f_file_id (set_deleted true now_ms r)) in Hstep.
    rewrite (get_file_by_id_lookup (with_files db files') _ (f_normalized_path r)) in Hstep by done.
    injection Hstep as <-. simpl.
    split; [done|]. split; [by rewrite Hdb|]. split; [|by rewrite Hdels].
    intros n. unfold files'. rewrite lookup_update_files, Hrows.
    destruct (db_files db1 !! n) as [r1|] eqn:Hr1; simpl; [f_equal|done].
    rewrite (bool_decide_ext (r1 ∈ d ++ [r]) (r1 ∈ d ∨ r1 = r)) by set_solver.
    destruct (decide (r1 = r)) as [->|Hne].
    + rewrite (bool_decide_eq_false_2 (r ∈ d)) by done. rewrite andb_false_r.
      rewrite (bool_decide_eq_true_2 (r ∈ d ∨ r = r)) by auto.
      by rewrite bool_decide_eq_true_2, Hv by done.
    + rewrite (bool_decide_ext (r1 ∈ d ∨ r1 = r) (r1 ∈ d)) by naive_solver.
      assert (Hid : f_file_id r1 ≠ f_file_id r).
      { intros Hid. pose proof (wf_unique _ Hwf1 _ _ _ _ Hr1 Hr Hid) as ->. congruence. }
      destruct (vanishes seen r1 && bool_decide (r1 ∈ d)); simpl;
        by rewrite bool_decide_eq_false_2.
  - injection Hstep as <-. simpl. rewrite app_nil_r. split; [done|]. split; [done|].
    split; [|done]. intros n. rewrite Hrows.
    destruct (db_files db1 !! n) as [r1|]; simpl; [f_equal|done].
    destruct (decide (r1 = r)) as [->|Hne]; [by rewrite Hv|].
    by rewrite (bool_decide_ext (r1 ∈ d ++ [r]) (r1 ∈ d)) by set_solver.
Qed.

Lemma NoDup_list_files db : db_wf db → NoDup (list_files db).
Proof.
  intros Hwf. unfold list_files. rewrite sort_by_perm. unfold rows.
  apply NoDup_fmap_2_strong; [|apply NoDup_map_to_list].
  intros [n1 r1] [n2 r2] H1%elem_of_map_to_list H2%elem_of_map_to_list; simpl; intros ->.
  apply wf_key in H1; [|done]. apply wf_key in H2; [|done]. congruence.
Qed.

Lemma scan_delete_loop db1 seen now_ms l d st0 st :
  db_wf db1 →
  (∀ r, r ∈ l → vanishes seen r = true → db_files db1 !! f_normalized_path r = Some r) →
  NoDup (d ++ l) → delete_inv db1 seen now_ms d st0 →
  try_fold (scan_delete_step seen now_ms) st0 l = Ok st →
  delete_inv db1 seen now_ms (d ++ l) st.
Proof.
  intros Hwf1. revert d st0; induction l as [|r l IH]; intros d st0; simpl.
  - intros _ _ Hinv [= <-]. by rewrite app_nil_r.
  - intros Hkeep Hnd Hinv (st1 & H1 & H2)%bind_Ok_inv.
    replace (d ++ r :: l) with ((d ++ [r]) ++ l) in * by (by rewrite <- app_assoc).
    apply (IH (d ++ [r]) st1); try done.
    + intros r' Hr'. apply Hkeep. set_solver.
    + eapply scan_delete_step_inv; eauto.
      * destruct (vanishes seen r) eqn:Hv; [left; apply Hkeep; set_solver|by right].
      * intros Hin. rewrite <- app_assoc in Hnd. apply NoDup_app in Hnd as (_ & Hd & _).
        apply (Hd r); set_solver.
Qed.

Lemma delete_inv_init db1 seen now_ms : db_wf db1 → delete_inv db1 seen now_ms [] (db1, []).
Proof.
  intros Hwf. unfold delete_inv. split_and!; simpl; try done; [by destruct db1|].
  intros n. destruct (db_files db1 !! n); [|done]. simpl. by rewrite andb_false_r.
Qed.

(** Every effect of a successful scan. *)
Lemma apply_scan_effect db files now_ms res db' :
  db_wf db → apply_scan db files now_ms = Ok (res, db') →
  NoDup (i_normalized_path <$> files) ∧ db_wf db' ∧
  db' = with_files db (db_files db') ∧
  (∀ n, db_files db' !! n = spec_row now_ms (db_files db !! n) (input_at files n)) ∧
  upserts res = (λ f, scanned_row (db_files db !! i_normalized_path f) f) <$> files ∧
  deletions res = set_deleted true now_ms
    <$> List.filter (vanishes (i_normalized_path <$> files)) (list_files db).
Proof.
  intros Hwf Hscan. unfold apply_scan in Hscan.
  apply bind_Ok_inv in Hscan as (st & Hfirst & Hscan).
  apply bind_Ok_inv in Hscan as ([db2 dels] & Hsecond & [= <- <-]).
  apply scan_files_loop in Hfirst as (Hseen & Hnd & Hwf1 & Hdb1 & Hrows1 & Hups); [|done].
  rewrite Hseen in Hsecond.
  assert (Hkeep : ∀ r, r ∈ list_files db → vanishes (i_normalized_path <$> files) r = true →
            db_files (sl_db st) !! f_normalized_path r = Some r).
  { intros r Hr Hv. rewrite Hrows1. unfold vanishes in Hv.
    apply andb_true_iff in Hv as [_ Hv%negb_true_iff%bool_decide_eq_false].
    apply input_at_None in Hv. rewrite Hv. by apply elem_of_list_files. }
  eapply (scan_delete_loop (sl_db st)) with (d := []) in Hsecond as (Hwf2 & Hdb2 & Hrows2 & Hdels);
    [|done|done|by apply NoDup_list_files|by apply delete_inv_init].
  simpl in *. split; [done|]. split; [done|]. split; [rewrite Hdb2, Hdb1; done|].
  split; [|split; done].
  intros n. rewrite Hrows2, Hrows1. unfold spec_row.
  destruct (input_at files n) as [f|] eqn:Hin; simpl.
  - apply input_at_Some in Hin as [Hin <-]. f_equal.
    unfold vanishes. simpl. rewrite bool_decide_eq_true_2; [done|].
    by apply list_elem_of_fmap_2.
  - destruct (db_files db !! n) as [r|] eqn:Hr; simpl; [f_equal|done].
    pose proof (wf_key _ Hwf _ _ Hr) as Hk. unfold vanishes, vanished_row.
    rewrite Hk, (bool_decide_eq_false_2 (n ∈ _)) by (by apply input_at_None).
    rewrite bool_decide_eq_true_2 by (apply elem_of_list_files; [done|by rewrite Hk]).
    by destruct (f_deleted r).
Qed.

(** *** Progress: when a scan succeeds *)

Definition valid_input f : Prop := validate_file_input f = Ok tt.
(** No two of the paths concerned share an identifier. *)
Definition no_id_clash db (files : list SyncFileInput) : Prop :=
  ∀ n1 n2, (is_Some (db_files db !! n1) ∨ n1 ∈ i_normalized_path <$> files) →
    n2 ∈ i_normalized_path <$> files →
    file_id_for_normalized_path n1 = file_id_for_normalized_path n2 → n1 = n2.

Lemma scan_file_step_progress db0 files d st f :
  db_wf db0 → scan_inv db0 d st → valid_input f → no_id_clash db0 files →
  f ∈ files → d ⊆ files → i_normalized_path f ∉ i_normalized_path <$> d →
  ∃ st', scan_file_step (list_files db0) st f = Ok st'.
Proof.
  intros Hwf0 (Hseen & Hnd & Hwf & Hdb & Hrows & Hups) Hvalid Hclash Hf Hd Hnew.
  unfold scan_file_step. rewrite find_existing by done. rewrite Hvalid. simpl.
  rewrite Hseen, bool_decide_eq_false_2 by done. simpl.
  assert (Hold : db_files (sl_db st) !! i_normalized_path f = db_files db0 !! i_normalized_path f).
  { rewrite Hrows. apply input_at_None in Hnew. by rewrite Hnew. }
  destruct (upsert_scanned _ _ _ _) as [db|e] eqn:Hup; simpl.
  - pose proof (upsert_scanned_row _ _ _ _ Hold Hup) as Hfiles.
    unfold get_file_by_normalized_tx. rewrite Hfiles, lookup_insert_eq. simpl. by eexists.
  - exfalso. unfold upsert_scanned in Hup. rewrite Hold in Hup.
    destruct (db_files db0 !! i_normalized_path f) as [r|] eqn:Hr; [done|].
    destruct (existsb _ _) eqn:Hx; [|done]. apply existsb_exists in Hx as (r & Hin & Hid).
    apply list_elem_of_In, elem_of_rows in Hin; [|done]. apply bool_decide_eq_true in Hid.
    pose proof (wf_id _ Hwf _ _ Hin) as Hid'.
    assert (f_normalized_path r = i_normalized_path f) as Heq; [|congruence].
    apply Hclash; [|set_solver|congruence].
    rewrite Hrows in Hin. destruct (input_at d _) as [g|] eqn:Hg; [|left; by eexists].
    apply input_at_Some in Hg as [Hg <-]. right. apply list_elem_of_fmap_2. set_solver.
Qed.

Lemma scan_files_progress db0 files l d st :
  db_wf db0 → Forall valid_input files → NoDup (i_normalized_path <$> files) →
  no_id_clash db0 files → files = d ++ l → scan_inv db0 d st →
  ∃ st', try_fold (scan_file_step (list_files db0)) st l = Ok st'.
Proof.
  intros Hwf Hvalid Hnd Hclash. revert d st; induction l as [|f l IH]; intros d st Heq Hinv.
  - by eexists.
  - destruct (scan_file_step_progress db0 files d st f) as [st1 Hst1]; try done.
    + rewrite Forall_forall in Hvalid. apply Hvalid. set_solver.
    + set_solver.
    + set_solver.
    + rewrite Heq, fmap_app in Hnd. apply NoDup_app in Hnd as (_ & Hd & _).
      intros Hin. apply (Hd _ Hin). simpl. set_solver.
    + simpl. rewrite Hst1. simpl. apply (IH (d ++ [f])).
      * by rewrite Heq, <- app_assoc.
      * by eapply scan_file_step_inv.
Qed.

Lemma scan_delete_progress db1 seen now_ms l d st :
  db_wf db1 →
  (∀ r, r ∈ l → vanishes seen r = true → db_files db1 !! f_normalized_path r = Some r) →
  NoDup (d ++ l) → delete_inv db1 seen now_ms d st →
  ∃ st', try_fold (scan_delete_step seen now_ms) st l = Ok st'.
Proof.
  intros Hwf1. revert d st; induction l as [|r l IH]; intros d st Hkeep Hnd Hinv; [by eexists|].
  assert (Hr : r ∉ d) by (apply NoDup_app in Hnd as (_ & Hd & _); intros Hin; apply (Hd r); set_solver).
  assert (∃ st1, scan_delete_step seen now_ms st r = Ok st1) as [st1 Hst1].
  { destruct st as [db dels], Hinv as (Hwf & _ & Hrows & _). simpl in *.
    destruct (f_deleted r || _) eqn:Hg; [by eexists|].
    assert (Hv : vanishes seen r = true)
      by (unfold vanishes; by destruct (f_deleted r), (bool_decide _)).
    pose proof (Hkeep r ltac:(set_solver) Hv) as Hlook.
    set (db2 := with_files db _).
    assert (Hcur : db_files db2 !! f_normalized_path r = Some (set_deleted true now_ms r)).
    { simpl. rewrite lookup_update_files, Hrows, Hlook. simpl.
      rewrite (bool_decide_eq_false_2 (r ∈ d)) by done. rewrite andb_false_r.
      by rewrite bool_decide_eq_true_2. }
    change (f_file_id r) with (f_file_id (set_deleted true now_ms r)).
    erewrite get_file_by_id_lookup; [by eexists| |done].
    apply update_files_wf; [done|]. by intros []. }
  simpl. rewrite Hst1. simpl. apply (IH (d ++ [r])).
  - intros r' Hr'. apply Hkeep. set_solver.
  - by rewrite <- app_assoc.
  - eapply scan_delete_step_inv; eauto.
    destruct (vanishes seen r) eqn:Hv; [left; apply Hkeep; set_solver|by right].
Qed.

Lemma apply_scan_progress db files now_ms :
  db_wf db → Forall valid_input files → NoDup (i_normalized_path <$> files) →
  no_id_clash db files → ∃ out, apply_scan db files now_ms = Ok out.
Proof.
  intros Hwf Hvalid Hnd Hclash. unfold apply_scan.
  destruct (scan_files_progress db files files [] {| sl_db := db; sl_seen := []; sl_upserts := [] |})
    as [st Hst]; try done.
  { split_and!; simpl; try done; [apply NoDup_nil_2|by destruct db]. }
  rewrite Hst. simpl. apply scan_files_loop in Hst as (Hseen & _ & Hwf1 & _ & Hrows1 & _); [|done].
  destruct (scan_delete_progress (sl_db st) (sl_seen st) now_ms (list_files db) [] (sl_db st, []))
    as [[db2 dels] Hdel]; [done| |by apply NoDup_list_files|by apply delete_inv_init|].
  - rewrite Hseen. intros r Hr Hv. rewrite Hrows1. unfold vanishes in Hv.
    apply andb_true_iff in Hv as [_ Hv%negb_true_iff%bool_decide_eq_false].
    apply input_at_None in Hv. rewrite Hv. by apply elem_of_list_files.
  - rewrite Hdel. by eexists.
Qed.
End scan_proofs.

(** ** Properties of the file table *)

Section scan_properties.
Context `{Sqlite, Blake3}.

(** C15: refinement of the local scan. On a well-formed database, a successful
    [apply_scan] realises the abstract per-path specification [spec_row]: a path
    found on disk gets a live row with the file's content fields, which is dirty
    exactly when it was dirty before or the file is new, was deleted or differs;
    a path that disappeared is tombstoned and dirty, a row already deleted is
    untouched, and no other path gains a row. The result lists the found rows in
    scan order and the newly deleted rows in path order; the invariant is kept
    and the other tables are unchanged. *)
Theorem apply_scan_refines (db : Db) (files : list SyncFileInput) (now_ms : Z)
    (res : ScanApplyResult) (db' : Db) :
  db_wf db → apply_scan db files now_ms = Ok (res, db') →
  NoDup (i_normalized_path <$> files) ∧ db_wf db' ∧ db' = with_files db (db_files db') ∧
  (∀ n, db_files db' !! n = spec_row now_ms (db_files db !! n) (input_at files n)) ∧
  upserts res = (λ f, scanned_row (db_files db !! i_normalized_path f) f) <$> files ∧
  deletions res = set_deleted true now_ms
    <$> List.filter (vanishes (i_normalized_path <$> files)) (list_files db).
Proof. apply apply_scan_effect. Qed.

(** A scan of valid files with distinct normal forms succeeds, unless two of
    the paths involved share a derived file identifier. *)
Theorem apply_scan_succeeds (db : Db) (files : list SyncFileInput) (now_ms : Z) :
  db_wf db → Forall valid_input files → NoDup (i_normalized_path <$> files) →
  no_id_clash db files →
  ∃ res db', apply_scan db files now_ms = Ok (res, db').
Proof.
  intros Hwf Hv Hnd Hclash.
  destruct (apply_scan_progress db files now_ms Hwf Hv Hnd Hclash) as [[res db'] ->].
  by exists res, db'.
Qed.

Lemma scan_dirty_rescan old f :
  scan_dirty (Some (scanned_row old f)) f = false.
Proof. unfold scan_dirty; simpl. rewrite !bool_decide_eq_false_2; naive_solver. Qed.

Lemma scanned_row_rescan old f :
  scanned_row (Some (scanned_row old f)) f = scanned_row old f.
Proof.
  unfold scanned_row at 1. rewrite scan_dirty_rescan, orb_false_r.
  unfold scanned_row. simpl. by destruct old.
Qed.

Lemma vanished_row_idemp now1 now2 r : vanished_row now2 (vanished_row now1 r) = vanished_row now1 r.
Proof. unfold vanished_row at 2 3. destruct (f_deleted r) eqn:Hd; unfold vanished_row; by rewrite ?Hd. Qed.

Lemma spec_row_idemp now1 now2 old found :
  spec_row now2 (spec_row now1 old found) found = spec_row now1 old found.
Proof.
  destruct found as [f|]; simpl; [by rewrite scanned_row_rescan|].
  destruct old as [r|]; simpl; [by rewrite vanished_row_idemp|done].
Qed.

Lemma input_at_elem files f :
  NoDup (i_normalized_path <$> files) → f ∈ files →
  input_at files (i_normalized_path f) = Some f.
Proof.
  intros Hnd Hf. destruct (input_at files (i_normalized_path f)) as [g|] eqn:Hg.
  - apply input_at_Some in Hg as [Hg Heq]. f_equal. by eapply NoDup_key_inj.
  - apply input_at_None in Hg. destruct Hg. by apply list_elem_of_fmap_2.
Qed.

(** After a scan nothing is left to tombstone. *)
Lemma no_vanishing files now_ms db db1 :
  db_wf db1 →
  (∀ n, db_files db1 !! n = spec_row now_ms (db_files db !! n) (input_at files n)) →
  List.filter (vanishes (i_normalized_path <$> files)) (list_files db1) = [].
Proof.
  intros Hwf1 Hr1.
  assert (Hnone : ∀ r, r ∈ list_files db1 → vanishes (i_normalized_path <$> files) r = false).
  { intros r Hr%elem_of_list_files; [|done]. rewrite Hr1 in Hr. unfold vanishes.
    destruct (decide (f_normalized_path r ∈ i_normalized_path <$> files)) as [Hin|Hin].
    - rewrite (bool_decide_eq_true_2 _ Hin). by rewrite andb_false_r.
    - apply input_at_None in Hin. rewrite Hin in Hr. simpl in Hr.
      apply fmap_Some_1 in Hr as (r0 & _ & Hr). unfold vanished_row in Hr.
      destruct (f_deleted r0) eqn:Hd; rewrite Hr; simpl; by rewrite ?Hd. }
  clear Hr1. induction (list_files db1) as [|r l IH]; simpl; [done|].
  rewrite Hnone by set_solver. apply IH. set_solver.
Qed.

(** A scan is stable. Scanning the same files again, at any later time,
    changes no row of the table and reports no deletion: the dirty flags and
    tombstones written by the first scan persist and nothing new is flagged. *)
Theorem apply_scan_stable (db : Db) (files : list SyncFileInput) (now1 now2 : Z)
    (res1 res2 : ScanApplyResult) (db1 db2 : Db) :
  db_wf db → apply_scan db files now1 = Ok (res1, db1) →
  apply_scan db1 files now2 = Ok (res2, db2) →
  db2 = db1 ∧ deletions res2 = [] ∧ upserts res2 = upserts res1.
Proof.
  intros Hwf H1 H2.
  apply apply_scan_effect in H1 as (Hnd & Hwf1 & Hdb1 & Hr1 & Hu1 & _); [|done].
  apply apply_scan_effect in H2 as (_ & Hwf2 & Hdb2 & Hr2 & Hu2 & Hd2); [|done].
  assert (Hfiles : db_files db2 = db_files db1).
  { apply map_eq. intros n. rewrite Hr2, !Hr1. apply spec_row_idemp. }
  split; [rewrite Hdb2, Hfiles; by destruct db1|]. split.
  - rewrite Hd2. by erewrite no_vanishing.
  - rewrite Hu2, Hu1. apply list_fmap_ext. intros i f Hf%list_elem_of_lookup_2.
    rewrite Hr1, input_at_elem by done. simpl. by rewrite scanned_row_rescan.
Qed.
End scan_properties.

(** ** Properties of the other tables *)

Section table_properties.
Context `{Sqlite}.
Implicit Types (db : Db) (e : SyncTreeEntryRecord).

Lemma insert_tree_entries_Ok c m entries :
  (∀ e, e ∈ entries → m !! (c, t_file_id e) = None) → NoDup (t_file_id <$> entries) →
  ∃ m', try_fold (insert_tree_entry c) m entries = Ok m' ∧
    (∀ e, e ∈ entries → m' !! (c, t_file_id e) = Some (tree_row e)) ∧
    (∀ k, k ∉ (λ e, (c, t_file_id e)) <$> entries → m' !! k = m !! k).
Proof.
  revert m; induction entries as [|e entries IH]; intros m Hnone Hnd.
  - exists m. split; [done|]. split; [set_solver|done].
  - apply NoDup_cons in Hnd as [Hnew Hnd]. simpl. unfold insert_tree_entry at 2.
    rewrite Hnone by set_solver. simpl.
    destruct (IH (<[(c, t_file_id e):=tree_row e]> m)) as (m' & Hf & Hin & Hout); [|done|].
    { intros e' He'. rewrite lookup_insert_ne; [apply Hnone; set_solver|].
      intros [= Heq]. apply Hnew. rewrite Heq. by apply list_elem_of_fmap_2. }
    exists m'. split; [done|]. split.
    + intros e' [->|He']%elem_of_cons; [|by apply Hin].
      rewrite Hout; [by rewrite lookup_insert_eq|].
      intros (e2 & [= Heq] & He2)%list_elem_of_fmap. apply Hnew. rewrite Heq.
      by apply list_elem_of_fmap_2.
    + intros k Hk. rewrite Hout by set_solver. apply lookup_insert_ne. set_solver.
Qed.

Lemma insert_tree_entries_dup c m entries m' :
  try_fold (insert_tree_entry c) m entries = Ok m' →
  NoDup (t_file_id <$> entries) ∧ ∀ e, e ∈ entries → m !! (c, t_file_id e) = None.
Proof.
  revert m; induction entries as [|e entries IH]; intros m; simpl.
  - intros _. split; [apply NoDup_nil_2|set_solver].
  - intros (m1 & H1 & (Hnd & Hnone)%IH)%bind_Ok_inv.
    unfold insert_tree_entry in H1. destruct (m !! (c, t_file_id e)) eqn:He; [done|].
    injection H1 as <-. split.
    + apply NoDup_cons. split; [|done]. intros (e2 & Heq & He2)%list_elem_of_fmap.
      specialize (Hnone e2 He2). rewrite Heq, lookup_insert_eq in Hnone. done.
    + intros e2 [->|He2]%elem_of_cons; [done|]. specialize (Hnone e2 He2).
      destruct (decide ((c, t_file_id e) = (c, t_file_id e2))) as [Heq|Hne].
      * by rewrite Heq, lookup_insert_eq in Hnone.
      * by rewrite lookup_insert_ne in Hnone.
Qed.

Lemma tree_record_row c e : tree_record c (t_file_id e) (tree_row e) = e.
Proof. by destruct e. Qed.

Definition selected (m : gmap (string * string) TreeEntryRow) (c : string)
  : list ((string * string) * TreeEntryRow) :=
  filter (λ x : (string * string) * TreeEntryRow, x.1.1 = c) (map_to_list m).

Lemma elem_of_selected m c x : x ∈ selected m c ↔ x.1.1 = c ∧ m !! x.1 = Some x.2.
Proof.
  unfold selected. rewrite list_elem_of_filter. destruct x as [k e].
  by rewrite elem_of_map_to_list.
Qed.

Lemma selected_perm m m' c :
  (∀ fid, m !! (c, fid) = m' !! (c, fid)) → selected m c ≡ₚ selected m' c.
Proof.
  intros Heq. apply NoDup_Permutation.
  1,2: apply NoDup_filter, NoDup_map_to_list.
  intros [[c' fid] e]. rewrite !elem_of_selected. simpl.
  split; intros [-> ?]; by rewrite ?Heq in *; rewrite <- ?Heq in *.
Qed.

Lemma selected_entries c m entries :
  NoDup (t_file_id <$> entries) →
  (∀ e, e ∈ entries → m !! (c, t_file_id e) = Some (tree_row e)) →
  (∀ fid, fid ∉ t_file_id <$> entries → m !! (c, fid) = None) →
  (λ x : (string * string) * TreeEntryRow, tree_record x.1.1 x.1.2 x.2) <$> selected m c ≡ₚ entries.
Proof.
  intros Hnd Hin Hout. apply NoDup_Permutation.
  - apply NoDup_fmap_2_strong; [|apply NoDup_filter, NoDup_map_to_list].
    intros [[c1 f1] e1] [[c2 f2] e2] [Hc1 Hl1]%elem_of_selected [Hc2 Hl2]%elem_of_selected.
    simpl in *. subst. intros Heq. assert (f1 = f2) as <- by (by apply (f_equal t_file_id) in Heq).
    by rewrite Hl1 in Hl2; injection Hl2 as ->.
  - by apply NoDup_fmap_1 in Hnd.
  - intros e. rewrite list_elem_of_fmap. split.
    + intros ([[c1 f1] e1] & -> & [Hc1 Hl1]%elem_of_selected). simpl in *. subst c1.
      destruct (decide (f1 ∈ t_file_id <$> entries)) as [Hf|Hf].
      * apply list_elem_of_fmap in Hf as (e2 & -> & He2). rewrite Hin in Hl1 by done.
        injection Hl1 as <-. by rewrite tree_record_row.
      * rewrite Hout in Hl1 by done. done.
    + intros He. exists ((c, t_file_id e), tree_row e). rewrite elem_of_selected. simpl.
      rewrite tree_record_row. split_and!; [done..|]. by apply Hin.
Qed.

Lemma clear_tree_entries db commit_id :
  let cleared := filter (λ x : (string * string) * TreeEntryRow, x.1.1 ≠ commit_id) (db_tree_entries db) in
  (∀ fid, cleared !! (commit_id, fid) = None) ∧
  (∀ c fid, c ≠ commit_id → cleared !! (c, fid) = db_tree_entries db !! (c, fid)).
Proof.
  intros cleared. split.
  - intros fid. apply map_lookup_filter_None. right. intros e _ Hne. by apply Hne.
  - intros c fid Hc. apply option_eq. intros e. unfold cleared.
    rewrite map_lookup_filter_Some. naive_solver.
Qed.

Lemma persist_tree_cache_lists db (commit_id tree_id tree_json source : string)
    (entries : list SyncTreeEntryRecord) (now : Z) db' :
  persist_tree_cache db commit_id tree_id tree_json source entries now = Ok db' →
  list_tree_entries db' commit_id ≡ₚ entries ∧
  ∀ c, c ≠ commit_id → list_tree_entries db' c ≡ₚ list_tree_entries db c.
Proof.
  unfold persist_tree_cache. destruct (clear_tree_entries db commit_id) as [Hclear Hother].
  set (cleared := filter _ (db_tree_entries db)) in *. intros (m' & Hf & [= <-])%bind_Ok_inv.
  pose proof (insert_tree_entries_dup _ _ _ _ Hf) as [Hnd _].
  destruct (insert_tree_entries_Ok commit_id cleared entries) as (m2 & Hf2 & Hin & Hout);
    [by intros; apply Hclear|done|].
  rewrite Hf in Hf2. injection Hf2 as <-.
  assert (Hsel : (λ x : (string * string) * TreeEntryRow, tree_record x.1.1 x.1.2 x.2)
                   <$> selected m' commit_id ≡ₚ entries).
  { apply selected_entries; [done|done|]. intros fid Hfid. rewrite Hout; [apply Hclear|].
    intros (e & [= ->] & He)%list_elem_of_fmap. apply Hfid. by apply list_elem_of_fmap_2. }
  unfold list_tree_entries. simpl. fold (selected m' commit_id). split.
  - by rewrite sort_by_perm.
  - intros c Hc. rewrite !sort_by_perm. apply fmap_Permutation, selected_perm. intros fid.
    rewrite Hout; [by apply Hother|]. intros (e & [= ? ?] & _)%list_elem_of_fmap. congruence.
Qed.

(** Round trip of the tree cache. Persisting the tree of a commit succeeds
    exactly when its entries have distinct file identifiers; listing the commit
    then returns those entries, each with its own content commit, ordered by
    path (an earlier tree of the commit is replaced), and the listing of every
    other commit is a permutation of what it was. *)
Theorem persist_tree_cache_roundtrip db (commit_id tree_id tree_json source : string)
    (entries : list SyncTreeEntryRecord) (now : Z) :
  (NoDup (t_file_id <$> entries) ↔
     ∃ db', persist_tree_cache db commit_id tree_id tree_json source entries now = Ok db') ∧
  ∀ db', persist_tree_cache db commit_id tree_id tree_json source entries now = Ok db' →
    list_tree_entries db' commit_id ≡ₚ entries ∧
    StronglySorted (λ x y, leb_on t_normalized_path x y = true) (list_tree_entries db' commit_id) ∧
    (NoDup (t_normalized_path <$> entries) →
       list_tree_entries db' commit_id = sort_by (leb_on t_normalized_path) entries) ∧
    (∀ c, c ≠ commit_id → list_tree_entries db' c ≡ₚ list_tree_entries db c).
Proof.
  split.
  - unfold persist_tree_cache. destruct (clear_tree_entries db commit_id) as [Hclear _]. split.
    + intros Hnd. destruct (insert_tree_entries_Ok commit_id
        (filter (λ x : (string * string) * TreeEntryRow, x.1.1 ≠ commit_id) (db_tree_entries db)) entries)
        as (m' & -> & _); [by intros; apply Hclear|done|]. by eexists.
    + intros [db' (m' & Hf & _)%bind_Ok_inv]. by apply insert_tree_entries_dup in Hf as [Hnd _].
  - intros db' Hp. apply persist_tree_cache_lists in Hp as [Hperm Hother].
    assert (Hs : StronglySorted (λ x y, leb_on t_normalized_path x y = true)
                   (list_tree_entries db' commit_id)) by (apply sort_by_sorted, _).
    split_and!; [done|done| |done]. intros Hpaths. rewrite <- (sort_by_sorted_id _ _ Hs).
    symmetry. by apply sort_by_key_unique.
Qed.

(** Opening a database. [init_schema] always ends with the current schema
    version and the content-commit column; it is idempotent; a database already
    at the current version, column included, is left as it is; a database of
    another version is emptied, and one without the column loses its cached
    trees but no other table. *)
Theorem init_schema_establishes db :
  let db' := init_schema db in
  metadata_value db' SCHEMA_VERSION_KEY = Some (fmt_int CURRENT_SCHEMA_VERSION) ∧
  db_tree_column db' = true ∧
  init_schema db' = db' ∧
  (metadata_value db SCHEMA_VERSION_KEY = Some (fmt_int CURRENT_SCHEMA_VERSION) →
     db' = if db_tree_column db then db else with_trees db true ∅ ∅) ∧
  (∀ v, metadata_value db SCHEMA_VERSION_KEY = Some v → v ≠ fmt_int CURRENT_SCHEMA_VERSION →
     db' = persist_schema_version empty_db).
Proof.
  assert (Hcol : db_tree_column (init_schema db) = true).
  { unfold init_schema, ensure_tree_entry_content_commit_id_column.
    destruct (db_tree_column db) eqn:Hc; simpl; repeat case_match; done. }
  assert (Hver : metadata_value (init_schema db) SCHEMA_VERSION_KEY = Some (fmt_int CURRENT_SCHEMA_VERSION)).
  { unfold init_schema. set (db1 := ensure_tree_entry_content_commit_id_column db).
    destruct (metadata_value db1 _) as [v|] eqn:Hm.
    - case_bool_decide as Hv; [by rewrite Hm, Hv|]. unfold metadata_value. simpl.
      by rewrite lookup_insert_eq.
    - unfold metadata_value. simpl. by rewrite lookup_insert_eq. }
  assert (Hmeta : metadata_value (ensure_tree_entry_content_commit_id_column db) SCHEMA_VERSION_KEY
                  = metadata_value db SCHEMA_VERSION_KEY).
  { unfold ensure_tree_entry_content_commit_id_column. by destruct (db_tree_column db). }
  split_and!; [done|done| | |].
  - unfold init_schema at 1. unfold ensure_tree_entry_content_commit_id_column. rewrite Hcol.
    cbv zeta. rewrite Hver. by rewrite bool_decide_eq_true_2.
  - intros Hv. unfold init_schema. cbv zeta. rewrite Hmeta, Hv.
    by rewrite bool_decide_eq_true_2.
  - intros v Hv Hne. unfold init_schema. cbv zeta. rewrite Hmeta, Hv.
    by rewrite bool_decide_eq_false_2.
Qed.
End table_properties.

Section dirty_properties.
Context `{Sqlite, Blake3}.
Implicit Types (db : Db) (r : SyncFileRecord).

(** A dirty row that agrees with the tree of a commit: the commit has the file
    with the same path, kind and content, or neither side has it. *)
Definition agrees_with_head db (commit_id : string) r : Prop :=
  f_dirty r = true ∧
  ((f_deleted r = false ∧ ∃ e, db_tree_entries db !! (commit_id, f_file_id r) = Some e ∧
      te_normalized_path e = f_normalized_path r ∧ te_kind e = f_kind r ∧
      default "" (te_plaintext_hash e) = default "" (f_plaintext_hash r)) ∨
   (f_deleted r = true ∧ db_tree_entries db !! (commit_id, f_file_id r) = None)).

Lemma tree_entry_exists_spec db c cond :
  tree_entry_exists db c cond = true ↔
  ∃ fid e, db_tree_entries db !! (c, fid) = Some e ∧ cond fid e = true.
Proof.
  unfold tree_entry_exists. rewrite existsb_exists. split.
  - intros ([[c' fid] e] & Hin%list_elem_of_In%elem_of_map_to_list & [Hc Hcond]%andb_true_iff).
    apply bool_decide_eq_true in Hc as ->. eauto.
  - intros (fid & e & Hin & Hcond). exists ((c, fid), e).
    rewrite <- list_elem_of_In, elem_of_map_to_list. by rewrite bool_decide_eq_true_2.
Qed.

Lemma matches_head_spec db c r : matches_head db c r = true ↔ agrees_with_head db c r.
Proof.
  unfold matches_head, agrees_with_head.
  rewrite andb_true_iff, orb_true_iff, !andb_true_iff, negb_true_iff, tree_entry_exists_spec.
  apply and_iff_compat_l. apply Morphisms_Prop.or_iff_morphism; apply and_iff_compat_l.
  - split.
    + intros (fid & e & He & Hb). rewrite !andb_true_iff, !bool_decide_eq_true in Hb.
      destruct Hb as [[[-> ?] ?] ?]. eauto.
    + intros (e & He & ? & ? & ?). exists (f_file_id r), e. split; [done|].
      rewrite !bool_decide_eq_true_2 by done. done.
  - rewrite negb_true_iff. destruct (tree_entry_exists db c _) eqn:Ht.
    + split; [done|]. apply tree_entry_exists_spec in Ht as (fid & e & He & Hb).
      apply bool_decide_eq_true in Hb as ->. by rewrite He.
    + split; [intros _|done]. destruct (db_tree_entries db !! _) as [e|] eqn:He; [|done].
      exfalso. apply not_true_iff_false in Ht. apply Ht. apply tree_entry_exists_spec.
      exists (f_file_id r), e. split; [done|]. by apply bool_decide_eq_true_2.
Qed.

(** Clearing stale dirty flags. [clear_dirty_files_matching_head] marks as
    synced with the commit exactly the dirty rows that agree with its tree (same
    path, kind and content, or absent on both sides), leaves every other row
    alone, returns their number, keeps the invariant of the table, and a second
    call finds nothing to do. *)
Theorem clear_dirty_files_matching_head_exact db (commit_id : string) (n : nat) (db' : Db) :
  db_wf db → clear_dirty_files_matching_head db commit_id = (n, db') →
  (∀ p r, db_files db !! p = Some r →
     (agrees_with_head db commit_id r → db_files db' !! p = Some (set_synced commit_id r)) ∧
     (¬ agrees_with_head db commit_id r → db_files db' !! p = Some r)) ∧
  (∀ p, db_files db !! p = None → db_files db' !! p = None) ∧
  n = length (List.filter (matches_head db commit_id) (rows db)) ∧
  db_wf db' ∧ db_tree_entries db' = db_tree_entries db ∧
  clear_dirty_files_matching_head db' commit_id = (0, db').
Proof.
  intros Hwf [= <- <-].
  assert (Hwf' : db_wf (with_files db (update_files (matches_head db commit_id)
                          (set_synced commit_id) (db_files db))))
    by (apply update_files_wf; [done|by intros []]).
  set (db' := with_files db _) in *.
  assert (Hnone : ∀ r p, db_files db' !! p = Some r → matches_head db' commit_id r = false).
  { intros r p. simpl. rewrite lookup_update_files. intros (r0 & _ & ->)%fmap_Some_1.
    destruct (matches_head db commit_id r0) eqn:Hm; [done|]. exact Hm. }
  split_and!; try done.
  - intros p r Hr. simpl. rewrite lookup_update_files, Hr. simpl.
    destruct (matches_head db commit_id r) eqn:Hm.
    + apply matches_head_spec in Hm. naive_solver.
    + apply not_true_iff_false in Hm. rewrite matches_head_spec in Hm. naive_solver.
  - intros p Hr. simpl. by rewrite lookup_update_files, Hr.
  - unfold clear_dirty_files_matching_head. f_equal.
    + assert (Hall : ∀ r, r ∈ rows db' → matches_head db' commit_id r = false).
      { intros r Hr%elem_of_rows; [|done]. by eapply Hnone. }
      clear -Hall. induction (rows db') as [|r l IH]; simpl; [done|].
      rewrite Hall by set_solver. apply IH. set_solver.
    + assert (Hsame : update_files (matches_head db' commit_id) (set_synced commit_id)
                        (db_files db') = db_files db'); [|by rewrite Hsame].
      apply map_eq. intros p. rewrite lookup_update_files.
      destruct (db_files db' !! p) as [r|] eqn:Hr; simpl; [|done].
      by rewrite (Hnone _ _ Hr).
Qed.

Lemma lookup_mark_files_synced db c ids p :
  db_files (mark_files_synced db c ids) !! p =
  (λ r, if bool_decide (f_file_id r ∈ ids) then set_synced c r else r) <$> db_files db !! p.
Proof.
  unfold mark_files_synced. simpl. generalize (db_files db). induction ids as [|id ids IH]; intros m.
  - simpl. by destruct (m !! p).
  - cbn [foldl]. rewrite IH, lookup_update_files. destruct (m !! p) as [r|]; simpl; [f_equal|done].
    destruct (decide (f_file_id r = id)) as [Hid|Hid].
    + rewrite (bool_decide_eq_true_2 (f_file_id r = id)) by done.
      rewrite (bool_decide_eq_true_2 (f_file_id r ∈ id :: ids)) by set_solver.
      by case_bool_decide.
    + rewrite (bool_decide_eq_false_2 (f_file_id r = id)) by done.
      by rewrite (bool_decide_ext (f_file_id r ∈ id :: ids) (f_file_id r ∈ ids)) by set_solver.
Qed.

(** Acknowledging a publish. After [mark_files_synced], the rows of the
    given files carry the commit and are clean, every other row is unchanged,
    and the dirty listing is the old one without those files. *)
Theorem mark_files_synced_effect db (commit_id : string) (ids : list string) :
  db_wf db →
  let db' := mark_files_synced db commit_id ids in
  db_wf db' ∧
  (∀ p r, db_files db !! p = Some r →
     db_files db' !! p = Some (if bool_decide (f_file_id r ∈ ids) then set_synced commit_id r else r)) ∧
  (∀ r, r ∈ list_dirty_files db' ↔ r ∈ list_dirty_files db ∧ f_file_id r ∉ ids).
Proof.
  intros Hwf db'.
  assert (Hwf' : db_wf db').
  { subst db'. unfold db_wf, mark_files_synced. simpl. unfold db_wf in Hwf.
    revert Hwf. generalize (db_files db). induction ids as [|id ids IH]; intros m Hm; simpl; [done|].
    apply IH. apply update_files_wf; [done|by intros []]. }
  split; [done|]. split.
  { intros p r Hr. unfold db'. by rewrite lookup_mark_files_synced, Hr. }
  intros r. unfold list_dirty_files. rewrite !elem_of_sort_by, !list_elem_of_In, !List.filter_In.
  rewrite <- !list_elem_of_In. fold (rows db') (rows db).
  rewrite !elem_of_rows by done. unfold db'. rewrite lookup_mark_files_synced. split.
  - intros [(r0 & Hr0 & Heq)%fmap_Some_1 Hd]. case_bool_decide as Hin.
    + rewrite Heq in Hd. done.
    + subst r0. done.
  - intros [[Hr Hd] Hin]. split; [|done]. rewrite Hr. simpl.
    by rewrite bool_decide_eq_false_2.
Qed.
End dirty_properties.

(** ** Witnesses *)

Module Examples.
Definition sqlite : Sqlite :=
  {| unique_violation := λ c, "UNIQUE constraint failed: " +:+ c;
     no_rows := "Query returned no rows" |}.
#[local] Existing Instance sqlite.
#[local] Existing Instance Concrete.pad_blake3.

Definition input (path hash : string) : SyncFileInput :=
  {| i_path := path; i_normalized_path := path; i_kind := FILE_KIND_MARKDOWN;
     i_plaintext_hash := Some hash; i_size_bytes := Some 1%Z; i_mtime_ms := Some 1%Z |}.
Definition first_scan : list SyncFileInput := [input "a.md" "h1"; input "b.md" "h2"].
Definition db1 : Db :=
  match apply_scan empty_db first_scan 5 with Ok (_, db) => db | Err _ => empty_db end.
(** The state after publishing "a.md". *)
Definition db2 : Db := mark_files_synced db1 "c1" [file_id_for_normalized_path "a.md"].
Definition res2 : ScanApplyResult :=
  match apply_scan db2 [input "b.md" "h2"] 9 with
  | Ok (r, _) => r | Err _ => {| upserts := []; deletions := [] |} end.
Definition db3 : Db :=
  match apply_scan db2 [input "b.md" "h2"] 9 with Ok (_, db) => db | Err _ => empty_db end.

Lemma empty_wf : db_wf empty_db.
Proof. split; intros *; simpl; rewrite !lookup_empty; done. Qed.
Lemma first_scan_Ok : apply_scan empty_db first_scan 5 =
  Ok ({| upserts := (λ f, scanned_row None f) <$> first_scan; deletions := [] |}, db1).
Proof. vm_compute. reflexivity. Qed.
Lemma db1_wf : db_wf db1.
Proof.
  pose proof (apply_scan_effect _ _ _ _ _ empty_wf first_scan_Ok) as (_ & Hwf & _). exact Hwf.
Qed.
Lemma db2_wf : db_wf db2.
Proof.
  unfold db_wf, db2, mark_files_synced. simpl. apply update_files_wf; [apply db1_wf|by intros []].
Qed.
Lemma second_scan_Ok : apply_scan db2 [input "b.md" "h2"] 9 = Ok (res2, db3).
Proof. vm_compute. reflexivity. Qed.

Lemma apply_scan_refines_witness :
  (f_dirty <$> db_files db3 !! "a.md", f_deleted <$> db_files db3 !! "a.md") = (Some true, Some true) ∧
  db_wf db3 ∧
  (∀ n, db_files db3 !! n =
     spec_row 9 (db_files db2 !! n) (input_at [input "b.md" "h2"] n)).
Proof.
  split; [vm_compute; reflexivity|].
  pose proof (apply_scan_refines db2 [input "b.md" "h2"] 9 res2 db3 db2_wf second_scan_Ok)
    as (_ & Hwf & _ & Hrows & _). exact (conj Hwf Hrows).
Defined.

Lemma apply_scan_succeeds_witness :
  ∃ res db', apply_scan empty_db first_scan 5 = Ok (res, db').
Proof.
  apply apply_scan_succeeds.
  - apply empty_wf.
  - repeat constructor; vm_compute; reflexivity.
  - unfold first_scan. simpl. apply NoDup_cons. split; [set_solver|]. apply NoDup_singleton.
  - intros n1 n2 [[r Hr]|Hn1] Hn2 Heq.
    + simpl in Hr. by rewrite lookup_empty in Hr.
    + unfold first_scan in *. simpl in *.
      apply elem_of_cons in Hn1 as [->|Hn1]; [|apply list_elem_of_singleton in Hn1 as ->];
      (apply elem_of_cons in Hn2 as [->|Hn2]; [|apply list_elem_of_singleton in Hn2 as ->]);
      vm_compute in Heq; congruence.
Defined.

Definition res3 : ScanApplyResult :=
  match apply_scan db3 [input "b.md" "h2"] 12 with
  | Ok (r, _) => r | Err _ => {| upserts := []; deletions := [] |} end.
Lemma apply_scan_stable_witness : deletions res3 = [] ∧ length (deletions res2) = 1.
Proof.
  split; [|vm_compute; reflexivity].
  refine (proj1 (proj2 (apply_scan_stable db2 [input "b.md" "h2"] 9 12 res2 res3 db3 db3
            db2_wf second_scan_Ok _))).
  vm_compute. reflexivity.
Defined.

Definition entry (id path : string) : SyncTreeEntryRecord :=
  {| t_commit_id := "c0"; t_file_id := id; t_normalized_path := path;
     t_plaintext_hash := Some "h"; t_content_object_id := None; t_pack_entry_id := None;
     t_kind := FILE_KIND_MARKDOWN |}.
Lemma persist_tree_cache_witness :
  ∃ db', persist_tree_cache empty_db "c1" "t" "j" "s" [entry "f2" "b.md"; entry "f1" "a.md"] 3 = Ok db' ∧
    list_tree_entries db' "c1" = [entry "f1" "a.md"; entry "f2" "b.md"].
Proof.
  destruct (persist_tree_cache_roundtrip empty_db "c1" "t" "j" "s"
              [entry "f2" "b.md"; entry "f1" "a.md"] 3) as [Hiff Hlist].
  destruct (proj1 Hiff) as [db' Hdb'].
  - simpl. apply NoDup_cons. split; [set_solver|]. apply NoDup_singleton.
  - exists db'. split; [exact Hdb'|]. destruct (Hlist db' Hdb') as (_ & _ & Heq & _).
    rewrite Heq; [vm_compute; reflexivity|].
    simpl. apply NoDup_cons. split; [set_solver|]. apply NoDup_singleton.
Defined.

Lemma init_schema_witness :
  let old := with_metadata empty_db {[SCHEMA_VERSION_KEY := "1"]} in
  init_schema old = persist_schema_version empty_db ∧ init_schema db3 ≠ empty_db.
Proof.
  split; [|vm_compute; discriminate].
  apply (init_schema_establishes (with_metadata empty_db {[SCHEMA_VERSION_KEY := "1"]})) with (v := "1").
  - reflexivity.
  - vm_compute. discriminate.
Defined.

Definition head_entry : SyncTreeEntryRecord :=
  {| t_commit_id := "c1"; t_file_id := file_id_for_normalized_path "b.md";
     t_normalized_path := "b.md"; t_plaintext_hash := Some "h2"; t_content_object_id := None;
     t_pack_entry_id := None; t_kind := FILE_KIND_MARKDOWN |}.
Definition db4 : Db :=
  match persist_tree_cache db3 "c1" "t" "j" "s" [head_entry] 3 with Ok db => db | Err _ => db3 end.
Definition db5 : Db := snd (clear_dirty_files_matching_head db4 "c1").
Lemma db4_wf : db_wf db4.
Proof.
  pose proof (apply_scan_effect _ _ _ _ _ db2_wf second_scan_Ok) as (_ & Hwf & _). exact Hwf.
Qed.
(** Both rows of [db4] are dirty and agree with the head. *)
Lemma clear_dirty_witness :
  db_wf db5 ∧ clear_dirty_files_matching_head db5 "c1" = (0, db5).
Proof.
  pose proof (clear_dirty_files_matching_head_exact db4 "c1" 2 db5 db4_wf ltac:(vm_compute; reflexivity))
    as (_ & _ & _ & Hwf & _ & Hagain).
  exact (conj Hwf Hagain).
Defined.

Lemma mark_files_synced_witness :
  f_dirty <$> db_files db2 !! "a.md" = Some false ∧ db_wf db2.
Proof.
  split; [vm_compute; reflexivity|].
  exact (proj1 (mark_files_synced_effect db1 "c1" [file_id_for_normalized_path "a.md"] db1_wf)).
Defined.
End Examples.
