(* ===== verification/Scanner.v ===== *)
(** * The file system and the vault scan (sync/scanner.rs)

    The part of the file system the sync engine sees, as a finite map from
    absolute paths to nodes, with the calls the code makes on it; and
    [scan_vault], which lists the markdown files of a vault. *)
From Stdlib Require Import Ascii String.
#[local] Set Warnings "-clear-no-such-hyp".
From S2P Require Import Prelude SyncErrors Paths SyncDb.

(** ** Files *)

(** [mtime] is in milliseconds, negative before the epoch. [Symlink b] is a link
    whose target exists when [b] holds; links are never followed below a vault
    root, so no more is needed of them. *)
Inductive Node :=
| File (content : bytes) (mtime : Z)
| Dir
| Symlink (target_exists : bool).
Abbreviation Fs := (gmap AbsPath Node).

Inductive IoError := NotFound | IsADirectory | NotADirectory.
(** The text the operating system reports. *)
Class Os := { io_text : IoError → string }.

Definition is_symlink (fs : Fs) (p : AbsPath) : bool :=
  match fs !! p with Some (Symlink _) => true | _ => false end.
(** [Path::exists]: follows a link. *)
Definition path_exists (fs : Fs) (p : AbsPath) : bool :=
  match fs !! p with Some (Symlink b) => b | Some _ => true | None => false end.
Definition is_dir (fs : Fs) (p : AbsPath) : bool :=
  bool_decide (p = []) || match fs !! p with Some Dir => true | _ => false end.

(** [fs::read], on a path without links. *)
Definition fs_read (fs : Fs) (p : AbsPath) : Result IoError bytes :=
  match fs !! p with
  | Some (File c _) => Ok c
  | Some Dir => Err IsADirectory
  | Some (Symlink _) | None => Err NotFound
  end.

(** [fs::create_dir_all]: every missing directory of the path, outermost first. *)
Definition create_dir_step (fs : Fs) (p : AbsPath) : Result IoError Fs :=
  if is_dir fs p then Ok fs
  else match fs !! p with
       | None => Ok (<[p := Dir]> fs)
       | Some _ => Err NotADirectory
       end.
Definition prefixes (p : AbsPath) : list AbsPath := (λ n, take n p) <$> seq 1 (length p).
Definition create_dir_all (fs : Fs) (p : AbsPath) : Result IoError Fs :=
  try_fold create_dir_step fs (prefixes p).

(** [fs::write] at time [now]. *)
Definition fs_write (fs : Fs) (p : AbsPath) (content : bytes) (now : Z) : Result IoError Fs :=
  if negb (is_dir fs (removelast p)) then Err NotFound
  else match fs !! p with
       | Some Dir => Err IsADirectory
       | Some (Symlink _) => Err NotFound
       | _ => Ok (<[p := File content now]> fs)
       end.

(** [fs::remove_file] *)
Definition fs_remove_file (fs : Fs) (p : AbsPath) : Result IoError Fs :=
  match fs !! p with
  | None => Err NotFound
  | Some Dir => Err IsADirectory
  | Some _ => Ok (delete p fs)
  end.

(** [fs::read_dir]: the entries of a directory; their order is the operating
    system's and the scan does not depend on it. *)
Definition child_of (dir p : AbsPath) : option string :=
  if bool_decide (dir `prefix_of` p)
  then match drop (length dir) p with [name] => Some name | _ => None end
  else None.
Definition read_dir (fs : Fs) (dir : AbsPath) : list (string * Node) :=
  omap (λ x : AbsPath * Node, (λ name, (name, x.2)) <$> child_of dir x.1) (map_to_list fs).

(** ** The scan *)

Record ScannedFile := {
  s_file_id : string;
  s_path : string;
  s_normalized_path : string;
  s_plaintext_hash : string;
  s_size_bytes : Z;
  s_mtime_ms : Z;
  s_plaintext : bytes }.

(** [ScannedFile::file_input] *)
Definition file_input (s : ScannedFile) : SyncFileInput :=
  {| i_path := s_path s; i_normalized_path := s_normalized_path s;
     i_kind := FILE_KIND_MARKDOWN; i_plaintext_hash := Some (s_plaintext_hash s);
     i_size_bytes := Some (s_size_bytes s); i_mtime_ms := Some (s_mtime_ms s) |}.

(** [duration_since(UNIX_EPOCH).unwrap_or_default()], saturated. *)
Definition modified_ms (mtime : Z) : Z := Z.min (Z.max 0 mtime) i64_max.

Section scan.
Context `{Unicode, Blake3, Os}.

Definition scan_file (relative : list string) (content : bytes) (mtime : Z)
  : SyncResult ScannedFile :=
  let relative_path := to_relative_path relative in
  normalized_path ← normalize_vault_relative_path relative_path;
  size_bytes ← ok_or (i64_try_from (byte_len content))
                 (InvalidArgument ("sync file is too large: " +:+ slash_join relative));
  Ok {| s_file_id := file_id_for_normalized_path normalized_path;
        s_path := relative_path; s_normalized_path := normalized_path;
        s_plaintext_hash := blake3_hex content; s_size_bytes := size_bytes;
        s_mtime_ms := modified_ms mtime; s_plaintext := content |}.

(** One entry of [scan_dir]; [recurse] is the recursive call on a directory. *)
Definition scan_entry (root dir : AbsPath)
    (recurse : AbsPath → list ScannedFile → SyncResult (list ScannedFile))
    (files : list ScannedFile) (entry : string * Node) : SyncResult (list ScannedFile) :=
  let path := dir ++ [entry.1] in
  let relative := drop (length root) path in
  if should_ignore_path relative then Ok files
  else match entry.2 with
       | Symlink _ => Ok files
       | Dir => recurse path files
       | File content mtime =>
           if negb (is_markdown_path entry.1) then Ok files
           else f ← scan_file relative content mtime; Ok (files ++ [f])
       end.

(** The recursion is bounded by the depth of the tree. *)
Fixpoint scan_dir (fuel : nat) (fs : Fs) (root dir : AbsPath) (files : list ScannedFile)
  : SyncResult (list ScannedFile) :=
  match fuel with
  | O => Ok files
  | S fuel => try_fold (scan_entry root dir (λ d fs', scan_dir fuel fs root d fs'))
                files (read_dir fs dir)
  end.

Definition scan_depth (fs : Fs) : nat :=
  S (foldr (λ x : AbsPath * Node, Nat.max (length x.1)) 0 (map_to_list fs)).

Definition validate_unique_normalized_paths (files : list ScannedFile) : SyncResult unit :=
  _ ← try_fold (λ seen file,
        if bool_decide (s_normalized_path file ∈ seen)
        then Err (InvalidArgument ("duplicate normalized sync path: " +:+ s_normalized_path file))
        else Ok (seen ++ [s_normalized_path file])) [] files;
  Ok tt.

Definition scan_vault (fs : Fs) (root : AbsPath) : SyncResult (list ScannedFile) :=
  _ ← (match fs !! root with
       | Some Dir => Ok tt
       | Some _ => Err (InvalidArgument ("vault root is not a directory: /" +:+ slash_join root))
       | None => Err (Storage ("failed to read vault root: " +:+ io_text NotFound))
       end);
  files ← scan_dir (scan_depth fs) fs root root [];
  let files := sort_by (leb_on s_normalized_path) files in
  _ ← validate_unique_normalized_paths files;
  Ok files.
End scan.

(** ** Listing *)

Lemma child_of_Some dir p name : child_of dir p = Some name ↔ p = dir ++ [name].
Proof.
  unfold child_of. case_bool_decide as Hp.
  - destruct Hp as [k ->]. rewrite drop_app_length.
    split.
    + destruct k as [|x [|y k]]; [done| |done]. by intros [= ->].
    + by intros ->%app_inv_head_iff.
  - split; [done|]. intros ->. destruct Hp. by apply prefix_app_r.
Qed.

Lemma elem_of_read_dir fs dir name node :
  (name, node) ∈ read_dir fs dir ↔ fs !! (dir ++ [name]) = Some node.
Proof.
  unfold read_dir. rewrite list_elem_of_omap. split.
  - intros ([p n] & Hin%elem_of_map_to_list & Hc). simpl in *.
    apply fmap_Some_1 in Hc as (name' & Hc%child_of_Some & [= -> ->]). by subst.
  - intros Hl. exists (dir ++ [name], node). rewrite elem_of_map_to_list. split; [done|].
    simpl. by rewrite (proj2 (child_of_Some dir _ name) eq_refl).
Qed.

(** A loop that only appends collects what its bodies append. *)
Lemma try_fold_append {E X Y} (f : list Y → X → Result E (list Y)) (Q : X → Y → Prop) l s s' :
  (∀ x s s', x ∈ l → f s x = Ok s' → ∃ new, s' = s ++ new ∧ ∀ y, y ∈ new ↔ Q x y) →
  try_fold f s l = Ok s' → ∃ new, s' = s ++ new ∧ ∀ y, y ∈ new ↔ ∃ x, x ∈ l ∧ Q x y.
Proof.
  revert s; induction l as [|x l IH]; intros s Hf; simpl.
  - intros [= <-]. exists []. rewrite app_nil_r. split; [done|]. intros y. split; [set_solver|].
    intros (x & Hx & _). set_solver.
  - intros (s1 & H1 & H2)%bind_Ok_inv.
    apply Hf in H1 as (n1 & -> & Hn1); [|set_solver].
    apply IH in H2 as (n2 & -> & Hn2); [|intros; eapply Hf; [set_solver|done]].
    exists (n1 ++ n2). split; [by rewrite app_assoc|]. intros y.
    rewrite elem_of_app, Hn1, Hn2. split.
    + intros [?|(x' & ? & ?)]; [exists x; set_solver|exists x'; set_solver].
    + intros (x' & [->|Hx']%elem_of_cons & Hq); [by left|right; eauto].
Qed.

Section scan_spec.
Context `{Unicode, Blake3, Os}.
Context (fs : Fs) (root : AbsPath).

(** Directories the scan enters, as paths below the root: from a directory to a
    sub-directory whose relative path is not ignored. *)
Inductive reach (d : list string) : list string → Prop :=
| reach_refl : reach d d
| reach_step d' name : reach d d' → fs !! (root ++ d' ++ [name]) = Some Dir →
    should_ignore_path (d' ++ [name]) = false → reach d (d' ++ [name]).

(** A markdown file of directory [d'], scanned as [f]. *)
Definition listed (d' : list string) (f : ScannedFile) : Prop :=
  ∃ name c m, fs !! (root ++ d' ++ [name]) = Some (File c m) ∧
    should_ignore_path (d' ++ [name]) = false ∧ is_markdown_path name = true ∧
    scan_file (d' ++ [name]) c m = Ok f.

Lemma reach_cons d name d' :
  fs !! (root ++ d ++ [name]) = Some Dir → should_ignore_path (d ++ [name]) = false →
  reach (d ++ [name]) d' → reach d d'.
Proof. intros Hd Hi. induction 1; repeat (constructor; try done). Qed.

Lemma reach_inv d d' :
  reach d d' → d' = d ∨ ∃ name, fs !! (root ++ d ++ [name]) = Some Dir ∧
    should_ignore_path (d ++ [name]) = false ∧ reach (d ++ [name]) d'.
Proof.
  induction 1 as [|d' name Hr [->|(n & Hn & Hi & Hr')] Hd Hig]; [by left| |]; right.
  - exists name. split_and!; [done..|]. constructor.
  - exists n. split_and!; [done..|]. by constructor.
Qed.

Lemma reach_length d d' : reach d d' → length d ≤ length d'.
Proof. induction 1; [done|]. rewrite length_app. lia. Qed.

Lemma reach_depth d d' : reach d d' → d' = d ∨ is_Some (fs !! (root ++ d')).
Proof. destruct 1; [by left|right; eauto]. Qed.

Lemma relative_path_drop d name : drop (length root) ((root ++ d) ++ [name]) = d ++ [name].
Proof. by rewrite <- app_assoc, drop_app_length. Qed.

Lemma scan_dir_spec fuel d files files' :
  scan_dir fuel fs root (root ++ d) files = Ok files' →
  ∃ new, files' = files ++ new ∧
    ∀ f, f ∈ new ↔ ∃ d', reach d d' ∧ length d' < length d + fuel ∧ listed d' f.
Proof.
  revert d files files'; induction fuel as [|fuel IH]; intros d files files'; simpl.
  - intros [= <-]. exists []. rewrite app_nil_r. split; [done|]. intros f.
    split; [set_solver|]. intros (d' & Hr%reach_length & Hl & _). lia.
  - intros Hf. eapply try_fold_append with (Q := λ entry f,
      let rel := d ++ [entry.1] in
      should_ignore_path rel = false ∧
      match entry.2 with
      | Dir => ∃ d', reach rel d' ∧ length d' < length rel + fuel ∧ listed d' f
      | File c m => is_markdown_path entry.1 = true ∧ scan_file rel c m = Ok f
      | Symlink _ => False
      end) in Hf as (new & -> & Hnew).
    + exists new. split; [done|]. intros f. rewrite Hnew. split.
      * intros ([name node] & Hin%elem_of_read_dir & Hig & Hq). simpl in *.
        rewrite <- app_assoc in Hin. destruct node as [c m| |]; [| |done].
        -- exists d. split; [constructor|]. split; [lia|]. exists name, c, m. naive_solver.
        -- destruct Hq as (d' & Hr & Hl & Hlist). exists d'.
           split; [by eapply reach_cons|]. split; [|done].
           rewrite length_app in Hl. simpl in Hl. lia.
      * intros (d' & [->|(name & Hd & Hig & Hr)]%reach_inv & Hl & Hlist).
        -- destruct Hlist as (name & c & m & Hn & Hig & Hmd & Hs).
           exists (name, File c m). rewrite elem_of_read_dir, <- app_assoc. naive_solver.
        -- exists (name, Dir). rewrite elem_of_read_dir, <- app_assoc. simpl.
           split_and!; [done..|]. exists d'. split; [done|]. split; [|done].
           rewrite length_app. simpl. lia.
    + intros [name node] s s' Hin%elem_of_read_dir Hs. unfold scan_entry in Hs.
      rewrite relative_path_drop in Hs. simpl in *.
      destruct (should_ignore_path (d ++ [name])).
      { injection Hs as <-. exists []. rewrite app_nil_r. set_solver. }
      destruct node as [c m| |].
      * destruct (is_markdown_path name) eqn:Hmd; simpl in Hs.
        -- apply bind_Ok_inv in Hs as (f & Hsf & [= <-]). exists [f]. split; [done|].
           intros y. rewrite list_elem_of_singleton, Hsf. naive_solver.
        -- injection Hs as <-. exists []. rewrite app_nil_r. set_solver.
      * rewrite <- app_assoc in Hs. apply IH in Hs as (new & -> & Hnew).
        exists new. split; [done|]. intros y. rewrite Hnew. naive_solver.
      * injection Hs as <-. exists []. rewrite app_nil_r. set_solver.
Qed.

Lemma scan_depth_bound p n : fs !! p = Some n → length p < scan_depth fs.
Proof.
  intros Hp%elem_of_map_to_list. unfold scan_depth. apply le_n_S.
  induction (map_to_list fs) as [|[q m] l IH]; [set_solver|].
  apply elem_of_cons in Hp as [[= -> ->]|Hp]; simpl; [lia|]. specialize (IH Hp). lia.
Qed.

Lemma validate_unique_Ok files :
  validate_unique_normalized_paths files = Ok tt → NoDup (s_normalized_path <$> files).
Proof.
  unfold validate_unique_normalized_paths. intros (seen & Hf & _)%bind_Ok_inv.
  eapply (try_fold_prefix_invariant (λ d seen, seen = s_normalized_path <$> d ∧ NoDup seen)
            _ []) in Hf as [-> Hnd]; [done|by split; [|apply NoDup_nil_2]|].
  intros d s x s' _ [-> Hs]. case_bool_decide as Hin; [done|]. intros [= <-].
  rewrite fmap_app. split; [done|]. apply NoDup_app. split; [done|]. simpl.
  split; [set_solver|apply NoDup_singleton].
Qed.

(** C20: the vault scan is exact. A successful [scan_vault] returns the files in
    increasing order of normal form, with pairwise different normal forms, and
    contains precisely one entry per markdown file that is reached from the root
    through real directories without crossing a hidden or temporary name or a
    symbolic link; the recursion depth used is always enough. *)
Theorem scan_vault_exact files :
  scan_vault fs root = Ok files →
  StronglySorted (λ x y, leb_on s_normalized_path x y = true) files ∧
  NoDup (s_normalized_path <$> files) ∧
  ∀ f, f ∈ files ↔ ∃ d, reach [] d ∧ listed d f.
Proof.
  unfold scan_vault. intros (u & Hroot & Hs)%bind_Ok_inv.
  apply bind_Ok_inv in Hs as (found & Hfound & Hs).
  apply bind_Ok_inv in Hs as ([] & Hu%validate_unique_Ok & [= <-]).
  split; [apply sort_by_sorted, _|]. split; [done|]. intros f. rewrite elem_of_sort_by.
  rewrite <- (app_nil_r root) in Hfound at 2.
  apply scan_dir_spec in Hfound as (new & -> & Hnew). simpl. rewrite Hnew.
  split; [naive_solver|]. intros (d & Hr & Hl). exists d. split_and!; [done| |done].
  simpl. destruct Hl as (name & c & m & Hp & _).
  apply scan_depth_bound in Hp. rewrite !length_app in Hp. lia.
Qed.
End scan_spec.

Module Examples.
#[local] Existing Instance Concrete.ascii_unicode.
#[local] Existing Instance Concrete.pad_blake3.
Definition os : Os := {| io_text := λ _, "os error" |}.
#[local] Existing Instance os.

Definition vault : Fs := list_to_map
  [(["v"], Dir); (["v"; "notes"], Dir); (["v"; "notes"; "Plan.md"], File "# Plan" 7);
   (["v"; ".hidden"], Dir); (["v"; ".hidden"; "x.md"], File "x" 7);
   (["v"; "tmp~"], Dir); (["v"; "tmp~"; "y.md"], File "y" 7);
   (["v"; "link.md"], Symlink true); (["v"; "image.png"], File "png" 7);
   (["v"; "a.md"], File "A" (-3))].
Definition listing : list ScannedFile :=
  match scan_vault vault ["v"] with Ok l => l | Err _ => [] end.

Lemma scan_vault_witness :
  scan_vault vault ["v"] = Ok listing ∧ s_path <$> listing = ["a.md"; "notes/Plan.md"] ∧
  NoDup (s_normalized_path <$> listing).
Proof.
  assert (Hs : scan_vault vault ["v"] = Ok listing) by (vm_compute; reflexivity).
  split; [exact Hs|]. split; [vm_compute; reflexivity|].
  exact (proj1 (proj2 (scan_vault_exact vault ["v"] listing Hs))).
Defined.

(** On Unix a backslash is an ordinary character of a file name. The scan reads
    it as a separator: one file whose name holds a [..] between backslashes makes
    the scan of the whole vault fail. *)
Example backslash_name_blocks_scan :
  scan_vault (list_to_map [(["v"], Dir); (["v"; "a\..\b.md"], File "x" 1); (["v"; "ok.md"], File "y" 1)])
    ["v"] = Err (InvalidArgument "sync path traversal is not allowed").
Proof. vm_compute. reflexivity. Qed.
End Examples.
