(* ===== verification/Disk.v ===== *)
(** * A disk on which calls fail and processes stop

    The file-system calls of the knowledge code (tokio::fs), each an atomic step of
    a process. In each step the environment decides whether the call works, fails
    with an error of the operating system, or the process stops there (a crash, a
    kill); a write that does not work may have left any text in its file, a removal
    of a directory may have removed any part of it. A program logic follows both
    ends of a process: where it returns, and where it stops. *)
From Stdlib Require Import Ascii String.
#[local] Set Warnings "-clear-no-such-hyp".
From S2P Require Import Prelude Paths SyncDb Scanner.

(** ** Errors, fates, processes *)

Inductive DiskError :=
| DiskNotFound
| DiskAlreadyExists
| DiskNotADirectory
| DiskOther (message : string).

(** What a call that does not work leaves behind: the effect of an atomic call that
    stopped too late, the text of a torn write, the paths a removal got to. *)
Record Residue := { rs_done : bool; rs_text : bytes; rs_gone : AbsPath → bool }.
Inductive Fate :=
| Works
| Fails (error : DiskError) (residue : Residue)
| Stops (residue : Residue).
(** The environment of one process: the fate and the time of each of its steps, and
    the message the operating system has for an error. *)
Class Environment := {
  fate_at : nat → Fate;
  time_at : nat → Z;
  disk_text : DiskError → string }.

Record Machine := { mc_fs : Fs; mc_steps : nat }.
Inductive Outcome (E A : Type) :=
| Returned (r : Result E A)
| Stopped.
Arguments Returned {E A} r.
Arguments Stopped {E A}.
Definition Process (E A : Type) : Type := Machine → Outcome E A * Machine.

#[export] Instance process_ret {E} : MRet (Process E) := λ A a m, (Returned (Ok a), m).
#[export] Instance process_bind {E} : MBind (Process E) := λ A B f p m,
  match p m with
  | (Returned (Ok a), m) => f a m
  | (Returned (Err e), m) => (Returned (Err e), m)
  | (Stopped, m) => (Stopped, m)
  end.
Definition pure {E A} (r : Result E A) : Process E A := λ m, (Returned r, m).
(** The outcome of a call as a value; a process that stopped stays stopped. *)
Definition try_ {E F A} (p : Process E A) : Process F (Result E A) := λ m,
  match p m with
  | (Returned r, m) => (Returned (Ok r), m)
  | (Stopped, m) => (Stopped, m)
  end.
Definition map_error {E F A} (f : E → F) (p : Process E A) : Process F A := λ m,
  match p m with
  | (Returned r, m) => (Returned (map_err f r), m)
  | (Stopped, m) => (Stopped, m)
  end.
(** [for x in l { s = body(s, x)?; }] *)
Fixpoint process_fold {E S X} (f : S → X → Process E S) (s : S) (l : list X) : Process E S :=
  match l with
  | [] => mret s
  | x :: l => s' ← f s x; process_fold f s' l
  end.

(** ** Calls *)

Section calls.
Context `{Environment}.

(** One step: its effect when it works, what it leaves when it does not. *)
Definition call {A} (effect : Fs → Result DiskError (A * Fs)) (left_over : Residue → Fs → Fs)
  : Process DiskError A := λ m,
  let m' fs := {| mc_fs := fs; mc_steps := S (mc_steps m) |} in
  match fate_at (mc_steps m) with
  | Works => match effect (mc_fs m) with
             | Ok (a, fs) => (Returned (Ok a), m' fs)
             | Err e => (Returned (Err e), m' (mc_fs m))
             end
  | Fails e residue => (Returned (Err e), m' (mc_fs m))
  | Stops residue => (Stopped, m' (left_over residue (mc_fs m)))
  end.
(** An atomic call stopped before or after its effect. *)
Definition before_or_after {A} (effect : Fs → Result DiskError (A * Fs)) (residue : Residue) (fs : Fs) : Fs :=
  if rs_done residue then match effect fs with Ok (_, fs) => fs | Err _ => fs end else fs.
Definition atomic {A} (effect : Fs → Result DiskError (A * Fs)) : Process DiskError A :=
  call effect (before_or_after effect).
(** A call that only looks. *)
Definition observe {A} (look : Fs → Result DiskError A) : Process DiskError A :=
  atomic (λ fs, a ← look fs; Ok (a, fs)).

(** The system clock, which cannot fail. *)
Definition now {E} : Process E Z := λ m, (Returned (Ok (time_at (mc_steps m))), m).

Definition parent_is_dir (fs : Fs) (p : AbsPath) : bool := is_dir fs (removelast p).
(** A file among the ancestors. *)
Definition under_file (fs : Fs) (p : AbsPath) : bool :=
  existsb (λ q, match fs !! q with Some (File _ _) => true | _ => false end) (prefixes (removelast p)).
Definition missing (fs : Fs) (p : AbsPath) : DiskError :=
  if under_file fs p then DiskNotADirectory else DiskNotFound.

Definition look_read (fs : Fs) (p : AbsPath) : Result DiskError bytes :=
  match fs !! p with
  | Some (File c _) => Ok c
  | Some Dir => Err (DiskOther "Is a directory")
  | Some (Symlink _) => Err DiskNotFound
  | None => Err (missing fs p)
  end.
Definition disk_read (p : AbsPath) : Process DiskError bytes := observe (λ fs, look_read fs p).

(** [tokio::fs::try_exists] *)
Definition disk_try_exists (p : AbsPath) : Process DiskError bool :=
  observe (λ fs, match fs !! p with
                 | Some _ => Ok (path_exists fs p)
                 | None => if under_file fs p then Err DiskNotADirectory else Ok false
                 end).
(** [Path::exists]: any error counts as absence. *)
Definition disk_exists {E} (p : AbsPath) : Process E bool :=
  found ← try_ (disk_try_exists p); mret (match found with Ok b => b | Err _ => false end).

(** [tokio::fs::read_dir] and its entries' names *)
Definition disk_read_dir (p : AbsPath) : Process DiskError (list string) :=
  observe (λ fs, if is_dir fs p then Ok (fst <$> read_dir fs p)
                 else match fs !! p with
                      | Some _ => Err DiskNotADirectory
                      | None => Err (missing fs p)
                      end).
(** [tokio::fs::metadata(p)?.modified()] *)
Definition disk_modified (p : AbsPath) : Process DiskError Z :=
  observe (λ fs, match fs !! p with
                 | Some (File _ mtime) => Ok mtime
                 | Some _ => Ok 0%Z
                 | None => Err (missing fs p)
                 end).

(** [tokio::fs::create_dir_all], a directory at a time *)
Definition make_dir (fs : Fs) (p : AbsPath) : Result DiskError (unit * Fs) :=
  match create_dir_step fs p with
  | Ok fs => Ok (tt, fs)
  | Err _ => Err DiskNotADirectory
  end.
Definition disk_create_dir_all (p : AbsPath) : Process DiskError unit :=
  process_fold (λ _ q, atomic (λ fs, make_dir fs q)) tt (prefixes p).

(** [OpenOptions::new().write(true).create(true).truncate(true).open(p)] *)
Definition open_truncate (now : Z) (p : AbsPath) (fs : Fs) : Result DiskError (unit * Fs) :=
  if negb (parent_is_dir fs p) then Err (missing fs p)
  else match fs !! p with
       | Some Dir => Err (DiskOther "Is a directory")
       | Some (Symlink _) => Err DiskNotFound
       | _ => Ok (tt, <[p := File EmptyString now]> fs)
       end.
(** [write_all] on the open file; torn when it does not work *)
Definition put_text (now : Z) (p : AbsPath) (text : bytes) (fs : Fs) : Fs := <[p := File text now]> fs.
Definition disk_write_all (p : AbsPath) (text : bytes) : Process DiskError unit := λ m,
  let now := time_at (mc_steps m) in
  let m' fs := {| mc_fs := fs; mc_steps := S (mc_steps m) |} in
  match fate_at (mc_steps m) with
  | Works => (Returned (Ok tt), m' (put_text now p text (mc_fs m)))
  | Fails e residue => (Returned (Err e), m' (put_text now p (rs_text residue) (mc_fs m)))
  | Stops residue => (Stopped, m' (put_text now p (rs_text residue) (mc_fs m)))
  end.
(** [file.sync_all()]: the text is in the file already. *)
Definition disk_sync : Process DiskError unit := observe (λ _, Ok tt).
Definition disk_open (p : AbsPath) : Process DiskError unit := λ m,
  atomic (open_truncate (time_at (mc_steps m)) p) m.
(** The sequence the code writes files with. *)
Definition disk_write_synced (p : AbsPath) (text : bytes) : Process DiskError unit :=
  _ ← disk_open p; _ ← disk_write_all p text; disk_sync.
(** [create_new(true)] *)
Definition open_new (now : Z) (p : AbsPath) (fs : Fs) : Result DiskError (unit * Fs) :=
  if negb (parent_is_dir fs p) then Err (missing fs p)
  else match fs !! p with
       | Some _ => Err DiskAlreadyExists
       | None => Ok (tt, <[p := File EmptyString now]> fs)
       end.
Definition disk_create_new (p : AbsPath) : Process DiskError unit := λ m,
  atomic (open_new (time_at (mc_steps m)) p) m.

(** [tokio::fs::rename] of a file onto a file or a free name *)
Definition move_file (from to : AbsPath) (fs : Fs) : Result DiskError (unit * Fs) :=
  match fs !! from with
  | Some (File c t) =>
      if negb (parent_is_dir fs to) then Err (missing fs to)
      else match fs !! to with
           | Some Dir => Err (DiskOther "Is a directory")
           | _ => if bool_decide (from = to) then Ok (tt, fs)
                  else Ok (tt, <[to := File c t]> (delete from fs))
           end
  | Some _ => Err (DiskOther "not a file")
  | None => Err (missing fs from)
  end.
Definition disk_rename (from to : AbsPath) : Process DiskError unit := atomic (move_file from to).

(** [tokio::fs::hard_link]: a second name for the file, never over another one. The
    two names are separate files here, and no code writes to either afterwards. *)
Definition link_file (from to : AbsPath) (fs : Fs) : Result DiskError (unit * Fs) :=
  match fs !! from with
  | Some (File c t) =>
      match fs !! to with
      | Some _ => Err DiskAlreadyExists
      | None => if negb (parent_is_dir fs to) then Err (missing fs to)
                else Ok (tt, <[to := File c t]> fs)
      end
  | Some _ => Err (DiskOther "not a file")
  | None => Err (missing fs from)
  end.
Definition disk_hard_link (from to : AbsPath) : Process DiskError unit := atomic (link_file from to).

Definition unlink (p : AbsPath) (fs : Fs) : Result DiskError (unit * Fs) :=
  match fs !! p with
  | None => Err (missing fs p)
  | Some Dir => Err (DiskOther "Is a directory")
  | Some _ => Ok (tt, delete p fs)
  end.
Definition disk_remove_file (p : AbsPath) : Process DiskError unit := atomic (unlink p).

(** [tokio::fs::remove_dir_all]: everything below [p], and [p]. *)
Definition below (p q : AbsPath) : bool := bool_decide (p `prefix_of` q).
Definition remove_below (p : AbsPath) (gone : AbsPath → bool) (fs : Fs) : Fs :=
  filter (λ x : AbsPath * Node, below p x.1 && gone x.1 = false) fs.
Definition remove_tree (p : AbsPath) (fs : Fs) : Result DiskError (unit * Fs) :=
  match fs !! p with
  | Some Dir => Ok (tt, remove_below p (λ _, true) fs)
  | Some _ => Err DiskNotADirectory
  | None => Err (missing fs p)
  end.
Definition disk_remove_dir_all (p : AbsPath) : Process DiskError unit := λ m,
  let m' fs := {| mc_fs := fs; mc_steps := S (mc_steps m) |} in
  match fate_at (mc_steps m), remove_tree p (mc_fs m) with
  | Works, Ok (_, fs) => (Returned (Ok tt), m' fs)
  | Works, Err e => (Returned (Err e), m' (mc_fs m))
  | Fails e residue, Ok _ => (Returned (Err e), m' (remove_below p (rs_gone residue) (mc_fs m)))
  | Fails e _, Err _ => (Returned (Err e), m' (mc_fs m))
  | Stops residue, Ok _ => (Stopped, m' (remove_below p (rs_gone residue) (mc_fs m)))
  | Stops _, Err _ => (Stopped, m' (mc_fs m))
  end.
End calls.

(** ** A program logic *)

(** A process stops only where the environment stops it. *)
Definition stops `{Environment} : Prop := ∃ n residue, fate_at n = Stops residue.
(** How a process that starts on the disk [fs] ends, whatever its first step is
    numbered: where it returns, [Q] holds of its result and of the disk, and where it
    stops, [C] holds of the disk. *)
Definition ends `{Environment} {E A} (p : Process E A) (fs : Fs) (C : Fs → Prop) (Q : Result E A → Fs → Prop) : Prop :=
  ∀ n, match p {| mc_fs := fs; mc_steps := n |} with
       | (Returned r, m) => Q r (mc_fs m)
       | (Stopped, m) => stops ∧ C (mc_fs m)
       end.
(** Steps may stop, but no call reports an error of the system. *)
Class Unfailing `{Environment} : Prop := { never_fails n e residue : fate_at n ≠ Fails e residue }.

Lemma ends_returns `{Environment} {E A} (p : Process E A) fs C Q n :
  ends p fs C Q → ¬ stops → ∃ r m, p {| mc_fs := fs; mc_steps := n |} = (Returned r, m) ∧ Q r (mc_fs m).
Proof. intros Hp Hno. specialize (Hp n). destruct (p _) as [[r|] m]; [by exists r, m|]. by destruct Hp. Qed.

Section rules.
Context `{Environment} {E F A B : Type}.
Implicit Types (C : Fs → Prop) (fs : Fs).

Lemma ends_mono (p : Process E A) fs C C' Q Q' :
  ends p fs C Q → (∀ fs, C fs → C' fs) → (∀ r fs, Q r fs → Q' r fs) → ends p fs C' Q'.
Proof. intros Hp HC HQ n. specialize (Hp n). destruct (p _) as [[] ?]; naive_solver. Qed.
Lemma ends_ret (a : A) fs C (Q : Result E A → Fs → Prop) : Q (Ok a) fs → ends (mret a) fs C Q.
Proof. by intros HQ n. Qed.
Lemma ends_pure (r : Result E A) fs C Q : Q r fs → ends (pure r) fs C Q.
Proof. by intros HQ n. Qed.
Lemma ends_bind (p : Process E A) (f : A → Process E B) fs C Q :
  ends p fs C (λ r fs, match r with Ok a => ends (f a) fs C Q | Err e => Q (Err e) fs end) →
  ends (p ≫= f) fs C Q.
Proof.
  intros Hp n. specialize (Hp n). unfold mbind, process_bind. destruct (p _) as [[[a|e]|] [fs' k]]; [|done..].
  apply (Hp k).
Qed.
Lemma ends_try (p : Process E A) fs C (Q : Result F (Result E A) → Fs → Prop) :
  ends p fs C (λ r, Q (Ok r)) → ends (try_ p) fs C Q.
Proof. intros Hp n. specialize (Hp n). unfold try_. by destruct (p _) as [[] ?]. Qed.
Lemma ends_map_error (f : E → F) (p : Process E A) fs C Q :
  ends p fs C (λ r, Q (map_err f r)) → ends (map_error f p) fs C Q.
Proof. intros Hp n. specialize (Hp n). unfold map_error. by destruct (p _) as [[] ?]. Qed.
End rules.

(** A step that returns goes on, whatever it returned; the intermediate assertion. *)
Lemma ends_seq `{Environment} {E A B : Type} (p : Process E A) (f : A → Process E B) (fs : Fs) (C : Fs → Prop) R Q :
  ends p fs C (λ r fs, ∃ a, r = Ok a ∧ R a fs) → (∀ a fs, R a fs → ends (f a) fs C Q) →
  ends (p ≫= f) fs C Q.
Proof.
  intros Hp Hf. apply ends_bind. eapply ends_mono; [exact Hp|done|]. intros r fs' (a & -> & Ha). by apply Hf.
Qed.
(** A loop: the invariant of what is done and what remains. *)
Lemma ends_fold `{Environment} {E T X : Type} (I : list X → T → Fs → Prop) (f : T → X → Process E T) (C : Fs → Prop) (s : T) (l : list X) (fs : Fs) :
  (∀ done_ x rest s fs, l = done_ ++ x :: rest → I done_ s fs →
     ends (f s x) fs C (λ r fs, ∃ s, r = Ok s ∧ I (done_ ++ [x]) s fs)) →
  I [] s fs → ends (process_fold f s l) fs C (λ r fs, ∃ s, r = Ok s ∧ I l s fs).
Proof.
  intros Hstep.
  assert (Hall : ∀ rest done_ s fs, l = done_ ++ rest → I done_ s fs →
            ends (process_fold f s rest) fs C (λ r fs, ∃ s, r = Ok s ∧ I l s fs)); [|intros; by apply (Hall l [])].
  intros rest. induction rest as [|x rest IH]; intros done_ s' fs' Hl HI.
  - rewrite app_nil_r in Hl. subst l. apply ends_ret. eauto.
  - simpl. eapply ends_seq; [apply (Hstep done_ x rest s' fs'); [done..]|].
    intros s2 fs2 HI2. simpl in HI2. apply (IH (done_ ++ [x])); [|done]. by rewrite <- app_assoc.
Qed.

Section call_rules.
Context `{Environment, !Unfailing}.
Implicit Types (C : Fs → Prop) (fs : Fs).

Lemma ends_now {E} fs C (Q : Result E Z → Fs → Prop) : (∀ t, Q (Ok t) fs) → ends now fs C Q.
Proof. intros HQ n. apply HQ. Qed.
Lemma ends_atomic {A} (effect : Fs → Result DiskError (A * Fs)) fs C Q :
  C fs →
  match effect fs with
  | Ok (a, fs') => C fs' ∧ Q (Ok a) fs'
  | Err e => Q (Err e) fs
  end → ends (atomic effect) fs C Q.
Proof.
  intros HC HQ n. unfold atomic, call, before_or_after. simpl.
  destruct (fate_at n) as [|e residue|residue] eqn:Hfate; simpl.
  - destruct (effect fs) as [[a fs']|e]; [|done]. apply HQ.
  - by destruct (never_fails n e residue).
  - split; [by exists n, residue|]. destruct (rs_done residue); [|done]. destruct (effect fs) as [[a fs']|e]; [|done]. apply HQ.
Qed.
Lemma ends_observe {A} (look : Fs → Result DiskError A) fs C Q :
  C fs → Q (look fs) fs → ends (observe look) fs C Q.
Proof. intros HC HQ. apply ends_atomic; [done|]. simpl. by destruct (look fs). Qed.
Lemma ends_read p fs C Q : C fs → Q (look_read fs p) fs → ends (disk_read p) fs C Q.
Proof. apply (ends_observe (λ fs, look_read fs p)). Qed.

(** Writing a file through [disk_write_synced]: any text may be there on the way. *)
Lemma ends_write_synced p text fs C Q :
  is_dir fs (removelast p) = true → (∀ b, fs !! p ≠ Some (Symlink b)) → fs !! p ≠ Some Dir →
  C fs → (∀ c t, C (<[p := File c t]> fs)) → (∀ t, Q (Ok tt) (<[p := File text t]> fs)) →
  ends (disk_write_synced p text) fs C Q.
Proof.
  intros Hparent Hlink Hdir HC HCw HQ. apply ends_bind. intros n. unfold disk_open.
  apply (ends_atomic (open_truncate _ p) fs C
           (λ r fs, match r with Ok _ => ends _ fs C Q | Err e => Q (Err e) fs end)); [done|].
  unfold open_truncate, parent_is_dir. rewrite Hparent. simpl.
  assert (Hopen : ends (_ ← disk_write_all p text; disk_sync)
                    (<[p := File "" (time_at n)]> fs) C Q).
  { apply ends_bind. intros k. unfold disk_write_all, put_text. simpl.
    destruct (fate_at k) as [|e residue|residue] eqn:Hfate; simpl.
    - rewrite insert_insert_eq. apply ends_observe; [apply HCw|apply HQ].
    - by destruct (never_fails k e residue).
    - split; [by exists k, residue|]. rewrite insert_insert_eq. apply HCw. }
  destruct (fs !! p) as [[c t| |b]|]; [|done|by destruct (Hlink b)|]; (split; [apply HCw|apply Hopen]).
Qed.

Lemma ends_rename from to c t fs C Q :
  fs !! from = Some (File c t) → is_dir fs (removelast to) = true → fs !! to ≠ Some Dir → from ≠ to →
  C fs → C (<[to := File c t]> (delete from fs)) → Q (Ok tt) (<[to := File c t]> (delete from fs)) →
  ends (disk_rename from to) fs C Q.
Proof.
  intros Hfrom Hparent Hto Hne HC HC' HQ. apply ends_atomic; [done|].
  unfold move_file, parent_is_dir. rewrite Hfrom, Hparent. simpl. rewrite bool_decide_false by done.
  by destruct (fs !! to) as [[]|].
Qed.
Lemma ends_hard_link from to c t fs C Q :
  fs !! from = Some (File c t) → is_dir fs (removelast to) = true → fs !! to = None →
  C fs → C (<[to := File c t]> fs) → Q (Ok tt) (<[to := File c t]> fs) →
  ends (disk_hard_link from to) fs C Q.
Proof.
  intros Hfrom Hparent Hto HC HC' HQ. apply ends_atomic; [done|].
  unfold link_file, parent_is_dir. by rewrite Hfrom, Hto, Hparent.
Qed.
Lemma ends_remove_file p c t fs C Q :
  fs !! p = Some (File c t) → C fs → C (delete p fs) → Q (Ok tt) (delete p fs) →
  ends (disk_remove_file p) fs C Q.
Proof. intros Hp HC HC' HQ. apply ends_atomic; [done|]. unfold unlink. by rewrite Hp. Qed.

(** Directories made on the way to [p]. *)
Definition dirs_made (p : AbsPath) (fs fs' : Fs) : Prop :=
  ∀ q, fs' !! q = fs !! q ∨ (q ∈ prefixes p ∧ fs !! q = None ∧ fs' !! q = Some Dir).
Lemma ends_create_dir_all p fs C Q :
  (∀ q, q ∈ prefixes p → fs !! q = None ∨ fs !! q = Some Dir) → (∀ fs', dirs_made p fs fs' → C fs') →
  (∀ fs', dirs_made p fs fs' → (∀ q, q ∈ prefixes p → fs' !! q = Some Dir) → Q (Ok tt) fs') →
  ends (disk_create_dir_all p) fs C Q.
Proof.
  intros Hfree HC HQ. eapply (ends_mono _ _ C); [|done|].
  - apply (ends_fold (λ done_ (_ : unit) fs', dirs_made p fs fs' ∧ ∀ q, q ∈ done_ → fs' !! q = Some Dir)).
    + intros done_ q rest [] fs' Hl [Hmade Hdone].
      assert (Hq : q ∈ prefixes p) by (rewrite Hl; set_solver).
      assert (Hnow : fs' !! q = None ∨ fs' !! q = Some Dir).
      { destruct (Hmade q) as [->|(_ & _ & ->)]; [by apply Hfree|by right]. }
      assert (Hmade' : fs' !! q = None → dirs_made p fs (<[q := Dir]> fs')).
      { intros Hnone q'. destruct (decide (q = q')) as [<-|Hne].
        - right. rewrite lookup_insert_eq. destruct (Hmade q) as [Heq|(_ & ? & _)]; [|done].
          by rewrite <- Heq, Hnone.
        - rewrite lookup_insert_ne by done. apply Hmade. }
      apply ends_atomic; [by apply HC|]. unfold make_dir, create_dir_step, is_dir.
      destruct Hnow as [Hnow|Hnow]; rewrite Hnow; simpl.
      * destruct (bool_decide (q = [])) eqn:Hnil; simpl.
        { apply bool_decide_eq_true in Hnil. subst q. unfold prefixes in Hq.
          apply list_elem_of_fmap in Hq as (k & Hk & Hin). apply elem_of_seq in Hin.
          apply (f_equal length) in Hk. rewrite length_take in Hk. simpl in Hk. lia. }
        split; [by apply HC, Hmade'|]. exists tt. split; [done|]. split; [by apply Hmade'|].
        intros q'. rewrite elem_of_app, list_elem_of_singleton. destruct (decide (q = q')) as [<-|Hne].
        { by rewrite lookup_insert_eq. }
        rewrite lookup_insert_ne by done. intros [?| ->]; [by apply Hdone|done].
      * rewrite orb_true_r. split; [by apply HC|]. exists tt. split; [done|]. split; [done|].
        intros q'. rewrite elem_of_app, list_elem_of_singleton. intros [?| ->]; [by apply Hdone|done].
    + split; [by left|]. intros q. by rewrite elem_of_nil.
  - intros r fs' ([] & -> & Hmade & Hdone). by apply HQ.
Qed.

(** Some of what is below [p] is gone. *)
Definition removed_below (p : AbsPath) (fs fs' : Fs) : Prop :=
  ∀ q, fs' !! q = fs !! q ∨ (p `prefix_of` q ∧ fs' !! q = None).
Lemma remove_below_removed p gone fs : removed_below p fs (remove_below p gone fs).
Proof.
  intros q. unfold remove_below. destruct (filter _ fs !! q) as [v|] eqn:Hq.
  - apply map_lookup_filter_Some in Hq as [Hq _]. by left.
  - destruct (fs !! q) as [v|] eqn:Hfs; [|by left].
    right. split; [|done]. apply map_lookup_filter_None in Hq as [Hq|Hq]; [congruence|].
    destruct (decide (p `prefix_of` q)) as [|Hp]; [done|]. destruct (Hq v Hfs). simpl.
    unfold below. by rewrite bool_decide_false.
Qed.
Lemma ends_remove_dir_all p fs C Q :
  fs !! p = None ∨ fs !! p = Some Dir → (∀ fs', removed_below p fs fs' → C fs') →
  (∀ fs', removed_below p fs fs' → Q (Ok tt) fs') → (fs !! p = None → Q (Err (missing fs p)) fs) →
  ends (disk_remove_dir_all p) fs C Q.
Proof.
  intros Hp HC HQ HQ' n. assert (Hsame : removed_below p fs fs) by by left.
  unfold disk_remove_dir_all, remove_tree. simpl.
  destruct (fate_at n) as [|e residue|residue] eqn:Hfate; simpl.
  - destruct Hp as [Hp|Hp]; rewrite Hp; simpl; [by apply HQ'|apply HQ, remove_below_removed].
  - by destruct (never_fails n e residue).
  - destruct Hp as [Hp|Hp]; rewrite Hp; simpl; (split; [by exists n, residue|]);
      [by apply HC|apply HC, remove_below_removed].
Qed.
End call_rules.
