(* ===== verification/Planner.v ===== *)
(** * The commit planner (sync/planner.rs)

    Splitting the changed files into packs of bounded plaintext size, and the
    tree entries and file operations of a checkpoint or incremental commit. *)
From Stdlib Require Import Ascii String.
#[local] Set Warnings "-clear-no-such-hyp".
From S2P Require Import Prelude SyncErrors Paths SyncDb Scanner.

Definition CONTENT_PACK_KIND : string := "content_pack".
Definition CHECKPOINT_PACK_KIND : string := "checkpoint_pack".
Definition DEFAULT_MAX_PACK_PLAINTEXT_BYTES : Z := 28 * 1024 * 1024.

Inductive CommitPlanKind := Checkpoint | Incremental | Merge.

Record PlannerConfig := { max_pack_plaintext_bytes : Z }.
Definition default_config : PlannerConfig :=
  {| max_pack_plaintext_bytes := DEFAULT_MAX_PACK_PLAINTEXT_BYTES |}.

Record PlannedTreeEntry := {
  pt_file_id : string;
  pt_path : string;
  pt_normalized_path : string;
  pt_plaintext_hash : string;
  pt_size_bytes : Z;
  pt_kind : string;
  pt_pack_ref : option string;
  pt_pack_entry_id : option string }.

(** [PlannedTreeEntry::cache_record] *)
Definition cache_record (e : PlannedTreeEntry) (commit_id : string)
    (content_object_id : option string) : SyncTreeEntryRecord :=
  {| t_commit_id := commit_id; t_file_id := pt_file_id e;
     t_normalized_path := pt_normalized_path e; t_plaintext_hash := Some (pt_plaintext_hash e);
     t_content_object_id := content_object_id; t_pack_entry_id := pt_pack_entry_id e;
     t_kind := pt_kind e |}.

Inductive PlanFileOp :=
| Upsert (file_id path normalized_path plaintext_hash : string) (size_bytes : Z)
    (pack_ref pack_entry_id : string)
| Delete (file_id path normalized_path : string).

Record PackEntryInput := { pe_entry_id : string; pe_plaintext : bytes }.

Record PackEntryPlan := {
  e_entry_id : string;
  e_file_id : string;
  e_normalized_path : string;
  e_plaintext_hash : string;
  e_size_bytes : Z;
  e_plaintext : bytes }.

Record PackShardPlan := {
  p_pack_ref : string;
  p_pack_kind : string;
  p_shard_index : nat;
  p_total_plaintext_bytes : Z;
  p_entries : list PackEntryPlan }.

(** [PackShardPlan::pack_entries] *)
Definition pack_entries (s : PackShardPlan) : list PackEntryInput :=
  (λ e, {| pe_entry_id := e_entry_id e; pe_plaintext := e_plaintext e |}) <$> p_entries s.

Record SyncPlan := {
  commit_kind : CommitPlanKind;
  tree_id : string;
  tree_entries : list PlannedTreeEntry;
  file_ops : list PlanFileOp;
  pack_shards : list PackShardPlan }.

Definition plan_is_empty (p : SyncPlan) : bool :=
  match file_ops p, pack_shards p with [], [] => true | _, _ => false end.

(** External rendering: [serde_json::to_vec] of the tree entries, and a size in
    megabytes with one decimal ([f64] formatting). *)
Class PlannerText := {
  tree_entries_json : list PlannedTreeEntry → SyncResult bytes;
  fmt_mb : Z → string }.

Section planner.
Context `{Blake3, PlannerText}.

Definition validate_config (config : PlannerConfig) : SyncResult unit :=
  reject_if (max_pack_plaintext_bytes config <=? 0)%Z
    (InvalidArgument "max_pack_plaintext_bytes must be positive").

(** The hasher is fed the parts in order, which hashes their concatenation. *)
Definition pack_entry_id (file_id plaintext_hash : string) : string :=
  "entry_" +:+ str_take 32 (blake3_hex (file_id +:+ String "000" "" +:+ plaintext_hash)).

Definition compute_tree_id (entries : list PlannedTreeEntry) : SyncResult string :=
  json ← tree_entries_json entries;
  Ok ("tree_" +:+ str_take 32 (blake3_hex json)).

Definition format_size_mb (b : Z) : string := fmt_mb (Z.max b 0).

Definition pack_shard (pack_kind : string) (shard_index : nat) (total_plaintext_bytes : Z)
    (entries : list PackEntryPlan) : PackShardPlan :=
  {| p_pack_ref := pack_kind +:+ "-" +:+ fmt_int (Z.of_nat shard_index);
     p_pack_kind := pack_kind; p_shard_index := shard_index;
     p_total_plaintext_bytes := total_plaintext_bytes; p_entries := entries |}.

Definition plan_entry (file : ScannedFile) : PackEntryPlan :=
  {| e_entry_id := pack_entry_id (s_file_id file) (s_plaintext_hash file);
     e_file_id := s_file_id file; e_normalized_path := s_normalized_path file;
     e_plaintext_hash := s_plaintext_hash file; e_size_bytes := s_size_bytes file;
     e_plaintext := s_plaintext file |}.

(** The loop of [assign_pack_entries]. *)
Record Packing := {
  k_shards : list PackShardPlan;
  k_entries : list PackEntryPlan;
  k_bytes : Z }.

Definition assign_step (pack_kind : string) (config : PlannerConfig) (st : Packing)
    (file : ScannedFile) : SyncResult Packing :=
  let max := max_pack_plaintext_bytes config in
  _ ← reject_if (max <? s_size_bytes file)%Z
        (QuotaExceeded ("file exceeds sync size limit: " +:+ s_path file +:+ " ("
           +:+ format_size_mb (s_size_bytes file) +:+ " MB, limit "
           +:+ format_size_mb max +:+ " MB)"));
  let st :=
    if negb (bool_decide (k_entries st = []))
       && (max <? i64_add (k_bytes st) (s_size_bytes file))%Z
    then {| k_shards := k_shards st ++
              [pack_shard pack_kind (length (k_shards st)) (k_bytes st) (k_entries st)];
            k_entries := []; k_bytes := 0 |}
    else st in
  Ok {| k_shards := k_shards st; k_entries := k_entries st ++ [plan_entry file];
        k_bytes := i64_add (k_bytes st) (s_size_bytes file) |}.

Definition assign_pack_entries (files : list ScannedFile) (pack_kind : string)
    (config : PlannerConfig) : SyncResult (list PackShardPlan) :=
  let files := sort_by (leb_on s_normalized_path) files in
  st ← try_fold (assign_step pack_kind config)
         {| k_shards := []; k_entries := []; k_bytes := 0 |} files;
  match k_entries st with
  | [] => Ok (k_shards st)
  | _ => Ok (k_shards st ++
               [pack_shard pack_kind (length (k_shards st)) (k_bytes st) (k_entries st)])
  end.

Definition plan_file_op_sort_key (op : PlanFileOp) : string * string :=
  match op with
  | Upsert _ _ n _ _ _ _ => ("0", n)
  | Delete _ _ n => ("1", n)
  end.
Definition file_op_leb (x y : PlanFileOp) : bool :=
  str_pair_leb (plan_file_op_sort_key x) (plan_file_op_sort_key y).

(** The map from normalised path to (pack reference, entry id). *)
Definition entry_refs (shards : list PackShardPlan) : gmap string (string * string) :=
  foldl (λ refs shard,
    foldl (λ refs e, <[e_normalized_path e := (p_pack_ref shard, e_entry_id e)]> refs)
      refs (p_entries shard)) ∅ shards.

Definition upsert_entry (refs : gmap string (string * string)) (file : ScannedFile)
  : SyncResult (PlannedTreeEntry * PlanFileOp) :=
  '(pack_ref, entry_id) ← ok_or (refs !! s_normalized_path file)
      (InvalidArgument ("missing pack assignment for " +:+ s_normalized_path file));
  Ok ({| pt_file_id := s_file_id file; pt_path := s_path file;
         pt_normalized_path := s_normalized_path file;
         pt_plaintext_hash := s_plaintext_hash file; pt_size_bytes := s_size_bytes file;
         pt_kind := FILE_KIND_MARKDOWN; pt_pack_ref := Some pack_ref;
         pt_pack_entry_id := Some entry_id |},
      Upsert (s_file_id file) (s_path file) (s_normalized_path file) (s_plaintext_hash file)
        (s_size_bytes file) pack_ref entry_id).

Definition delete_op (r : SyncFileRecord) : PlanFileOp :=
  Delete (f_file_id r) (f_path r) (f_normalized_path r).

Definition build_plan (kind : CommitPlanKind) (upserts : list ScannedFile)
    (deletions : list SyncFileRecord) (shards : list PackShardPlan) : SyncResult SyncPlan :=
  pairs ← try_map (upsert_entry (entry_refs shards)) upserts;
  let entries := sort_by (leb_on pt_normalized_path) pairs.*1 in
  let ops := sort_by file_op_leb (pairs.*2 ++ (delete_op <$> deletions)) in
  tree_id ← compute_tree_id entries;
  Ok {| commit_kind := kind; tree_id := tree_id; tree_entries := entries; file_ops := ops;
        pack_shards := shards |}.

Definition plan_checkpoint (scanned_files : list ScannedFile) (config : PlannerConfig)
  : SyncResult SyncPlan :=
  _ ← validate_config config;
  shards ← assign_pack_entries scanned_files CHECKPOINT_PACK_KIND config;
  build_plan Checkpoint scanned_files [] shards.

(** [BTreeMap] of the scanned files: a later file of the same path wins. *)
Definition scanned_by_path (files : list ScannedFile) : gmap string ScannedFile :=
  foldl (λ m f, <[s_normalized_path f := f]> m) ∅ files.

Definition collect_upsert (by_path : gmap string ScannedFile) (acc : list ScannedFile)
    (row : SyncFileRecord) : SyncResult (list ScannedFile) :=
  if negb (f_dirty row) || f_deleted row then Ok acc
  else scanned ← ok_or (by_path !! f_normalized_path row)
         (InvalidArgument ("dirty sync file missing scanner content: " +:+ f_normalized_path row));
       Ok (acc ++ [scanned]).

Definition plan_incremental (scan_result : ScanApplyResult) (scanned_files : list ScannedFile)
    (config : PlannerConfig) : SyncResult SyncPlan :=
  _ ← validate_config config;
  ups ← try_fold (collect_upsert (scanned_by_path scanned_files)) [] (upserts scan_result);
  shards ← assign_pack_entries ups CONTENT_PACK_KIND config;
  build_plan Incremental ups (deletions scan_result) shards.
End planner.

(** Keys that embed unique names are unique. *)
Lemma NoDup_fmap_via {A B C} (h : A → B) (g : B → C) (k : A → C) (l : list A) :
  Inj (=) (=) g → (∀ x, k x = g (h x)) → NoDup (h <$> l) → NoDup (k <$> l).
Proof.
  intros Hg Hk Hnd. rewrite (list_fmap_ext k (g ∘ h) l); [|intros; apply Hk].
  rewrite list_fmap_compose. by apply NoDup_fmap_2.
Qed.
Lemma pair_inj_r {A B} (a : A) : Inj (=) (=) (@pair A B a).
Proof. by intros x y [= ->]. Qed.

(** ** Packing *)

Definition sum_sizes (es : list PackEntryPlan) : Z := foldr (λ e, Z.add (e_size_bytes e)) 0%Z es.

Lemma sum_sizes_app l1 l2 : sum_sizes (l1 ++ l2) = (sum_sizes l1 + sum_sizes l2)%Z.
Proof. induction l1 as [|e l1 IH]; simpl; lia. Qed.
Lemma sum_sizes_nonneg es : Forall (λ e, 0 ≤ e_size_bytes e)%Z es → (0 ≤ sum_sizes es)%Z.
Proof. induction 1; simpl; lia. Qed.

(** Consecutive groups: the next group's first entry did not fit. *)
Definition greedy (max : Z) (groups : list (list PackEntryPlan)) : Prop :=
  ∀ i g g', groups !! i = Some g → groups !! S i = Some g' →
    ∃ e es, g' = e :: es ∧ (max < sum_sizes g + e_size_bytes e)%Z.

Lemma greedy_snoc max groups g :
  greedy max groups →
  (∀ g0, last groups = Some g0 → ∃ e es, g = e :: es ∧ (max < sum_sizes g0 + e_size_bytes e)%Z) →
  greedy max (groups ++ [g]).
Proof.
  intros Hg Hlast i g1 g2 H1 H2.
  assert (Hi : S i < length (groups ++ [g])) by (by eapply lookup_lt_Some).
  rewrite length_app in Hi. simpl in Hi.
  rewrite lookup_app_l in H1 by lia.
  destruct (decide (S i = length groups)) as [He|Hne].
  - rewrite He in H2. rewrite list_lookup_middle in H2 by done. injection H2 as <-.
    apply Hlast. rewrite last_lookup, <- He. done.
  - rewrite lookup_app_l in H2 by lia. by eapply Hg.
Qed.

Lemma greedy_extend_last max groups g e :
  greedy max (groups ++ [g]) → (g = [] → groups = []) → greedy max (groups ++ [g ++ [e]]).
Proof.
  intros Hg Hnil i g1 g2 H1 H2.
  assert (Hi : S i < length (groups ++ [g ++ [e]])) by (by eapply lookup_lt_Some).
  rewrite length_app in Hi. simpl in Hi. rewrite lookup_app_l in H1 by lia.
  destruct (decide (S i = length groups)) as [He|Hne].
  - rewrite He, list_lookup_middle in H2 by done. injection H2 as <-.
    destruct g as [|e0 es]; [rewrite Hnil in Hi by done; simpl in Hi; lia|].
    destruct (Hg i g1 (e0 :: es)) as (e1 & es1 & [= <- <-] & Hlt).
    + rewrite lookup_app_l by lia. done.
    + rewrite He. by rewrite list_lookup_middle.
    + by exists e0, (es ++ [e]).
  - rewrite lookup_app_l in H2 by lia. eapply (Hg i); rewrite lookup_app_l by lia; done.
Qed.

(** A well-formed shard at position [i]. *)
Definition shard_ok (kind : string) (max : Z) (i : nat) (s : PackShardPlan) : Prop :=
  p_shard_index s = i ∧ p_pack_kind s = kind ∧
  p_pack_ref s = kind +:+ "-" +:+ fmt_int (Z.of_nat i) ∧ p_entries s ≠ [] ∧
  p_total_plaintext_bytes s = sum_sizes (p_entries s) ∧ (p_total_plaintext_bytes s ≤ max)%Z.

(** The whole packing is correct for the files it was made from. *)
Definition packing_ok `{Blake3} (kind : string) (max : Z) (files : list ScannedFile)
    (shards : list PackShardPlan) : Prop :=
  concat (p_entries <$> shards) = plan_entry <$> sort_by (leb_on s_normalized_path) files ∧
  (∀ i s, shards !! i = Some s → shard_ok kind max i s) ∧
  greedy max (p_entries <$> shards).

Section packing_proofs.
Context `{Blake3, PlannerText}.
Context (kind : string) (config : PlannerConfig).
Abbreviation max := (max_pack_plaintext_bytes config).
Hypothesis Hmax : (0 < max < 2 ^ 62)%Z.

Definition packing_inv (d : list ScannedFile) (st : Packing) : Prop :=
  concat (p_entries <$> k_shards st) ++ k_entries st = plan_entry <$> d ∧
  (∀ i s, k_shards st !! i = Some s → shard_ok kind max i s) ∧
  k_bytes st = sum_sizes (k_entries st) ∧ (0 ≤ k_bytes st ≤ max)%Z ∧
  (k_entries st = [] → k_shards st = []) ∧
  greedy max ((p_entries <$> k_shards st) ++ [k_entries st]).


Lemma shards_snoc_ok (shards : list PackShardPlan) (b : Z) (es : list PackEntryPlan) :
  (∀ i s, shards !! i = Some s → shard_ok kind max i s) →
  es ≠ [] → b = sum_sizes es → (b ≤ max)%Z →
  ∀ i s, (shards ++ [pack_shard kind (length shards) b es]) !! i = Some s → shard_ok kind max i s.
Proof.
  intros Hs Hne Hb Hle i s Hi. apply lookup_app_Some in Hi as [Hi|[Hlen Hi]]; [by apply Hs|].
  apply list_lookup_singleton_Some in Hi as [Hi <-].
  assert (i = length shards) as -> by lia. repeat split; done.
Qed.

Lemma assign_step_inv d st file st' :
  (0 ≤ s_size_bytes file)%Z → packing_inv d st →
  assign_step kind config st file = Ok st' → packing_inv (d ++ [file]) st'.
Proof.
  intros Hsize (Hcat & Hshards & Hb & Hrange & Hnil & Hgreedy) Hstep.
  unfold assign_step in Hstep. ok_step Hstep. apply Z.ltb_ge in Hok.
  assert (Hadd : i64_add (k_bytes st) (s_size_bytes file) = (k_bytes st + s_size_bytes file)%Z).
  { apply i64_add_exact. unfold in_i64, i64_min, i64_max. lia. }
  assert (Hadd0 : i64_add 0 (s_size_bytes file) = s_size_bytes file).
  { apply i64_add_exact. unfold in_i64, i64_min, i64_max. lia. }
  rewrite Hadd in Hstep. injection Hstep as <-.
  destruct (negb (bool_decide (k_entries st = [])) && _) eqn:Hflush.
  - apply andb_true_iff in Hflush as [Hne%negb_true_iff%bool_decide_eq_false Hlt%Z.ltb_lt].
    unfold packing_inv; simpl. rewrite Hadd0. split_and!; [| |lia|lia|lia|done|].
    + rewrite fmap_app, concat_app. simpl. rewrite app_nil_r, Hcat, fmap_app. done.
    + apply shards_snoc_ok; [done..|lia].
    + rewrite fmap_app. simpl. apply greedy_snoc; [done|].
      intros g0 Hg0. rewrite last_snoc in Hg0. injection Hg0 as <-.
      eexists _, _. split; [done|]. simpl. lia.
  - unfold packing_inv; simpl. rewrite Hadd. split_and!.
    + by rewrite app_assoc, Hcat, fmap_app.
    + done.
    + rewrite sum_sizes_app, <- Hb. simpl. lia.
    + lia.
    + apply andb_false_iff in Hflush as [Hemp|Hle%Z.ltb_ge]; [|lia].
      apply negb_false_iff, bool_decide_eq_true in Hemp. rewrite Hemp in Hb. simpl in Hb. lia.
    + intros Habs. by destruct (k_entries st).
    + apply greedy_extend_last; [done|]. intros Hn. by rewrite (Hnil Hn).
Qed.

Lemma assign_loop_inv files st :
  Forall (λ f, 0 ≤ s_size_bytes f)%Z files →
  try_fold (assign_step kind config) {| k_shards := []; k_entries := []; k_bytes := 0 |} files = Ok st →
  packing_inv files st.
Proof.
  intros Hsizes. change files with ([] ++ files) at 2.
  apply (try_fold_prefix_invariant packing_inv).
  - split_and!; simpl; try done; lia.
  - intros d s x s' Hx. apply assign_step_inv. rewrite Forall_forall in Hsizes. by apply Hsizes.
Qed.

Lemma assign_pack_entries_ok files shards :
  Forall (λ f, 0 ≤ s_size_bytes f)%Z files →
  assign_pack_entries files kind config = Ok shards → packing_ok kind max files shards.
Proof.
  intros Hsizes Ha. unfold assign_pack_entries in Ha.
  apply bind_Ok_inv in Ha as (st & Hf & Ha).
  apply assign_loop_inv in Hf as (Hcat & Hshards & Hb & Hrange & Hnil & Hgreedy);
    [|by rewrite sort_by_perm].
  unfold packing_ok. destruct (k_entries st) as [|e es] eqn:He.
  - injection Ha as <-. rewrite app_nil_r in Hcat. rewrite Hnil in * by done.
    split_and!; [done..|]. intros i g g' Hg. done.
  - injection Ha as <-. rewrite fmap_app, concat_app. simpl. rewrite app_nil_r.
    split_and!; [done| |done]. apply shards_snoc_ok; [done..|lia].
Qed.

(** The only failure is a file above the limit. *)
Lemma assign_loop_Err st files e :
  try_fold (assign_step kind config) st files = Err e →
  ∃ f, f ∈ files ∧ (max < s_size_bytes f)%Z ∧ ∃ m, e = QuotaExceeded m.
Proof.
  revert st; induction files as [|f files IH]; intros st; simpl; [done|].
  unfold assign_step at 2. destruct (max <? s_size_bytes f)%Z eqn:Hs; simpl.
  - intros [= <-]. exists f. split; [set_solver|]. split; [by apply Z.ltb_lt|eauto].
  - intros (f' & ? & ?)%IH. exists f'. split; [set_solver|done].
Qed.

Lemma assign_loop_Ok st files st' f :
  try_fold (assign_step kind config) st files = Ok st' → f ∈ files → (s_size_bytes f ≤ max)%Z.
Proof.
  revert st; induction files as [|f0 files IH]; intros st; simpl; [set_solver|].
  intros (st1 & H1 & H2)%bind_Ok_inv [->|Hin]%elem_of_cons; [|by eapply IH].
  unfold assign_step in H1. ok_step H1. by apply Z.ltb_ge in Hok.
Qed.
End packing_proofs.

(** ** Plans *)

Section plan_proofs.
Context `{Blake3, PlannerText}.
Implicit Types (shards : list PackShardPlan) (refs : gmap string (string * string)).

(** [entry_refs] only records entries of the shards. *)
Definition refs_sound shards refs : Prop :=
  ∀ n r, refs !! n = Some r → ∃ shard e, shard ∈ shards ∧ e ∈ p_entries shard ∧
    e_normalized_path e = n ∧ r = (p_pack_ref shard, e_entry_id e).

Lemma entry_refs_sound shards : refs_sound shards (entry_refs shards).
Proof.
  unfold entry_refs.
  assert (Hgen : ∀ l refs, l ⊆ shards → refs_sound shards refs →
    refs_sound shards (foldl (λ refs shard,
      foldl (λ refs e, <[e_normalized_path e := (p_pack_ref shard, e_entry_id e)]> refs)
      refs (p_entries shard)) refs l)).
  { induction l as [|s l IH]; intros refs Hl Hr; simpl; [done|].
    apply IH; [set_solver|]. assert (Hs : s ∈ shards) by set_solver. clear IH Hl.
    assert (Hes : p_entries s ⊆ p_entries s) by done. revert Hes.
    generalize (p_entries s) at 1 3 as es. intros es. revert refs Hr.
    induction es as [|e es IH]; intros refs Hr Hes; simpl; [done|].
    apply IH; [|set_solver]. intros n r [[<- <-]|[_ Hn]]%lookup_insert_Some; [|by apply Hr].
    exists s, e. set_solver. }
  apply Hgen; [done|]. intros n r. by rewrite lookup_empty.
Qed.

(** ... and records every one of them. *)
Lemma entry_refs_complete shards s e :
  s ∈ shards → e ∈ p_entries s → is_Some (entry_refs shards !! e_normalized_path e).
Proof.
  unfold entry_refs.
  assert (Hin : ∀ es refs (f : PackEntryPlan → string * string) n,
    (is_Some (refs !! n) ∨ ∃ e, e ∈ es ∧ e_normalized_path e = n) →
    is_Some (foldl (λ refs e, <[e_normalized_path e := f e]> refs) refs es !! n)).
  { induction es as [|e0 es IH]; intros refs f n Hn; simpl.
    - destruct Hn as [Hn|(e0 & He0 & _)]; [done|set_solver].
    - apply IH. destruct (decide (e_normalized_path e0 = n)) as [<-|Hne].
      + left. rewrite lookup_insert_eq. eauto.
      + rewrite lookup_insert_ne by done. destruct Hn as [Hn|(e1 & He1 & He1n)]; [by left|].
        right. exists e1. set_solver. }
  intros Hs He. generalize (∅ : gmap string (string * string)) as refs.
  assert (Hor : ∀ l refs, (is_Some (refs !! e_normalized_path e) ∨ s ∈ l) →
    is_Some (foldl (λ refs shard,
      foldl (λ refs e, <[e_normalized_path e := (p_pack_ref shard, e_entry_id e)]> refs)
      refs (p_entries shard)) refs l !! e_normalized_path e)).
  { induction l as [|s0 l IH]; intros refs Hor; simpl; [by destruct Hor; [|set_solver]|].
    apply IH. destruct Hor as [Hr|[->|Hl]%elem_of_cons]; [left|left|by right].
    - apply (Hin _ _ (λ e, (p_pack_ref s0, e_entry_id e))). by left.
    - apply (Hin _ _ (λ e, (p_pack_ref s0, e_entry_id e))). right. eauto. }
  intros refs. apply Hor. by right.
Qed.

(** A tree entry resolves in the packs: the shard it names holds an entry with
    its identifier, path, content hash and size. *)
Definition resolves shards (t : PlannedTreeEntry) : Prop :=
  ∃ shard e, shard ∈ shards ∧ e ∈ p_entries shard ∧
    pt_pack_ref t = Some (p_pack_ref shard) ∧ pt_pack_entry_id t = Some (e_entry_id e) ∧
    e_normalized_path e = pt_normalized_path t ∧ e_file_id e = pt_file_id t ∧
    e_plaintext_hash e = pt_plaintext_hash t ∧ e_size_bytes e = pt_size_bytes t.

(** A tree entry describes a file. *)
Definition describes (t : PlannedTreeEntry) (f : ScannedFile) : Prop :=
  pt_file_id t = s_file_id f ∧ pt_path t = s_path f ∧ pt_normalized_path t = s_normalized_path f ∧
  pt_plaintext_hash t = s_plaintext_hash f ∧ pt_size_bytes t = s_size_bytes f ∧
  pt_kind t = FILE_KIND_MARKDOWN.

(** The operation that mirrors a tree entry. *)
Definition upsert_of (t : PlannedTreeEntry) : PlanFileOp :=
  Upsert (pt_file_id t) (pt_path t) (pt_normalized_path t) (pt_plaintext_hash t)
    (pt_size_bytes t) (default "" (pt_pack_ref t)) (default "" (pt_pack_entry_id t)).

Lemma upsert_entry_Ok kind max (files : list ScannedFile) shards f t op :
  packing_ok kind max files shards → NoDup (s_normalized_path <$> files) → f ∈ files →
  upsert_entry (entry_refs shards) f = Ok (t, op) →
  describes t f ∧ resolves shards t ∧ op = upsert_of t.
Proof.
  intros (Hcat & _ & _) Hnd Hf Hu. unfold upsert_entry in Hu.
  apply bind_Ok_inv in Hu as ([ref id] & Href%ok_or_Ok & [= <- <-]).
  split; [done|]. split; [|done].
  apply entry_refs_sound in Href as (shard & e & Hs & He & Hn & [= -> ->]).
  exists shard, e. simpl. split_and!; try done; simpl.
  all: assert (Hpe : e ∈ plan_entry <$> sort_by (leb_on s_normalized_path) files)
    by (rewrite <- Hcat; apply list_elem_of_concat; exists (p_entries shard); split; [done|];
        by apply list_elem_of_fmap_2).
  all: apply list_elem_of_fmap in Hpe as (g & -> & Hg%elem_of_sort_by); simpl in *.
  all: by rewrite (NoDup_key_inj s_normalized_path files g f).
Qed.

Lemma upsert_entry_total kind max (files : list ScannedFile) shards f :
  packing_ok kind max files shards → f ∈ files → ∃ p, upsert_entry (entry_refs shards) f = Ok p.
Proof.
  intros (Hcat & _ & _) Hf. unfold upsert_entry.
  assert (Hin : plan_entry f ∈ concat (p_entries <$> shards))
    by (rewrite Hcat; apply list_elem_of_fmap_2; by apply elem_of_sort_by).
  apply list_elem_of_concat in Hin as (es & He & (s & -> & Hs)%list_elem_of_fmap).
  destruct (entry_refs_complete shards s (plan_entry f) Hs He) as [[ref id] Hr].
  simpl in Hr. rewrite Hr. simpl. by eexists.
Qed.
End plan_proofs.

Section plan_properties.
Context `{Blake3, PlannerText}.

(** C31: packing. With a limit below 2^62 and non-negative sizes,
    [assign_pack_entries] either reports a file above the limit or returns shards
    that hold exactly one entry per file, in path order across the shards; each
    shard is non-empty, carries its position in its index and reference, its
    total is the sum of its sizes and stays within the limit (no wrap-around),
    and packing is greedy: the next shard's first entry would not have fitted. *)
Theorem assign_pack_entries_correct (kind : string) (config : PlannerConfig)
    (files : list ScannedFile) :
  (0 < max_pack_plaintext_bytes config < 2 ^ 62)%Z →
  Forall (λ f, 0 ≤ s_size_bytes f)%Z files →
  match assign_pack_entries files kind config with
  | Ok shards =>
      packing_ok kind (max_pack_plaintext_bytes config) files shards ∧
      Forall (λ f, s_size_bytes f ≤ max_pack_plaintext_bytes config)%Z files
  | Err e => ∃ f m, f ∈ files ∧ (max_pack_plaintext_bytes config < s_size_bytes f)%Z ∧
      e = QuotaExceeded m
  end.
Proof.
  intros Hmax Hsizes. destruct (assign_pack_entries files kind config) as [shards|e] eqn:Ha.
  - split; [by apply assign_pack_entries_ok|]. apply Forall_forall. intros f Hf.
    unfold assign_pack_entries in Ha. apply bind_Ok_inv in Ha as (st & Hst & _).
    eapply (assign_loop_Ok kind config Hmax); [exact Hst|]. by apply elem_of_sort_by.
  - unfold assign_pack_entries in Ha. destruct (try_fold _ _ _) as [st|e'] eqn:Hst; simpl in Ha.
    + by destruct (k_entries st).
    + injection Ha as <-.
      apply (assign_loop_Err kind config Hmax) in Hst as (f & Hf%elem_of_sort_by & Hlt & m & ->). eauto.
Qed.

(** What [build_plan] makes of a correct packing. *)
Definition plan_ok (plan : SyncPlan) (files : list ScannedFile) (dels : list SyncFileRecord)
  : Prop :=
  StronglySorted (λ x y, leb_on pt_normalized_path x y = true) (tree_entries plan) ∧
  length (tree_entries plan) = length files ∧
  (∀ t, t ∈ tree_entries plan → ∃ f, f ∈ files ∧ describes t f ∧ resolves (pack_shards plan) t) ∧
  (∀ f, f ∈ files → ∃ t, t ∈ tree_entries plan ∧ describes t f) ∧
  file_ops plan = (upsert_of <$> tree_entries plan)
                  ++ (delete_op <$> sort_by (leb_on f_normalized_path) dels).

Lemma build_plan_entries pk max files shards pairs :
  packing_ok pk max files shards → NoDup (s_normalized_path <$> files) →
  try_map (upsert_entry (entry_refs shards)) files = Ok pairs →
  Forall2 (λ f p, describes p.1 f ∧ resolves shards p.1 ∧ p.2 = upsert_of p.1) files pairs.
Proof.
  intros Hpack Hnd Hm%try_map_Ok.
  rewrite Forall2_lookup in Hm. apply Forall2_lookup. intros i. specialize (Hm i).
  destruct (files !! i) as [f|] eqn:Hf; inversion Hm as [? [t op] Hu Heq|]; constructor.
  simpl. eapply upsert_entry_Ok; [done|done|by eapply list_elem_of_lookup_2|done].
Qed.

(** Upserts come before deletions, each in path order. *)
Lemma file_ops_sorted (ts : list PlannedTreeEntry) (dels : list SyncFileRecord) :
  NoDup (pt_normalized_path <$> ts) → NoDup (f_normalized_path <$> dels) →
  sort_by file_op_leb ((upsert_of <$> ts) ++ (delete_op <$> dels)) =
  (upsert_of <$> sort_by (leb_on pt_normalized_path) ts)
  ++ (delete_op <$> sort_by (leb_on f_normalized_path) dels).
Proof.
  intros Ht Hd. eapply (sorted_perm_unique file_op_leb plan_file_op_sort_key).
  - intros x y. unfold file_op_leb, str_pair_leb. repeat case_decide; try congruence.
    + intros Hle1 Hle2. apply injective_projections; [done|]. by apply str_leb_antisym.
    + intros Hle1 Hle2. exfalso. apply H1. by apply str_leb_antisym.
  - rewrite sort_by_perm, fmap_app, <- !list_fmap_compose. apply NoDup_app. split_and!.
    + apply (NoDup_fmap_via pt_normalized_path (pair "0")); [apply pair_inj_r|done..].
    + intros k (x & -> & _)%list_elem_of_fmap (y & Hy & _)%list_elem_of_fmap. done.
    + apply (NoDup_fmap_via f_normalized_path (pair "1")); [apply pair_inj_r|done..].
  - by rewrite !sort_by_perm.
  - apply sort_by_sorted, (str_pair_leb_total plan_file_op_sort_key).
  - apply StronglySorted_app_2.
    + by intros x y (t & -> & _)%list_elem_of_fmap (d & -> & _)%list_elem_of_fmap.
    + eapply StronglySorted_fmap; [|apply sort_by_sorted, _]. done.
    + eapply StronglySorted_fmap; [|apply sort_by_sorted, _]. done.
Qed.

Lemma build_plan_ok kind pk max files dels shards plan :
  packing_ok pk max files shards → NoDup (s_normalized_path <$> files) →
  NoDup (f_normalized_path <$> dels) → build_plan kind files dels shards = Ok plan →
  plan_ok plan files dels ∧ pack_shards plan = shards ∧ commit_kind plan = kind.
Proof.
  intros Hpack Hnd Hdels Hb. unfold build_plan in Hb.
  apply bind_Ok_inv in Hb as (pairs & Hm & Hb). apply bind_Ok_inv in Hb as (tid & _ & [= <-]).
  pose proof (build_plan_entries _ _ _ _ _ Hpack Hnd Hm) as Hp.
  assert (Hsnd : pairs.*2 = upsert_of <$> pairs.*1).
  { clear -Hp. induction Hp as [|f p fs ps (_ & _ & Hop) _ IH]; [done|].
    rewrite !fmap_cons. by f_equal. }
  assert (Hpaths : pt_normalized_path <$> pairs.*1 = s_normalized_path <$> files).
  { clear -Hp. induction Hp as [|f p fs ps (Hd & _ & _) _ IH]; [done|].
    rewrite !fmap_cons. f_equal; [|done]. by destruct Hd as (_ & _ & -> & _). }
  split; [|done]. unfold plan_ok. simpl. split_and!.
  - apply sort_by_sorted, _.
  - rewrite length_sort_by, length_fmap. symmetry. by eapply Forall2_length.
  - intros t. rewrite elem_of_sort_by. intros (p & -> & Hin)%list_elem_of_fmap.
    apply list_elem_of_lookup in Hin as [i Hi].
    destruct (Forall2_lookup_r _ _ _ _ _ Hp Hi) as (f & Hf & Hd & Hr & _).
    exists f. split; [by eapply list_elem_of_lookup_2|done].
  - intros f [i Hi]%list_elem_of_lookup.
    destruct (Forall2_lookup_l _ _ _ _ _ Hp Hi) as (p & Hf & Hd & _).
    exists p.1. rewrite elem_of_sort_by. split; [|done]. apply list_elem_of_fmap_2.
    by eapply list_elem_of_lookup_2.
  - rewrite Hsnd. apply file_ops_sorted; [by rewrite Hpaths|done].
Qed.

(** The only failures of [build_plan] on a correct packing come from the
    serializer that feeds the tree identifier. *)
Lemma build_plan_Err kind pk max files dels shards e :
  packing_ok pk max files shards → build_plan kind files dels shards = Err e →
  ∃ es, tree_entries_json es = Err e.
Proof.
  intros Hpack Hb. unfold build_plan in Hb.
  destruct (try_map _ files) as [pairs|e'] eqn:Hm; simpl in Hb.
  - unfold compute_tree_id in Hb.
    destruct (tree_entries_json _) as [json|e'] eqn:Hj; simpl in Hb; [done|].
    injection Hb as ->. by eexists.
  - exfalso. clear Hb. assert (Hin : ∀ f, f ∈ files → f ∈ files) by done. revert Hin Hm.
    generalize files at 1 3 as l. intros l. revert e'.
    induction l as [|f l IH]; intros e' Hl Hm; simpl in Hm; [done|].
    destruct (upsert_entry_total pk max files shards f Hpack) as [p Hp]; [set_solver|].
    rewrite Hp in Hm. simpl in Hm. destruct (try_map _ l) as [ps|e''] eqn:Hps; [done|].
    eapply IH; [set_solver|done].
Qed.

Definition limits_ok (config : PlannerConfig) (files : list ScannedFile) : Prop :=
  (0 < max_pack_plaintext_bytes config < 2 ^ 62)%Z ∧ Forall (λ f, 0 ≤ s_size_bytes f)%Z files.

(** Why a plan may fail: a file above the limit, or the serializer. *)
Definition plan_failure (config : PlannerConfig) (files : list ScannedFile) (e : SyncError) : Prop :=
  (∃ f m, f ∈ files ∧ (max_pack_plaintext_bytes config < s_size_bytes f)%Z ∧ e = QuotaExceeded m) ∨
  (∃ es, tree_entries_json es = Err e).

Lemma assign_then_build kind pk config files dels :
  limits_ok config files → NoDup (s_normalized_path <$> files) →
  NoDup (f_normalized_path <$> dels) →
  match shards ← assign_pack_entries files pk config; build_plan kind files dels shards with
  | Ok plan => packing_ok pk (max_pack_plaintext_bytes config) files (pack_shards plan) ∧
      plan_ok plan files dels ∧ commit_kind plan = kind
  | Err e => plan_failure config files e
  end.
Proof.
  intros [Hmax Hsizes] Hnd Hdels.
  destruct (assign_pack_entries files pk config) as [shards|e] eqn:Ha; simpl.
  - apply assign_pack_entries_ok in Ha; [|done..].
    destruct (build_plan kind files dels shards) as [plan|e] eqn:Hb.
    + by destruct (build_plan_ok _ _ _ _ _ _ _ Ha Hnd Hdels Hb) as (? & -> & ?).
    + right. by eapply build_plan_Err.
  - left. unfold assign_pack_entries in Ha.
    destruct (try_fold _ _ _) as [st|e'] eqn:Hst; simpl in Ha; [by destruct (k_entries st)|].
    injection Ha as <-. apply (assign_loop_Err pk config Hmax) in Hst as (f & Hf%elem_of_sort_by & Hlt & m & ->).
    eauto.
Qed.

(** Checkpoints. On a scan with unique paths, [plan_checkpoint] packs every
    scanned file exactly once into checkpoint packs; the plan's tree lists each
    file in path order, every tree entry resolves in a pack of the plan (same
    entry identifier, path, hash and size), and the file operations are exactly
    the mirror of the tree, with no deletion. It fails only for a file above the
    limit or when the tree cannot be serialized. *)
Theorem plan_checkpoint_correct (files : list ScannedFile) (config : PlannerConfig) :
  limits_ok config files → NoDup (s_normalized_path <$> files) →
  match plan_checkpoint files config with
  | Ok plan =>
      packing_ok CHECKPOINT_PACK_KIND (max_pack_plaintext_bytes config) files (pack_shards plan) ∧
      plan_ok plan files [] ∧ commit_kind plan = Checkpoint
  | Err e => plan_failure config files e
  end.
Proof.
  intros Hl Hnd. unfold plan_checkpoint, validate_config.
  destruct Hl as [Hmax Hs]. rewrite (proj2 (Z.leb_gt _ _)) by lia. simpl.
  apply assign_then_build; [done..|apply NoDup_nil_2].
Qed.

Definition needs_upload (row : SyncFileRecord) : Prop :=
  f_dirty row = true ∧ f_deleted row = false.
#[global] Instance needs_upload_dec row : Decision (needs_upload row) := _.

(** [ups] holds, row for row, the scanned content of the dirty live rows. *)
Definition uploads (rows : list SyncFileRecord) (scanned ups : list ScannedFile) : Prop :=
  Forall2 (λ row f, f ∈ scanned ∧ s_normalized_path f = f_normalized_path row)
    (filter needs_upload rows) ups.

Lemma scanned_by_path_lookup (files : list ScannedFile) n f :
  scanned_by_path files !! n = Some f → f ∈ files ∧ s_normalized_path f = n.
Proof.
  unfold scanned_by_path.
  assert (Hg : ∀ l (m : gmap string ScannedFile), (∀ n f, m !! n = Some f → f ∈ files ∧ s_normalized_path f = n) → l ⊆ files →
    ∀ n f, foldl (λ m f, <[s_normalized_path f := f]> m) m l !! n = Some f →
    f ∈ files ∧ s_normalized_path f = n).
  { induction l as [|f0 l IH]; intros m Hm Hl; simpl; [done|].
    apply IH; [|set_solver]. intros n' f' [[<- <-]|[_ Hn]]%lookup_insert_Some; [set_solver|by apply Hm]. }
  apply (Hg files ∅); [|done]. intros n' f'. by rewrite lookup_empty.
Qed.

Lemma collect_upserts rows scanned acc ups :
  try_fold (collect_upsert (scanned_by_path scanned)) acc rows = Ok ups →
  ∃ new, ups = acc ++ new ∧ uploads rows scanned new.
Proof.
  unfold uploads. revert acc. induction rows as [|row rows IH]; intros acc; simpl.
  - intros [= <-]. exists []. by rewrite app_nil_r.
  - intros (acc' & Hc & (new & -> & Hnew)%IH)%bind_Ok_inv. unfold collect_upsert in Hc.
    rewrite filter_cons. destruct (decide (needs_upload row)) as [[Hd Hdel]|Hno].
    + rewrite Hd, Hdel in Hc. simpl in Hc. apply bind_Ok_inv in Hc as (f & Hf%ok_or_Ok & [= <-]).
      exists (f :: new). split; [by rewrite <- app_assoc|]. constructor; [|done].
      by apply scanned_by_path_lookup.
    + exists new. unfold needs_upload in Hno.
      destruct (f_dirty row), (f_deleted row); simpl in Hc;
        first [by destruct Hno|by injection Hc as <-].
Qed.

Lemma uploads_paths rows scanned ups :
  uploads rows scanned ups →
  s_normalized_path <$> ups = f_normalized_path <$> filter needs_upload rows.
Proof. unfold uploads. induction 1 as [|r f rs fs [_ Hp] _ IH]; [done|].
  rewrite !fmap_cons. by f_equal.
Qed.

Lemma collect_upserts_Err rows scanned acc e :
  try_fold (collect_upsert (scanned_by_path scanned)) acc rows = Err e →
  ∃ row, row ∈ rows ∧ needs_upload row ∧
    scanned_by_path scanned !! f_normalized_path row = None ∧ ∃ m, e = InvalidArgument m.
Proof.
  revert acc. induction rows as [|row rows IH]; intros acc; simpl; [done|].
  unfold collect_upsert at 2.
  destruct (f_dirty row) eqn:Hd, (f_deleted row) eqn:Hdel; simpl.
  2: destruct (scanned_by_path scanned !! f_normalized_path row) eqn:Hl; simpl;
     [|intros [= <-]; exists row; split; [set_solver|]; split; [done|]; split; [done|eauto]].
  all: intros (r & Hr & Hrest)%IH; exists r; split; [set_solver|done].
Qed.

Lemma scanned_by_path_None (files : list ScannedFile) n :
  scanned_by_path files !! n = None → n ∉ s_normalized_path <$> files.
Proof.
  unfold scanned_by_path.
  assert (Hg : ∀ l (m : gmap string ScannedFile),
    foldl (λ m f, <[s_normalized_path f := f]> m) m l !! n = None →
    m !! n = None ∧ n ∉ s_normalized_path <$> l).
  { induction l as [|f l IH]; intros m Hn; simpl in *; [split; [done|set_solver]|].
    apply IH in Hn as [[Hm Hne]%lookup_insert_None Hl]. split; [done|]. set_solver. }
  intros Hn. by apply Hg in Hn as [_ ?].
Qed.

(** C19: incremental commits. [plan_incremental] uploads exactly the scanned
    content of the dirty live rows of the scan result: one content-pack entry
    and one upsert for each of them, every tree entry resolving in a pack of the
    plan, followed by one deletion for each deleted row, in path order. Besides
    an oversized file or the serializer it fails only when a dirty live row has
    no scanned file of its path. *)
Theorem plan_incremental_correct (r : ScanApplyResult) (scanned : list ScannedFile)
    (config : PlannerConfig) :
  limits_ok config scanned → NoDup (f_normalized_path <$> upserts r) →
  NoDup (f_normalized_path <$> deletions r) →
  match plan_incremental r scanned config with
  | Ok plan => ∃ ups, uploads (upserts r) scanned ups ∧
      packing_ok CONTENT_PACK_KIND (max_pack_plaintext_bytes config) ups (pack_shards plan) ∧
      plan_ok plan ups (deletions r) ∧ commit_kind plan = Incremental
  | Err e =>
      (∃ row, row ∈ upserts r ∧ needs_upload row ∧
         f_normalized_path row ∉ s_normalized_path <$> scanned) ∨
      plan_failure config scanned e
  end.
Proof.
  intros [Hmax Hsizes] Hu Hd. unfold plan_incremental, validate_config.
  rewrite (proj2 (Z.leb_gt _ _)) by lia. simpl.
  destruct (try_fold _ [] (upserts r)) as [ups|e] eqn:Hc; simpl.
  - apply collect_upserts in Hc as (new & -> & Hups). simpl.
    assert (Hin : ∀ f, f ∈ new → f ∈ scanned).
    { intros f [i Hi]%list_elem_of_lookup.
      by destruct (Forall2_lookup_r _ _ _ _ _ Hups Hi) as (row & _ & ? & _). }
    assert (Hl : limits_ok config new).
    { split; [done|]. rewrite Forall_forall in *. auto. }
    assert (Hnd : NoDup (s_normalized_path <$> new)).
    { rewrite (uploads_paths _ _ _ Hups). by apply NoDup_fmap_filter. }
    pose proof (assign_then_build Incremental CONTENT_PACK_KIND config new (deletions r) Hl Hnd Hd) as Hab.
    destruct (_ ← assign_pack_entries new _ _; _) as [plan|e]; [by exists new|].
    right. destruct Hab as [(f & m & Hf & ?)|?]; [left; exists f, m; auto|by right].
  - left. apply collect_upserts_Err in Hc as (row & ? & ? & Hn & _).
    exists row. split_and!; [done..|]. by apply scanned_by_path_None.
Qed.
End plan_properties.

Module Examples.
#[local] Existing Instance Concrete.pad_blake3.
Definition text : PlannerText :=
  {| tree_entries_json := λ es, Ok (join "," (pt_normalized_path <$> es)); fmt_mb := fmt_int |}.
#[local] Existing Instance text.

Definition file (path content : string) (size : Z) : ScannedFile :=
  {| s_file_id := "id:" +:+ path; s_path := path; s_normalized_path := path;
     s_plaintext_hash := blake3_hex content; s_size_bytes := size; s_mtime_ms := 1;
     s_plaintext := content |}.
Definition files : list ScannedFile := [file "c.md" "gamma" 5; file "a.md" "alpha" 6; file "b.md" "beta" 4].
Definition config : PlannerConfig := {| max_pack_plaintext_bytes := 10 |}.

Lemma files_limits : limits_ok config files.
Proof. split; [simpl; lia|]. repeat constructor; simpl; lia. Qed.
Lemma files_paths : NoDup (s_normalized_path <$> files).
Proof. apply (bool_decide_unpack _). vm_compute. exact I. Qed.

Lemma assign_pack_entries_witness :
  (p_pack_ref <$> match assign_pack_entries files "content_pack" config with
                  | Ok s => s | Err _ => [] end) = ["content_pack-0"; "content_pack-1"] ∧
  ∃ shards, assign_pack_entries files "content_pack" config = Ok shards ∧
    packing_ok "content_pack" 10 files shards.
Proof.
  split; [vm_compute; reflexivity|].
  assert (Hc := assign_pack_entries_correct "content_pack" config files
                  (proj1 files_limits) (proj2 files_limits)).
  destruct (assign_pack_entries files "content_pack" config) as [shards|e] eqn:Ha.
  - exists shards. split; [reflexivity|]. exact (proj1 Hc).
  - vm_compute in Ha. discriminate Ha.
Defined.

Lemma plan_checkpoint_witness :
  ∃ plan, plan_checkpoint files config = Ok plan ∧ plan_ok plan files [] ∧
    length (pack_shards plan) = 2.
Proof.
  assert (Hc := plan_checkpoint_correct files config files_limits files_paths).
  destruct (plan_checkpoint files config) as [plan|e] eqn:Hp.
  - exists plan. split; [reflexivity|]. split; [exact (proj1 (proj2 Hc))|].
    vm_compute in Hp. injection Hp as <-. reflexivity.
  - vm_compute in Hp. discriminate Hp.
Defined.

Definition row (path : string) (dirty deleted : bool) : SyncFileRecord :=
  {| f_file_id := "id:" +:+ path; f_path := path; f_normalized_path := path;
     f_kind := FILE_KIND_MARKDOWN; f_plaintext_hash := Some "h"; f_size_bytes := Some 1%Z;
     f_mtime_ms := Some 1%Z; f_last_synced_commit_id := None; f_dirty := dirty;
     f_deleted := deleted |}.
Definition scan : ScanApplyResult :=
  {| upserts := [row "b.md" true false; row "c.md" false false]; deletions := [row "z.md" true true] |}.

Lemma plan_incremental_witness :
  ∃ plan, plan_incremental scan files config = Ok plan ∧
    (∃ ups, uploads (upserts scan) files ups ∧ plan_ok plan ups (deletions scan)) ∧
    (plan_file_op_sort_key <$> file_ops plan) = [("0", "b.md"); ("1", "z.md")].
Proof.
  assert (Hu : NoDup (f_normalized_path <$> upserts scan))
    by (apply (bool_decide_unpack _); vm_compute; exact I).
  assert (Hd : NoDup (f_normalized_path <$> deletions scan))
    by (apply (bool_decide_unpack _); vm_compute; exact I).
  assert (Hc := plan_incremental_correct scan files config files_limits Hu Hd).
  destruct (plan_incremental scan files config) as [plan|e] eqn:Hp.
  - exists plan. split; [reflexivity|]. split.
    + destruct Hc as (ups & Hups & _ & Hok & _). exists ups. split; [exact Hups|exact Hok].
    + vm_compute in Hp. injection Hp as <-. reflexivity.
  - vm_compute in Hp. discriminate Hp.
Defined.
End Examples.
