(* ===== verification/Crypto.v ===== *)
(** * Encrypted blobs and signatures (sync/crypto.rs)

    The binary envelope around every encrypted object, the associated data it is
    bound to, and the signature over a commit. The ciphers, hashes, signatures
    and the JSON writer are external code: [CryptoLib] and [Serialize] name them,
    [CryptoLaws] states what their documentation promises. *)
From Stdlib Require Import Ascii String.
#[local] Set Warnings "-clear-no-such-hyp".
From S2P Require Import Prelude SyncErrors.

(** ** External code *)

(** [serde_json::to_vec] and [serde_json::from_slice], errors already converted
    to [SyncError::Serialization]. *)
Class Serialize (T : Type) := to_vec : T → SyncResult bytes.
Class Deserialize (T : Type) := from_slice : bytes → SyncResult T.
(** Reading back what was written. *)
Class SerdeLaws (T : Type) `{Serialize T, Deserialize T} : Prop :=
  from_slice_to_vec (v : T) b : to_vec v = Ok b → from_slice b = Ok v.

(** sha2, hex, chacha20poly1305 and ed25519-dalek. A cipher call fails as a
    whole, without detail. *)
Class CryptoLib := {
  sha256 : bytes → bytes;
  hex_encode : bytes → string;
  xchacha_encrypt (key nonce aad msg : bytes) : option bytes;
  xchacha_decrypt (key nonce aad ciphertext : bytes) : option bytes;
  ed25519_public (signing_key : bytes) : bytes;
  ed25519_sign (signing_key msg : bytes) : bytes;
  ed25519_verify (verifying_key msg signature : bytes) : bool }.

Class CryptoLaws `{CryptoLib} : Prop := {
  sha256_length b : String.length (sha256 b) = 32;
  xchacha_decrypt_encrypt key nonce aad msg c :
    String.length nonce = 24 → xchacha_encrypt key nonce aad msg = Some c →
    xchacha_decrypt key nonce aad c = Some msg;
  ed25519_sign_length sk msg : String.length (ed25519_sign sk msg) = 64;
  ed25519_verify_sign sk msg :
    ed25519_verify (ed25519_public sk) msg (ed25519_sign sk msg) = true }.

(** ** Data *)

Definition nul : string := String Ascii.zero "".
Definition BLOB_MAGIC : bytes := "KUKUSYNCBLOB" +:+ nul.
Definition BLOB_VERSION : Z := 1.
Definition ALG_XCHACHA20_POLY1305 : Z := 1.
Definition XCHACHA20_NONCE_LEN : nat := 24.
Definition SHA256_LEN : nat := 32.
Definition BLOB_HEADER_FIXED_LEN : nat := String.length BLOB_MAGIC + 3.

(** [[u8; 32]] *)
Abbreviation SymmetricKey := string (only parsing).

(** A byte as a number, and back. *)
Definition byte_val (a : ascii) : Z := Z.of_N (N_of_ascii a).
Definition byte_str (b : Z) : bytes := String (ascii_of_N (Z.to_N b)) "".

Record EncryptedBlobMetadata := { ciphertext_sha256 : string; size_bytes : Z }.

Record ParsedEncryptedBlob := {
  pb_nonce : bytes;
  pb_aad_hash : bytes;
  pb_ciphertext_and_tag : bytes }.

Record PackAad := {
  pa_format : string;
  pa_version : Z;
  pa_workspace_id : string;
  pa_object_id : string;
  pa_object_kind : string;
  pa_commit_id : string }.

(** [PackAad::new] *)
Definition PackAad_new (workspace_id object_id object_kind commit_id : string) : PackAad :=
  {| pa_format := "kuku.sync.pack"; pa_version := 1; pa_workspace_id := workspace_id;
     pa_object_id := object_id; pa_object_kind := object_kind; pa_commit_id := commit_id |}.

Record CommitBodyAad := {
  ca_format : string;
  ca_version : Z;
  ca_workspace_id : string;
  ca_commit_id : string;
  ca_commit_kind : string;
  ca_parents : list string;
  ca_author_device_id : string;
  ca_device_seq : Z;
  ca_body_object_id : string }.

Definition CommitBodyAad_new (workspace_id commit_id commit_kind : string) (parents : list string)
    (author_device_id : string) (device_seq : Z) (body_object_id : string) : CommitBodyAad :=
  {| ca_format := "kuku.sync.commit-body"; ca_version := 1; ca_workspace_id := workspace_id;
     ca_commit_id := commit_id; ca_commit_kind := commit_kind; ca_parents := parents;
     ca_author_device_id := author_device_id; ca_device_seq := device_seq;
     ca_body_object_id := body_object_id |}.

Record KeyEnvelopeAad := {
  ka_format : string;
  ka_version : Z;
  ka_workspace_id : string;
  ka_envelope_id : string;
  ka_recipient_type : string }.

(** [KeyEnvelopeAad::passphrase] *)
Definition KeyEnvelopeAad_passphrase (workspace_id envelope_id : string) : KeyEnvelopeAad :=
  {| ka_format := "kuku.sync.key-envelope"; ka_version := 1; ka_workspace_id := workspace_id;
     ka_envelope_id := envelope_id; ka_recipient_type := "passphrase" |}.

Record CommitSignaturePayload := {
  sp_workspace_id : string;
  sp_commit_id : string;
  sp_commit_kind : string;
  sp_expected_head_commit_id : string;
  sp_parent_commit_ids : list string;
  sp_author_device_id : string;
  sp_device_seq : Z;
  sp_body_object_id : string;
  sp_body_ciphertext_sha256 : string;
  sp_body_size_bytes : Z;
  sp_referenced_object_ids : list string }.

(** [CommitSignaturePayload::new]: the references are sorted. *)
Definition CommitSignaturePayload_new (workspace_id commit_id commit_kind : string)
    (expected_head_commit_id : string) (parent_commit_ids : list string)
    (author_device_id : string) (device_seq : Z) (body_object_id : string)
    (body_ciphertext_sha256 : string) (body_size_bytes : Z)
    (referenced_object_ids : list string) : CommitSignaturePayload :=
  {| sp_workspace_id := workspace_id; sp_commit_id := commit_id; sp_commit_kind := commit_kind;
     sp_expected_head_commit_id := expected_head_commit_id;
     sp_parent_commit_ids := parent_commit_ids; sp_author_device_id := author_device_id;
     sp_device_seq := device_seq; sp_body_object_id := body_object_id;
     sp_body_ciphertext_sha256 := body_ciphertext_sha256; sp_body_size_bytes := body_size_bytes;
     sp_referenced_object_ids := sort_by str_leb referenced_object_ids |}.

(** ** Operations *)

Section crypto.
Context `{CryptoLib}.

Definition canonical_json {T} `{Serialize T} (value : T) : SyncResult bytes := to_vec value.

(** [encrypt_blob] draws the 24 bytes [nonce] from the operating system's
    generator and calls this function. *)
Definition encrypt_blob_with_nonce {T} `{Serialize T} (key : SymmetricKey) (aad : T)
    (plaintext nonce : bytes) : SyncResult bytes :=
  aad ← canonical_json aad;
  ciphertext ← ok_or (xchacha_encrypt key nonce aad plaintext) (Crypto "encrypt failed");
  Ok (BLOB_MAGIC +:+ byte_str BLOB_VERSION +:+ byte_str ALG_XCHACHA20_POLY1305
      +:+ byte_str (Z.of_nat XCHACHA20_NONCE_LEN) +:+ nonce +:+ sha256 aad +:+ ciphertext).

Definition encrypt_blob {T} `{Serialize T} (nonce : bytes) (key : SymmetricKey) (aad : T)
    (plaintext : bytes) : SyncResult bytes :=
  encrypt_blob_with_nonce key aad plaintext nonce.

Definition parse_blob (blob : bytes) : SyncResult ParsedEncryptedBlob :=
  let len := String.length blob in
  let magic_len := String.length BLOB_MAGIC in
  _ ← reject_if (len <? BLOB_HEADER_FIXED_LEN + XCHACHA20_NONCE_LEN + SHA256_LEN)
        (Crypto "encrypted blob is too short");
  _ ← reject_if (negb (bool_decide (str_take magic_len blob = BLOB_MAGIC)))
        (Crypto "invalid encrypted blob magic");
  let version := byte_val (str_at magic_len blob) in
  _ ← reject_if (negb (version =? BLOB_VERSION)%Z) (UnsupportedVersion version);
  let alg_id := byte_val (str_at (magic_len + 1) blob) in
  _ ← reject_if (negb (alg_id =? ALG_XCHACHA20_POLY1305)%Z)
        (Crypto "unsupported encrypted blob algorithm");
  let nonce_len := Z.to_nat (byte_val (str_at (magic_len + 2) blob)) in
  _ ← reject_if (negb (nonce_len =? XCHACHA20_NONCE_LEN))
        (Crypto "invalid encrypted blob nonce length");
  let nonce_start := BLOB_HEADER_FIXED_LEN in
  let aad_hash_start := nonce_start + nonce_len in
  let ciphertext_start := aad_hash_start + SHA256_LEN in
  _ ← reject_if (len <? ciphertext_start) (Crypto "encrypted blob is truncated");
  Ok {| pb_nonce := str_slice nonce_start aad_hash_start blob;
        pb_aad_hash := str_slice aad_hash_start ciphertext_start blob;
        pb_ciphertext_and_tag := str_drop ciphertext_start blob |}.

Definition decrypt_blob {T} `{Serialize T} (key : SymmetricKey) (aad : T) (blob : bytes)
  : SyncResult bytes :=
  aad ← canonical_json aad;
  parsed ← parse_blob blob;
  _ ← reject_if (negb (bool_decide (pb_aad_hash parsed = sha256 aad)))
        (Crypto "aad hash mismatch");
  ok_or (xchacha_decrypt key (pb_nonce parsed) aad (pb_ciphertext_and_tag parsed))
    (Crypto "decrypt failed").

Definition encrypted_blob_metadata (blob : bytes) : EncryptedBlobMetadata :=
  {| ciphertext_sha256 := hex_encode (sha256 blob);
     size_bytes := Z.min (byte_len blob) i64_max |}.

Definition encrypt_commit_body `{Serialize CommitBodyAad} (nonce : bytes)
    (commit_key : SymmetricKey) (aad : CommitBodyAad) (plaintext_body : bytes)
  : SyncResult bytes := encrypt_blob nonce commit_key aad plaintext_body.

Definition decrypt_commit_body `{Serialize CommitBodyAad} (commit_key : SymmetricKey)
    (aad : CommitBodyAad) (encrypted_body : bytes) : SyncResult bytes :=
  decrypt_blob commit_key aad encrypted_body.

Definition sign_commit_payload `{Serialize CommitSignaturePayload} (signing_key : bytes)
    (payload : CommitSignaturePayload) : SyncResult bytes :=
  canonical ← canonical_json payload;
  Ok (ed25519_sign signing_key canonical).

(** [Signature::try_from] accepts exactly the slices of 64 bytes. *)
Definition verify_commit_signature `{Serialize CommitSignaturePayload} (verifying_key : bytes)
    (payload : CommitSignaturePayload) (signature : bytes) : SyncResult unit :=
  canonical ← canonical_json payload;
  _ ← reject_if (negb (String.length signature =? 64))
        (Crypto "invalid ed25519 signature length");
  reject_if (negb (ed25519_verify verifying_key canonical signature))
    (Crypto "invalid ed25519 signature").
End crypto.

(** ** The blob format *)

(** The byte layout of an encrypted blob. *)
Definition blob_layout (nonce aad_hash ciphertext : bytes) : bytes :=
  BLOB_MAGIC +:+ byte_str 1 +:+ byte_str 1 +:+ byte_str 24 +:+ nonce +:+ aad_hash +:+ ciphertext.

Lemma byte_str_val a z : byte_val a = z → String a "" = byte_str z.
Proof.
  intros <-. unfold byte_str, byte_val. by rewrite N2Z.id, ascii_N_embedding.
Qed.

Lemma parse_blob_layout nonce aad_hash c :
  String.length nonce = 24 → String.length aad_hash = 32 →
  parse_blob (blob_layout nonce aad_hash c) =
  Ok {| pb_nonce := nonce; pb_aad_hash := aad_hash; pb_ciphertext_and_tag := c |}.
Proof.
  intros Hn Ha. unfold parse_blob.
  set (hdr := BLOB_MAGIC +:+ byte_str 1 +:+ byte_str 1 +:+ byte_str 24).
  assert (Hl : blob_layout nonce aad_hash c = hdr +:+ nonce +:+ aad_hash +:+ c)
    by (unfold blob_layout, hdr; by rewrite <- !str_app_assoc).
  rewrite Hl. assert (Hlen : String.length (hdr +:+ nonce +:+ aad_hash +:+ c) = 72 + String.length c).
  { rewrite !str_app_length, Hn, Ha. change (String.length hdr) with 16. lia. }
  rewrite Hlen. change (BLOB_HEADER_FIXED_LEN + XCHACHA20_NONCE_LEN + SHA256_LEN) with 72.
  rewrite (proj2 (Nat.ltb_ge (72 + _) 72)) by lia.
  cbn [reject_if mbind result_bind].
  change (str_take (String.length BLOB_MAGIC) (hdr +:+ nonce +:+ aad_hash +:+ c)) with BLOB_MAGIC.
  rewrite bool_decide_true by done. cbn [negb reject_if mbind result_bind].
  change (str_at (String.length BLOB_MAGIC) (hdr +:+ nonce +:+ aad_hash +:+ c)) with "001"%char.
  change (str_at (String.length BLOB_MAGIC + 1) (hdr +:+ nonce +:+ aad_hash +:+ c)) with "001"%char.
  change (str_at (String.length BLOB_MAGIC + 2) (hdr +:+ nonce +:+ aad_hash +:+ c)) with "024"%char.
  change (Z.to_nat (byte_val "024")) with 24.
  cbn -[hdr str_drop str_slice Nat.ltb].
  rewrite (proj2 (Nat.ltb_ge _ _)) by lia. cbn -[hdr str_drop str_slice].
  unfold str_slice.
  rewrite <- (str_drop_drop 24 16), <- (str_drop_drop 32 40), <- (str_drop_drop 24 16).
  rewrite !(str_drop_app 16 hdr) by done. rewrite !(str_drop_app 24 nonce) by done.
  by rewrite (str_take_app 24 nonce), (str_take_app 32 aad_hash), (str_drop_app 32 aad_hash).
Qed.

Lemma parse_blob_inv blob p :
  parse_blob blob = Ok p →
  String.length (pb_nonce p) = 24 ∧ String.length (pb_aad_hash p) = 32 ∧
  blob = blob_layout (pb_nonce p) (pb_aad_hash p) (pb_ciphertext_and_tag p).
Proof.
  intros Hp. unfold parse_blob in Hp.
  apply bind_Ok_inv in Hp as (u1 & Hlen%reject_if_Ok%Nat.ltb_ge & Hp).
  apply bind_Ok_inv in Hp as (u2 & Hmagic%reject_if_Ok%negb_false_iff%bool_decide_eq_true & Hp).
  apply bind_Ok_inv in Hp as (u3 & Hver%reject_if_Ok%negb_false_iff%Z.eqb_eq & Hp).
  apply bind_Ok_inv in Hp as (u4 & Halg%reject_if_Ok%negb_false_iff%Z.eqb_eq & Hp).
  apply bind_Ok_inv in Hp as (u5 & Hnl%reject_if_Ok%negb_false_iff%Nat.eqb_eq & Hp).
  apply bind_Ok_inv in Hp as (u6 & _ & Hp). rewrite Hnl in Hp.
  change (BLOB_HEADER_FIXED_LEN + XCHACHA20_NONCE_LEN + SHA256_LEN) with 72 in *.
  change (BLOB_HEADER_FIXED_LEN + XCHACHA20_NONCE_LEN) with 40 in *.
  change BLOB_HEADER_FIXED_LEN with 16 in *.
  change (String.length BLOB_MAGIC + 1) with 14 in *. change (String.length BLOB_MAGIC + 2) with 15 in *.
  change (String.length BLOB_MAGIC) with 13 in *. unfold str_slice in Hp.
  change (40 - 16) with 24 in Hp. change (72 - 40) with 32 in Hp.
  assert (Hnl' : byte_val (str_at 15 blob) = 24%Z) by (unfold XCHACHA20_NONCE_LEN in Hnl; lia).
  apply Ok_inj in Hp as <-. cbn [pb_nonce pb_aad_hash pb_ciphertext_and_tag].
  split; [rewrite str_length_take; [done|rewrite str_length_drop; lia]|].
  split; [rewrite str_length_take; [done|rewrite str_length_drop; lia]|].
  unfold blob_layout.
  rewrite <- (byte_str_val _ _ Hver) at 1. rewrite <- (byte_str_val _ _ Hnl').
  change 1%Z with ALG_XCHACHA20_POLY1305. rewrite <- (byte_str_val _ _ Halg), <- Hmagic.
  assert (Hd40 : str_take 32 (str_drop 40 blob) +:+ str_drop 72 blob = str_drop 40 blob)
    by (rewrite <- (str_drop_drop 32 40); apply str_take_drop).
  assert (Hd16 : str_take 24 (str_drop 16 blob) +:+ str_drop 40 blob = str_drop 16 blob)
    by (rewrite <- (str_drop_drop 24 16); apply str_take_drop).
  rewrite Hd40, Hd16.
  assert (H15 : String (str_at 15 blob) "" +:+ str_drop 16 blob = str_drop 15 blob)
    by (rewrite (str_drop_at 15) by lia; done).
  assert (H14 : String (str_at 14 blob) "" +:+ str_drop 15 blob = str_drop 14 blob)
    by (rewrite (str_drop_at 14) by lia; done).
  assert (H13 : String (str_at 13 blob) "" +:+ str_drop 14 blob = str_drop 13 blob)
    by (rewrite (str_drop_at 13) by lia; done).
  rewrite H15, H14, H13. by rewrite str_take_drop.
Qed.

Section crypto_properties.
Context `{CryptoLaws}.

Lemma encrypt_blob_layout {T} `{Serialize T} key (aad : T) plaintext nonce blob :
  encrypt_blob_with_nonce key aad plaintext nonce = Ok blob →
  ∃ a c, to_vec aad = Ok a ∧ xchacha_encrypt key nonce a plaintext = Some c ∧
    blob = blob_layout nonce (sha256 a) c.
Proof.
  unfold encrypt_blob_with_nonce, canonical_json.
  intros (a & Ha & (c & Hc%ok_or_Ok & [= <-])%bind_Ok_inv)%bind_Ok_inv. by exists a, c.
Qed.

Lemma decrypt_encrypted {T U} `{Serialize T, Serialize U} key key' (aad : T) (aad' : U) pt nonce blob a a' :
  String.length nonce = 24 → encrypt_blob_with_nonce key aad pt nonce = Ok blob →
  to_vec aad = Ok a → to_vec aad' = Ok a' →
  decrypt_blob key' aad' blob =
  if bool_decide (sha256 a = sha256 a')
  then ok_or (default None (c ← xchacha_encrypt key nonce a pt; Some (xchacha_decrypt key' nonce a' c)))
         (Crypto "decrypt failed")
  else Err (Crypto "aad hash mismatch").
Proof.
  intros Hn (a0 & c & Ha0 & Hc & ->)%encrypt_blob_layout Ha Ha'. simplify_eq.
  rewrite Ha in Ha0. injection Ha0 as <-.
  unfold decrypt_blob, canonical_json. rewrite Ha'. simpl.
  rewrite parse_blob_layout by (done || apply sha256_length). simpl.
  case_bool_decide; simpl; [|done]. by rewrite Hc.
Qed.

(** The blob envelope. [parse_blob] accepts exactly the byte strings of the
    documented layout (magic, version 1, algorithm 1, nonce length 24, a 24-byte
    nonce, a 32-byte hash of the associated data, then the ciphertext) and
    returns their parts, so the layout is unambiguous. *)
Theorem parse_blob_exact (blob : bytes) (p : ParsedEncryptedBlob) :
  parse_blob blob = Ok p ↔
  String.length (pb_nonce p) = 24 ∧ String.length (pb_aad_hash p) = 32 ∧
  blob = blob_layout (pb_nonce p) (pb_aad_hash p) (pb_ciphertext_and_tag p).
Proof.
  split; [apply parse_blob_inv|]. intros (Hn & Ha & ->). rewrite parse_blob_layout by done.
  by destruct p.
Qed.

Lemma decrypt_encrypt_same {T} `{Serialize T} key (aad : T) plaintext nonce blob :
  String.length nonce = 24 → encrypt_blob nonce key aad plaintext = Ok blob →
  decrypt_blob key aad blob = Ok plaintext.
Proof.
  unfold encrypt_blob. intros Hn He.
  destruct (encrypt_blob_layout _ _ _ _ _ He) as (a0 & c & Ha0 & Hc & _).
  rewrite (decrypt_encrypted key key aad aad plaintext nonce blob a0 a0) by done.
  rewrite bool_decide_true by done. rewrite Hc. simpl. by erewrite xchacha_decrypt_encrypt.
Qed.
Lemma decrypt_encrypt_other {T} `{Serialize T} key (aad aad' : T) plaintext nonce blob key' a a' :
  String.length nonce = 24 → encrypt_blob nonce key aad plaintext = Ok blob →
  to_vec aad = Ok a → to_vec aad' = Ok a' → sha256 a ≠ sha256 a' →
  decrypt_blob key' aad' blob = Err (Crypto "aad hash mismatch").
Proof.
  unfold encrypt_blob. intros Hn He Ha Ha' Hne.
  rewrite (decrypt_encrypted key key' aad aad' plaintext nonce blob a a') by done.
  by rewrite bool_decide_false.
Qed.

(** Encryption is bound to its associated data. A blob written by
    [encrypt_blob] under a 24-byte nonce decrypts, with the same key and
    associated data, to the plaintext; under associated data whose canonical JSON
    hashes differently it is refused with "aad hash mismatch" whatever the key. *)
Theorem decrypt_encrypt_blob {T} `{Serialize T} key (aad aad' : T) plaintext nonce blob :
  String.length nonce = 24 → encrypt_blob nonce key aad plaintext = Ok blob →
  decrypt_blob key aad blob = Ok plaintext ∧
  ∀ key' a a', to_vec aad = Ok a → to_vec aad' = Ok a' → sha256 a ≠ sha256 a' →
    decrypt_blob key' aad' blob = Err (Crypto "aad hash mismatch").
Proof.
  intros Hn He. split; [by eapply decrypt_encrypt_same|]. intros key' a a'. by eapply decrypt_encrypt_other.
Qed.

(** Commit signatures. A payload signed by a device verifies under that
    device's public key, for every order in which the referenced objects are
    listed, since the payload sorts them; and verification refuses any signature
    that is not 64 bytes long. *)
Theorem commit_signature_verifies `{Serialize CommitSignaturePayload}
    ws cid ckind head parents device seq body hash size refs refs' sk signature :
  let payload := CommitSignaturePayload_new ws cid ckind head parents device seq body hash size in
  refs ≡ₚ refs' → sign_commit_payload sk (payload refs) = Ok signature →
  verify_commit_signature (ed25519_public sk) (payload refs') signature = Ok tt ∧
  ∀ vk s, String.length s ≠ 64 →
    verify_commit_signature vk (payload refs') s = Err (Crypto "invalid ed25519 signature length").
Proof.
  intros payload Hp Hs. assert (Heq : payload refs' = payload refs).
  { unfold payload, CommitSignaturePayload_new. by rewrite (str_sort_perm _ _ Hp). }
  unfold sign_commit_payload, verify_commit_signature, canonical_json in *. rewrite Heq.
  apply bind_Ok_inv in Hs as (json & Hj & [= <-]). rewrite Hj. simpl. split.
  - by rewrite ed25519_sign_length, ed25519_verify_sign.
  - intros vk s Hlen. by rewrite (proj2 (Nat.eqb_neq _ _)).
Qed.
End crypto_properties.

(** ** Concrete instances *)
Module Toy.
(** A transparent cipher: the tag is the length of the message, the hash pads
    the input. It satisfies the laws and makes the model run. *)
Definition toy_hash (b : bytes) : bytes := str_take 32 (b +:+ zeros 32).
Definition crypto : CryptoLib := {|
  sha256 := toy_hash;
  hex_encode := λ b, b;
  xchacha_encrypt := λ key nonce aad msg, Some (key +:+ msg);
  xchacha_decrypt := λ key nonce aad c, strip_prefix key c;
  ed25519_public := λ sk, sk;
  ed25519_sign := λ sk m, str_take 64 (sk +:+ m +:+ zeros 64);
  ed25519_verify := λ vk m s, bool_decide (s = str_take 64 (vk +:+ m +:+ zeros 64)) |}.
Lemma crypto_laws : @CryptoLaws crypto.
Proof.
  split.
  - intros b. unfold sha256, crypto, toy_hash. apply str_length_take.
    rewrite str_app_length, Concrete.length_zeros. lia.
  - intros key nonce aad msg c _ [= <-]. by apply strip_prefix_Some.
  - intros sk m. unfold ed25519_sign, crypto. apply str_length_take. rewrite !str_app_length, Concrete.length_zeros. lia.
  - intros sk m. by apply bool_decide_eq_true.
Qed.
(** A reversible text for any countable value, standing in for JSON. *)
Fixpoint pos_text (p : positive) : string :=
  match p with
  | xH => ""
  | xO p => String "0" (pos_text p)
  | xI p => String "1" (pos_text p)
  end.
Fixpoint text_pos (s : string) : positive :=
  match s with
  | EmptyString => xH
  | String "0" s => xO (text_pos s)
  | String _ s => xI (text_pos s)
  end.
Lemma text_pos_text p : text_pos (pos_text p) = p.
Proof. induction p as [p IH|p IH|]; simpl; [by rewrite IH..|done]. Qed.
Definition write_text `{Countable A} (v : A) : SyncResult bytes := Ok (pos_text (encode v)).
Definition read_text `{Countable A} (b : bytes) : SyncResult A :=
  ok_or (decode (text_pos b)) (Serialization "invalid").
Lemma read_write_text `{Countable A} (v : A) b : write_text v = Ok b → read_text b = Ok v.
Proof. unfold write_text, read_text. intros [= <-]. by rewrite text_pos_text, decode_encode. Qed.

(** Lists of byte strings, each escaped and closed by a zero byte. *)
Fixpoint escape (s : string) : string :=
  match s with
  | EmptyString => EmptyString
  | String "000" s => String "001" (String "0" (escape s))
  | String "001" s => String "001" (String "1" (escape s))
  | String c s => String c (escape s)
  end.
Definition write_items (items : list string) : string :=
  str_concat ((λ s, escape s +:+ String "000" "") <$> items).
Definition push_char (c : ascii) (items : list string) : list string :=
  match items with x :: items => String c x :: items | [] => [String c ""] end.
Fixpoint read_items (s : string) : list string :=
  match s with
  | EmptyString => []
  | String "000" s => "" :: read_items s
  | String "001" (String d s) => push_char (if Ascii.eqb d "0" then "000" else "001")%char (read_items s)
  | String c s => push_char c (read_items s)
  end.
Lemma read_items_escape s t : read_items (escape s +:+ String "000" t) = s :: read_items t.
Proof.
  induction s as [|c s IH]; [done|].
  destruct c as [[] [] [] [] [] [] [] []]; simpl escape;
    match goal with |- context [String ?a (String ?b (escape s)) +:+ ?u] =>
      change (String a (String b (escape s)) +:+ u) with (String a (String b (escape s +:+ u)))
    | |- context [String ?a (escape s) +:+ ?u] =>
      change (String a (escape s) +:+ u) with (String a (escape s +:+ u)) end;
    cbn [read_items]; by rewrite IH.
Qed.
Lemma read_write_items items : read_items (write_items items) = items.
Proof.
  unfold write_items. induction items as [|s items IH]; [done|]. rewrite fmap_cons. simpl.
  rewrite <- str_app_assoc. change (String "000" "" +:+ ?u) with (String "000" u).
  rewrite (read_items_escape s). by rewrite IH.
Qed.

#[export] Instance pack_aad_json : Serialize PackAad := λ a,
  Ok (pa_object_id a +:+ "," +:+ pa_workspace_id a +:+ "," +:+ pa_commit_id a).
#[export] Instance payload_json : Serialize CommitSignaturePayload := λ p,
  Ok (sp_commit_id p +:+ "," +:+ join "," (sp_referenced_object_ids p)).
End Toy.

Module Examples.
#[local] Existing Instance Toy.crypto.
#[local] Existing Instance Toy.crypto_laws.
Import Toy.

Definition key : SymmetricKey := "0123456789abcdef0123456789abcdef".
Definition nonce : bytes := "nnnnnnnnnnnnnnnnnnnnnnnn".
Definition aad (object_id : string) : PackAad :=
  PackAad_new "workspace-1" object_id "content_pack" "commit-1".
Definition blob : bytes :=
  match encrypt_blob nonce key (aad "object-1") "secret" with Ok b => b | Err _ => "" end.

Lemma decrypt_encrypt_blob_witness :
  decrypt_blob key (aad "object-1") blob = Ok "secret" ∧
  decrypt_blob key (aad "object-2") blob = Err (Crypto "aad hash mismatch").
Proof.
  assert (Hn : String.length nonce = 24) by reflexivity.
  assert (He : encrypt_blob nonce key (aad "object-1") "secret" = Ok blob) by (vm_compute; reflexivity).
  destruct (decrypt_encrypt_blob key (aad "object-1") (aad "object-2") "secret" nonce blob Hn He)
    as [H1 H2].
  split; [exact H1|].
  eapply (H2 key); [reflexivity|reflexivity|]. vm_compute. discriminate.
Defined.

Lemma commit_signature_verifies_witness :
  ∃ signature,
    verify_commit_signature (ed25519_public "sk")
      (CommitSignaturePayload_new "w" "c2" "incremental" "c1" ["c1"] "d" 2 "o" "h" 10 ["b"; "a"])
      signature = Ok tt.
Proof.
  eexists.
  refine (proj1 (commit_signature_verifies "w" "c2" "incremental" "c1" ["c1"] "d" 2 "o" "h" 10
                   ["a"; "b"] ["b"; "a"] "sk" _ _ _)).
  - apply Permutation_swap.
  - vm_compute. reflexivity.
Defined.
End Examples.
