(* ===== verification/Keys.v ===== *)
(** * Workspace keys and the keychain (sync/keys.rs, secure_storage.rs, variant.rs)

    Key derivation, the passphrase envelope of the workspace key, and the
    keychain slots in which keys are remembered, for the release configuration
    (the insecure file store of debug builds is behind [cfg(debug_assertions)]).
    The keychain is explicit state; the operating system's store, base64, the
    keyed hash and Argon2 are external code. *)
From Stdlib Require Import Ascii String.
#[local] Set Warnings "-clear-no-such-hyp".
From S2P Require Import Prelude SyncErrors Crypto.

(** ** External code *)

(** [keyring]: the error of an entry operation. *)
Inductive KeyringError := NoEntry | KeyringOther (message : string).

(** [keyring::Entry::new] followed by one operation on the entry; the store is
    the operating system's, of type [Keychain]. *)
Class Keyring (Keychain : Type) := {
  entry_new (service account : string) : Result string unit;
  get_password (k : Keychain) (service account : string) : Result KeyringError string;
  set_password (k : Keychain) (service account value : string) : Result string Keychain;
  delete_credential (k : Keychain) (service account : string) : Result KeyringError Keychain }.

(** A credential store: reading returns the last value written to the entry, and
    the entries are independent. *)
Class KeyringLaws (Keychain : Type) `{Keyring Keychain} : Prop := {
  get_set k s a v k' : set_password k s a v = Ok k' → get_password k' s a = Ok v;
  get_set_ne k s a v k' s' a' : set_password k s a v = Ok k' → (s, a) ≠ (s', a') →
    get_password k' s' a' = get_password k s' a';
  delete_none k s a : delete_credential k s a = Err NoEntry → get_password k s a = Err NoEntry;
  get_delete k s a k' : delete_credential k s a = Ok k' → get_password k' s a = Err NoEntry;
  get_delete_ne k s a k' s' a' : delete_credential k s a = Ok k' → (s, a) ≠ (s', a') →
    get_password k' s' a' = get_password k s' a' }.

Class KeyLib := {
  base64_encode : bytes → string;
  base64_decode : string → Result string bytes;
  blake3_keyed_hash (key input : bytes) : bytes;
  (** [argon2::Params::new] with an output length of 32 *)
  argon2_params (mem_kib iterations parallelism : Z) : Result string unit;
  argon2_hash (mem_kib iterations parallelism : Z) (password salt : bytes) : Result string bytes }.
Class KeyLaws `{KeyLib} : Prop := {
  base64_decode_encode b : base64_decode (base64_encode b) = Ok b;
  blake3_keyed_hash_length k i : String.length (blake3_keyed_hash k i) = 32 }.

(** ** variant.rs *)

(** The bundle identifier captured at start-up, if any. *)
Definition variant_suffix (identifier : option string) : string :=
  match identifier with
  | Some id =>
      if bool_decide (id = "mom.kuku.app.dev") then ".dev"
      else if bool_decide (id = "mom.kuku.app.preview") then ".preview"
      else ""
  | None => ""
  end.

Definition data_root (identifier : option string) (home : list string) : list string :=
  let suffix := variant_suffix identifier in
  if str_is_empty suffix then home ++ [".kuku"] else home ++ [".kuku" +:+ suffix].

Definition keychain_service (identifier : option string) (base : string) : string :=
  "mom.kuku.desktop." +:+ base +:+ variant_suffix identifier.

(** ** secure_storage.rs *)

Inductive SecureStorageError := Store (message : string) | NotFound.

Definition KEYRING_VALUE_PREFIX : string := "kuku-secure:v1:".

Section secure_storage.
Context `{KeyLib} {Keychain : Type} `{Keyring Keychain}.

Definition encode_keyring_value (content : bytes) : string :=
  KEYRING_VALUE_PREFIX +:+ base64_encode content.

Definition decode_keyring_value (content : string) : Result SecureStorageError bytes :=
  match strip_prefix KEYRING_VALUE_PREFIX content with
  | Some encoded =>
      map_err (λ e, Store ("invalid keyring payload encoding: " +:+ e)) (base64_decode encoded)
  | None => Ok content
  end.

Definition open_entry (service account : string) : Result SecureStorageError unit :=
  map_err (λ e, Store ("failed to open keyring: " +:+ e)) (entry_new service account).

(** [read_keyring], the body of [read_bytes] *)
Definition read_bytes (k : Keychain) (service account : string)
  : Result SecureStorageError (option bytes) :=
  _ ← open_entry service account;
  match get_password k service account with
  | Ok content => b ← decode_keyring_value content; Ok (Some b)
  | Err NoEntry => Ok None
  | Err (KeyringOther e) => Err (Store ("failed to read keyring: " +:+ e))
  end.

(** [write_keyring], the body of [write_bytes] *)
Definition write_bytes (k : Keychain) (service account : string) (content : bytes)
  : Result SecureStorageError Keychain :=
  _ ← open_entry service account;
  map_err (λ e, Store ("failed to write keyring: " +:+ e))
    (set_password k service account (encode_keyring_value content)).

(** [delete_keyring], the body of [delete] *)
Definition delete (k : Keychain) (service account : string) : Result SecureStorageError Keychain :=
  _ ← open_entry service account;
  match delete_credential k service account with
  | Ok k => Ok k
  | Err NoEntry => Err NotFound
  | Err (KeyringOther e) => Err (Store ("failed to delete keyring: " +:+ e))
  end.
End secure_storage.

(** ** keys.rs: data *)

Definition WORKSPACE_KEY_LEN : nat := 32.
Definition ARGON2_SALT_LEN : nat := 16.
Definition PACK_KEY_PURPOSE : string := "kuku-sync-pack-v1".
Definition COMMIT_BODY_KEY_PURPOSE : string := "kuku-sync-commit-body-v1".
Definition CHECKPOINT_KEY_PURPOSE : string := "kuku-sync-checkpoint-v1".
Definition PATH_KEY_PURPOSE : string := "kuku-sync-path-v1".
Definition WRAP_KEY_PURPOSE : string := "kuku-sync-wrap-v1".

Record Argon2idKdfParams := {
  kdf_name : string;
  kdf_salt : string;
  kdf_mem_kib : Z;
  kdf_iterations : Z;
  kdf_parallelism : Z }.

Record WrappedWorkspaceKey := { wrap_alg : string; wrap_nonce : string; wrap_ciphertext : string }.

Record PassphraseKeyEnvelope := {
  env_workspace_id : string;
  env_envelope_id : string;
  env_recipient_type : string;
  env_key_version : Z;
  env_kdf : Argon2idKdfParams;
  env_wrap : WrappedWorkspaceKey }.

Inductive WorkspaceKeySource := Remembered | Passphrase.

(** ** keys.rs: derivation and envelopes *)

Section keys.
Context `{CryptoLib, KeyLib, Serialize KeyEnvelopeAad}.

(** [Argon2idKdfParams::default] on 16 random bytes *)
Definition default_kdf (salt : bytes) : Argon2idKdfParams :=
  {| kdf_name := "argon2id"; kdf_salt := base64_encode salt; kdf_mem_kib := 65536;
     kdf_iterations := 3; kdf_parallelism := 1 |}.

Definition subkey_input (purpose id : string) : bytes := purpose +:+ nul +:+ id.
Definition derive_subkey (workspace_key : SymmetricKey) (purpose workspace_id : string) : SymmetricKey :=
  blake3_keyed_hash workspace_key (subkey_input purpose workspace_id).

Definition pack_key k ws : SymmetricKey := derive_subkey k PACK_KEY_PURPOSE ws.
Definition commit_body_key k ws : SymmetricKey := derive_subkey k COMMIT_BODY_KEY_PURPOSE ws.
Definition checkpoint_key k ws : SymmetricKey := derive_subkey k CHECKPOINT_KEY_PURPOSE ws.
Definition wrap_key k ws : SymmetricKey := derive_subkey k WRAP_KEY_PURPOSE ws.

Definition passphrase_kek (passphrase : string) (params : Argon2idKdfParams) : SyncResult SymmetricKey :=
  _ ← reject_if (negb (bool_decide (kdf_name params = "argon2id")))
        (Crypto "unsupported passphrase kdf");
  salt ← map_err (λ e, Serialization ("invalid argon2id salt: " +:+ e))
           (base64_decode (kdf_salt params));
  _ ← map_err (λ e, Crypto ("invalid argon2id params: " +:+ e))
        (argon2_params (kdf_mem_kib params) (kdf_iterations params) (kdf_parallelism params));
  map_err (λ e, Crypto ("argon2id failed: " +:+ e))
    (argon2_hash (kdf_mem_kib params) (kdf_iterations params) (kdf_parallelism params)
       passphrase salt).

(** [<[u8; N]>::try_from(bytes)] *)
Definition try_into_fixed (n : nat) (b : bytes) (e : SyncError) : SyncResult bytes :=
  if String.length b =? n then Ok b else Err e.

Definition decode_fixed (n : nat) (value field : string) : SyncResult bytes :=
  b ← map_err (λ e, Serialization ("invalid " +:+ field +:+ ": " +:+ e)) (base64_decode value);
  try_into_fixed n b (Serialization ("invalid " +:+ field +:+ " length")).

(** [nonce]: the 24 random bytes the function draws. *)
Definition wrap_workspace_key_with_params (nonce : bytes) (workspace_id envelope_id : string)
    (key_version : Z) (workspace_key : SymmetricKey) (passphrase : string)
    (kdf : Argon2idKdfParams) : SyncResult PassphraseKeyEnvelope :=
  kek ← passphrase_kek passphrase kdf;
  aad ← canonical_json (KeyEnvelopeAad_passphrase workspace_id envelope_id);
  ciphertext ← ok_or (xchacha_encrypt kek nonce aad workspace_key)
                 (Crypto "workspace key wrap failed");
  Ok {| env_workspace_id := workspace_id; env_envelope_id := envelope_id;
        env_recipient_type := "passphrase"; env_key_version := key_version; env_kdf := kdf;
        env_wrap := {| wrap_alg := "XChaCha20-Poly1305"; wrap_nonce := base64_encode nonce;
                       wrap_ciphertext := base64_encode ciphertext |} |}.

Definition wrap_workspace_key_with_passphrase (nonce salt : bytes) (workspace_id envelope_id : string)
    (key_version : Z) (workspace_key : SymmetricKey) (passphrase : string)
  : SyncResult PassphraseKeyEnvelope :=
  wrap_workspace_key_with_params nonce workspace_id envelope_id key_version workspace_key
    passphrase (default_kdf salt).

Definition unwrap_workspace_key_with_passphrase (envelope : PassphraseKeyEnvelope)
    (passphrase : string) : SyncResult SymmetricKey :=
  _ ← reject_if (negb (bool_decide (env_recipient_type envelope = "passphrase")))
        (InvalidArgument "key envelope recipient_type must be passphrase");
  _ ← reject_if (negb (bool_decide (wrap_alg (env_wrap envelope) = "XChaCha20-Poly1305")))
        (Crypto "unsupported workspace key wrap alg");
  kek ← passphrase_kek passphrase (env_kdf envelope);
  nonce ← decode_fixed XCHACHA20_NONCE_LEN (wrap_nonce (env_wrap envelope)) "wrap nonce";
  ciphertext ← map_err (λ e, Serialization ("invalid wrap ciphertext: " +:+ e))
                 (base64_decode (wrap_ciphertext (env_wrap envelope)));
  aad ← canonical_json (KeyEnvelopeAad_passphrase (env_workspace_id envelope)
                          (env_envelope_id envelope));
  plaintext ← ok_or (xchacha_decrypt kek nonce aad ciphertext)
                (Crypto "workspace key unwrap failed");
  try_into_fixed WORKSPACE_KEY_LEN plaintext (Crypto "invalid workspace key length").

Definition unlock_workspace_key (remembered_key : option SymmetricKey)
    (passphrase_envelope : PassphraseKeyEnvelope) (passphrase : string)
  : SyncResult (SymmetricKey * WorkspaceKeySource) :=
  match remembered_key with
  | Some workspace_key => Ok (workspace_key, Remembered)
  | None =>
      workspace_key ← unwrap_workspace_key_with_passphrase passphrase_envelope passphrase;
      Ok (workspace_key, Passphrase)
  end.
End keys.

(** ** keys.rs: keychain slots *)

Definition sync_keychain_service (identifier : option string) : string :=
  keychain_service identifier "sync-keys".
Definition workspace_key_account (vault_id : string) : string :=
  "vault:" +:+ vault_id +:+ ":workspace-key:v1".
Definition passphrase_account (vault_id : string) : string :=
  "vault:" +:+ vault_id +:+ ":passphrase:v1".
Definition device_signing_key_account (vault_id : string) : string :=
  "vault:" +:+ vault_id +:+ ":device-signing-key:v1".
Definition device_encryption_key_account (vault_id : string) : string :=
  "vault:" +:+ vault_id +:+ ":device-encryption-key:v1".
Definition account_root_key_account (account_key_id : string) : string :=
  "sync-account:" +:+ account_key_id +:+ ":root-key:v1".
Definition account_recovery_phrase_account (account_key_id : string) : string :=
  "sync-account:" +:+ account_key_id +:+ ":recovery-phrase:v1".

Definition secure_storage_error (e : SecureStorageError) : SyncError :=
  match e with
  | Store message => Storage message
  | NotFound => Storage "key not found"
  end.

Section slots.
Context `{CryptoLib, KeyLib, Serialize KeyEnvelopeAad} {Keychain : Type} `{Keyring Keychain}.
Context (identifier : option string).

(** The shared shape of the [remember_*], [read_*] and [forget_*] functions. *)
Definition remember (account : string) (k : Keychain) (content : bytes) : SyncResult Keychain :=
  map_err secure_storage_error
    (write_bytes k (sync_keychain_service identifier) account content).
Definition read_slot {A} (account : string) (decode : bytes → SyncResult A) (k : Keychain)
  : SyncResult (option A) :=
  slot ← map_err secure_storage_error (read_bytes k (sync_keychain_service identifier) account);
  match slot with
  | None => Ok None
  | Some b => v ← decode b; Ok (Some v)
  end.
Definition forget (account : string) (k : Keychain) : SyncResult Keychain :=
  match delete k (sync_keychain_service identifier) account with
  | Ok k => Ok k
  | Err NotFound => Ok k
  | Err e => Err (secure_storage_error e)
  end.

(** [bytes.try_into()] to 32 bytes, [String::from_utf8] *)
Definition decode_key32 (message : string) (b : bytes) : SyncResult bytes :=
  try_into_fixed 32 b (Crypto message).
Definition decode_utf8 (message : string) (b : bytes) : SyncResult string :=
  if utf8_valid b then Ok b else Err (Crypto message).

Definition remember_workspace_key vault_id := remember (workspace_key_account vault_id).
Definition read_remembered_workspace_key vault_id :=
  read_slot (workspace_key_account vault_id)
    (decode_key32 "remembered workspace key has invalid length").
Definition forget_workspace_key vault_id := forget (workspace_key_account vault_id).

Definition remember_passphrase vault_id := remember (passphrase_account vault_id).
Definition read_remembered_passphrase vault_id :=
  read_slot (passphrase_account vault_id)
    (decode_utf8 "remembered passphrase is not valid UTF-8").
Definition forget_passphrase vault_id := forget (passphrase_account vault_id).

Definition remember_account_root_key account_key_id :=
  remember (account_root_key_account account_key_id).
Definition read_account_root_key account_key_id :=
  read_slot (account_root_key_account account_key_id)
    (decode_key32 "remembered account root key has invalid length").
Definition remember_account_recovery_phrase account_key_id :=
  remember (account_recovery_phrase_account account_key_id).
Definition read_account_recovery_phrase account_key_id :=
  read_slot (account_recovery_phrase_account account_key_id)
    (decode_utf8 "remembered recovery phrase is not valid UTF-8").

(** A signing key is its 32 secret bytes. *)
Definition remember_device_signing_key vault_id := remember (device_signing_key_account vault_id).
Definition read_device_signing_key vault_id :=
  read_slot (device_signing_key_account vault_id)
    (decode_key32 "remembered device signing key has invalid length").
Definition forget_device_signing_key vault_id := forget (device_signing_key_account vault_id).

Definition unlock_workspace_key_for_vault (k : Keychain) (vault_id : string)
    (passphrase_envelope : PassphraseKeyEnvelope) (passphrase : string)
  : SyncResult (SymmetricKey * WorkspaceKeySource) :=
  remembered_key ← read_remembered_workspace_key vault_id k;
  unlock_workspace_key remembered_key passphrase_envelope passphrase.
End slots.

(** ** Accounts name distinct slots *)

(** One keychain slot per secret. *)
Inductive Slot :=
| WorkspaceKeySlot (vault_id : string)
| PassphraseSlot (vault_id : string)
| SigningKeySlot (vault_id : string)
| EncryptionKeySlot (vault_id : string)
| RootKeySlot (account_key_id : string)
| RecoveryPhraseSlot (account_key_id : string).

Definition slot_account (s : Slot) : string :=
  match s with
  | WorkspaceKeySlot v => workspace_key_account v
  | PassphraseSlot v => passphrase_account v
  | SigningKeySlot v => device_signing_key_account v
  | EncryptionKeySlot v => device_encryption_key_account v
  | RootKeySlot a => account_root_key_account a
  | RecoveryPhraseSlot a => account_recovery_phrase_account a
  end.

Lemma str_app_suffix s a t b :
  s +:+ a = t +:+ b → String.length a ≤ String.length b →
  str_drop (String.length b - String.length a) b = a.
Proof.
  intros Heq Hle. pose proof (f_equal String.length Heq) as Hlen. rewrite !str_app_length in Hlen.
  transitivity (str_drop (String.length s) (s +:+ a)); [|by apply str_drop_app].
  rewrite Heq.
  replace (String.length s) with (String.length t + (String.length b - String.length a)) by lia.
  by rewrite <- str_drop_drop, str_drop_app.
Qed.

(** Texts that end in different closing labels differ. *)
Lemma str_app_suffix_ne s a t b :
  (if String.length a <=? String.length b
   then bool_decide (str_drop (String.length b - String.length a) b = a)
   else bool_decide (str_drop (String.length a - String.length b) a = b)) = false →
  s +:+ a ≠ t +:+ b.
Proof.
  intros Hd Heq. destruct (Nat.leb_spec (String.length a) (String.length b)).
  - apply bool_decide_eq_false in Hd. eauto using str_app_suffix.
  - apply bool_decide_eq_false in Hd. apply Hd. eapply str_app_suffix; [done|lia].
Qed.

#[export] Instance slot_account_inj : Inj (=) (=) slot_account.
Proof.
  intros s1 s2 Heq.
  destruct s1, s2; cbn [slot_account] in Heq;
    unfold workspace_key_account, passphrase_account, device_signing_key_account,
      device_encryption_key_account, account_root_key_account, account_recovery_phrase_account in Heq;
    first
      [ discriminate Heq
      | apply str_app_inv_l, str_app_inv_r in Heq; by subst
      | apply str_app_inv_l in Heq; exfalso; revert Heq; apply str_app_suffix_ne; reflexivity ].
Qed.

(** ** Properties *)

Section keys_properties.
Context `{CryptoLaws, KeyLaws, Serialize KeyEnvelopeAad}.

Lemma passphrase_kek_total passphrase kdf kek :
  passphrase_kek passphrase kdf = Ok kek → kdf_name kdf = "argon2id".
Proof. intros Hk. unfold passphrase_kek in Hk. ok_step Hk. by apply negb_false_iff, bool_decide_eq_true in Hok. Qed.

Lemma decode_fixed_encode n b field :
  String.length b = n → decode_fixed n (base64_encode b) field = Ok b.
Proof.
  intros <-. unfold decode_fixed. rewrite base64_decode_encode. simpl.
  unfold try_into_fixed. by rewrite Nat.eqb_refl.
Qed.

(** The passphrase envelope. Wrapping a 32-byte workspace key under a
    passphrase produces an envelope for that workspace from which the same
    passphrase recovers the key, and whose associated data names the workspace and
    envelope; an envelope with another recipient type or algorithm is refused
    before any key is derived. *)
Theorem unwrap_wrap_workspace_key nonce ws eid version key passphrase kdf env :
  String.length nonce = 24 → String.length key = 32 →
  wrap_workspace_key_with_params nonce ws eid version key passphrase kdf = Ok env →
  env_workspace_id env = ws ∧ env_envelope_id env = eid ∧ env_key_version env = version ∧
  unwrap_workspace_key_with_passphrase env passphrase = Ok key ∧
  ∀ env' p, env_recipient_type env' ≠ "passphrase" ∨ wrap_alg (env_wrap env') ≠ "XChaCha20-Poly1305" →
    ∃ e, unwrap_workspace_key_with_passphrase env' p = Err e ∧
      (e = InvalidArgument "key envelope recipient_type must be passphrase" ∨
       e = Crypto "unsupported workspace key wrap alg").
Proof.
  intros Hn Hkey Hw. unfold wrap_workspace_key_with_params, canonical_json in Hw.
  apply bind_Ok_inv in Hw as (kek & Hkek & Hw).
  apply bind_Ok_inv in Hw as (aad & Haad & Hw).
  apply bind_Ok_inv in Hw as (c & Hc%ok_or_Ok & [= <-]). split_and!; [done..| |].
  - unfold unwrap_workspace_key_with_passphrase, canonical_json. simpl.
    rewrite Hkek. simpl. rewrite decode_fixed_encode by done. simpl.
    rewrite base64_decode_encode. simpl. rewrite Haad. simpl.
    erewrite xchacha_decrypt_encrypt by done. simpl. unfold try_into_fixed. by rewrite Hkey.
  - intros env' p Hbad. unfold unwrap_workspace_key_with_passphrase.
    destruct (bool_decide (env_recipient_type env' = "passphrase")) eqn:Hr; simpl; [|by eauto].
    rewrite bool_decide_false; [by eauto|]. apply bool_decide_eq_true in Hr. naive_solver.
Qed.

(** Purposes and identifiers do not run into each other. *)
Lemma subkey_input_inj p q id id' :
  str_existsb (Ascii.eqb Ascii.zero) p = false → str_existsb (Ascii.eqb Ascii.zero) q = false →
  subkey_input p id = subkey_input q id' → p = q ∧ id = id'.
Proof.
  intros Hp Hq Heq. unfold subkey_input in Heq.
  change (nul +:+ id) with (String Ascii.zero id) in Heq.
  change (nul +:+ id') with (String Ascii.zero id') in Heq.
  pose proof (f_equal (split_on Ascii.zero) Heq) as Hs.
  rewrite !split_on_app in Hs by done. injection Hs as -> _. split; [done|].
  apply str_app_inv_l in Heq. by injection Heq.
Qed.
End keys_properties.

Definition key_purposes : list string :=
  [PACK_KEY_PURPOSE; COMMIT_BODY_KEY_PURPOSE; CHECKPOINT_KEY_PURPOSE; PATH_KEY_PURPOSE; WRAP_KEY_PURPOSE].

(** Key separation. For the derivation purposes of the engine, the inputs of
    the keyed hash are different for different purposes or workspaces, whatever
    the identifiers contain: no two derived keys of one workspace key share a hash
    input. *)
Theorem derived_keys_separated (p q ws ws' : string) :
  p ∈ key_purposes → q ∈ key_purposes → subkey_input p ws = subkey_input q ws' → p = q ∧ ws = ws'.
Proof.
  assert (Hn : ∀ p, p ∈ key_purposes → str_existsb (Ascii.eqb Ascii.zero) p = false).
  { intros r Hr. repeat (apply elem_of_cons in Hr as [->|Hr]; [vm_compute; reflexivity|]). set_solver. }
  intros Hp Hq. apply subkey_input_inj; auto.
Qed.

Section keychain_properties.
Context `{KeyLaws, CryptoLib, Serialize KeyEnvelopeAad} {Keychain : Type} `{KeyringLaws Keychain}.
Context (identifier : option string).
Implicit Types k : Keychain.

Lemma decode_encode_keyring_value (content : bytes) :
  decode_keyring_value (encode_keyring_value content) = Ok content.
Proof.
  unfold decode_keyring_value, encode_keyring_value.
  rewrite (proj2 (strip_prefix_Some _ _ _) eq_refl). by rewrite base64_decode_encode.
Qed.

Lemma remember_Ok account k content k' :
  remember identifier account k content = Ok k' →
  open_entry (sync_keychain_service identifier) account = Ok tt ∧
  set_password k (sync_keychain_service identifier) account (encode_keyring_value content) = Ok k'.
Proof.
  unfold remember, write_bytes. rewrite map_err_Ok.
  intros ([] & Ho & Hs)%bind_Ok_inv. by rewrite map_err_Ok in Hs.
Qed.

Lemma read_slot_remember {A} account (dec : bytes → SyncResult A) k content k' :
  remember identifier account k content = Ok k' →
  read_slot identifier account dec k' = (v ← dec content; Ok (Some v)).
Proof.
  intros [Ho Hs]%remember_Ok. unfold read_slot, read_bytes. rewrite Ho. simpl.
  rewrite (get_set _ _ _ _ _ Hs), decode_encode_keyring_value. done.
Qed.

Lemma read_slot_same {A} account (dec : bytes → SyncResult A) k k' :
  get_password k' (sync_keychain_service identifier) account =
    get_password k (sync_keychain_service identifier) account →
  read_slot identifier account dec k' = read_slot identifier account dec k.
Proof. intros Hg. unfold read_slot, read_bytes. by rewrite Hg. Qed.

Lemma remember_other {A} (s s' : Slot) (dec : bytes → SyncResult A) k content k' :
  remember identifier (slot_account s) k content = Ok k' → s' ≠ s →
  read_slot identifier (slot_account s') dec k' = read_slot identifier (slot_account s') dec k.
Proof.
  intros [_ Hs]%remember_Ok Hne. apply read_slot_same. eapply get_set_ne; [done|].
  intros [= Heq]. by apply (inj slot_account) in Heq.
Qed.

Lemma forget_cases account k k' :
  forget identifier account k = Ok k' →
  (delete_credential k (sync_keychain_service identifier) account = Ok k') ∨
  (k' = k ∧ delete_credential k (sync_keychain_service identifier) account = Err NoEntry).
Proof.
  unfold forget, delete. destruct (open_entry _ _) as [|[]] eqn:Ho; simpl; [| |].
  - destruct (delete_credential _ _ _) as [k1|[]]; simpl; intros [= <-]; auto.
  - done.
  - unfold open_entry in Ho. by destruct (entry_new _ _).
Qed.

Lemma forget_open account k k' :
  forget identifier account k = Ok k' → open_entry (sync_keychain_service identifier) account = Ok tt.
Proof.
  unfold forget, delete. destruct (open_entry _ _) as [[]|[]] eqn:Ho; [done|done|].
  unfold open_entry in Ho. by destruct (entry_new _ _).
Qed.

Lemma forget_reads_none {A} account (dec : bytes → SyncResult A) k k' :
  forget identifier account k = Ok k' → read_slot identifier account dec k' = Ok None.
Proof.
  intros Hf. pose proof (forget_open _ _ _ Hf) as Ho. unfold read_slot, read_bytes. rewrite Ho. simpl.
  assert (Hnone : get_password k' (sync_keychain_service identifier) account = Err NoEntry).
  { apply forget_cases in Hf as [Hd|[-> Hd]]; [by eapply get_delete|by apply delete_none]. }
  by rewrite Hnone.
Qed.

Lemma forget_other {A} (s s' : Slot) (dec : bytes → SyncResult A) k k' :
  forget identifier (slot_account s) k = Ok k' → s' ≠ s →
  read_slot identifier (slot_account s') dec k' = read_slot identifier (slot_account s') dec k.
Proof.
  intros Hf Hne. apply forget_cases in Hf as [Hd|[-> _]]; [|done].
  apply read_slot_same. eapply get_delete_ne; [done|].
  intros [= Heq]. by apply (inj slot_account) in Heq.
Qed.

(** Keychain slots. Secrets of different kinds, vaults or accounts live in
    different keychain slots: remembering one makes it readable with its decoding
    and leaves every other slot as it was; forgetting touches no other slot
    either, whether or not there was anything to forget. *)
Theorem keychain_slots_independent (s : Slot) k (content : bytes) k' :
  remember identifier (slot_account s) k content = Ok k' →
  (∀ A (dec : bytes → SyncResult A),
     read_slot identifier (slot_account s) dec k' = (v ← dec content; Ok (Some v))) ∧
  (∀ A (dec : bytes → SyncResult A) s', s' ≠ s →
     read_slot identifier (slot_account s') dec k' = read_slot identifier (slot_account s') dec k) ∧
  (∀ k'' A (dec : bytes → SyncResult A) s', forget identifier (slot_account s) k' = Ok k'' → s' ≠ s →
     read_slot identifier (slot_account s') dec k'' = read_slot identifier (slot_account s') dec k).
Proof.
  intros Hr. destruct (remember_Ok _ _ _ _ Hr) as [Ho Hs].
  assert (Hother : ∀ A (dec : bytes → SyncResult A) s', s' ≠ s →
    read_slot identifier (slot_account s') dec k' = read_slot identifier (slot_account s') dec k)
    by (intros; by eapply remember_other).
  split_and!; [intros; by eapply read_slot_remember|done|].
  intros k'' A dec s' Hf Hs'. rewrite <- Hother by done.
  by eapply forget_other.
Qed.

(** The life of a remembered workspace key. Once a 32-byte key is remembered
    for a vault, unlocking that vault yields the key without looking at the
    passphrase; after a successful [forget_workspace_key] of a stored key,
    unlocking falls back to the passphrase envelope and reports it as the source. *)
Theorem workspace_key_lifecycle k vault (key : SymmetricKey) k' env passphrase :
  String.length key = 32 → remember_workspace_key identifier vault k key = Ok k' →
  unlock_workspace_key_for_vault identifier k' vault env passphrase = Ok (key, Remembered) ∧
  ∀ k'', forget_workspace_key identifier vault k' = Ok k'' →
    unlock_workspace_key_for_vault identifier k'' vault env passphrase =
    (key' ← unwrap_workspace_key_with_passphrase env passphrase; Ok (key', Passphrase)).
Proof.
  intros Hkey Hr. unfold remember_workspace_key in Hr.
  unfold unlock_workspace_key_for_vault, read_remembered_workspace_key. split.
  - erewrite read_slot_remember by done. unfold decode_key32, try_into_fixed. by rewrite Hkey.
  - intros k'' Hf. destruct (remember_Ok _ _ _ _ Hr) as [Ho Hs]. unfold forget_workspace_key in Hf.
    assert (Hnone : get_password k'' (sync_keychain_service identifier) (workspace_key_account vault)
                    = Err NoEntry).
    { apply forget_cases in Hf as [Hd|[-> Hd]]; [by eapply get_delete|].
      rewrite (get_set _ _ _ _ _ Hs) in *. by apply delete_none in Hd; rewrite (get_set _ _ _ _ _ Hs) in Hd. }
    unfold read_slot, read_bytes. rewrite Ho. simpl. by rewrite Hnone.
Qed.
End keychain_properties.

(** ** Concrete instances *)
Module Toy.
Definition key_lib : KeyLib := {|
  base64_encode := λ b, b;
  base64_decode := λ s, Ok s;
  blake3_keyed_hash := λ k i, str_take 32 (k +:+ i +:+ zeros 32);
  argon2_params := λ _ _ _, Ok tt;
  argon2_hash := λ _ _ _ p s, Ok (str_take 32 (p +:+ s +:+ zeros 32)) |}.
Lemma key_laws : @KeyLaws key_lib.
Proof.
  split; [done|]. intros k i. unfold blake3_keyed_hash, key_lib. apply str_length_take.
  rewrite !str_app_length, Concrete.length_zeros. lia.
Qed.

Definition keyring : Keyring (gmap (string * string) string) := {|
  entry_new := λ _ _, Ok tt;
  get_password := λ k s a, ok_or (k !! (s, a)) NoEntry;
  set_password := λ k s a v, Ok (<[(s, a) := v]> k);
  delete_credential := λ k s a,
    if bool_decide (k !! (s, a) = None) then Err NoEntry else Ok (base.delete (s, a) k) |}.
Lemma keyring_laws : @KeyringLaws _ keyring.
Proof.
  split; simpl.
  - intros k s a v k' [= <-]. by rewrite lookup_insert_eq.
  - intros k s a v k' s' a' [= <-] Hne. by rewrite lookup_insert_ne.
  - intros k s a. case_bool_decide as Hk; [|done]. by rewrite Hk.
  - intros k s a k'. case_bool_decide; [done|]. intros [= <-]. by rewrite lookup_delete_eq.
  - intros k s a k' s' a'. case_bool_decide; [done|]. intros [= <-] Hne. by rewrite lookup_delete_ne.
Qed.
#[export] Instance envelope_aad_json : Serialize KeyEnvelopeAad := λ a,
  Ok (ka_workspace_id a +:+ "," +:+ ka_envelope_id a).
End Toy.

Module Examples.
#[local] Existing Instances Crypto.Toy.crypto Crypto.Toy.crypto_laws Toy.key_lib Toy.key_laws
  Toy.keyring Toy.keyring_laws.
Import Toy.

Definition key : SymmetricKey := "0123456789abcdef0123456789abcdef".
Definition nonce : bytes := "nnnnnnnnnnnnnnnnnnnnnnnn".
Definition envelope : PassphraseKeyEnvelope :=
  match wrap_workspace_key_with_passphrase nonce "salt-salt-salt-s" "w" "e" 1 key "open sesame" with
  | Ok e => e
  | Err _ => {| env_workspace_id := ""; env_envelope_id := ""; env_recipient_type := "";
                env_key_version := 0; env_kdf := default_kdf "";
                env_wrap := {| wrap_alg := ""; wrap_nonce := ""; wrap_ciphertext := "" |} |}
  end.

Lemma unwrap_wrap_witness :
  unwrap_workspace_key_with_passphrase envelope "open sesame" = Ok key ∧
  unwrap_workspace_key_with_passphrase envelope "wrong" = Err (Crypto "workspace key unwrap failed").
Proof.
  split; [|vm_compute; reflexivity].
  refine (proj1 (proj2 (proj2 (proj2
    (unwrap_wrap_workspace_key nonce "w" "e" 1 key "open sesame" (default_kdf "salt-salt-salt-s")
       envelope _ _ _))))); vm_compute; reflexivity.
Defined.

Lemma derived_keys_separated_witness :
  PACK_KEY_PURPOSE ∈ key_purposes ∧ (subkey_input PACK_KEY_PURPOSE "w" = subkey_input PACK_KEY_PURPOSE "w"
   → PACK_KEY_PURPOSE = PACK_KEY_PURPOSE ∧ "w" = "w").
Proof.
  assert (Hin : PACK_KEY_PURPOSE ∈ key_purposes) by constructor.
  split; [exact Hin|]. exact (derived_keys_separated PACK_KEY_PURPOSE PACK_KEY_PURPOSE "w" "w" Hin Hin).
Defined.

Definition chain1 : gmap (string * string) string :=
  match remember None (slot_account (PassphraseSlot "v")) ∅ "hunter2" with Ok k => k | Err _ => ∅ end.
Definition chain2 : gmap (string * string) string :=
  match remember_workspace_key None "v" chain1 key with Ok k => k | Err _ => ∅ end.

Lemma keychain_slots_witness :
  read_remembered_passphrase None "v" chain2 = Ok (Some "hunter2").
Proof.
  assert (Hr : remember None (slot_account (WorkspaceKeySlot "v")) chain1 key = Ok chain2)
    by (vm_compute; reflexivity).
  assert (Hne : PassphraseSlot "v" ≠ WorkspaceKeySlot "v") by discriminate.
  etransitivity;
    [exact (proj1 (proj2 (keychain_slots_independent None (WorkspaceKeySlot "v") chain1 key chain2 Hr))
              _ (decode_utf8 "remembered passphrase is not valid UTF-8") (PassphraseSlot "v") Hne)|].
  vm_compute. reflexivity.
Defined.

Lemma workspace_key_lifecycle_witness :
  unlock_workspace_key_for_vault None chain2 "v" envelope "wrong" = Ok (key, Remembered).
Proof.
  refine (proj1 (workspace_key_lifecycle None chain1 "v" key chain2 envelope "wrong" _ _));
    vm_compute; reflexivity.
Defined.
End Examples.
