(* ===== verification/AccountKeys.v ===== *)
(** * Account keys (sync/account_keys.rs)

    The account root key: its recovery-phrase envelope, the keys derived from it,
    and the three kinds of blobs encrypted under them (workspace metadata, the
    workspace key itself, device metadata). *)
From Stdlib Require Import Ascii String.
#[local] Set Warnings "-clear-no-such-hyp".
From S2P Require Import Prelude SyncErrors Crypto Keys.

Definition KEY_LEN : nat := 32.
Definition ACCOUNT_METADATA_KEY_PURPOSE : string := "kuku-sync-account-metadata-v1".
Definition ACCOUNT_WORKSPACE_WRAP_KEY_PURPOSE : string := "kuku-sync-account-workspace-wrap-v1".
Definition ACCOUNT_DEVICE_METADATA_KEY_PURPOSE : string := "kuku-sync-account-device-metadata-v1".

Record WrappedAccountRootKey := {
  aw_alg : string;
  aw_nonce : string;
  aw_ciphertext : string }.

Record AccountRecoveryKeyEnvelope := {
  ae_account_key_id : string;
  ae_envelope_id : string;
  ae_recipient_type : string;
  ae_key_version : Z;
  ae_kdf : Argon2idKdfParams;
  ae_wrap : WrappedAccountRootKey }.

Record WorkspaceDisplayMetadata := { wm_schema_version : Z; wm_name : string }.
Definition WorkspaceDisplayMetadata_new (name : string) : WorkspaceDisplayMetadata :=
  {| wm_schema_version := 1; wm_name := name |}.
Record DeviceDisplayMetadata := { dm_schema_version : Z; dm_name : string }.
Definition DeviceDisplayMetadata_new (name : string) : DeviceDisplayMetadata :=
  {| dm_schema_version := 1; dm_name := name |}.

Record AccountRecoveryEnvelopeAad := {
  ra_format : string;
  ra_version : Z;
  ra_account_key_id : string;
  ra_envelope_id : string;
  ra_recipient_type : string }.
Definition AccountRecoveryEnvelopeAad_new (account_key_id envelope_id : string) :=
  {| ra_format := "kuku.sync.account-key-envelope"; ra_version := 1;
     ra_account_key_id := account_key_id; ra_envelope_id := envelope_id;
     ra_recipient_type := "recovery_phrase" |}.

Record WorkspaceMetadataAad := {
  wa_format : string;
  wa_version : Z;
  wa_account_key_id : string;
  wa_workspace_id : string;
  wa_metadata_version : Z }.
Definition WorkspaceMetadataAad_new (account_key_id workspace_id : string) (metadata_version : Z) :=
  {| wa_format := "kuku.sync.workspace-metadata"; wa_version := 1;
     wa_account_key_id := account_key_id; wa_workspace_id := workspace_id;
     wa_metadata_version := metadata_version |}.

Record WorkspaceKeyForAccountAad := {
  ka_format : string;
  ka_version : Z;
  ka_account_key_id : string;
  ka_workspace_id : string;
  ka_workspace_key_version : Z }.
Definition WorkspaceKeyForAccountAad_new (account_key_id workspace_id : string)
    (workspace_key_version : Z) :=
  {| ka_format := "kuku.sync.workspace-key-for-account"; ka_version := 1;
     ka_account_key_id := account_key_id; ka_workspace_id := workspace_id;
     ka_workspace_key_version := workspace_key_version |}.

Record DeviceMetadataAad := {
  da_format : string;
  da_version : Z;
  da_account_key_id : string;
  da_workspace_id : string;
  da_device_id : string;
  da_metadata_version : Z }.
Definition DeviceMetadataAad_new (account_key_id workspace_id device_id : string)
    (metadata_version : Z) :=
  {| da_format := "kuku.sync.device-metadata"; da_version := 1;
     da_account_key_id := account_key_id; da_workspace_id := workspace_id;
     da_device_id := device_id; da_metadata_version := metadata_version |}.

(** The JSON forms the module writes and reads. *)
Class AccountSerde := {
  #[global] ser_recovery :: Serialize AccountRecoveryEnvelopeAad;
  #[global] ser_workspace_meta_aad :: Serialize WorkspaceMetadataAad;
  #[global] ser_workspace_key_aad :: Serialize WorkspaceKeyForAccountAad;
  #[global] ser_device_meta_aad :: Serialize DeviceMetadataAad;
  #[global] ser_workspace_meta :: Serialize WorkspaceDisplayMetadata;
  #[global] de_workspace_meta :: Deserialize WorkspaceDisplayMetadata;
  #[global] ser_device_meta :: Serialize DeviceDisplayMetadata;
  #[global] de_device_meta :: Deserialize DeviceDisplayMetadata }.

(** bip39: the English mnemonic of 32 bytes of entropy. *)
Class Bip39 := { mnemonic_from_entropy (entropy : bytes) : Result string string }.

Section account_keys.
Context `{Unicode, CryptoLib, KeyLib, AccountSerde, Bip39}.

(** [entropy]: the 32 random bytes. *)
Definition generate_recovery_phrase (entropy : bytes) : SyncResult string :=
  map_err (λ e, Crypto ("recovery phrase generation failed: " +:+ e))
    (mnemonic_from_entropy entropy).

Definition normalize_recovery_phrase (phrase : string) : string :=
  join " " (to_lowercase <$> split_whitespace phrase).

Definition require_recovery_phrase (recovery_phrase : string) : SyncResult string :=
  let normalized := normalize_recovery_phrase recovery_phrase in
  _ ← reject_if (str_is_empty normalized) (InvalidArgument "recovery phrase must not be empty");
  Ok normalized.

Definition derive_account_subkey (account_root_key : SymmetricKey) (purpose account_key_id : string)
  : SymmetricKey :=
  blake3_keyed_hash account_root_key (subkey_input purpose account_key_id).
Definition account_metadata_key root account_key_id : SymmetricKey :=
  derive_account_subkey root ACCOUNT_METADATA_KEY_PURPOSE account_key_id.
Definition account_workspace_wrap_key root account_key_id : SymmetricKey :=
  derive_account_subkey root ACCOUNT_WORKSPACE_WRAP_KEY_PURPOSE account_key_id.
Definition account_device_metadata_key root account_key_id : SymmetricKey :=
  derive_account_subkey root ACCOUNT_DEVICE_METADATA_KEY_PURPOSE account_key_id.

Definition wrap_account_root_key_with_params (nonce : bytes) (account_key_id envelope_id : string)
    (key_version : Z) (account_root_key : SymmetricKey) (recovery_phrase : string)
    (kdf : Argon2idKdfParams) : SyncResult AccountRecoveryKeyEnvelope :=
  normalized_phrase ← require_recovery_phrase recovery_phrase;
  kek ← passphrase_kek normalized_phrase kdf;
  aad ← canonical_json (AccountRecoveryEnvelopeAad_new account_key_id envelope_id);
  ciphertext ← ok_or (xchacha_encrypt kek nonce aad account_root_key)
                 (Crypto "account root key wrap failed");
  Ok {| ae_account_key_id := account_key_id; ae_envelope_id := envelope_id;
        ae_recipient_type := "recovery_phrase"; ae_key_version := key_version; ae_kdf := kdf;
        ae_wrap := {| aw_alg := "XChaCha20-Poly1305"; aw_nonce := base64_encode nonce;
                      aw_ciphertext := base64_encode ciphertext |} |}.

Definition wrap_account_root_key_with_recovery_phrase (nonce salt : bytes)
    (account_key_id envelope_id : string) (key_version : Z) (account_root_key : SymmetricKey)
    (recovery_phrase : string) : SyncResult AccountRecoveryKeyEnvelope :=
  wrap_account_root_key_with_params nonce account_key_id envelope_id key_version account_root_key
    recovery_phrase (default_kdf salt).

Definition unwrap_account_root_key_with_recovery_phrase (envelope : AccountRecoveryKeyEnvelope)
    (recovery_phrase : string) : SyncResult SymmetricKey :=
  _ ← reject_if (negb (bool_decide (ae_recipient_type envelope = "recovery_phrase")))
        (InvalidArgument "account key envelope recipient_type must be recovery_phrase");
  _ ← reject_if (negb (bool_decide (aw_alg (ae_wrap envelope) = "XChaCha20-Poly1305")))
        (Crypto "unsupported account root key wrap alg");
  normalized_phrase ← require_recovery_phrase recovery_phrase;
  kek ← passphrase_kek normalized_phrase (ae_kdf envelope);
  nonce ← decode_fixed XCHACHA20_NONCE_LEN (aw_nonce (ae_wrap envelope)) "wrap nonce";
  ciphertext ← map_err (λ e, Serialization ("invalid wrap ciphertext: " +:+ e))
                 (base64_decode (aw_ciphertext (ae_wrap envelope)));
  aad ← canonical_json (AccountRecoveryEnvelopeAad_new (ae_account_key_id envelope)
                          (ae_envelope_id envelope));
  plaintext ← ok_or (xchacha_decrypt kek nonce aad ciphertext)
                (Crypto "account recovery phrase unwrap failed");
  try_into_fixed KEY_LEN plaintext (Crypto "invalid account root key length").

(** In the [encrypt_*] functions the metadata is serialized before the blob's
    nonce is drawn and the associated data is written. *)
Definition encrypt_workspace_metadata (nonce : bytes) (account_root_key : SymmetricKey)
    (account_key_id workspace_id : string) (metadata_version : Z)
    (metadata : WorkspaceDisplayMetadata) : SyncResult bytes :=
  json ← to_vec metadata;
  encrypt_blob nonce (account_metadata_key account_root_key account_key_id)
    (WorkspaceMetadataAad_new account_key_id workspace_id metadata_version) json.

Definition decrypt_workspace_metadata (account_root_key : SymmetricKey)
    (account_key_id workspace_id : string) (metadata_version : Z) (encrypted_metadata : bytes)
  : SyncResult WorkspaceDisplayMetadata :=
  plaintext ← decrypt_blob (account_metadata_key account_root_key account_key_id)
    (WorkspaceMetadataAad_new account_key_id workspace_id metadata_version) encrypted_metadata;
  from_slice plaintext.

Definition encrypt_workspace_key_for_account (nonce : bytes) (account_root_key : SymmetricKey)
    (account_key_id workspace_id : string) (workspace_key_version : Z)
    (workspace_key : SymmetricKey) : SyncResult bytes :=
  encrypt_blob nonce (account_workspace_wrap_key account_root_key account_key_id)
    (WorkspaceKeyForAccountAad_new account_key_id workspace_id workspace_key_version)
    workspace_key.

Definition decrypt_workspace_key_for_account (account_root_key : SymmetricKey)
    (account_key_id workspace_id : string) (workspace_key_version : Z)
    (encrypted_workspace_key : bytes) : SyncResult SymmetricKey :=
  plaintext ← decrypt_blob (account_workspace_wrap_key account_root_key account_key_id)
    (WorkspaceKeyForAccountAad_new account_key_id workspace_id workspace_key_version)
    encrypted_workspace_key;
  try_into_fixed KEY_LEN plaintext (Crypto "invalid workspace key length").

Definition encrypt_device_metadata (nonce : bytes) (account_root_key : SymmetricKey)
    (account_key_id workspace_id device_id : string) (metadata_version : Z)
    (metadata : DeviceDisplayMetadata) : SyncResult bytes :=
  json ← to_vec metadata;
  encrypt_blob nonce (account_device_metadata_key account_root_key account_key_id)
    (DeviceMetadataAad_new account_key_id workspace_id device_id metadata_version) json.

Definition decrypt_device_metadata (account_root_key : SymmetricKey)
    (account_key_id workspace_id device_id : string) (metadata_version : Z)
    (encrypted_metadata : bytes) : SyncResult DeviceDisplayMetadata :=
  plaintext ← decrypt_blob (account_device_metadata_key account_root_key account_key_id)
    (DeviceMetadataAad_new account_key_id workspace_id device_id metadata_version)
    encrypted_metadata;
  from_slice plaintext.
End account_keys.

Section account_properties.
Context `{Unicode, CryptoLaws, KeyLaws, AccountSerde}.
Context `{!SerdeLaws WorkspaceDisplayMetadata, !SerdeLaws DeviceDisplayMetadata}.

Lemma account_envelope_opens nonce account eid version root phrase phrase' kdf env :
  String.length nonce = 24 → String.length root = 32 →
  normalize_recovery_phrase phrase = normalize_recovery_phrase phrase' →
  wrap_account_root_key_with_params nonce account eid version root phrase kdf = Ok env →
  normalize_recovery_phrase phrase ≠ "" ∧ ae_account_key_id env = account ∧ ae_envelope_id env = eid ∧
  ae_recipient_type env = "recovery_phrase" ∧ ae_key_version env = version ∧
  unwrap_account_root_key_with_recovery_phrase env phrase' = Ok root.
Proof.
  intros Hn Hroot Hwords Hw. unfold wrap_account_root_key_with_params, canonical_json in Hw.
  apply bind_Ok_inv in Hw as (norm & Hnorm & Hw).
  apply bind_Ok_inv in Hw as (kek & Hkek & Hw).
  apply bind_Ok_inv in Hw as (aad & Haad & Hw).
  apply bind_Ok_inv in Hw as (c & Hc%ok_or_Ok & [= <-]).
  assert (Hnorm' : require_recovery_phrase phrase' = Ok norm)
    by (rewrite <- Hnorm; unfold require_recovery_phrase; by rewrite Hwords).
  split_and!; try done.
  - unfold require_recovery_phrase in Hnorm. ok_step Hnorm. intros Habs. by rewrite Habs in Hok.
  - unfold unwrap_account_root_key_with_recovery_phrase, canonical_json. simpl.
    rewrite Hnorm'. simpl. rewrite Hkek. simpl. rewrite decode_fixed_encode by done. simpl.
    rewrite base64_decode_encode. simpl. rewrite Haad. simpl.
    erewrite xchacha_decrypt_encrypt by done. simpl. unfold try_into_fixed. by rewrite Hroot.
Qed.

(** Recovery of the account. Wrapping a 32-byte account root key under a
    recovery phrase succeeds only for a phrase with at least one word, and the
    envelope opens to the key for every phrase with the same words up to white
    space and letter case. *)
Theorem account_recovery_roundtrip nonce account eid version root phrase phrase' kdf env :
  String.length nonce = 24 → String.length root = 32 →
  to_lowercase <$> split_whitespace phrase = to_lowercase <$> split_whitespace phrase' →
  wrap_account_root_key_with_params nonce account eid version root phrase kdf = Ok env →
  normalize_recovery_phrase phrase ≠ "" ∧ ae_account_key_id env = account ∧
  unwrap_account_root_key_with_recovery_phrase env phrase' = Ok root.
Proof.
  intros Hn Hroot Hwords Hw.
  destruct (account_envelope_opens nonce account eid version root phrase phrase' kdf env)
    as (? & ? & _ & _ & _ & ?); [done..| |done|done].
  unfold normalize_recovery_phrase. by rewrite Hwords.
Qed.

Lemma encrypt_decrypt_blob {T} `{Serialize T} nonce key (aad : T) plaintext blob :
  String.length nonce = 24 → encrypt_blob nonce key aad plaintext = Ok blob →
  decrypt_blob key aad blob = Ok plaintext.
Proof.
  intros Hn He. pose proof He as (a & c & Ha & Hc & _)%encrypt_blob_layout.
  rewrite (decrypt_encrypted key key aad aad plaintext nonce blob a a) by done.
  rewrite bool_decide_true by done. rewrite Hc. simpl. by erewrite xchacha_decrypt_encrypt.
Qed.

Lemma workspace_metadata_opens nonce root account ws version (wm : WorkspaceDisplayMetadata) b :
  String.length nonce = 24 → encrypt_workspace_metadata nonce root account ws version wm = Ok b →
  decrypt_workspace_metadata root account ws version b = Ok wm.
Proof.
  intros Hn (json & Hj & He)%bind_Ok_inv. unfold decrypt_workspace_metadata.
  rewrite (encrypt_decrypt_blob _ _ _ _ _ Hn He). by apply from_slice_to_vec.
Qed.
Lemma device_metadata_opens nonce root account ws device version (dm : DeviceDisplayMetadata) b :
  String.length nonce = 24 → encrypt_device_metadata nonce root account ws device version dm = Ok b →
  decrypt_device_metadata root account ws device version b = Ok dm.
Proof.
  intros Hn (json & Hj & He)%bind_Ok_inv. unfold decrypt_device_metadata.
  rewrite (encrypt_decrypt_blob _ _ _ _ _ Hn He). by apply from_slice_to_vec.
Qed.
Lemma workspace_key_opens nonce root account ws version (key : SymmetricKey) b :
  String.length nonce = 24 → String.length key = 32 →
  encrypt_workspace_key_for_account nonce root account ws version key = Ok b →
  decrypt_workspace_key_for_account root account ws version b = Ok key.
Proof.
  intros Hn Hkey He. unfold decrypt_workspace_key_for_account.
  rewrite (encrypt_decrypt_blob _ _ _ _ _ Hn He). simpl. unfold try_into_fixed. by rewrite Hkey.
Qed.

(** Account blobs. Workspace metadata, device metadata and a 32-byte workspace
    key decrypt to what was encrypted for the same account, workspace, device and
    version. *)
Theorem account_blobs_roundtrip nonce root account ws device version
    (wm : WorkspaceDisplayMetadata) (dm : DeviceDisplayMetadata) (key : SymmetricKey) :
  String.length nonce = 24 → String.length key = 32 →
  (∀ b, encrypt_workspace_metadata nonce root account ws version wm = Ok b →
     decrypt_workspace_metadata root account ws version b = Ok wm) ∧
  (∀ b, encrypt_device_metadata nonce root account ws device version dm = Ok b →
     decrypt_device_metadata root account ws device version b = Ok dm) ∧
  (∀ b, encrypt_workspace_key_for_account nonce root account ws version key = Ok b →
     decrypt_workspace_key_for_account root account ws version b = Ok key).
Proof.
  intros Hn Hkey. split_and!; intros b;
    eauto using workspace_metadata_opens, device_metadata_opens, workspace_key_opens.
Qed.
End account_properties.

Module Examples.
Import Crypto.Toy.
#[local] Existing Instances Crypto.Toy.crypto Crypto.Toy.crypto_laws Keys.Toy.key_lib
  Keys.Toy.key_laws Concrete.ascii_unicode.

Definition serde : AccountSerde := {|
  ser_recovery := λ a, Ok (ra_account_key_id a);
  ser_workspace_meta_aad := λ a, Ok (wa_workspace_id a);
  ser_workspace_key_aad := λ a, Ok (ka_workspace_id a);
  ser_device_meta_aad := λ a, Ok (da_device_id a);
  ser_workspace_meta := λ m, write_text (wm_schema_version m, wm_name m);
  de_workspace_meta := λ b,
    '(v, n) ← read_text b; Ok {| wm_schema_version := v; wm_name := n |};
  ser_device_meta := λ m, write_text (dm_schema_version m, dm_name m);
  de_device_meta := λ b,
    '(v, n) ← read_text b; Ok {| dm_schema_version := v; dm_name := n |} |}.
#[local] Existing Instance serde.

Definition root : SymmetricKey := "0123456789abcdef0123456789abcdef".
Definition nonce : bytes := "nnnnnnnnnnnnnnnnnnnnnnnn".
Definition kdf : Argon2idKdfParams := default_kdf "salt-salt-salt-s".

Lemma workspace_meta_laws : SerdeLaws WorkspaceDisplayMetadata.
Proof.
  intros [v n] b Hb. apply read_write_text in Hb. unfold from_slice, de_workspace_meta, serde.
  by rewrite Hb.
Qed.
Lemma device_meta_laws : SerdeLaws DeviceDisplayMetadata.
Proof.
  intros [v n] b Hb. apply read_write_text in Hb. unfold from_slice, de_device_meta, serde.
  by rewrite Hb.
Qed.

Lemma account_blobs_witness :
  ∃ b, encrypt_workspace_key_for_account nonce root "acct" "w" 1 root = Ok b ∧
    decrypt_workspace_key_for_account root "acct" "w" 1 b = Ok root.
Proof.
  eexists. split; [vm_compute; reflexivity|].
  assert (Hn : String.length nonce = 24) by reflexivity.
  assert (Hk : String.length root = 32) by reflexivity.
  pose proof workspace_meta_laws as Hw. pose proof device_meta_laws as Hd.
  refine (proj2 (proj2 (account_blobs_roundtrip nonce root "acct" "w" "d" 1
    (WorkspaceDisplayMetadata_new "Notes") (DeviceDisplayMetadata_new "Laptop") root Hn Hk)) _ _).
  vm_compute. reflexivity.
Defined.

Lemma account_recovery_witness :
  ∃ env, wrap_account_root_key_with_params nonce "acct" "env" 1 root "abandon  Ability able" kdf = Ok env ∧
    unwrap_account_root_key_with_recovery_phrase env " ABANDON ability able " = Ok root.
Proof.
  eexists. split; [vm_compute; reflexivity|].
  refine (proj2 (proj2 (account_recovery_roundtrip nonce "acct" "env" 1 root "abandon  Ability able"
                          " ABANDON ability able " kdf _ _ _ _ _))); vm_compute; reflexivity.
Defined.
End Examples.
