(* ===== verification/Packer.v ===== *)
(** * Packs (sync/packer.rs)

    The plain pack (a canonical tar archive with a JSON index), and the encrypted
    pack around it. The archive, compression and JSON libraries are external. *)
From Stdlib Require Import Ascii String.
#[local] Set Warnings "-clear-no-such-hyp".
From S2P Require Import Prelude SyncErrors Paths SyncDb Scanner Planner Crypto Keys.

Definition PACK_INDEX_PATH : string := "pack-index.json".
Definition ENTRIES_DIR : string := "entries".

Record PackIndexEntry := {
  ie_entry_id : string;
  ie_plaintext_hash : string;
  ie_size_bytes : Z }.

Record PackIndex := {
  pi_format : string;
  pi_version : Z;
  pi_pack_id : string;
  pi_entries : list PackIndexEntry }.

Record UnpackedPack := { up_index : PackIndex; up_entries : gmap string bytes }.

Record EncryptedPack := {
  ep_object_id : string;
  ep_metadata : EncryptedBlobMetadata;
  ep_blob : bytes }.

(** ** External code *)

(** A ustar header as [append_canonical_file] fills it in. *)
Record TarHeader := {
  h_is_file : bool;
  h_size : Z;
  h_mode : Z;
  h_uid : Z;
  h_gid : Z;
  h_mtime : Z }.
Definition canonical_header (content : bytes) : TarHeader :=
  {| h_is_file := true; h_size := byte_len content; h_mode := 384 (* 0o600 *);
     h_uid := 0; h_gid := 0; h_mtime := 0 |}.

(** What the reader sees of an archive member: [header().entry_type().is_file()],
    [path()] and [read_to_end]. *)
Record TarEntry := {
  te_is_file : bool;
  te_path : SyncResult bytes;
  te_content : SyncResult bytes }.

(** tar, zstd; I/O errors already converted to [SyncError::Storage]. *)
Class PackLib := {
  tar_append (out : bytes) (header : TarHeader) (path : string) (content : bytes) : SyncResult bytes;
  tar_finish (out : bytes) : SyncResult bytes;
  tar_entries (pack : bytes) : SyncResult (list (SyncResult TarEntry));
  zstd_encode_all (b : bytes) : SyncResult bytes;
  zstd_decode_all (b : bytes) : SyncResult bytes }.

Section packer.
Context `{Blake3, CryptoLib, KeyLib, PackLib}.
Context `{Serialize PackIndex, Deserialize PackIndex, Serialize PackAad}.

Definition entry_id_char (ch : ascii) : bool :=
  is_ascii_alphanumeric ch || Ascii.eqb ch "-" || Ascii.eqb ch "_" || Ascii.eqb ch ".".

Definition validate_entry_id (entry_id : string) : SyncResult unit :=
  reject_if (str_is_empty entry_id || bool_decide (entry_id = ".") || bool_decide (entry_id = "..")
             || str_existsb (Ascii.eqb slash) entry_id || str_existsb (Ascii.eqb backslash) entry_id
             || negb (str_forallb entry_id_char entry_id))
    (InvalidArgument "invalid pack entry id").

Definition append_canonical_file (out : bytes) (file : string * bytes) : SyncResult bytes :=
  tar_append out (canonical_header file.2) file.1 file.2.

Definition index_entry (e : PackEntryInput) : PackIndexEntry :=
  {| ie_entry_id := pe_entry_id e; ie_plaintext_hash := blake3_hex (pe_plaintext e);
     ie_size_bytes := Z.min (byte_len (pe_plaintext e)) i64_max |}.

Definition pack_index (pack_id : string) (entries : list PackEntryInput) : PackIndex :=
  {| pi_format := "kuku.sync.pack"; pi_version := 1; pi_pack_id := pack_id;
     pi_entries := index_entry <$> entries |}.

Definition entry_file (e : PackEntryInput) : string * bytes :=
  (ENTRIES_DIR +:+ "/" +:+ pe_entry_id e, pe_plaintext e).

Definition create_plain_pack (pack_id : string) (entries : list PackEntryInput) : SyncResult bytes :=
  let entries := sort_by (leb_on pe_entry_id) entries in
  _ ← try_fold (λ _ e, validate_entry_id (pe_entry_id e)) tt entries;
  _ ← reject_if (existsb (λ pair, bool_decide (pe_entry_id pair.1 = pe_entry_id pair.2))
                   (zip entries (tail entries)))
        (InvalidArgument "duplicate pack entry id");
  index_json ← to_vec (pack_index pack_id entries);
  out ← append_canonical_file "" (PACK_INDEX_PATH, index_json);
  out ← try_fold append_canonical_file out (entry_file <$> entries);
  tar_finish out.

Definition tar_component (parts : list string) (c : Component) : SyncResult (list string) :=
  match c with
  | Normal value =>
      _ ← reject_if (negb (utf8_valid value)) (Crypto "pack tar path is not utf-8");
      _ ← reject_if (str_is_empty value) (Crypto "pack tar path has empty segment");
      Ok (parts ++ [value])
  | _ => Err (Crypto "pack tar path traversal is not allowed")
  end.

Definition validate_tar_path (path : bytes) : SyncResult string :=
  parts ← try_fold tar_component [] (components path);
  match parts with
  | [] => Err (Crypto "pack tar path is empty")
  | [a] => if bool_decide (a = PACK_INDEX_PATH) then Ok PACK_INDEX_PATH
           else Err (Crypto "unexpected pack tar path")
  | [a; b] =>
      if bool_decide (a = ENTRIES_DIR) then
        _ ← validate_entry_id b; Ok (ENTRIES_DIR +:+ "/" +:+ b)
      else Err (Crypto "unexpected pack tar path")
  | _ => Err (Crypto "unexpected pack tar path")
  end.

Definition read_tar_file (files : gmap string bytes) (entry : SyncResult TarEntry)
  : SyncResult (gmap string bytes) :=
  entry ← entry;
  _ ← reject_if (negb (te_is_file entry)) (Crypto "pack contains non-file tar entry");
  raw ← te_path entry;
  path ← validate_tar_path raw;
  content ← te_content entry;
  _ ← reject_if (bool_decide (is_Some (files !! path))) (Crypto ("duplicate pack tar path: " +:+ path));
  Ok (<[path := content]> files).

Definition read_canonical_tar_files (pack : bytes) : SyncResult (gmap string bytes) :=
  entries ← tar_entries pack;
  try_fold read_tar_file ∅ entries.

Definition unpack_entry (files : gmap string bytes) (entries : gmap string bytes)
    (item : PackIndexEntry) : SyncResult (gmap string bytes) :=
  _ ← validate_entry_id (ie_entry_id item);
  content ← ok_or (files !! (ENTRIES_DIR +:+ "/" +:+ ie_entry_id item))
              (Crypto ("pack entry missing: " +:+ ie_entry_id item));
  _ ← reject_if (negb (Z.min (byte_len content) i64_max =? ie_size_bytes item)%Z)
        (Crypto ("pack entry size mismatch: " +:+ ie_entry_id item));
  _ ← reject_if (negb (bool_decide (blake3_hex content = ie_plaintext_hash item)))
        (Crypto ("pack entry hash mismatch: " +:+ ie_entry_id item));
  Ok (<[ie_entry_id item := content]> entries).

Definition unpack_plain_pack (pack : bytes) : SyncResult UnpackedPack :=
  files ← read_canonical_tar_files pack;
  index_bytes ← ok_or (files !! PACK_INDEX_PATH) (Crypto "pack index missing");
  index ← from_slice (T := PackIndex) index_bytes;
  _ ← reject_if (negb (bool_decide (pi_format index = "kuku.sync.pack")) || negb (pi_version index =? 1)%Z)
        (UnsupportedVersion (pi_version index));
  entries ← try_fold (unpack_entry files) ∅ (pi_entries index);
  _ ← reject_if (negb (size files =? length (pi_entries index) + 1))
        (Crypto "pack contains unreferenced entries");
  Ok {| up_index := index; up_entries := entries |}.

Definition object_key (workspace_key : SymmetricKey) (workspace_id object_kind : string)
  : SyncResult SymmetricKey :=
  if bool_decide (object_kind = "content_pack") then Ok (pack_key workspace_key workspace_id)
  else if bool_decide (object_kind = "checkpoint_pack") then Ok (checkpoint_key workspace_key workspace_id)
  else Err (InvalidArgument "unsupported pack object kind").

(** [nonce]: the 24 random bytes drawn by [encrypt_blob]. *)
Definition encrypt_pack (nonce : bytes) (workspace_key : SymmetricKey)
    (workspace_id object_id object_kind commit_id : string) (entries : list PackEntryInput)
  : SyncResult EncryptedPack :=
  pack ← create_plain_pack object_id entries;
  compressed ← zstd_encode_all pack;
  key ← object_key workspace_key workspace_id object_kind;
  blob ← encrypt_blob nonce key (PackAad_new workspace_id object_id object_kind commit_id) compressed;
  Ok {| ep_object_id := object_id; ep_metadata := encrypted_blob_metadata blob; ep_blob := blob |}.

Definition decrypt_pack (workspace_key : SymmetricKey)
    (workspace_id object_id object_kind commit_id : string) (blob : bytes) : SyncResult UnpackedPack :=
  key ← object_key workspace_key workspace_id object_kind;
  compressed ← decrypt_blob key (PackAad_new workspace_id object_id object_kind commit_id) blob;
  plain ← zstd_decode_all compressed;
  unpacked ← unpack_plain_pack plain;
  _ ← reject_if (negb (bool_decide (pi_pack_id (up_index unpacked) = object_id)))
        (Crypto "pack id mismatch");
  Ok unpacked.
End packer.

(** What the archive and compression libraries document: an archive built from
    regular files under plain relative paths reads back as those files in order,
    and decompression inverts compression. *)
Definition plain_path (path : string) : Prop :=
  components path = Normal <$> split_on slash path.
Class PackLaws `{PackLib} : Prop := {
  tar_read_back files out pack :
    Forall (λ f, plain_path f.1) files →
    try_fold append_canonical_file "" files = Ok out → tar_finish out = Ok pack →
    tar_entries pack = Ok ((λ f, Ok {| te_is_file := true; te_path := Ok f.1; te_content := Ok f.2 |})
                           <$> files);
  zstd_read_back b c : zstd_encode_all b = Ok c → zstd_decode_all c = Ok b }.

(** ** Entry identifiers and archive paths *)

Section packer_proofs.
Context `{Blake3, CryptoLaws, KeyLib, PackLaws}.
Context `{!Serialize PackIndex, !Deserialize PackIndex, !Serialize PackAad, !SerdeLaws PackIndex}.

Lemma valid_entry_id id :
  validate_entry_id id = Ok tt →
  id ≠ "" ∧ id ≠ "." ∧ id ≠ ".." ∧ str_existsb (Ascii.eqb slash) id = false ∧
  str_existsb (Ascii.eqb backslash) id = false ∧ utf8_valid id = true.
Proof.
  unfold validate_entry_id. rewrite reject_if_Ok, !orb_false_iff, !bool_decide_eq_false, negb_false_iff.
  intros [[[[[He Hd] Hdd] Hs] Hb] Hc]. split_and!; try done.
  - intros ->. done.
  - apply utf8_valid_ascii. eapply str_forallb_impl; [|exact Hc].
    intros a. by destruct a as [[] [] [] [] [] [] [] []].
Qed.

Lemma component_of_plain seg :
  seg ≠ "" → seg ≠ "." → seg ≠ ".." → component_of_segment seg = Some (Normal seg).
Proof.
  intros. unfold component_of_segment. rewrite bool_decide_false by naive_solver.
  by rewrite bool_decide_false.
Qed.

Lemma entry_path_components id :
  validate_entry_id id = Ok tt →
  split_on slash (ENTRIES_DIR +:+ "/" +:+ id) = [ENTRIES_DIR; id] ∧
  components (ENTRIES_DIR +:+ "/" +:+ id) = [Normal ENTRIES_DIR; Normal id].
Proof.
  intros (Hne & Hd & Hdd & Hs & _)%valid_entry_id.
  assert (Hsplit : split_on slash (ENTRIES_DIR +:+ "/" +:+ id) = [ENTRIES_DIR; id]).
  { change ("/" +:+ id) with (String slash id). rewrite split_on_app by done.
    by rewrite split_on_no_sep_id. }
  split; [done|]. unfold components. rewrite Hsplit. simpl. by rewrite component_of_plain.
Qed.

Lemma validate_entry_path id :
  validate_entry_id id = Ok tt →
  validate_tar_path (ENTRIES_DIR +:+ "/" +:+ id) = Ok (ENTRIES_DIR +:+ "/" +:+ id).
Proof.
  intros Hv. pose proof (valid_entry_id id Hv) as (Hne & _ & _ & _ & _ & Hutf).
  unfold validate_tar_path. rewrite (proj2 (entry_path_components id Hv)). simpl.
  rewrite Hutf. destruct id as [|a id]; [done|]. simpl. by rewrite Hv.
Qed.

(** ** Reading back *)

Definition regular (f : string * bytes) : SyncResult TarEntry :=
  Ok {| te_is_file := true; te_path := Ok f.1; te_content := Ok f.2 |}.

Lemma read_tar_files_ok l m :
  Forall (λ f, validate_tar_path f.1 = Ok f.1) l → NoDup l.*1 → (∀ f, f ∈ l → m !! f.1 = None) →
  try_fold read_tar_file m (regular <$> l) = Ok (insert_all m l).
Proof.
  revert m. induction l as [|[p c] l IH]; intros m Hv Hnd Hm; [done|].
  apply Forall_cons in Hv as [Hp Hv]. rewrite fmap_cons in Hnd. apply NoDup_cons in Hnd as [Hpl Hnd].
  rewrite fmap_cons. simpl in *. rewrite Hp. simpl.
  assert (Hmp : m !! p = None) by (apply (Hm (p, c)); constructor).
  rewrite bool_decide_false by (rewrite Hmp; by intros [? ?]). simpl. apply IH; [done..|].
  intros [p' c'] Hin. simpl. rewrite lookup_insert_ne; [apply (Hm (p', c')); by constructor|].
  intros <-. apply Hpl. apply list_elem_of_fmap. by exists (p, c').
Qed.

Lemma unpack_entries_ok files es m :
  Forall (λ e, validate_entry_id (pe_entry_id e) = Ok tt ∧
               files !! (ENTRIES_DIR +:+ "/" +:+ pe_entry_id e) = Some (pe_plaintext e)) es →
  try_fold (unpack_entry files) m (index_entry <$> es) =
  Ok (insert_all m ((λ e, (pe_entry_id e, pe_plaintext e)) <$> es)).
Proof.
  revert m. induction es as [|e es IH]; intros m Hes; [done|].
  apply Forall_cons in Hes as [[Hv Hf] Hes]. rewrite !fmap_cons. simpl.
  unfold unpack_entry at 2. simpl. rewrite Hv, Hf. simpl.
  rewrite Z.eqb_refl. simpl. rewrite bool_decide_true by done. simpl. by apply IH.
Qed.

Lemma adjacent_distinct l :
  StronglySorted (λ x y, leb_on pe_entry_id x y = true) l →
  existsb (λ pair, bool_decide (pe_entry_id pair.1 = pe_entry_id pair.2)) (zip l (tail l)) = false →
  NoDup (pe_entry_id <$> l).
Proof.
  induction 1 as [|x l Hl IH Hx]; [constructor|]. intros Hadj. rewrite fmap_cons. constructor.
  - intros (y & Heq & Hy)%list_elem_of_fmap. destruct l as [|z l]; [set_solver|].
    simpl in Hadj. apply orb_false_iff in Hadj as [Hxz%bool_decide_eq_false _]. apply Hxz.
    rewrite Forall_forall in Hx. apply str_leb_antisym; [apply (Hx z); constructor|].
    apply elem_of_cons in Hy as [->|Hy]; [rewrite Heq; apply str_leb_refl|].
    apply StronglySorted_inv in Hl as [_ Hz]. rewrite Forall_forall in Hz.
    rewrite Heq. apply (Hz y Hy).
  - apply IH. destruct l as [|z l]; [done|]. simpl in Hadj. by apply orb_false_iff in Hadj as [_ ?].
Qed.

Lemma validate_all es :
  try_fold (λ _ e, validate_entry_id (pe_entry_id e)) tt es = Ok tt →
  Forall (λ e, validate_entry_id (pe_entry_id e) = Ok tt) es.
Proof.
  induction es as [|e es IH]; simpl; [constructor|]. intros ([] & Hv & Hes)%bind_Ok_inv.
  constructor; auto.
Qed.

(** The archive's members. *)
Definition pack_files (json : bytes) (es : list PackEntryInput) : list (string * bytes) :=
  (PACK_INDEX_PATH, json) :: (entry_file <$> es).

Lemma pack_files_ok json es :
  Forall (λ e, validate_entry_id (pe_entry_id e) = Ok tt) es → NoDup (pe_entry_id <$> es) →
  Forall (λ f, plain_path f.1 ∧ validate_tar_path f.1 = Ok f.1) (pack_files json es) ∧
  NoDup (pack_files json es).*1.
Proof.
  intros Hv Hnd. split.
  - constructor; [split; vm_compute; reflexivity|]. apply Forall_fmap.
    eapply Forall_impl; [exact Hv|]. intros e He. simpl. split.
    + unfold plain_path. destruct (entry_path_components _ He) as [-> ->]. done.
    + by apply validate_entry_path.
  - unfold pack_files. rewrite fmap_cons. constructor.
    + intros (f & Hf & (e & -> & _)%list_elem_of_fmap)%list_elem_of_fmap. done.
    + rewrite <- list_fmap_compose. apply (NoDup_fmap_via pe_entry_id (λ id, ENTRIES_DIR +:+ "/" +:+ id)).
      * intros a b Heq. by apply (str_app_inv_l "entries/").
      * done.
      * done.
Qed.

Lemma create_plain_pack_inv pid entries pack :
  create_plain_pack pid entries = Ok pack →
  let es := sort_by (leb_on pe_entry_id) entries in
  Forall (λ e, validate_entry_id (pe_entry_id e) = Ok tt) es ∧ NoDup (pe_entry_id <$> es) ∧
  ∃ json, to_vec (pack_index pid es) = Ok json ∧
    tar_entries pack = Ok (regular <$> pack_files json es).
Proof.
  intros Hc es. unfold create_plain_pack in Hc. fold es in Hc.
  apply bind_Ok_inv in Hc as ([] & Hv%validate_all & Hc).
  apply bind_Ok_inv in Hc as ([] & Hadj%reject_if_Ok & Hc).
  apply bind_Ok_inv in Hc as (json & Hj & Hc).
  apply bind_Ok_inv in Hc as (out & Ho & Hc).
  apply bind_Ok_inv in Hc as (out' & Ho' & Hc).
  assert (Hnd : NoDup (pe_entry_id <$> es)) by (apply adjacent_distinct; [apply sort_by_sorted, _|done]).
  split_and!; [done..|]. exists json. split; [done|].
  destruct (pack_files_ok json es Hv Hnd) as [Hok _].
  apply (tar_read_back _ out'); [|simpl; by rewrite Ho|done].
  eapply Forall_impl; [exact Hok|]. by intros f [? _].
Qed.

Lemma unpack_create pid entries pack :
  create_plain_pack pid entries = Ok pack →
  let es := sort_by (leb_on pe_entry_id) entries in
  unpack_plain_pack pack =
  Ok {| up_index := pack_index pid es;
        up_entries := insert_all ∅ ((λ e, (pe_entry_id e, pe_plaintext e)) <$> es) |}.
Proof.
  intros (Hv & Hnd & json & Hj & Htar)%create_plain_pack_inv es. fold es in Hv, Hnd, Hj, Htar.
  destruct (pack_files_ok json es Hv Hnd) as [Hok Hpaths].
  unfold unpack_plain_pack, read_canonical_tar_files. rewrite Htar. cbn [mbind result_bind].
  assert (Hread : try_fold read_tar_file ∅ (regular <$> pack_files json es) =
                  Ok (insert_all ∅ (pack_files json es))).
  { apply read_tar_files_ok; [|done|done]. eapply Forall_impl; [exact Hok|]. by intros f [_ ?]. }
  rewrite Hread. cbn [mbind result_bind].
  rewrite (lookup_insert_all _ PACK_INDEX_PATH json) by (done || constructor).
  cbn [ok_or mbind result_bind]. rewrite (from_slice_to_vec _ _ Hj). cbn [mbind result_bind].
  rewrite bool_decide_true by done. change (pi_version (pack_index pid es) =? 1)%Z with true.
  cbn [negb orb reject_if mbind result_bind].
  change (pi_entries (pack_index pid es)) with (index_entry <$> es).
  rewrite unpack_entries_ok.
  - cbn [mbind result_bind]. rewrite size_insert_all by done.
    unfold pack_files. simpl length. rewrite !length_fmap.
    by rewrite (proj2 (Nat.eqb_eq _ _)) by lia.
  - apply Forall_forall. intros e He. rewrite Forall_forall in Hv. split; [by apply Hv|].
    apply lookup_insert_all; [done|]. unfold pack_files. apply elem_of_cons. right.
    apply list_elem_of_fmap. by exists e.
Qed.

(** An encrypted pack reads back as its entries. *)
Lemma decrypt_encrypted_pack nonce k ws oid kind cid entries p :
  String.length nonce = 24 →
  encrypt_pack nonce k ws oid kind cid entries = Ok p →
  ∃ u, decrypt_pack k ws oid kind cid (ep_blob p) = Ok u ∧
    pi_pack_id (up_index u) = oid ∧
    pi_entries (up_index u) = index_entry <$> sort_by (leb_on pe_entry_id) entries ∧
    dom (up_entries u) = list_to_set (pe_entry_id <$> entries) ∧
    ∀ e, e ∈ entries → up_entries u !! pe_entry_id e = Some (pe_plaintext e).
Proof.
  intros Hn He. unfold encrypt_pack in He.
  apply bind_Ok_inv in He as (pack & Hpack & He).
  apply bind_Ok_inv in He as (z & Hz & He).
  apply bind_Ok_inv in He as (key & Hkey & He).
  apply bind_Ok_inv in He as (blob & Hblob & [= <-]). simpl.
  destruct (create_plain_pack_inv _ _ _ Hpack) as (Hv & Hnd & _).
  rewrite sort_by_perm in Hv, Hnd.
  eexists. unfold decrypt_pack. rewrite Hkey. cbn [mbind result_bind].
  rewrite (decrypt_encrypt_same key _ _ _ _ Hn Hblob).
  cbn [mbind result_bind]. rewrite (zstd_read_back _ _ Hz). cbn [mbind result_bind].
  rewrite (unpack_create _ _ _ Hpack). cbn [mbind result_bind up_index up_entries].
  rewrite bool_decide_true by done. cbn [negb reject_if mbind result_bind].
  assert (Hnds : NoDup ((λ e, (pe_entry_id e, pe_plaintext e)) <$>
                        sort_by (leb_on pe_entry_id) entries).*1).
  { rewrite <- list_fmap_compose. eapply (NoDup_fmap_via pe_entry_id id); [apply _|done|].
    by rewrite sort_by_perm. }
  split_and!; [done|done|done| |].
  - cbn [up_entries]. rewrite insert_all_union, (right_id_L ∅ (∪)), dom_list_to_map_L by done.
    rewrite <- list_fmap_compose. apply leibniz_equiv. intros x. rewrite !elem_of_list_to_set.
    by rewrite sort_by_perm.
  - intros e Hin. cbn [up_entries]. apply lookup_insert_all; [done|].
    apply list_elem_of_fmap. exists e. split; [done|]. by apply elem_of_sort_by.
Qed.

(** C28: encrypted packs. A pack written by [encrypt_pack] under a fresh 24-byte
    nonce decrypts, under the same identifiers, to exactly the given entries: their
    identifiers were valid and pairwise different, the index lists them in
    identifier order with the hash and size of each, and the map holds each
    plaintext under its identifier. Asking for another object, kind of the same
    key, workspace or commit whose associated data hashes differently is refused. *)
Theorem decrypt_encrypt_pack nonce k ws oid kind cid entries p :
  String.length nonce = 24 →
  encrypt_pack nonce k ws oid kind cid entries = Ok p →
  (∃ u, decrypt_pack k ws oid kind cid (ep_blob p) = Ok u ∧
    pi_pack_id (up_index u) = oid ∧
    pi_entries (up_index u) = index_entry <$> sort_by (leb_on pe_entry_id) entries ∧
    dom (up_entries u) = list_to_set (pe_entry_id <$> entries) ∧
    ∀ e, e ∈ entries → up_entries u !! pe_entry_id e = Some (pe_plaintext e)) ∧
  Forall (λ e, validate_entry_id (pe_entry_id e) = Ok tt) entries ∧
  NoDup (pe_entry_id <$> entries) ∧
  ∀ ws' oid' cid' a a', to_vec (PackAad_new ws oid kind cid) = Ok a →
    to_vec (PackAad_new ws' oid' kind cid') = Ok a' → sha256 a ≠ sha256 a' →
    decrypt_pack k ws' oid' kind cid' (ep_blob p) = Err (Crypto "aad hash mismatch").
Proof.
  intros Hn He. split; [by eapply decrypt_encrypted_pack|]. unfold encrypt_pack in He.
  apply bind_Ok_inv in He as (pack & Hpack & He).
  apply bind_Ok_inv in He as (z & Hz & He).
  apply bind_Ok_inv in He as (key & Hkey & He).
  apply bind_Ok_inv in He as (blob & Hblob & [= <-]). simpl.
  destruct (create_plain_pack_inv _ _ _ Hpack) as (Hv & Hnd & _).
  rewrite sort_by_perm in Hv, Hnd. split_and!; [done|done|].
  intros ws' oid' cid' a a' Ha Ha' Hne. unfold decrypt_pack.
  destruct (object_key k ws' kind) as [key'|e] eqn:Hk'.
  - cbn [mbind result_bind].
    by rewrite (decrypt_encrypt_other key _ (PackAad_new ws' oid' kind cid') _ _ _ key' a a' Hn Hblob Ha Ha' Hne).
  - unfold object_key in *. repeat case_bool_decide; done.
Qed.

Lemma unpack_entries_sound files items m m' :
  try_fold (unpack_entry files) m items = Ok m' →
  (∀ i, i ∈ items → ∃ content, m' !! ie_entry_id i = Some content ∧
     files !! (ENTRIES_DIR +:+ "/" +:+ ie_entry_id i) = Some content ∧
     validate_entry_id (ie_entry_id i) = Ok tt ∧ blake3_hex content = ie_plaintext_hash i ∧
     Z.min (byte_len content) i64_max = ie_size_bytes i) ∧
  dom m' = dom m ∪ list_to_set (ie_entry_id <$> items) ∧
  (∀ id c, m !! id = Some c → files !! (ENTRIES_DIR +:+ "/" +:+ id) = Some c → m' !! id = Some c).
Proof.
  revert m. induction items as [|i items IH]; intros m; simpl.
  - intros [= <-]. split_and!; [set_solver|set_solver|done].
  - intros (m1 & Hstep & Hrest)%bind_Ok_inv. unfold unpack_entry in Hstep.
    apply bind_Ok_inv in Hstep as ([] & Hv & Hstep).
    apply bind_Ok_inv in Hstep as (c & Hc%ok_or_Ok & Hstep).
    apply bind_Ok_inv in Hstep as ([] & Hsz%reject_if_Ok%negb_false_iff%Z.eqb_eq & Hstep).
    apply bind_Ok_inv in Hstep as ([] & Hh%reject_if_Ok%negb_false_iff%bool_decide_eq_true & [= <-]).
    destruct (IH _ Hrest) as (Hall & Hdom & Hkeep). split_and!.
    + intros j [->|Hj]%elem_of_cons; [|by apply Hall].
      exists c. split_and!; try done. apply Hkeep; [by rewrite lookup_insert_eq|done].
    + rewrite Hdom, dom_insert_L. set_solver.
    + intros id c' Hm Hf. apply Hkeep; [|done]. destruct (decide (id = ie_entry_id i)) as [->|Hne].
      * rewrite lookup_insert_eq. congruence.
      * by rewrite lookup_insert_ne.
Qed.

(** C29: unpacking verifies. Whatever the archive, [unpack_plain_pack] succeeds
    only with format "kuku.sync.pack" version 1 and then returns exactly one
    plaintext per identifier of the index, under an identifier without separators
    or dot segments, whose BLAKE3 hash and size are the ones the index states. *)
Theorem unpack_plain_pack_sound pack u :
  unpack_plain_pack pack = Ok u →
  pi_format (up_index u) = "kuku.sync.pack" ∧ pi_version (up_index u) = 1%Z ∧
  dom (up_entries u) = list_to_set (ie_entry_id <$> pi_entries (up_index u)) ∧
  ∀ i, i ∈ pi_entries (up_index u) → ∃ content,
    up_entries u !! ie_entry_id i = Some content ∧ blake3_hex content = ie_plaintext_hash i ∧
    Z.min (byte_len content) i64_max = ie_size_bytes i ∧
    ie_entry_id i ≠ ".." ∧ str_existsb (Ascii.eqb slash) (ie_entry_id i) = false ∧
    str_existsb (Ascii.eqb backslash) (ie_entry_id i) = false.
Proof.
  intros Hu. unfold unpack_plain_pack in Hu.
  apply bind_Ok_inv in Hu as (files & _ & Hu). apply bind_Ok_inv in Hu as (ib & _ & Hu).
  apply bind_Ok_inv in Hu as (index & _ & Hu).
  apply bind_Ok_inv in Hu as ([] & [Hf%negb_false_iff%bool_decide_eq_true
    Hver%negb_false_iff%Z.eqb_eq]%reject_if_Ok%orb_false_iff & Hu).
  apply bind_Ok_inv in Hu as (m & Hm & Hu). apply bind_Ok_inv in Hu as ([] & _ & [= <-]). simpl.
  destruct (unpack_entries_sound _ _ _ _ Hm) as (Hall & Hdom & _).
  split_and!; [done|done|rewrite Hdom; set_solver|].
  intros i Hi. destruct (Hall i Hi) as (c & Hc & _ & Hv & Hh & Hs). exists c.
  apply valid_entry_id in Hv as (_ & _ & ? & ? & ? & _). done.
Qed.
End packer_proofs.

(** ** Concrete instances *)
Module Examples.
Import Crypto.Toy.
#[local] Existing Instances Crypto.Toy.crypto Crypto.Toy.crypto_laws Keys.Toy.key_lib
  Concrete.pad_blake3.

(** JSON and archives are lists of byte strings, written reversibly. *)
Definition number (z : Z) : string := pos_text (encode z).
Definition read_number (s : string) : Z := default 0%Z (decode (text_pos s)).
Lemma read_write_number z : read_number (number z) = z.
Proof. unfold read_number, number. by rewrite text_pos_text, decode_encode. Qed.

Fixpoint index_items (es : list PackIndexEntry) : list string :=
  match es with
  | [] => []
  | e :: es => ie_entry_id e :: ie_plaintext_hash e :: number (ie_size_bytes e) :: index_items es
  end.
Fixpoint items_index (items : list string) : list PackIndexEntry :=
  match items with
  | i :: h :: s :: items =>
      {| ie_entry_id := i; ie_plaintext_hash := h; ie_size_bytes := read_number s |} :: items_index items
  | _ => []
  end.
#[local] Instance index_json : Serialize PackIndex := λ i,
  Ok (write_items (pi_format i :: number (pi_version i) :: pi_pack_id i :: index_items (pi_entries i))).
#[local] Instance json_index : Deserialize PackIndex := λ b,
  match read_items b with
  | f :: v :: p :: es => Ok {| pi_format := f; pi_version := read_number v; pi_pack_id := p;
                               pi_entries := items_index es |}
  | _ => Err (Serialization "invalid pack index")
  end.
Lemma index_laws : SerdeLaws PackIndex.
Proof.
  intros [f v p es] b [= <-]. unfold from_slice, json_index. rewrite read_write_items. simpl.
  rewrite read_write_number. do 2 f_equal. induction es as [|[] es IH]; simpl; [done|].
  by rewrite read_write_number, IH.
Qed.

Fixpoint pairs (items : list string) : list (string * string) :=
  match items with p :: c :: items => (p, c) :: pairs items | _ => [] end.
Fixpoint unpairs (l : list (string * string)) : list string :=
  match l with (p, c) :: l => p :: c :: unpairs l | [] => [] end.
Lemma pairs_unpairs l : pairs (unpairs l) = l.
Proof. induction l as [|[] l IH]; simpl; [done|]. by rewrite IH. Qed.
Definition members (b : bytes) : list (string * string) := pairs (read_items b).
Definition archive (l : list (string * string)) : bytes := write_items (unpairs l).
Lemma members_archive l : members (archive l) = l.
Proof. unfold members, archive. by rewrite read_write_items, pairs_unpairs. Qed.

#[local] Instance pack_lib : PackLib := {|
  tar_append := λ out _ p c, Ok (archive (members out ++ [(p, c)]));
  tar_finish := λ out, Ok out;
  tar_entries := λ b, Ok (regular <$> members b);
  zstd_encode_all := λ b, Ok b;
  zstd_decode_all := λ b, Ok b |}.
Lemma pack_laws : PackLaws.
Proof.
  split; [|by intros b c [= <-]].
  assert (Hgen : ∀ files out out',
    try_fold append_canonical_file out files = Ok out' → members out' = members out ++ files).
  { induction files as [|[p c] files IH]; intros out out'; simpl.
    - intros [= <-]. by rewrite app_nil_r.
    - intros ->%IH. by rewrite members_archive, <- app_assoc. }
  intros files out pack _ Hf [= <-]. unfold tar_entries, pack_lib.
  by rewrite (Hgen files "" out Hf).
Qed.
#[local] Existing Instances index_laws pack_laws.

Definition key : SymmetricKey := "0123456789abcdef0123456789abcdef".
Definition nonce : bytes := "nnnnnnnnnnnnnnnnnnnnnnnn".
Definition entry (id content : string) : PackEntryInput :=
  {| pe_entry_id := id; pe_plaintext := content |}.
Definition entries : list PackEntryInput := [entry "entry_b" "# Second"; entry "entry_a" "# First"].
Definition pack : EncryptedPack :=
  match encrypt_pack nonce key "w" "o1" "content_pack" "c1" entries with
  | Ok p => p
  | Err _ => {| ep_object_id := ""; ep_metadata := encrypted_blob_metadata ""; ep_blob := "" |}
  end.

Lemma decrypt_encrypt_pack_witness :
  (∃ u, decrypt_pack key "w" "o1" "content_pack" "c1" (ep_blob pack) = Ok u ∧
     up_entries u !! "entry_a" = Some "# First") ∧
  decrypt_pack key "w" "o2" "content_pack" "c1" (ep_blob pack) = Err (Crypto "aad hash mismatch").
Proof.
  assert (Hn : String.length nonce = 24) by reflexivity.
  assert (He : encrypt_pack nonce key "w" "o1" "content_pack" "c1" entries = Ok pack)
    by (vm_compute; reflexivity).
  destruct (decrypt_encrypt_pack nonce key "w" "o1" "content_pack" "c1" entries pack Hn He)
    as ((u & Hu & _ & _ & _ & Hall) & _ & _ & Hbad).
  assert (Hin : entry "entry_a" "# First" ∈ entries) by (apply elem_of_cons; right; constructor).
  split.
  - exists u. split; [exact Hu|]. exact (Hall _ Hin).
  - eapply (Hbad "w" "o2" "c1"); [reflexivity|reflexivity|]. vm_compute. discriminate.
Defined.

(** An index that lists one entry twice hides another member of the archive from
    the count that should refuse unreferenced entries. *)
Definition crafted_index : PackIndex :=
  {| pi_format := "kuku.sync.pack"; pi_version := 1; pi_pack_id := "o1";
     pi_entries := [index_entry (entry "a" "A"); index_entry (entry "a" "A")] |}.
Definition crafted_pack : bytes :=
  match to_vec crafted_index with
  | Ok json => archive [(PACK_INDEX_PATH, json); ("entries/a", "A"); ("entries/b", "B")]
  | Err _ => ""
  end.
Definition crafted_result : UnpackedPack :=
  {| up_index := crafted_index; up_entries := {["a" := "A"]} |}.

Lemma unpack_sound_witness :
  unpack_plain_pack crafted_pack = Ok crafted_result ∧
  dom (up_entries crafted_result) = list_to_set (ie_entry_id <$> pi_entries crafted_index).
Proof.
  assert (Hu : unpack_plain_pack crafted_pack = Ok crafted_result) by (vm_compute; reflexivity).
  split; [exact Hu|]. exact (proj1 (proj2 (proj2 (unpack_plain_pack_sound crafted_pack crafted_result Hu)))).
Defined.

Example duplicate_index_hides_member :
  (∃ files, read_canonical_tar_files crafted_pack = Ok files ∧ files !! "entries/b" = Some "B") ∧
  unpack_plain_pack crafted_pack = Ok crafted_result ∧ up_entries crafted_result !! "b" = None.
Proof.
  split; [eexists; split; [vm_compute; reflexivity|vm_compute; reflexivity]|].
  split; vm_compute; reflexivity.
Qed.
End Examples.
