(* ===== verification/Watcher.v ===== *)
(** * The vault watcher (vault/watcher.rs, vault/mutation_sync.rs)

    The ledger of mutations the application expects to see again, the mapping of
    file-system notifications to change events with its cache of path kinds and
    its pending rename, and one turn of the watcher thread. Instants are in
    milliseconds; what [fs::metadata] answers is an argument of each step. *)
From Stdlib Require Import Ascii String.
#[local] Set Warnings "-clear-no-such-hyp".
From S2P Require Import Prelude Paths.

Definition PENDING_RENAME_TIMEOUT_MS : Z := 600.
Definition EXPECTED_MUTATION_TTL_MS : Z := 2000.

(** [now.duration_since(at)], [at.elapsed()]: zero when the clock went back. *)
Definition elapsed (now at_ms : Z) : Z := Z.max 0 (now - at_ms).

(** models.rs *)
Record FileChangeEvent := {
  c_kind : string;
  c_path : string;
  c_is_dir : bool;
  c_old_path : option string }.

(** ** The ledger of expected mutations *)

Inductive ExpectedMutationKind := KWrite | KDelete | KRename.

Record ExpectedMutationToken := { token_id : Z }.

Record ExpectedFsMutation := {
  m_id : Z;
  m_kind : ExpectedMutationKind;
  m_path : string;
  m_old_path : option string;
  m_is_dir : bool;
  m_created_at : Z }.

(** [next_id] is an [AtomicU64]. *)
Record ExpectedMutationLedger := { l_entries : list ExpectedFsMutation; l_next_id : Z }.
Definition empty_ledger : ExpectedMutationLedger := {| l_entries := []; l_next_id := 0 |}.

Definition record (now : Z) (l : ExpectedMutationLedger) (kind : ExpectedMutationKind)
    (path : string) (old_path : option string) (is_dir : bool)
  : ExpectedMutationLedger * ExpectedMutationToken :=
  let id := ((l_next_id l + 1) mod 2 ^ 64)%Z in
  ({| l_entries := l_entries l ++
        [{| m_id := id; m_kind := kind; m_path := path; m_old_path := old_path;
            m_is_dir := is_dir; m_created_at := now |}];
      l_next_id := id |},
   {| token_id := id |}).

Definition record_write now l path is_dir := record now l KWrite path None is_dir.
Definition record_delete now l path is_dir := record now l KDelete path None is_dir.
Definition record_rename now l old_path new_path is_dir :=
  record now l KRename new_path (Some old_path) is_dir.

Definition cancel (l : ExpectedMutationLedger) (token : ExpectedMutationToken)
  : ExpectedMutationLedger :=
  {| l_entries := List.filter (λ e, negb (m_id e =? token_id token)%Z) (l_entries l);
     l_next_id := l_next_id l |}.

Definition paths_match (left right : string) : bool :=
  bool_decide (left = right) || eq_ignore_ascii_case left right.

Definition kind_in (kinds : list string) (event : FileChangeEvent) : bool :=
  existsb (String.eqb (c_kind event)) kinds.

Definition expected_mutation_matches_event (entry : ExpectedFsMutation) (event : FileChangeEvent)
  : bool :=
  match m_kind entry with
  | KWrite =>
      kind_in ["create"; "modify"] event && eqb (m_is_dir entry) (c_is_dir event)
      && paths_match (m_path entry) (c_path event)
  | KDelete =>
      (kind_in ["delete"] event && eqb (m_is_dir entry) (c_is_dir event)
       && paths_match (m_path entry) (c_path event))
      || (kind_in ["rename"] event
          && match c_old_path event with
             | Some old_path => paths_match (m_path entry) old_path
             | None => false
             end)
  | KRename =>
      if kind_in ["create"; "modify"] event
      then eqb (m_is_dir entry) (c_is_dir event) && paths_match (m_path entry) (c_path event)
      else kind_in ["rename"] event && eqb (m_is_dir entry) (c_is_dir event)
           && paths_match (m_path entry) (c_path event)
           && match m_old_path entry, c_old_path event with
              | Some expected, Some actual => paths_match expected actual
              | _, None => true
              | None, Some _ => true
              end
  end.

(** [Vec::remove] of the first element that satisfies [p]. *)
Fixpoint remove_first {A} (p : A → bool) (l : list A) : option (list A) :=
  match l with
  | [] => None
  | x :: l => if p x then Some l else cons x <$> remove_first p l
  end.

Definition live (now : Z) (entry : ExpectedFsMutation) : bool :=
  (elapsed now (m_created_at entry) <=? EXPECTED_MUTATION_TTL_MS)%Z.

Definition consume_matching (now : Z) (l : ExpectedMutationLedger) (event : FileChangeEvent)
  : bool * ExpectedMutationLedger :=
  let entries := List.filter (live now) (l_entries l) in
  match remove_first (λ e, expected_mutation_matches_event e event) entries with
  | Some rest => (true, {| l_entries := rest; l_next_id := l_next_id l |})
  | None => (false, {| l_entries := entries; l_next_id := l_next_id l |})
  end.

(** *** mutation_sync.rs *)

Inductive AppMutation :=
| MWrite (path : string) (is_dir : bool)
| MDelete (path : string) (is_dir : bool)
| MRename (old_path new_path : string) (is_dir : bool).

Record RecordedAppMutation := {
  rm_mutation : AppMutation;
  rm_token : option ExpectedMutationToken }.

(** [AppMutationSync::record] *)
Definition record_app (now : Z) (l : ExpectedMutationLedger) (mutation : AppMutation)
  : ExpectedMutationLedger * RecordedAppMutation :=
  let '(l, token) :=
    match mutation with
    | MWrite path is_dir => record_write now l path is_dir
    | MDelete path is_dir => record_delete now l path is_dir
    | MRename old_path new_path is_dir => record_rename now l old_path new_path is_dir
    end in
  (l, {| rm_mutation := mutation; rm_token := Some token |}).

(** [AppMutationSync::cancel] *)
Definition cancel_app (l : ExpectedMutationLedger) (recorded : RecordedAppMutation)
  : ExpectedMutationLedger :=
  match rm_token recorded with Some token => cancel l token | None => l end.

(** The calls [AppMutationSync::notify_applied] makes on the search state. *)
Inductive SearchNotice :=
| NotifyWritten (path source : string)
| NotifyRemoved (path : string) (is_dir : bool) (source : string)
| NotifyRenamed (old_path new_path : string) (is_dir : bool) (source : string).
Definition notify_applied (source : string) (recorded : RecordedAppMutation) : option SearchNotice :=
  match rm_mutation recorded with
  | MWrite path is_dir => if is_dir then None else Some (NotifyWritten path source)
  | MDelete path is_dir => Some (NotifyRemoved path is_dir source)
  | MRename old_path new_path is_dir => Some (NotifyRenamed old_path new_path is_dir source)
  end.

(** ** The cache of path kinds *)

Record PendingRename := { p_path : AbsPath; p_is_dir : bool; p_at : Z }.

(** [HashMap<PathBuf, bool>]: is the path a directory? *)
Abbreviation PathKindCache := (gmap AbsPath bool).

(** [Path::starts_with] compares whole components. *)
Definition path_starts_with (p prefix : AbsPath) : bool := bool_decide (prefix `prefix_of` p).

Definition is_ignored (root path : AbsPath) : bool :=
  if path_starts_with path root then should_ignore_path (drop (length root) path) else false.

(** [to_relative_path(root, path)]; a path outside the root stays absolute. *)
Definition relative_path (root path : AbsPath) : string :=
  if path_starts_with path root then to_relative_path (drop (length root) path)
  else "/" +:+ to_relative_path path.

Definition infer_path_kind (stat : AbsPath → option bool) (path : AbsPath)
    (hinted_is_dir : option bool) (cache : PathKindCache) : bool :=
  match hinted_is_dir with
  | Some d => d
  | None => match stat path with
            | Some d => d
            | None => default false (cache !! path)
            end
  end.

Definition remove_cached_path (cache : PathKindCache) (path : AbsPath) (is_dir : bool) : PathKindCache :=
  if negb is_dir then delete path cache
  else filter (λ kv, path_starts_with kv.1 path = false) cache.

(** One iteration of the loop over the descendants. *)
Definition remap_descendant (from to : AbsPath) (cache : PathKindCache) (kv : AbsPath * bool)
  : PathKindCache :=
  <[to ++ drop (length from) kv.1 := kv.2]> (delete kv.1 cache).

Definition rename_cached_path (cache : PathKindCache) (from to : AbsPath) (is_dir : bool)
  : PathKindCache :=
  if negb is_dir then <[to := false]> (delete from cache)
  else
    let descendants := map_to_list (filter (λ kv, path_starts_with kv.1 from = true) cache) in
    let cache := foldl (remap_descendant from to) cache descendants in
    match cache !! to with Some _ => cache | None => <[to := true]> cache end.

(** [path.to_string_lossy()] of an absolute path *)
Definition path_text (p : AbsPath) : string := "/" +:+ slash_join p.

(** Some key equal to the path up to ASCII case; which one, when there are
    several, depends on the map's iteration order. *)
Definition find_case_only_cached_path (cache : PathKindCache) (path : AbsPath) : option AbsPath :=
  fst <$> find (λ kv, bool_decide (kv.1 ≠ path) &&
                      eq_ignore_ascii_case (path_text kv.1) (path_text path))
               (map_to_list cache).

(** ** Notifications *)

(** The part of [notify::EventKind] the watcher distinguishes; [KindUnhandled]
    stands for the kinds its last arm ignores. *)
Inductive CreateKind := CreateAny | CreateFile | CreateFolder | CreateOther.
Inductive RemoveKind := RemoveAny | RemoveFile | RemoveFolder | RemoveOther.
Inductive RenameMode := RenameAny | RenameTo | RenameFrom | RenameBoth | RenameOther.
Inductive ModifyKind := ModifyAny | ModifyData | ModifyMetadata | ModifyName (m : RenameMode) | ModifyOther.
Inductive EventKind := Create (k : CreateKind) | Modify (k : ModifyKind) | Remove (k : RemoveKind) | KindUnhandled.
Record Event := { ev_kind : EventKind; ev_paths : list AbsPath }.

Definition mk_event (kind path : string) (is_dir : bool) (old_path : option string) : FileChangeEvent :=
  {| c_kind := kind; c_path := path; c_is_dir := is_dir; c_old_path := old_path |}.

(** The state [map_event] updates, and its result. *)
Abbreviation Mapped := (option FileChangeEvent * option PendingRename * PathKindCache)%type.

Section map_event.
Context (stat : AbsPath → option bool) (now : Z) (root : AbsPath).

Definition maybe_cleanup_pending (pending : option PendingRename) (cache : PathKindCache) : Mapped :=
  match pending with
  | Some p =>
      if (PENDING_RENAME_TIMEOUT_MS <? elapsed now (p_at p))%Z
      then (Some (mk_event "delete" (relative_path root (p_path p)) (p_is_dir p) None),
            None, remove_cached_path cache (p_path p) (p_is_dir p))
      else (None, pending, cache)
  | None => (None, None, cache)
  end.

Definition map_case_only_cached_rename (path : AbsPath) (is_dir : bool) (cache : PathKindCache)
  : option (FileChangeEvent * PathKindCache) :=
  old_path ← find_case_only_cached_path cache path;
  let is_dir := is_dir || default false (cache !! old_path) in
  Some (mk_event "rename" (relative_path root path) is_dir (Some (relative_path root old_path)),
        rename_cached_path cache old_path path is_dir).

(** A create or modify notification of kind [kind]. *)
Definition map_seen (kind : string) (path : AbsPath) (hint : option bool)
    (pending : option PendingRename) (cache : PathKindCache) : Mapped :=
  if is_ignored root path then (None, pending, cache) else
  let is_dir := infer_path_kind stat path hint cache in
  (Some (mk_event kind (relative_path root path) is_dir None), pending, <[path := is_dir]> cache).

Definition map_removed (path : AbsPath) (hint : option bool) (pending : option PendingRename)
    (cache : PathKindCache) : Mapped :=
  if is_ignored root path then (None, pending, cache) else
  let is_dir := infer_path_kind stat path hint cache in
  (Some (mk_event "delete" (relative_path root path) is_dir None), pending,
   remove_cached_path cache path is_dir).

Definition map_renamed (old_path new_path : AbsPath) (pending : option PendingRename)
    (cache : PathKindCache) : Mapped :=
  if is_ignored root old_path || is_ignored root new_path then (None, pending, cache) else
  let is_dir := infer_path_kind stat new_path None cache || default false (cache !! old_path) in
  (Some (mk_event "rename" (relative_path root new_path) is_dir (Some (relative_path root old_path))),
   pending, rename_cached_path cache old_path new_path is_dir).

Definition map_rename_from (old_path : AbsPath) (pending : option PendingRename)
    (cache : PathKindCache) : Mapped :=
  if is_ignored root old_path then (None, pending, cache) else
  (None, Some {| p_path := old_path; p_is_dir := infer_path_kind stat old_path None cache;
                 p_at := now |}, cache).

Definition map_rename_to (new_path : AbsPath) (pending : option PendingRename)
    (cache : PathKindCache) : Mapped :=
  if is_ignored root new_path then (None, pending, cache) else
  let created :=
    let is_dir := infer_path_kind stat new_path None cache in
    (Some (mk_event "create" (relative_path root new_path) is_dir None), None,
     <[new_path := is_dir]> cache) in
  match pending with
  | Some prev =>
      if (elapsed now (p_at prev) <=? PENDING_RENAME_TIMEOUT_MS)%Z then
        let is_dir := infer_path_kind stat new_path (Some (p_is_dir prev)) cache in
        (Some (mk_event "rename" (relative_path root new_path) is_dir
                 (Some (relative_path root (p_path prev)))),
         None, rename_cached_path cache (p_path prev) new_path is_dir)
      else created
  | None => created
  end.

Definition map_rename_unknown (path : AbsPath) (pending : option PendingRename)
    (cache : PathKindCache) : Mapped :=
  if is_ignored root path then (None, pending, cache) else
  let is_dir := infer_path_kind stat path None cache in
  match map_case_only_cached_rename path is_dir cache with
  | Some (mapped, cache) => (Some mapped, pending, cache)
  | None => (Some (mk_event "modify" (relative_path root path) is_dir None), pending,
             <[path := is_dir]> cache)
  end.

Definition map_event (event : Event) (pending : option PendingRename) (cache : PathKindCache) : Mapped :=
  match ev_paths event with
  | [] => (None, pending, cache)
  | path :: more =>
      match ev_kind event with
      | Create CreateFolder => map_seen "create" path (Some true) pending cache
      | Create _ => map_seen "create" path None pending cache
      | Remove RemoveFolder => map_removed path (Some true) pending cache
      | Remove _ => map_removed path None pending cache
      | Modify (ModifyName mode) =>
          match mode, more with
          | (RenameBoth | RenameAny | RenameOther), new_path :: _ =>
              map_renamed path new_path pending cache
          | RenameFrom, _ => map_rename_from path pending cache
          | RenameTo, _ => map_rename_to path pending cache
          | (RenameAny | RenameOther), [] => map_rename_unknown path pending cache
          | RenameBoth, [] => (None, pending, cache)
          end
      | Modify _ => map_seen "modify" path None pending cache
      | KindUnhandled => (None, pending, cache)
      end
  end.
End map_event.

(** ** The watcher thread *)

Record SearchStormState := { window_started_at : Z; modify_create_count : nat }.

Record WatchState := {
  w_pending : option PendingRename;
  w_cache : PathKindCache;
  w_storm : SearchStormState;
  w_ledger : ExpectedMutationLedger }.

(** What a turn does to the rest of the application. *)
Inductive Effect :=
| NoteWatcherEvent (event : FileChangeEvent) (source : string) (skipped : bool)
| HandleWatcherEvent (event : FileChangeEvent)
| RequestRebuild (reason : string)
| EmitFileChanged (event : FileChangeEvent).

(** What [recv_timeout] returned. *)
Inductive Received := Notification (event : Event) | NotifyError | TimedOut.

(** search/mod.rs *)
Definition is_markdown_text (path : string) : bool :=
  let lower := to_ascii_lowercase path in ends_with ".md" lower || ends_with ".markdown" lower.

Definition handle_search_event (now : Z) (event : FileChangeEvent) (storm : SearchStormState)
  : SearchStormState * Effect :=
  let storm :=
    if (1000 <=? elapsed now (window_started_at storm))%Z
    then {| window_started_at := now; modify_create_count := 0 |} else storm in
  if kind_in ["create"; "modify"] event && negb (c_is_dir event) && is_markdown_text (c_path event)
  then
    let storm := {| window_started_at := window_started_at storm;
                    modify_create_count := S (modify_create_count storm) |} in
    if 100 <? modify_create_count storm then (storm, RequestRebuild "watcher-storm")
    else (storm, HandleWatcherEvent event)
  else (storm, HandleWatcherEvent event).

(** The block that follows a mapped event, in the thread's loop. *)
Definition dispatch (now : Z) (has_search : bool) (st : WatchState) (event : FileChangeEvent)
  : WatchState * list Effect :=
  let '(skip_search, ledger) := consume_matching now (w_ledger st) event in
  let note := if has_search
              then [NoteWatcherEvent event
                      (if skip_search then "deduped-app-mutation" else "external-watch") skip_search]
              else [] in
  let '(storm, handled) :=
    if has_search && negb skip_search
    then let '(storm, effect) := handle_search_event now event (w_storm st) in (storm, [effect])
    else (w_storm st, []) in
  ({| w_pending := w_pending st; w_cache := w_cache st; w_storm := storm; w_ledger := ledger |},
   note ++ handled ++ [EmitFileChanged event]).

Definition dispatch_mapped (now : Z) (has_search : bool) (st : WatchState) (m : Mapped)
  : WatchState * list Effect :=
  let '(event, pending, cache) := m in
  let st := {| w_pending := pending; w_cache := cache; w_storm := w_storm st;
               w_ledger := w_ledger st |} in
  match event with
  | Some event => dispatch now has_search st event
  | None => (st, [])
  end.

(** One turn of the loop; the mutex around the ledger makes each call on it
    atomic, so application threads interleave only between turns. *)
Definition watch_turn (stat : AbsPath → option bool) (now : Z) (root : AbsPath) (has_search : bool)
    (st : WatchState) (received : Received) : WatchState * list Effect :=
  match received with
  | NotifyError => (st, [])
  | TimedOut =>
      dispatch_mapped now has_search st (maybe_cleanup_pending now root (w_pending st) (w_cache st))
  | Notification event =>
      let '(st, effects) := dispatch_mapped now has_search st
        (maybe_cleanup_pending now root (w_pending st) (w_cache st)) in
      let '(st, effects') := dispatch_mapped now has_search st
        (map_event stat now root event (w_pending st) (w_cache st)) in
      (st, effects ++ effects')
  end.

(** ** The ledger *)

Lemma remove_first_Some {A} (p : A → bool) l rest :
  remove_first p l = Some rest →
  ∃ l1 x l2, l = l1 ++ x :: l2 ∧ p x = true ∧ Forall (λ y, p y = false) l1 ∧ rest = l1 ++ l2.
Proof.
  revert rest. induction l as [|x l IH]; intros rest; simpl; [done|].
  destruct (p x) eqn:Hx.
  - intros [= <-]. by exists [], x, l.
  - intros (r & Hr & ->)%fmap_Some_1.
    destruct (IH r Hr) as (l1 & y & l2 & -> & Hy & Hl1 & ->).
    exists (x :: l1), y, l2. split_and!; [done..|by constructor|done].
Qed.

Lemma remove_first_None {A} (p : A → bool) l :
  remove_first p l = None ↔ Forall (λ y, p y = false) l.
Proof.
  induction l as [|x l IH]; simpl; [split; [constructor|done]|]. destruct (p x) eqn:Hx.
  - split; [done|]. intros [H _]%Forall_cons. congruence.
  - rewrite fmap_None, IH. split; [intros; by constructor|]. by intros [_ ?]%Forall_cons.
Qed.

(** Consuming an expected mutation. [consume_matching] drops every entry older
    than the two-second time to live, and then, if some remaining entry matches
    the event, removes exactly the oldest such entry and reports a match; otherwise
    it removes nothing more and reports none. *)
Theorem consume_matching_exact now l event :
  let entries := List.filter (live now) (l_entries l) in
  let matches e := expected_mutation_matches_event e event in
  match consume_matching now l event with
  | (true, l') => ∃ before e after, entries = before ++ e :: after ∧ matches e = true ∧
      Forall (λ x, matches x = false) before ∧ l_entries l' = before ++ after ∧
      l_next_id l' = l_next_id l
  | (false, l') => l_entries l' = entries ∧ Forall (λ x, matches x = false) entries ∧
      l_next_id l' = l_next_id l
  end.
Proof.
  intros entries matches. unfold consume_matching. fold entries. fold matches.
  destruct (remove_first matches entries) as [rest|] eqn:Hr.
  - apply remove_first_Some in Hr as (l1 & x & l2 & ? & ? & ? & ->). by exists l1, x, l2.
  - by apply remove_first_None in Hr.
Qed.

(** Identifiers in use. *)
Definition ledger_wf (l : ExpectedMutationLedger) : Prop :=
  (0 ≤ l_next_id l < 2 ^ 64 - 1)%Z ∧ Forall (λ e, 0 < m_id e ≤ l_next_id l)%Z (l_entries l).

(** The notifications that a mutation of the application may come back as. *)
Inductive echo : AppMutation → FileChangeEvent → Prop :=
| EchoWrite path path' kind d : kind = "create" ∨ kind = "modify" → paths_match path path' = true →
    echo (MWrite path d) (mk_event kind path' d None)
| EchoDelete path path' d : paths_match path path' = true →
    echo (MDelete path d) (mk_event "delete" path' d None)
| EchoDeleteMoved path path' new d d' : paths_match path path' = true →
    echo (MDelete path d) (mk_event "rename" new d' (Some path'))
| EchoRename old old' new new' d : paths_match old old' = true → paths_match new new' = true →
    echo (MRename old new d) (mk_event "rename" new' d (Some old'))
| EchoRenameSeen old new new' kind d : kind = "create" ∨ kind = "modify" →
    paths_match new new' = true → echo (MRename old new d) (mk_event kind new' d None).

Lemma record_app_entry now l m :
  ∃ e, l_entries (record_app now l m).1 = l_entries l ++ [e] ∧
    m_created_at e = now ∧ m_id e = ((l_next_id l + 1) mod 2 ^ 64)%Z ∧
    l_next_id (record_app now l m).1 = m_id e ∧
    rm_token (record_app now l m).2 = Some {| token_id := m_id e |} ∧
    ∀ event, echo m event → expected_mutation_matches_event e event = true.
Proof.
  destruct m as [p d|p d|o n d]; simpl; eexists; (split; [done|]); split_and!; try done;
    intros event Hecho; inversion Hecho; subst;
    unfold expected_mutation_matches_event, kind_in; simpl;
    repeat match goal with H : paths_match _ _ = true |- _ => rewrite H; clear H end;
    try match goal with H : _ ∨ _ |- _ => destruct H as [-> | ->] end;
    simpl; rewrite ?eqb_reflx; done.
Qed.

Lemma filter_all {A} (p : A → bool) l : Forall (λ x, p x = true) l → List.filter p l = l.
Proof. induction 1 as [|x l Hx _ IH]; simpl; [done|]. by rewrite Hx, IH. Qed.

(** The life of an expected mutation. Recording a mutation of the application
    keeps the ledger well formed; cancelling it right away restores the entries;
    and if it is not cancelled, any notification that echoes it within two seconds
    is consumed, so the search index is not updated twice. *)
Theorem recorded_mutation_echo now l m :
  ledger_wf l → (l_next_id l < 2 ^ 64 - 2)%Z →
  let '(l', recorded) := record_app now l m in
  ledger_wf l' ∧ l_entries (cancel_app l' recorded) = l_entries l ∧
  ∀ now' event, (now ≤ now' ≤ now + EXPECTED_MUTATION_TTL_MS)%Z → echo m event →
    (consume_matching now' l' event).1 = true.
Proof.
  intros [Hid Hents] Hroom.
  destruct (record_app_entry now l m) as (e & Hl & Hat & Heid & Hnext & Htok & Hecho).
  destruct (record_app now l m) as [l' r]; simpl in *.
  assert (Hfresh : m_id e = (l_next_id l + 1)%Z) by (rewrite Heid; apply Z.mod_small; lia).
  split_and!.
  - split; [lia|]. rewrite Hl, Hnext. apply Forall_app. split; [|constructor; [lia|done]].
    eapply Forall_impl; [done|]. simpl. lia.
  - unfold cancel_app. rewrite Htok. unfold cancel. simpl. rewrite Hl, List.filter_app. simpl.
    rewrite Z.eqb_refl. simpl. rewrite app_nil_r. apply filter_all.
    eapply Forall_impl; [exact Hents|]. intros x Hx. simpl in Hx.
    apply negb_true_iff, Z.eqb_neq. lia.
  - intros now' event Hnow Hev. unfold consume_matching.
    destruct (remove_first _ _) as [rest|] eqn:Hr; [done|]. exfalso.
    rewrite remove_first_None, Forall_forall in Hr.
    assert (Hin : e ∈ List.filter (live now') (l_entries l')).
    { apply list_elem_of_In, filter_In. split.
      - rewrite Hl. apply in_or_app. right. by left.
      - unfold live, elapsed. apply Z.leb_le. lia. }
    specialize (Hr e Hin). simpl in Hr. by rewrite Hecho in Hr.
Qed.

(** ** The cache across a directory rename *)

Definition incomparable (p q : AbsPath) : Prop := ¬ p `prefix_of` q ∧ ¬ q `prefix_of` p.

Lemma prefix_drop (p q : AbsPath) : p `prefix_of` q → q = p ++ drop (length p) q.
Proof. intros [k ->]. by rewrite drop_app_length. Qed.

Lemma incomparable_app from to k k' :
  incomparable from to → from ++ k ≠ to ++ k'.
Proof.
  intros [H1 H2] Heq. destruct (prefix_weak_total from to (from ++ k)) as [H|H]; try done.
  - by exists k.
  - by exists k'.
Qed.

(** Moving descendants, in any order. *)
Lemma remap_loop (from to : AbsPath) (l : list (AbsPath * bool)) (cache : PathKindCache) :
  incomparable from to → Forall (λ kv : AbsPath * bool, from `prefix_of` kv.1) l →
  let cache' := foldl (remap_descendant from to) cache l in
  NoDup l.*1 →
  (∀ kv, kv ∈ l → cache' !! (to ++ drop (length from) kv.1) = Some kv.2) ∧
  (∀ kv, kv ∈ l → cache' !! kv.1 = None) ∧
  (∀ p, (∀ kv, kv ∈ l → p ≠ kv.1 ∧ p ≠ to ++ drop (length from) kv.1) → cache' !! p = cache !! p).
Proof.
  intros Hinc. revert cache. induction l as [|[k v] l IH]; intros cache Hl; simpl.
  - intros _. split_and!; set_solver.
  - apply Forall_cons in Hl as [Hk Hl]. intros [Hkl Hnd]%NoDup_cons. simpl in Hk.
    destruct (IH (remap_descendant from to cache (k, v)) Hl Hnd) as (Hmoved & Hgone & Hother).
    set (cache' := foldl _ _ l) in *.
    assert (Hsrc : ∀ kv, kv ∈ l → kv.1 ≠ k) by (intros kv Hin <-; apply Hkl; by apply list_elem_of_fmap_2).
    assert (Hpre : ∀ kv, kv ∈ l → from `prefix_of` kv.1) by (by apply Forall_forall).
    assert (Hkeep : ∀ q, q = k ∨ q = to ++ drop (length from) k → ∀ kv, kv ∈ l →
      q ≠ kv.1 ∧ q ≠ to ++ drop (length from) kv.1).
    { intros q Hq kv Hin. pose proof (Hsrc kv Hin) as Hne. pose proof (Hpre kv Hin) as Hp.
      destruct Hq as [->| ->]; split; [done| | |].
      - rewrite (prefix_drop _ _ Hk). by apply incomparable_app.
      - rewrite (prefix_drop _ _ Hp). intros Heq. by eapply incomparable_app.
      - intros Heq%(inj (to ++.)). apply Hne.
        rewrite (prefix_drop _ _ Hp), (prefix_drop _ _ Hk). by rewrite Heq. }
    split_and!.
    + intros kv [->|Hin]%elem_of_cons; [|by apply Hmoved]. simpl.
      rewrite Hother by (apply Hkeep; by right). unfold remap_descendant. simpl.
      by rewrite lookup_insert_eq.
    + intros kv [->|Hin]%elem_of_cons; [|by apply Hgone]. simpl.
      rewrite Hother by (apply Hkeep; by left). unfold remap_descendant. simpl.
      rewrite lookup_insert_ne; [by rewrite lookup_delete_eq|].
      rewrite (prefix_drop _ _ Hk) at 2. intros Heq. by eapply incomparable_app.
    + intros p Hp. rewrite Hother by (intros kv Hin; apply Hp; by constructor).
      destruct (Hp (k, v)) as [Hp1 Hp2]; [by constructor|]. unfold remap_descendant. simpl in *.
      by rewrite lookup_insert_ne, lookup_delete_ne.
Qed.

(** Renaming a directory in the cache. For two paths neither of which contains
    the other, every cached path below the old directory, with its kind, is found
    at the same place below the new one; nothing is left below the old one; the new
    directory itself is cached; and every path outside both is untouched. The
    result does not depend on the order in which the descendants are visited. *)
Theorem rename_cached_path_moves (cache : PathKindCache) (from to : AbsPath) :
  incomparable from to →
  let cache' := rename_cached_path cache from to true in
  (∀ k d, cache !! (from ++ k) = Some d → cache' !! (to ++ k) = Some d) ∧
  (∀ k, cache' !! (from ++ k) = None) ∧
  is_Some (cache' !! to) ∧
  (∀ p, ¬ from `prefix_of` p → ¬ to `prefix_of` p → cache' !! p = cache !! p).
Proof.
  intros Hinc cache'. unfold rename_cached_path in cache'. simpl in cache'.
  set (ds := map_to_list (filter (λ kv, path_starts_with kv.1 from = true) cache)) in *.
  set (moved := foldl (remap_descendant from to) cache ds) in *.
  assert (Hds : ∀ p d, (p, d) ∈ ds ↔ cache !! p = Some d ∧ from `prefix_of` p).
  { intros p d. unfold ds. rewrite elem_of_map_to_list, map_lookup_filter_Some. simpl.
    unfold path_starts_with. by rewrite bool_decide_eq_true. }
  assert (Hpre : Forall (λ kv : AbsPath * bool, from `prefix_of` kv.1) ds)
    by (apply Forall_forall; intros [p d] Hp; by apply Hds in Hp as [_ ?]).
  destruct (remap_loop from to ds cache Hinc Hpre) as (Hmoved & Hgone & Hother);
    [apply NoDup_fst_map_to_list|]. fold moved in Hmoved, Hgone, Hother.
  assert (Hc' : ∀ p, p ≠ to → cache' !! p = moved !! p).
  { intros p Hp. unfold cache'. destruct (moved !! to); [done|]. by rewrite lookup_insert_ne. }
  assert (Hto : is_Some (cache' !! to)).
  { unfold cache'. destruct (moved !! to) as [d|] eqn:Hm; [by rewrite Hm|]. rewrite lookup_insert_eq. eauto. }
  assert (Hin : ∀ k d, cache !! (from ++ k) = Some d → moved !! (to ++ k) = Some d).
  { intros k d Hk. assert (Hd : (from ++ k, d) ∈ ds) by (apply Hds; split; [done|by exists k]).
    specialize (Hmoved _ Hd). simpl in Hmoved. by rewrite drop_app_length in Hmoved. }
  split_and!; [| |done|].
  - intros k d Hk. specialize (Hin k d Hk). destruct (decide (to ++ k = to)) as [He|Hne].
    + rewrite He in *. unfold cache'. by rewrite Hin.
    + by rewrite Hc'.
  - intros k. rewrite Hc' by (intros He; apply (incomparable_app from to k []); [done|by rewrite app_nil_r]).
    destruct (cache !! (from ++ k)) as [d|] eqn:Hk.
    + apply (Hgone (from ++ k, d)). apply Hds. split; [done|by exists k].
    + rewrite Hother; [done|]. intros [p d] Hd. apply Hds in Hd as [Hp Hfp]. simpl.
      split; [congruence|]. by apply incomparable_app.
  - intros p Hf Ht. rewrite Hc' by (intros ->; by apply Ht). apply Hother.
    intros [q d] Hd. apply Hds in Hd as [Hq Hfq]. simpl. split; [by intros ->|].
    intros ->. apply Ht. by eexists.
Qed.

(** ** Renames reported in two halves *)

Definition emitted (effects : list Effect) : list FileChangeEvent :=
  omap (λ e, match e with EmitFileChanged event => Some event | _ => None end) effects.

Definition renamed_from (p : AbsPath) : Received :=
  Notification {| ev_kind := Modify (ModifyName RenameFrom); ev_paths := [p] |}.
Definition renamed_to (p : AbsPath) : Received :=
  Notification {| ev_kind := Modify (ModifyName RenameTo); ev_paths := [p] |}.

Lemma handle_search_event_silent now event storm :
  emitted [(handle_search_event now event storm).2] = [].
Proof.
  unfold handle_search_event. destruct (_ && _ && _); [|done]. by destruct (100 <? _).
Qed.

Lemma emitted_dispatch now s st event :
  emitted (dispatch now s st event).2 = [event] ∧
  w_pending (dispatch now s st event).1 = w_pending st ∧
  w_cache (dispatch now s st event).1 = w_cache st.
Proof.
  unfold dispatch. destruct (consume_matching _ _ _) as [skip l].
  destruct s, skip; [done| |done|done].
  pose proof (handle_search_event_silent now event (w_storm st)) as Hs.
  simpl. destruct (handle_search_event now event (w_storm st)) as [storm eff]. simpl in *.
  by destruct eff.
Qed.

Section rename_halves.
Context (stat : AbsPath → option bool) (root : AbsPath) (has_search : bool).

(** The state after the first half of a rename. *)
Lemma rename_from_turn now st p :
  w_pending st = None → is_ignored root p = false →
  watch_turn stat now root has_search st (renamed_from p) =
  ({| w_pending := Some {| p_path := p; p_is_dir := infer_path_kind stat p None (w_cache st);
                           p_at := now |};
      w_cache := w_cache st; w_storm := w_storm st; w_ledger := w_ledger st |}, []).
Proof.
  intros Hp Hi. unfold watch_turn, renamed_from, maybe_cleanup_pending. rewrite Hp. simpl.
  unfold map_event, map_rename_from. simpl. by rewrite Hi.
Qed.

(** Both halves of a rename. When the notification that a visible path is the
    source of a rename is followed within 600 ms by one naming a visible
    destination, the watcher reports exactly one rename from the one to the other,
    of the kind the source had, moves the cache, and nothing stays pending; when
    no destination follows, the first idle turn after 600 ms reports exactly one
    deletion of the source. *)
Theorem rename_halves_reported_once now now' st p q :
  w_pending st = None → is_ignored root p = false → is_ignored root q = false →
  let d := infer_path_kind stat p None (w_cache st) in
  let st1 := (watch_turn stat now root has_search st (renamed_from p)).1 in
  emitted (watch_turn stat now root has_search st (renamed_from p)).2 = [] ∧
  ((now' ≤ now + PENDING_RENAME_TIMEOUT_MS)%Z →
     let '(st2, effects) := watch_turn stat now' root has_search st1 (renamed_to q) in
     emitted effects = [mk_event "rename" (relative_path root q) d (Some (relative_path root p))] ∧
     w_pending st2 = None ∧ w_cache st2 = rename_cached_path (w_cache st) p q d) ∧
  ((now + PENDING_RENAME_TIMEOUT_MS < now')%Z →
     let '(st2, effects) := watch_turn stat now' root has_search st1 TimedOut in
     emitted effects = [mk_event "delete" (relative_path root p) d None] ∧
     w_pending st2 = None ∧ w_cache st2 = remove_cached_path (w_cache st) p d).
Proof.
  intros Hpend Hp Hq d st1. unfold st1. rewrite (rename_from_turn now st p Hpend Hp). simpl.
  split_and!; [done| |].
  - intros Hnow. unfold watch_turn, renamed_to, maybe_cleanup_pending. simpl.
    assert (Hel : (elapsed now' now ≤ PENDING_RENAME_TIMEOUT_MS)%Z)
      by (unfold elapsed, PENDING_RENAME_TIMEOUT_MS in *; lia).
    rewrite (proj2 (Z.ltb_ge _ _)) by done. simpl. unfold map_event, map_rename_to. simpl.
    rewrite Hq. simpl. rewrite (proj2 (Z.leb_le _ _)) by done. simpl. fold d.
    destruct (dispatch _ _ _ _) as [st2 eff] eqn:Hd. simpl.
    match type of Hd with dispatch ?n ?s ?st0 ?ev = _ =>
      destruct (emitted_dispatch n s st0 ev) as (He & Hw & Hc) end.
    by rewrite Hd in He, Hw, Hc.
  - intros Hnow. unfold watch_turn, maybe_cleanup_pending. simpl.
    rewrite (proj2 (Z.ltb_lt _ _))
      by (unfold elapsed, PENDING_RENAME_TIMEOUT_MS in *; lia). simpl. fold d.
    destruct (dispatch _ _ _ _) as [st2 eff] eqn:Hd.
    match type of Hd with dispatch ?n ?s ?st0 ?ev = _ =>
      destruct (emitted_dispatch n s st0 ev) as (He & Hw & Hc) end.
    by rewrite Hd in He, Hw, Hc.
Qed.
End rename_halves.

Module Examples.
Definition idle : WatchState :=
  {| w_pending := None; w_cache := {[["v"; "a.md"] := false; ["v"; "b.md"] := false]};
     w_storm := {| window_started_at := 0; modify_create_count := 0 |}; w_ledger := empty_ledger |}.
Definition no_stat : AbsPath → option bool := λ _, None.

Lemma recorded_mutation_witness :
  let '(l, r) := record_app 100 empty_ledger (MWrite "Notes/a.md" false) in
  l_entries (cancel_app l r) = [] ∧
  (consume_matching 2100 l (mk_event "modify" "notes/A.md" false None)).1 = true.
Proof.
  assert (Hwf : ledger_wf empty_ledger) by (split; [simpl; lia|constructor]).
  assert (Hroom : (l_next_id empty_ledger < 2 ^ 64 - 2)%Z) by (simpl; lia).
  destruct (recorded_mutation_echo 100 empty_ledger (MWrite "Notes/a.md" false) Hwf Hroom)
    as (_ & Hcancel & Hconsume).
  split; [exact Hcancel|]. apply Hconsume; [unfold EXPECTED_MUTATION_TTL_MS; lia|].
  constructor; [by right|]. vm_compute. reflexivity.
Defined.

Lemma rename_cached_path_witness :
  let cache : PathKindCache := {[["v"; "d"] := true; ["v"; "d"; "x.md"] := false]} in
  rename_cached_path cache ["v"; "d"] ["v"; "e"] true !! ["v"; "e"; "x.md"] = Some false.
Proof.
  intros cache.
  assert (Hinc : incomparable ["v"; "d"] ["v"; "e"])
    by (split; intros [k Hk]; discriminate Hk).
  apply (proj1 (rename_cached_path_moves cache ["v"; "d"] ["v"; "e"] Hinc) ["x.md"] false).
  vm_compute. reflexivity.
Defined.

Lemma rename_halves_witness :
  let st1 := (watch_turn no_stat 0 ["v"] true idle (renamed_from ["v"; "a.md"])).1 in
  emitted (watch_turn no_stat 500 ["v"] true st1 (renamed_to ["v"; "c.md"])).2 =
  [mk_event "rename" "c.md" false (Some "a.md")].
Proof.
  intros st1.
  assert (H1 : is_ignored ["v"] ["v"; "a.md"] = false) by (vm_compute; reflexivity).
  assert (H2 : is_ignored ["v"] ["v"; "c.md"] = false) by (vm_compute; reflexivity).
  destruct (rename_halves_reported_once no_stat ["v"] true 0 500 idle ["v"; "a.md"] ["v"; "c.md"]
              eq_refl H1 H2) as (_ & Hto & _).
  specialize (Hto ltac:(unfold PENDING_RENAME_TIMEOUT_MS; lia)). subst st1.
  destruct (watch_turn no_stat 500 ["v"] true _ _) as [st2 eff]. exact (proj1 Hto).
Defined.

(** Two files moved out of the vault in quick succession: only one pending source
    is kept, so the deletion of the first is never reported, and the path kind
    cache keeps it. *)
Example second_source_hides_first_deletion :
  let '(st1, e1) := watch_turn no_stat 0 ["v"] true idle (renamed_from ["v"; "a.md"]) in
  let '(st2, e2) := watch_turn no_stat 10 ["v"] true st1 (renamed_from ["v"; "b.md"]) in
  let '(st3, e3) := watch_turn no_stat 700 ["v"] true st2 TimedOut in
  let '(st4, e4) := watch_turn no_stat 5000 ["v"] true st3 TimedOut in
  emitted (e1 ++ e2 ++ e3 ++ e4) = [mk_event "delete" "b.md" false None] ∧
  w_cache st4 !! ["v"; "a.md"] = Some false.
Proof. vm_compute. split; reflexivity. Qed.
End Examples.
