(* ===== verification/Commit.v ===== *)
(** * Commits on the wire (sync/applier.rs, sync/checkpoint.rs, sync/client.rs)

    The records a publishing device writes and a pulling device reads: commit
    headers and bodies, downloaded objects, tree identifiers, and the checks both
    sides make on them. applier.rs and checkpoint.rs declare the body types and
    the tree identifier twice, field for field; they are modelled once. *)
From Stdlib Require Import Ascii String.
#[local] Set Warnings "-clear-no-such-hyp".
From S2P Require Import Prelude SyncErrors Paths SyncDb Scanner Planner Crypto Keys Packer.

(** ** Protocol enumerations *)

Inductive SyncCommitKind := KindUnspecified | KindIncremental | KindMerge | KindCheckpoint.
Inductive SyncObjectKind := ObjUnspecified | ObjCommitBody | ObjContentPack | ObjCheckpointPack.
#[export] Instance SyncCommitKind_eq_dec : EqDecision SyncCommitKind.
Proof. solve_decision. Defined.
#[export] Instance SyncObjectKind_eq_dec : EqDecision SyncObjectKind.
Proof. solve_decision. Defined.

(** ** client.rs, transfer.rs *)

Record SyncHead := {
  current_head_commit_id : string;
  head_version : Z;
  latest_checkpoint_commit_id : string }.

Record SyncCommitHeader := {
  h_commit_id : string;
  h_commit_kind : SyncCommitKind;
  h_expected_head_commit_id : string;
  h_parent_commit_ids : list string;
  h_author_device_id : string;
  h_device_seq : Z;
  h_body_object_id : string;
  h_body_ciphertext_sha256 : string;
  h_body_size_bytes : Z;
  h_referenced_object_ids : list string;
  h_signature : bytes;
  h_server_seq : Z }.

Record ListCommitsOutput := {
  page_commits : list SyncCommitHeader;
  page_has_more : bool;
  page_next_after_server_seq : Z }.

Record DownloadedObject := {
  d_object_id : string;
  d_kind : SyncObjectKind;
  d_ciphertext_sha256 : string;
  d_ciphertext : bytes }.

(** ** The commit body *)

Record CommitBodyContentRef := { cr_object_id : string; cr_entry_id : string }.

Inductive CommitBodyFileOp :=
| UpsertFile (file_id path normalized_path plaintext_hash : string) (size_bytes : Z)
    (content_ref : CommitBodyContentRef)
| DeleteFile (file_id path normalized_path : string).

Record CommitBodyPackRef := {
  pr_pack_ref : string;
  pr_object_id : string;
  pr_pack_kind : string;
  pr_shard_index : nat;
  pr_entry_count : nat }.

Record CommitBody := {
  b_format : string;
  b_version : Z;
  b_commit_id : string;
  b_commit_kind : string;
  b_parent_commit_ids : list string;
  b_tree_id : string;
  b_changes : list CommitBodyFileOp;
  b_packs : list CommitBodyPackRef }.

Record TreeCacheEntryBody := {
  tb_file_id : string;
  tb_normalized_path : string;
  tb_plaintext_hash : option string;
  tb_content_object_id : option string;
  tb_pack_entry_id : option string;
  tb_kind : string }.

(** The tree, a [BTreeMap] from file identifiers. *)
Abbreviation Tree := (gmap string SyncTreeEntryRecord).

(** ** Small functions *)

Definition commit_kind_label (kind : SyncCommitKind) : SyncResult string :=
  match kind with
  | KindCheckpoint => Ok "checkpoint"
  | KindIncremental => Ok "incremental"
  | KindMerge => Ok "merge"
  | KindUnspecified => Err (InvalidArgument "unsupported sync commit kind")
  end.

Definition object_kind_for_pack_kind (pack_kind : string) : SyncResult SyncObjectKind :=
  if bool_decide (pack_kind = CONTENT_PACK_KIND) then Ok ObjContentPack
  else if bool_decide (pack_kind = CHECKPOINT_PACK_KIND) then Ok ObjCheckpointPack
  else Err (InvalidArgument ("unsupported sync pack kind: " +:+ pack_kind)).

Definition pack_kind_for_object_kind (kind : SyncObjectKind) : SyncResult string :=
  match kind with
  | ObjContentPack => Ok CONTENT_PACK_KIND
  | ObjCheckpointPack => Ok CHECKPOINT_PACK_KIND
  | _ => Err (InvalidArgument "sync object is not a decryptable pack")
  end.

Definition empty_to_none (value : string) : option string :=
  if str_is_empty value then None else Some value.

(** The values of a [BTreeMap], in key order. *)
Definition btree_values {V} (m : gmap string V) : list V :=
  (sort_by (leb_on fst) (map_to_list m)).*2.

Definition tree_cache_entry_body (entries : list SyncTreeEntryRecord) : list TreeCacheEntryBody :=
  (λ e, {| tb_file_id := t_file_id e; tb_normalized_path := t_normalized_path e;
           tb_plaintext_hash := t_plaintext_hash e;
           tb_content_object_id := t_content_object_id e;
           tb_pack_entry_id := t_pack_entry_id e; tb_kind := t_kind e |}) <$> entries.

Section commit.
Context `{Unicode, Blake3, CryptoLib}.
Context `{!Serialize (list TreeCacheEntryBody)}.

Definition tree_id_for_entries (entries : list SyncTreeEntryRecord) : SyncResult string :=
  json ← to_vec (tree_cache_entry_body entries);
  Ok ("tree_" +:+ str_take 32 (blake3_hex json)).

(** [to_string] writes the same bytes as [to_vec]. *)
Definition tree_json_for_entries (entries : list SyncTreeEntryRecord) : SyncResult string :=
  to_vec (tree_cache_entry_body entries).

Definition validate_tree_id (tree_id : string) (entries : list SyncTreeEntryRecord) : SyncResult unit :=
  observed ← tree_id_for_entries entries;
  reject_if (negb (bool_decide (observed = tree_id)))
    (Integrity ("commit tree id mismatch: expected " +:+ tree_id +:+ ", got " +:+ observed)).

(** ** Checks of the pulling device *)

Definition validate_pack (seen : list string) (pack : CommitBodyPackRef) : SyncResult (list string) :=
  _ ← validate_required (pr_object_id pack) "pack.object_id";
  _ ← reject_if (bool_decide (pr_object_id pack ∈ seen))
        (Integrity ("duplicate pack object in commit body: " +:+ pr_object_id pack));
  _ ← object_kind_for_pack_kind (pr_pack_kind pack);
  Ok (pr_object_id pack :: seen).

Definition validate_packs (body : CommitBody) : SyncResult unit :=
  _ ← try_fold validate_pack [] (b_packs body); Ok tt.

Definition validate_commit_body (header : SyncCommitHeader) (commit_kind : string)
    (body : CommitBody) : SyncResult unit :=
  _ ← reject_if (negb (bool_decide (b_format body = "kuku.sync.commit-body")))
        (Serialization "unsupported sync commit body format");
  _ ← reject_if (negb (b_version body =? 1)%Z) (UnsupportedVersion (b_version body));
  _ ← reject_if (negb (bool_decide (b_commit_id body = h_commit_id header)))
        (Integrity "commit body id mismatch");
  _ ← reject_if (negb (bool_decide (b_commit_kind body = commit_kind)))
        (Integrity "commit body kind mismatch");
  _ ← reject_if (negb (bool_decide (b_parent_commit_ids body = h_parent_commit_ids header)))
        (Integrity "commit body parents mismatch");
  let body_pack_ids := sort_by str_leb (pr_object_id <$> b_packs body) in
  let referenced_object_ids := sort_by str_leb (h_referenced_object_ids header) in
  _ ← reject_if (negb (bool_decide (body_pack_ids = referenced_object_ids)))
        (Integrity "commit body referenced objects mismatch");
  validate_packs body.

Definition validate_downloaded_commit_body (header : SyncCommitHeader) (object : DownloadedObject)
  : SyncResult unit :=
  _ ← reject_if (negb (bool_decide (d_object_id object = h_body_object_id header)))
        (Integrity "commit body object id mismatch");
  _ ← reject_if (negb (bool_decide (d_kind object = ObjCommitBody)))
        (Integrity "commit body object kind mismatch");
  _ ← reject_if (negb (bool_decide (d_ciphertext_sha256 object = h_body_ciphertext_sha256 header)))
        (Integrity "commit body ciphertext hash mismatch");
  reject_if (negb (size_bytes (encrypted_blob_metadata (d_ciphertext object))
                   =? h_body_size_bytes header)%Z)
    (Integrity "commit body ciphertext size mismatch").

Definition validate_downloaded_pack (pack_ref : CommitBodyPackRef) (object : DownloadedObject)
  : SyncResult unit :=
  _ ← reject_if (negb (bool_decide (d_object_id object = pr_object_id pack_ref)))
        (Integrity "pack object id mismatch");
  expected_kind ← object_kind_for_pack_kind (pr_pack_kind pack_ref);
  reject_if (negb (bool_decide (d_kind object = expected_kind)))
    (Integrity "pack object kind mismatch").

(** [Path::new(path).extension()] of the last component, as UTF-8. *)
Definition has_md_extension (path : string) : bool :=
  match file_name path with
  | Some name =>
      match extension name with
      | Some ext => utf8_valid ext && eq_ignore_ascii_case ext "md"
      | None => false
      end
  | None => false
  end.

Definition validate_remote_file_identity (file_id path normalized_path : string) : SyncResult unit :=
  _ ← validate_required file_id "file_id";
  _ ← validate_required path "path";
  observed_normalized ← normalize_vault_relative_path path;
  _ ← reject_if (negb (bool_decide (observed_normalized = normalized_path)))
        (Integrity ("remote file normalized path mismatch for " +:+ path));
  _ ← reject_if (negb (bool_decide (file_id_for_normalized_path normalized_path = file_id)))
        (Integrity ("remote file id mismatch for " +:+ normalized_path));
  reject_if (negb (has_md_extension path))
    (InvalidArgument ("remote file is not markdown: " +:+ path)).

Definition validate_plaintext_metadata (path : string) (plaintext : bytes) (plaintext_hash : string)
    (size_bytes : Z) : SyncResult unit :=
  observed_size ← ok_or (i64_try_from (byte_len plaintext))
                    (InvalidArgument ("remote file is too large: " +:+ path));
  _ ← reject_if (negb (observed_size =? size_bytes)%Z)
        (Integrity ("remote file size mismatch: " +:+ path));
  reject_if (negb (bool_decide (blake3_hex plaintext = plaintext_hash)))
    (Integrity ("remote file plaintext hash mismatch: " +:+ path)).

Definition pack_entry_plaintext (packs : gmap string UnpackedPack) (content_ref : CommitBodyContentRef)
  : SyncResult bytes :=
  pack ← ok_or (packs !! cr_object_id content_ref)
           (Integrity ("content pack " +:+ cr_object_id content_ref +:+ " missing from commit"));
  ok_or (up_entries pack !! cr_entry_id content_ref)
    (Integrity ("content pack entry " +:+ cr_entry_id content_ref +:+ " missing from "
                +:+ cr_object_id content_ref)).

(** A decrypted commit, and the tree it describes. *)
Record DecryptedCommit := {
  dc_header : SyncCommitHeader;
  dc_body : CommitBody;
  dc_packs : gmap string UnpackedPack }.

Definition upserted_entry (commit_id file_id normalized_path plaintext_hash : string)
    (content_ref : CommitBodyContentRef) : SyncTreeEntryRecord :=
  {| t_commit_id := commit_id; t_file_id := file_id; t_normalized_path := normalized_path;
     t_plaintext_hash := Some plaintext_hash;
     t_content_object_id := Some (cr_object_id content_ref);
     t_pack_entry_id := Some (cr_entry_id content_ref); t_kind := FILE_KIND_MARKDOWN |}.

(** A checkpoint starts from the empty tree. *)
Definition starting_tree (header : SyncCommitHeader) (tree : Tree) : Tree :=
  if bool_decide (h_commit_kind header = KindCheckpoint) then ∅ else tree.

Definition materialize_change (commit : DecryptedCommit) (tree : Tree) (change : CommitBodyFileOp)
  : SyncResult Tree :=
  match change with
  | UpsertFile file_id path normalized_path plaintext_hash size_bytes content_ref =>
      _ ← validate_remote_file_identity file_id path normalized_path;
      plaintext ← pack_entry_plaintext (dc_packs commit) content_ref;
      _ ← validate_plaintext_metadata path plaintext plaintext_hash size_bytes;
      Ok (<[file_id := upserted_entry (h_commit_id (dc_header commit)) file_id normalized_path
                         plaintext_hash content_ref]> tree)
  | DeleteFile file_id path normalized_path =>
      _ ← validate_remote_file_identity file_id path normalized_path;
      Ok (base.delete file_id tree)
  end.

Definition materialize_remote_tree_only (commit : DecryptedCommit) (tree : Tree) : SyncResult Tree :=
  try_fold (materialize_change commit) (starting_tree (dc_header commit) tree)
    (b_changes (dc_body commit)).
End commit.

(** The entries of a tree as they are persisted and hashed. *)
Definition tree_entries_sorted (tree : gmap string SyncTreeEntryRecord) : list SyncTreeEntryRecord :=
  sort_by (leb_on t_normalized_path) (btree_values tree).
