(* ===== verification/Transfer.v ===== *)
(** * The object transfer queue (sync/transfer.rs)

    Uploading and downloading encrypted objects through presigned targets, with
    retries. The service and the object store are what [TransferNet] answers in
    each attempt, so every interleaving of the concurrent requests of an attempt
    is covered; the progress events of the single objects, which come from those
    concurrent requests, are left out. *)
From Stdlib Require Import Ascii String.
#[local] Set Warnings "-clear-no-such-hyp".
From S2P Require Import Prelude SyncErrors Paths SyncDb Scanner Planner Crypto Keys Packer Commit.

(** ** client.rs: descriptors *)

Record ObjectReservationInput := { or_client_object_ref : string; or_kind : SyncObjectKind }.
Record ReservedObject := { ro_client_object_ref : string; ro_object_id : string; ro_kind : SyncObjectKind }.
Record ObjectUploadDescriptor := {
  ud_object_id : string;
  ud_kind : SyncObjectKind;
  ud_ciphertext_sha256 : string;
  ud_size_bytes : Z }.
Record HttpHeader := { hh_name : string; hh_value : string }.
Record ObjectUploadTargetDescriptor := {
  ut_object_id : string;
  ut_put_url : string;
  ut_required_headers : list HttpHeader }.
Record CompletedObjectUploadDescriptor := {
  cu_object_id : string;
  cu_ciphertext_sha256 : string;
  cu_size_bytes : Z;
  cu_provider_etag : option string }.
Record UploadedObjectMetadata := {
  um_object_id : string;
  um_ciphertext_sha256 : string;
  um_size_bytes : Z }.
Inductive SyncObjectErrorReason :=
| ReasonUnspecified | ReasonUploadExpired | ReasonChecksumMismatch | ReasonSizeMismatch
| ReasonStorageProviderError | ReasonQuotaExceeded | ReasonCanceled.
Record ObjectUploadCompletion := {
  oc_object : option UploadedObjectMetadata;
  oc_error_reason : option SyncObjectErrorReason }.
Record ObjectDownloadTargetDescriptor := {
  dt_object_id : string;
  dt_kind : SyncObjectKind;
  dt_get_url : string;
  dt_required_headers : list HttpHeader;
  dt_ciphertext_sha256 : string;
  dt_size_bytes : Z }.

(** ** transfer.rs: data *)

Record TransferQueueConfig := {
  max_upload_concurrency : nat;
  max_download_concurrency : nat;
  max_attempts : nat;
  initial_backoff : Z (* nanoseconds *) }.
Definition default_transfer_config : TransferQueueConfig :=
  {| max_upload_concurrency := 4; max_download_concurrency := 8; max_attempts := 3;
     initial_backoff := 250 * 1000000 |}.

Record EncryptedUploadObject := {
  eu_client_object_ref : string;
  eu_kind : SyncObjectKind;
  eu_ciphertext : bytes }.
Record ReservedEncryptedUploadObject := {
  re_object_id : string;
  re_kind : SyncObjectKind;
  re_ciphertext : bytes }.
Record LocalUpload := {
  lu_client_object_ref : string;
  lu_kind : SyncObjectKind;
  lu_ciphertext_sha256 : string;
  lu_size_bytes : Z;
  lu_ciphertext : bytes }.
Record PlannedUpload := { pu_descriptor : ObjectUploadDescriptor; pu_ciphertext : bytes }.
Record ObjectPutRequest := { put_url : string; put_headers : list HttpHeader; put_body : bytes }.
Record ObjectGetRequest := { get_url : string; get_headers : list HttpHeader }.

Inductive ObjectHttpError :=
| InvalidHeader (message : string)
| Network (message : string)
| Status (status : Z) (body : string).
Inductive AttemptFailure := Retryable (message : string) | Fatal (error : SyncError).
Inductive TransferDirection := Upload | Download.
Inductive TransferProgressEvent :=
| BatchStarted (direction : TransferDirection) (total_objects attempt max_attempts : Z)
| ObjectCompleted (direction : TransferDirection)
| ObjectFailed (direction : TransferDirection) (message : string)
| RetryScheduled (direction : TransferDirection) (next_attempt max_attempts next_retry_at_ms : Z)
    (message : string)
| BatchCompleted (direction : TransferDirection)
| BatchFailed (direction : TransferDirection) (message : string).

(** The transfer service and the object store. Each answer may depend on the
    attempt it is given in; [now_at] and [nanos_at] are the clock when the delay
    after an attempt is computed. *)
Class TransferNet := {
  reserve_object_ids (workspace_id device_id : string) (objects : list ObjectReservationInput)
    : SyncResult (list ReservedObject);
  create_object_upload_batch (attempt : nat) (workspace_id device_id upload_attempt_id : string)
    (objects : list ObjectUploadDescriptor) : SyncResult (list ObjectUploadTargetDescriptor);
  complete_object_upload_batch (attempt : nat) (workspace_id device_id upload_attempt_id : string)
    (objects : list CompletedObjectUploadDescriptor) : SyncResult (list ObjectUploadCompletion);
  create_object_download_batch (attempt : nat) (workspace_id device_id : string)
    (object_ids : list string) : SyncResult (list ObjectDownloadTargetDescriptor);
  http_put (attempt : nat) (request : ObjectPutRequest) : Result ObjectHttpError (option string);
  http_get (attempt : nat) (request : ObjectGetRequest) : Result ObjectHttpError bytes;
  now_at (attempt : nat) : Z;
  nanos_at (attempt : nat) : Z }.

(** ** Small functions *)

Definition is_retryable_http_error (error : ObjectHttpError) : bool :=
  match error with
  | Network _ => true
  | Status status _ =>
      (status =? 401)%Z || (status =? 403)%Z || (status =? 408)%Z || (status =? 429)%Z
      || ((500 <=? status) && (status <=? 599))%Z
  | InvalidHeader _ => false
  end.

Definition http_error_message (error : ObjectHttpError) : string :=
  match error with
  | InvalidHeader message => message
  | Network message => message
  | Status status body =>
      if is_blank body then "object transfer returned HTTP " +:+ fmt_int status
      else "object transfer returned HTTP " +:+ fmt_int status +:+ ": " +:+ body
  end.

(** [AttemptFailure::from_http] *)
Definition from_http (error : ObjectHttpError) : AttemptFailure :=
  let message := http_error_message error in
  if is_retryable_http_error error then Retryable message else Fatal (Transport message).

Definition object_error_reason_name (reason : SyncObjectErrorReason) : string :=
  match reason with
  | ReasonUnspecified => "unspecified"
  | ReasonUploadExpired => "upload_expired"
  | ReasonChecksumMismatch => "checksum_mismatch"
  | ReasonSizeMismatch => "size_mismatch"
  | ReasonStorageProviderError => "storage_provider_error"
  | ReasonQuotaExceeded => "quota_exceeded"
  | ReasonCanceled => "canceled"
  end.

Definition validate_transfer_config (config : TransferQueueConfig) : SyncResult unit :=
  _ ← reject_if (max_upload_concurrency config =? 0)
        (InvalidArgument "max_upload_concurrency must be at least 1");
  _ ← reject_if (max_download_concurrency config =? 0)
        (InvalidArgument "max_download_concurrency must be at least 1");
  reject_if (max_attempts config =? 0) (InvalidArgument "max_attempts must be at least 1").

(** [checked_size], its failure as [local_upload_from] reports it. *)
Definition checked_size (size : Z) : SyncResult Z :=
  ok_or (i64_try_from size) (InvalidArgument "object is too large to describe").
Definition checked_count (count : nat) : Z := Z.min (Z.of_nat count) i64_max.
Definition i64_saturating_add (a b : Z) : Z := Z.max i64_min (Z.min i64_max (a + b)).

(** [std::time::Duration], in nanoseconds: 64 bits of seconds. *)
Definition DURATION_MAX : Z := (2 ^ 64 - 1) * 1000000000 + 999999999.
Definition as_millis (d : Z) : Z := d / 1000000.
Definition duration_ms_i64 (d : Z) : Z := Z.min (as_millis d) i64_max.

(** [jitter_seed]: the nanoseconds of the current second. *)
Definition retry_delay (initial_backoff : Z) (attempt : nat) (jitter_seed : Z) : Z :=
  if (initial_backoff =? 0)%Z then 0
  else
    let multiplier := Z.min (Z.of_nat (attempt + 1)) (2 ^ 32 - 1) in
    let base := Z.min DURATION_MAX (initial_backoff * multiplier) in
    let jitter_cap_ms := Z.min (as_millis base / 4) 1000 in
    if (jitter_cap_ms =? 0)%Z then base
    else
      let jitter_ms := (jitter_seed `mod` (jitter_cap_ms + 1))%Z in
      Z.min DURATION_MAX (base + jitter_ms * 1000000).

(** ** The retry loop

    [upload_planned_objects] and [download_objects] repeat the same loop around
    an attempt; [label] is the word their messages start with. A failing call of
    the service ends the loop as a fatal failure does. *)
Definition direction_label (direction : TransferDirection) : string :=
  match direction with Upload => "upload" | Download => "download" end.

Fixpoint attempt_loop `{TransferNet} {A} (config : TransferQueueConfig) (direction : TransferDirection)
    (total_objects : Z) (turn : nat → Result AttemptFailure A) (attempt remaining : nat)
  : list TransferProgressEvent * SyncResult A :=
  let max_count := checked_count (max_attempts config) in
  match remaining with
  | O =>
      let error := Transport (direction_label direction
                              +:+ " transfer failed without running an attempt") in
      ([BatchFailed direction (display error)], Err error)
  | S remaining =>
      let started := BatchStarted direction total_objects (checked_count (attempt + 1)) max_count in
      match turn attempt with
      | Ok a => ([started; BatchCompleted direction], Ok a)
      | Err (Retryable message) =>
          if attempt + 1 <? max_attempts config then
            let delay := retry_delay (initial_backoff config) attempt (nanos_at attempt) in
            let '(events, result) :=
              attempt_loop config direction total_objects turn (attempt + 1) remaining in
            (started :: RetryScheduled direction (checked_count (attempt + 2)) max_count
               (i64_saturating_add (now_at attempt) (duration_ms_i64 delay)) message :: events, result)
          else
            ([started; BatchFailed direction message],
             Err (Transport (direction_label direction +:+ " transfer failed after retries: "
                             +:+ message)))
      | Err (Fatal error) => ([started; BatchFailed direction (display error)], Err error)
      end
  end.

Section transfer.
Context `{CryptoLib, TransferNet}.

Definition sha256_hex (b : bytes) : string := hex_encode (sha256 b).

(** ** Uploads *)

Definition local_upload_from (object : EncryptedUploadObject) : SyncResult LocalUpload :=
  _ ← validate_required (eu_client_object_ref object) "client_object_ref";
  size ← checked_size (byte_len (eu_ciphertext object));
  Ok {| lu_client_object_ref := eu_client_object_ref object; lu_kind := eu_kind object;
        lu_ciphertext_sha256 := sha256_hex (eu_ciphertext object); lu_size_bytes := size;
        lu_ciphertext := eu_ciphertext object |}.

Definition local_reserved_upload_from (object : ReservedEncryptedUploadObject)
  : SyncResult PlannedUpload :=
  _ ← validate_required (re_object_id object) "object_id";
  size ← checked_size (byte_len (re_ciphertext object));
  Ok {| pu_descriptor := {| ud_object_id := re_object_id object; ud_kind := re_kind object;
                            ud_ciphertext_sha256 := sha256_hex (re_ciphertext object);
                            ud_size_bytes := size |};
        pu_ciphertext := re_ciphertext object |}.

Definition planned_upload (by_ref : gmap string ReservedObject) (upload : LocalUpload)
  : SyncResult PlannedUpload :=
  reservation ← ok_or (by_ref !! lu_client_object_ref upload)
                  (Transport ("ReserveObjectIds response missing " +:+ lu_client_object_ref upload));
  _ ← reject_if (negb (bool_decide (ro_kind reservation = lu_kind upload)))
        (Transport ("reserved object kind mismatch for " +:+ lu_client_object_ref upload));
  Ok {| pu_descriptor := {| ud_object_id := ro_object_id reservation; ud_kind := lu_kind upload;
                            ud_ciphertext_sha256 := lu_ciphertext_sha256 upload;
                            ud_size_bytes := lu_size_bytes upload |};
        pu_ciphertext := lu_ciphertext upload |}.

Definition reserve_upload_objects (workspace_id device_id : string)
    (objects : list EncryptedUploadObject) : SyncResult (list PlannedUpload) :=
  local ← try_map local_upload_from objects;
  reservations ← reserve_object_ids workspace_id device_id
    ((λ u, {| or_client_object_ref := lu_client_object_ref u; or_kind := lu_kind u |}) <$> local);
  let by_ref := insert_all ∅ ((λ r, (ro_client_object_ref r, r)) <$> reservations) in
  try_map (planned_upload by_ref) local.

Definition upload_one (attempt : nat) (x : PlannedUpload * ObjectUploadTargetDescriptor)
  : Result AttemptFailure CompletedObjectUploadDescriptor :=
  let '(upload, target) := x in
  etag ← map_err from_http
           (http_put attempt {| put_url := ut_put_url target;
                                put_headers := ut_required_headers target;
                                put_body := pu_ciphertext upload |});
  let d := pu_descriptor upload in
  Ok {| cu_object_id := ud_object_id d; cu_ciphertext_sha256 := ud_ciphertext_sha256 d;
        cu_size_bytes := ud_size_bytes d; cu_provider_etag := etag |}.

Definition upload_target (targets : gmap string ObjectUploadTargetDescriptor) (upload : PlannedUpload)
  : Result AttemptFailure (PlannedUpload * ObjectUploadTargetDescriptor) :=
  target ← ok_or (targets !! ud_object_id (pu_descriptor upload))
             (Fatal (Transport ("upload batch response missing target for "
                                +:+ ud_object_id (pu_descriptor upload))));
  Ok (upload, target).

(** A missing target ends the attempt; otherwise every request runs, and the
    first failure in the order of the objects is the attempt's. *)
Definition upload_attempt (attempt : nat) (uploads : list PlannedUpload)
    (targets : list ObjectUploadTargetDescriptor)
  : Result AttemptFailure (list CompletedObjectUploadDescriptor) :=
  let targets := insert_all ∅ ((λ t, (ut_object_id t, t)) <$> targets) in
  pairs ← try_map (upload_target targets) uploads;
  try_map (upload_one attempt) pairs.

Definition validate_completion (expected : gmap string ObjectUploadDescriptor)
    (completion : ObjectUploadCompletion) : SyncResult UploadedObjectMetadata :=
  _ ← (match oc_error_reason completion with
       | Some reason => Err (Transport ("object upload completion failed: "
                                        +:+ object_error_reason_name reason))
       | None => Ok tt
       end);
  object ← ok_or (oc_object completion)
             (Transport "complete upload response missing object metadata");
  descriptor ← ok_or (expected !! um_object_id object)
    (Transport ("complete upload response included unknown object " +:+ um_object_id object));
  _ ← reject_if (negb (bool_decide (um_ciphertext_sha256 object = ud_ciphertext_sha256 descriptor)))
        (Integrity ("completed object " +:+ um_object_id object +:+ " hash mismatch: expected "
                    +:+ ud_ciphertext_sha256 descriptor +:+ ", got " +:+ um_ciphertext_sha256 object));
  _ ← reject_if (negb (um_size_bytes object =? ud_size_bytes descriptor)%Z)
        (Integrity ("completed object " +:+ um_object_id object +:+ " size mismatch: expected "
                    +:+ fmt_int (ud_size_bytes descriptor) +:+ ", got "
                    +:+ fmt_int (um_size_bytes object)));
  Ok object.

Definition validate_upload_completions (completions : list ObjectUploadCompletion)
    (descriptors : list ObjectUploadDescriptor) : SyncResult (list UploadedObjectMetadata) :=
  _ ← reject_if (negb (length completions =? length descriptors))
        (Transport ("complete upload response count mismatch: expected "
                    +:+ fmt_int (Z.of_nat (length descriptors)) +:+ ", got "
                    +:+ fmt_int (Z.of_nat (length completions))));
  let expected := insert_all ∅ ((λ d, (ud_object_id d, d)) <$> descriptors) in
  try_map (validate_completion expected) completions.

(** One turn of the loop of [upload_planned_objects]. *)
Definition upload_turn (workspace_id device_id upload_attempt_id : string)
    (uploads : list PlannedUpload) (attempt : nat)
  : Result AttemptFailure (list UploadedObjectMetadata) :=
  let descriptors := pu_descriptor <$> uploads in
  targets ← map_err Fatal
    (create_object_upload_batch attempt workspace_id device_id upload_attempt_id descriptors);
  completed ← upload_attempt attempt uploads targets;
  completions ← map_err Fatal
    (complete_object_upload_batch attempt workspace_id device_id upload_attempt_id completed);
  map_err Fatal (validate_upload_completions completions descriptors).

Definition upload_planned_objects (config : TransferQueueConfig)
    (workspace_id device_id upload_attempt_id : string) (uploads : list PlannedUpload)
  : list TransferProgressEvent * SyncResult (list UploadedObjectMetadata) :=
  attempt_loop config Upload (checked_count (length uploads))
    (upload_turn workspace_id device_id upload_attempt_id uploads) 0 (max_attempts config).

Definition validate_transfer_ids (workspace_id device_id : string) : SyncResult unit :=
  _ ← validate_required workspace_id "workspace_id"; validate_required device_id "device_id".

Definition upload_objects (config : TransferQueueConfig)
    (workspace_id device_id upload_attempt_id : string) (objects : list EncryptedUploadObject)
  : list TransferProgressEvent * SyncResult (list UploadedObjectMetadata) :=
  match (_ ← validate_transfer_ids workspace_id device_id;
         validate_required upload_attempt_id "upload_attempt_id") with
  | Err e => ([], Err e)
  | Ok _ =>
      match objects with
      | [] => ([], Ok [])
      | _ =>
          match reserve_upload_objects workspace_id device_id objects with
          | Err e => ([], Err e)
          | Ok uploads => upload_planned_objects config workspace_id device_id upload_attempt_id uploads
          end
      end
  end.

Definition upload_reserved_objects (config : TransferQueueConfig)
    (workspace_id device_id upload_attempt_id : string) (objects : list ReservedEncryptedUploadObject)
  : list TransferProgressEvent * SyncResult (list UploadedObjectMetadata) :=
  match (_ ← validate_transfer_ids workspace_id device_id;
         validate_required upload_attempt_id "upload_attempt_id") with
  | Err e => ([], Err e)
  | Ok _ =>
      match objects with
      | [] => ([], Ok [])
      | _ =>
          match try_map local_reserved_upload_from objects with
          | Err e => ([], Err e)
          | Ok uploads => upload_planned_objects config workspace_id device_id upload_attempt_id uploads
          end
      end
  end.

(** ** Downloads *)

Definition download_target (attempt : nat) (target : ObjectDownloadTargetDescriptor)
  : Result AttemptFailure DownloadedObject :=
  body ← map_err from_http (http_get attempt {| get_url := dt_get_url target;
                                                get_headers := dt_required_headers target |});
  let observed_sha256 := sha256_hex body in
  _ ← reject_if (negb (bool_decide (observed_sha256 = dt_ciphertext_sha256 target)))
        (Fatal (Integrity ("downloaded object " +:+ dt_object_id target +:+ " hash mismatch: expected "
                           +:+ dt_ciphertext_sha256 target +:+ ", got " +:+ observed_sha256)));
  observed_size ← map_err Fatal (checked_size (byte_len body));
  _ ← reject_if (negb (observed_size =? dt_size_bytes target)%Z)
        (Fatal (Integrity ("downloaded object " +:+ dt_object_id target +:+ " size mismatch: expected "
                           +:+ fmt_int (dt_size_bytes target) +:+ ", got " +:+ fmt_int observed_size)));
  Ok {| d_object_id := dt_object_id target; d_kind := dt_kind target;
        d_ciphertext_sha256 := observed_sha256; d_ciphertext := body |}.

Definition download_attempt (attempt : nat) (targets : list ObjectDownloadTargetDescriptor)
  : Result AttemptFailure (list DownloadedObject) := try_map (download_target attempt) targets.

Definition download_turn (workspace_id device_id : string) (object_ids : list string) (attempt : nat)
  : Result AttemptFailure (list DownloadedObject) :=
  targets ← map_err Fatal (create_object_download_batch attempt workspace_id device_id object_ids);
  download_attempt attempt targets.

Definition download_loop (config : TransferQueueConfig) (workspace_id device_id : string)
    (object_ids : list string) : list TransferProgressEvent * SyncResult (list DownloadedObject) :=
  match validate_transfer_ids workspace_id device_id with
  | Err e => ([], Err e)
  | Ok _ =>
      match object_ids with
      | [] => ([], Ok [])
      | _ => attempt_loop config Download (checked_count (length object_ids))
               (download_turn workspace_id device_id object_ids) 0 (max_attempts config)
      end
  end.

(** [download_objects], without its progress events. *)
Definition download_objects (config : TransferQueueConfig) (workspace_id device_id : string)
    (object_ids : list string) : SyncResult (list DownloadedObject) :=
  (download_loop config workspace_id device_id object_ids).2.
End transfer.

(** ** The retry loop *)

Section retry.
Context `{TransferNet}.

(** The events of the attempts [attempt .. attempt + n - 1], all retried. *)
Definition retried_event (config : TransferQueueConfig) (direction : TransferDirection) (total : Z)
    (message : string) (i : nat) : list TransferProgressEvent :=
  let max_count := checked_count (max_attempts config) in
  [BatchStarted direction total (checked_count (i + 1)) max_count;
   RetryScheduled direction (checked_count (i + 2)) max_count
     (i64_saturating_add (now_at i)
        (duration_ms_i64 (retry_delay (initial_backoff config) i (nanos_at i)))) message].
Fixpoint retried_events (config : TransferQueueConfig) (direction : TransferDirection) (total : Z)
    (messages : list string) (i : nat) : list TransferProgressEvent :=
  match messages with
  | [] => []
  | m :: messages => retried_event config direction total m i
                       ++ retried_events config direction total messages (S i)
  end.

(** How the loop ends with the outcome of its last attempt. *)
Definition last_outcome {A} (config : TransferQueueConfig) (direction : TransferDirection) (k : nat)
    (outcome : Result AttemptFailure A) (final : TransferProgressEvent) (result : SyncResult A) : Prop :=
  match outcome with
  | Ok a => final = BatchCompleted direction ∧ result = Ok a
  | Err (Fatal e) => final = BatchFailed direction (display e) ∧ result = Err e
  | Err (Retryable m) =>
      S k = max_attempts config ∧ final = BatchFailed direction m ∧
      result = Err (Transport (direction_label direction +:+ " transfer failed after retries: " +:+ m))
  end.

Lemma attempt_loop_from {A} config direction total (turn : nat → Result AttemptFailure A) i n :
  0 < n → i + n = max_attempts config →
  ∃ messages final,
    let k := i + length messages in
    k < max_attempts config ∧
    (∀ j m, messages !! j = Some m → turn (i + j) = Err (Retryable m)) ∧
    last_outcome config direction k (turn k) final
      (attempt_loop config direction total turn i n).2 ∧
    (attempt_loop config direction total turn i n).1 =
      retried_events config direction total messages i
        ++ [BatchStarted direction total (checked_count (k + 1)) (checked_count (max_attempts config)); final].
Proof.
  revert i. induction n as [|n IH]; intros i Hn Hi; [lia|]. simpl.
  assert (Hstop : ∀ final result,
    last_outcome config direction i (turn i) final result →
    ∃ messages final', let k := i + length messages in
      k < max_attempts config ∧
      (∀ j m, messages !! j = Some m → turn (i + j) = Err (Retryable m)) ∧
      last_outcome config direction k (turn k) final' result ∧
      [BatchStarted direction total (checked_count (i + 1)) (checked_count (max_attempts config)); final] =
      retried_events config direction total messages i
        ++ [BatchStarted direction total (checked_count (k + 1)) (checked_count (max_attempts config)); final']).
  { intros final result Hl. exists [], final. simpl. rewrite Nat.add_0_r. split_and!; [lia|done..]. }
  destruct (turn i) as [a|[m|e]] eqn:Ht.
  - apply Hstop. done.
  - destruct (Nat.ltb_spec (i + 1) (max_attempts config)) as [Hlt|Hge].
    + destruct (IH (i + 1)) as (messages & final & Hk & Hm & Hlast & Hev); [lia|lia|].
      destruct (attempt_loop config direction total turn (i + 1) n) as [events result]. simpl in *.
      exists (m :: messages), final. simpl.
      replace (i + S (length messages)) with (i + 1 + length messages) by lia.
      split_and!; [done| |done|].
      * intros [|j] m'; simpl; [intros [= <-]; by rewrite Nat.add_0_r|].
        replace (i + S j) with (i + 1 + j) by lia. apply Hm.
      * rewrite Hev. unfold retried_event. by replace (S i) with (i + 1) by lia.
    + apply Hstop. split; [lia|done].
  - apply Hstop. done.
Qed.

(** C25: the retry loop of a transfer. With at least one attempt allowed, the loop
    ends in some attempt [k] below the limit; every attempt before it failed in a
    retryable way and was announced, with its retry, in order; the result is that
    of attempt [k]: its value, its fatal error, or, only for the last attempt
    allowed, the report that retries were exhausted; exactly one closing event
    ends the progress. *)
Theorem attempt_loop_trace {A} (config : TransferQueueConfig) (direction : TransferDirection)
    (total : Z) (turn : nat → Result AttemptFailure A) :
  0 < max_attempts config →
  ∃ messages final,
    let k := length messages in
    k < max_attempts config ∧
    (∀ j m, messages !! j = Some m → turn j = Err (Retryable m)) ∧
    last_outcome config direction k (turn k) final
      (attempt_loop config direction total turn 0 (max_attempts config)).2 ∧
    (attempt_loop config direction total turn 0 (max_attempts config)).1 =
      retried_events config direction total messages 0
        ++ [BatchStarted direction total (checked_count (k + 1)) (checked_count (max_attempts config)); final].
Proof. intros Hpos. by apply (attempt_loop_from config direction total turn 0). Qed.

Lemma attempt_loop_Ok {A} config direction total (turn : nat → Result AttemptFailure A) a :
  (attempt_loop config direction total turn 0 (max_attempts config)).2 = Ok a →
  ∃ k, k < max_attempts config ∧ turn k = Ok a ∧ ∀ j, j < k → ∃ m, turn j = Err (Retryable m).
Proof.
  intros Hok. destruct (max_attempts config) as [|n] eqn:Hmax; [done|]. rewrite <- Hmax in *.
  destruct (attempt_loop_from config direction total turn 0 (max_attempts config))
    as (messages & final & Hk & Hm & Hlast & _); [lia|lia|]. simpl in *. rewrite Hok in Hlast.
  exists (length messages). split; [done|]. unfold last_outcome in Hlast.
  destruct (turn (length messages)) as [b|[m|e]]; [|naive_solver..].
  destruct Hlast as [_ [= ->]]. split; [done|]. intros j Hj.
  destruct (lookup_lt_is_Some_2 messages j Hj) as [m Hl]. exists m. by apply Hm.
Qed.
End retry.

(** ** What a finished transfer guarantees *)

Section transfer_proofs.
Context `{CryptoLib, TransferNet}.

Lemma insert_all_lookup {V} (key : V → string) (l : list V) k v :
  insert_all ∅ ((λ x, (key x, x)) <$> l) !! k = Some v → v ∈ l ∧ key v = k.
Proof.
  assert (Hgen : ∀ m : gmap string V, (∀ k v, m !! k = Some v → v ∈ l ∧ key v = k) →
    ∀ l', l' ⊆ l → insert_all m ((λ x, (key x, x)) <$> l') !! k = Some v → v ∈ l ∧ key v = k).
  { intros m Hm l'. revert m Hm. induction l' as [|x l' IH]; intros m Hm Hsub; simpl; [apply Hm|].
    apply IH; [|set_solver]. intros k' v' [[<- <-]|[_ Hl]]%lookup_insert_Some; [|by apply Hm].
    split; [set_solver|done]. }
  apply Hgen; [|done]. intros k' v'. by rewrite lookup_empty.
Qed.

(** What the service is told about an object. *)
Definition describes (o : ReservedEncryptedUploadObject) (d : ObjectUploadDescriptor) : Prop :=
  ud_object_id d = re_object_id o ∧ ud_kind d = re_kind o ∧
  ud_ciphertext_sha256 d = sha256_hex (re_ciphertext o) ∧ ud_size_bytes d = byte_len (re_ciphertext o) ∧
  (byte_len (re_ciphertext o) ≤ i64_max)%Z.
(** The object was sent to its target in attempt [k] and accepted; [c] reports it. *)
Definition put_in_attempt (k : nat) (targets : list ObjectUploadTargetDescriptor)
    (o : ReservedEncryptedUploadObject) (c : CompletedObjectUploadDescriptor) : Prop :=
  ∃ target etag, target ∈ targets ∧ ut_object_id target = re_object_id o ∧
    http_put k {| put_url := ut_put_url target; put_headers := ut_required_headers target;
                  put_body := re_ciphertext o |} = Ok etag ∧
    c = {| cu_object_id := re_object_id o; cu_ciphertext_sha256 := sha256_hex (re_ciphertext o);
           cu_size_bytes := byte_len (re_ciphertext o); cu_provider_etag := etag |}.
Definition acknowledges (completion : ObjectUploadCompletion) (m : UploadedObjectMetadata) : Prop :=
  oc_error_reason completion = None ∧ oc_object completion = Some m.
Definition metadata_of (o : ReservedEncryptedUploadObject) (m : UploadedObjectMetadata) : Prop :=
  um_object_id m = re_object_id o ∧ um_ciphertext_sha256 m = sha256_hex (re_ciphertext o) ∧
  um_size_bytes m = byte_len (re_ciphertext o).
(** Attempt [k] put the objects, told the service, and got the answer [uploaded]. *)
Definition attempt_did (k : nat) (ws dev upload_id : string) (objects : list ReservedEncryptedUploadObject)
    (uploaded : list UploadedObjectMetadata) : Prop :=
  ∃ descriptors targets completed completions,
    Forall2 describes objects descriptors ∧
    create_object_upload_batch k ws dev upload_id descriptors = Ok targets ∧
    Forall2 (put_in_attempt k targets) objects completed ∧
    complete_object_upload_batch k ws dev upload_id completed = Ok completions ∧
    Forall2 acknowledges completions uploaded ∧ length uploaded = length objects.

(** What is planned for an object. *)
Definition plans (o : ReservedEncryptedUploadObject) (u : PlannedUpload) : Prop :=
  describes o (pu_descriptor u) ∧ pu_ciphertext u = re_ciphertext o.
Lemma local_reserved_upload_plans o u : local_reserved_upload_from o = Ok u → plans o u.
Proof.
  unfold local_reserved_upload_from. intros (x & _ & (size & Hs & [= <-])%bind_Ok_inv)%bind_Ok_inv.
  apply ok_or_Ok in Hs. unfold i64_try_from in Hs.
  destruct (Z.leb_spec (byte_len (re_ciphertext o)) i64_max); [|done]. injection Hs as <-. done.
Qed.

Lemma upload_attempt_puts k objects uploads targets completed :
  Forall2 plans objects uploads → upload_attempt k uploads targets = Ok completed →
  Forall2 (put_in_attempt k targets) objects completed.
Proof.
  intros Hplans (pairs & Hpairs%try_map_Ok & Hputs%try_map_Ok)%bind_Ok_inv.
  revert completed pairs Hpairs Hputs.
  induction Hplans as [|o u objects uploads [Hd Hc] _ IH]; intros completed pairs Hpairs Hputs.
  - inversion Hpairs; subst. inversion Hputs; subst. constructor.
  - inversion Hpairs as [|? pair ? pairs' Hpair Hpairs']; subst.
    inversion Hputs as [|? c ? completed' Hput Hputs']; subst.
    constructor; [|by eapply IH]. clear IH Hpairs Hpairs' Hputs Hputs'.
    apply bind_Ok_inv in Hpair as (t & Ht%ok_or_Ok & [= <-]).
    apply insert_all_lookup in Ht as [Hin Hid].
    apply bind_Ok_inv in Hput as (etag & Hhttp%map_err_Ok & [= <-]).
    destruct Hd as (Ho & _ & Hh & Hs & _). rewrite Hc in Hhttp. exists t, etag.
    rewrite Ho in Hid. rewrite Ho, Hh, Hs. done.
Qed.

(** An accepted answer is acknowledged metadata of objects that were described. *)
Lemma validate_completion_Ok descriptors completion m :
  validate_completion (insert_all ∅ ((λ d, (ud_object_id d, d)) <$> descriptors)) completion = Ok m →
  acknowledges completion m ∧ ∃ d, d ∈ descriptors ∧ um_object_id m = ud_object_id d ∧
    um_ciphertext_sha256 m = ud_ciphertext_sha256 d ∧ um_size_bytes m = ud_size_bytes d.
Proof.
  intros (u1 & He & Hc)%bind_Ok_inv. apply bind_Ok_inv in Hc as (o & Ho%ok_or_Ok & Hc).
  apply bind_Ok_inv in Hc as (d & Hd%ok_or_Ok & Hc).
  apply bind_Ok_inv in Hc as (u2 & Hhash%reject_if_Ok & Hc).
  apply bind_Ok_inv in Hc as (u3 & Hsize%reject_if_Ok & [= <-]).
  apply insert_all_lookup in Hd as [Hin Hid].
  apply negb_false_iff, bool_decide_eq_true in Hhash. apply negb_false_iff, Z.eqb_eq in Hsize.
  split; [split; [by destruct (oc_error_reason completion)|done]|by exists d].
Qed.

Lemma upload_turn_Ok ws dev upload_id objects uploads k uploaded :
  Forall2 plans objects uploads → upload_turn ws dev upload_id uploads k = Ok uploaded →
  attempt_did k ws dev upload_id objects uploaded ∧
  ∀ m, m ∈ uploaded → ∃ o, o ∈ objects ∧ metadata_of o m ∧ (byte_len (re_ciphertext o) ≤ i64_max)%Z.
Proof.
  unfold upload_turn, validate_upload_completions. intros Hplans Hturn.
  apply bind_Ok_inv in Hturn as (targets & Htargets%map_err_Ok & Hturn).
  apply bind_Ok_inv in Hturn as (completed & Hsent & Hturn).
  apply bind_Ok_inv in Hturn as (completions & Hcompl%map_err_Ok & Hval%map_err_Ok).
  apply bind_Ok_inv in Hval as (u & Hlen%reject_if_Ok & Hval%try_map_Ok).
  assert (Hdesc : Forall2 describes objects (pu_descriptor <$> uploads)).
  { apply Forall2_fmap_r. eapply Forall2_impl; [exact Hplans|]. by intros o' u' [? _]. }
  split.
  - exists (pu_descriptor <$> uploads), targets, completed, completions. split_and!; try done.
    + by eapply upload_attempt_puts.
    + eapply Forall2_impl; [exact Hval|]. by intros c m [? _]%validate_completion_Ok.
    + apply negb_false_iff, Nat.eqb_eq in Hlen. apply Forall2_length in Hval. apply Forall2_length in Hdesc. lia.
  - intros m [i Hi]%list_elem_of_lookup.
    destruct (Forall2_lookup_r _ _ _ _ _ Hval Hi) as (c & _ & [_ (d & [j Hj]%list_elem_of_lookup & Hm)]%validate_completion_Ok).
    destruct (Forall2_lookup_r _ _ _ _ _ Hdesc Hj) as (o & Ho & Hid & _ & Hh & Hs & Hmax).
    exists o. split; [by eapply list_elem_of_lookup_2|]. split; [|done]. unfold metadata_of.
    rewrite <- Hid, <- Hh, <- Hs. done.
Qed.

Lemma upload_reserved_objects_Ok (config : TransferQueueConfig) (ws dev upload_id : string)
    (objects : list ReservedEncryptedUploadObject) (uploaded : list UploadedObjectMetadata) :
  (upload_reserved_objects config ws dev upload_id objects).2 = Ok uploaded → objects ≠ [] →
  (∃ k, k < max_attempts config ∧ attempt_did k ws dev upload_id objects uploaded) ∧
  ∀ m, m ∈ uploaded → ∃ o, o ∈ objects ∧ metadata_of o m ∧ (byte_len (re_ciphertext o) ≤ i64_max)%Z.
Proof.
  unfold upload_reserved_objects. intros Hok Hne.
  destruct (_ ← validate_transfer_ids ws dev; _) as [u|e]; [|done].
  destruct objects as [|o0 objects0] eqn:Hobj; [done|]. rewrite <- Hobj in *. clear Hobj Hne o0 objects0.
  destruct (try_map local_reserved_upload_from objects) as [uploads|e] eqn:Hloc; [|done].
  assert (Hplans : Forall2 plans objects uploads).
  { apply try_map_Ok in Hloc. eapply Forall2_impl; [exact Hloc|]. intros o u'. apply local_reserved_upload_plans. }
  apply attempt_loop_Ok in Hok as (k & Hk & Hturn & _).
  destruct (upload_turn_Ok _ _ _ _ _ _ _ Hplans Hturn) as [Hdid Hmeta]. split; [by exists k|done].
Qed.

(** Distinct acknowledgements, as many as objects and each of an object, reach every object. *)
Lemma distinct_metadata_cover (objects : list ReservedEncryptedUploadObject)
    (uploaded : list UploadedObjectMetadata) :
  (∀ m, m ∈ uploaded → ∃ o, o ∈ objects ∧ metadata_of o m) →
  length uploaded = length objects → NoDup (um_object_id <$> uploaded) →
  ∀ o, o ∈ objects → ∃ m, m ∈ uploaded ∧ metadata_of o m.
Proof.
  intros Hm Hlen Hnd o Ho.
  assert (Hperm : (um_object_id <$> uploaded) ≡ₚ (re_object_id <$> objects)).
  { apply submseteq_length_Permutation; [|by rewrite !length_fmap, Hlen].
    apply NoDup_submseteq; [done|]. intros x (m & -> & (o' & Ho' & Hid & _)%Hm)%list_elem_of_fmap.
    rewrite Hid. by apply list_elem_of_fmap_2. }
  assert (Hin : re_object_id o ∈ (um_object_id <$> uploaded)) by (rewrite Hperm; by apply list_elem_of_fmap_2).
  apply list_elem_of_fmap in Hin as (m & Hid & Hin). exists m. split; [done|].
  destruct (Hm m Hin) as (o' & Ho' & Hmeta). rewrite Hperm in Hnd.
  replace o with o'; [done|]. destruct Hmeta as [Hid' _]. rewrite Hid' in Hid.
  apply list_elem_of_lookup in Ho as [i Hi]. apply list_elem_of_lookup in Ho' as [j Hj].
  assert (i = j) as ->; [|congruence]. eapply NoDup_lookup; [exact Hnd|..]; rewrite list_lookup_fmap.
  - by rewrite Hi.
  - rewrite Hj. simpl. congruence.
Qed.

(** C26: a finished upload. When [upload_reserved_objects] succeeds on a non-empty
    batch, one attempt [k] below the limit did it all: it described every object
    to the service with its SHA-256 and its size; every ciphertext was accepted by
    its presigned target; the completion call listed exactly those objects, and was
    answered with as many acknowledgements, without an error reason, as there are
    objects; the metadata returned is that of the acknowledgements, and each states
    the SHA-256 and the size of the object of the batch that it names. If the
    acknowledged identifiers are distinct, every object is acknowledged. *)
Theorem upload_reserved_objects_sound (config : TransferQueueConfig) (ws dev upload_id : string)
    (objects : list ReservedEncryptedUploadObject) (uploaded : list UploadedObjectMetadata) :
  (upload_reserved_objects config ws dev upload_id objects).2 = Ok uploaded → objects ≠ [] →
  (∃ k, k < max_attempts config ∧ attempt_did k ws dev upload_id objects uploaded) ∧
  (∀ m, m ∈ uploaded → ∃ o, o ∈ objects ∧ metadata_of o m) ∧
  (NoDup (um_object_id <$> uploaded) → ∀ o, o ∈ objects → ∃ m, m ∈ uploaded ∧ metadata_of o m).
Proof.
  intros Hok Hne. destruct (upload_reserved_objects_Ok _ _ _ _ _ _ Hok Hne) as (Hdid & Hm).
  assert (Hm' : ∀ m, m ∈ uploaded → ∃ o, o ∈ objects ∧ metadata_of o m).
  { intros m (o & Ho & Hmeta & _)%Hm. by exists o. }
  split_and!; [done..|]. apply distinct_metadata_cover; [done|].
  by destruct Hdid as (k & _ & d & t & c & cs & _ & _ & _ & _ & _ & Hlen).
Qed.

(** A finished download. Every object [download_objects] returns was served
    by a target of one attempt below the limit, and its content has exactly the
    SHA-256 and the size that target announced. *)
Theorem download_objects_verified (config : TransferQueueConfig) (ws dev : string)
    (object_ids : list string) (downloads : list DownloadedObject) :
  download_objects config ws dev object_ids = Ok downloads → object_ids ≠ [] →
  ∃ k targets, k < max_attempts config ∧
    create_object_download_batch k ws dev object_ids = Ok targets ∧
    Forall2 (λ t d,
      d_object_id d = dt_object_id t ∧ d_kind d = dt_kind t ∧
      d_ciphertext_sha256 d = sha256_hex (d_ciphertext d) ∧
      d_ciphertext_sha256 d = dt_ciphertext_sha256 t ∧ dt_size_bytes t = byte_len (d_ciphertext d) ∧
      http_get k {| get_url := dt_get_url t; get_headers := dt_required_headers t |} = Ok (d_ciphertext d))
      targets downloads.
Proof.
  unfold download_objects, download_loop. intros Hok Hne.
  destruct (validate_transfer_ids ws dev) as [u|e]; [|done].
  destruct object_ids as [|o0 ids0] eqn:Hobj; [done|]. rewrite <- Hobj in *. clear Hobj Hne o0 ids0.
  apply attempt_loop_Ok in Hok as (k & Hk & Hturn & _). unfold download_turn in Hturn.
  apply bind_Ok_inv in Hturn as (targets & Ht%map_err_Ok & Hall%try_map_Ok).
  exists k, targets. split_and!; [done..|]. eapply Forall2_impl; [exact Hall|]. intros t d Hd.
  unfold download_target in Hd. apply bind_Ok_inv in Hd as (body & Hget%map_err_Ok & Hd).
  apply bind_Ok_inv in Hd as (u1 & Hhash%reject_if_Ok & Hd).
  apply bind_Ok_inv in Hd as (size & Hs%map_err_Ok & Hd).
  apply bind_Ok_inv in Hd as (u2 & Hsize%reject_if_Ok & [= <-]). simpl.
  apply negb_false_iff, bool_decide_eq_true in Hhash. apply negb_false_iff, Z.eqb_eq in Hsize.
  split_and!; try done. rewrite <- Hsize. unfold checked_size in Hs. apply ok_or_Ok in Hs.
  unfold i64_try_from in Hs. destruct (_ <=? _)%Z; naive_solver.
Qed.

Lemma retry_delay_bounds initial_backoff attempt seed :
  (0 ≤ initial_backoff ≤ DURATION_MAX)%Z → (0 ≤ seed)%Z →
  let base := Z.min DURATION_MAX (initial_backoff * Z.min (Z.of_nat (attempt + 1)) (2 ^ 32 - 1)) in
  (base ≤ retry_delay initial_backoff attempt seed ≤ Z.min DURATION_MAX (base + base / 4) ∧
   retry_delay initial_backoff attempt seed ≤ base + 1000 * 1000000)%Z.
Proof.
  intros Hb Hseed base. unfold retry_delay.
  assert (Hm : (1 ≤ Z.min (Z.of_nat (attempt + 1)) (2 ^ 32 - 1))%Z) by lia.
  assert (Hbase : (0 ≤ base ≤ DURATION_MAX)%Z) by (unfold base, DURATION_MAX in *; nia).
  destruct (Z.eqb_spec initial_backoff 0) as [->|Hne].
  { assert (base = 0)%Z as -> by (unfold base, DURATION_MAX; lia). vm_compute. intuition discriminate. }
  fold base. pose proof (Z.div_le_mono 0 base 4) as Hq. rewrite Z.div_0_l in Hq by lia.
  destruct (Z.eqb_spec (Z.min (as_millis base / 4) 1000) 0) as [Hz|Hnz]; [lia|].
  set (cap := Z.min (as_millis base / 4) 1000) in *.
  assert (Hcap : (0 < cap ≤ 1000 ∧ cap * 1000000 ≤ base / 4)%Z).
  { unfold cap, as_millis in *.
    pose proof (Z.div_pos base 1000000). pose proof (Z.div_pos (base / 1000000) 4).
    pose proof (Z.mul_div_le (base / 1000000) 4). pose proof (Z.mul_div_le base 1000000).
    pose proof (Z.div_le_lower_bound base 4 (Z.min (base / 1000000 / 4) 1000 * 1000000)). lia. }
  pose proof (Z.mod_pos_bound seed (cap + 1)). lia.
Qed.
End transfer_proofs.

Module Examples.
#[local] Existing Instance Toy.crypto.

(** A store that is unreachable in the first attempt and keeps one object. *)
Definition stored : bytes := "ciphertext".
Definition target : ObjectDownloadTargetDescriptor :=
  {| dt_object_id := "o1"; dt_kind := ObjContentPack; dt_get_url := "u1"; dt_required_headers := [];
     dt_ciphertext_sha256 := sha256_hex stored; dt_size_bytes := 10%Z |}.
Definition net : TransferNet :=
  {| reserve_object_ids _ _ objects :=
       Ok ((λ o, {| ro_client_object_ref := or_client_object_ref o;
                    ro_object_id := "id-" +:+ or_client_object_ref o; ro_kind := or_kind o |}) <$> objects);
     create_object_upload_batch _ _ _ _ objects :=
       Ok ((λ d, {| ut_object_id := ud_object_id d; ut_put_url := ud_object_id d;
                    ut_required_headers := [] |}) <$> objects);
     complete_object_upload_batch _ _ _ _ objects :=
       Ok ((λ c, {| oc_object := Some {| um_object_id := cu_object_id c;
                                         um_ciphertext_sha256 := cu_ciphertext_sha256 c;
                                         um_size_bytes := cu_size_bytes c |};
                    oc_error_reason := None |}) <$> objects);
     create_object_download_batch _ _ _ _ := Ok [target];
     http_put attempt _ := if attempt =? 0 then Err (Network "reset") else Ok None;
     http_get attempt _ := if attempt =? 0 then Err (Status 503%Z "") else Ok stored;
     now_at _ := 1000%Z; nanos_at _ := 7%Z |}.
#[local] Existing Instance net.
Definition objects : list ReservedEncryptedUploadObject :=
  [{| re_object_id := "o1"; re_kind := ObjContentPack; re_ciphertext := stored |};
   {| re_object_id := "o2"; re_kind := ObjCommitBody; re_ciphertext := "body" |}].
Definition uploaded : list UploadedObjectMetadata :=
  [{| um_object_id := "o1"; um_ciphertext_sha256 := sha256_hex stored; um_size_bytes := 10%Z |};
   {| um_object_id := "o2"; um_ciphertext_sha256 := sha256_hex "body"; um_size_bytes := 4%Z |}].
Definition download_events : list TransferProgressEvent :=
  (download_loop default_transfer_config "w" "d" ["o1"]).1.

Example events_example : download_events =
  [BatchStarted Download 1%Z 1%Z 3%Z;
   RetryScheduled Download 2%Z 3%Z 1257%Z "object transfer returned HTTP 503";
   BatchStarted Download 1%Z 2%Z 3%Z; BatchCompleted Download].
Proof. vm_compute. reflexivity. Qed.

Lemma attempt_loop_trace_witness :
  ∃ messages final, length messages < 3 ∧
    download_events = retried_events default_transfer_config Download 1%Z messages 0
      ++ [BatchStarted Download 1%Z (checked_count (length messages + 1)) 3%Z; final].
Proof.
  destruct (attempt_loop_trace default_transfer_config Download 1%Z (download_turn "w" "d" ["o1"]))
    as (messages & final & Hk & _ & _ & Hev); [simpl; lia|].
  exists messages, final. split; [exact Hk|exact Hev].
Defined.

Lemma upload_reserved_objects_witness :
  attempt_did 1 "w" "d" "up" objects uploaded ∧
  ∀ o, o ∈ objects → ∃ m, m ∈ uploaded ∧ metadata_of o m.
Proof.
  destruct (upload_reserved_objects_sound default_transfer_config "w" "d" "up" objects uploaded)
    as ((k & Hk & Hdid) & _ & Hall); [vm_compute; reflexivity|done|]. split.
  - destruct k as [|[|[|k]]]; [|exact Hdid| |simpl in Hk; lia].
    + destruct Hdid as (ds & ts & cs & acks & _ & _ & Hput & _).
      inversion Hput as [|? ? ? ? (t & etag & _ & _ & Hhttp & _)]; subst. discriminate Hhttp.
    + destruct Hdid as (ds & ts & cs & acks & Hdid). exists ds, ts, cs, acks. exact Hdid.
  - apply Hall. refine (bool_decide_unpack (NoDup (um_object_id <$> uploaded)) _). vm_compute. exact I.
Defined.

(** A service that acknowledges the first object twice and the second never. *)
Definition repeating_net : TransferNet :=
  {| reserve_object_ids := reserve_object_ids;
     create_object_upload_batch := create_object_upload_batch;
     complete_object_upload_batch k ws dev upload_id objects :=
       acks ← complete_object_upload_batch k ws dev upload_id objects;
       Ok (match acks with ack :: _ => (λ _, ack) <$> acks | [] => [] end);
     create_object_download_batch := create_object_download_batch;
     http_put := http_put; http_get := http_get; now_at := now_at; nanos_at := nanos_at |}.
(** Only the number of acknowledgements is compared: the upload counts as complete. *)
Example repeated_acknowledgement_accepted :
  (@upload_reserved_objects Toy.crypto repeating_net default_transfer_config "w" "d" "up" objects).2
  = Ok (match uploaded with m :: _ => [m; m] | [] => [] end).
Proof. vm_compute. reflexivity. Qed.

Lemma download_objects_witness :
  ∃ k targets, k < 3 ∧ create_object_download_batch k "w" "d" ["o1"] = Ok targets ∧ length targets = 1.
Proof.
  destruct (download_objects_verified default_transfer_config "w" "d" ["o1"]
    [{| d_object_id := "o1"; d_kind := ObjContentPack; d_ciphertext_sha256 := sha256_hex stored;
        d_ciphertext := stored |}]) as (k & targets & Hk & Ht & Hall); [vm_compute; reflexivity|done|].
  exists k, targets. split; [exact Hk|split; [exact Ht|]]. apply Forall2_length in Hall. exact Hall.
Defined.
End Examples.
