(* ===== verification/SyncState.v ===== *)
(** * The state of the sync engine (sync/mod.rs, sync/types.rs)

    [SyncState] behind its mutex: the status shown to the user, the run in
    progress and the next run identifier. Every method locks the state once and is
    one step; the clock is an argument. The transitions are a step relation, over
    which the invariant of the state and the freshness of run identifiers are
    proved; the progress of a transfer is followed through the events of the
    transfer queue. *)
From Stdlib Require Import Ascii String.
#[local] Set Warnings "-clear-no-such-hyp".
From S2P Require Import Prelude SyncErrors Paths Transfer.

(** ** types.rs *)

Record SyncVaultConfig := {
  cf_vault_id : string;
  cf_root_path : string;
  cf_account_key_id : option string;
  cf_remote_workspace_id : string;
  cf_workspace_name : option string;
  cf_device_id : string;
  cf_device_name : option string;
  cf_remember_workspace_key : bool;
  cf_passphrase : option string }.

Inductive SyncPhase :=
| PhaseNotConfigured | PhaseDisabled | PhaseIdle | PhasePlanning | PhasePacking
| PhaseTransferring | PhasePublishing | PhaseApplying | PhaseError.
#[export] Instance SyncPhase_eq_dec : EqDecision SyncPhase.
Proof. solve_decision. Defined.

Inductive SyncTransferDirection := DirIdle | DirUpload | DirDownload | DirBoth.
#[export] Instance SyncTransferDirection_eq_dec : EqDecision SyncTransferDirection.
Proof. solve_decision. Defined.

Record SyncTransferStatus := {
  ts_active : bool;
  ts_direction : SyncTransferDirection;
  ts_retrying : bool;
  ts_upload_total_objects : Z;
  ts_upload_completed_objects : Z;
  ts_upload_failed_objects : Z;
  ts_download_total_objects : Z;
  ts_download_completed_objects : Z;
  ts_download_failed_objects : Z;
  ts_retry_attempt : option Z;
  ts_max_attempts : option Z;
  ts_next_retry_at_ms : option Z;
  ts_last_transfer_error : option string }.

(** [SyncTransferStatus { last_transfer_error, ..default() }] *)
Definition failed_transfer (last_transfer_error : option string) : SyncTransferStatus :=
  {| ts_active := false; ts_direction := DirIdle; ts_retrying := false;
     ts_upload_total_objects := 0; ts_upload_completed_objects := 0; ts_upload_failed_objects := 0;
     ts_download_total_objects := 0; ts_download_completed_objects := 0;
     ts_download_failed_objects := 0; ts_retry_attempt := None; ts_max_attempts := None;
     ts_next_retry_at_ms := None; ts_last_transfer_error := last_transfer_error |}.
Definition default_transfer : SyncTransferStatus := failed_transfer None.

Record SyncRuntimeStatus := {
  rt_configured : bool;
  rt_enabled : bool;
  rt_phase : SyncPhase;
  rt_vault_id : option string;
  rt_root_path : option string;
  rt_vault_name : option string;
  rt_account_key_id : option string;
  rt_remote_workspace_id : option string;
  rt_workspace_name : option string;
  rt_device_id : option string;
  rt_device_name : option string;
  rt_remember_workspace_key : bool;
  rt_last_error : option string;
  rt_last_error_category : option SyncErrorCategory;
  rt_last_synced_at_ms : option Z;
  rt_pending_uploads : Z;
  rt_pending_downloads : Z;
  rt_transfer : SyncTransferStatus;
  rt_conflict_count : Z;
  rt_updated_at_ms : Z }.

Definition not_configured (updated_at_ms : Z) : SyncRuntimeStatus :=
  {| rt_configured := false; rt_enabled := false; rt_phase := PhaseNotConfigured;
     rt_vault_id := None; rt_root_path := None; rt_vault_name := None; rt_account_key_id := None;
     rt_remote_workspace_id := None; rt_workspace_name := None; rt_device_id := None;
     rt_device_name := None; rt_remember_workspace_key := true; rt_last_error := None;
     rt_last_error_category := None; rt_last_synced_at_ms := None; rt_pending_uploads := 0;
     rt_pending_downloads := 0; rt_transfer := default_transfer; rt_conflict_count := 0;
     rt_updated_at_ms := updated_at_ms |}.

(** ** The state *)

Record SyncInner := {
  st_status : SyncRuntimeStatus;
  st_active_run_id : option Z;
  st_next_run_id : Z }.
Abbreviation StateAction := (Act SyncInner SyncError).

Definition set_status (status : SyncRuntimeStatus) (st : SyncInner) : SyncInner :=
  {| st_status := status; st_active_run_id := st_active_run_id st; st_next_run_id := st_next_run_id st |}.

(** The fields the methods assign together: enabled flag, phase, the two error
    fields, transfer and [updated_at_ms]. *)
Definition with_activity (s : SyncRuntimeStatus) (enabled : bool) (phase : SyncPhase)
    (error : option (string * SyncErrorCategory)) (transfer : SyncTransferStatus) (now : Z)
  : SyncRuntimeStatus :=
  {| rt_configured := rt_configured s; rt_enabled := enabled; rt_phase := phase;
     rt_vault_id := rt_vault_id s; rt_root_path := rt_root_path s; rt_vault_name := rt_vault_name s;
     rt_account_key_id := rt_account_key_id s; rt_remote_workspace_id := rt_remote_workspace_id s;
     rt_workspace_name := rt_workspace_name s; rt_device_id := rt_device_id s;
     rt_device_name := rt_device_name s; rt_remember_workspace_key := rt_remember_workspace_key s;
     rt_last_error := fst <$> error; rt_last_error_category := snd <$> error;
     rt_last_synced_at_ms := rt_last_synced_at_ms s; rt_pending_uploads := rt_pending_uploads s;
     rt_pending_downloads := rt_pending_downloads s; rt_transfer := transfer;
     rt_conflict_count := rt_conflict_count s; rt_updated_at_ms := now |}.

(** Only the transfer and [updated_at_ms] are assigned. *)
Definition with_transfer (s : SyncRuntimeStatus) (transfer : SyncTransferStatus) (now : Z)
  : SyncRuntimeStatus :=
  {| rt_configured := rt_configured s; rt_enabled := rt_enabled s; rt_phase := rt_phase s;
     rt_vault_id := rt_vault_id s; rt_root_path := rt_root_path s; rt_vault_name := rt_vault_name s;
     rt_account_key_id := rt_account_key_id s; rt_remote_workspace_id := rt_remote_workspace_id s;
     rt_workspace_name := rt_workspace_name s; rt_device_id := rt_device_id s;
     rt_device_name := rt_device_name s; rt_remember_workspace_key := rt_remember_workspace_key s;
     rt_last_error := rt_last_error s; rt_last_error_category := rt_last_error_category s;
     rt_last_synced_at_ms := rt_last_synced_at_ms s; rt_pending_uploads := rt_pending_uploads s;
     rt_pending_downloads := rt_pending_downloads s; rt_transfer := transfer;
     rt_conflict_count := rt_conflict_count s; rt_updated_at_ms := now |}.

(** Store the status and return a copy of it. *)
Definition commit_status (status : SyncRuntimeStatus) : StateAction SyncRuntimeStatus :=
  _ ← modify (set_status status); mret status.

(** ** Small functions *)

Definition u64_max : Z := 18446744073709551615.
Definition next_run_id (current : Z) : Z :=
  let next := ((current + 1) mod 2 ^ 64)%Z in
  if (next =? 0)%Z then 1 else next.

Definition validate_vault_config (config : SyncVaultConfig) : SyncResult unit :=
  _ ← reject_if (is_blank (cf_vault_id config)) (InvalidArgument "vault_id is required");
  reject_if (is_blank (cf_root_path config)) (InvalidArgument "root_path is required").

(** [value.map(str::trim).filter(|value| !value.is_empty())] *)
Definition trimmed_optional (value : option string) : option string :=
  v ← value; if is_blank v then None else Some (trim v).

Definition vault_name_from_root (root_path : string) : option string :=
  trimmed_optional (file_name root_path).

Definition sync_transfer_direction (direction : TransferDirection) : SyncTransferDirection :=
  match direction with Upload => DirUpload | Download => DirDownload end.
Definition transfer_return_phase (direction : TransferDirection) : SyncPhase :=
  match direction with Upload => PhasePublishing | Download => PhaseApplying end.

Inductive TransferCount := CountCompleted | CountFailed.

(** [*target = target.saturating_add(1); if total > 0 { min(total) }] *)
Definition bumped (target total : Z) : Z :=
  let target := i64_saturating_add target 1 in
  if (0 <? total)%Z then Z.min target total else target.

Definition increment_transfer_count (t : SyncTransferStatus) (direction : TransferDirection)
    (count : TransferCount) : SyncTransferStatus :=
  let bump d c value total :=
    match d, direction, c, count with
    | Upload, Upload, CountCompleted, CountCompleted | Upload, Upload, CountFailed, CountFailed
    | Download, Download, CountCompleted, CountCompleted
    | Download, Download, CountFailed, CountFailed => bumped value total
    | _, _, _, _ => value
    end in
  {| ts_active := ts_active t; ts_direction := ts_direction t; ts_retrying := ts_retrying t;
     ts_upload_total_objects := ts_upload_total_objects t;
     ts_upload_completed_objects :=
       bump Upload CountCompleted (ts_upload_completed_objects t) (ts_upload_total_objects t);
     ts_upload_failed_objects :=
       bump Upload CountFailed (ts_upload_failed_objects t) (ts_upload_total_objects t);
     ts_download_total_objects := ts_download_total_objects t;
     ts_download_completed_objects :=
       bump Download CountCompleted (ts_download_completed_objects t) (ts_download_total_objects t);
     ts_download_failed_objects :=
       bump Download CountFailed (ts_download_failed_objects t) (ts_download_total_objects t);
     ts_retry_attempt := ts_retry_attempt t; ts_max_attempts := ts_max_attempts t;
     ts_next_retry_at_ms := ts_next_retry_at_ms t;
     ts_last_transfer_error := ts_last_transfer_error t |}.

(** ** The methods of [SyncState] *)

Definition new (now : Z) : SyncInner :=
  {| st_status := not_configured now; st_active_run_id := None; st_next_run_id := 1 |}.

Definition configured_status (now : Z) (config : SyncVaultConfig) (enabled : bool)
    (last_synced_at_ms : option Z) : SyncRuntimeStatus :=
  {| rt_configured := true; rt_enabled := enabled;
     rt_phase := if enabled then PhaseIdle else PhaseDisabled;
     rt_vault_id := Some (cf_vault_id config); rt_root_path := Some (cf_root_path config);
     rt_vault_name := vault_name_from_root (cf_root_path config);
     rt_account_key_id := cf_account_key_id config;
     rt_remote_workspace_id := Some (cf_remote_workspace_id config);
     rt_workspace_name := cf_workspace_name config; rt_device_id := Some (cf_device_id config);
     rt_device_name := cf_device_name config;
     rt_remember_workspace_key := cf_remember_workspace_key config; rt_last_error := None;
     rt_last_error_category := None; rt_last_synced_at_ms := last_synced_at_ms;
     rt_pending_uploads := 0; rt_pending_downloads := 0; rt_transfer := default_transfer;
     rt_conflict_count := 0; rt_updated_at_ms := now |}.

Definition restore_vault_with_status (now : Z) (config : SyncVaultConfig) (enabled : bool)
    (last_synced_at_ms : option Z) : StateAction SyncRuntimeStatus :=
  _ ← lift (validate_vault_config config);
  commit_status (configured_status now config enabled last_synced_at_ms).
Definition configure_vault (now : Z) (config : SyncVaultConfig) : StateAction SyncRuntimeStatus :=
  restore_vault_with_status now config false None.

Definition reset (now : Z) : StateAction SyncRuntimeStatus := λ st,
  (Ok (not_configured now),
   {| st_status := not_configured now; st_active_run_id := None; st_next_run_id := st_next_run_id st |}).

Definition require_configured (s : SyncRuntimeStatus) : SyncResult unit :=
  reject_if (negb (rt_configured s)) NotConfigured.
Definition require_enabled (s : SyncRuntimeStatus) (doing : string) : SyncResult unit :=
  reject_if (negb (rt_enabled s)) (InvalidArgument ("sync must be enabled before " +:+ doing)).

Definition is_active_phase (phase : SyncPhase) : bool := negb (bool_decide (phase = PhaseDisabled)).

Definition set_phase (now : Z) (phase : SyncPhase) : StateAction SyncRuntimeStatus :=
  s ← gets st_status;
  _ ← lift (require_configured s);
  _ ← lift (reject_if (negb (rt_enabled s) && is_active_phase phase)
              (InvalidArgument "sync must be enabled before entering an active phase"));
  commit_status (with_activity s (rt_enabled s) phase None
                   (if bool_decide (phase = PhaseTransferring) then rt_transfer s else default_transfer) now).

Definition set_enabled (now : Z) (enabled : bool) : StateAction SyncRuntimeStatus :=
  s ← gets st_status;
  _ ← lift (require_configured s);
  if enabled then
    _ ← commit_status {|
      rt_configured := rt_configured s; rt_enabled := true; rt_phase := rt_phase s;
      rt_vault_id := rt_vault_id s; rt_root_path := rt_root_path s; rt_vault_name := rt_vault_name s;
      rt_account_key_id := rt_account_key_id s; rt_remote_workspace_id := rt_remote_workspace_id s;
      rt_workspace_name := rt_workspace_name s; rt_device_id := rt_device_id s;
      rt_device_name := rt_device_name s; rt_remember_workspace_key := rt_remember_workspace_key s;
      rt_last_error := rt_last_error s; rt_last_error_category := rt_last_error_category s;
      rt_last_synced_at_ms := rt_last_synced_at_ms s; rt_pending_uploads := rt_pending_uploads s;
      rt_pending_downloads := rt_pending_downloads s; rt_transfer := rt_transfer s;
      rt_conflict_count := rt_conflict_count s; rt_updated_at_ms := rt_updated_at_ms s |};
    set_phase now PhaseIdle
  else commit_status (with_activity s false PhaseDisabled None default_transfer now).

Definition begin_sync_run : StateAction Z := λ st,
  match (_ ← require_configured (st_status st);
         _ ← require_enabled (st_status st) "running sync now";
         reject_if (bool_decide (is_Some (st_active_run_id st))) (InvalidArgument "sync is already running")) with
  | Err e => (Err e, st)
  | Ok _ =>
      (Ok (st_next_run_id st),
       {| st_status := st_status st; st_active_run_id := Some (st_next_run_id st);
          st_next_run_id := next_run_id (st_next_run_id st) |})
  end.

Definition finish_sync_run (run_id : Z) (st : SyncInner) : SyncInner :=
  if bool_decide (st_active_run_id st = Some run_id)
  then {| st_status := st_status st; st_active_run_id := None; st_next_run_id := st_next_run_id st |}
  else st.

Definition complete_manual_sync (now conflict_count : Z) : StateAction SyncRuntimeStatus :=
  s ← gets st_status;
  _ ← lift (require_configured s);
  _ ← lift (require_enabled s "running sync now");
  commit_status {|
    rt_configured := rt_configured s; rt_enabled := rt_enabled s; rt_phase := PhaseIdle;
    rt_vault_id := rt_vault_id s; rt_root_path := rt_root_path s; rt_vault_name := rt_vault_name s;
    rt_account_key_id := rt_account_key_id s; rt_remote_workspace_id := rt_remote_workspace_id s;
    rt_workspace_name := rt_workspace_name s; rt_device_id := rt_device_id s;
    rt_device_name := rt_device_name s; rt_remember_workspace_key := rt_remember_workspace_key s;
    rt_last_error := None; rt_last_error_category := None; rt_last_synced_at_ms := Some now;
    rt_pending_uploads := 0; rt_pending_downloads := 0; rt_transfer := default_transfer;
    rt_conflict_count := conflict_count; rt_updated_at_ms := now |}.

Definition set_pending_counts (now pending_uploads pending_downloads : Z)
  : StateAction SyncRuntimeStatus :=
  s ← gets st_status;
  _ ← lift (require_configured s);
  if (rt_pending_uploads s =? pending_uploads)%Z && (rt_pending_downloads s =? pending_downloads)%Z
  then mret s
  else commit_status {|
    rt_configured := rt_configured s; rt_enabled := rt_enabled s; rt_phase := rt_phase s;
    rt_vault_id := rt_vault_id s; rt_root_path := rt_root_path s; rt_vault_name := rt_vault_name s;
    rt_account_key_id := rt_account_key_id s; rt_remote_workspace_id := rt_remote_workspace_id s;
    rt_workspace_name := rt_workspace_name s; rt_device_id := rt_device_id s;
    rt_device_name := rt_device_name s; rt_remember_workspace_key := rt_remember_workspace_key s;
    rt_last_error := rt_last_error s; rt_last_error_category := rt_last_error_category s;
    rt_last_synced_at_ms := rt_last_synced_at_ms s;
    rt_pending_uploads := Z.max pending_uploads 0; rt_pending_downloads := Z.max pending_downloads 0;
    rt_transfer := rt_transfer s; rt_conflict_count := rt_conflict_count s; rt_updated_at_ms := now |}.

Definition is_remote_category (c : SyncErrorCategory) : bool :=
  match c with
  | CatLoginRequired | CatPermissionRequired | CatSyncDisabled | CatOffline | CatServer => true
  | _ => false
  end.

Definition clear_remote_status_error (now : Z) : StateAction (option SyncRuntimeStatus) :=
  s ← gets st_status;
  _ ← lift (require_configured s);
  active ← gets st_active_run_id;
  if bool_decide (is_Some active) then mret None
  else if negb (match rt_last_error_category s with Some c => is_remote_category c | None => false end)
  then mret None
  else
    s' ← commit_status (with_activity s (rt_enabled s) (if rt_enabled s then PhaseIdle else PhaseDisabled)
                          None default_transfer now);
    mret (Some s').

Definition update_workspace_name (now : Z) (workspace_id workspace_name : string)
  : StateAction (option SyncRuntimeStatus) :=
  s ← gets st_status;
  if negb (rt_configured s) then mret None
  else if negb (bool_decide (rt_remote_workspace_id s = Some workspace_id)) then mret None
  else
    s' ← commit_status {|
      rt_configured := rt_configured s; rt_enabled := rt_enabled s; rt_phase := rt_phase s;
      rt_vault_id := rt_vault_id s; rt_root_path := rt_root_path s; rt_vault_name := rt_vault_name s;
      rt_account_key_id := rt_account_key_id s; rt_remote_workspace_id := rt_remote_workspace_id s;
      rt_workspace_name := Some workspace_name; rt_device_id := rt_device_id s;
      rt_device_name := rt_device_name s; rt_remember_workspace_key := rt_remember_workspace_key s;
      rt_last_error := rt_last_error s; rt_last_error_category := rt_last_error_category s;
      rt_last_synced_at_ms := rt_last_synced_at_ms s; rt_pending_uploads := rt_pending_uploads s;
      rt_pending_downloads := rt_pending_downloads s; rt_transfer := rt_transfer s;
      rt_conflict_count := rt_conflict_count s; rt_updated_at_ms := now |};
    mret (Some s').

(** The transfer and the phase after an event; [None] leaves phase and error. *)
Definition started_transfer (direction : TransferDirection) (total_objects attempt max_attempts : Z)
  : SyncTransferStatus :=
  {| ts_active := true; ts_direction := sync_transfer_direction direction; ts_retrying := false;
     ts_upload_total_objects := match direction with Upload => total_objects | Download => 0 end;
     ts_upload_completed_objects := 0; ts_upload_failed_objects := 0;
     ts_download_total_objects := match direction with Upload => 0 | Download => total_objects end;
     ts_download_completed_objects := 0; ts_download_failed_objects := 0;
     ts_retry_attempt := Some attempt; ts_max_attempts := Some max_attempts;
     ts_next_retry_at_ms := None; ts_last_transfer_error := None |}.

Definition with_last_error (t : SyncTransferStatus) (message : string) : SyncTransferStatus :=
  {| ts_active := ts_active t; ts_direction := ts_direction t; ts_retrying := ts_retrying t;
     ts_upload_total_objects := ts_upload_total_objects t;
     ts_upload_completed_objects := ts_upload_completed_objects t;
     ts_upload_failed_objects := ts_upload_failed_objects t;
     ts_download_total_objects := ts_download_total_objects t;
     ts_download_completed_objects := ts_download_completed_objects t;
     ts_download_failed_objects := ts_download_failed_objects t;
     ts_retry_attempt := ts_retry_attempt t; ts_max_attempts := ts_max_attempts t;
     ts_next_retry_at_ms := ts_next_retry_at_ms t; ts_last_transfer_error := Some message |}.

Definition retrying_transfer (t : SyncTransferStatus) (direction : TransferDirection)
    (next_attempt max_attempts next_retry_at_ms : Z) (message : string) : SyncTransferStatus :=
  {| ts_active := true; ts_direction := sync_transfer_direction direction; ts_retrying := true;
     ts_upload_total_objects := ts_upload_total_objects t;
     ts_upload_completed_objects := ts_upload_completed_objects t;
     ts_upload_failed_objects := ts_upload_failed_objects t;
     ts_download_total_objects := ts_download_total_objects t;
     ts_download_completed_objects := ts_download_completed_objects t;
     ts_download_failed_objects := ts_download_failed_objects t;
     ts_retry_attempt := Some next_attempt; ts_max_attempts := Some max_attempts;
     ts_next_retry_at_ms := Some next_retry_at_ms; ts_last_transfer_error := Some message |}.

Definition progress_status (now : Z) (s : SyncRuntimeStatus) (event : TransferProgressEvent)
  : SyncRuntimeStatus :=
  let t := rt_transfer s in
  match event with
  | BatchStarted direction total_objects attempt max_attempts =>
      with_activity s (rt_enabled s) PhaseTransferring None
        (started_transfer direction total_objects attempt max_attempts) now
  | ObjectCompleted direction => with_transfer s (increment_transfer_count t direction CountCompleted) now
  | ObjectFailed direction message =>
      with_transfer s (with_last_error (increment_transfer_count t direction CountFailed) message) now
  | RetryScheduled direction next_attempt max_attempts next_retry_at_ms message =>
      with_transfer s (retrying_transfer t direction next_attempt max_attempts next_retry_at_ms message) now
  | BatchCompleted direction =>
      with_activity s (rt_enabled s) (transfer_return_phase direction) None default_transfer now
  | BatchFailed _ message => with_transfer s (failed_transfer (Some message)) now
  end.

Definition apply_transfer_progress (now run_id : Z) (event : TransferProgressEvent)
  : StateAction (option SyncRuntimeStatus) :=
  active ← gets st_active_run_id;
  if negb (bool_decide (active = Some run_id)) then mret None
  else
    s ← gets st_status;
    _ ← lift (require_configured s);
    _ ← lift (require_enabled s "reporting transfer progress");
    s' ← commit_status (progress_status now s event);
    mret (Some s').

Section error.
Context `{Unicode}.
Definition set_error (now : Z) (error : SyncError) : StateAction SyncRuntimeStatus :=
  s ← gets st_status;
  _ ← lift (require_configured s);
  commit_status (with_activity s (rt_enabled s) PhaseError (Some (display error, category error))
    (failed_transfer (Some (default (display error) (ts_last_transfer_error (rt_transfer s))))) now).
End error.

(** ** The transition system *)

Section machine.
Context `{Unicode}.

(** The phases the sync commands enter. *)
Definition run_phases : list SyncPhase := [PhaseApplying; PhasePlanning; PhasePublishing].

(** One call of a method, successful or not. A call that fails leaves the state
    it found. *)
Inductive step : SyncInner → SyncInner → Prop :=
| step_restore now config enabled last st r st' :
    restore_vault_with_status now config enabled last st = (r, st') → step st st'
| step_reset now st r st' : reset now st = (r, st') → step st st'
| step_set_enabled now b st r st' : set_enabled now b st = (r, st') → step st st'
| step_set_phase now phase st r st' :
    phase ∈ run_phases → set_phase now phase st = (r, st') → step st st'
| step_begin st r st' : begin_sync_run st = (r, st') → step st st'
| step_finish run_id st : step st (finish_sync_run run_id st)
| step_complete now n st r st' : complete_manual_sync now n st = (r, st') → step st st'
| step_pending now u d st r st' : set_pending_counts now u d st = (r, st') → step st st'
| step_clear now st r st' : clear_remote_status_error now st = (r, st') → step st st'
| step_rename now w n st r st' : update_workspace_name now w n st = (r, st') → step st st'
| step_progress now run_id ev st r st' : apply_transfer_progress now run_id ev st = (r, st') → step st st'
| step_error now e st r st' : set_error now e st = (r, st') → step st st'.

Definition reachable (st : SyncInner) : Prop := ∃ now, rtc step (new now) st.

(** *** The invariant *)

Definition count_ok (total n : Z) : Prop := (0 ≤ n ∧ (0 < total → n ≤ total))%Z.
Record transfer_ok (t : SyncTransferStatus) : Prop := {
  to_upload_completed : count_ok (ts_upload_total_objects t) (ts_upload_completed_objects t);
  to_upload_failed : count_ok (ts_upload_total_objects t) (ts_upload_failed_objects t);
  to_download_completed : count_ok (ts_download_total_objects t) (ts_download_completed_objects t);
  to_download_failed : count_ok (ts_download_total_objects t) (ts_download_failed_objects t) }.

(** What holds of the status of a configured vault. *)
Record configured_ok (s : SyncRuntimeStatus) : Prop := {
  co_vault : ∃ v, rt_vault_id s = Some v ∧ is_blank v = false;
  co_root : ∃ r, rt_root_path s = Some r ∧ is_blank r = false;
  co_phase : rt_phase s ≠ PhaseNotConfigured;
  co_disabled : rt_enabled s = false →
    (rt_phase s = PhaseDisabled ∨ rt_phase s = PhaseError) ∧ ts_active (rt_transfer s) = false;
  co_enabled : rt_enabled s = true → rt_phase s ≠ PhaseDisabled;
  co_error : rt_phase s = PhaseError ↔ is_Some (rt_last_error s);
  co_category : is_Some (rt_last_error s) ↔ is_Some (rt_last_error_category s);
  co_pending : (0 ≤ rt_pending_uploads s ∧ 0 ≤ rt_pending_downloads s)%Z;
  co_transfer : transfer_ok (rt_transfer s) }.

Record state_ok (st : SyncInner) : Prop := {
  so_configured : rt_configured (st_status st) = true → configured_ok (st_status st);
  so_not_configured : rt_configured (st_status st) = false → ∃ now, st_status st = not_configured now;
  so_next : (1 ≤ st_next_run_id st ≤ u64_max)%Z;
  so_active : ∀ r, st_active_run_id st = Some r → (1 ≤ r ≤ u64_max)%Z }.

Lemma failed_transfer_ok m : transfer_ok (failed_transfer m).
Proof. repeat split; simpl; lia. Qed.
Lemma started_transfer_ok d n a m : transfer_ok (started_transfer d n a m).
Proof. destruct d; repeat split; simpl; lia. Qed.
Lemma bumped_ok total n : count_ok total n → count_ok total (bumped n total).
Proof.
  unfold count_ok, bumped, i64_saturating_add, i64_max, i64_min. intros [Hn Hle].
  destruct (Z.ltb_spec 0 total); lia.
Qed.
Lemma increment_ok t d c : transfer_ok t → transfer_ok (increment_transfer_count t d c).
Proof. intros []. destruct d, c; split; simpl; auto using bumped_ok. Qed.

Lemma with_activity_ok s enabled phase error t now :
  configured_ok s → phase ≠ PhaseNotConfigured → transfer_ok t →
  (phase = PhaseDisabled ↔ enabled = false ∧ phase ≠ PhaseError) →
  (enabled = false → ts_active t = false) → (phase = PhaseError ↔ is_Some error) →
  configured_ok (with_activity s enabled phase error t now).
Proof.
  intros [] Hphase Ht Hdis Hact Herr. split; simpl; try done.
  - intros He. split; [|by apply Hact]. destruct (decide (phase = PhaseError)); [by right|left; tauto].
  - intros He Hp. apply Hdis in Hp as [Hf _]. congruence.
  - rewrite Herr. by rewrite fmap_is_Some.
  - by rewrite !fmap_is_Some.
Qed.
Lemma with_transfer_ok s t now :
  configured_ok s → rt_enabled s = true → transfer_ok t → configured_ok (with_transfer s t now).
Proof. intros [] He Ht. split; simpl; try done. congruence. Qed.

Lemma progress_ok now s ev :
  configured_ok s → rt_enabled s = true → configured_ok (progress_status now s ev).
Proof.
  intros Hs He. destruct ev; simpl.
  - apply with_activity_ok; try done; [apply started_transfer_ok|by rewrite He; naive_solver|congruence].
  - apply with_transfer_ok; [done..|]. apply increment_ok, Hs.
  - apply with_transfer_ok; [done..|].
    destruct (increment_ok _ direction CountFailed (co_transfer _ Hs)). by split.
  - apply with_transfer_ok; [done..|]. destruct (co_transfer _ Hs). by split.
  - apply with_activity_ok; [done|by destruct direction|apply failed_transfer_ok|..|].
    all: rewrite ?He; destruct direction; naive_solver.
  - apply with_transfer_ok; [done..|]. apply failed_transfer_ok.
Qed.

Lemma next_run_id_range z : (1 ≤ z ≤ u64_max → 1 ≤ next_run_id z ≤ u64_max)%Z.
Proof.
  unfold next_run_id, u64_max. intros Hz.
  pose proof (Z.mod_pos_bound (z + 1) (2 ^ 64) ltac:(lia)). destruct (Z.eqb_spec ((z + 1) mod 2 ^ 64) 0); lia.
Qed.

Lemma set_status_ok st s :
  state_ok st → rt_configured s = true → configured_ok s → state_ok (set_status s st).
Proof. intros [] Hc Hs. split; simpl; try done. congruence. Qed.

(** A status with the same activity and non-negative counts. *)
Lemma configured_ok_same s s' :
  configured_ok s → rt_enabled s' = rt_enabled s → rt_phase s' = rt_phase s →
  rt_vault_id s' = rt_vault_id s → rt_root_path s' = rt_root_path s →
  rt_last_error s' = rt_last_error s → rt_last_error_category s' = rt_last_error_category s →
  rt_transfer s' = rt_transfer s → (0 ≤ rt_pending_uploads s')%Z → (0 ≤ rt_pending_downloads s')%Z →
  configured_ok s'.
Proof. intros [] He Hp Hv Hr Hl Hc Ht Hu Hd. split; rewrite ?He, ?Hp, ?Hv, ?Hr, ?Hl, ?Hc, ?Ht; done. Qed.

Lemma configured_status_ok now config enabled last :
  validate_vault_config config = Ok tt → configured_ok (configured_status now config enabled last).
Proof.
  unfold validate_vault_config. intros (u & Hv%reject_if_Ok & Hr%reject_if_Ok)%bind_Ok_inv.
  split; simpl.
  - eauto.
  - eauto.
  - by destruct enabled.
  - intros ->. by split; [left|].
  - by intros ->.
  - split; [by destruct enabled|by intros []].
  - split; by intros [].
  - lia.
  - apply failed_transfer_ok.
Qed.

Definition keeps_ok {A} (m : StateAction A) : Prop := ∀ st, state_ok st → act_post m st (λ _, state_ok).

Lemma commit_status_ok st s :
  state_ok st → rt_configured s = true → configured_ok s → act_post (commit_status s) st (λ _, state_ok).
Proof. intros. by apply set_status_ok. Qed.
Lemma commit_some_ok st s :
  state_ok st → rt_configured s = true → configured_ok s →
  act_post (s' ← commit_status s; mret (Some s')) st (λ _, state_ok).
Proof. intros. by apply set_status_ok. Qed.

(** Methods start by reading the status and checking that it is configured. *)
Lemma when_configured_ok {A} (f : SyncRuntimeStatus → StateAction A) :
  (∀ st, state_ok st → rt_configured (st_status st) = true → configured_ok (st_status st) →
     act_post (f (st_status st)) st (λ _, state_ok)) →
  keeps_ok (s ← gets st_status; _ ← lift (require_configured s); f s).
Proof.
  intros Hf st Hst. apply act_post_gets, act_post_lift; [|done]. intros u Hc%reject_if_Ok%negb_false_iff.
  apply Hf; [done..|]. by apply Hst.
Qed.

Lemma set_phase_ok now phase : phase ∈ PhaseIdle :: run_phases → keeps_ok (set_phase now phase).
Proof.
  intros Hin. apply when_configured_ok. intros st Hst Hc Hok.
  assert (Hp : phase ≠ PhaseNotConfigured ∧ phase ≠ PhaseDisabled ∧ phase ≠ PhaseError).
  { revert Hin. unfold run_phases. rewrite !elem_of_cons. set_solver. }
  apply act_post_lift; [|done]. intros u Hen%reject_if_Ok. unfold is_active_phase in Hen.
  rewrite bool_decide_false in Hen by tauto. rewrite andb_true_r in Hen. apply negb_false_iff in Hen.
  apply commit_status_ok; [done..|]. apply with_activity_ok; try tauto.
  - case_bool_decide; [apply Hok|apply failed_transfer_ok].
  - rewrite Hen. naive_solver.
  - rewrite Hen. naive_solver.
  - split; [tauto|by intros []].
Qed.

(** Enabling sets the flag first, then the phase: two assignments of one call. *)
Lemma set_enabled_on now st :
  rt_configured (st_status st) = true →
  set_enabled now true st =
    (let s := with_activity (st_status st) true PhaseIdle None default_transfer now in (Ok s, set_status s st)).
Proof.
  intros Hc. destruct st as [[] a n]. simpl in Hc. subst. reflexivity.
Qed.

Lemma set_enabled_ok now b : keeps_ok (set_enabled now b).
Proof.
  intros st Hst. destruct (rt_configured (st_status st)) eqn:Hc.
  2:{ unfold set_enabled. apply act_post_gets, act_post_lift; [|done]. intros u Hr. unfold require_configured in Hr. by rewrite Hc in Hr. }
  pose proof (so_configured _ Hst Hc) as Hok. destruct b.
  - unfold act_post. rewrite set_enabled_on by done. apply set_status_ok; [done..|].
    apply with_activity_ok; try done. naive_solver.
  - revert st Hst Hc Hok. cut (keeps_ok (set_enabled now false)); [intros H' ? ? _ _; by apply H'|].
    apply when_configured_ok. intros st Hst Hc Hok. apply commit_status_ok; [done..|].
    apply with_activity_ok; try done; naive_solver apply failed_transfer_ok.
Qed.

Lemma complete_manual_sync_ok now n : keeps_ok (complete_manual_sync now n).
Proof.
  apply when_configured_ok. intros st Hst Hc Hok.
  apply act_post_lift; [|done]. intros u Hen%reject_if_Ok%negb_false_iff.
  apply commit_status_ok; [done..|]. destruct Hok. split; simpl; try done. congruence.
Qed.

Lemma set_pending_counts_ok now u d : keeps_ok (set_pending_counts now u d).
Proof.
  apply when_configured_ok. intros st Hst Hc Hok. destruct (_ && _); [done|].
  apply commit_status_ok; [done..|]. apply (configured_ok_same (st_status st)); try done; simpl; lia.
Qed.

Lemma clear_remote_status_error_ok now : keeps_ok (clear_remote_status_error now).
Proof.
  apply when_configured_ok. intros st Hst Hc Hok. apply act_post_gets.
  case_bool_decide; [done|]. destruct (negb _); [done|]. apply commit_some_ok; [done..|].
  destruct (rt_enabled (st_status st)); apply with_activity_ok; try done; naive_solver apply failed_transfer_ok.
Qed.

Lemma update_workspace_name_ok now w n : keeps_ok (update_workspace_name now w n).
Proof.
  intros st Hst. apply act_post_gets. destruct (negb _) eqn:Hc; [done|]. apply negb_false_iff in Hc.
  destruct (negb (bool_decide _)); [done|]. apply commit_some_ok; [done..|].
  pose proof (so_configured _ Hst Hc) as Hok. destruct (co_pending _ Hok).
  by apply (configured_ok_same (st_status st)).
Qed.

Lemma apply_transfer_progress_ok now run_id ev : keeps_ok (apply_transfer_progress now run_id ev).
Proof.
  intros st Hst. apply act_post_gets. destruct (negb _); [done|]. revert st Hst. apply when_configured_ok.
  intros st Hst Hc Hok. apply act_post_lift; [|done]. intros u Hen%reject_if_Ok%negb_false_iff.
  apply commit_some_ok; [done|by destruct ev|by apply progress_ok].
Qed.

Lemma set_error_ok now e : keeps_ok (set_error now e).
Proof.
  apply when_configured_ok. intros st Hst Hc Hok. apply commit_status_ok; [done..|].
  apply with_activity_ok; try done; naive_solver apply failed_transfer_ok.
Qed.

Lemma begin_sync_run_ok : keeps_ok begin_sync_run.
Proof.
  intros st Hst. unfold act_post, begin_sync_run. destruct (_ ← _; _) as [u|e]; [|done].
  destruct Hst as [? ? Hnext ?]. split; simpl; try done; [by apply next_run_id_range|by intros r [= <-]].
Qed.

Lemma step_ok st st' : step st st' → state_ok st → state_ok st'.
Proof.
  intros Hstep Hst. destruct Hstep as [now config enabled last st r st' Hrun|now st r st' Hrun
    |now b st r st' Hrun|now phase st r st' Hin Hrun|st r st' Hrun|run_id st|now n st r st' Hrun
    |now u d st r st' Hrun|now st r st' Hrun|now w n st r st' Hrun|now run_id ev st r st' Hrun|now e st r st' Hrun];
    try (refine (act_post_elim _ _ (λ _, state_ok) _ _ _ Hrun)).
  - apply act_post_lift; [|done]. intros [] Hv. apply commit_status_ok; [done..|]. by apply configured_status_ok.
  - destruct Hst. split; simpl; try done. intros _. by eexists.
  - by apply set_enabled_ok.
  - apply set_phase_ok; [set_solver|done].
  - by apply begin_sync_run_ok.
  - unfold finish_sync_run. case_bool_decide; [|done]. destruct Hst. by split.
  - by apply complete_manual_sync_ok.
  - by apply set_pending_counts_ok.
  - by apply clear_remote_status_error_ok.
  - by apply update_workspace_name_ok.
  - by apply apply_transfer_progress_ok.
  - by apply set_error_ok.
Qed.

Lemma new_ok now : state_ok (new now).
Proof. split; simpl; try done. by eexists. Qed.

(** The state of the engine. In every state that calls of the methods can
    reach: an unconfigured status is the initial one; a configured one has a
    non-blank vault and root, a phase that agrees with the enabled flag (disabled
    sync is at rest, without an active transfer), an error text and category
    exactly in the error phase, counts that are never negative, and transfer
    counters that never exceed an announced total; run identifiers are positive
    64-bit numbers. *)
Theorem reachable_state_ok (st : SyncInner) : reachable st → state_ok st.
Proof.
  intros [now Hrtc]. pose proof (new_ok now) as Hnew. revert Hnew.
  induction Hrtc as [|st1 st2 st3 Hstep _ IH]; [done|]. intros Hok. apply IH. by eapply step_ok.
Qed.

(** *** Run identifiers *)

(** An execution with the identifiers of the runs it began, oldest first. *)
Inductive execution : SyncInner → list Z → SyncInner → Prop :=
| exec_nil st : execution st [] st
| exec_begin st st1 st2 r ids :
    begin_sync_run st = (Ok r, st1) → execution st1 ids st2 → execution st (r :: ids) st2
| exec_step st st1 st2 ids :
    step st st1 → st_next_run_id st1 = st_next_run_id st → execution st1 ids st2 → execution st ids st2.

(** The [k]-th identifier after [start]: zero is skipped. *)
Definition run_id_after (start : Z) (k : nat) : Z := ((start - 1 + Z.of_nat k) mod u64_max + 1)%Z.

Lemma run_id_after_next start k :
  (1 ≤ start ≤ u64_max)%Z → run_id_after (next_run_id start) k = run_id_after start (S k).
Proof.
  unfold run_id_after, next_run_id, u64_max. intros Hs. f_equal.
  destruct (Z.eqb_spec ((start + 1) mod 2 ^ 64) 0) as [Hz|Hz].
  - assert (start = 18446744073709551615)%Z as ->.
    { destruct (Z.lt_ge_cases start 18446744073709551615); [|lia]. rewrite Z.mod_small in Hz; lia. }
    rewrite Nat2Z.inj_succ.
    replace (18446744073709551615 - 1 + Z.succ (Z.of_nat k))%Z with (Z.of_nat k + 1 * 18446744073709551615)%Z by lia.
    rewrite Z_mod_plus_full. f_equal; lia.
  - assert (start ≠ 18446744073709551615)%Z by (intros ->; by apply Hz).
    rewrite (Z.mod_small (start + 1)) by lia. f_equal; lia.
Qed.

Lemma begin_sync_run_Ok st r st' :
  begin_sync_run st = (Ok r, st') → r = st_next_run_id st ∧ st_next_run_id st' = next_run_id r ∧
    st_active_run_id st = None ∧ st_active_run_id st' = Some r ∧
    rt_configured (st_status st) = true ∧ rt_enabled (st_status st) = true ∧ st_status st' = st_status st.
Proof.
  unfold begin_sync_run. destruct (_ ← _; _) as [u|e] eqn:Hg; [|done]. intros [= <- <-].
  apply bind_Ok_inv in Hg as (? & Hc%reject_if_Ok%negb_false_iff & Hg).
  apply bind_Ok_inv in Hg as (? & He%reject_if_Ok%negb_false_iff & Ha%reject_if_Ok).
  split_and!; try done. destruct (st_active_run_id st); [|done].
  by rewrite bool_decide_true in Ha by (by eexists).
Qed.

Lemma execution_ids st ids st' :
  execution st ids st' → (1 ≤ st_next_run_id st ≤ u64_max)%Z →
  ids = run_id_after (st_next_run_id st) <$> seq 0 (length ids).
Proof.
  induction 1 as [st|st st1 st2 r ids Hb _ IH|st st1 st2 ids _ Heq _ IH]; intros Hn; [done| |by rewrite <- Heq; apply IH; rewrite Heq].
  apply begin_sync_run_Ok in Hb as (-> & Hnext & _). rewrite Hnext in IH. simpl.
  rewrite IH at 1 by (by apply next_run_id_range). f_equal.
  - unfold run_id_after. rewrite Z.add_0_r, Z.mod_small by lia. lia.
  - rewrite <- fmap_S_seq, <- list_fmap_compose. apply list_fmap_ext. intros i k _. simpl.
    by apply run_id_after_next.
Qed.

Lemma run_id_after_inj start i j :
  (1 ≤ start ≤ u64_max)%Z → (Z.of_nat i < u64_max)%Z → (Z.of_nat j < u64_max)%Z →
  run_id_after start i = run_id_after start j → i = j.
Proof.
  unfold run_id_after. intros Hs Hi Hj Heq.
  assert (Hm : ((start - 1 + Z.of_nat i) mod u64_max = (start - 1 + Z.of_nat j) mod u64_max)%Z) by lia.
  assert (Hq : ∀ k, (Z.of_nat k < u64_max)%Z → ((start - 1 + Z.of_nat k) mod u64_max =
    if (start - 1 + Z.of_nat k <? u64_max)%Z then start - 1 + Z.of_nat k else start - 1 + Z.of_nat k - u64_max)%Z).
  { intros k Hk. destruct (Z.ltb_spec (start - 1 + Z.of_nat k) u64_max).
    - apply Z.mod_small. lia.
    - replace (start - 1 + Z.of_nat k)%Z with (start - 1 + Z.of_nat k - u64_max + 1 * u64_max)%Z at 1 by lia.
      rewrite Z_mod_plus_full. apply Z.mod_small. lia. }
  rewrite !Hq in Hm by done.
  destruct (Z.ltb_spec (start - 1 + Z.of_nat i) u64_max), (Z.ltb_spec (start - 1 + Z.of_nat j) u64_max); lia.
Qed.

Lemma execution_next st ids st' :
  execution st ids st' → (1 ≤ st_next_run_id st ≤ u64_max)%Z →
  st_next_run_id st' = run_id_after (st_next_run_id st) (length ids).
Proof.
  induction 1 as [st|st st1 st2 r ids Hb _ IH|st st1 st2 ids _ Heq _ IH]; intros Hn.
  - unfold run_id_after. simpl. rewrite Z.add_0_r, Z.mod_small by lia. lia.
  - apply begin_sync_run_Ok in Hb as (-> & Hnext & _). rewrite IH.
    + rewrite Hnext. by apply run_id_after_next.
    + rewrite Hnext. by apply next_run_id_range.
  - rewrite IH by (by rewrite Heq). by rewrite Heq.
Qed.

(** Runs are told apart. In any execution that begins fewer than 2^64 - 1
    runs, no two runs have the same identifier; so once the next run has begun, a
    late progress event of an earlier run changes nothing. *)
Theorem run_ids_fresh (st st' : SyncInner) (ids : list Z) :
  (1 ≤ st_next_run_id st ≤ u64_max)%Z → execution st ids st' → (Z.of_nat (length ids) < u64_max)%Z →
  NoDup ids ∧
  ∀ now old ev r st1, old ∈ ids → begin_sync_run st' = (Ok r, st1) →
    apply_transfer_progress now old ev st1 = (Ok None, st1).
Proof.
  intros Hn He Hlen. pose proof (execution_ids _ _ _ He Hn) as Hids.
  pose proof (execution_next _ _ _ He Hn) as Hnext. split.
  - rewrite Hids. apply NoDup_fmap_2_strong; [|apply NoDup_seq].
    intros i j [_ Hi]%elem_of_seq [_ Hj]%elem_of_seq. apply run_id_after_inj; [done|lia|lia].
  - intros now old ev r st1 Hold (-> & _ & _ & Hact & _)%begin_sync_run_Ok.
    rewrite Hids in Hold. apply list_elem_of_fmap in Hold as (i & -> & [_ Hi]%elem_of_seq).
    unfold apply_transfer_progress, mbind, act_bind, gets. rewrite Hact, bool_decide_false; [done|].
    intros [= Heq]. rewrite Hnext in Heq. apply run_id_after_inj in Heq; lia.
Qed.

(** *** The progress of a transfer *)

Definition is_object_event (ev : TransferProgressEvent) : bool :=
  match ev with ObjectCompleted _ | ObjectFailed _ _ => true | _ => false end.

(** What the progress sink of a run does with the events it receives, each at its
    time; it drops failures. *)
Definition feed (run_id : Z) (events : list (Z * TransferProgressEvent)) (st : SyncInner) : SyncInner :=
  foldl (λ st '(now, ev), (apply_transfer_progress now run_id ev st).2) st events.

(** The state of a run in progress. *)
Definition running (run_id : Z) (st : SyncInner) : Prop :=
  st_active_run_id st = Some run_id ∧ rt_configured (st_status st) = true ∧
  rt_enabled (st_status st) = true.

Lemma progress_running now run_id ev st :
  running run_id st →
  (apply_transfer_progress now run_id ev st).2 = set_status (progress_status now (st_status st) ev) st.
Proof.
  intros (Ha & Hc & He). destruct st as [s a n]. simpl in *. subst a.
  unfold apply_transfer_progress, mbind, act_bind, gets, lift. simpl. rewrite bool_decide_true by done. simpl.
  unfold require_configured, require_enabled. by rewrite Hc, He.
Qed.
Lemma progress_keeps_running now run_id ev st :
  running run_id st → running run_id (set_status (progress_status now (st_status st) ev) st).
Proof. intros (Ha & Hc & He). by destruct ev. Qed.

Lemma feed_running run_id events st :
  running run_id st → running run_id (feed run_id events st).
Proof.
  unfold feed. revert st. induction events as [|[now ev] events IH]; intros st Hst; [done|]. simpl.
  apply IH. rewrite progress_running by done. by apply progress_keeps_running.
Qed.

(** Without a completed batch the phase stays where it is, or where a started
    batch puts it. *)
Lemma feed_transferring run_id events st :
  running run_id st → (∀ now d, (now, BatchCompleted d) ∉ events) →
  rt_phase (st_status st) = PhaseTransferring ∨ (∃ now d n a m, (now, BatchStarted d n a m) ∈ events) →
  rt_phase (st_status (feed run_id events st)) = PhaseTransferring.
Proof.
  unfold feed. revert st. induction events as [|[now ev] events IH]; intros st Hst Hno Hph; simpl.
  { destruct Hph as [|(? & ? & ? & ? & ? & ?%elem_of_nil)]; done. }
  rewrite progress_running by done. apply IH.
  - by apply progress_keeps_running.
  - intros now' d Hin. apply (Hno now' d). by right.
  - destruct ev; simpl; try (by left); try (destruct Hph as [Hph|(n' & d' & t' & a' & m' & Hin)]; [by left|];
      apply elem_of_cons in Hin as [|Hin]; [done|]; right; by eexists _, _, _, _, _).
    exfalso. apply (Hno now direction). by left.
Qed.

Lemma retried_events_batch `{TransferNet} config direction total messages i ev :
  ev ∈ retried_events config direction total messages i → (∀ d, ev ≠ BatchCompleted d).
Proof.
  revert i. induction messages as [|m messages IH]; intros i; simpl; [by intros ?%elem_of_nil|].
  rewrite !elem_of_cons. naive_solver.
Qed.

(** C18: the status follows the transfer. Let the sink of the run in progress
    receive the events of a transfer loop, in order, with any number of per-object
    events before the closing one. If the transfer succeeded, the status ends in
    the phase that follows the transfer, with no transfer left and no error. If it
    failed, the transfer is inactive and keeps the message of the closing event,
    and reporting the error afterwards shows the error without losing it. *)
Theorem status_follows_transfer `{TransferNet} {A} (config : TransferQueueConfig)
    (direction : TransferDirection) (total : Z) (turn : nat → Result AttemptFailure A)
    (run_id : Z) (st : SyncInner) (events : list (Z * TransferProgressEvent))
    (closing : Z * TransferProgressEvent) (now : Z) :
  let outcome := attempt_loop config direction total turn 0 (max_attempts config) in
  0 < max_attempts config → running run_id st →
  List.filter (λ ev, negb (is_object_event ev)) events.*2 ++ [closing.2] = outcome.1 →
  let st' := feed run_id (events ++ [closing]) st in
  match outcome.2 with
  | Ok _ => rt_phase (st_status st') = transfer_return_phase direction ∧
            rt_transfer (st_status st') = default_transfer ∧ rt_last_error (st_status st') = None
  | Err e => ∃ message, closing.2 = BatchFailed direction message ∧
      rt_phase (st_status st') = PhaseTransferring ∧
      rt_transfer (st_status st') = failed_transfer (Some message) ∧
      ∃ shown, set_error now e (finish_sync_run run_id st') = (Ok shown, set_status shown (finish_sync_run run_id st')) ∧
        rt_phase shown = PhaseError ∧ rt_last_error shown = Some (display e) ∧
        rt_transfer shown = failed_transfer (Some message)
  end.
Proof.
  intros outcome Hmax Hrun Hevents st'.
  destruct (attempt_loop_from config direction total turn 0 (max_attempts config)) as
    (messages & final & _ & _ & Hlast & Htrace); [lia|lia|].
  fold outcome in Hlast, Htrace. rewrite Htrace in Hevents.
  change [BatchStarted ?d ?n ?a ?m; final] with ([BatchStarted d n a m] ++ [final]) in Hevents.
  rewrite app_assoc in Hevents. apply app_inj_2 in Hevents as [Hbatch [= Hclosing]]; [|done].
  destruct closing as [at_ closing]. simpl in Hclosing. subst closing.
  set (st1 := feed run_id events st). pose proof (feed_running run_id events st Hrun) as Hrun1. fold st1 in Hrun1.
  assert (Hst' : st' = set_status (progress_status at_ (st_status st1) final) st1).
  { unfold st', feed. rewrite foldl_app. simpl. by apply progress_running. }
  assert (Hphase : rt_phase (st_status st1) = PhaseTransferring).
  { apply feed_transferring; [done| |right].
    - intros n d Hin. assert (Hf : BatchCompleted d ∈ List.filter (λ ev, negb (is_object_event ev)) events.*2).
      { apply list_elem_of_In, List.filter_In. split; [|done]. apply list_elem_of_In.
        by apply (list_elem_of_fmap_2 snd events (n, BatchCompleted d)). }
      rewrite Hbatch in Hf. apply elem_of_app in Hf as [Hf|Hf%list_elem_of_singleton]; [|done].
      by eapply retried_events_batch in Hf.
    - set (started := BatchStarted direction total (checked_count (length messages + 1))
                        (checked_count (max_attempts config))) in *.
      assert (Hf : started ∈ List.filter (λ ev, negb (is_object_event ev)) events.*2)
        by (rewrite Hbatch; apply elem_of_app; right; by left).
      apply list_elem_of_In, List.filter_In in Hf as [Hf%list_elem_of_In _].
      apply list_elem_of_fmap in Hf as ([t ev] & Heq & Hin). simpl in Heq. subst ev.
      by eexists _, _, _, _, _. }
  assert (Hfailed : ∀ e m, final = BatchFailed direction m → ∃ message, final = BatchFailed direction message ∧
      rt_phase (st_status st') = PhaseTransferring ∧
      rt_transfer (st_status st') = failed_transfer (Some message) ∧
      ∃ shown, set_error now e (finish_sync_run run_id st') = (Ok shown, set_status shown (finish_sync_run run_id st')) ∧
        rt_phase shown = PhaseError ∧ rt_last_error shown = Some (display e) ∧
        rt_transfer shown = failed_transfer (Some message)).
  { intros e m ->. exists m. rewrite Hst'. destruct st1 as [s a n]. destruct Hrun1 as (Ha & Hc & He).
    simpl in *. subst a. split_and!; try done. unfold finish_sync_run. simpl.
    rewrite bool_decide_true by done. eexists. split; [|split_and!; reflexivity || idtac].
    - unfold set_error, mbind, act_bind, gets, lift, require_configured. simpl. rewrite Hc. reflexivity.
    - reflexivity. - reflexivity. - reflexivity. }
  unfold last_outcome in Hlast. destruct (turn (0 + length messages)) as [a|[m|e]].
  - destruct Hlast as [-> ->]. rewrite Hst'. simpl. done.
  - destruct Hlast as (_ & Hf & ->). by eapply Hfailed.
  - destruct Hlast as (Hf & ->). by eapply Hfailed.
Qed.

End machine.

Module Examples.
#[local] Existing Instance Concrete.ascii_unicode.
#[local] Existing Instance Transfer.Examples.net.

Definition config : SyncVaultConfig :=
  {| cf_vault_id := "vault"; cf_root_path := "/home/notes"; cf_account_key_id := None;
     cf_remote_workspace_id := "w"; cf_workspace_name := None; cf_device_id := "d"; cf_device_name := None;
     cf_remember_workspace_key := true; cf_passphrase := None |}.
Definition configured : SyncInner := (restore_vault_with_status 5 config true None (new 1)).2.
Definition started : SyncInner := (begin_sync_run configured).2.
Definition uploading : SyncInner :=
  (apply_transfer_progress 6 1 (BatchStarted Upload 2 1 3) started).2.

Lemma reachable_state_witness : state_ok uploading.
Proof.
  apply reachable_state_ok. exists 1%Z.
  apply (rtc_l step _ configured); [by eapply (step_restore 5 config true None)|].
  apply (rtc_l step _ started); [by eapply step_begin|].
  apply (rtc_l step _ uploading); [by eapply (step_progress 6 1)|]. apply rtc_refl.
Defined.

Definition finished : SyncInner := finish_sync_run 1 started.
Lemma run_ids_fresh_witness :
  NoDup [1%Z; 2%Z] ∧
  apply_transfer_progress 9 2 (BatchCompleted Upload) (begin_sync_run (finish_sync_run 2 (begin_sync_run finished).2)).2
  = (Ok None, (begin_sync_run (finish_sync_run 2 (begin_sync_run finished).2)).2).
Proof.
  assert (He : execution configured [1%Z; 2%Z] (finish_sync_run 2 (begin_sync_run finished).2)).
  { eapply (exec_begin _ started); [reflexivity|].
    eapply (exec_step _ finished); [apply step_finish|reflexivity|].
    eapply (exec_begin _ (begin_sync_run finished).2); [reflexivity|].
    eapply exec_step; [apply (step_finish 2)|reflexivity|]. apply exec_nil. }
  destruct (run_ids_fresh configured _ _ ltac:(vm_compute; split; discriminate) He ltac:(vm_compute; reflexivity))
    as [Hnd Hlate].
  split; [exact Hnd|]. eapply Hlate; [right; left|reflexivity].
Defined.

Definition turn (k : nat) : Result AttemptFailure unit :=
  match k with O => Err (Retryable "timeout") | _ => Ok tt end.
Definition queue : TransferQueueConfig := default_transfer_config.
Definition batches : list TransferProgressEvent := (attempt_loop queue Upload 1 turn 0 (max_attempts queue)).1.
(** The events of the loop with an object failure and an object completion. *)
Definition observed : list (Z * TransferProgressEvent) :=
  match batches with
  | [started1; retry; started2; _] =>
      [(7, started1); (7, ObjectFailed Upload "timeout"); (8, retry); (9, started2); (9, ObjectCompleted Upload)]%Z
  | _ => []
  end.

Lemma status_follows_transfer_witness :
  rt_phase (st_status (feed 1 (observed ++ [(10%Z, BatchCompleted Upload)]) started)) = PhasePublishing.
Proof.
  apply (status_follows_transfer queue Upload 1 turn 1 started observed (10%Z, BatchCompleted Upload) 11).
  - simpl. lia.
  - split_and!; reflexivity.
  - vm_compute. reflexivity.
Defined.
End Examples.
