(* ===== verification/VaultConfig.v ===== *)
(** * The sync configuration of a vault (sync/vault_config.rs)

    The file [.kuku/sync.json] under the vault root: reading with its version and
    field checks, writing, deletion and reset. The file system is the one of the
    scanner; the JSON text of the records is a parameter. *)
From Stdlib Require Import Ascii String.
#[local] Set Warnings "-clear-no-such-hyp".
From S2P Require Import Prelude Text SyncErrors Paths SyncDb Scanner Crypto Keys Packer Watcher.
From S2P Require Import Transfer SyncState.

Definition CONFIG_DIR_NAME : string := ".kuku".
Definition CONFIG_FILE_NAME : string := "sync.json".
Definition SCHEMA_VERSION : Z := 2.

Record SyncRemoteStatus := {
  rs_workspace_id : string;
  rs_remote_head_commit_id : string;
  rs_remote_head_version : Z;
  rs_latest_checkpoint_commit_id : string;
  rs_local_remote_head_commit_id : option string;
  rs_local_head_commit_id : option string;
  rs_has_remote_changes : bool;
  rs_checked_at_ms : Z }.

Record SyncVaultConfigVersion := { schema_version : Z }.

Record SyncVaultSecureRefs := {
  sr_account_root_key_account : option string;
  sr_account_recovery_phrase_account : option string;
  sr_workspace_key_account : string;
  sr_passphrase_account : string;
  sr_device_signing_key_account : string }.

Record SyncVaultStatusFile := {
  sf_last_synced_at_ms : option Z;
  sf_remote : option SyncRemoteStatus }.
Definition default_status_file : SyncVaultStatusFile :=
  {| sf_last_synced_at_ms := None; sf_remote := None |}.

Record SyncVaultConfigFile := {
  vc_schema_version : Z;
  vc_vault_id : string;
  vc_account_key_id : option string;
  vc_remote_workspace_id : string;
  vc_workspace_name : option string;
  vc_device_id : string;
  vc_device_name : option string;
  vc_enabled : bool;
  vc_remember_workspace_key : bool;
  vc_secure : SyncVaultSecureRefs;
  vc_status : SyncVaultStatusFile;
  vc_updated_at_ms : Z }.

Definition sync_config_path (vault_root : AbsPath) : AbsPath :=
  vault_root ++ [CONFIG_DIR_NAME; CONFIG_FILE_NAME].

Section vault_config.
Context `{Os, !Serialize SyncVaultConfigFile, !Deserialize SyncVaultConfigFile,
          !Deserialize SyncVaultConfigVersion}.
Context {Keychain : Type} `{Keyring Keychain} (identifier : option string).

Definition delete_sync_config (fs : Fs) (vault_root : AbsPath) : SyncResult Fs :=
  let path := sync_config_path vault_root in
  match fs_remove_file fs path with
  | Ok fs => Ok fs
  | Err Scanner.NotFound => Ok fs
  | Err e => Err (Storage ("failed to delete vault sync config " +:+ path_text path +:+ ": " +:+ io_text e))
  end.

Definition read_sync_config_bytes (fs : Fs) (vault_root : AbsPath) : SyncResult (option bytes) :=
  let path := sync_config_path vault_root in
  if negb (path_exists fs path) then Ok None
  else
    bytes ← map_err (λ e, Storage ("failed to read vault sync config " +:+ path_text path +:+ ": "
                                    +:+ io_text e)) (fs_read fs path);
    Ok (Some bytes).

(** [version.min(u8::MAX as u32) as u8] *)
Definition unsupported (version : Z) : SyncError := UnsupportedVersion (Z.min version 255).

Definition validate_config_file (config : SyncVaultConfigFile) : SyncResult unit :=
  _ ← reject_if (negb (vc_schema_version config =? SCHEMA_VERSION)%Z) (unsupported (vc_schema_version config));
  _ ← reject_if (is_blank (vc_vault_id config)) (InvalidArgument "vault sync config is missing vault_id");
  _ ← reject_if (is_blank (vc_remote_workspace_id config))
        (InvalidArgument "vault sync config is missing remote_workspace_id");
  _ ← reject_if (is_blank (vc_device_id config)) (InvalidArgument "vault sync config is missing device_id");
  _ ← reject_if (match vc_account_key_id config with Some a => is_blank a | None => false end)
        (InvalidArgument "vault sync config has empty account_key_id");
  reject_if (match sf_remote (vc_status config) with
             | Some remote => negb (bool_decide (rs_workspace_id remote = vc_remote_workspace_id config))
             | None => false
             end) (InvalidArgument "vault sync status remote workspace does not match config").

Definition read_sync_config (fs : Fs) (vault_root : AbsPath) : SyncResult (option SyncVaultConfigFile) :=
  found ← read_sync_config_bytes fs vault_root;
  match found with
  | None => Ok None
  | Some bytes =>
      version ← (from_slice bytes : SyncResult SyncVaultConfigVersion);
      _ ← reject_if (negb (schema_version version =? SCHEMA_VERSION)%Z) (unsupported (schema_version version));
      config ← (from_slice bytes : SyncResult SyncVaultConfigFile);
      _ ← validate_config_file config;
      Ok (Some config)
  end.

Definition read_sync_config_file_unchecked (fs : Fs) (vault_root : AbsPath)
  : SyncResult (option SyncVaultConfigFile) :=
  found ← read_sync_config_bytes fs vault_root;
  match found with
  | None => Ok None
  | Some bytes => config ← from_slice bytes; Ok (Some config)
  end.

(** The three keychain slots are cleared first, when the file still names its
    vault; a keychain failure leaves the file in place. *)
Definition reset_sync_config (k : Keychain) (fs : Fs) (vault_root : AbsPath)
  : SyncResult Fs * Keychain :=
  let cleared :=
    match read_sync_config_file_unchecked fs vault_root with
    | Ok (Some config) =>
        match trimmed_optional (Some (vc_vault_id config)) with
        | Some vault_id =>
            match forget_workspace_key identifier vault_id k with
            | Err e => (Err e, k)
            | Ok k =>
                match forget_passphrase identifier vault_id k with
                | Err e => (Err e, k)
                | Ok k =>
                    match forget_device_signing_key identifier vault_id k with
                    | Err e => (Err e, k)
                    | Ok k => (Ok tt, k)
                    end
                end
            end
        | None => (Ok tt, k)
        end
    | _ => (Ok tt, k)
    end in
  match cleared with
  | (Err e, k) => (Err e, k)
  | (Ok _, k) => (delete_sync_config fs vault_root, k)
  end.

Definition status_for_workspace (status : SyncVaultStatusFile) (workspace_id : string)
  : SyncVaultStatusFile :=
  match sf_remote status with
  | Some remote => if bool_decide (rs_workspace_id remote = workspace_id) then status else default_status_file
  | None => status
  end.

Definition config_file_from_runtime (config : SyncVaultConfig) (enabled : bool) (updated_at_ms : Z)
    (status : SyncVaultStatusFile) : SyncResult SyncVaultConfigFile :=
  _ ← reject_if (is_blank (cf_vault_id config)) (InvalidArgument "vault_id is required");
  _ ← reject_if (is_blank (cf_remote_workspace_id config)) (InvalidArgument "remote_workspace_id is required");
  _ ← reject_if (is_blank (cf_device_id config)) (InvalidArgument "device_id is required");
  let workspace_id := trim (cf_remote_workspace_id config) in
  let vault_id := trim (cf_vault_id config) in
  let account_key_id := trimmed_optional (cf_account_key_id config) in
  Ok {| vc_schema_version := SCHEMA_VERSION; vc_vault_id := vault_id; vc_account_key_id := account_key_id;
        vc_remote_workspace_id := workspace_id;
        vc_workspace_name := trimmed_optional (cf_workspace_name config);
        vc_device_id := trim (cf_device_id config);
        vc_device_name := trimmed_optional (cf_device_name config); vc_enabled := enabled;
        vc_remember_workspace_key := cf_remember_workspace_key config;
        vc_secure := {| sr_account_root_key_account := account_root_key_account <$> account_key_id;
                        sr_account_recovery_phrase_account :=
                          account_recovery_phrase_account <$> account_key_id;
                        sr_workspace_key_account := workspace_key_account vault_id;
                        sr_passphrase_account := passphrase_account vault_id;
                        sr_device_signing_key_account := device_signing_key_account vault_id |};
        vc_status := status_for_workspace status workspace_id; vc_updated_at_ms := updated_at_ms |}.

(** The written file and the file system; directories made before a failing write
    stay. *)
Definition write_sync_config_with_status (clock : Z) (fs : Fs) (vault_root : AbsPath)
    (config : SyncVaultConfig) (enabled : bool) (updated_at_ms : Z) (status : SyncVaultStatusFile)
  : SyncResult SyncVaultConfigFile * Fs :=
  match config_file_from_runtime config enabled updated_at_ms status with
  | Err e => (Err e, fs)
  | Ok config_file =>
      let path := sync_config_path vault_root in
      let parent := removelast path in
      match create_dir_all fs parent with
      | Err e => (Err (Storage ("failed to create vault sync config directory " +:+ path_text parent
                                +:+ ": " +:+ io_text e)), fs)
      | Ok fs =>
          match to_vec config_file with
          | Err e => (Err e, fs)
          | Ok bytes =>
              match fs_write fs path bytes clock with
              | Err e => (Err (Storage ("failed to write vault sync config " +:+ path_text path +:+ ": "
                                        +:+ io_text e)), fs)
              | Ok fs => (Ok config_file, fs)
              end
          end
      end
  end.

Definition write_sync_config (clock : Z) (fs : Fs) (vault_root : AbsPath) (config : SyncVaultConfig)
    (enabled : bool) (updated_at_ms : Z) : SyncResult SyncVaultConfigFile * Fs :=
  match read_sync_config fs vault_root with
  | Err e => (Err e, fs)
  | Ok existing =>
      let status :=
        match existing with
        | Some existing =>
            if bool_decide (vc_remote_workspace_id existing = trim (cf_remote_workspace_id config))
            then vc_status existing else default_status_file
        | None => default_status_file
        end in
      write_sync_config_with_status clock fs vault_root config enabled updated_at_ms status
  end.

Definition runtime_config_from_file (vault_root : AbsPath) (config : SyncVaultConfigFile) : SyncVaultConfig :=
  {| cf_vault_id := vc_vault_id config; cf_root_path := path_text vault_root;
     cf_account_key_id := vc_account_key_id config;
     cf_remote_workspace_id := vc_remote_workspace_id config;
     cf_workspace_name := vc_workspace_name config; cf_device_id := vc_device_id config;
     cf_device_name := vc_device_name config;
     cf_remember_workspace_key := vc_remember_workspace_key config; cf_passphrase := None |}.

(** ** Theorems *)

(** The text of a configuration file is also read for its version alone. *)
Definition version_readable : Prop :=
  ∀ (file : SyncVaultConfigFile) b, to_vec file = Ok b →
    from_slice b = Ok {| schema_version := vc_schema_version file |}.

Lemma fs_write_Ok fs p content now fs' :
  fs_write fs p content now = Ok fs' → fs' = <[p := File content now]> fs.
Proof. unfold fs_write. destruct (negb _); [done|]. by destruct (fs !! p) as [[]|]; intros [= <-]. Qed.

Lemma read_written fs p content now fs' vault_root :
  p = sync_config_path vault_root → fs_write fs p content now = Ok fs' →
  read_sync_config_bytes fs' vault_root = Ok (Some content).
Proof.
  intros -> ->%fs_write_Ok. unfold read_sync_config_bytes, path_exists, fs_read. by rewrite !lookup_insert_eq.
Qed.

Lemma trimmed_optional_not_blank v a : trimmed_optional v = Some a → is_blank a = false ∧ trim a = a.
Proof.
  unfold trimmed_optional. destruct v as [v|]; simpl; [|done]. destruct (is_blank v) eqn:Hb; [done|].
  intros [= <-]. by rewrite is_blank_trim, trim_idemp.
Qed.
Lemma trimmed_optional_idemp v : trimmed_optional (trimmed_optional v) = trimmed_optional v.
Proof.
  destruct (trimmed_optional v) as [a|] eqn:Ha; [|done].
  apply trimmed_optional_not_blank in Ha as [Hb Ht]. simpl. by rewrite Hb, Ht.
Qed.

Lemma config_file_valid config enabled now status file :
  config_file_from_runtime config enabled now status = Ok file → validate_config_file file = Ok tt.
Proof.
  unfold config_file_from_runtime.
  intros (? & Hv%reject_if_Ok & (? & Hw%reject_if_Ok & (? & Hd%reject_if_Ok & Hf)%bind_Ok_inv)%bind_Ok_inv)%bind_Ok_inv.
  injection Hf as <-. unfold validate_config_file. simpl. rewrite !is_blank_trim, Hv, Hw, Hd. simpl.
  assert (Ha : match trimmed_optional (cf_account_key_id config) with Some a => is_blank a | None => false end = false).
  { destruct (trimmed_optional _) as [a|] eqn:Ha; [|done]. by apply trimmed_optional_not_blank in Ha as [? _]. }
  rewrite Ha. simpl. unfold status_for_workspace. destruct (sf_remote status) as [remote|] eqn:Hr.
  - case_bool_decide as Hid; [|done]. rewrite Hr. by rewrite bool_decide_true.
  - by rewrite Hr.
Qed.

(** A file read back and written again keeps its settings. *)
Lemma config_file_again config enabled now status file vault_root now' :
  config_file_from_runtime config enabled now status = Ok file →
  config_file_from_runtime (runtime_config_from_file vault_root file) enabled now' (vc_status file)
  = Ok {| vc_schema_version := vc_schema_version file; vc_vault_id := vc_vault_id file;
          vc_account_key_id := vc_account_key_id file; vc_remote_workspace_id := vc_remote_workspace_id file;
          vc_workspace_name := vc_workspace_name file; vc_device_id := vc_device_id file;
          vc_device_name := vc_device_name file; vc_enabled := vc_enabled file;
          vc_remember_workspace_key := vc_remember_workspace_key file; vc_secure := vc_secure file;
          vc_status := vc_status file; vc_updated_at_ms := now' |}.
Proof.
  unfold config_file_from_runtime at 1.
  intros (? & Hv%reject_if_Ok & (? & Hw%reject_if_Ok & (? & Hd%reject_if_Ok & Hf)%bind_Ok_inv)%bind_Ok_inv)%bind_Ok_inv.
  injection Hf as <-. unfold config_file_from_runtime, runtime_config_from_file.
  cbn [cf_vault_id cf_remote_workspace_id cf_device_id cf_account_key_id cf_workspace_name cf_device_name
       cf_remember_workspace_key vc_vault_id vc_remote_workspace_id vc_device_id vc_account_key_id
       vc_workspace_name vc_device_name vc_remember_workspace_key vc_status vc_schema_version vc_enabled vc_secure].
  rewrite !is_blank_trim, Hv, Hw, Hd, !trim_idemp, !trimmed_optional_idemp. cbn. f_equal. f_equal.
  unfold status_for_workspace. destruct (sf_remote status) as [remote|] eqn:Hr; [|by rewrite Hr].
  case_bool_decide as Hid; [|done]. rewrite Hr. by rewrite bool_decide_true.
Qed.

(** An optional setting is kept trimmed, unless nothing but blanks was set. *)
Definition kept_setting (raw kept : option string) : Prop :=
  match kept with
  | Some a => ∃ r, raw = Some r ∧ a = trim r ∧ a ≠ ""
  | None => ∀ r, raw = Some r → trim r = ""
  end.
Lemma is_blank_iff v : is_blank v = true ↔ trim v = "".
Proof. unfold is_blank, str_is_empty. by destruct (trim v). Qed.
Lemma trimmed_optional_kept raw : kept_setting raw (trimmed_optional raw).
Proof.
  unfold trimmed_optional. destruct raw as [r|]; simpl; [|done]. destruct (is_blank r) eqn:Hr; simpl.
  - intros ? [= <-]. by apply is_blank_iff.
  - exists r. split_and!; [done..|]. intros Hn%is_blank_iff. congruence.
Qed.

(** The identifiers and names of [config], as a file or a device keeps them. *)
Record settings_kept (config : SyncVaultConfig) (vault_id : string) (account_key_id : option string)
    (workspace_id : string) (workspace_name : option string) (device_id : string)
    (device_name : option string) (remember : bool) : Prop := {
  kept_vault : vault_id = trim (cf_vault_id config) ∧ vault_id ≠ "";
  kept_account : kept_setting (cf_account_key_id config) account_key_id;
  kept_workspace : workspace_id = trim (cf_remote_workspace_id config) ∧ workspace_id ≠ "";
  kept_workspace_name : kept_setting (cf_workspace_name config) workspace_name;
  kept_device : device_id = trim (cf_device_id config) ∧ device_id ≠ "";
  kept_device_name : kept_setting (cf_device_name config) device_name;
  kept_remember : remember = cf_remember_workspace_key config }.

(** What the file says of [config]. *)
Record file_records (config : SyncVaultConfig) (enabled : bool) (now : Z) (status : SyncVaultStatusFile)
    (file : SyncVaultConfigFile) : Prop := {
  file_schema : vc_schema_version file = 2%Z;
  file_settings : settings_kept config (vc_vault_id file) (vc_account_key_id file) (vc_remote_workspace_id file)
    (vc_workspace_name file) (vc_device_id file) (vc_device_name file) (vc_remember_workspace_key file);
  file_enabled : vc_enabled file = enabled;
  file_secure : vc_secure file =
    {| sr_account_root_key_account := account_root_key_account <$> vc_account_key_id file;
       sr_account_recovery_phrase_account := account_recovery_phrase_account <$> vc_account_key_id file;
       sr_workspace_key_account := workspace_key_account (vc_vault_id file);
       sr_passphrase_account := passphrase_account (vc_vault_id file);
       sr_device_signing_key_account := device_signing_key_account (vc_vault_id file) |};
  (* a status snapshot of another workspace is dropped, any other is kept *)
  file_status :
    (vc_status file = status ∧
       ∀ remote, sf_remote status = Some remote → rs_workspace_id remote = vc_remote_workspace_id file) ∨
    (vc_status file = {| sf_last_synced_at_ms := None; sf_remote := None |} ∧
       ∃ remote, sf_remote status = Some remote ∧ rs_workspace_id remote ≠ vc_remote_workspace_id file);
  file_updated : vc_updated_at_ms file = now }.

(** What a device that reads the file of [config] works with. *)
Definition device_reads (vault_root : AbsPath) (config read : SyncVaultConfig) : Prop :=
  settings_kept config (cf_vault_id read) (cf_account_key_id read) (cf_remote_workspace_id read)
    (cf_workspace_name read) (cf_device_id read) (cf_device_name read) (cf_remember_workspace_key read) ∧
  cf_root_path read = path_text vault_root ∧ cf_passphrase read = None.

Lemma config_file_records config enabled now status file :
  config_file_from_runtime config enabled now status = Ok file → file_records config enabled now status file.
Proof.
  unfold config_file_from_runtime.
  intros (? & Hv%reject_if_Ok & (? & Hw%reject_if_Ok & (? & Hd%reject_if_Ok & Hf)%bind_Ok_inv)%bind_Ok_inv)%bind_Ok_inv.
  injection Hf as <-. assert (Hne : ∀ v, is_blank v = false → trim v ≠ "").
  { intros v Hb Ht%is_blank_iff. congruence. }
  constructor; simpl; try done.
  - constructor; auto using trimmed_optional_kept.
  - unfold status_for_workspace. destruct (sf_remote status) as [remote|] eqn:Hr; [|by left].
    case_bool_decide as Hid; [left; split; [done|]; by intros ? [= <-]|right; eauto].
Qed.

(** C32: the configuration file round trip. What [write_sync_config_with_status]
    wrote is what [read_sync_config] returns. The file records every setting: the
    vault, workspace and device identifiers trimmed, the account key, the names of
    the workspace and of the device trimmed or absent when blank, whether the
    workspace key is remembered, whether synchronisation is on, the keychain
    accounts, the time, and the status unless it is of another workspace; the
    configuration a device reads back has the same settings, its own vault root and
    never the passphrase; and writing it again writes the same file up to its time
    stamp. *)
Theorem sync_config_roundtrip `{!SerdeLaws SyncVaultConfigFile} (clock : Z) (fs fs' : Fs)
    (vault_root : AbsPath) (config : SyncVaultConfig) (enabled : bool) (now : Z)
    (status : SyncVaultStatusFile) (file : SyncVaultConfigFile) :
  version_readable →
  write_sync_config_with_status clock fs vault_root config enabled now status = (Ok file, fs') →
  read_sync_config fs' vault_root = Ok (Some file) ∧
  file_records config enabled now status file ∧
  device_reads vault_root config (runtime_config_from_file vault_root file) ∧
  ∀ now', ∃ file', config_file_from_runtime (runtime_config_from_file vault_root file) enabled now' (vc_status file)
             = Ok file' ∧ vc_updated_at_ms file' = now' ∧ vc_status file' = vc_status file ∧
             runtime_config_from_file vault_root file' = runtime_config_from_file vault_root file.
Proof.
  intros Hversion. unfold write_sync_config_with_status.
  destruct (config_file_from_runtime _ _ _ _) as [file0|e] eqn:Hfile; [|done].
  destruct (create_dir_all _ _) as [fs1|e]; [|done]. destruct (to_vec file0) as [b|e] eqn:Hb; [|done].
  destruct (fs_write _ _ _ _) as [fs2|e] eqn:Hw; [|done]. intros [= -> ->].
  pose proof (config_file_valid _ _ _ _ _ Hfile) as Hvalid.
  pose proof (config_file_records _ _ _ _ _ Hfile) as Hrecords.
  split; [|split; [done|split; [by split; [apply Hrecords|]|]]].
  - unfold read_sync_config. rewrite (read_written _ _ _ _ _ _ eq_refl Hw). cbn [mbind result_bind].
    rewrite (Hversion _ _ Hb). cbn [mbind result_bind schema_version].
    rewrite (file_schema _ _ _ _ _ Hrecords). simpl. rewrite (from_slice_to_vec _ _ Hb). simpl. by rewrite Hvalid.
  - intros now'. eexists. split; [by eapply config_file_again|done].
Qed.

(** The slots a reset clears. *)
Definition vault_slots (vault_id : string) : list Slot :=
  [WorkspaceKeySlot vault_id; PassphraseSlot vault_id; SigningKeySlot vault_id].

Lemma delete_sync_config_Ok fs vault_root fs' :
  delete_sync_config fs vault_root = Ok fs' → fs' = base.delete (sync_config_path vault_root) fs.
Proof.
  unfold delete_sync_config, fs_remove_file.
  destruct (fs !! sync_config_path vault_root) as [[]|] eqn:Hp; simpl; intros [= <-]; try done.
  by rewrite delete_id.
Qed.

(** Resetting a configuration. A reset that succeeds has deleted the file and
    no other; if the file, whatever its schema version, named a vault, then that
    vault's workspace key, passphrase and signing key have left the keychain. A
    reset that fails leaves the file. Secrets of other vaults and accounts, and
    the vault's encryption key, are never touched. *)
Theorem reset_sync_config_clears `{KeyLib, !KeyringLaws Keychain} (k k' : Keychain) (fs : Fs)
    (vault_root : AbsPath) (config : SyncVaultConfigFile) (r : SyncResult Fs) :
  read_sync_config_file_unchecked fs vault_root = Ok (Some config) → is_blank (vc_vault_id config) = false →
  reset_sync_config k fs vault_root = (r, k') →
  (∀ fs', r = Ok fs' → fs' = base.delete (sync_config_path vault_root) fs ∧
     ∀ A (dec : bytes → SyncResult A) s, s ∈ vault_slots (trim (vc_vault_id config)) →
       read_slot identifier (slot_account s) dec k' = Ok None) ∧
  ∀ A (dec : bytes → SyncResult A) s, s ∉ vault_slots (trim (vc_vault_id config)) →
    read_slot identifier (slot_account s) dec k' = read_slot identifier (slot_account s) dec k.
Proof.
  intros Hread Hvault. unfold reset_sync_config. rewrite Hread. unfold trimmed_optional. simpl. rewrite Hvault.
  set (v := trim (vc_vault_id config)).
  unfold forget_workspace_key, forget_passphrase, forget_device_signing_key.
  change (workspace_key_account v) with (slot_account (WorkspaceKeySlot v)).
  change (passphrase_account v) with (slot_account (PassphraseSlot v)).
  change (device_signing_key_account v) with (slot_account (SigningKeySlot v)).
  destruct (forget _ _ k) as [k1|e] eqn:Hf1; [|by intros [= <- <-]; split].
  assert (Ho1 := λ A (dec : bytes → SyncResult A) s, forget_other identifier _ s dec _ _ Hf1).
  destruct (forget _ _ k1) as [k2|e] eqn:Hf2;
    [|intros [= <- <-]; split; [done|]; intros A dec s Hs; apply Ho1; set_solver].
  assert (Ho2 := λ A (dec : bytes → SyncResult A) s, forget_other identifier _ s dec _ _ Hf2).
  destruct (forget _ _ k2) as [k3|e] eqn:Hf3;
    [|intros [= <- <-]; split; [done|]; intros A dec s Hs; rewrite Ho2, Ho1 by set_solver; done].
  assert (Ho3 := λ A (dec : bytes → SyncResult A) s, forget_other identifier _ s dec _ _ Hf3).
  intros [= <- <-]. split.
  - intros fs' Hd%delete_sync_config_Ok. split; [done|].
    intros A dec s. unfold vault_slots. rewrite !elem_of_cons. intros [->|[->|[->|[]%not_elem_of_nil]]].
    + rewrite Ho3, Ho2 by done. by eapply forget_reads_none.
    + rewrite Ho3 by done. by eapply forget_reads_none.
    + by eapply forget_reads_none.
  - intros A dec s Hs. unfold vault_slots in Hs. rewrite Ho3, Ho2, Ho1 by set_solver. done.
Qed.
End vault_config.

Module Examples.
#[local] Existing Instance Concrete.ascii_unicode.
#[local] Existing Instance Scanner.Examples.os.
#[local] Existing Instance Keys.Toy.key_lib.
#[local] Existing Instance Keys.Toy.keyring.
#[local] Existing Instance Keys.Toy.keyring_laws.

Import Crypto.Toy Packer.Examples.
(** A text format for the file: items that are escaped texts. *)
Definition opt_text (o : option string) : string := write_items (match o with Some s => [s] | None => [] end).
Definition text_opt (s : string) : option string := head (read_items s).
Lemma text_opt_text o : text_opt (opt_text o) = o.
Proof. unfold text_opt, opt_text. rewrite read_write_items. by destruct o. Qed.

Definition flag_text (b : bool) : string := if b then "1" else "0".
Definition text_flag (s : string) : bool := bool_decide (s = "1").
Lemma text_flag_text b : text_flag (flag_text b) = b.
Proof. by destruct b. Qed.

Definition remote_text (r : SyncRemoteStatus) : string :=
  write_items [rs_workspace_id r; rs_remote_head_commit_id r; number (rs_remote_head_version r);
    rs_latest_checkpoint_commit_id r; opt_text (rs_local_remote_head_commit_id r);
    opt_text (rs_local_head_commit_id r); flag_text (rs_has_remote_changes r); number (rs_checked_at_ms r)].
Definition text_remote (s : string) : option SyncRemoteStatus :=
  match read_items s with
  | [ws; head; version; checkpoint; local_remote; local; changes; checked] =>
      Some {| rs_workspace_id := ws; rs_remote_head_commit_id := head;
              rs_remote_head_version := read_number version; rs_latest_checkpoint_commit_id := checkpoint;
              rs_local_remote_head_commit_id := text_opt local_remote;
              rs_local_head_commit_id := text_opt local; rs_has_remote_changes := text_flag changes;
              rs_checked_at_ms := read_number checked |}
  | _ => None
  end.
Lemma text_remote_text r : text_remote (remote_text r) = Some r.
Proof.
  destruct r. unfold text_remote, remote_text. rewrite read_write_items. simpl.
  by rewrite !read_write_number, !text_opt_text, text_flag_text.
Qed.

#[local] Instance config_json : Serialize SyncVaultConfigFile := λ f, Ok (write_items
  [number (vc_schema_version f); vc_vault_id f; opt_text (vc_account_key_id f); vc_remote_workspace_id f;
   opt_text (vc_workspace_name f); vc_device_id f; opt_text (vc_device_name f); flag_text (vc_enabled f);
   flag_text (vc_remember_workspace_key f); opt_text (sr_account_root_key_account (vc_secure f));
   opt_text (sr_account_recovery_phrase_account (vc_secure f)); sr_workspace_key_account (vc_secure f);
   sr_passphrase_account (vc_secure f); sr_device_signing_key_account (vc_secure f);
   opt_text (number <$> sf_last_synced_at_ms (vc_status f)); opt_text (remote_text <$> sf_remote (vc_status f));
   number (vc_updated_at_ms f)]).
#[local] Instance json_config : Deserialize SyncVaultConfigFile := λ s,
  match read_items s with
  | [schema; vault; key; ws; ws_name; device; device_name; enabled; remember; root; phrase; a; b; c; synced;
     remote; updated] =>
      Ok {| vc_schema_version := read_number schema; vc_vault_id := vault; vc_account_key_id := text_opt key;
            vc_remote_workspace_id := ws; vc_workspace_name := text_opt ws_name; vc_device_id := device;
            vc_device_name := text_opt device_name; vc_enabled := text_flag enabled;
            vc_remember_workspace_key := text_flag remember;
            vc_secure := {| sr_account_root_key_account := text_opt root;
                            sr_account_recovery_phrase_account := text_opt phrase;
                            sr_workspace_key_account := a; sr_passphrase_account := b;
                            sr_device_signing_key_account := c |};
            vc_status := {| sf_last_synced_at_ms := read_number <$> text_opt synced;
                            sf_remote := text_opt remote ≫= text_remote |};
            vc_updated_at_ms := read_number updated |}
  | _ => Err (Serialization "invalid configuration")
  end.
#[local] Instance json_version : Deserialize SyncVaultConfigVersion := λ s,
  match read_items s with
  | schema :: _ => Ok {| schema_version := read_number schema |}
  | _ => Err (Serialization "invalid configuration")
  end.
#[local] Instance config_laws : SerdeLaws SyncVaultConfigFile.
Proof.
  intros [? ? ? ? ? ? ? ? ? [] [synced remote] ?] b [= <-]. unfold from_slice, json_config.
  rewrite read_write_items. simpl. rewrite !read_write_number, !text_opt_text, !text_flag_text.
  destruct synced, remote; simpl; by rewrite ?read_write_number, ?text_remote_text.
Qed.
Lemma version_text_readable : version_readable.
Proof.
  intros f b [= <-]. unfold from_slice, json_version. rewrite read_write_items. simpl.
  by rewrite read_write_number.
Qed.

Definition settings : SyncVaultConfig :=
  {| cf_vault_id := " vault "; cf_root_path := "/home/notes"; cf_account_key_id := Some "  ";
     cf_remote_workspace_id := "workspace"; cf_workspace_name := Some " Notes"; cf_device_id := "device";
     cf_device_name := None; cf_remember_workspace_key := true; cf_passphrase := Some "secret" |}.
Definition root : AbsPath := ["home"; "notes"].
Definition disk : Fs := {[ ["home"] := Dir; root := Dir ]}.
Abbreviation written := (write_sync_config_with_status 7 disk root settings true 5 default_status_file).

Definition chain : gmap (string * string) string :=
  {[ (sync_keychain_service None, passphrase_account "vault") := encode_keyring_value "secret" ]}.

(** The evaluations the witnesses use. *)
Lemma written_facts :
  match written with
  | (Ok _, fs) =>
      match read_sync_config_file_unchecked fs root, reset_sync_config None chain fs root with
      | Ok (Some file), (Ok _, _) => trim (vc_vault_id file) = "vault" ∧ is_blank (vc_vault_id file) = false
      | _, _ => False
      end
  | (Err _, _) => False
  end.
Proof. vm_compute. split; reflexivity. Qed.

Lemma sync_config_roundtrip_witness : ∃ file,
  read_sync_config written.2 root = Ok (Some file) ∧ file_records settings true 5 default_status_file file ∧
  vc_vault_id file = "vault" ∧ vc_workspace_name file = Some "Notes" ∧ vc_account_key_id file = None.
Proof.
  pose proof written_facts as Hfacts. destruct written as [[file|e] fs'] eqn:Hw; [|destruct Hfacts].
  destruct (sync_config_roundtrip 7 disk fs' root settings true 5 default_status_file file
              version_text_readable Hw) as (Hr & Hf & _).
  exists file. split; [exact Hr|split; [exact Hf|]]. destruct (file_settings _ _ _ _ _ Hf) as [[Hv _] Ha _ Hn _ _ _].
  split; [rewrite Hv; vm_compute; reflexivity|]. split.
  - destruct (vc_workspace_name file) as [n|].
    + destruct Hn as (r & [= <-] & -> & _). vm_compute. reflexivity.
    + exfalso. specialize (Hn _ eq_refl). vm_compute in Hn. discriminate.
  - destruct (vc_account_key_id file) as [n|]; [|reflexivity].
    destruct Ha as (r & [= <-] & -> & Hne). exfalso. apply Hne. vm_compute. reflexivity.
Defined.

Lemma reset_sync_config_witness :
  read_slot None (passphrase_account "vault") (decode_utf8 "") chain = Ok (Some "secret") ∧
  read_slot None (passphrase_account "vault") (decode_utf8 "") (reset_sync_config None chain written.2 root).2
  = Ok None.
Proof.
  split; [vm_compute; reflexivity|].
  pose proof written_facts as Hfacts. destruct written as [[w|e] fs] eqn:Hw; [clear Hw|destruct Hfacts].
  cbn [snd].
  destruct (read_sync_config_file_unchecked fs root) as [[file|]|e] eqn:Hf; [|destruct Hfacts..].
  destruct (reset_sync_config None chain fs root) as [[fs'|e] k'] eqn:Hr; [|destruct Hfacts].
  destruct Hfacts as [Hv Hb].
  destruct (proj1 (reset_sync_config_clears None chain k' fs root file (Ok fs') Hf Hb Hr) fs' eq_refl)
    as [_ Hslots].
  apply (Hslots _ (decode_utf8 "") (PassphraseSlot "vault")). rewrite Hv. right. left.
Defined.
End Examples.
