(* ===== verification/Pull.v ===== *)
(** * Pulling remote changes (sync/applier.rs)

    The replay of remote commits on a vault. The state is the vault's files, the
    sync database and the ledger of expected mutations; an error leaves it as the
    steps before the error made it. The service is what [Remote] answers during
    one pull; the search index is an optional callback whose notices are kept in
    order. Asynchronous calls are awaited one after the other, so a pull is a
    sequence of steps. *)
From Stdlib Require Import Ascii String.
#[local] Set Warnings "-clear-no-such-hyp".
From S2P Require Import Prelude SyncErrors Paths Merge SyncDb Scanner Planner Crypto Keys Packer.
From S2P Require Import Watcher Commit Transfer.

Definition LIST_COMMITS_PAGE_SIZE : Z := 100.
Definition REMOTE_APPLY_SOURCE : string := "sync-remote-apply".

(** ** State and environment *)

Record World := {
  w_fs : Fs;
  w_db : Db;
  w_ledger : option ExpectedMutationLedger;
  w_notices : list SearchNotice }.
Definition set_fs (fs : Fs) (w : World) : World :=
  {| w_fs := fs; w_db := w_db w; w_ledger := w_ledger w; w_notices := w_notices w |}.
Definition set_db (db : Db) (w : World) : World :=
  {| w_fs := w_fs w; w_db := db; w_ledger := w_ledger w; w_notices := w_notices w |}.
Definition set_ledger (l : option ExpectedMutationLedger) (w : World) : World :=
  {| w_fs := w_fs w; w_db := w_db w; w_ledger := l; w_notices := w_notices w |}.
Definition add_notice (n : SearchNotice) (w : World) : World :=
  {| w_fs := w_fs w; w_db := w_db w; w_ledger := w_ledger w; w_notices := w_notices w ++ [n] |}.

(** [PullRemoteChangesInput]; the connection and the ledger are in [World].
    [in_search] is the search hook, [in_clock] the instant and the modification
    time the operating system gives during the pull. *)
Record PullInput := {
  in_vault_id : string;
  in_vault_root : AbsPath;
  in_workspace_id : string;
  in_device_id : string;
  in_workspace_key : SymmetricKey;
  in_search : option (SearchNotice → Result string unit);
  in_now_ms : Z;
  in_clock : Z }.

Record PullRemoteChangesResult := {
  applied_commits : list string;
  bootstrapped_from_checkpoint : bool }.

Record ReplaySelection := { rs_commits : list SyncCommitHeader; rs_bootstrapped : bool }.
Inductive RemoteApplyAction := AppliedRemote | KeptLocalDirty.
#[export] Instance RemoteApplyAction_eq_dec : EqDecision RemoteApplyAction.
Proof. solve_decision. Defined.

(** The sync service as the commit client presents it, and the transfer queue. *)
Class Remote := {
  get_head (workspace_id : string) : SyncResult SyncHead;
  list_commits (workspace_id : string) (after_server_seq limit : Z) : SyncResult ListCommitsOutput;
  transfer_config : TransferQueueConfig;
  #[global] transfer_net :: TransferNet }.

Abbreviation Action := (Act World SyncError).

(** ** Listing and selecting commits *)

Definition append_commit (commits : list SyncCommitHeader) (commit : SyncCommitHeader)
  : SyncResult (list SyncCommitHeader) :=
  _ ← reject_if (match last commits with
                 | Some previous => (h_server_seq commit <=? h_server_seq previous)%Z
                 | None => false
                 end) (Transport "ListCommits returned non-increasing server_seq");
  Ok (commits ++ [commit]).

Definition append_commit_page (commits : list SyncCommitHeader) (page : ListCommitsOutput)
  : SyncResult (list SyncCommitHeader) :=
  try_fold append_commit commits (page_commits page).

(** The loop of [list_all_commits]; [None] when [fuel] pages were not enough. *)
Fixpoint list_commits_loop `{Remote} (fuel : nat) (workspace_id : string) (after_server_seq : Z)
    (commits : list SyncCommitHeader) : option (SyncResult (list SyncCommitHeader)) :=
  match fuel with
  | O => None
  | S fuel =>
      match list_commits workspace_id after_server_seq LIST_COMMITS_PAGE_SIZE with
      | Err e => Some (Err e)
      | Ok page =>
          match append_commit_page commits page with
          | Err e => Some (Err e)
          | Ok commits =>
              if negb (page_has_more page) then Some (Ok commits)
              else if (page_next_after_server_seq page <=? after_server_seq)%Z
              then Some (Err (Transport "ListCommits did not advance pagination cursor"))
              else list_commits_loop fuel workspace_id (page_next_after_server_seq page) commits
          end
      end
  end.
Definition list_all_commits `{Remote} (fuel : nat) (workspace_id : string)
  : option (SyncResult (list SyncCommitHeader)) :=
  list_commits_loop fuel workspace_id 0 [].

(** [commits.iter().position(|commit| commit.commit_id == id)] *)
Fixpoint position (id : string) (commits : list SyncCommitHeader) : option nat :=
  match commits with
  | [] => None
  | c :: commits => if bool_decide (h_commit_id c = id) then Some 0 else S <$> position id commits
  end.

Definition select_replay_commits (vault : SyncVaultRecord) (head : SyncHead)
    (commits : list SyncCommitHeader) : SyncResult ReplaySelection :=
  let local_head := default "" (v_local_head_commit_id vault) in
  if bool_decide (local_head = current_head_commit_id head)
  then Ok {| rs_commits := []; rs_bootstrapped := false |} else
  start_index ←
    (if str_is_empty local_head then
       if str_is_empty (latest_checkpoint_commit_id head) then Ok 0
       else ok_or (position (latest_checkpoint_commit_id head) commits)
              (Transport ("latest checkpoint " +:+ latest_checkpoint_commit_id head
                          +:+ " is missing from remote history"))
     else ok_or (S <$> position local_head commits)
            (Transport ("local head " +:+ local_head +:+ " is not present in remote history")));
  let replay := drop start_index commits in
  _ ← reject_if (match last replay with
                 | Some commit => bool_decide (h_commit_id commit ≠ current_head_commit_id head)
                 | None => true
                 end)
        (Transport ("remote history does not include head " +:+ current_head_commit_id head));
  Ok {| rs_commits := replay;
        rs_bootstrapped := str_is_empty local_head
                           && negb (str_is_empty (latest_checkpoint_commit_id head)) |}.

Definition validate_pull_input (input : PullInput) : SyncResult unit :=
  _ ← validate_required (in_vault_id input) "vault_id";
  _ ← validate_required (in_workspace_id input) "workspace_id";
  validate_required (in_device_id input) "device_id".

(** The record [ensure_pull_vault_record] writes. *)
Definition pull_vault_record (input : PullInput) (head : SyncHead) (existing : option SyncVaultRecord)
  : SyncVaultRecord :=
  let created_at_ms := match existing with Some v => v_created_at_ms v | None => in_now_ms input end in
  let seq := match existing with Some v => v_next_device_seq v | None => 1%Z end in
  {| v_vault_id := match existing with Some v => v_vault_id v | None => in_vault_id input end;
     v_root_path := path_text (in_vault_root input);
     v_remote_workspace_id := in_workspace_id input;
     v_remote_head_commit_id := empty_to_none (current_head_commit_id head);
     v_local_head_commit_id := existing ≫= v_local_head_commit_id;
     v_device_id := in_device_id input;
     v_next_device_seq := if (seq <=? 0)%Z then 1 else seq;
     v_enabled := true; v_created_at_ms := created_at_ms; v_updated_at_ms := in_now_ms input |}.

Definition ensure_pull_vault_record (input : PullInput) (head : SyncHead) : Action SyncVaultRecord :=
  existing ← gets (λ w, get_vault (w_db w) (in_vault_id input));
  let vault := pull_vault_record input head existing in
  _ ← modify (λ w, set_db (upsert_vault (w_db w) vault) w);
  mret vault.

Definition initial_tree_entries (db : Db) (vault : SyncVaultRecord) : Tree :=
  match v_local_head_commit_id vault with
  | None => ∅
  | Some local_head =>
      insert_all ∅ ((λ e, (t_file_id e, e)) <$> list_tree_entries db local_head)
  end.

(** The dirty rows at the start of the pull, by file identifier. *)
Abbreviation RemoteMergeState := (gmap string SyncFileRecord).

Section pull.
Context `{Unicode, Blake3, Os, Sqlite, CryptoLib, KeyLib, PackLib, Remote}.
Context `{!Serialize PackIndex, !Deserialize PackIndex, !Serialize PackAad,
          !Serialize CommitBodyAad, !Deserialize CommitBody,
          !Serialize (list TreeCacheEntryBody), !Serialize (list string)}.

(** ** Effects on the vault *)

(** [vault_root.join(relative)] for a relative path *)
Definition join_path (root : AbsPath) (relative : string) : AbsPath :=
  root ++ omap (λ c, match c with Normal n => Some n | _ => None end) (components relative).

Definition resolve_remote_path (root : AbsPath) (path : string) : Action AbsPath :=
  fs ← gets w_fs;
  lift (map_err InvalidArgument (resolve_vault_path_strict (is_symlink fs) root path)).

(** [hooks.expected_mutations.map(|ledger| record(ledger))] *)
Definition record_expected
    (record : ExpectedMutationLedger → ExpectedMutationLedger * ExpectedMutationToken)
  : Action (option ExpectedMutationToken) := λ w,
  match w_ledger w with
  | Some l => let '(l, token) := record l in (Ok (Some token), set_ledger (Some l) w)
  | None => (Ok None, w)
  end.

Definition finish_remote_mutation (token : option ExpectedMutationToken) (result : SyncResult unit)
  : Action unit := λ w,
  match result with
  | Ok u => (Ok u, w)
  | Err e => (Err e, match w_ledger w, token with
                     | Some l, Some t => set_ledger (Some (cancel l t)) w
                     | _, _ => w
                     end)
  end.

Definition notify_search (input : PullInput) (n : SearchNotice) : Action unit :=
  match in_search input with
  | None => mret tt
  | Some notify => _ ← modify (add_notice n); lift (map_err Storage (notify n))
  end.

(** [create_dir_all(parent)] and [write]; a failing call changes nothing here. *)
Definition write_file (clock : Z) (resolved : AbsPath) (plaintext : bytes) (w : World)
  : SyncResult unit * World :=
  let made :=
    match resolved with
    | [] => Ok (w_fs w)
    | _ => map_err (λ e, Storage ("failed to create sync parent directory: " +:+ io_text e))
             (create_dir_all (w_fs w) (removelast resolved))
    end in
  match made with
  | Err e => (Err e, w)
  | Ok fs =>
      match fs_write fs resolved plaintext clock with
      | Err e => (Err (Storage ("failed to apply remote file " +:+ path_text resolved +:+ ": "
                                +:+ io_text e)), set_fs fs w)
      | Ok fs => (Ok tt, set_fs fs w)
      end
  end.

Definition apply_remote_write (input : PullInput) (path : string) (plaintext : bytes) : Action unit :=
  resolved ← resolve_remote_path (in_vault_root input) path;
  token ← record_expected (λ l, record_write (in_clock input) l path false);
  result ← (λ w, let '(r, w) := write_file (in_clock input) resolved plaintext w in (Ok r, w));
  _ ← finish_remote_mutation token result;
  notify_search input (NotifyWritten path REMOTE_APPLY_SOURCE).

Definition remove_file (resolved : AbsPath) (w : World) : SyncResult unit * World :=
  match fs_remove_file (w_fs w) resolved with
  | Ok fs => (Ok tt, set_fs fs w)
  | Err Scanner.NotFound => (Ok tt, w)
  | Err e => (Err (Storage ("failed to apply remote delete " +:+ path_text resolved +:+ ": "
                            +:+ io_text e)), w)
  end.

Definition apply_remote_delete (input : PullInput) (path : string) : Action unit :=
  resolved ← resolve_remote_path (in_vault_root input) path;
  existed ← gets (λ w, path_exists (w_fs w) resolved);
  token ← (if existed : bool
           then record_expected (λ l, record_delete (in_clock input) l path false)
           else mret None);
  result ← (λ w, let '(r, w) := remove_file resolved w in (Ok r, w));
  _ ← finish_remote_mutation token result;
  notify_search input (NotifyRemoved path false REMOTE_APPLY_SOURCE).

Definition read_local_file (input : PullInput) (path : string) : Action bytes :=
  resolved ← resolve_remote_path (in_vault_root input) path;
  fs ← gets w_fs;
  lift (map_err (λ e, Storage ("failed to read local merge file " +:+ path_text resolved +:+ ": "
                               +:+ io_text e)) (fs_read fs resolved)).

Definition conflict_id_for (path conflict_path : string) (base_commit_id : option string)
    (remote_commit_id : string) (created_at_ms : Z) : string :=
  let input := path +:+ nul +:+ conflict_path +:+ nul +:+ default "" base_commit_id +:+ nul
               +:+ remote_commit_id +:+ nul +:+ fmt_int created_at_ms in
  "conflict_" +:+ str_take 32 (blake3_hex input).

(** The search for a free name tries one more candidate than there are paths. *)
Definition conflict_copy_path (input : PullInput) (fs : Fs) (original_path : string) : SyncResult string :=
  found ← conflict_copy_relative_path (S (size fs)) original_path (in_now_ms input)
            (λ candidate, path_exists fs (join_path (in_vault_root input) candidate));
  ok_or found (Storage "unbounded suffix loop").

Definition write_conflict_copy (input : PullInput) (original_path : string) (plaintext : bytes)
    (base_commit_id : option string) (remote_header : SyncCommitHeader) : Action string :=
  fs ← gets w_fs;
  conflict_path ← lift (conflict_copy_path input fs original_path);
  _ ← apply_remote_write input conflict_path plaintext;
  _ ← modify (λ w, set_db (upsert_conflict (w_db w)
        {| k_conflict_id := conflict_id_for original_path conflict_path base_commit_id
                              (h_commit_id remote_header) (in_now_ms input);
           k_path := original_path; k_conflict_path := conflict_path;
           k_base_commit_id := base_commit_id; k_local_commit_id := None;
           k_remote_commit_id := Some (h_commit_id remote_header); k_status := "open";
           k_created_at_ms := in_now_ms input |}) w);
  mret conflict_path.

(** ** Downloads *)

Definition download_one (workspace_id device_id object_id : string) : SyncResult DownloadedObject :=
  downloads ← download_objects transfer_config workspace_id device_id [object_id];
  match downloads with
  | [object] => Ok object
  | _ => Err (Transport ("download response for " +:+ object_id +:+ " returned "
                         +:+ fmt_int (Z.of_nat (length downloads)) +:+ " objects"))
  end.

Definition download_many (workspace_id device_id : string) (object_ids : list string)
  : SyncResult (gmap string DownloadedObject) :=
  downloads ← download_objects transfer_config workspace_id device_id object_ids;
  Ok (insert_all ∅ ((λ o, (d_object_id o, o)) <$> downloads)).

(** One pack of [decrypt_commit]. *)
Definition decrypt_commit_pack (input : PullInput) (header : SyncCommitHeader)
    (downloads : gmap string DownloadedObject) (packs : gmap string UnpackedPack)
    (pack_ref : CommitBodyPackRef) : SyncResult (gmap string UnpackedPack) :=
  downloaded ← ok_or (downloads !! pr_object_id pack_ref)
                 (Transport ("download response missing pack object " +:+ pr_object_id pack_ref));
  _ ← validate_downloaded_pack pack_ref downloaded;
  unpacked ← decrypt_pack (in_workspace_key input) (in_workspace_id input) (pr_object_id pack_ref)
               (pr_pack_kind pack_ref) (h_commit_id header) (d_ciphertext downloaded);
  _ ← reject_if (negb (length (pi_entries (up_index unpacked)) =? pr_entry_count pack_ref))
        (Integrity ("pack " +:+ pr_object_id pack_ref +:+ " entry count mismatch"));
  Ok (<[pr_object_id pack_ref := unpacked]> packs).

Definition decrypt_commit (input : PullInput) (header : SyncCommitHeader) : SyncResult DecryptedCommit :=
  let ws := in_workspace_id input in
  body_download ← download_one ws (in_device_id input) (h_body_object_id header);
  _ ← validate_downloaded_commit_body header body_download;
  commit_kind ← commit_kind_label (h_commit_kind header);
  let aad := CommitBodyAad_new ws (h_commit_id header) commit_kind (h_parent_commit_ids header)
               (h_author_device_id header) (h_device_seq header) (h_body_object_id header) in
  plaintext ← decrypt_commit_body (commit_body_key (in_workspace_key input) ws) aad
                (d_ciphertext body_download);
  body ← from_slice (T := CommitBody) plaintext;
  _ ← validate_commit_body header commit_kind body;
  downloads ← download_many ws (in_device_id input) (pr_object_id <$> b_packs body);
  packs ← try_fold (decrypt_commit_pack input header downloads) ∅ (b_packs body);
  Ok {| dc_header := header; dc_body := body; dc_packs := packs |}.

Definition download_tree_entry_content (input : PullInput) (commit_id : string)
    (entry : SyncTreeEntryRecord) : SyncResult (option bytes) :=
  match t_content_object_id entry, t_pack_entry_id entry with
  | Some object_id, Some entry_id =>
      object ← download_one (in_workspace_id input) (in_device_id input) object_id;
      pack_kind ← pack_kind_for_object_kind (d_kind object);
      unpacked ← decrypt_pack (in_workspace_key input) (in_workspace_id input) object_id pack_kind
                   commit_id (d_ciphertext object);
      Ok (up_entries unpacked !! entry_id)
  | _, _ => Ok None
  end.

(** ** Applying a commit *)

Definition merge_remote_upsert (input : PullInput) (remote_header : SyncCommitHeader)
    (base_entry : option SyncTreeEntryRecord) (dirty : SyncFileRecord) (path : string)
    (remote_plaintext : bytes) : Action RemoteApplyAction :=
  if f_deleted dirty then
    _ ← write_conflict_copy input path remote_plaintext (t_commit_id <$> base_entry) remote_header;
    mret KeptLocalDirty
  else
    local_plaintext ← read_local_file input (f_path dirty);
    match base_entry with
    | None =>
        _ ← write_conflict_copy input path remote_plaintext None remote_header;
        mret KeptLocalDirty
    | Some base_entry =>
        base ← lift (download_tree_entry_content input (t_commit_id base_entry) base_entry);
        match base with
        | None =>
            _ ← write_conflict_copy input path remote_plaintext (Some (t_commit_id base_entry))
                  remote_header;
            mret KeptLocalDirty
        | Some base_plaintext =>
            outcome ← lift (merge_markdown base_plaintext local_plaintext remote_plaintext);
            match outcome with
            | Merged merged =>
                _ ← apply_remote_write input path merged;
                if bool_decide (merged = remote_plaintext) then mret AppliedRemote
                else mret KeptLocalDirty
            | Conflict =>
                _ ← write_conflict_copy input path remote_plaintext (Some (t_commit_id base_entry))
                      remote_header;
                mret KeptLocalDirty
            end
        end
    end.

Definition merge_remote_delete (input : PullInput) (remote_header : SyncCommitHeader)
    (dirty : option SyncFileRecord) (path : string) : Action RemoteApplyAction :=
  match dirty with
  | None => _ ← apply_remote_delete input path; mret AppliedRemote
  | Some dirty =>
      if f_deleted dirty then _ ← apply_remote_delete input path; mret AppliedRemote
      else
        local_plaintext ← read_local_file input (f_path dirty);
        _ ← write_conflict_copy input path local_plaintext None remote_header;
        _ ← apply_remote_delete input path;
        mret AppliedRemote
  end.

(** One change of [apply_decrypted_commit]: the tree and the synced identifiers. *)
Definition apply_change (input : PullInput) (merge_state : RemoteMergeState) (commit : DecryptedCommit)
    (st : Tree * list string) (change : CommitBodyFileOp) : Action (Tree * list string) :=
  let '(tree, synced) := st in
  match change with
  | UpsertFile file_id path normalized_path plaintext_hash size_bytes content_ref =>
      _ ← lift (validate_remote_file_identity file_id path normalized_path);
      remote_plaintext ← lift (pack_entry_plaintext (dc_packs commit) content_ref);
      _ ← lift (validate_plaintext_metadata path remote_plaintext plaintext_hash size_bytes);
      action ←
        match merge_state !! file_id with
        | Some dirty =>
            merge_remote_upsert input (dc_header commit) (tree !! file_id) dirty path remote_plaintext
        | None => _ ← apply_remote_write input path remote_plaintext; mret AppliedRemote
        end;
      mret (<[file_id := upserted_entry (h_commit_id (dc_header commit)) file_id normalized_path
                           plaintext_hash content_ref]> tree,
            if bool_decide (action = AppliedRemote) then synced ++ [file_id] else synced)
  | DeleteFile file_id path normalized_path =>
      _ ← lift (validate_remote_file_identity file_id path normalized_path);
      action ← merge_remote_delete input (dc_header commit) (merge_state !! file_id) path;
      mret (base.delete file_id tree,
            if bool_decide (action = AppliedRemote) then synced ++ [file_id] else synced)
  end.

(** [scan_vault] and [apply_scan] on the current files; [refresh_local_scan] *)
Definition refresh_local_scan (input : PullInput) : Action unit :=
  fs ← gets w_fs;
  scanned ← lift (scan_vault fs (in_vault_root input));
  db ← gets w_db;
  res ← lift (apply_scan db (file_input <$> scanned) (in_now_ms input));
  modify (set_db res.2).

Definition persist_applied_commit (input : PullInput) (commit : DecryptedCommit) (tree : Tree)
    (synced_file_ids : list string) : Action unit :=
  let entries := tree_entries_sorted tree in
  let commit_id := h_commit_id (dc_header commit) in
  let body := dc_body commit in
  _ ← lift (validate_tree_id (b_tree_id body) entries);
  tree_json ← lift (tree_json_for_entries entries);
  db ← gets w_db;
  db ← lift (persist_tree_cache db commit_id (b_tree_id body) tree_json "remote" entries
               (in_now_ms input));
  _ ← modify (set_db db);
  _ ← refresh_local_scan input;
  _ ← modify (λ w, set_db (mark_files_synced (w_db w) commit_id synced_file_ids) w);
  parents_json ← lift (to_vec (h_parent_commit_ids (dc_header commit)));
  _ ← modify (λ w, set_db (upsert_local_commit (w_db w)
        {| c_commit_id := commit_id; c_parent_commit_ids_json := parents_json;
           c_commit_kind := b_commit_kind body; c_direction := "remote"; c_status := "applied";
           c_created_at_ms := in_now_ms input; c_applied_at_ms := Some (in_now_ms input);
           c_error := None |}) w);
  modify (λ w, set_db (update_vault_after_pull (w_db w) (in_vault_id input) commit_id
                         (in_now_ms input)) w).

Definition apply_decrypted_commit (input : PullInput) (merge_state : RemoteMergeState)
    (tree : Tree) (commit : DecryptedCommit) : Action Tree :=
  '(tree, synced) ← act_fold (apply_change input merge_state commit)
                      (starting_tree (dc_header commit) tree, []) (b_changes (dc_body commit));
  _ ← persist_applied_commit input commit tree synced;
  mret tree.

(** [rematerialize_tree_entries]: replays the tree up to the local head. *)
Fixpoint rematerialize_tree_entries (input : PullInput) (target_commit_id : string)
    (commits : list SyncCommitHeader) (tree : Tree) : SyncResult Tree :=
  match commits with
  | [] => Err (Transport ("local head " +:+ target_commit_id +:+ " is not present in remote history"))
  | header :: commits =>
      commit ← decrypt_commit input header;
      tree ← materialize_remote_tree_only commit tree;
      if bool_decide (h_commit_id header = target_commit_id) then Ok tree
      else rematerialize_tree_entries input target_commit_id commits tree
  end.

Definition initial_or_rematerialized_tree_entries (input : PullInput) (db : Db)
    (vault : SyncVaultRecord) (commits : list SyncCommitHeader) : SyncResult Tree :=
  let local_head := default "" (v_local_head_commit_id vault) in
  let tree := initial_tree_entries db vault in
  if str_is_empty local_head || negb (bool_decide (tree = ∅)) then Ok tree
  else rematerialize_tree_entries input local_head commits ∅.

(** One commit of the replay loop. *)
Definition replay_commit (input : PullInput) (merge_state : RemoteMergeState)
    (st : Tree * list string) (header : SyncCommitHeader) : Action (Tree * list string) :=
  commit ← lift (decrypt_commit input header);
  tree ← apply_decrypted_commit input merge_state st.1 commit;
  mret (tree, st.2 ++ [h_commit_id header]).

(** [fuel] bounds the pages listed; [None] is a listing that went on longer. *)
Definition pull_remote_changes (fuel : nat) (input : PullInput) (w : World)
  : option (SyncResult PullRemoteChangesResult * World) :=
  match (_ ← lift (validate_pull_input input);
         head ← lift (get_head (in_workspace_id input));
         vault ← ensure_pull_vault_record input head;
         mret (head, vault) : Action (SyncHead * SyncVaultRecord)) w with
  | (Err e, w) => Some (Err e, w)
  | (Ok (head, vault), w) =>
      let nothing := {| applied_commits := []; bootstrapped_from_checkpoint := false |} in
      if str_is_empty (current_head_commit_id head) then Some (Ok nothing, w) else
      match list_all_commits fuel (in_workspace_id input) with
      | None => None
      | Some listed =>
          Some ((commits ← lift listed;
                 selection ← lift (select_replay_commits vault head commits);
                 match rs_commits selection with
                 | [] => mret nothing
                 | replay =>
                     _ ← refresh_local_scan input;
                     merge_state ← gets (λ w,
                       insert_all ∅ ((λ f, (f_file_id f, f)) <$> list_dirty_files (w_db w)));
                     db ← gets w_db;
                     tree ← lift (initial_or_rematerialized_tree_entries input db vault commits);
                     st ← act_fold (replay_commit input merge_state) (tree, []) replay;
                     mret {| applied_commits := st.2;
                             bootstrapped_from_checkpoint := rs_bootstrapped selection |}
                 end : Action PullRemoteChangesResult) w)
      end
  end.
End pull.

(** ** Listing commits *)

Definition seq_lt (a b : SyncCommitHeader) : Prop := (h_server_seq a < h_server_seq b)%Z.

Lemma append_commits_sorted l acc commits :
  try_fold append_commit acc l = Ok commits → StronglySorted seq_lt acc → StronglySorted seq_lt commits.
Proof.
  intros Hf Hs. revert Hf. apply (try_fold_invariant (StronglySorted seq_lt)); [done|].
  intros s x s' _ Hsorted Hstep. unfold append_commit in Hstep.
  apply bind_Ok_inv in Hstep as (u & Hg%reject_if_Ok & [= <-]).
  apply StronglySorted_app_2; [|done|repeat constructor].
  intros a b Ha ->%list_elem_of_singleton. destruct (last s) as [p|] eqn:Hlast.
  - apply Z.leb_gt in Hg. apply last_Some in Hlast as [s0 ->].
    apply elem_of_app in Ha as [Ha| ->%list_elem_of_singleton]; [|done].
    apply StronglySorted_app_1_elem_of with (x1 := a) (x2 := p) in Hsorted; [|done|by constructor].
    unfold seq_lt in *. lia.
  - apply last_None in Hlast as ->. set_solver.
Qed.

Lemma append_commits_total acc l :
  StronglySorted seq_lt (acc ++ l) → try_fold append_commit acc l = Ok (acc ++ l).
Proof.
  revert acc. induction l as [|c l IH]; intros acc Hs; simpl; [by rewrite app_nil_r|].
  unfold append_commit at 2. replace (match last acc with Some _ => _ | None => false end) with false.
  - simpl. rewrite IH; [by rewrite <- app_assoc|]. by rewrite <- app_assoc.
  - destruct (last acc) as [p|] eqn:Hlast; [|done]. symmetry. apply Z.leb_gt.
    apply last_Some in Hlast as [s0 ->].
    eapply (StronglySorted_app_1_elem_of seq_lt (s0 ++ [p]) (c :: l)); [done|set_solver|by constructor].
Qed.

(** A service that serves the list [all], oldest first, page by page. *)
Definition honest_page (all : list SyncCommitHeader) (after limit : Z) : ListCommitsOutput :=
  let rest := List.filter (λ c, (after <? h_server_seq c)%Z) all in
  let page := take (Z.to_nat limit) rest in
  {| page_commits := page; page_has_more := Z.to_nat limit <? length rest;
     page_next_after_server_seq := match last page with Some c => h_server_seq c | None => after end |}.

Lemma filter_after pre rest after :
  Forall (λ c, h_server_seq c ≤ after)%Z pre → Forall (λ c, after < h_server_seq c)%Z rest →
  List.filter (λ c, (after <? h_server_seq c)%Z) (pre ++ rest) = rest.
Proof.
  intros Hpre Hrest. rewrite List.filter_app.
  assert (Hf : List.filter (λ c, (after <? h_server_seq c)%Z) pre = []).
  { induction Hpre as [|c l Hc _ IH]; simpl; [done|]. by rewrite (proj2 (Z.ltb_ge _ _)). }
  rewrite Hf. simpl. apply filter_all. eapply Forall_impl; [exact Hrest|].
  intros c Hc. by apply Z.ltb_lt.
Qed.

Lemma list_commits_loop_honest `{Remote} ws all fuel :
  (∀ after, list_commits ws after LIST_COMMITS_PAGE_SIZE = Ok (honest_page all after LIST_COMMITS_PAGE_SIZE)) →
  StronglySorted seq_lt all →
  ∀ pre rest after, all = pre ++ rest → Forall (λ c, h_server_seq c ≤ after)%Z pre →
    Forall (λ c, after < h_server_seq c)%Z rest → length rest < fuel →
    list_commits_loop fuel ws after pre = Some (Ok all).
Proof.
  intros Hserver Hsorted. induction fuel as [|fuel IH]; intros pre rest after Hall Hpre Hrest Hfuel; [lia|].
  simpl. rewrite Hserver.
  assert (Hpage : honest_page all after LIST_COMMITS_PAGE_SIZE =
    {| page_commits := take 100 rest; page_has_more := 100 <? length rest;
       page_next_after_server_seq :=
         match last (take 100 rest) with Some c => h_server_seq c | None => after end |}).
  { unfold honest_page. rewrite Hall, filter_after by done. reflexivity. }
  rewrite Hpage. unfold append_commit_page. cbn [page_commits page_has_more page_next_after_server_seq].
  assert (Hsplit : rest = take 100 rest ++ drop 100 rest) by (by rewrite take_drop).
  rewrite append_commits_total.
  2:{ rewrite Hall, Hsplit, app_assoc in Hsorted. by apply StronglySorted_app_1_l in Hsorted. }
  destruct (Nat.ltb_spec 100 (length rest)) as [Hmore|Hless]; simpl negb; cbv iota.
  - destruct (last (take 100 rest)) as [p|] eqn:Hlast.
    2:{ apply last_None in Hlast. apply (f_equal length) in Hlast.
        rewrite length_take in Hlast. change (length []) with 0 in Hlast. lia. }
    pose proof Hlast as (t & Ht)%last_Some.
    assert (Hp : p ∈ rest) by (rewrite Hsplit, Ht; set_solver).
    assert (Hafter : (after < h_server_seq p)%Z) by (rewrite Forall_forall in Hrest; by apply Hrest).
    rewrite (proj2 (Z.leb_gt _ _)) by done.
    assert (Hs2 : StronglySorted seq_lt ((pre ++ take 100 rest) ++ drop 100 rest))
      by (by rewrite <- app_assoc, <- Hsplit, <- Hall).
    apply (IH _ (drop 100 rest)).
    + by rewrite <- app_assoc, <- Hsplit.
    + apply Forall_app. split.
      * eapply Forall_impl; [exact Hpre|]. simpl. lia.
      * rewrite Ht. apply Forall_app. split; [|by repeat constructor].
        apply Forall_forall. intros c Hc.
        assert (Hs3 : StronglySorted seq_lt ((pre ++ t) ++ [p])).
        { rewrite <- app_assoc, <- Ht. by apply StronglySorted_app_1_l in Hs2. }
        assert (Hlt : seq_lt c p)
          by (eapply (StronglySorted_app_1_elem_of _ (pre ++ t) [p]); [done|set_solver|by constructor]).
        unfold seq_lt in Hlt. lia.
    + apply Forall_forall. intros c Hc.
      eapply (StronglySorted_app_1_elem_of seq_lt (pre ++ take 100 rest) (drop 100 rest));
        [done|rewrite Ht; set_solver|done].
    + rewrite length_drop. lia.
  - rewrite take_ge by lia. by rewrite Hall.
Qed.

(** C22: listing the history. Against a service that serves a history with
    increasing positive sequence numbers page by page, [list_all_commits] ends
    after at most one page more than there are commits and returns exactly that
    history; against any service whatever it returns, if it returns a list at all,
    a list with strictly increasing sequence numbers. *)
Theorem list_all_commits_complete `{Remote} (ws : string) (all : list SyncCommitHeader) (fuel : nat) :
  ((∀ after, list_commits ws after LIST_COMMITS_PAGE_SIZE
               = Ok (honest_page all after LIST_COMMITS_PAGE_SIZE)) →
   StronglySorted seq_lt all → Forall (λ c, 0 < h_server_seq c)%Z all → length all < fuel →
   list_all_commits fuel ws = Some (Ok all)) ∧
  (∀ commits, list_all_commits fuel ws = Some (Ok commits) → StronglySorted seq_lt commits).
Proof.
  split.
  - intros Hserver Hsorted Hpos Hfuel. by apply (list_commits_loop_honest _ all fuel Hserver Hsorted [] all).
  - unfold list_all_commits. generalize 0%Z as after.
    assert (Hnil : StronglySorted seq_lt []) by constructor. revert Hnil.
    generalize (@nil SyncCommitHeader) as acc.
    induction fuel as [|fuel IH]; intros acc Hacc after commits; simpl; [done|].
    destruct (list_commits _ _ _) as [page|e]; [|done].
    destruct (append_commit_page acc page) as [acc'|e] eqn:Happ; [|done].
    apply append_commits_sorted in Happ; [|done].
    destruct (negb _); [by intros [= <-]|]. destruct (_ <=? _)%Z; [done|]. by apply IH.
Qed.

(** ** Selecting what to replay *)

Lemma position_Some id commits i :
  position id commits = Some i →
  ∃ pre c post, commits = pre ++ c :: post ∧ length pre = i ∧ h_commit_id c = id ∧
    Forall (λ c, h_commit_id c ≠ id) pre.
Proof.
  revert i. induction commits as [|c commits IH]; intros i; simpl; [done|]. case_bool_decide as Hc.
  - intros [= <-]. by exists [], c, commits.
  - intros (j & Hj & ->)%fmap_Some_1. destruct (IH j Hj) as (pre & d & post & -> & <- & Hd & Hpre).
    exists (c :: pre), d, post. split_and!; [done..|by constructor].
Qed.

(** What a pull replays. When the local head is the remote head nothing is
    replayed. Otherwise a selection is a suffix of the listed history that ends
    with the remote head and starts just after the (first) commit that is the
    local head; a device without local head starts at the latest checkpoint, or at
    the beginning when there is none, and only then counts as bootstrapped from a
    checkpoint. *)
Lemma select_replay_commits_correct vault head commits sel :
  select_replay_commits vault head commits = Ok sel →
  let local_head := default "" (v_local_head_commit_id vault) in
  let checkpoint := latest_checkpoint_commit_id head in
  (local_head = current_head_commit_id head ∧ rs_commits sel = [] ∧ rs_bootstrapped sel = false) ∨
  (local_head ≠ current_head_commit_id head ∧
   ∃ pre, commits = pre ++ rs_commits sel ∧
     (∃ c, last (rs_commits sel) = Some c ∧ h_commit_id c = current_head_commit_id head) ∧
     (local_head ≠ "" → rs_bootstrapped sel = false ∧
        ∃ before c, pre = before ++ [c] ∧ h_commit_id c = local_head ∧
          Forall (λ c, h_commit_id c ≠ local_head) before) ∧
     (local_head = "" → checkpoint = "" → pre = [] ∧ rs_bootstrapped sel = false) ∧
     (local_head = "" → checkpoint ≠ "" →
        (∃ c rest, rs_commits sel = c :: rest ∧ h_commit_id c = checkpoint) ∧
        Forall (λ c, h_commit_id c ≠ checkpoint) pre ∧ rs_bootstrapped sel = true)).
Proof.
  intros Hs local_head checkpoint. unfold select_replay_commits in Hs.
  fold local_head in Hs. fold checkpoint in Hs.
  case_bool_decide as Hhead; [left; by injection Hs as <-|right]. split; [done|].
  apply bind_Ok_inv in Hs as (start & Hstart & Hs).
  apply bind_Ok_inv in Hs as (u & Hlast%reject_if_Ok & [= <-]). simpl.
  exists (take start commits). split; [by rewrite take_drop|]. split.
  { destruct (last (drop start commits)) as [c|]; [|done].
    apply bool_decide_eq_false, dec_stable in Hlast. by exists c. }
  destruct (str_is_empty local_head) eqn:Hl.
  - assert (Hl0 : local_head = "") by (by destruct local_head). split; [by rewrite Hl0|].
    destruct (str_is_empty checkpoint) eqn:Hc.
    + assert (Hc0 : checkpoint = "") by (by destruct checkpoint). injection Hstart as <-.
      split; [done|by rewrite Hc0].
    + split; [intros _ ->; done|]. intros _ _.
      apply ok_or_Ok, position_Some in Hstart as (pre & c & post & -> & <- & Hid & Hpre).
      rewrite drop_app_length, take_app_length. split; [by exists c, post|done].
  - assert (Hl0 : local_head ≠ "") by (intros He; by rewrite He in Hl). split_and!; [|done|done].
    intros _. split; [done|]. apply ok_or_Ok, fmap_Some_1 in Hstart as (i & Hi & ->).
    apply position_Some in Hi as (pre & c & post & -> & <- & Hid & Hpre). exists pre, c.
    split_and!; [|done|done].
    change (pre ++ c :: post) with (pre ++ [c] ++ post). rewrite app_assoc.
    replace (S (length pre)) with (length (pre ++ [c])) by (rewrite length_app; simpl; lia).
    by rewrite take_app_length.
Qed.
