(* ===== verification/Push.v ===== *)
(** * Publishing local changes (sync/checkpoint.rs)

    A push scans the vault, plans a commit, encrypts its packs and its body,
    uploads them and publishes the signed header; then it records the commit
    locally. [push_local_changes] and [push_merge_commit] end with the same steps,
    which are modelled once ([publish_plan]). Random nonces are the inputs
    [ps_nonces], one for each blob in the order they are encrypted. *)
From Stdlib Require Import Ascii String.
#[local] Set Warnings "-clear-no-such-hyp".
From S2P Require Import Prelude SyncErrors Paths SyncDb Scanner Planner Crypto Keys Packer Watcher.
From S2P Require Import Commit Transfer Pull.

Definition CHECKPOINT_COMMIT_INTERVAL : Z := 100.
Definition CHECKPOINT_INCREMENTAL_BYTES_INTERVAL : Z := 64 * 1024 * 1024.
Definition CHECKPOINT_WALL_CLOCK_INTERVAL_MS : Z := 7 * 24 * 60 * 60 * 1000.

Record CheckpointTriggerInput := {
  commits_since_checkpoint : Z;
  incremental_encrypted_bytes_since_checkpoint : Z;
  trigger_now_ms : Z;
  last_checkpoint_at_ms : option Z;
  force : bool }.

(** [PushLocalChangesInput], and [PushMergeCommitInput] with its local parent;
    the planner configuration is the pipeline's. *)
Record PushInput := {
  ps_vault_id : string;
  ps_vault_root : AbsPath;
  ps_workspace_id : string;
  ps_device_id : string;
  ps_workspace_key : SymmetricKey;
  ps_signing_key : bytes;
  ps_now_ms : Z;
  ps_planner_config : PlannerConfig;
  ps_nonces : nat → bytes }.

Record PushLocalChangesResult := {
  published : bool;
  pushed_commit_id : option string;
  pushed_commit_kind : option CommitPlanKind;
  uploaded_object_ids : list string;
  file_op_count : nat;
  push_idempotent : bool }.

Record ReservedCommitObjects := {
  rc_body_object_id : string;
  rc_pack_object_ids : gmap string string }.

Record CommitIdentity := {
  ci_workspace_id : string;
  ci_author_device_id : string;
  ci_device_seq : Z;
  ci_commit_kind : string;
  ci_expected_head_commit_id : string;
  ci_parent_commit_ids : list string;
  ci_body_object_id : string;
  ci_referenced_object_ids : list string;
  ci_tree_id : string;
  ci_changes : list CommitBodyFileOp }.

(** ** client.rs *)

Record PublishCommitInput := {
  pc_workspace_id : string;
  pc_commit_id : string;
  pc_commit_kind : SyncCommitKind;
  pc_expected_head_commit_id : string;
  pc_parent_commit_ids : list string;
  pc_author_device_id : string;
  pc_device_seq : Z;
  pc_body_object_id : string;
  pc_body_ciphertext_sha256 : string;
  pc_body_size_bytes : Z;
  pc_referenced_object_ids : list string;
  pc_signature : bytes }.
Record PublishedCommit := { pb_commit_id : string; pb_head_version : Z; pb_idempotent : bool }.
Class Publisher := { publish_commit (input : PublishCommitInput) : SyncResult PublishedCommit }.

(** ** Pure parts *)

Definition should_create_checkpoint (input : CheckpointTriggerInput) : bool :=
  if force input then true
  else if (CHECKPOINT_COMMIT_INTERVAL <=? commits_since_checkpoint input)%Z then true
  else if (CHECKPOINT_INCREMENTAL_BYTES_INTERVAL
           <=? incremental_encrypted_bytes_since_checkpoint input)%Z then true
  else match last_checkpoint_at_ms input with
       | Some last => (CHECKPOINT_WALL_CLOCK_INTERVAL_MS
                       <=? Z.max i64_min (Z.min i64_max (trigger_now_ms input - last)))%Z
       | None => false
       end.

Definition push_commit_kind_label (plan_kind : CommitPlanKind) : string :=
  match plan_kind with
  | Checkpoint => "checkpoint"
  | Incremental => "incremental"
  | Merge => "merge"
  end.
Definition proto_commit_kind (plan_kind : CommitPlanKind) : SyncCommitKind :=
  match plan_kind with
  | Checkpoint => KindCheckpoint
  | Incremental => KindIncremental
  | Merge => KindMerge
  end.

Definition validate_push_input (input : PushInput) : SyncResult unit :=
  _ ← validate_required (ps_vault_id input) "vault_id";
  _ ← validate_required (ps_workspace_id input) "workspace_id";
  validate_required (ps_device_id input) "device_id".

Definition validate_push_merge_input (input : PushInput) (local_parent_commit_id : string)
  : SyncResult unit :=
  _ ← validate_required (ps_vault_id input) "vault_id";
  _ ← validate_required (ps_workspace_id input) "workspace_id";
  _ ← validate_required (ps_device_id input) "device_id";
  validate_required local_parent_commit_id "local_parent_commit_id".

(** The record of a device that has none: it starts at the remote head. *)
Definition new_vault_record (input : PushInput) (head : SyncHead) : SyncVaultRecord :=
  {| v_vault_id := ps_vault_id input; v_root_path := path_text (ps_vault_root input);
     v_remote_workspace_id := ps_workspace_id input;
     v_remote_head_commit_id := empty_to_none (current_head_commit_id head);
     v_local_head_commit_id := empty_to_none (current_head_commit_id head);
     v_device_id := ps_device_id input; v_next_device_seq := 1; v_enabled := true;
     v_created_at_ms := ps_now_ms input; v_updated_at_ms := ps_now_ms input |}.

(** The record [ensure_vault_record] writes; [remote_head] is the remote head the
    merge variant also updates. *)
Definition push_vault_record (input : PushInput) (head : SyncHead)
    (remote_head : SyncVaultRecord → option string) (existing : option SyncVaultRecord)
  : SyncVaultRecord :=
  let vault := default (new_vault_record input head) existing in
  {| v_vault_id := v_vault_id vault; v_root_path := path_text (ps_vault_root input);
     v_remote_workspace_id := ps_workspace_id input;
     v_remote_head_commit_id := remote_head vault;
     v_local_head_commit_id := v_local_head_commit_id vault;
     v_device_id := ps_device_id input;
     v_next_device_seq := if (v_next_device_seq vault <=? 0)%Z then 1 else v_next_device_seq vault;
     v_enabled := true; v_created_at_ms := v_created_at_ms vault;
     v_updated_at_ms := ps_now_ms input |}.

Definition ensure_vault_record (input : PushInput) (head : SyncHead) : Action SyncVaultRecord :=
  existing ← gets (λ w, get_vault (w_db w) (ps_vault_id input));
  let vault := push_vault_record input head v_remote_head_commit_id existing in
  _ ← modify (λ w, set_db (upsert_vault (w_db w) vault) w);
  mret vault.

Definition ensure_merge_vault_record (input : PushInput) (head : SyncHead) : Action SyncVaultRecord :=
  existing ← gets (λ w, get_vault (w_db w) (ps_vault_id input));
  let vault := push_vault_record input head
                 (λ _, empty_to_none (current_head_commit_id head)) existing in
  _ ← modify (λ w, set_db (upsert_vault (w_db w) vault) w);
  mret vault.

Definition ensure_local_head_can_push (vault : SyncVaultRecord) (remote_head : string)
  : SyncResult unit :=
  let local_head := default "" (v_local_head_commit_id vault) in
  reject_if (negb (str_is_empty remote_head) && negb (bool_decide (local_head = remote_head)))
    (Transport ("remote head " +:+ remote_head
                +:+ " is not present locally; pull is required before push")).

Definition ensure_merge_parent_can_push (vault : SyncVaultRecord)
    (remote_head local_parent_commit_id : string) : SyncResult unit :=
  _ ← reject_if (str_is_empty remote_head) (InvalidArgument "merge commit requires a remote head");
  _ ← reject_if (bool_decide (remote_head = local_parent_commit_id))
        (InvalidArgument "merge commit requires a distinct local parent");
  ensure_local_head_can_push vault remote_head.

Definition parent_ids (expected_head : string) : list string :=
  if str_is_empty expected_head then [] else [expected_head].

(** One object of [reserved_commit_objects]. *)
Definition reserve_step (st : option string * gmap string string) (object : ReservedObject)
  : option string * gmap string string :=
  if bool_decide (ro_client_object_ref object = "commit-body")
  then (Some (ro_object_id object), st.2)
  else (st.1, <[ro_client_object_ref object := ro_object_id object]> st.2).

Definition reserved_commit_objects (reserved : list ReservedObject) : SyncResult ReservedCommitObjects :=
  let '(body, packs) := foldl reserve_step (None, ∅) reserved in
  body ← ok_or body (Transport "missing reserved commit body object");
  Ok {| rc_body_object_id := body; rc_pack_object_ids := packs |}.

Definition pack_object_id (reserved : ReservedCommitObjects) (pack_ref : string) : SyncResult string :=
  ok_or (rc_pack_object_ids reserved !! pack_ref)
    (Transport ("missing reserved pack object for " +:+ pack_ref)).

Definition materialize_op (reserved : ReservedCommitObjects) (tree : Tree) (op : PlanFileOp)
  : SyncResult Tree :=
  match op with
  | Upsert file_id _ normalized_path plaintext_hash _ pack_ref pack_entry_id =>
      object_id ← pack_object_id reserved pack_ref;
      Ok (<[file_id := {| t_commit_id := ""; t_file_id := file_id;
                          t_normalized_path := normalized_path;
                          t_plaintext_hash := Some plaintext_hash;
                          t_content_object_id := Some object_id;
                          t_pack_entry_id := Some pack_entry_id; t_kind := "markdown" |}]> tree)
  | Delete file_id _ _ => Ok (base.delete file_id tree)
  end.

Definition materialize_tree_entries (db : Db) (expected_head : string) (plan : SyncPlan)
    (reserved : ReservedCommitObjects) : SyncResult (list SyncTreeEntryRecord) :=
  let by_file_id := if str_is_empty expected_head then ∅
                    else insert_all ∅ ((λ e, (t_file_id e, e)) <$> list_tree_entries db expected_head) in
  tree ← try_fold (materialize_op reserved) by_file_id (file_ops plan);
  Ok (tree_entries_sorted tree).

Definition commit_body_file_op (reserved : ReservedCommitObjects) (op : PlanFileOp)
  : SyncResult CommitBodyFileOp :=
  match op with
  | Upsert file_id path normalized_path plaintext_hash size pack_ref pack_entry_id =>
      object_id ← pack_object_id reserved pack_ref;
      Ok (UpsertFile file_id path normalized_path plaintext_hash size
            {| cr_object_id := object_id; cr_entry_id := pack_entry_id |})
  | Delete file_id path normalized_path => Ok (DeleteFile file_id path normalized_path)
  end.
Definition commit_body_file_ops (plan : SyncPlan) (reserved : ReservedCommitObjects)
  : SyncResult (list CommitBodyFileOp) := try_map (commit_body_file_op reserved) (file_ops plan).

Definition commit_body_pack_refs (plan : SyncPlan) (reserved : ReservedCommitObjects)
  : list CommitBodyPackRef :=
  omap (λ shard,
    (λ object_id, {| pr_pack_ref := p_pack_ref shard; pr_object_id := object_id;
                     pr_pack_kind := p_pack_kind shard; pr_shard_index := p_shard_index shard;
                     pr_entry_count := length (p_entries shard) |})
      <$> rc_pack_object_ids reserved !! p_pack_ref shard) (pack_shards plan).

Definition op_file_id (op : PlanFileOp) : string :=
  match op with Upsert file_id _ _ _ _ _ _ | Delete file_id _ _ => file_id end.
(** The elements of a [BTreeSet], in order. *)
Definition changed_file_ids (plan : SyncPlan) : list string :=
  sort_by str_leb (remove_dups (op_file_id <$> file_ops plan)).

(** The entries a published commit is stored with. *)
Definition adopt_commit (commit_id : string) (e : SyncTreeEntryRecord) : SyncTreeEntryRecord :=
  if str_is_empty (t_commit_id e)
  then {| t_commit_id := commit_id; t_file_id := t_file_id e; t_normalized_path := t_normalized_path e;
          t_plaintext_hash := t_plaintext_hash e; t_content_object_id := t_content_object_id e;
          t_pack_entry_id := t_pack_entry_id e; t_kind := t_kind e |}
  else e.

Section push.
Context `{Unicode, Blake3, Os, Sqlite, CryptoLib, KeyLib, PackLib, PlannerText, Remote, Publisher}.
Context `{!Serialize PackIndex, !Serialize PackAad, !Serialize CommitBodyAad, !Serialize CommitBody,
          !Serialize (list TreeCacheEntryBody), !Serialize (list string), !Serialize CommitIdentity,
          !Serialize CommitSignaturePayload}.

Definition commit_id_for (identity : CommitIdentity) : SyncResult string :=
  json ← to_vec identity;
  Ok ("commit_" +:+ str_take 32 (blake3_hex json)).

Definition shard_request (shard : PackShardPlan) : SyncResult ObjectReservationInput :=
  kind ← object_kind_for_pack_kind (p_pack_kind shard);
  Ok {| or_client_object_ref := p_pack_ref shard; or_kind := kind |}.

Definition reserve_commit_objects (workspace_id device_id : string) (plan : SyncPlan)
  : SyncResult ReservedCommitObjects :=
  requests ← try_map shard_request (pack_shards plan);
  reserved ← reserve_object_ids workspace_id device_id
    (requests ++ [{| or_client_object_ref := "commit-body"; or_kind := ObjCommitBody |}]);
  reserved_commit_objects reserved.

(** One shard of [encrypted_uploads]; the uploads so far count the nonces drawn. *)
Definition encrypt_shard (input : PushInput) (commit_id : string) (reserved : ReservedCommitObjects)
    (uploads : list ReservedEncryptedUploadObject) (shard : PackShardPlan)
  : SyncResult (list ReservedEncryptedUploadObject) :=
  object_id ← pack_object_id reserved (p_pack_ref shard);
  encrypted ← encrypt_pack (ps_nonces input (length uploads)) (ps_workspace_key input)
                (ps_workspace_id input) object_id (p_pack_kind shard) commit_id (pack_entries shard);
  kind ← object_kind_for_pack_kind (p_pack_kind shard);
  Ok (uploads ++ [{| re_object_id := object_id; re_kind := kind; re_ciphertext := ep_blob encrypted |}]).

Definition encrypted_uploads (input : PushInput) (commit_id commit_kind : string)
    (parents : list string) (device_seq : Z) (reserved : ReservedCommitObjects) (plan : SyncPlan)
    (commit_body : CommitBody) : SyncResult (list ReservedEncryptedUploadObject) :=
  uploads ← try_fold (encrypt_shard input commit_id reserved) [] (pack_shards plan);
  let commit_key := commit_body_key (ps_workspace_key input) (ps_workspace_id input) in
  let aad := CommitBodyAad_new (ps_workspace_id input) commit_id commit_kind parents
               (ps_device_id input) device_seq (rc_body_object_id reserved) in
  body_plaintext ← to_vec commit_body;
  body_blob ← encrypt_commit_body (ps_nonces input (length uploads)) commit_key aad body_plaintext;
  Ok (uploads ++ [{| re_object_id := rc_body_object_id reserved; re_kind := ObjCommitBody;
                     re_ciphertext := body_blob |}]).

Definition apply_publish_success (input : PushInput) (published : PublishedCommit)
    (plan_kind : CommitPlanKind) (parents : list string) (tree_id : string)
    (tree_entries : list SyncTreeEntryRecord) (plan : SyncPlan) (device_seq : Z) : Action unit :=
  let commit_id := pb_commit_id published in
  let entries := adopt_commit commit_id <$> tree_entries in
  tree_json ← lift (tree_json_for_entries entries);
  db ← gets w_db;
  db ← lift (persist_tree_cache db commit_id tree_id tree_json "local" entries (ps_now_ms input));
  _ ← modify (set_db db);
  _ ← modify (λ w, set_db (mark_files_synced (w_db w) commit_id (changed_file_ids plan)) w);
  parents_json ← lift (to_vec parents);
  _ ← modify (λ w, set_db (upsert_local_commit (w_db w)
        {| c_commit_id := commit_id; c_parent_commit_ids_json := parents_json;
           c_commit_kind := push_commit_kind_label plan_kind; c_direction := "local";
           c_status := "published"; c_created_at_ms := ps_now_ms input;
           c_applied_at_ms := Some (ps_now_ms input); c_error := None |}) w);
  modify (λ w, set_db (update_vault_after_publish (w_db w) (ps_vault_id input) commit_id
                         (i64_add device_seq 1) (ps_now_ms input)) w).

Definition nothing_published : PushLocalChangesResult :=
  {| published := false; pushed_commit_id := None; pushed_commit_kind := None;
     uploaded_object_ids := []; file_op_count := 0; push_idempotent := false |}.

(** What a prepared commit is made of, before it is uploaded. *)
Record PreparedCommit := {
  pp_tree_entries : list SyncTreeEntryRecord;
  pp_tree_id : string;
  pp_commit_id : string;
  pp_referenced : list string;
  pp_body : CommitBody;
  pp_uploads : list ReservedEncryptedUploadObject }.

Definition prepare_commit (input : PushInput) (db : Db) (device_seq : Z) (expected_head : string)
    (parents : list string) (plan : SyncPlan) (reserved : ReservedCommitObjects)
  : SyncResult PreparedCommit :=
  let kind := push_commit_kind_label (commit_kind plan) in
  let referenced := sort_by str_leb (btree_values (rc_pack_object_ids reserved)) in
  tree_entries ← materialize_tree_entries db expected_head plan reserved;
  tree_id ← tree_id_for_entries tree_entries;
  changes ← commit_body_file_ops plan reserved;
  commit_id ← commit_id_for
    {| ci_workspace_id := ps_workspace_id input; ci_author_device_id := ps_device_id input;
       ci_device_seq := device_seq; ci_commit_kind := kind;
       ci_expected_head_commit_id := expected_head; ci_parent_commit_ids := parents;
       ci_body_object_id := rc_body_object_id reserved; ci_referenced_object_ids := referenced;
       ci_tree_id := tree_id; ci_changes := changes |};
  let body := {| b_format := "kuku.sync.commit-body"; b_version := 1; b_commit_id := commit_id;
                 b_commit_kind := kind; b_parent_commit_ids := parents; b_tree_id := tree_id;
                 b_changes := changes; b_packs := commit_body_pack_refs plan reserved |} in
  uploads ← encrypted_uploads input commit_id kind parents device_seq reserved plan body;
  Ok {| pp_tree_entries := tree_entries; pp_tree_id := tree_id; pp_commit_id := commit_id;
        pp_referenced := referenced; pp_body := body; pp_uploads := uploads |}.

(** The header published for a prepared commit whose body was uploaded. *)
Definition publish_input (input : PushInput) (device_seq : Z) (expected_head : string)
    (parents : list string) (plan_kind : CommitPlanKind) (body_object_id : string)
    (prepared : PreparedCommit) (body_metadata : UploadedObjectMetadata) : SyncResult PublishCommitInput :=
  signature ← sign_commit_payload (ps_signing_key input)
    (CommitSignaturePayload_new (ps_workspace_id input) (pp_commit_id prepared)
       (push_commit_kind_label plan_kind) expected_head parents (ps_device_id input) device_seq
       body_object_id (um_ciphertext_sha256 body_metadata) (um_size_bytes body_metadata)
       (pp_referenced prepared));
  Ok {| pc_workspace_id := ps_workspace_id input; pc_commit_id := pp_commit_id prepared;
        pc_commit_kind := proto_commit_kind plan_kind; pc_expected_head_commit_id := expected_head;
        pc_parent_commit_ids := parents; pc_author_device_id := ps_device_id input;
        pc_device_seq := device_seq; pc_body_object_id := body_object_id;
        pc_body_ciphertext_sha256 := um_ciphertext_sha256 body_metadata;
        pc_body_size_bytes := um_size_bytes body_metadata;
        pc_referenced_object_ids := pp_referenced prepared; pc_signature := signature |}.

(** The common end of the two pushes, from a non-empty plan on. *)
Definition publish_plan (input : PushInput) (vault : SyncVaultRecord) (expected_head : string)
    (parents : list string) (plan : SyncPlan) : Action PushLocalChangesResult :=
  let device_seq := v_next_device_seq vault in
  let plan_kind := commit_kind plan in
  reserved ← lift (reserve_commit_objects (ps_workspace_id input) (ps_device_id input) plan);
  db ← gets w_db;
  prepared ← lift (prepare_commit input db device_seq expected_head parents plan reserved);
  uploaded ← lift (upload_reserved_objects transfer_config (ps_workspace_id input)
                     (ps_device_id input) ("upload_" +:+ pp_commit_id prepared)
                     (pp_uploads prepared)).2;
  let body_object_id := rc_body_object_id reserved in
  body_metadata ← lift (ok_or (List.find (λ m, bool_decide (um_object_id m = body_object_id)) uploaded)
                          (Transport "commit body upload metadata missing"));
  header ← lift (publish_input input device_seq expected_head parents plan_kind body_object_id
                   prepared body_metadata);
  published ← lift (publish_commit header);
  _ ← apply_publish_success input published plan_kind parents (pp_tree_id prepared)
        (pp_tree_entries prepared) plan device_seq;
  mret {| published := true; pushed_commit_id := Some (pp_commit_id prepared);
          pushed_commit_kind := Some plan_kind; uploaded_object_ids := um_object_id <$> uploaded;
          file_op_count := length (file_ops plan); push_idempotent := pb_idempotent published |}.

(** [scan_vault] and [apply_scan], as both pushes start. *)
Definition scan_for_push (input : PushInput) : Action (list ScannedFile * ScanApplyResult) :=
  fs ← gets w_fs;
  scanned_files ← lift (scan_vault fs (ps_vault_root input));
  db ← gets w_db;
  res ← lift (apply_scan db (file_input <$> scanned_files) (ps_now_ms input));
  _ ← modify (set_db res.2);
  mret (scanned_files, res.1).

Definition push_local_changes (input : PushInput) : Action PushLocalChangesResult :=
  _ ← lift (validate_push_input input);
  head ← lift (get_head (ps_workspace_id input));
  vault ← ensure_vault_record input head;
  let expected_head := current_head_commit_id head in
  _ ← lift (ensure_local_head_can_push vault expected_head);
  scan ← scan_for_push input;
  plan ← lift (if str_is_empty expected_head
               then plan_checkpoint scan.1 (ps_planner_config input)
               else plan_incremental scan.2 scan.1 (ps_planner_config input));
  if plan_is_empty plan then mret nothing_published
  else publish_plan input vault expected_head (parent_ids expected_head) plan.

(** [plan.commit_kind = CommitPlanKind::Merge] *)
Definition as_merge (plan : SyncPlan) : SyncPlan :=
  {| commit_kind := Merge; tree_id := tree_id plan; tree_entries := tree_entries plan;
     file_ops := file_ops plan; pack_shards := pack_shards plan |}.

Definition push_merge_commit (input : PushInput) (local_parent_commit_id : string)
  : Action PushLocalChangesResult :=
  _ ← lift (validate_push_merge_input input local_parent_commit_id);
  head ← lift (get_head (ps_workspace_id input));
  vault ← ensure_merge_vault_record input head;
  let expected_head := current_head_commit_id head in
  _ ← lift (ensure_merge_parent_can_push vault expected_head local_parent_commit_id);
  scan ← scan_for_push input;
  plan ← lift (plan_incremental scan.2 scan.1 (ps_planner_config input));
  let plan := as_merge plan in
  if plan_is_empty plan then mret nothing_published
  else publish_plan input vault expected_head [expected_head; local_parent_commit_id] plan.
End push.

(** The header as the service lists it. *)
Definition published_header (pc : PublishCommitInput) (server_seq : Z) : SyncCommitHeader :=
  {| h_commit_id := pc_commit_id pc; h_commit_kind := pc_commit_kind pc;
     h_expected_head_commit_id := pc_expected_head_commit_id pc;
     h_parent_commit_ids := pc_parent_commit_ids pc; h_author_device_id := pc_author_device_id pc;
     h_device_seq := pc_device_seq pc; h_body_object_id := pc_body_object_id pc;
     h_body_ciphertext_sha256 := pc_body_ciphertext_sha256 pc; h_body_size_bytes := pc_body_size_bytes pc;
     h_referenced_object_ids := pc_referenced_object_ids pc; h_signature := pc_signature pc;
     h_server_seq := server_seq |}.
