(* ===== verification/Account.v ===== *)
(** * Account keys and workspaces of a device (sync/commands.rs, sync/applier.rs)

    Setting up sync on a device: the account root key, the workspaces of the
    account, the registration of the device and the local copies of the keys. The
    state is the device's keychain, the state of the service and the number of
    random draws made; an error leaves it as the steps before it made it. *)
From Stdlib Require Import Ascii String.
#[local] Set Warnings "-clear-no-such-hyp".
From S2P Require Import Prelude Text SyncErrors Paths SyncDb Crypto Keys AccountKeys.
From S2P Require Import Commit Push SyncState.

Definition ACCOUNT_RECOVERY_ENVELOPE_ID : string := "recovery:v1".
Definition ACCOUNT_KEY_VERSION : Z := 1.
Definition WORKSPACE_METADATA_VERSION : Z := 1.
Definition WORKSPACE_KEY_VERSION : Z := 1.
Definition DEVICE_METADATA_VERSION : Z := 1.
Definition CRYPTO_VERSION : string := "kuku-sync-v1".

(** ** The set-up interface of the service (client.rs) *)

(** The enumerations of the contract, [_UNSPECIFIED] first. *)
Inductive SyncAccountKeyRecipientType :=
| AccountRecipientUnspecified | AccountRecipientRecoveryPhrase | AccountRecipientDevice.
#[export] Instance SyncAccountKeyRecipientType_eq_dec : EqDecision SyncAccountKeyRecipientType.
Proof. solve_decision. Defined.
Inductive SyncKeyRecipientType := RecipientUnspecified | RecipientPassphrase | RecipientDevice.
#[export] Instance SyncKeyRecipientType_eq_dec : EqDecision SyncKeyRecipientType.
Proof. solve_decision. Defined.

Record SyncWorkspaceMetadata := {
  sw_workspace_id : string;
  sw_current_head_commit_id : string;
  sw_head_version : Z;
  sw_crypto_version : string;
  sw_encrypted_metadata : bytes;
  sw_metadata_version : Z;
  sw_encrypted_workspace_key : bytes;
  sw_workspace_key_version : Z }.

Record SyncDeviceMetadata := {
  sd_device_id : string;
  sd_workspace_id : string;
  sd_signing_public_key : bytes;
  sd_encryption_public_key : bytes;
  sd_encrypted_device_name : bytes;
  sd_metadata_version : Z;
  sd_last_device_seq : Z }.

Record SyncAccountKeyMetadata := { ak_account_key_id : string; ak_crypto_version : string }.

Record SyncAccountKeyEnvelopeMetadata := {
  am_account_key_id : string;
  am_envelope_id : string;
  am_recipient_type : SyncAccountKeyRecipientType;
  am_key_version : Z;
  am_kdf_params_json : string;
  am_encrypted_envelope : bytes }.

Record SyncKeyEnvelopeMetadata := {
  km_workspace_id : string;
  km_envelope_id : string;
  km_recipient_type : SyncKeyRecipientType;
  km_recipient_device_id : string;
  km_key_version : Z;
  km_kdf_params_json : string;
  km_encrypted_envelope : bytes;
  km_created_by_device_id : string }.

Record CreateAccountKeyInput := {
  ci_account_key_id : string;
  ci_crypto_version : string;
  ci_envelope_id : string;
  ci_recipient_type : SyncAccountKeyRecipientType;
  ci_key_version : Z;
  ci_kdf_params_json : string;
  ci_encrypted_envelope : bytes }.

Record UpdateWorkspaceMetadataInput := {
  um_workspace_id : string;
  um_encrypted_metadata : bytes;
  um_metadata_version : Z;
  um_expected_metadata_version : Z }.

Record UpdateWorkspaceKeyInput := {
  uk_workspace_id : string;
  uk_encrypted_workspace_key : bytes;
  uk_workspace_key_version : Z;
  uk_expected_workspace_key_version : Z }.

Record UpdateDeviceMetadataInput := {
  dv_workspace_id : string;
  dv_device_id : string;
  dv_encrypted_device_name : bytes;
  dv_metadata_version : Z;
  dv_expected_metadata_version : Z }.

(** [SyncSetupApi]; the two [put_*] calls of the trait are not used. *)
Class SetupApi (Service : Type) := {
  get_account_key_state : Act Service SyncError (option SyncAccountKeyMetadata);
  create_account_key (input : CreateAccountKeyInput)
    : Act Service SyncError (SyncAccountKeyMetadata * SyncAccountKeyEnvelopeMetadata);
  list_account_key_envelopes : Act Service SyncError (list SyncAccountKeyEnvelopeMetadata);
  create_workspace (crypto_version : string) : Act Service SyncError SyncWorkspaceMetadata;
  list_workspaces : Act Service SyncError (list SyncWorkspaceMetadata);
  delete_workspace (workspace_id : string) : Act Service SyncError unit;
  update_workspace_metadata (input : UpdateWorkspaceMetadataInput)
    : Act Service SyncError SyncWorkspaceMetadata;
  update_workspace_key (input : UpdateWorkspaceKeyInput) : Act Service SyncError SyncWorkspaceMetadata;
  register_device (workspace_id : string)
    (signing_public_key encryption_public_key encrypted_device_name : bytes)
    : Act Service SyncError SyncDeviceMetadata;
  list_key_envelopes (workspace_id : string) : Act Service SyncError (list SyncKeyEnvelopeMetadata);
  update_device_metadata (input : UpdateDeviceMetadataInput)
    : Act Service SyncError SyncDeviceMetadata }.

(** [OsRng]: the bytes of each draw. *)
Class Rng := { rng_bytes (draw n : nat) : bytes }.
Class RngLaws `{Rng} : Prop := { rng_bytes_length draw n : String.length (rng_bytes draw n) = n }.

(** [std::env::var] *)
Class Environment := { env_var (name : string) : option string }.

(** ** State *)

Record Setup (Keychain Service : Type) := {
  se_keys : Keychain;
  se_service : Service;
  se_draws : nat }.
Arguments se_keys {_ _} _.
Arguments se_service {_ _} _.
Arguments se_draws {_ _} _.

Record PreparedAccountKey := {
  pa_account_key_id : string;
  pa_account_root_key : SymmetricKey;
  pa_recovery_phrase : option string }.

Record PreparedSyncConfig := {
  pw_account_key_id : string;
  pw_account_root_key : SymmetricKey;
  pw_recovery_phrase : option string;
  pw_workspace_id : string;
  pw_workspace_name : string;
  pw_workspace_key : SymmetricKey;
  pw_device_id : string;
  pw_device_name : string;
  pw_device_signing_key : bytes }.

Record SyncWorkspaceSummary := {
  wsu_workspace_id : string;
  wsu_name : string;
  wsu_current : bool;
  wsu_head_version : Z;
  wsu_metadata_version : Z;
  wsu_workspace_key_version : Z }.

Record SyncAccountRecoveryState := {
  rc_configured : bool;
  rc_account_key_id : option string;
  rc_recovery_phrase_configured : bool;
  rc_applied : bool;
  rc_recovery_phrase_saved : bool }.
Definition default_recovery_state : SyncAccountRecoveryState :=
  {| rc_configured := false; rc_account_key_id := None; rc_recovery_phrase_configured := false;
     rc_applied := false; rc_recovery_phrase_saved := false |}.

Record SyncRenameWorkspaceRequest := {
  rr_workspace_id : string;
  rr_name : string;
  rr_expected_metadata_version : Z;
  rr_passphrase : option string }.
Record SyncCreateWorkspaceRequest := { cr_name : option string; cr_passphrase : option string }.

(** ** Values *)

Definition required_passphrase (config : SyncVaultConfig) : SyncResult string :=
  ok_or (trimmed_optional (cf_passphrase config)) (Crypto "passphrase is required to configure sync").

Definition non_empty_trimmed (value : string) : option string :=
  let value := trim value in if str_is_empty value then None else Some value.

Definition reusable_device_id_for_workspace (workspace_id config_device_id : string)
    (local_vault : option SyncVaultRecord) : option string :=
  match local_vault with
  | Some vault =>
      if bool_decide (v_remote_workspace_id vault = workspace_id)
      then non_empty_trimmed (v_device_id vault) else None
  | None => non_empty_trimmed config_device_id
  end.

Definition normalized_workspace_id (workspace_id : string) : SyncResult string :=
  let workspace_id := trim workspace_id in
  _ ← reject_if (str_is_empty workspace_id) (InvalidArgument "workspace id is required");
  Ok workspace_id.

Definition normalized_workspace_name (name : string) : SyncResult string :=
  let name := trim name in
  _ ← reject_if (str_is_empty name) (InvalidArgument "workspace name is required");
  _ ← reject_if (120 <? char_count name) (InvalidArgument "workspace name is too long");
  Ok name.

(** [str::parse::<usize>] on a 64-bit target: an optional [+], then decimal digits *)
Definition usize_max : Z := 18446744073709551615.
Definition digit_value (a : ascii) : option Z :=
  let n := ascii_code a in
  if (48 <=? n)%N && (n <=? 57)%N then Some (Z.of_N (n - 48)) else None.
Fixpoint parse_digits (acc : Z) (s : string) : option Z :=
  match s with
  | EmptyString => Some acc
  | String a s =>
      d ← digit_value a;
      let acc := (acc * 10 + d)%Z in
      if (acc <=? usize_max)%Z then parse_digits acc s else None
  end.
Definition parse_usize (s : string) : option Z :=
  let digits := default s (strip_prefix "+" s) in
  if str_is_empty digits then None else parse_digits 0 digits.

Definition lower_hex_digit (n : N) : ascii :=
  ascii_of_N (if (n <? 10)%N then 48 + n else 87 + n)%N.
(** [write!(out, "{byte:02x}")] for each byte *)
Fixpoint lower_hex (s : bytes) : string :=
  match s with
  | EmptyString => EmptyString
  | String a s =>
      let n := N_of_ascii a in
      String (lower_hex_digit (n / 16)) (String (lower_hex_digit (n mod 16)) (lower_hex s))
  end.

Definition workspace_display_name (config : SyncVaultConfig) : string :=
  default "Workspace"
    (match trimmed_optional (cf_workspace_name config) with
     | Some name => Some name
     | None => vault_name_from_root (cf_root_path config)
     end).

Definition device_display_name `{Environment} (config : SyncVaultConfig) : string :=
  default "This device"
    (trimmed_optional
       (match trimmed_optional (cf_device_name config) with
        | Some name => Some name
        | None => match env_var "COMPUTERNAME" with Some v => Some v | None => env_var "HOSTNAME" end
        end)).

Definition config_with_workspace (request : SyncCreateWorkspaceRequest) : SyncVaultConfig :=
  {| cf_vault_id := ""; cf_root_path := ""; cf_account_key_id := None; cf_remote_workspace_id := "";
     cf_workspace_name := cr_name request; cf_device_id := ""; cf_device_name := None;
     cf_remember_workspace_key := true; cf_passphrase := cr_passphrase request |}.

Section account.
Context `{Unicode, CryptoLib, KeyLib, AccountSerde, Rng, Environment}.
Context `{!Serialize Argon2idKdfParams, !Deserialize Argon2idKdfParams,
          !Serialize WrappedAccountRootKey, !Deserialize WrappedAccountRootKey,
          !Deserialize WrappedWorkspaceKey, !Serialize KeyEnvelopeAad}.
Context {Keychain : Type} `{Keyring Keychain} {Service : Type} `{SetupApi Service}.
Context (identifier : option string).

Abbreviation SetupState := (Setup Keychain Service).
Abbreviation Setting := (Act SetupState SyncError).

Definition set_keys (k : Keychain) (w : SetupState) : SetupState :=
  {| se_keys := k; se_service := se_service w; se_draws := se_draws w |}.
Definition set_service (s : Service) (w : SetupState) : SetupState :=
  {| se_keys := se_keys w; se_service := s; se_draws := se_draws w |}.

Definition on_service {A} (m : Act Service SyncError A) : Setting A := zoom se_service set_service m.
(** A keychain operation that fails leaves the keychain. *)
Definition on_keys (f : Keychain → SyncResult Keychain) : Setting unit := λ w,
  match f (se_keys w) with
  | Ok k => (Ok tt, set_keys k w)
  | Err e => (Err e, w)
  end.
Definition ask_keys {A} (f : Keychain → SyncResult A) : Setting A := λ w, (f (se_keys w), w).
Definition fill_bytes (n : nat) : Setting bytes := λ w,
  (Ok (rng_bytes (se_draws w) n),
   {| se_keys := se_keys w; se_service := se_service w; se_draws := S (se_draws w) |}).

Definition random_workspace_key : Setting SymmetricKey := fill_bytes WORKSPACE_KEY_LEN.
Definition random_account_root_key : Setting SymmetricKey := fill_bytes KEY_LEN.
Definition random_device_signing_key : Setting bytes := fill_bytes 32.
Definition random_account_key_id : Setting string :=
  b ← fill_bytes 16; mret ("account_" +:+ lower_hex b).

(** ** The account root key *)

Definition account_recovery_envelope_from_metadata (metadata : SyncAccountKeyEnvelopeMetadata)
  : SyncResult AccountRecoveryKeyEnvelope :=
  kdf ← from_slice (am_kdf_params_json metadata);
  wrap ← from_slice (am_encrypted_envelope metadata);
  Ok {| ae_account_key_id := am_account_key_id metadata; ae_envelope_id := am_envelope_id metadata;
        ae_recipient_type := "recovery_phrase"; ae_key_version := am_key_version metadata;
        ae_kdf := kdf; ae_wrap := wrap |}.

Definition is_recovery_envelope (account_key_id : string) (envelope : SyncAccountKeyEnvelopeMetadata)
  : bool :=
  bool_decide (am_account_key_id envelope = account_key_id)
  && bool_decide (am_recipient_type envelope = AccountRecipientRecoveryPhrase).

Definition unlock_account_root_key (account_key_id recovery_phrase : string) : Setting SymmetricKey :=
  envelopes ← on_service list_account_key_envelopes;
  metadata ← lift (ok_or (List.find (is_recovery_envelope account_key_id) envelopes)
                     (Crypto "account recovery envelope is missing"));
  envelope ← lift (account_recovery_envelope_from_metadata metadata);
  lift (unwrap_account_root_key_with_recovery_phrase envelope recovery_phrase).

Definition prepare_account_key (config : SyncVaultConfig) : Setting PreparedAccountKey :=
  account_key ← on_service get_account_key_state;
  match account_key with
  | Some account_key =>
      let id := ak_account_key_id account_key in
      root ← ask_keys (read_account_root_key identifier id);
      match root with
      | Some root =>
          mret {| pa_account_key_id := id; pa_account_root_key := root; pa_recovery_phrase := None |}
      | None =>
          recovery_phrase ← lift (required_passphrase config);
          root ← unlock_account_root_key id recovery_phrase;
          mret {| pa_account_key_id := id; pa_account_root_key := root;
                  pa_recovery_phrase := Some (normalize_recovery_phrase recovery_phrase) |}
      end
  | None =>
      recovery_phrase ← lift (required_passphrase config);
      let normalized_phrase := normalize_recovery_phrase recovery_phrase in
      account_key_id ←
        (match trimmed_optional (cf_account_key_id config) with
         | Some id => mret id
         | None => random_account_key_id
         end : Setting string);
      root ← random_account_root_key;
      salt ← fill_bytes ARGON2_SALT_LEN;
      nonce ← fill_bytes XCHACHA20_NONCE_LEN;
      envelope ← lift (wrap_account_root_key_with_recovery_phrase nonce salt account_key_id
                         ACCOUNT_RECOVERY_ENVELOPE_ID ACCOUNT_KEY_VERSION root normalized_phrase);
      kdf_params_json ← lift (to_vec (ae_kdf envelope));
      encrypted_envelope ← lift (to_vec (ae_wrap envelope));
      _ ← on_service (create_account_key
            {| ci_account_key_id := account_key_id; ci_crypto_version := CRYPTO_VERSION;
               ci_envelope_id := ae_envelope_id envelope;
               ci_recipient_type := AccountRecipientRecoveryPhrase;
               ci_key_version := ae_key_version envelope; ci_kdf_params_json := kdf_params_json;
               ci_encrypted_envelope := encrypted_envelope |});
      mret {| pa_account_key_id := account_key_id; pa_account_root_key := root;
              pa_recovery_phrase := Some normalized_phrase |}
  end.

Definition unlock_existing_account_key (recovery_phrase : option string)
  : Setting (option PreparedAccountKey) :=
  account_key ← on_service get_account_key_state;
  match account_key with
  | None => mret None
  | Some account_key =>
      let id := ak_account_key_id account_key in
      root ← ask_keys (read_account_root_key identifier id);
      match root with
      | Some root =>
          mret (Some {| pa_account_key_id := id; pa_account_root_key := root;
                        pa_recovery_phrase := None |})
      | None =>
          recovery_phrase ← lift (ok_or (trimmed_optional recovery_phrase)
            (Crypto "recovery phrase is required to unlock account sync state"));
          root ← unlock_account_root_key id recovery_phrase;
          let normalized_phrase := normalize_recovery_phrase recovery_phrase in
          _ ← on_keys (λ k, remember_account_root_key identifier id k root);
          _ ← on_keys (λ k, remember_account_recovery_phrase identifier id k normalized_phrase);
          mret (Some {| pa_account_key_id := id; pa_account_root_key := root;
                        pa_recovery_phrase := Some normalized_phrase |})
      end
  end.

(** The state shown for the account; [authorization] is the header the call needs. *)
Definition get_account_recovery_state (authorization : SyncResult string)
  : Setting SyncAccountRecoveryState :=
  _ ← lift authorization;
  account_key ← on_service get_account_key_state;
  match account_key with
  | None => mret default_recovery_state
  | Some account_key =>
      let id := ak_account_key_id account_key in
      envelopes ← on_service list_account_key_envelopes;
      root ← ask_keys (read_account_root_key identifier id);
      phrase ← ask_keys (read_account_recovery_phrase identifier id);
      mret {| rc_configured := true; rc_account_key_id := Some id;
              rc_recovery_phrase_configured := existsb (is_recovery_envelope id) envelopes;
              rc_applied := bool_decide (is_Some root);
              rc_recovery_phrase_saved := bool_decide (is_Some phrase) |}
  end.

(** ** Workspaces *)

Definition workspace_key_from_account (account : PreparedAccountKey) (workspace : SyncWorkspaceMetadata)
  : SyncResult SymmetricKey :=
  _ ← reject_if (str_is_empty (sw_encrypted_workspace_key workspace)
                 || (sw_workspace_key_version workspace <=? 0)%Z)
        (Crypto "workspace account key envelope is missing");
  decrypt_workspace_key_for_account (pa_account_root_key account) (pa_account_key_id account)
    (sw_workspace_id workspace) (sw_workspace_key_version workspace)
    (sw_encrypted_workspace_key workspace).

Definition workspace_display_name_from_metadata (account : PreparedAccountKey)
    (workspace : SyncWorkspaceMetadata) : SyncResult string :=
  _ ← reject_if (str_is_empty (sw_encrypted_metadata workspace)
                 || (sw_metadata_version workspace <=? 0)%Z) (Crypto "workspace metadata is missing");
  metadata ← decrypt_workspace_metadata (pa_account_root_key account) (pa_account_key_id account)
               (sw_workspace_id workspace) (sw_metadata_version workspace)
               (sw_encrypted_metadata workspace);
  Ok (wm_name metadata).

Definition workspace_summary_from_metadata (account : PreparedAccountKey)
    (workspace : SyncWorkspaceMetadata) (current_workspace_id : option string)
  : SyncResult SyncWorkspaceSummary :=
  name ← workspace_display_name_from_metadata account workspace;
  _ ← workspace_key_from_account account workspace;
  Ok {| wsu_workspace_id := sw_workspace_id workspace; wsu_name := name;
        wsu_current := bool_decide (current_workspace_id = Some (sw_workspace_id workspace));
        wsu_head_version := sw_head_version workspace;
        wsu_metadata_version := sw_metadata_version workspace;
        wsu_workspace_key_version := sw_workspace_key_version workspace |}.

(** One turn of the loop of [next_workspace_display_name]. *)
Definition next_index_step (account : PreparedAccountKey) (next_index : Z)
    (workspace : SyncWorkspaceMetadata) : Z :=
  match workspace_display_name_from_metadata account workspace with
  | Err _ => next_index
  | Ok name =>
      match strip_prefix "Workspace " (trim name) ≫= parse_usize with
      | Some index => Z.max next_index (Z.min (index + 1) usize_max)
      | None => next_index
      end
  end.
Definition next_workspace_display_name (account : PreparedAccountKey)
    (workspaces : list SyncWorkspaceMetadata) : string :=
  "Workspace " +:+ fmt_int (foldl (next_index_step account) 1%Z workspaces).

Definition workspace_by_id (workspace_id : string) : Setting SyncWorkspaceMetadata :=
  workspaces ← on_service list_workspaces;
  lift (ok_or (List.find (λ w, bool_decide (sw_workspace_id w = workspace_id)) workspaces)
          (InvalidArgument "workspace was not found for this account")).

Definition put_account_workspace_metadata (account : PreparedAccountKey)
    (workspace_id workspace_name : string) (workspace_key : SymmetricKey) : Setting unit :=
  nonce ← fill_bytes XCHACHA20_NONCE_LEN;
  encrypted_metadata ← lift (encrypt_workspace_metadata nonce (pa_account_root_key account)
    (pa_account_key_id account) workspace_id WORKSPACE_METADATA_VERSION
    (WorkspaceDisplayMetadata_new workspace_name));
  _ ← on_service (update_workspace_metadata
        {| um_workspace_id := workspace_id; um_encrypted_metadata := encrypted_metadata;
           um_metadata_version := WORKSPACE_METADATA_VERSION; um_expected_metadata_version := 0 |});
  nonce ← fill_bytes XCHACHA20_NONCE_LEN;
  encrypted_workspace_key ← lift (encrypt_workspace_key_for_account nonce (pa_account_root_key account)
    (pa_account_key_id account) workspace_id WORKSPACE_KEY_VERSION workspace_key);
  _ ← on_service (update_workspace_key
        {| uk_workspace_id := workspace_id; uk_encrypted_workspace_key := encrypted_workspace_key;
           uk_workspace_key_version := WORKSPACE_KEY_VERSION; uk_expected_workspace_key_version := 0 |});
  mret tt.

Definition register_device_with_name (account : PreparedAccountKey) (workspace_id : string)
    (signing_key : bytes) (device_name : string) : Setting SyncDeviceMetadata :=
  device ← on_service (register_device workspace_id (ed25519_public signing_key) "" "");
  nonce ← fill_bytes XCHACHA20_NONCE_LEN;
  encrypted_device_name ← lift (encrypt_device_metadata nonce (pa_account_root_key account)
    (pa_account_key_id account) workspace_id (sd_device_id device) DEVICE_METADATA_VERSION
    (DeviceDisplayMetadata_new device_name));
  on_service (update_device_metadata
    {| dv_workspace_id := workspace_id; dv_device_id := sd_device_id device;
       dv_encrypted_device_name := encrypted_device_name;
       dv_metadata_version := DEVICE_METADATA_VERSION; dv_expected_metadata_version := 0 |}).

Definition prepare_new_workspace (config : SyncVaultConfig) : Setting PreparedSyncConfig :=
  account ← prepare_account_key config;
  let workspace_name := workspace_display_name config in
  let device_name := device_display_name config in
  workspace ← on_service (create_workspace CRYPTO_VERSION);
  workspace_key ← random_workspace_key;
  _ ← put_account_workspace_metadata account (sw_workspace_id workspace) workspace_name workspace_key;
  signing_key ← random_device_signing_key;
  device ← register_device_with_name account (sw_workspace_id workspace) signing_key device_name;
  mret {| pw_account_key_id := pa_account_key_id account;
          pw_account_root_key := pa_account_root_key account;
          pw_recovery_phrase := pa_recovery_phrase account;
          pw_workspace_id := sw_workspace_id workspace; pw_workspace_name := workspace_name;
          pw_workspace_key := workspace_key; pw_device_id := sd_device_id device;
          pw_device_name := device_name; pw_device_signing_key := signing_key |}.

Definition prepare_existing_workspace (config : SyncVaultConfig) (local_vault : option SyncVaultRecord)
  : Setting PreparedSyncConfig :=
  account ← prepare_account_key config;
  let workspace_id := trim (cf_remote_workspace_id config) in
  workspace ← workspace_by_id workspace_id;
  let workspace_name :=
    match workspace_display_name_from_metadata account workspace with
    | Ok name => name
    | Err _ => workspace_display_name config
    end in
  let device_name := device_display_name config in
  workspace_key ← lift (workspace_key_from_account account workspace);
  signing_key ← ask_keys (read_device_signing_key identifier (cf_vault_id config));
  device ←
    (match reusable_device_id_for_workspace workspace_id (cf_device_id config) local_vault, signing_key with
     | Some device_id, Some signing_key => mret (device_id, signing_key)
     | _, _ =>
         signing_key ← random_device_signing_key;
         device ← register_device_with_name account workspace_id signing_key device_name;
         mret (sd_device_id device, signing_key)
     end : Setting (string * bytes));
  mret {| pw_account_key_id := pa_account_key_id account;
          pw_account_root_key := pa_account_root_key account;
          pw_recovery_phrase := pa_recovery_phrase account; pw_workspace_id := workspace_id;
          pw_workspace_name := workspace_name; pw_workspace_key := workspace_key;
          pw_device_id := device.1; pw_device_name := device_name; pw_device_signing_key := device.2 |}.

Definition list_account_workspaces (authorization : SyncResult string)
    (current_workspace_id recovery_phrase : option string) : Setting (list SyncWorkspaceSummary) :=
  _ ← lift authorization;
  account ← unlock_existing_account_key recovery_phrase;
  match account with
  | None => mret []
  | Some account =>
      workspaces ← on_service list_workspaces;
      lift (try_map (λ w, workspace_summary_from_metadata account w current_workspace_id) workspaces)
  end.

Definition persist_prepared_account_key (account : PreparedAccountKey) : Setting unit :=
  let id := pa_account_key_id account in
  _ ← on_keys (λ k, remember_account_root_key identifier id k (pa_account_root_key account));
  match pa_recovery_phrase account with
  | Some phrase => on_keys (λ k, remember_account_recovery_phrase identifier id k phrase)
  | None => mret tt
  end.

Definition create_account_workspace (authorization : SyncResult string)
    (request : SyncCreateWorkspaceRequest) (current_workspace_id : option string)
  : Setting SyncWorkspaceSummary :=
  _ ← lift authorization;
  account ← prepare_account_key (config_with_workspace request);
  _ ← persist_prepared_account_key account;
  existing_workspaces ← on_service list_workspaces;
  workspace_name ←
    (match cr_name request with
     | Some name => lift (normalized_workspace_name name)
     | None => mret (next_workspace_display_name account existing_workspaces)
     end : Setting string);
  workspace ← on_service (create_workspace CRYPTO_VERSION);
  workspace_key ← random_workspace_key;
  _ ← put_account_workspace_metadata account (sw_workspace_id workspace) workspace_name workspace_key;
  workspace ← workspace_by_id (sw_workspace_id workspace);
  lift (workspace_summary_from_metadata account workspace current_workspace_id).

Definition rename_account_workspace (authorization : SyncResult string)
    (request : SyncRenameWorkspaceRequest) (current_workspace_id : option string)
  : Setting SyncWorkspaceSummary :=
  workspace_id ← lift (normalized_workspace_id (rr_workspace_id request));
  workspace_name ← lift (normalized_workspace_name (rr_name request));
  _ ← lift authorization;
  account ← unlock_existing_account_key (rr_passphrase request);
  account ← lift (ok_or account NotConfigured);
  let next := (rr_expected_metadata_version request + 1)%Z in
  _ ← lift (reject_if (i64_max <? next)%Z (InvalidArgument "workspace metadata version overflow"));
  nonce ← fill_bytes XCHACHA20_NONCE_LEN;
  encrypted_metadata ← lift (encrypt_workspace_metadata nonce (pa_account_root_key account)
    (pa_account_key_id account) workspace_id next (WorkspaceDisplayMetadata_new workspace_name));
  workspace ← on_service (update_workspace_metadata
    {| um_workspace_id := workspace_id; um_encrypted_metadata := encrypted_metadata;
       um_metadata_version := next;
       um_expected_metadata_version := rr_expected_metadata_version request |});
  lift (workspace_summary_from_metadata account workspace current_workspace_id).

Definition delete_account_workspace (authorization : SyncResult string) (workspace_id : string)
  : Setting unit :=
  _ ← lift authorization; on_service (delete_workspace workspace_id).

Definition current_workspace_exists_for_account (authorization : SyncResult string)
    (workspace_id : string) : Setting bool :=
  _ ← lift authorization;
  workspaces ← on_service list_workspaces;
  mret (existsb (λ w, bool_decide (sw_workspace_id w = workspace_id)) workspaces).

(** ** Local copies of the keys *)

Definition persist_local_keys (config : SyncVaultConfig) (workspace_key : SymmetricKey)
    (signing_key : bytes) (verified_passphrase : option string)
    (account_root_key : option (string * SymmetricKey)) : Setting unit :=
  let vault_id := cf_vault_id config in
  _ ← (match account_root_key with
       | Some (account_key_id, root) =>
           _ ← on_keys (λ k, remember_account_root_key identifier account_key_id k root);
           match verified_passphrase with
           | Some passphrase =>
               on_keys (λ k, remember_account_recovery_phrase identifier account_key_id k passphrase)
           | None => mret tt
           end
       | None => mret tt
       end : Setting unit);
  _ ← (if cf_remember_workspace_key config then
         _ ← on_keys (λ k, remember_workspace_key identifier vault_id k workspace_key);
         match verified_passphrase with
         | Some passphrase => on_keys (λ k, remember_passphrase identifier vault_id k passphrase)
         | None => mret tt
         end
       else
         _ ← on_keys (forget_workspace_key identifier vault_id);
         on_keys (forget_passphrase identifier vault_id) : Setting unit);
  on_keys (λ k, remember_device_signing_key identifier vault_id k signing_key).

Definition passphrase_envelope_from_metadata (metadata : SyncKeyEnvelopeMetadata)
  : SyncResult PassphraseKeyEnvelope :=
  _ ← reject_if (negb (bool_decide (km_recipient_type metadata = RecipientPassphrase)))
        (InvalidArgument "sync key envelope is not passphrase-backed");
  kdf ← from_slice (km_kdf_params_json metadata);
  wrap ← from_slice (km_encrypted_envelope metadata);
  Ok {| env_workspace_id := km_workspace_id metadata; env_envelope_id := km_envelope_id metadata;
        env_recipient_type := "passphrase"; env_key_version := km_key_version metadata;
        env_kdf := kdf; env_wrap := wrap |}.

Definition unlock_workspace_key_from_envelopes (envelopes : list SyncKeyEnvelopeMetadata)
    (passphrase : string) : SyncResult (SymmetricKey * WorkspaceKeySource) :=
  metadata ← ok_or (List.find (λ e, bool_decide (km_recipient_type e = RecipientPassphrase)) envelopes)
               (InvalidArgument "no passphrase key envelope found");
  envelope ← passphrase_envelope_from_metadata metadata;
  workspace_key ← unwrap_workspace_key_with_passphrase envelope passphrase;
  Ok (workspace_key, Passphrase).

Definition remember_run_key (remember : bool) (vault_id : string) (workspace_key : SymmetricKey)
    (passphrase : option string) : Setting unit :=
  if remember then
    _ ← on_keys (λ k, remember_workspace_key identifier vault_id k workspace_key);
    match passphrase with
    | Some passphrase => on_keys (λ k, remember_passphrase identifier vault_id k passphrase)
    | None => mret tt
    end
  else mret tt.

(** The second and third source of [workspace_key_for_run]: the account root key
    on this device, then the recovery phrase. *)
Definition workspace_key_from_passphrase (vault_id workspace_id : string) (remember : bool)
    (passphrase : option string) : Setting SymmetricKey :=
  passphrase ← lift (ok_or (trimmed_optional passphrase)
                       (Crypto "passphrase is required to unlock workspace key"));
  envelopes ← on_service (list_key_envelopes workspace_id);
  unlocked ← lift (unlock_workspace_key_from_envelopes envelopes passphrase);
  _ ← remember_run_key remember vault_id unlocked.1 (Some passphrase);
  mret unlocked.1.

Definition workspace_key_from_recovery_phrase (vault_id workspace_id account_key_id : string)
    (remember : bool) (recovery_phrase : string) : Setting SymmetricKey :=
  root ← unlock_account_root_key account_key_id recovery_phrase;
  let normalized_phrase := normalize_recovery_phrase recovery_phrase in
  _ ← on_keys (λ k, remember_account_root_key identifier account_key_id k root);
  _ ← on_keys (λ k, remember_account_recovery_phrase identifier account_key_id k normalized_phrase);
  let account := {| pa_account_key_id := account_key_id; pa_account_root_key := root;
                    pa_recovery_phrase := Some normalized_phrase |} in
  workspace ← workspace_by_id workspace_id;
  workspace_key ← lift (workspace_key_from_account account workspace);
  _ ← remember_run_key remember vault_id workspace_key (Some recovery_phrase);
  mret workspace_key.

Definition workspace_key_for_run (vault_id workspace_id : string) (account_key_id : option string)
    (remember : bool) (passphrase : option string) : Setting SymmetricKey :=
  remembered ← ask_keys (read_remembered_workspace_key identifier vault_id);
  match remembered with
  | Some key => mret key
  | None =>
      let from_phrase :=
        match account_key_id, trimmed_optional passphrase with
        | Some account_key_id, Some recovery_phrase =>
            workspace_key_from_recovery_phrase vault_id workspace_id account_key_id remember
              recovery_phrase
        | _, _ => workspace_key_from_passphrase vault_id workspace_id remember passphrase
        end in
      match account_key_id with
      | None => from_phrase
      | Some account_key_id =>
          root ← ask_keys (read_account_root_key identifier account_key_id);
          match root with
          | None => from_phrase
          | Some root =>
              found ← attempt (workspace_by_id workspace_id);
              match found with
              | Err _ => from_phrase
              | Ok workspace =>
                  let account := {| pa_account_key_id := account_key_id; pa_account_root_key := root;
                                    pa_recovery_phrase := None |} in
                  workspace_key ← lift (workspace_key_from_account account workspace);
                  _ ← remember_run_key remember vault_id workspace_key None;
                  mret workspace_key
              end
          end
      end
  end.
End account.

(** ** The service as the device relies on it *)

(** What the service holds for the account that is signed in. *)
Class ServiceView (Service : Type) := {
  svc_account : Service → option SyncAccountKeyMetadata;
  svc_envelopes : Service → list SyncAccountKeyEnvelopeMetadata;
  svc_workspaces : Service → list SyncWorkspaceMetadata }.

Definition with_metadata (input : UpdateWorkspaceMetadataInput) (w : SyncWorkspaceMetadata)
  : SyncWorkspaceMetadata :=
  if bool_decide (sw_workspace_id w = um_workspace_id input) then
    {| sw_workspace_id := sw_workspace_id w; sw_current_head_commit_id := sw_current_head_commit_id w;
       sw_head_version := sw_head_version w; sw_crypto_version := sw_crypto_version w;
       sw_encrypted_metadata := um_encrypted_metadata input;
       sw_metadata_version := um_metadata_version input;
       sw_encrypted_workspace_key := sw_encrypted_workspace_key w;
       sw_workspace_key_version := sw_workspace_key_version w |}
  else w.
Definition with_key (input : UpdateWorkspaceKeyInput) (w : SyncWorkspaceMetadata)
  : SyncWorkspaceMetadata :=
  if bool_decide (sw_workspace_id w = uk_workspace_id input) then
    {| sw_workspace_id := sw_workspace_id w; sw_current_head_commit_id := sw_current_head_commit_id w;
       sw_head_version := sw_head_version w; sw_crypto_version := sw_crypto_version w;
       sw_encrypted_metadata := sw_encrypted_metadata w;
       sw_metadata_version := sw_metadata_version w;
       sw_encrypted_workspace_key := uk_encrypted_workspace_key input;
       sw_workspace_key_version := uk_workspace_key_version input |}
  else w.

(** The contract of the service: reads answer with what it holds, an accepted write
    changes exactly its record, a new workspace has an identifier of its own. *)
Class SetupLaws (Service : Type) `{SetupApi Service, ServiceView Service} : Prop := {
  get_account_key_state_view s : get_account_key_state s = (Ok (svc_account s), s);
  list_account_key_envelopes_view s : list_account_key_envelopes s = (Ok (svc_envelopes s), s);
  list_workspaces_view s : list_workspaces s = (Ok (svc_workspaces s), s);
  envelopes_need_account s : svc_account s = None → svc_envelopes s = [];
  create_account_key_effect input s r s' : create_account_key input s = (Ok r, s') →
    svc_account s' = Some {| ak_account_key_id := ci_account_key_id input;
                             ak_crypto_version := ci_crypto_version input |} ∧
    svc_envelopes s' = svc_envelopes s ++
      [{| am_account_key_id := ci_account_key_id input; am_envelope_id := ci_envelope_id input;
          am_recipient_type := ci_recipient_type input; am_key_version := ci_key_version input;
          am_kdf_params_json := ci_kdf_params_json input;
          am_encrypted_envelope := ci_encrypted_envelope input |}] ∧
    svc_workspaces s' = svc_workspaces s;
  create_workspace_effect v s w s' : create_workspace v s = (Ok w, s') →
    (sw_workspace_id w ∉ sw_workspace_id <$> svc_workspaces s) ∧
    svc_workspaces s' = svc_workspaces s ++ [w] ∧
    svc_account s' = svc_account s ∧ svc_envelopes s' = svc_envelopes s;
  update_workspace_metadata_effect input s w s' : update_workspace_metadata input s = (Ok w, s') →
    svc_workspaces s' = with_metadata input <$> svc_workspaces s ∧
    svc_account s' = svc_account s ∧ svc_envelopes s' = svc_envelopes s;
  update_workspace_key_effect input s w s' : update_workspace_key input s = (Ok w, s') →
    svc_workspaces s' = with_key input <$> svc_workspaces s ∧
    svc_account s' = svc_account s ∧ svc_envelopes s' = svc_envelopes s;
  register_device_effect ws a b c s d s' : register_device ws a b c s = (Ok d, s') →
    svc_workspaces s' = svc_workspaces s ∧
    svc_account s' = svc_account s ∧ svc_envelopes s' = svc_envelopes s;
  update_device_metadata_effect input s d s' : update_device_metadata input s = (Ok d, s') →
    svc_workspaces s' = svc_workspaces s ∧
    svc_account s' = svc_account s ∧ svc_envelopes s' = svc_envelopes s }.

Section second_device.
Context `{Unicode, CryptoLaws, KeyLaws, AccountSerde, RngLaws, Environment}.
Context `{!SerdeLaws WorkspaceDisplayMetadata, !SerdeLaws DeviceDisplayMetadata}.
Context `{!Serialize Argon2idKdfParams, !Deserialize Argon2idKdfParams, !SerdeLaws Argon2idKdfParams,
          !Serialize WrappedAccountRootKey, !Deserialize WrappedAccountRootKey,
          !SerdeLaws WrappedAccountRootKey, !Deserialize WrappedWorkspaceKey,
          !Serialize KeyEnvelopeAad}.
Context {Keychain : Type} `{KeyringLaws Keychain} {Service : Type} `{SetupLaws Service}.
Context (identifier : option string).
Implicit Types (w : Setup Keychain Service) (s : Service).

Lemma on_service_Ok {A} (m : Act Service SyncError A) w a w' :
  on_service m w = (Ok a, w') → ∃ s', m (se_service w) = (Ok a, s') ∧ w' = set_service s' w.
Proof. unfold on_service, zoom. destruct (m (se_service w)) as [r s']. intros [= -> <-]. by exists s'. Qed.

Lemma fill_bytes_Ok n w b w' :
  fill_bytes n w = (Ok b, w') → String.length b = n ∧ se_service w' = se_service w.
Proof. intros [= <- <-]. split; [apply rng_bytes_length|done]. Qed.

Lemma get_account_key_state_on w : on_service get_account_key_state w = (Ok (svc_account (se_service w)), w).
Proof. unfold on_service, zoom. rewrite get_account_key_state_view. by destruct w. Qed.
Lemma list_account_key_envelopes_on w :
  on_service list_account_key_envelopes w = (Ok (svc_envelopes (se_service w)), w).
Proof. unfold on_service, zoom. rewrite list_account_key_envelopes_view. by destruct w. Qed.
Lemma list_workspaces_on w : on_service list_workspaces w = (Ok (svc_workspaces (se_service w)), w).
Proof. unfold on_service, zoom. rewrite list_workspaces_view. by destruct w. Qed.

(** The recovery envelope held for the account opens to [root] with [phrase]. *)
Definition recoverable (s : Service) (id phrase : string) (root : SymmetricKey) : Prop :=
  ak_account_key_id <$> svc_account s = Some id ∧
  ∃ metadata envelope, List.find (is_recovery_envelope id) (svc_envelopes s) = Some metadata ∧
    account_recovery_envelope_from_metadata metadata = Ok envelope ∧
    unwrap_account_root_key_with_recovery_phrase envelope phrase = Ok root.

Lemma unlock_recoverable w id phrase root :
  recoverable (se_service w) id phrase root → unlock_account_root_key id phrase w = (Ok root, w).
Proof.
  intros (_ & metadata & envelope & Hf & He & Hu). unfold unlock_account_root_key, mbind, act_bind.
  rewrite list_account_key_envelopes_on. unfold lift. rewrite Hf. simpl. by rewrite He, Hu.
Qed.

(** The service holds the workspace with a name and a key that open under the
    account root key. *)
Definition workspace_opens (s : Service) (id account : string) (root : SymmetricKey) (name : string)
    (key : SymmetricKey) : Prop :=
  ∃ workspace, List.find (λ x, bool_decide (sw_workspace_id x = id)) (svc_workspaces s) = Some workspace ∧
    ∀ phrase, let a := {| pa_account_key_id := account; pa_account_root_key := root;
                          pa_recovery_phrase := phrase |} in
    workspace_display_name_from_metadata a workspace = Ok name ∧
    workspace_key_from_account a workspace = Ok key.

Definition same_account (s s' : Service) : Prop :=
  svc_account s' = svc_account s ∧ svc_envelopes s' = svc_envelopes s.
Lemma recoverable_same s s' id phrase root :
  same_account s s' → recoverable s id phrase root → recoverable s' id phrase root.
Proof. intros [Ha He]. unfold recoverable. by rewrite Ha, He. Qed.
Lemma encrypted_not_empty {T} `{Serialize T} nonce key (aad : T) plaintext blob :
  encrypt_blob nonce key aad plaintext = Ok blob → str_is_empty blob = false.
Proof. intros (a & c & _ & _ & ->)%encrypt_blob_layout. reflexivity. Qed.

Lemma prepare_first_account config phrase phrase' w account w' :
  svc_account (se_service w) = None → required_passphrase config = Ok phrase →
  normalize_recovery_phrase phrase' = normalize_recovery_phrase (normalize_recovery_phrase phrase) →
  prepare_account_key identifier config w = (Ok account, w') →
  recoverable (se_service w') (pa_account_key_id account) phrase' (pa_account_root_key account) ∧
  svc_workspaces (se_service w') = svc_workspaces (se_service w).
Proof.
  intros Hnone Hphrase Hsame. unfold prepare_account_key.
  intros (a & w1 & Ha & Hm)%act_bind_Ok. rewrite get_account_key_state_on, Hnone in Ha.
  injection Ha as <- <-. apply act_lift_Ok in Hm as (p & Hp & Hm). rewrite Hphrase in Hp. injection Hp as <-.
  apply act_bind_Ok in Hm as (id & w1 & Hid & Hm).
  assert (Hs1 : se_service w1 = se_service w).
  { destruct (trimmed_optional _); [by injection Hid as _ <-|].
    apply act_bind_Ok in Hid as (b & wb & Hb & Hid). apply fill_bytes_Ok in Hb as [_ Hb].
    by injection Hid as _ <-. }
  apply act_bind_Ok in Hm as (root & w2 & Hroot & Hm). apply fill_bytes_Ok in Hroot as [Hroot Hs2].
  apply act_bind_Ok in Hm as (salt & w3 & Hsalt & Hm). apply fill_bytes_Ok in Hsalt as [Hsalt Hs3].
  apply act_bind_Ok in Hm as (nonce & w4 & Hnonce & Hm). apply fill_bytes_Ok in Hnonce as [Hnonce Hs4].
  apply act_lift_Ok in Hm as (envelope & Henv & Hm).
  apply act_lift_Ok in Hm as (kdf & Hkdf & Hm). apply act_lift_Ok in Hm as (wrap & Hwrap & Hm).
  apply act_bind_Ok in Hm as (created & w5 & Hc & Hm). injection Hm as <- <-.
  apply on_service_Ok in Hc as (s' & Hc & ->). simpl.
  apply create_account_key_effect in Hc as (Hacc & Hes & Hws). simpl in Hacc, Hes.
  rewrite Hs4, Hs3, Hs2, Hs1 in *. rewrite (envelopes_need_account _ Hnone) in Hes.
  destruct (account_envelope_opens nonce id _ _ root _ phrase' _ envelope Hnonce Hroot (eq_sym Hsame) Henv)
    as (_ & Hea & Hee & Het & Hev & Hopen).
  split; [|done]. split; [by rewrite Hacc|]. rewrite Hes. simpl. unfold is_recovery_envelope. simpl.
  rewrite !bool_decide_true by done. eexists _, envelope. split; [reflexivity|]. split; [|exact Hopen].
  unfold account_recovery_envelope_from_metadata. simpl.
  rewrite (from_slice_to_vec _ _ Hkdf). simpl. rewrite (from_slice_to_vec _ _ Hwrap). simpl.
  destruct envelope. simpl in *. by subst.
Qed.

Lemma find_snoc {A} (f : A → bool) l x : Forall (λ y, f y = false) l → f x = true → List.find f (l ++ [x]) = Some x.
Proof. induction 1 as [|y l Hy _ IH]; simpl; intros Hx; [by rewrite Hx|]. rewrite Hy. auto. Qed.

Lemma with_metadata_id input x : sw_workspace_id (with_metadata input x) = sw_workspace_id x.
Proof. unfold with_metadata. by case_bool_decide. Qed.
Lemma with_key_id input x : sw_workspace_id (with_key input x) = sw_workspace_id x.
Proof. unfold with_key. by case_bool_decide. Qed.

Lemma put_metadata_opens account name key old x w w' :
  String.length key = 32 → svc_workspaces (se_service w) = old ++ [x] →
  sw_workspace_id x ∉ sw_workspace_id <$> old →
  put_account_workspace_metadata account (sw_workspace_id x) name key w = (Ok tt, w') →
  same_account (se_service w) (se_service w') ∧
  workspace_opens (se_service w') (sw_workspace_id x) (pa_account_key_id account)
    (pa_account_root_key account) name key.
Proof.
  intros Hkey Hws Hfresh. unfold put_account_workspace_metadata.
  intros (n1 & w1 & Hn1 & Hm)%act_bind_Ok. apply fill_bytes_Ok in Hn1 as [Hn1 Hs1].
  apply act_lift_Ok in Hm as (em & Hem & Hm). apply act_bind_Ok in Hm as (u1 & w2 & Hu1 & Hm).
  apply on_service_Ok in Hu1 as (s2 & Hu1 & ->). apply update_workspace_metadata_effect in Hu1 as (Hw2 & Ha2 & He2).
  apply act_bind_Ok in Hm as (n2 & w3 & Hn2 & Hm). apply fill_bytes_Ok in Hn2 as [Hn2 Hs3]. simpl in Hs3.
  apply act_lift_Ok in Hm as (ek & Hek & Hm). apply act_bind_Ok in Hm as (u2 & w4 & Hu2 & Hm).
  apply on_service_Ok in Hu2 as (s4 & Hu2 & ->). apply update_workspace_key_effect in Hu2 as (Hw4 & Ha4 & He4).
  injection Hm as <-. simpl. rewrite Hs3 in *. rewrite Hs1 in *. split; [split; congruence|].
  rewrite Hw2, Hws in Hw4. rewrite !fmap_app in Hw4. simpl in Hw4.
  eexists. split.
  - rewrite Hw4. apply find_snoc.
    + apply Forall_forall. intros y (z & -> & (z' & -> & Hz)%list_elem_of_fmap)%list_elem_of_fmap.
      apply bool_decide_eq_false. rewrite with_key_id, with_metadata_id. intros Heq. apply Hfresh.
      rewrite <- Heq. by apply list_elem_of_fmap_2.
    + apply bool_decide_eq_true. by rewrite with_key_id, with_metadata_id.
  - intros phrase a. unfold with_key. rewrite with_metadata_id. simpl. rewrite bool_decide_true by done.
    unfold with_metadata. simpl. rewrite bool_decide_true by done. simpl.
    unfold workspace_display_name_from_metadata, workspace_key_from_account. simpl.
    rewrite (encrypted_not_empty _ _ _ _ _ Hek).
    assert (Hne : str_is_empty em = false).
    { unfold encrypt_workspace_metadata in Hem. apply bind_Ok_inv in Hem as (json & _ & Hem).
      by apply encrypted_not_empty in Hem. }
    rewrite Hne. simpl. rewrite (workspace_metadata_opens _ _ _ _ _ _ _ Hn1 Hem). simpl. split; [done|].
    by rewrite (workspace_key_opens _ _ _ _ _ _ _ Hn2 Hkey Hek).
Qed.
(** Registering a device leaves the account's keys and workspaces. *)
Lemma register_device_same account ws sk name w d w' :
  register_device_with_name account ws sk name w = (Ok d, w') →
  same_account (se_service w) (se_service w') ∧ svc_workspaces (se_service w') = svc_workspaces (se_service w).
Proof.
  intros (d1 & w1 & Hd & Hm)%act_bind_Ok. apply on_service_Ok in Hd as (s1 & Hd & ->).
  apply register_device_effect in Hd as (Hw1 & Ha1 & He1).
  apply act_bind_Ok in Hm as (n & w2 & Hn & Hm). apply fill_bytes_Ok in Hn as [_ Hs2]. simpl in Hs2.
  apply act_lift_Ok in Hm as (em & _ & Hm). apply on_service_Ok in Hm as (s3 & Hm & ->).
  apply update_device_metadata_effect in Hm as (Hw3 & Ha3 & He3). simpl. rewrite Hs2 in *.
  unfold same_account. split; [split|]; congruence.
Qed.

(** The account the first device leaves behind. *)
Lemma prepare_new_workspace_opens config phrase phrase' w p w' :
  svc_account (se_service w) = None → required_passphrase config = Ok phrase →
  normalize_recovery_phrase phrase' = normalize_recovery_phrase (normalize_recovery_phrase phrase) →
  prepare_new_workspace identifier config w = (Ok p, w') →
  recoverable (se_service w') (pw_account_key_id p) phrase' (pw_account_root_key p) ∧
  workspace_opens (se_service w') (pw_workspace_id p) (pw_account_key_id p) (pw_account_root_key p)
    (pw_workspace_name p) (pw_workspace_key p).
Proof.
  intros Hnone Hphrase Hsame (account & w1 & Ha & Hm)%act_bind_Ok.
  eapply prepare_first_account in Ha as [Hrec Hws1]; [|done..].
  apply act_bind_Ok in Hm as (x & w2 & Hx & Hm). apply on_service_Ok in Hx as (s2 & Hx & ->).
  apply create_workspace_effect in Hx as (Hfresh & Hws2 & Ha2 & He2).
  apply act_bind_Ok in Hm as (key & w3 & Hkey & Hm). apply fill_bytes_Ok in Hkey as [Hkey Hs3]. simpl in Hs3.
  apply act_bind_Ok in Hm as ([] & w4 & Hput & Hm).
  eapply put_metadata_opens in Hput as [Hsame4 Hopen]; [|done|by rewrite Hs3|done].
  apply act_bind_Ok in Hm as (sk & w5 & Hsk & Hm). apply fill_bytes_Ok in Hsk as [_ Hs5].
  apply act_bind_Ok in Hm as (d & w6 & Hd & Hm). apply register_device_same in Hd as [Hsame6 Hws6].
  injection Hm as <- <-. simpl. rewrite Hs5 in *. split.
  - eapply recoverable_same; [exact Hsame6|]. eapply recoverable_same; [exact Hsame4|]. rewrite Hs3.
    by eapply (recoverable_same (se_service w1)).
  - destruct Hopen as (ws & Hf & Hk). exists ws. by rewrite Hws6.
Qed.

(** C13: a second device joins. A first device sets up the account and a workspace
    with a recovery phrase. Any other device of the account that knows the phrase
    up to spelling, and whose keychain holds nothing of the account yet, joins that
    workspace successfully if the service registers it; it then holds the same
    account root key, the same workspace key and the workspace name the first
    device chose, and has its keychain untouched until the set-up is committed. *)
Theorem second_device_joins (config1 config2 : SyncVaultConfig) (phrase1 phrase2 : string)
    (local_vault : option SyncVaultRecord) (w1 w1' w2 : Setup Keychain Service)
    (p1 : PreparedSyncConfig) (stored : option bytes) :
  svc_account (se_service w1) = None →
  required_passphrase config1 = Ok phrase1 → required_passphrase config2 = Ok phrase2 →
  normalize_recovery_phrase phrase2 = normalize_recovery_phrase (normalize_recovery_phrase phrase1) →
  prepare_new_workspace identifier config1 w1 = (Ok p1, w1') →
  trim (cf_remote_workspace_id config2) = pw_workspace_id p1 →
  se_service w2 = se_service w1' →
  read_account_root_key identifier (pw_account_key_id p1) (se_keys w2) = Ok None →
  read_device_signing_key identifier (cf_vault_id config2) (se_keys w2) = Ok stored →
  (∀ account sk name w, se_service w = se_service w1' →
     ∃ d w', register_device_with_name account (pw_workspace_id p1) sk name w = (Ok d, w') ∧
       se_keys w' = se_keys w) →
  ∃ p2 w2', prepare_existing_workspace identifier config2 local_vault w2 = (Ok p2, w2') ∧
    pw_workspace_id p2 = pw_workspace_id p1 ∧ pw_account_key_id p2 = pw_account_key_id p1 ∧
    pw_account_root_key p2 = pw_account_root_key p1 ∧ pw_workspace_key p2 = pw_workspace_key p1 ∧
    pw_workspace_name p2 = pw_workspace_name p1 ∧ se_keys w2' = se_keys w2.
Proof.
  intros Hnone Hp1 Hp2 Hnorm Hfirst Hid Hsvc Hroot Hsk Hreg.
  destruct (prepare_new_workspace_opens config1 phrase1 phrase2 w1 p1 w1') as [Hrec (ws & Hf & Hopen)]; [done..|].
  pose proof Hrec as [Hacc _]. rewrite <- Hsvc in Hrec, Hacc.
  destruct (svc_account (se_service w2)) as [m|] eqn:Hm; [|done]. injection Hacc as Hacc.
  assert (Hprep : prepare_account_key identifier config2 w2 =
    (Ok {| pa_account_key_id := pw_account_key_id p1; pa_account_root_key := pw_account_root_key p1;
           pa_recovery_phrase := Some (normalize_recovery_phrase phrase2) |}, w2)).
  { unfold prepare_account_key, mbind, act_bind. rewrite get_account_key_state_on, Hm, Hacc.
    unfold ask_keys. rewrite Hroot, Hp2. unfold lift. by rewrite (unlock_recoverable _ _ _ _ Hrec). }
  destruct (Hopen (Some (normalize_recovery_phrase phrase2))) as [Hname Hkey].
  unfold prepare_existing_workspace, mbind, act_bind. rewrite Hprep, Hid.
  unfold workspace_by_id, mbind, act_bind. rewrite list_workspaces_on, Hsvc. unfold lift. rewrite Hf. cbn [ok_or].
  rewrite Hkey, Hname. unfold ask_keys. rewrite Hsk.
  set (reuse := reusable_device_id_for_workspace _ _ _).
  assert (Hjoin : ∀ dk : string * bytes, ∃ d w2',
    (sk ← random_device_signing_key;
     d ← register_device_with_name
           {| pa_account_key_id := pw_account_key_id p1; pa_account_root_key := pw_account_root_key p1;
              pa_recovery_phrase := Some (normalize_recovery_phrase phrase2) |}
           (pw_workspace_id p1) sk (device_display_name config2);
     mret (sd_device_id d, sk)) w2 = (Ok d, w2') ∧ se_keys w2' = se_keys w2).
  { intros _. unfold mbind, act_bind, random_device_signing_key, fill_bytes.
    match goal with |- context [register_device_with_name ?a ?i ?k ?n ?w] =>
      destruct (Hreg a k n w Hsvc) as (d & w2' & Hd & Hk) end.
    rewrite Hd. eexists _, w2'. split; [reflexivity|exact Hk]. }
  destruct reuse as [device_id|], stored as [sk|].
  1: by eexists _, _.
  all: destruct (Hjoin ("", "")) as (d & w2' & Hd & Hk); unfold mbind, act_bind in Hd; rewrite Hd;
    eexists _, _; split; [reflexivity|done].
Qed.
Lemma on_keys_Ok (f : Keychain → SyncResult Keychain) w u w' :
  on_keys f w = (Ok u, w') → f (se_keys w) = Ok (se_keys w') ∧ se_service w' = se_service w.
Proof. unfold on_keys. destruct (f (se_keys w)) as [k|e]; [|done]. by intros [= _ <-]. Qed.

Lemma remember_reads {A} slot (dec : bytes → SyncResult A) w b a u w' :
  on_keys (λ k, remember identifier (slot_account slot) k b) w = (Ok u, w') → dec b = Ok a →
  read_slot identifier (slot_account slot) dec (se_keys w') = Ok (Some a) ∧ se_service w' = se_service w.
Proof. intros [Hk Hs]%on_keys_Ok Ha. split; [|done]. erewrite read_slot_remember by done. by rewrite Ha. Qed.
Lemma remember_keeps {A} slot slot' (dec : bytes → SyncResult A) w b u w' :
  on_keys (λ k, remember identifier (slot_account slot) k b) w = (Ok u, w') → slot' ≠ slot →
  read_slot identifier (slot_account slot') dec (se_keys w') = read_slot identifier (slot_account slot') dec (se_keys w)
  ∧ se_service w' = se_service w.
Proof. intros [Hk Hs]%on_keys_Ok Hne. split; [|done]. by eapply remember_other. Qed.
Lemma forget_reads {A} slot (dec : bytes → SyncResult A) w u w' :
  on_keys (forget identifier (slot_account slot)) w = (Ok u, w') →
  read_slot identifier (slot_account slot) dec (se_keys w') = Ok None ∧ se_service w' = se_service w.
Proof. intros [Hk Hs]%on_keys_Ok. split; [|done]. by eapply forget_reads_none. Qed.
Lemma forget_keeps {A} slot slot' (dec : bytes → SyncResult A) w u w' :
  on_keys (forget identifier (slot_account slot)) w = (Ok u, w') → slot' ≠ slot →
  read_slot identifier (slot_account slot') dec (se_keys w') = read_slot identifier (slot_account slot') dec (se_keys w)
  ∧ se_service w' = se_service w.
Proof. intros [Hk Hs]%on_keys_Ok Hne. split; [|done]. by eapply forget_other. Qed.

Lemma try_into_32 e (b : bytes) : String.length b = 32 → decode_key32 e b = Ok b.
Proof. intros Hb. unfold decode_key32, try_into_fixed. by rewrite Hb. Qed.

(** What the local copies of the keys read back as: the account root key, the
    workspace key and the signing key, step by step. *)
Lemma persist_account_slots account root phrase w u w' :
  String.length root = 32 →
  (_ ← on_keys (λ k, remember_account_root_key identifier account k root);
   match phrase with
   | Some passphrase => on_keys (λ k, remember_account_recovery_phrase identifier account k passphrase)
   | None => mret tt
   end) w = (Ok u, w') →
  se_service w' = se_service w ∧ read_account_root_key identifier account (se_keys w') = Ok (Some root).
Proof.
  intros Hroot (u0 & w0 & Hm0 & Hm)%act_bind_Ok.
  eapply (remember_reads (RootKeySlot account)) in Hm0 as [Hr0 Hs0]; [|by apply try_into_32].
  destruct phrase as [phrase|]; [|by injection Hm as _ <-].
  eapply (remember_keeps (RecoveryPhraseSlot account) (RootKeySlot account)) in Hm as [Hr Hs]; [|done].
  split; [congruence|]. unfold read_account_root_key. etransitivity; [exact Hr|exact Hr0].
Qed.

Lemma persist_workspace_slots vault account (rem : bool) key phrase w u w' :
  String.length key = 32 →
  (if rem then
     _ ← on_keys (λ k, remember_workspace_key identifier vault k key);
     match phrase with
     | Some passphrase => on_keys (λ k, remember_passphrase identifier vault k passphrase)
     | None => mret tt
     end
   else
     _ ← on_keys (forget_workspace_key identifier vault);
     on_keys (forget_passphrase identifier vault)) w = (Ok u, w') →
  se_service w' = se_service w ∧
  read_account_root_key identifier account (se_keys w') = read_account_root_key identifier account (se_keys w) ∧
  read_remembered_workspace_key identifier vault (se_keys w') = Ok (if rem then Some key else None).
Proof.
  intros Hkey Hm. set (root := RootKeySlot account). set (ws := WorkspaceKeySlot vault).
  destruct rem; apply act_bind_Ok in Hm as (u0 & w0 & Hm0 & Hm).
  - pose proof (remember_keeps ws root (decode_key32 "remembered account root key has invalid length")
                  _ _ _ _ Hm0 ltac:(done)) as [Hr0 _].
    eapply (remember_reads ws) in Hm0 as [Hw0 Hs0]; [|by apply try_into_32].
    destruct phrase as [phrase|]; [|by injection Hm as _ <-].
    pose proof (remember_keeps (PassphraseSlot vault) root
      (decode_key32 "remembered account root key has invalid length") _ _ _ _ Hm ltac:(done)) as [Hr _].
    eapply (remember_keeps (PassphraseSlot vault) ws) in Hm as [Hw Hs]; [|done].
    split_and!; [congruence|etransitivity; [exact Hr|exact Hr0]|etransitivity; [exact Hw|exact Hw0]].
  - pose proof (forget_keeps ws root (decode_key32 "remembered account root key has invalid length")
                  _ _ _ Hm0 ltac:(done)) as [Hr0 _].
    eapply (forget_reads ws) in Hm0 as [Hw0 Hs0].
    pose proof (forget_keeps (PassphraseSlot vault) root
      (decode_key32 "remembered account root key has invalid length") _ _ _ Hm ltac:(done)) as [Hr _].
    eapply (forget_keeps (PassphraseSlot vault) ws) in Hm as [Hw Hs]; [|done].
    split_and!; [congruence|etransitivity; [exact Hr|exact Hr0]|etransitivity; [exact Hw|exact Hw0]].
Qed.

Lemma persist_local_keys_slots config key sk phrase account root w u w' :
  String.length key = 32 → String.length root = 32 → String.length sk = 32 →
  persist_local_keys identifier config key sk phrase (Some (account, root)) w = (Ok u, w') →
  se_service w' = se_service w ∧
  read_account_root_key identifier account (se_keys w') = Ok (Some root) ∧
  read_remembered_workspace_key identifier (cf_vault_id config) (se_keys w')
    = Ok (if cf_remember_workspace_key config then Some key else None) ∧
  read_device_signing_key identifier (cf_vault_id config) (se_keys w') = Ok (Some sk).
Proof.
  intros Hkey Hroot Hsk (u1 & w1 & Hm1 & Hm)%act_bind_Ok. set (v := cf_vault_id config) in *.
  apply act_bind_Ok in Hm as (u2 & w2 & Hm2 & Hm).
  apply persist_account_slots in Hm1 as [Hs1 Hr1]; [|done].
  apply (persist_workspace_slots _ account) in Hm2 as (Hs2 & Hr2 & Hw2); [|done].
  pose proof (remember_keeps (SigningKeySlot v) (RootKeySlot account)
    (decode_key32 "remembered account root key has invalid length") _ _ _ _ Hm ltac:(done)) as [Hr Hs].
  pose proof (remember_keeps (SigningKeySlot v) (WorkspaceKeySlot v)
    (decode_key32 "remembered workspace key has invalid length") _ _ _ _ Hm ltac:(done)) as [Hw _].
  eapply (remember_reads (SigningKeySlot v)) in Hm as [Hd _]; [|by apply try_into_32].
  split_and!; [congruence| | |exact Hd].
  - etransitivity; [exact Hr|]. etransitivity; [exact Hr2|exact Hr1].
  - etransitivity; [exact Hw|exact Hw2].
Qed.

(** A run finds the key of its workspace. Once a set-up has stored the local
    keys of a workspace whose key the service holds for the account, every later
    run gets that workspace key without a passphrase, from the keychain if the user
    lets it be remembered and from the account otherwise, and changes nothing; the
    signing key of the device is the stored one. *)
Theorem run_finds_workspace_key (config : SyncVaultConfig) (workspace_id account name : string)
    (root key : SymmetricKey) (sk : bytes) (phrase : option string) (w w' : Setup Keychain Service) :
  String.length key = 32 → String.length root = 32 → String.length sk = 32 →
  workspace_opens (se_service w) workspace_id account root name key →
  persist_local_keys identifier config key sk phrase (Some (account, root)) w = (Ok tt, w') →
  workspace_key_for_run identifier (cf_vault_id config) workspace_id (Some account)
    (cf_remember_workspace_key config) None w' = (Ok key, w') ∧
  read_device_signing_key identifier (cf_vault_id config) (se_keys w') = Ok (Some sk).
Proof.
  intros Hkey Hroot Hsk (ws & Hf & Hopen) Hp.
  destruct (persist_local_keys_slots _ _ _ _ _ _ _ _ _ Hkey Hroot Hsk Hp) as (Hs & Hr & Hw & Hd).
  split; [|done]. unfold workspace_key_for_run, mbind, act_bind, ask_keys. rewrite Hw.
  destruct (cf_remember_workspace_key config); [done|]. rewrite Hr. unfold attempt, workspace_by_id, mbind, act_bind.
  rewrite list_workspaces_on, Hs. unfold lift. rewrite Hf. cbn [ok_or].
  destruct (Hopen None) as [_ Hk]. by rewrite Hk.
Qed.
End second_device.

Module Examples.
Import Crypto.Toy.
#[local] Existing Instances Crypto.Toy.crypto Crypto.Toy.crypto_laws Keys.Toy.key_lib
  Keys.Toy.key_laws Keys.Toy.keyring Keys.Toy.keyring_laws Concrete.ascii_unicode AccountKeys.Examples.serde
  AccountKeys.Examples.workspace_meta_laws AccountKeys.Examples.device_meta_laws.
#[local] Instance no_key_envelope_aad : Serialize KeyEnvelopeAad := λ _, Ok "".

#[local] Instance kdf_json : Serialize Argon2idKdfParams := λ p,
  write_text (kdf_name p, kdf_salt p, (kdf_mem_kib p, kdf_iterations p, kdf_parallelism p)).
#[local] Instance json_kdf : Deserialize Argon2idKdfParams := λ b,
  '(n, s, (m, i, p)) ← read_text b;
  Ok {| kdf_name := n; kdf_salt := s; kdf_mem_kib := m; kdf_iterations := i; kdf_parallelism := p |}.
#[local] Instance kdf_laws : SerdeLaws Argon2idKdfParams.
Proof.
  intros [n s m i p] b Hb. unfold from_slice, json_kdf. apply read_write_text in Hb. simpl in Hb. by rewrite Hb.
Qed.
#[local] Instance wrap_json : Serialize WrappedAccountRootKey := λ a,
  write_text (aw_alg a, aw_nonce a, aw_ciphertext a).
#[local] Instance json_wrap : Deserialize WrappedAccountRootKey := λ b,
  '(a, n, c) ← read_text b; Ok {| aw_alg := a; aw_nonce := n; aw_ciphertext := c |}.
#[local] Instance wrap_laws : SerdeLaws WrappedAccountRootKey.
Proof.
  intros [a n c] b Hb. unfold from_slice, json_wrap. apply read_write_text in Hb. simpl in Hb. by rewrite Hb.
Qed.
#[local] Instance json_workspace_wrap : Deserialize WrappedWorkspaceKey := λ _, Err (Serialization "unused").

#[local] Instance rng : Rng := {| rng_bytes draw n := str_take n (fmt_int (Z.of_nat draw) +:+ zeros n) |}.
#[local] Instance rng_laws : RngLaws.
Proof.
  split. intros draw n. apply str_length_take. rewrite str_app_length, Concrete.length_zeros. lia.
Qed.
#[local] Instance no_environment : Environment := {| env_var _ := None |}.

(** A service in memory. *)
Record Store := {
  st_account : option SyncAccountKeyMetadata;
  st_envelope_list : list SyncAccountKeyEnvelopeMetadata;
  st_workspaces : list SyncWorkspaceMetadata }.
#[local] Instance store_view : ServiceView Store := {|
  svc_account := st_account;
  svc_envelopes s := match st_account s with Some _ => st_envelope_list s | None => [] end;
  svc_workspaces := st_workspaces |}.
Definition new_workspace (id crypto_version : string) : SyncWorkspaceMetadata :=
  {| sw_workspace_id := id; sw_current_head_commit_id := ""; sw_head_version := 0;
     sw_crypto_version := crypto_version; sw_encrypted_metadata := ""; sw_metadata_version := 0;
     sw_encrypted_workspace_key := ""; sw_workspace_key_version := 0 |}.
Definition with_workspaces (f : list SyncWorkspaceMetadata → list SyncWorkspaceMetadata) (s : Store) : Store :=
  {| st_account := st_account s; st_envelope_list := st_envelope_list s; st_workspaces := f (st_workspaces s) |}.
Definition device_record (id ws : string) : SyncDeviceMetadata :=
  {| sd_device_id := id; sd_workspace_id := ws; sd_signing_public_key := ""; sd_encryption_public_key := "";
     sd_encrypted_device_name := ""; sd_metadata_version := 1; sd_last_device_seq := 0 |}.
#[local] Instance store_api : SetupApi Store := {|
  get_account_key_state := gets svc_account;
  create_account_key input s :=
    let account := {| ak_account_key_id := ci_account_key_id input; ak_crypto_version := ci_crypto_version input |} in
    let envelope := {| am_account_key_id := ci_account_key_id input; am_envelope_id := ci_envelope_id input;
                       am_recipient_type := ci_recipient_type input; am_key_version := ci_key_version input;
                       am_kdf_params_json := ci_kdf_params_json input;
                       am_encrypted_envelope := ci_encrypted_envelope input |} in
    if st_account s is Some _ then (Err (Transport "account key exists"), s)
    else (Ok (account, envelope), {| st_account := Some account; st_envelope_list := [envelope];
                                     st_workspaces := st_workspaces s |});
  list_account_key_envelopes := gets svc_envelopes;
  create_workspace version s :=
    let w := new_workspace ("workspace-" +:+ fmt_int (Z.of_nat (length (st_workspaces s)))) version in
    if bool_decide (sw_workspace_id w ∈ sw_workspace_id <$> st_workspaces s)
    then (Err (Transport "identifier taken"), s)
    else (Ok w, with_workspaces (λ l, l ++ [w]) s);
  list_workspaces := gets svc_workspaces;
  delete_workspace id s := (Ok tt, with_workspaces (List.filter (λ w, negb (bool_decide (sw_workspace_id w = id)))) s);
  update_workspace_metadata input s :=
    (Ok (new_workspace (um_workspace_id input) ""), with_workspaces (fmap (with_metadata input)) s);
  update_workspace_key input s :=
    (Ok (new_workspace (uk_workspace_id input) ""), with_workspaces (fmap (with_key input)) s);
  register_device ws _ _ _ s := (Ok (device_record "device" ws), s);
  list_key_envelopes _ s := (Ok [], s);
  update_device_metadata input s := (Ok (device_record (dv_device_id input) (dv_workspace_id input)), s) |}.
#[local] Instance store_laws : SetupLaws Store.
Proof.
  split; try done.
  - intros s Hs. simpl in *. by rewrite Hs.
  - intros input s r s'. simpl. destruct (st_account s); [done|]. intros [= <- <-]. done.
  - intros v s w s'. simpl. case_bool_decide; [done|]. by intros [= <- <-].
  - by intros input s w s' [= <- <-].
  - by intros input s w s' [= <- <-].
  - by intros ws a b c s d s' [= <- <-].
  - by intros input s d s' [= <- <-].
Qed.

Abbreviation Machine := (Setup (gmap (string * string) string) Store).
Definition machine (s : Store) : Machine := {| se_keys := ∅; se_service := s; se_draws := 0 |}.
Definition first_config : SyncVaultConfig :=
  {| cf_vault_id := "vault-1"; cf_root_path := "/home/notes"; cf_account_key_id := None;
     cf_remote_workspace_id := ""; cf_workspace_name := None; cf_device_id := ""; cf_device_name := None;
     cf_remember_workspace_key := true; cf_passphrase := Some " Abandon  ability Able " |}.
Definition second_config : SyncVaultConfig :=
  {| cf_vault_id := "vault-2"; cf_root_path := "/home/copy"; cf_account_key_id := None;
     cf_remote_workspace_id := "workspace-0"; cf_workspace_name := None; cf_device_id := "";
     cf_device_name := None; cf_remember_workspace_key := false;
     cf_passphrase := Some "abandon ABILITY able" |}.
Definition first_machine : Machine :=
  machine {| st_account := None; st_envelope_list := []; st_workspaces := [] |}.
Abbreviation first_setup := (prepare_new_workspace None first_config first_machine).
Definition second_machine : Machine := machine (se_service first_setup.2).

Lemma registers (account : PreparedAccountKey) (ws sk device_name : string) (w : Machine) : ∃ d w',
  register_device_with_name account ws sk device_name w = (Ok d, w') ∧ se_keys w' = se_keys w.
Proof. eexists _, _. split; reflexivity. Qed.

Lemma first_facts :
  match first_setup.1 with
  | Ok p => pw_workspace_name p = "notes" ∧ "workspace-0" = pw_workspace_id p ∧
            read_account_root_key None (pw_account_key_id p) ∅ = Ok None ∧
            String.length (pw_workspace_key p) = 32 ∧ String.length (pw_account_root_key p) = 32
  | Err _ => False
  end.
Proof. vm_compute. split_and!; reflexivity. Qed.

Lemma same_phrase :
  normalize_recovery_phrase "abandon ABILITY able"
  = normalize_recovery_phrase (normalize_recovery_phrase "Abandon  ability Able").
Proof. vm_compute. reflexivity. Qed.

Lemma second_device_witness : ∃ p2 w2',
  prepare_existing_workspace None second_config None second_machine = (Ok p2, w2') ∧
  pw_workspace_name p2 = "notes".
Proof.
  pose proof first_facts as Hfacts. unfold second_machine.
  destruct first_setup as [[p1|e] w1'] eqn:Hfirst; [|destruct Hfacts].
  destruct Hfacts as (Hname & Hid & Hroot & _). cbn [fst snd].
  assert (Hempty : svc_account (se_service first_machine) = None) by reflexivity.
  assert (Hphrase1 : required_passphrase first_config = Ok "Abandon  ability Able") by reflexivity.
  assert (Hphrase2 : required_passphrase second_config = Ok "abandon ABILITY able") by reflexivity.
  assert (Hslot : read_device_signing_key None (cf_vault_id second_config) (se_keys (machine (se_service w1')))
                  = Ok None) by reflexivity.
  destruct (second_device_joins None first_config second_config _ _ None first_machine w1'
    (machine (se_service w1')) p1 None Hempty Hphrase1 Hphrase2 same_phrase
    Hfirst Hid eq_refl Hroot Hslot (λ account sk n w _, registers account (pw_workspace_id p1) sk n w))
    as (p2 & w2' & Hjoin & _ & _ & _ & _ & Hn & _).
  exists p2, w2'. split; [exact Hjoin|]. by rewrite Hn.
Defined.

Definition key : SymmetricKey := "abcdefghijklmnopabcdefghijklmnop".
Definition settle (p : PreparedSyncConfig) (w : Machine) : SyncResult unit * Machine :=
  persist_local_keys None second_config (pw_workspace_key p) key None
    (Some (pw_account_key_id p, pw_account_root_key p)) w.
Lemma forgets (account : string) (k : gmap (string * string) string) : ∃ k', forget None account k = Ok k'.
Proof.
  unfold forget, delete, open_entry. cbn -[lookup base.delete]. case_bool_decide; eexists; reflexivity.
Qed.
Lemma settles p w : ∃ w', settle p w = (Ok tt, w').
Proof.
  unfold settle, persist_local_keys, mbind, act_bind, on_keys, forget_workspace_key, forget_passphrase.
  cbn -[forget].
  match goal with |- context [forget None ?a ?k] => destruct (forgets a k) as [k1 Hk1] end. rewrite Hk1. cbn -[forget].
  match goal with |- context [forget None ?a ?k] => destruct (forgets a k) as [k2 Hk2] end. rewrite Hk2.
  eexists. reflexivity.
Qed.

Lemma run_finds_key_witness : ∃ p w,
  first_setup.1 = Ok p ∧
  workspace_key_for_run None "vault-2" "workspace-0" (Some (pw_account_key_id p)) false None w
  = (Ok (pw_workspace_key p), w).
Proof.
  pose proof first_facts as Hfacts.
  destruct first_setup as [[p|e] w1] eqn:Hfirst; [|destruct Hfacts].
  destruct Hfacts as (_ & Hid & _ & Hk & Hr).
  destruct (settles p w1) as [w2 Hpersist]. exists p, w2. split; [reflexivity|].
  assert (Hempty : svc_account (se_service first_machine) = None) by reflexivity.
  assert (Hphrase : required_passphrase first_config = Ok "Abandon  ability Able") by reflexivity.
  destruct (prepare_new_workspace_opens None first_config _ _ first_machine p w1 Hempty Hphrase same_phrase
              Hfirst) as [_ Hopen].
  unfold settle in Hpersist. rewrite Hid.
  exact (proj1 (run_finds_workspace_key None second_config (pw_workspace_id p) (pw_account_key_id p)
    (pw_workspace_name p) (pw_account_root_key p) (pw_workspace_key p) key None w1 w2 Hk Hr eq_refl Hopen Hpersist)).
Defined.
End Examples.
