(* ===== verification/Commands.v ===== *)
(** * Running sync on a device (sync/commands.rs)

    The commands that drive the engine: one sync run with its retry on a moved
    head, the persistence of the status, the removal of a binding, the conflict
    list and the pending counts. The state is all a command touches: the status
    machine, keychain and service, the files, the sync databases, the watcher's
    ledger, the search notices and the statuses emitted to the user interface. *)
From Stdlib Require Import Ascii String.
#[local] Set Warnings "-clear-no-such-hyp".
From S2P Require Import Prelude Text SyncErrors Paths SyncDb Scanner Planner Crypto Keys AccountKeys.
From S2P Require Import Packer Watcher Commit Transfer SyncState VaultConfig Pull Push Account.

(** ** What the machine provides *)

(** [dirs::home_dir], whether SQLite opens a file, [Path::canonicalize]. *)
Class Host := {
  home_dir : option AbsPath;
  open_connection (path : AbsPath) : SyncResult unit;
  canonicalize (path : AbsPath) : option AbsPath }.

(** auth.rs: the permission of the sync plugin and its header. *)
Class Auth := {
  is_plugin_authorized : Result string bool;
  authorization_header_for_plugin : Result string (option string) }.

(** The service and the transfer queue during each pull or push of a run, counted
    from zero: their answers, the progress events with their times, and the nonces
    the push draws. *)
Class Server := {
  remote_at : nat → Remote;
  publisher_at : nat → Publisher;
  progress_at : nat → list (Z * TransferProgressEvent);
  nonces_at : nat → nat → bytes }.

Record Device (Keychain Service : Type) := {
  de_state : SyncInner;
  de_setup : Setup Keychain Service;
  de_fs : Fs;
  de_dbs : gmap AbsPath Db;
  de_ledger : ExpectedMutationLedger;
  de_notices : list SearchNotice;
  de_emitted : list SyncRuntimeStatus }.
Arguments de_state {_ _} _.
Arguments de_setup {_ _} _.
Arguments de_fs {_ _} _.
Arguments de_dbs {_ _} _.
Arguments de_ledger {_ _} _.
Arguments de_notices {_ _} _.
Arguments de_emitted {_ _} _.

(** [PathBuf::from] on an absolute path text *)
Definition path_from (s : string) : AbsPath :=
  List.filter (λ c, negb (str_is_empty c || bool_decide (c = "."))) (split_on "/" s).

(** ** Values *)

Definition validate_enabled_status (status : SyncRuntimeStatus) : SyncResult unit :=
  _ ← reject_if (negb (rt_configured status)) NotConfigured;
  reject_if (negb (rt_enabled status)) (InvalidArgument "sync must be enabled before running sync now").

Definition required_status_value (value : option string) (field : string) : SyncResult string :=
  ok_or (trimmed_optional value) (InvalidArgument (field +:+ " is required before running sync")).

Definition config_from_status (status : SyncRuntimeStatus) : SyncResult SyncVaultConfig :=
  vault_id ← required_status_value (rt_vault_id status) "vault_id";
  root_path ← required_status_value (rt_root_path status) "root_path";
  remote_workspace_id ← required_status_value (rt_remote_workspace_id status) "remote_workspace_id";
  device_id ← required_status_value (rt_device_id status) "device_id";
  Ok {| cf_vault_id := vault_id; cf_root_path := root_path;
        cf_account_key_id := rt_account_key_id status; cf_remote_workspace_id := remote_workspace_id;
        cf_workspace_name := rt_workspace_name status; cf_device_id := device_id;
        cf_device_name := rt_device_name status;
        cf_remember_workspace_key := rt_remember_workspace_key status; cf_passphrase := None |}.

(** [contains] of a message in lower case *)
Definition is_head_conflict `{Unicode} (error : SyncError) : bool :=
  match error with
  | Transport message => str_contains "head conflict" (to_lowercase message)
  | _ => false
  end.

Definition error_may_indicate_missing_current_workspace (error : SyncError) : bool :=
  match error with
  | PermissionRequired => true
  | InvalidArgument message => str_contains "workspace was not found" message
  | _ => false
  end.

Definition remote_status_from_head (workspace_id : string) (local_vault : option SyncVaultRecord)
    (head : SyncHead) (checked_at_ms : Z) : SyncRemoteStatus :=
  let local_remote_head := local_vault ≫= v_remote_head_commit_id in
  {| rs_workspace_id := workspace_id; rs_remote_head_commit_id := current_head_commit_id head;
     rs_remote_head_version := head_version head;
     rs_latest_checkpoint_commit_id := latest_checkpoint_commit_id head;
     rs_local_remote_head_commit_id := local_remote_head;
     rs_local_head_commit_id := local_vault ≫= v_local_head_commit_id;
     rs_has_remote_changes := negb (str_is_empty (current_head_commit_id head))
       && negb (bool_decide (local_remote_head = Some (current_head_commit_id head)));
     rs_checked_at_ms := checked_at_ms |}.

Record SyncConflictSummary := {
  cs_conflict_id : string;
  cs_path : string;
  cs_conflict_path : string;
  cs_base_commit_id : option string;
  cs_remote_commit_id : option string;
  cs_status : string;
  cs_created_at_ms : Z }.
Definition conflict_summary (conflict : SyncConflictRecord) : SyncConflictSummary :=
  {| cs_conflict_id := k_conflict_id conflict; cs_path := k_path conflict;
     cs_conflict_path := k_conflict_path conflict; cs_base_commit_id := k_base_commit_id conflict;
     cs_remote_commit_id := k_remote_commit_id conflict; cs_status := k_status conflict;
     cs_created_at_ms := k_created_at_ms conflict |}.

(** [fs::metadata(path).is_file()]; a link counts as the file it points to. *)
Definition metadata_is_file (fs : Fs) (p : AbsPath) : Result IoError bool :=
  match fs !! p with
  | Some (File _ _) => Ok true
  | Some Dir => Ok false
  | Some (Symlink b) => if b then Ok true else Err Scanner.NotFound
  | None =>
      if existsb (λ q, match fs !! q with Some (File _ _) => true | _ => false end) (prefixes p)
      then Err NotADirectory else Err Scanner.NotFound
  end.

Definition vault_relative_file_exists `{Os} (fs : Fs) (vault_root : AbsPath) (relative_path : string)
  : SyncResult bool :=
  match resolve_vault_path vault_root relative_path with
  | Err _ => Ok false
  | Ok path =>
      match metadata_is_file fs path with
      | Ok b => Ok b
      | Err Scanner.NotFound => Ok false
      | Err e => Err (Storage ("failed to inspect conflict copy " +:+ path_text path +:+ ": " +:+ io_text e))
      end
  end.

(** [len().try_into().unwrap_or(i64::MAX)] *)
Definition count_i64 {A} (l : list A) : Z := Z.min (Z.of_nat (length l)) i64_max.

(** [persist_configured_vault] *)
Definition configured_vault_record (now : Z) (config : SyncVaultConfig) (enabled : bool)
    (existing : option SyncVaultRecord) : SyncVaultRecord :=
  match existing with
  | Some vault =>
      {| v_vault_id := v_vault_id vault; v_root_path := cf_root_path config;
         v_remote_workspace_id := cf_remote_workspace_id config;
         v_remote_head_commit_id := v_remote_head_commit_id vault;
         v_local_head_commit_id := v_local_head_commit_id vault; v_device_id := cf_device_id config;
         v_next_device_seq := v_next_device_seq vault; v_enabled := enabled;
         v_created_at_ms := v_created_at_ms vault; v_updated_at_ms := now |}
  | None =>
      {| v_vault_id := cf_vault_id config; v_root_path := cf_root_path config;
         v_remote_workspace_id := cf_remote_workspace_id config; v_remote_head_commit_id := None;
         v_local_head_commit_id := None; v_device_id := cf_device_id config; v_next_device_seq := 1;
         v_enabled := enabled; v_created_at_ms := now; v_updated_at_ms := now |}
  end.
Definition persist_configured_vault (now : Z) (config : SyncVaultConfig) (enabled : bool) (db : Db) : Db :=
  upsert_vault db (configured_vault_record now config enabled (get_vault db (cf_vault_id config))).

(** ** Steps on the device *)

(** A step that may need more pages of history than its bound allows. *)
Definition Run (W E A : Type) : Type := W → option (Result E A * W).
#[export] Instance run_ret {W E} : MRet (Run W E) := λ A a w, Some (Ok a, w).
#[export] Instance run_bind {W E} : MBind (Run W E) := λ A B f m w,
  match m w with
  | None => None
  | Some (Err e, w) => Some (Err e, w)
  | Some (Ok a, w) => f a w
  end.
Definition run {W E A} (m : Act W E A) : Run W E A := λ w, Some (m w).
Definition run_attempt {W E A} (m : Run W E A) : Run W E (Result E A) := λ w,
  match m w with None => None | Some (r, w) => Some (Ok r, w) end.

Section commands.
Context `{Unicode, Blake3, Os, Sqlite, CryptoLib, KeyLib, PackLib, PlannerText, AccountSerde, Rng,
          Environment, Host, Auth, Server}.
Context `{!Serialize PackIndex, !Deserialize PackIndex, !Serialize PackAad,
          !Serialize CommitBodyAad, !Serialize CommitBody, !Deserialize CommitBody,
          !Serialize (list string), !Serialize (list TreeCacheEntryBody),
          !Serialize CommitIdentity, !Serialize CommitSignaturePayload}.
Context `{!Serialize Argon2idKdfParams, !Deserialize Argon2idKdfParams,
          !Serialize WrappedAccountRootKey, !Deserialize WrappedAccountRootKey,
          !Deserialize WrappedWorkspaceKey, !Serialize KeyEnvelopeAad,
          !Serialize SyncVaultConfigFile, !Deserialize SyncVaultConfigFile,
          !Deserialize SyncVaultConfigVersion}.
Context {Keychain : Type} `{Keyring Keychain} {Service : Type} `{SetupApi Service}.
(** The bundle identifier, the instant of the command, the instants of the writes,
    and the search hook. *)
Context (identifier : option string) (now clock : Z) (search : SearchNotice → Result string unit).

Abbreviation Machine := (Device Keychain Service).
Abbreviation Command := (Act Machine SyncError).

Definition set_state (st : SyncInner) (d : Machine) : Machine :=
  {| de_state := st; de_setup := de_setup d; de_fs := de_fs d; de_dbs := de_dbs d;
     de_ledger := de_ledger d; de_notices := de_notices d; de_emitted := de_emitted d |}.
Definition set_setup (s : Setup Keychain Service) (d : Machine) : Machine :=
  {| de_state := de_state d; de_setup := s; de_fs := de_fs d; de_dbs := de_dbs d;
     de_ledger := de_ledger d; de_notices := de_notices d; de_emitted := de_emitted d |}.
Definition set_files (fs : Fs) (d : Machine) : Machine :=
  {| de_state := de_state d; de_setup := de_setup d; de_fs := fs; de_dbs := de_dbs d;
     de_ledger := de_ledger d; de_notices := de_notices d; de_emitted := de_emitted d |}.
Definition set_database (path : AbsPath) (db : Db) (d : Machine) : Machine :=
  {| de_state := de_state d; de_setup := de_setup d; de_fs := de_fs d;
     de_dbs := <[path := db]> (de_dbs d); de_ledger := de_ledger d; de_notices := de_notices d;
     de_emitted := de_emitted d |}.

Definition on_state {A} (m : StateAction A) : Command A := zoom de_state set_state m.
Definition on_setup {A} (m : Act (Setup Keychain Service) SyncError A) : Command A :=
  zoom de_setup set_setup m.
Definition emit_status (status : SyncRuntimeStatus) : Command unit := modify (λ d,
  {| de_state := de_state d; de_setup := de_setup d; de_fs := de_fs d; de_dbs := de_dbs d;
     de_ledger := de_ledger d; de_notices := de_notices d; de_emitted := de_emitted d ++ [status] |}).

(** ** Databases *)

Definition database (path : AbsPath) (d : Machine) : Db := default empty_db (de_dbs d !! path).
Definition on_database {A} (path : AbsPath) (m : Act Db SyncError A) : Command A :=
  zoom (database path) (set_database path) m.

(** [db::open_sync_db]: the connection is the path of its file *)
Definition open_sync_db (path : AbsPath) : Command AbsPath :=
  _ ← lift (open_connection path);
  _ ← on_database path (modify init_schema);
  mret path.

Definition open_sync_db_for_vault (vault_id : string) : Command AbsPath :=
  home ← lift (ok_or home_dir (Storage "home directory is unavailable"));
  path ← lift (sync_db_path (data_root identifier home) vault_id);
  open_sync_db path.

(** The part of the device a pull or a push works on. *)
Definition world (path : AbsPath) (d : Machine) : World :=
  {| w_fs := de_fs d; w_db := database path d; w_ledger := Some (de_ledger d); w_notices := de_notices d |}.
Definition set_world (path : AbsPath) (w : World) (d : Machine) : Machine :=
  {| de_state := de_state d; de_setup := de_setup d; de_fs := w_fs w;
     de_dbs := <[path := w_db w]> (de_dbs d); de_ledger := default (de_ledger d) (w_ledger w);
     de_notices := w_notices w; de_emitted := de_emitted d |}.

(** ** Authorization *)

Definition map_auth_header_error (error : string) : SyncError :=
  if bool_decide (category (Transport error) = CatLoginRequired) then LoginRequired else Transport error.

Definition authorization_header : SyncResult string :=
  authorized ← map_err Transport is_plugin_authorized;
  _ ← reject_if (negb authorized) PermissionRequired;
  header ← map_err map_auth_header_error authorization_header_for_plugin;
  ok_or header LoginRequired.

(** ** The configuration file and the binding *)

Definition read_config_file (root : AbsPath) : Command (option SyncVaultConfigFile) :=
  fs ← gets de_fs; lift (read_sync_config fs root).

Definition cached_remote_status_for_config (root : AbsPath) (workspace_id : string)
  : Command (option SyncRemoteStatus) :=
  file ← read_config_file root;
  mret (file ← file;
        if bool_decide (vc_remote_workspace_id file = workspace_id) then sf_remote (vc_status file) else None).

Definition cached_remote_status_for_state (status : SyncRuntimeStatus)
  : Command (option SyncRemoteStatus) :=
  if negb (rt_configured status) then mret None else
  root_path ← lift (required_status_value (rt_root_path status) "root_path");
  workspace_id ← lift (required_status_value (rt_remote_workspace_id status) "remote_workspace_id");
  cached_remote_status_for_config (path_from root_path) workspace_id.

Definition write_config_file (root : AbsPath) (config : SyncVaultConfig) (enabled : bool)
    (updated_at_ms : Z) (status : SyncVaultStatusFile) : Command unit := λ d,
  let '(r, fs) := write_sync_config_with_status clock (de_fs d) root config enabled updated_at_ms status in
  (_ ← r; Ok tt, set_files fs d).

Definition persist_runtime_status (status : SyncRuntimeStatus) : Command unit :=
  if negb (rt_configured status) then mret tt else
  config ← lift (config_from_status status);
  let root := path_from (cf_root_path config) in
  conn ← open_sync_db_for_vault (cf_vault_id config);
  _ ← on_database conn (modify (persist_configured_vault now config (rt_enabled status)));
  remote ← cached_remote_status_for_config root (cf_remote_workspace_id config);
  write_config_file root config (rt_enabled status) (rt_updated_at_ms status)
    {| sf_last_synced_at_ms := rt_last_synced_at_ms status; sf_remote := remote |}.

Definition persist_remote_status_snapshot (status : SyncRuntimeStatus) (remote_status : SyncRemoteStatus)
  : Command unit :=
  if negb (rt_configured status) then mret tt else
  config ← lift (config_from_status status);
  write_config_file (path_from (cf_root_path config)) config (rt_enabled status)
    (rs_checked_at_ms remote_status)
    {| sf_last_synced_at_ms := rt_last_synced_at_ms status; sf_remote := Some remote_status |}.

Definition clear_current_workspace_binding (status : SyncRuntimeStatus) : Command SyncRuntimeStatus :=
  vault_id ← lift (ok_or (trimmed_optional (rt_vault_id status)) NotConfigured);
  _ ← on_setup (on_keys (forget_workspace_key identifier vault_id));
  _ ← on_setup (on_keys (forget_passphrase identifier vault_id));
  _ ← on_setup (on_keys (forget_device_signing_key identifier vault_id));
  _ ← (match trimmed_optional (rt_root_path status) with
       | Some root_path =>
           fs ← gets de_fs;
           fs ← lift (delete_sync_config fs (path_from root_path));
           modify (set_files fs)
       | None => mret tt
       end : Command unit);
  conn ← open_sync_db_for_vault vault_id;
  _ ← on_database conn (modify (λ db, delete_vault db vault_id));
  status ← on_state (reset now);
  _ ← emit_status status;
  mret status.

Definition clear_binding_if_current_workspace_missing (status : SyncRuntimeStatus) (error : SyncError)
  : Command (option SyncRuntimeStatus) :=
  if negb (error_may_indicate_missing_current_workspace error) then mret None else
  match trimmed_optional (rt_remote_workspace_id status) with
  | None => mret None
  | Some workspace_id =>
      found ← on_setup (current_workspace_exists_for_account authorization_header workspace_id);
      if found : bool then mret None
      else status ← clear_current_workspace_binding status; mret (Some status)
  end.

Definition restore_vault_config_for_root (vault_root : AbsPath) : Command SyncRuntimeStatus :=
  found ← attempt (read_config_file vault_root);
  match found with
  | Ok (Some file) =>
      let config := runtime_config_from_file vault_root file in
      conn ← open_sync_db_for_vault (cf_vault_id config);
      _ ← on_database conn (modify (persist_configured_vault now config (vc_enabled file)));
      status ← on_state (restore_vault_with_status now config (vc_enabled file)
                           (sf_last_synced_at_ms (vc_status file)));
      _ ← emit_status status;
      mret status
  | Ok None =>
      status ← on_state (reset now); _ ← emit_status status; mret status
  | Err (UnsupportedVersion v) =>
      _ ← (λ d, match reset_sync_config identifier (se_keys (de_setup d)) (de_fs d) vault_root with
                | (Ok fs, k) => (Ok tt, set_files fs (set_setup (set_keys k (de_setup d)) d))
                | (Err e, k) => (Err e, set_setup (set_keys k (de_setup d)) d)
                end : Result SyncError unit * Machine);
      status ← on_state (reset now);
      _ ← emit_status status;
      lift (Err (UnsupportedVersion v))
  | Err e => lift (Err e)
  end.

(** ** Conflicts and pending counts *)

(** One conflict of the loop: it is resolved when its copy is gone. *)
Definition list_conflict (conn : AbsPath) (vault_root : option AbsPath)
    (summaries : list SyncConflictSummary) (conflict : SyncConflictRecord)
  : Command (list SyncConflictSummary) :=
  fs ← gets de_fs;
  present ← lift (match vault_root with
                  | Some root => vault_relative_file_exists fs root (k_conflict_path conflict)
                  | None => Ok true
                  end);
  if present : bool then mret (summaries ++ [conflict_summary conflict])
  else
    _ ← on_database conn (modify (λ db, mark_conflict_resolved db (k_conflict_id conflict)));
    _ ← (match normalize_vault_relative_path (k_conflict_path conflict) with
         | Ok normalized_path =>
             on_database conn (modify (λ db, mark_unsynced_file_deleted_clean db normalized_path now))
         | Err _ => mret tt
         end : Command unit);
    mret summaries.

Definition list_open_conflicts (status : SyncRuntimeStatus) : Command (list SyncConflictSummary) :=
  match rt_vault_id status, home_dir with
  | Some vault_id, Some home =>
      path ← lift (sync_db_path (data_root identifier home) vault_id);
      exists_ ← gets (λ d, bool_decide (is_Some (de_dbs d !! path)));
      if negb exists_ then mret [] else
      conn ← open_sync_db path;
      conflicts ← gets (λ d, SyncDb.list_open_conflicts (database conn d));
      fs ← gets de_fs;
      let vault_root :=
        root_path ← rt_root_path status;
        if is_dir fs (path_from root_path) then Some (path_from root_path) else None in
      act_fold (list_conflict conn vault_root) [] conflicts
  | _, _ => mret []
  end.

Definition list_open_conflicts_for_status : Command (list SyncConflictSummary) :=
  status ← gets (λ d, st_status (de_state d)); list_open_conflicts status.

Definition finish_sync_run_status : Command SyncRuntimeStatus :=
  conflicts ← list_open_conflicts_for_status;
  on_state (complete_manual_sync now (count_i64 conflicts)).

Definition pending_upload_count (conn vault_root : AbsPath) (vault_id : string) : Command Z :=
  fs ← gets de_fs;
  scanned_files ← lift (scan_vault fs vault_root);
  db ← gets (database conn);
  res ← lift (apply_scan db (file_input <$> scanned_files) now);
  _ ← modify (set_database conn res.2);
  _ ← (match get_vault res.2 vault_id ≫= v_local_head_commit_id with
       | Some local_head => on_database conn (modify (λ db, (clear_dirty_files_matching_head db local_head).2))
       | None => mret tt
       end : Command unit);
  db ← gets (database conn);
  mret (count_i64 (list_dirty_files db)).

Definition pending_download_count (status : SyncRuntimeStatus) : Command Z :=
  match rt_root_path status, rt_remote_workspace_id status with
  | Some root_path, Some workspace_id =>
      remote ← cached_remote_status_for_config (path_from root_path) workspace_id;
      mret (match remote with
            | Some remote => if rs_has_remote_changes remote then 1 else 0
            | None => 0
            end)%Z
  | _, _ => mret 0%Z
  end.

Definition pending_counts_for_status (status : SyncRuntimeStatus) (sync_running : bool)
  : Command (option (Z * Z)) :=
  if sync_running || negb (rt_configured status) || negb (rt_enabled status)
     || negb (bool_decide (rt_phase status = PhaseIdle)) then mret None else
  match rt_vault_id status, rt_root_path status, home_dir with
  | Some vault_id, Some root_path, home =>
      let vault_root := path_from root_path in
      fs ← gets de_fs;
      if negb (is_dir fs vault_root) then mret None else
      match home with
      | None => mret None
      | Some home =>
          db_path ← lift (sync_db_path (data_root identifier home) vault_id);
          exists_ ← gets (λ d, bool_decide (is_Some (de_dbs d !! db_path)));
          if negb exists_ then mret None else
          conn ← open_sync_db db_path;
          uploads ← pending_upload_count conn vault_root vault_id;
          downloads ← pending_download_count status;
          mret (Some (uploads, downloads))
      end
  | _, _, _ => mret None
  end.

Definition is_sync_running (st : SyncInner) : bool := bool_decide (is_Some (st_active_run_id st)).

(** The status with the conflict count in its copy only. *)
Definition with_conflict_count (s : SyncRuntimeStatus) (n : Z) : SyncRuntimeStatus :=
  {| rt_configured := rt_configured s; rt_enabled := rt_enabled s; rt_phase := rt_phase s;
     rt_vault_id := rt_vault_id s; rt_root_path := rt_root_path s; rt_vault_name := rt_vault_name s;
     rt_account_key_id := rt_account_key_id s; rt_remote_workspace_id := rt_remote_workspace_id s;
     rt_workspace_name := rt_workspace_name s; rt_device_id := rt_device_id s;
     rt_device_name := rt_device_name s; rt_remember_workspace_key := rt_remember_workspace_key s;
     rt_last_error := rt_last_error s; rt_last_error_category := rt_last_error_category s;
     rt_last_synced_at_ms := rt_last_synced_at_ms s; rt_pending_uploads := rt_pending_uploads s;
     rt_pending_downloads := rt_pending_downloads s; rt_transfer := rt_transfer s;
     rt_conflict_count := n; rt_updated_at_ms := rt_updated_at_ms s |}.

Definition status_with_conflicts (scan_local : bool) : Command SyncRuntimeStatus :=
  st ← gets de_state;
  let status := st_status st in
  status ←
    (if scan_local then
       counts ← pending_counts_for_status status (is_sync_running st);
       match counts with
       | Some (uploads, downloads) => on_state (set_pending_counts now uploads downloads)
       | None => mret status
       end
     else mret status : Command SyncRuntimeStatus);
  conflicts ← list_open_conflicts status;
  mret (with_conflict_count status (count_i64 conflicts)).

(** ** One run *)

Definition same_path (a b : AbsPath) : bool :=
  match canonicalize a, canonicalize b with
  | Some a, Some b => bool_decide (a = b)
  | _, _ => bool_decide (a = b)
  end.

(** [open_root]: the vault that is open in the window, if any. *)
Definition status_vault_root (status : SyncRuntimeStatus) (open_root : option AbsPath)
  : SyncResult AbsPath :=
  configured ← required_status_value (rt_root_path status) "root_path";
  let configured_path := path_from configured in
  match open_root with
  | Some root =>
      if same_path root configured_path then Ok root
      else Err (InvalidArgument "configured sync vault is not the currently open vault")
  | None => Ok configured_path
  end.

(** What a run works with. *)
Record RunContext := {
  rx_vault_id : string;
  rx_workspace_id : string;
  rx_device_id : string;
  rx_vault_root : AbsPath;
  rx_conn : AbsPath;
  rx_workspace_key : SymmetricKey;
  rx_signing_key : bytes }.

Definition run_context (open_root : option AbsPath) (passphrase : option string) : Command RunContext :=
  status ← gets (λ d, st_status (de_state d));
  _ ← lift (validate_enabled_status status);
  vault_id ← lift (required_status_value (rt_vault_id status) "vault_id");
  workspace_id ← lift (required_status_value (rt_remote_workspace_id status) "remote_workspace_id");
  device_id ← lift (required_status_value (rt_device_id status) "device_id");
  vault_root ← lift (status_vault_root status open_root);
  _ ← lift authorization_header;
  conn ← open_sync_db_for_vault vault_id;
  workspace_key ← on_setup (workspace_key_for_run identifier vault_id workspace_id
    (rt_account_key_id status) (rt_remember_workspace_key status) passphrase);
  signing_key ← on_setup (ask_keys (read_device_signing_key identifier vault_id));
  signing_key ← lift (ok_or signing_key
    (Crypto "device signing key is missing; configure sync again"));
  mret {| rx_vault_id := vault_id; rx_workspace_id := workspace_id; rx_device_id := device_id;
          rx_vault_root := vault_root; rx_conn := conn; rx_workspace_key := workspace_key;
          rx_signing_key := signing_key |}.

Definition pull_input (cx : RunContext) : PullInput :=
  {| in_vault_id := rx_vault_id cx; in_vault_root := rx_vault_root cx;
     in_workspace_id := rx_workspace_id cx; in_device_id := rx_device_id cx;
     in_workspace_key := rx_workspace_key cx; in_search := Some search; in_now_ms := now;
     in_clock := clock |}.
Definition push_input (cx : RunContext) (step : nat) : PushInput :=
  {| ps_vault_id := rx_vault_id cx; ps_vault_root := rx_vault_root cx;
     ps_workspace_id := rx_workspace_id cx; ps_device_id := rx_device_id cx;
     ps_workspace_key := rx_workspace_key cx; ps_signing_key := rx_signing_key cx; ps_now_ms := now;
     ps_planner_config := default_config; ps_nonces := nonces_at step |}.

(** The progress of a transfer reaches the status while the step runs. *)
Definition progressed (run_id : Z) (step : nat) (d : Machine) : Machine :=
  set_state (feed run_id (progress_at step) (de_state d)) d.

Definition pull_step (fuel : nat) (cx : RunContext) (run_id : Z) (step : nat)
  : Run Machine SyncError PullRemoteChangesResult := λ d,
  let remote : Remote := remote_at step in
  '(r, w) ← pull_remote_changes fuel (pull_input cx) (world (rx_conn cx) d);
  Some (r, progressed run_id step (set_world (rx_conn cx) w d)).

Definition push_step (cx : RunContext) (run_id : Z) (step : nat)
    (push : Act World SyncError PushLocalChangesResult) : Command PushLocalChangesResult := λ d,
  let '(r, w) := push (world (rx_conn cx) d) in
  (r, progressed run_id step (set_world (rx_conn cx) w d)).
Definition push_local (cx : RunContext) (run_id : Z) (step : nat) : Command PushLocalChangesResult :=
  let remote : Remote := remote_at step in
  let publisher : Publisher := publisher_at step in
  push_step cx run_id step (push_local_changes (push_input cx step)).
Definition push_merge (cx : RunContext) (run_id : Z) (step : nat) (local_parent : string)
  : Command PushLocalChangesResult :=
  let remote : Remote := remote_at step in
  let publisher : Publisher := publisher_at step in
  push_step cx run_id step (push_merge_commit (push_input cx step) local_parent).

Definition enter_phase (phase : SyncPhase) : Command unit :=
  status ← on_state (set_phase now phase); emit_status status.

(** The retry after the head moved during the run. *)
Definition recover_head (fuel : nat) (cx : RunContext) (run_id : Z) (local_parent : string)
  : Run Machine SyncError SyncRuntimeStatus :=
  _ ← run (enter_phase PhaseApplying);
  _ ← pull_step fuel cx run_id 2;
  _ ← run (enter_phase PhasePublishing);
  _ ← run (if str_is_empty local_parent then push_local cx run_id 3
           else push_merge cx run_id 3 local_parent);
  run finish_sync_run_status.

Definition run_sync_once (fuel : nat) (open_root : option AbsPath) (passphrase : option string)
    (run_id : Z) : Run Machine SyncError SyncRuntimeStatus :=
  cx ← run (run_context open_root passphrase);
  _ ← run (enter_phase PhaseApplying);
  _ ← pull_step fuel cx run_id 0;
  _ ← run (enter_phase PhasePlanning);
  vault ← run (gets (λ d, get_vault (database (rx_conn cx) d) (rx_vault_id cx)));
  let local_parent := default "" (vault ≫= v_local_head_commit_id) in
  pushed ← run_attempt (run (push_local cx run_id 1));
  match pushed with
  | Ok _ => run finish_sync_run_status
  | Err e => if is_head_conflict e then recover_head fuel cx run_id local_parent else run (lift (Err e))
  end.

(** ** Commands of the user interface *)

Definition sync_run_once (fuel : nat) (open_root : option AbsPath) (passphrase : option string)
  : Run Machine SyncError SyncRuntimeStatus :=
  run_id ← run (on_state begin_sync_run);
  result ← run_attempt (run_sync_once fuel open_root passphrase run_id);
  _ ← run (on_state (modify (finish_sync_run run_id)));
  run match result with
      | Ok status =>
          _ ← persist_runtime_status status;
          _ ← emit_status status;
          mret status
      | Err error =>
          status ← gets (λ d, st_status (de_state d));
          cleared ← attempt (clear_binding_if_current_workspace_missing status error);
          match cleared with
          | Ok (Some _) => lift (Err NotConfigured)
          | _ =>
              shown ← attempt (on_state (set_error now error));
              _ ← (match shown with Ok status => emit_status status | Err _ => mret tt end : Command unit);
              lift (Err error)
          end
      end.

Definition sync_set_enabled (enabled : bool) : Command SyncRuntimeStatus :=
  status ← on_state (set_enabled now enabled);
  _ ← persist_runtime_status status;
  _ ← emit_status status;
  mret status.

Definition reject_while_running : Command unit :=
  st ← gets de_state;
  lift (reject_if (is_sync_running st) (InvalidArgument "sync is already running")).

Definition sync_disconnect_vault : Command SyncRuntimeStatus :=
  status ← gets (λ d, st_status (de_state d));
  if negb (rt_configured status) then mret status else
  _ ← reject_while_running;
  clear_current_workspace_binding status.

Definition sync_delete_workspace (workspace_id : string) : Command SyncRuntimeStatus :=
  workspace_id ← lift (normalized_workspace_id workspace_id);
  status ← gets (λ d, st_status (de_state d));
  let deleting_current := bool_decide (rt_remote_workspace_id status = Some workspace_id) in
  _ ← (if deleting_current then reject_while_running else mret tt : Command unit);
  _ ← on_setup (delete_account_workspace authorization_header workspace_id);
  if deleting_current then clear_current_workspace_binding status
  else gets (λ d, st_status (de_state d)).

Definition sync_rename_workspace (request : SyncRenameWorkspaceRequest) : Command SyncWorkspaceSummary :=
  status ← gets (λ d, st_status (de_state d));
  summary ← on_setup (rename_account_workspace identifier authorization_header request
                        (rt_remote_workspace_id status));
  renamed ← on_state (update_workspace_name now (wsu_workspace_id summary) (wsu_name summary));
  _ ← (match renamed with
       | Some status => _ ← persist_runtime_status status; emit_status status
       | None => mret tt
       end : Command unit);
  mret summary.

Definition sync_rebuild_vault_state : Command SyncRuntimeStatus :=
  status ← gets (λ d, st_status (de_state d));
  _ ← lift (reject_if (negb (rt_configured status)) NotConfigured);
  _ ← reject_while_running;
  config ← lift (config_from_status status);
  _ ← on_state (restore_vault_with_status now config (rt_enabled status) (rt_last_synced_at_ms status));
  status ← status_with_conflicts true;
  _ ← persist_runtime_status status;
  _ ← emit_status status;
  mret status.

(** [SyncConfigProbe]: the completed configuration with the keys. *)
Definition probe_sync_config (config : SyncVaultConfig) : Command (SyncVaultConfig * PreparedSyncConfig) :=
  _ ← lift (validate_vault_config config);
  _ ← lift authorization_header;
  prepared ←
    (if is_blank (cf_remote_workspace_id config) then on_setup (prepare_new_workspace identifier config)
     else
       conn ← open_sync_db_for_vault (cf_vault_id config);
       local_vault ← gets (λ d, get_vault (database conn d) (cf_vault_id config));
       on_setup (prepare_existing_workspace identifier config local_vault) : Command PreparedSyncConfig);
  mret ({| cf_vault_id := cf_vault_id config; cf_root_path := cf_root_path config;
           cf_account_key_id := Some (pw_account_key_id prepared);
           cf_remote_workspace_id := pw_workspace_id prepared;
           cf_workspace_name := Some (pw_workspace_name prepared);
           cf_device_id := pw_device_id prepared; cf_device_name := Some (pw_device_name prepared);
           cf_remember_workspace_key := cf_remember_workspace_key config;
           cf_passphrase := cf_passphrase config |}, prepared).

Definition write_new_config_file (config : SyncVaultConfig) : Command unit := λ d,
  let '(r, fs) := write_sync_config clock (de_fs d) (path_from (cf_root_path config)) config false now in
  (_ ← r; Ok tt, set_files fs d).

Definition commit_sync_config_probe (probe : SyncVaultConfig * PreparedSyncConfig)
  : Command SyncVaultConfig :=
  let '(config, prepared) := probe in
  conn ← open_sync_db_for_vault (cf_vault_id config);
  _ ← on_database conn (modify (persist_configured_vault now config false));
  _ ← on_setup (persist_local_keys identifier config (pw_workspace_key prepared)
        (pw_device_signing_key prepared) (pw_recovery_phrase prepared)
        (Some (pw_account_key_id prepared, pw_account_root_key prepared)));
  _ ← write_new_config_file config;
  mret config.

Definition sync_configure_vault (config : SyncVaultConfig) : Command SyncRuntimeStatus :=
  probe ← probe_sync_config config;
  config ← commit_sync_config_probe probe;
  status ← on_state (configure_vault now config);
  _ ← emit_status status;
  mret status.

Definition get_remote_status_for_state (status : SyncRuntimeStatus) : Command SyncRemoteStatus :=
  let remote : Remote := remote_at 0 in
  _ ← lift (reject_if (negb (rt_configured status)) NotConfigured);
  workspace_id ← lift (required_status_value (rt_remote_workspace_id status) "remote_workspace_id");
  _ ← lift authorization_header;
  head ← lift (get_head workspace_id);
  local_vault ←
    (match rt_vault_id status with
     | Some vault_id =>
         conn ← open_sync_db_for_vault vault_id; gets (λ d, get_vault (database conn d) vault_id)
     | None => mret None
     end : Command (option SyncVaultRecord));
  mret (remote_status_from_head workspace_id local_vault head now).

Definition sync_get_remote_status : Command SyncRemoteStatus :=
  status ← gets (λ d, st_status (de_state d));
  found ← attempt (get_remote_status_for_state status);
  match found with
  | Err error =>
      cleared ← attempt (clear_binding_if_current_workspace_missing status error);
      lift (Err match cleared with Ok (Some _) => NotConfigured | _ => error end)
  | Ok remote_status =>
      shown ← attempt (on_state (clear_remote_status_error now));
      status ←
        (match shown with
         | Ok (Some status) => _ ← emit_status status; mret status
         | _ => mret status
         end : Command SyncRuntimeStatus);
      _ ← persist_remote_status_snapshot status remote_status;
      mret remote_status
  end.
End commands.
