(* ===== verification/Runs.v ===== *)
(** * What the commands guarantee (sync/commands.rs)

    The commands as clients of the status machine: whatever a command does, the
    status moves by the transitions of [SyncState]; a run always gives its slot
    back and reports what happened. *)
From Stdlib Require Import Ascii String.
#[local] Set Warnings "-clear-no-such-hyp".
From S2P Require Import Prelude Text SyncErrors Paths SyncDb Scanner Planner Crypto Keys AccountKeys.
From S2P Require Import Packer Watcher Commit Transfer SyncState VaultConfig Pull Push Account Commands.

(** ** Steps that can run out of pages *)

Definition run_post {W E A} (m : Run W E A) (w : W) (Q : Result E A → W → Prop) : Prop :=
  match m w with None => True | Some (r, w') => Q r w' end.

Lemma run_post_bind {W E A B} (m : Run W E A) (f : A → Run W E B) w (Q : Result E B → W → Prop) :
  run_post m w (λ r w', match r with Ok a => run_post (f a) w' Q | Err e => Q (Err e) w' end) →
  run_post (x ← m; f x) w Q.
Proof. unfold run_post, mbind, run_bind. by destruct (m w) as [[[a|e] w']|]. Qed.
Lemma run_post_act {W E A} (m : Act W E A) w (Q : Result E A → W → Prop) :
  act_post m w Q → run_post (run m) w Q.
Proof. unfold act_post, run_post, run. by destruct (m w). Qed.
Lemma run_post_attempt {W E A} (m : Run W E A) w (Q : Result E (Result E A) → W → Prop) :
  run_post m w (λ r, Q (Ok r)) → run_post (run_attempt m) w Q.
Proof. unfold run_post, run_attempt. by destruct (m w) as [[]|]. Qed.
Lemma run_post_mono {W E A} (m : Run W E A) w (Q R : Result E A → W → Prop) :
  run_post m w Q → (∀ r w', Q r w' → R r w') → run_post m w R.
Proof. unfold run_post. destruct (m w) as [[r w']|]; auto. Qed.
Lemma act_post_attempt {W E A} (m : Act W E A) w (Q : Result E (Result E A) → W → Prop) :
  act_post m w (λ r, Q (Ok r)) → act_post (attempt m) w Q.
Proof. unfold act_post, attempt. by destruct (m w). Qed.
Lemma act_post_zoom {W S E A} (get : W → S) (put : S → W → W) (m : Act S E A) w (Q : Result E A → W → Prop) :
  act_post m (get w) (λ r s, Q r (put s w)) → act_post (zoom get put m) w Q.
Proof. unfold act_post, zoom. by destruct (m (get w)). Qed.

Section runs.
Context `{Unicode, Blake3, Os, Sqlite, CryptoLib, KeyLib, PackLib, PlannerText, AccountSerde, Rng,
          Environment, Host, Auth, Server}.
Context `{!Serialize PackIndex, !Deserialize PackIndex, !Serialize PackAad,
          !Serialize CommitBodyAad, !Serialize CommitBody, !Deserialize CommitBody,
          !Serialize (list string), !Serialize (list TreeCacheEntryBody),
          !Serialize CommitIdentity, !Serialize CommitSignaturePayload}.
Context `{!Serialize Argon2idKdfParams, !Deserialize Argon2idKdfParams,
          !Serialize WrappedAccountRootKey, !Deserialize WrappedAccountRootKey,
          !Deserialize WrappedWorkspaceKey, !Serialize KeyEnvelopeAad,
          !Serialize SyncVaultConfigFile, !Deserialize SyncVaultConfigFile,
          !Deserialize SyncVaultConfigVersion}.
Context {Keychain : Type} `{Keyring Keychain} {Service : Type} `{SetupApi Service}.
Context (identifier : option string) (now clock : Z) (search : SearchNotice → Result string unit).
Implicit Types d : Device Keychain Service.

(** ** Steps that follow a relation on the status *)

(** Whatever its outcome, the step changes the status along [R]. *)
Definition follows (R : relation SyncInner) {A} (m : Act (Device Keychain Service) SyncError A) : Prop :=
  ∀ d, act_post m d (λ _ d', R (de_state d) (de_state d')).
Definition run_follows (R : relation SyncInner) {A} (m : Run (Device Keychain Service) SyncError A) : Prop :=
  ∀ d, run_post m d (λ _ d', R (de_state d) (de_state d')).

Section follows.
Context (R : relation SyncInner) `{!PreOrder R}.

Lemma follows_same {A} (m : Act (Device Keychain Service) SyncError A) :
  (∀ d, de_state (m d).2 = de_state d) → follows R m.
Proof. intros Hm d. apply act_post_intro. intros r d' Hd. specialize (Hm d). rewrite Hd in Hm. simpl in Hm. by rewrite Hm. Qed.
Lemma follows_ret {A} (a : A) : follows R (mret a).
Proof. by apply follows_same. Qed.
Lemma follows_lift {A} (r : SyncResult A) : follows R (lift r).
Proof. by apply follows_same. Qed.
Lemma follows_gets {A} (f : Device Keychain Service → A) : follows R (gets f).
Proof. by apply follows_same. Qed.
Lemma follows_modify (f : Device Keychain Service → Device Keychain Service) :
  (∀ d, de_state (f d) = de_state d) → follows R (modify f).
Proof. intros Hf. by apply follows_same. Qed.
Lemma follows_emit status : follows R (emit_status status).
Proof. by apply follows_same. Qed.
Lemma follows_setup {A} (m : Act (Setup Keychain Service) SyncError A) : follows R (on_setup m).
Proof. apply follows_same. intros d. unfold on_setup, zoom. by destruct (m _). Qed.
Lemma follows_database {A} path (m : Act Db SyncError A) : follows R (on_database path m).
Proof. apply follows_same. intros d. unfold on_database, zoom. by destruct (m _). Qed.
Lemma follows_state {A} (m : StateAction A) : (∀ st, R st (m st).2) → follows R (on_state m).
Proof.
  intros Hm d. apply act_post_zoom, act_post_intro. intros r s Hs. specialize (Hm (de_state d)).
  by rewrite Hs in Hm.
Qed.
Lemma follows_bind {A B} (m : Act (Device Keychain Service) SyncError A) (f : A → Act _ SyncError B) :
  follows R m → (∀ a, follows R (f a)) → follows R (x ← m; f x).
Proof.
  intros Hm Hf d. apply act_post_bind. eapply act_post_mono; [apply Hm|]. intros [a|e] d' Hd; [|done].
  eapply act_post_mono; [apply Hf|]. simpl. intros r d'' Hd'. by etransitivity.
Qed.
Lemma follows_attempt {A} (m : Act (Device Keychain Service) SyncError A) :
  follows R m → follows R (attempt m).
Proof. intros Hm d. apply act_post_attempt. eapply act_post_mono; [apply Hm|]. done. Qed.
Lemma follows_fold {S X} (f : S → X → Act (Device Keychain Service) SyncError S) s l :
  (∀ s x, follows R (f s x)) → follows R (act_fold f s l).
Proof.
  intros Hf. revert s. induction l as [|x l IH]; intros s; simpl; [apply follows_ret|].
  apply follows_bind; [apply Hf|]. intros a. apply IH.
Qed.

Lemma run_follows_act {A} (m : Act (Device Keychain Service) SyncError A) :
  follows R m → run_follows R (run m).
Proof. intros Hm d. by apply run_post_act. Qed.
Lemma run_follows_bind {A B} (m : Run (Device Keychain Service) SyncError A) (f : A → Run _ SyncError B) :
  run_follows R m → (∀ a, run_follows R (f a)) → run_follows R (x ← m; f x).
Proof.
  intros Hm Hf d. apply run_post_bind. eapply run_post_mono; [apply Hm|]. intros [a|e] d' Hd; [|done].
  eapply run_post_mono; [apply Hf|]. simpl. intros r d'' Hd'. by etransitivity.
Qed.
Lemma run_follows_attempt {A} (m : Run (Device Keychain Service) SyncError A) :
  run_follows R m → run_follows R (run_attempt m).
Proof. intros Hm d. apply run_post_attempt. eapply run_post_mono; [apply Hm|]. done. Qed.
End follows.
Create HintDb follows.

Ltac follows_step :=
  first
    [ solve [auto 3 with follows typeclass_instances nocore]
    | apply follows_ret; apply _ | apply follows_lift; apply _ | apply follows_gets; apply _
    | apply follows_emit; apply _ | apply follows_setup; apply _ | apply follows_database; apply _
    | apply follows_attempt | apply follows_bind; [apply _| |intros ?]
    | apply follows_fold; [apply _|intros ? ?] | apply follows_modify; [apply _|intros ?; reflexivity]
    | match goal with |- follows _ (match ?x with _ => _ end) => destruct x end ].
Ltac solve_follows := repeat follows_step.
Ltac run_follows_step :=
  first
    [ solve [auto 3 with follows typeclass_instances nocore]
    | apply run_follows_bind; [apply _| |intros ?] | apply run_follows_attempt
    | apply run_follows_act; solve_follows
    | match goal with |- run_follows _ (match ?x with _ => _ end) => destruct x end ].

(** *** Steps that leave the status alone follow every relation *)

Section generic.
Context (R : relation SyncInner) `{!PreOrder R}.

Lemma open_sync_db_follows path : follows R (open_sync_db path).
Proof. unfold open_sync_db. solve_follows. Qed.
#[local] Hint Resolve open_sync_db_follows : follows.
Lemma open_sync_db_for_vault_follows vault_id : follows R (open_sync_db_for_vault identifier vault_id).
Proof. unfold open_sync_db_for_vault. solve_follows. Qed.
#[local] Hint Resolve open_sync_db_for_vault_follows : follows.
Lemma write_config_file_follows root config enabled at_ status :
  follows R (write_config_file clock root config enabled at_ status).
Proof. apply follows_same; [done|]. intros d. unfold write_config_file. by destruct (write_sync_config_with_status _ _ _ _ _ _ _). Qed.
Lemma write_new_config_file_follows config : follows R (write_new_config_file now clock config).
Proof. apply follows_same; [done|]. intros d. unfold write_new_config_file. by destruct (write_sync_config _ _ _ _ _ _). Qed.
#[local] Hint Resolve write_config_file_follows write_new_config_file_follows : follows.
Lemma cached_remote_status_follows root workspace_id :
  follows R (cached_remote_status_for_config root workspace_id).
Proof. unfold cached_remote_status_for_config, read_config_file. solve_follows. Qed.
#[local] Hint Resolve cached_remote_status_follows : follows.
Lemma persist_runtime_status_follows status : follows R (persist_runtime_status identifier now clock status).
Proof. unfold persist_runtime_status. solve_follows. Qed.
Lemma persist_remote_status_snapshot_follows status remote :
  follows R (persist_remote_status_snapshot clock status remote).
Proof. unfold persist_remote_status_snapshot. solve_follows. Qed.
Lemma list_open_conflicts_follows status : follows R (list_open_conflicts identifier now status).
Proof. unfold list_open_conflicts. solve_follows. Qed.
Lemma run_context_follows open_root passphrase : follows R (run_context identifier open_root passphrase).
Proof. unfold run_context. solve_follows. Qed.
#[local] Hint Resolve list_open_conflicts_follows run_context_follows : follows.

(** A run follows every relation that its own transitions follow. *)
Section one_run.
Context (run_id : Z).
Hypothesis set_phase_R : ∀ phase st, phase ∈ run_phases → R st (set_phase now phase st).2.
Hypothesis complete_R : ∀ n st, R st (complete_manual_sync now n st).2.
Hypothesis feed_R : ∀ events st, R st (feed run_id events st).

Lemma enter_phase_follows phase : phase ∈ run_phases → follows R (enter_phase now phase).
Proof.
  intros Hp. unfold enter_phase. apply follows_bind; [done| |intros s; solve_follows].
  apply follows_state; auto.
Qed.
Lemma enter_applying : follows R (enter_phase now PhaseApplying).
Proof. apply enter_phase_follows. unfold run_phases. set_solver. Qed.
Lemma enter_planning : follows R (enter_phase now PhasePlanning).
Proof. apply enter_phase_follows. unfold run_phases. set_solver. Qed.
Lemma enter_publishing : follows R (enter_phase now PhasePublishing).
Proof. apply enter_phase_follows. unfold run_phases. set_solver. Qed.
Lemma finish_sync_run_status_follows : follows R (finish_sync_run_status identifier now).
Proof.
  unfold finish_sync_run_status, list_open_conflicts_for_status.
  apply follows_bind; [done|solve_follows|]. intros l. apply follows_state; auto.
Qed.
Lemma pull_step_follows fuel cx k : run_follows R (pull_step now clock search fuel cx run_id k).
Proof.
  intros d. unfold run_post, pull_step.
  destruct (pull_remote_changes _ _ _) as [[r w]|]; simpl; [|done]. apply feed_R.
Qed.
Lemma push_step_follows cx k push : follows R (push_step cx run_id k push).
Proof. intros d. unfold act_post, push_step. destruct (push _) as [r w]. simpl. apply feed_R. Qed.
#[local] Hint Resolve enter_applying enter_planning enter_publishing finish_sync_run_status_follows
  pull_step_follows push_step_follows : follows.

Lemma run_sync_once_follows fuel open_root passphrase :
  run_follows R (run_sync_once identifier now clock search fuel open_root passphrase run_id).
Proof. unfold run_sync_once, recover_head, push_local, push_merge. repeat run_follows_step. Qed.
End one_run.
End generic.
#[local] Hint Resolve open_sync_db_follows open_sync_db_for_vault_follows write_config_file_follows
  write_new_config_file_follows cached_remote_status_follows persist_runtime_status_follows
  persist_remote_status_snapshot_follows list_open_conflicts_follows : follows.
(** ** Only transitions of the status machine *)

Abbreviation moves := (follows (rtc step)).
Abbreviation run_moves := (run_follows (rtc step)).

Lemma state_moves {A} (m : StateAction A) :
  (∀ st r st', m st = (r, st') → step st st') → moves (on_state m).
Proof.
  intros Hm. apply follows_state. intros st. apply rtc_once. destruct (m st) eqn:Hr. by eapply Hm.
Qed.
Lemma feed_steps run_id events st : rtc step st (feed run_id events st).
Proof.
  unfold feed. revert st. induction events as [|[at_ ev] events IH]; intros st; [done|]. simpl.
  eapply rtc_l; [|apply IH].
  destruct (apply_transfer_progress at_ run_id ev st) as [r st'] eqn:Hp. by eapply step_progress.
Qed.

(** The transitions the commands make themselves. *)
Lemma reset_moves : moves (on_state (reset now)).
Proof. apply state_moves. intros. by eapply step_reset. Qed.
Lemma restore_moves config enabled last : moves (on_state (restore_vault_with_status now config enabled last)).
Proof. apply state_moves. intros. by eapply step_restore. Qed.
Lemma pending_moves u n : moves (on_state (set_pending_counts now u n)).
Proof. apply state_moves. intros. by eapply step_pending. Qed.
Lemma clear_error_moves : moves (on_state (clear_remote_status_error now)).
Proof. apply state_moves. intros. by eapply step_clear. Qed.
Lemma rename_moves w n : moves (on_state (update_workspace_name now w n)).
Proof. apply state_moves. intros. by eapply step_rename. Qed.
Lemma set_error_moves e : moves (on_state (set_error now e)).
Proof. apply state_moves. intros. by eapply step_error. Qed.
Lemma set_enabled_moves b : moves (on_state (set_enabled now b)).
Proof. apply state_moves. intros. by eapply step_set_enabled. Qed.
Lemma begin_moves : moves (on_state begin_sync_run).
Proof. apply state_moves. intros. by eapply step_begin. Qed.
Lemma finish_moves run_id : moves (on_state (modify (finish_sync_run run_id))).
Proof. apply follows_state. intros st. apply rtc_once, step_finish. Qed.
#[local] Hint Resolve reset_moves restore_moves pending_moves clear_error_moves rename_moves
  set_error_moves set_enabled_moves begin_moves finish_moves : follows.

Lemma run_sync_once_moves fuel open_root passphrase run_id :
  run_moves (run_sync_once identifier now clock search fuel open_root passphrase run_id).
Proof.
  apply run_sync_once_follows; [apply _|..].
  - intros phase st Hp. apply rtc_once. destruct (set_phase now phase st) eqn:Hr. by eapply step_set_phase.
  - intros n st. apply rtc_once. destruct (complete_manual_sync now n st) eqn:Hr. by eapply step_complete.
  - apply feed_steps.
Qed.

Lemma clear_binding_moves status : moves (clear_current_workspace_binding identifier now status).
Proof. unfold clear_current_workspace_binding. solve_follows. Qed.
#[local] Hint Resolve clear_binding_moves : follows.
Lemma clear_if_missing_moves status e :
  moves (clear_binding_if_current_workspace_missing identifier now status e).
Proof. unfold clear_binding_if_current_workspace_missing. solve_follows. Qed.
#[local] Hint Resolve clear_if_missing_moves : follows.
Lemma status_with_conflicts_moves scan_local : moves (status_with_conflicts identifier now scan_local).
Proof.
  unfold status_with_conflicts, pending_counts_for_status, pending_upload_count, pending_download_count.
  solve_follows.
Qed.
#[local] Hint Resolve status_with_conflicts_moves : follows.

Lemma restore_vault_config_moves root : moves (restore_vault_config_for_root identifier now root).
Proof.
  unfold restore_vault_config_for_root, read_config_file. apply follows_bind; [apply _|solve_follows|].
  intros [[file|]|e]; [solve_follows..|]. destruct e; try (apply follows_lift; apply _).
  apply follows_bind; [apply _| |intros u; solve_follows]. apply follows_same; [apply _|]. intros d.
  by destruct (reset_sync_config _ _ _ _) as [[fs|e] k].
Qed.

Lemma sync_run_once_moves fuel open_root passphrase :
  run_moves (sync_run_once identifier now clock search fuel open_root passphrase).
Proof.
  unfold sync_run_once. apply run_follows_bind; [apply _|repeat run_follows_step|]. intros run_id.
  apply run_follows_bind; [apply _|apply run_follows_attempt, run_sync_once_moves|]. intros r.
  repeat run_follows_step.
Qed.

(** The commands of the user interface and the opening of a vault. *)
Inductive command : Device Keychain Service → Device Keychain Service → Prop :=
| command_run fuel open_root passphrase d r d' :
    sync_run_once identifier now clock search fuel open_root passphrase d = Some (r, d') → command d d'
| command_set_enabled b d r d' : sync_set_enabled identifier now clock b d = (r, d') → command d d'
| command_disconnect d r d' : sync_disconnect_vault identifier now d = (r, d') → command d d'
| command_delete_workspace id d r d' : sync_delete_workspace identifier now id d = (r, d') → command d d'
| command_rename_workspace request d r d' :
    sync_rename_workspace identifier now clock request d = (r, d') → command d d'
| command_rebuild d r d' : sync_rebuild_vault_state identifier now clock d = (r, d') → command d d'
| command_configure config d r d' :
    sync_configure_vault identifier now clock config d = (r, d') → command d d'
| command_remote_status d r d' : sync_get_remote_status identifier now clock d = (r, d') → command d d'
| command_status scan_local d r d' :
    status_with_conflicts identifier now scan_local d = (r, d') → command d d'
| command_conflicts d r d' : list_open_conflicts_for_status identifier now d = (r, d') → command d d'
| command_open_vault root d r d' :
    restore_vault_config_for_root identifier now root d = (r, d') → command d d'.

Lemma command_moves d d' : command d d' → rtc step (de_state d) (de_state d').
Proof.
  destruct 1 as [fuel root pass d r d' Hc|b d r d' Hc|d r d' Hc|id d r d' Hc|request d r d' Hc|d r d' Hc
    |config d r d' Hc|d r d' Hc|b d r d' Hc|d r d' Hc|root d r d' Hc].
  { pose proof (sync_run_once_moves fuel root pass d) as Hm. unfold run_post in Hm. by rewrite Hc in Hm. }
  all: refine (act_post_elim _ _ (λ _ d', rtc step (de_state d) (de_state d')) _ _ _ Hc);
    match goal with |- act_post ?m _ _ => assert (Hm : moves m); [|apply Hm] end.
  - unfold sync_set_enabled. solve_follows.
  - unfold sync_disconnect_vault, reject_while_running. solve_follows.
  - unfold sync_delete_workspace, reject_while_running. solve_follows.
  - unfold sync_rename_workspace. solve_follows.
  - unfold sync_rebuild_vault_state, reject_while_running. solve_follows.
  - unfold sync_configure_vault, probe_sync_config, commit_sync_config_probe, configure_vault. solve_follows.
  - unfold sync_get_remote_status, get_remote_status_for_state. solve_follows.
  - apply status_with_conflicts_moves.
  - unfold list_open_conflicts_for_status. solve_follows.
  - apply restore_vault_config_moves.
Qed.
(** ** The outcome of a run *)

(** A run owns the run slot and finds sync configured and enabled until it ends. *)
Definition stays_running (run_id : Z) (st st' : SyncInner) : Prop := running run_id st → running run_id st'.
#[local] Instance stays_running_pre run_id : PreOrder (stays_running run_id).
Proof. split; [intros st|intros a b c]; unfold stays_running; auto. Qed.

Lemma set_phase_running run_id phase st : stays_running run_id st (set_phase now phase st).2.
Proof.
  intros (Ha & Hc & He). unfold set_phase, mbind, act_bind, gets, lift, require_configured. rewrite Hc. simpl.
  rewrite He. done.
Qed.
Lemma complete_running run_id n st : stays_running run_id st (complete_manual_sync now n st).2.
Proof.
  intros (Ha & Hc & He). unfold complete_manual_sync, mbind, act_bind, gets, lift, require_configured, require_enabled.
  rewrite Hc, He. by split_and!.
Qed.
Lemma run_sync_once_running fuel open_root passphrase run_id :
  run_follows (stays_running run_id)
    (run_sync_once identifier now clock search fuel open_root passphrase run_id).
Proof.
  apply run_sync_once_follows; [apply _|..]; intros; [apply set_phase_running|apply complete_running|].
  intros Hst. by apply feed_running.
Qed.

(** What a completed run shows. *)
Record completed (status : SyncRuntimeStatus) : Prop := {
  cp_phase : rt_phase status = PhaseIdle;
  cp_error : rt_last_error status = None ∧ rt_last_error_category status = None;
  cp_synced : rt_last_synced_at_ms status = Some now;
  cp_pending : rt_pending_uploads status = 0%Z ∧ rt_pending_downloads status = 0%Z;
  cp_transfer : rt_transfer status = default_transfer }.

Lemma complete_Ok n st :
  act_post (complete_manual_sync now n) st (λ r st', ∀ status, r = Ok status → st_status st' = status ∧ completed status).
Proof.
  unfold complete_manual_sync. apply act_post_gets. apply act_post_lift; [|done]. intros u _.
  apply act_post_lift; [|done]. intros u' _. unfold act_post, commit_status. simpl.
  intros status [= <-]. split; [done|]. by split.
Qed.

(** A run that succeeds returns the status it leaves. *)
Definition reports (r : SyncResult SyncRuntimeStatus) (d : Device Keychain Service) : Prop :=
  ∀ status, r = Ok status → st_status (de_state d) = status ∧ completed status.

Lemma finish_reports d : act_post (finish_sync_run_status identifier now) d reports.
Proof.
  unfold finish_sync_run_status. apply act_post_bind, act_post_intro. intros [l|e] d' _; [|done].
  apply act_post_zoom. apply complete_Ok.
Qed.
Lemma run_post_then {A B} (m : Run (Device Keychain Service) SyncError A) (f : A → Run _ SyncError B) d Q :
  (∀ e d', Q (Err e) d') → (∀ a d', run_post (f a) d' Q) → run_post (x ← m; f x) d Q.
Proof.
  intros Herr Hf. apply run_post_bind. unfold run_post at 1. destruct (m d) as [[[a|e] d']|]; auto.
Qed.

Lemma run_sync_once_reports fuel open_root passphrase run_id d :
  run_post (run_sync_once identifier now clock search fuel open_root passphrase run_id) d reports.
Proof.
  unfold run_sync_once, recover_head.
  do 5 (apply run_post_then; [done|intros ? ?]). apply run_post_then; [done|]. intros [pushed|e] d1.
  - apply run_post_act, finish_reports.
  - destruct (is_head_conflict e); [|done].
    do 4 (apply run_post_then; [done|intros ? ?]). apply run_post_act, finish_reports.
Qed.

(** A failed run leaves the binding cleared or the error on display. *)
Definition shows_failure (error shown : SyncError) (status : SyncRuntimeStatus) : Prop :=
  (error_may_indicate_missing_current_workspace error = true ∧ shown = NotConfigured ∧
   status = not_configured now) ∨
  (shown = error ∧ rt_phase status = PhaseError ∧ rt_last_error status = Some (display error) ∧
   rt_last_error_category status = Some (category error)).
(** Steps that leave the status alone. *)
Abbreviation still := (follows eq).
Lemma still_post {A} (m : Act (Device Keychain Service) SyncError A) d :
  still m → de_state (m d).2 = de_state d.
Proof. intros Hm. specialize (Hm d). unfold act_post in Hm. by destruct (m d). Qed.
Lemma act_post_still {A B} (m : Act (Device Keychain Service) SyncError A) (f : A → Act _ SyncError B) d Q :
  still m → (∀ e d', de_state d' = de_state d → Q (Err e) d') →
  (∀ a d', de_state d' = de_state d → act_post (f a) d' Q) → act_post (x ← m; f x) d Q.
Proof.
  intros Hm Herr Hf. apply act_post_bind. eapply act_post_mono; [apply Hm|].
  intros [a|e] d' Hd; simpl in Hd; auto.
Qed.

Definition reset_state (st : SyncInner) : SyncInner :=
  {| st_status := not_configured now; st_active_run_id := None; st_next_run_id := st_next_run_id st |}.

Lemma clear_binding_post status d :
  act_post (clear_current_workspace_binding identifier now status) d (λ r d',
    match r with Ok _ => de_state d' = reset_state (de_state d) | Err _ => de_state d' = de_state d end).
Proof.
  unfold clear_current_workspace_binding.
  apply act_post_still; [solve_follows|done|]. intros vault_id d1 H1'.
  do 3 (apply act_post_still; [solve_follows|intros; congruence|]; intros ? ? ?).
  apply act_post_still; [solve_follows|intros; congruence|]. intros ? ? ?.
  do 2 (apply act_post_still; [solve_follows|intros; congruence|]; intros ? ? ?).
  unfold act_post, mbind, act_bind, on_state, zoom, emit_status, modify. simpl. unfold reset_state. congruence.
Qed.

Lemma clear_if_missing_post status error d :
  act_post (clear_binding_if_current_workspace_missing identifier now status error) d (λ r d',
    match r with
    | Ok (Some _) => error_may_indicate_missing_current_workspace error = true ∧
                     de_state d' = reset_state (de_state d)
    | _ => de_state d' = de_state d
    end).
Proof.
  unfold clear_binding_if_current_workspace_missing.
  destruct (error_may_indicate_missing_current_workspace error); [|done]. cbn [negb].
  destruct (trimmed_optional _) as [id|]; [|done].
  apply act_post_still; [solve_follows|done|]. intros found d1 H1'. destruct found; [done|].
  apply act_post_bind. eapply act_post_mono; [apply clear_binding_post|].
  intros [s|e] d2 Hd2; simpl in Hd2; [|congruence].
  unfold act_post, mret, act_ret. split; [done|]. simpl. by rewrite Hd2, H1'.
Qed.

Lemma set_error_shows error st :
  rt_configured (st_status st) = true →
  ∃ status, set_error now error st = (Ok status, set_status status st) ∧
    rt_phase status = PhaseError ∧ rt_last_error status = Some (display error) ∧
    rt_last_error_category status = Some (category error).
Proof.
  intros Hc. unfold set_error, mbind, act_bind, gets, lift, require_configured. rewrite Hc. simpl.
  eexists. split; [reflexivity|done].
Qed.

Lemma begin_running st run_id st' : begin_sync_run st = (Ok run_id, st') → running run_id st'.
Proof.
  unfold begin_sync_run. destruct (_ ← _; _) as [u|e] eqn:Hb; [|done]. intros [= <- <-].
  apply bind_Ok_inv in Hb as (u1 & Hc%reject_if_Ok & Hb). apply bind_Ok_inv in Hb as (u2 & He%reject_if_Ok & _).
  apply negb_false_iff in Hc, He. by split.
Qed.
Lemma begin_Err st e st' : begin_sync_run st = (Err e, st') → st' = st.
Proof. unfold begin_sync_run. destruct (_ ← _; _) as [u|e']; [done|]. by intros [= _ <-]. Qed.
Lemma finish_released run_id st :
  running run_id st → st_active_run_id (finish_sync_run run_id st) = None ∧
  st_status (finish_sync_run run_id st) = st_status st.
Proof. intros (Ha & _ & _). unfold finish_sync_run. rewrite Ha. by rewrite bool_decide_true. Qed.

(** How the command ends when the run failed. *)
Lemma failed_run_post error d :
  st_active_run_id (de_state d) = None → rt_configured (st_status (de_state d)) = true →
  act_post (status ← gets (λ d, st_status (de_state d));
            cleared ← attempt (clear_binding_if_current_workspace_missing identifier now status error);
            match cleared with
            | Ok (Some _) => lift (Err NotConfigured)
            | _ =>
                shown ← attempt (on_state (set_error now error));
                _ ← (match shown with Ok status => emit_status status | Err _ => mret tt end);
                lift (Err error)
            end : Act _ SyncError SyncRuntimeStatus) d
    (λ r d', st_active_run_id (de_state d') = None ∧
       ∃ shown, r = Err shown ∧ shows_failure error shown (st_status (de_state d'))).
Proof.
  intros Hnone Hc. apply act_post_gets, act_post_bind, act_post_attempt.
  eapply act_post_mono; [apply clear_if_missing_post|]. intros r d1 Hd1.
  assert (Hshow : de_state d1 = de_state d →
    act_post (shown ← attempt (on_state (set_error now error));
              _ ← (match shown with Ok status => emit_status status | Err _ => mret tt end);
              lift (Err error) : Act _ SyncError SyncRuntimeStatus) d1
      (λ r d', st_active_run_id (de_state d') = None ∧
         ∃ shown, r = Err shown ∧ shows_failure error shown (st_status (de_state d')))).
  { intros Heq. destruct (set_error_shows error (de_state d1)) as (status & Hset & Hp & Hl & Hcat);
      [by rewrite Heq|].
    unfold act_post, mbind, act_bind, attempt, on_state, zoom. rewrite Hset. simpl. rewrite Heq, Hnone.
    split; [done|]. eexists. split; [done|]. by right. }
  destruct r as [[s|]|e]; [|by apply Hshow..]. destruct Hd1 as [Hmay Hst]. unfold act_post, lift.
  simpl. rewrite Hst. split; [done|]. eexists. split; [done|]. by left.
Qed.

(** C11: the outcome of a run. A run that cannot begin changes nothing and says why.
    A run that begins always gives its slot back. If it succeeds the status shown
    is the one it returns: idle, without error, transfer or pending work, synced
    now. If it fails, either the workspace turned out to be gone and the binding
    is cleared, or the status shows the error that is returned; or, the sync itself
    done, only saving the status failed. *)
Theorem sync_run_once_outcome (fuel : nat) (open_root : option AbsPath) (passphrase : option string)
    (d d' : Device Keychain Service) (r : SyncResult SyncRuntimeStatus) :
  sync_run_once identifier now clock search fuel open_root passphrase d = Some (r, d') →
  match (begin_sync_run (de_state d)).1 with
  | Err e => r = Err e ∧ d' = d
  | Ok _ =>
      st_active_run_id (de_state d') = None ∧
      match r with
      | Ok status => st_status (de_state d') = status ∧ completed status
      | Err shown => (∃ error, shows_failure error shown (st_status (de_state d'))) ∨
                     completed (st_status (de_state d'))
      end
  end.
Proof.
  pose proof (run_sync_once_running fuel open_root passphrase) as Hrunning.
  pose proof (run_sync_once_reports fuel open_root passphrase) as Hreports.
  unfold sync_run_once. destruct (begin_sync_run (de_state d)) as [[run_id|e] st] eqn:Hb; simpl.
  2:{ unfold mbind at 1, run_bind at 1, run at 1, on_state, zoom. rewrite Hb.
      apply begin_Err in Hb as ->. intros [= <- <-]. by destruct d. }
  unfold mbind at 1, run_bind at 1, run at 1, on_state at 1, zoom at 1. rewrite Hb. simpl.
  apply begin_running in Hb. specialize (Hrunning run_id (set_state st d)). specialize (Hreports run_id (set_state st d)).
  unfold mbind at 1, run_bind at 1, run_attempt. unfold run_post in Hrunning, Hreports.
  destruct (run_sync_once _ _ _ _ _ _ _ _ _) as [[res d2]|]; [|done]. simpl in Hrunning. specialize (Hrunning Hb).
  pose proof (finish_released _ _ Hrunning) as [Hnone Hsame].
  unfold mbind at 1, run_bind at 1, run at 1, on_state at 1, zoom at 1, modify at 1. simpl.
  set (d3 := set_state (finish_sync_run run_id (de_state d2)) d2).
  assert (Hc3 : rt_configured (st_status (de_state d3)) = true) by (simpl; rewrite Hsame; apply Hrunning).
  destruct res as [status|error].
  - unfold run. destruct (Hreports status eq_refl) as [Hstatus Hdone].
    assert (Hd3 : st_status (de_state d3) = status) by (simpl; congruence).
    intros [= Hm]. revert Hm. unfold mbind at 1, act_bind at 1.
    pose proof (still_post (persist_runtime_status identifier now clock status) d3
                  (persist_runtime_status_follows _ _)) as Hp.
    destruct (persist_runtime_status _ _ _ _ _) as [[u|e] d4]; simpl in Hp |- *;
      unfold mbind, act_bind; simpl; intros [= <- <-]; simpl; rewrite Hp; (split; [exact Hnone|]).
    + split; [exact Hd3|exact Hdone].
    + right. simpl in Hd3. by rewrite Hd3.
  - intros [= Hm]. pose proof (failed_run_post error d3 Hnone Hc3) as Hpost.
    apply (act_post_elim _ _ _ _ _ Hpost) in Hm as (Hn & shown & -> & Hs). split; [done|]. left. eauto.
Qed.
End runs.

(** ** Any sequence of commands *)

Section history.
Context `{Unicode, Blake3, Os, Sqlite, CryptoLib, KeyLib, PackLib, PlannerText, AccountSerde}.
Context `{!Serialize PackIndex, !Deserialize PackIndex, !Serialize PackAad,
          !Serialize CommitBodyAad, !Serialize CommitBody, !Deserialize CommitBody,
          !Serialize (list string), !Serialize (list TreeCacheEntryBody),
          !Serialize CommitIdentity, !Serialize CommitSignaturePayload}.
Context `{!Serialize Argon2idKdfParams, !Deserialize Argon2idKdfParams,
          !Serialize WrappedAccountRootKey, !Deserialize WrappedAccountRootKey,
          !Deserialize WrappedWorkspaceKey, !Serialize KeyEnvelopeAad,
          !Serialize SyncVaultConfigFile, !Deserialize SyncVaultConfigFile,
          !Deserialize SyncVaultConfigVersion}.
Context {Keychain : Type} `{Keyring Keychain} {Service : Type}.
Context (identifier : option string).

(** One command, in whatever surroundings it runs: the machine, the service and
    the authorization may answer differently each time. *)
Definition any_command (d d' : Device Keychain Service) : Prop :=
  ∃ (rng : Rng) (env : Environment) (host : Host) (auth : Auth) (server : Server)
    (api : SetupApi Service) (now clock : Z) (search : SearchNotice → Result string unit),
    command identifier now clock search d d'.

(** C12: the commands keep the status well formed. From the state the application
    starts in, whatever commands are given in whatever surroundings, the status
    stays well formed: unconfigured or with a vault, a root and a phase that agree
    with the enabled flag, an error text and category exactly in the error phase,
    counts that are not negative and transfer counters within their totals. *)
Theorem commands_keep_state_ok (d d' : Device Keychain Service) :
  (∃ now, de_state d = new now) → rtc any_command d d' → state_ok (de_state d').
Proof.
  intros [now Hnew] Hd. apply reachable_state_ok. exists now. rewrite <- Hnew. clear Hnew.
  induction Hd as [d|d d1 d' (rng & env & host & auth & server & api & n & c & s & Hc) _ IH]; [done|].
  apply command_moves in Hc. by etransitivity.
Qed.
End history.

(** ** Listing conflicts *)

(** Every conflict is stored under its identifier. *)
Definition conflicts_keyed (db : Db) : Prop := ∀ id k, db_conflicts db !! id = Some k → k_conflict_id k = id.
Lemma upsert_conflict_keyed db k : conflicts_keyed db → conflicts_keyed (upsert_conflict db k).
Proof.
  intros Hdb id k'. unfold upsert_conflict. simpl.
  destruct (decide (id = k_conflict_id k)) as [->|Hne]; [|rewrite lookup_insert_ne by done; apply Hdb].
  rewrite lookup_insert_eq. by intros [= <-].
Qed.

Lemma elem_of_open_conflicts db k :
  k ∈ SyncDb.list_open_conflicts db ↔ k_status k = "open" ∧ ∃ id, db_conflicts db !! id = Some k.
Proof.
  unfold SyncDb.list_open_conflicts. rewrite elem_of_sort_by, list_elem_of_In, List.filter_In, <- list_elem_of_In.
  rewrite bool_decide_eq_true, list_elem_of_fmap. split.
  - intros [([id k'] & -> & Hin) Hs]. split; [done|]. exists id. by apply elem_of_map_to_list.
  - intros [Hs [id Hid]]. split; [|done]. exists (id, k). split; [done|]. by apply elem_of_map_to_list.
Qed.

Lemma elem_of_open_after_resolve db id k :
  conflicts_keyed db →
  k ∈ SyncDb.list_open_conflicts (mark_conflict_resolved db id) ↔
  k ∈ SyncDb.list_open_conflicts db ∧ k_conflict_id k ≠ id.
Proof.
  intros Hkey. rewrite !elem_of_open_conflicts. unfold mark_conflict_resolved. simpl. split.
  - intros [Hs [id' Hid]]. destruct (decide (id' = id)) as [->|Hne].
    + rewrite lookup_alter_eq in Hid. apply fmap_Some_1 in Hid as (k0 & Hk0 & ->).
      destruct (decide (k_status k0 = "open")) as [Ho|Ho]; [|by rewrite bool_decide_false in Hs].
      rewrite bool_decide_true in Hs by done. done.
    + rewrite lookup_alter_ne in Hid by done. split; [eauto|]. by rewrite (Hkey _ _ Hid).
  - intros [[Hs [id' Hid]] Hne]. split; [done|]. exists id'.
    rewrite lookup_alter_ne; [done|]. intros <-. by apply Hne, Hkey.
Qed.
Lemma mark_conflict_resolved_keyed db id : conflicts_keyed db → conflicts_keyed (mark_conflict_resolved db id).
Proof.
  intros Hkey id' k. unfold mark_conflict_resolved. simpl.
  destruct (decide (id' = id)) as [->|Hne]; [|rewrite lookup_alter_ne by done; apply Hkey].
  rewrite lookup_alter_eq. intros (k0 & Hk0 & ->)%fmap_Some_1. apply Hkey in Hk0. by case_bool_decide.
Qed.

Section conflicts.
Context `{Unicode, Os, Host} {Keychain Service : Type}.
Context (identifier : option string) (now : Z).
Implicit Types d : Device Keychain Service.

(** Whether the copy of a conflict is still in the vault. *)
Definition copy_present (fs : Fs) (vault_root : option AbsPath) (k : SyncConflictRecord) : bool :=
  match vault_root with
  | Some root => bool_decide (vault_relative_file_exists fs root (k_conflict_path k) = Ok true)
  | None => true
  end.

(** The state of the loop over the conflicts read at its start. *)
Record listing (conn : AbsPath) (root : option AbsPath) (d0 : Device Keychain Service)
    (done : list SyncConflictRecord) (l : list SyncConflictSummary) (d : Device Keychain Service) : Prop := {
  li_summaries : l = conflict_summary <$> List.filter (copy_present (de_fs d0) root) done;
  li_open k : k ∈ SyncDb.list_open_conflicts (database conn d) ↔
    k ∈ SyncDb.list_open_conflicts (database conn d0) ∧
    (k ∈ done → copy_present (de_fs d0) root k = true);
  li_keyed : conflicts_keyed (database conn d);
  li_fs : de_fs d = de_fs d0;
  li_dbs p : p ≠ conn → de_dbs d !! p = de_dbs d0 !! p }.

Lemma database_set conn db d : database conn (set_database conn db d) = db.
Proof. unfold database. simpl. by rewrite lookup_insert_eq. Qed.

Lemma list_conflict_listing conn root d0 done l d k l' d' :
  conflicts_keyed (database conn d0) → done ⊆ SyncDb.list_open_conflicts (database conn d0) →
  k ∈ SyncDb.list_open_conflicts (database conn d0) →
  listing conn root d0 done l d → list_conflict now conn root l k d = (Ok l', d') →
  listing conn root d0 (done ++ [k]) l' d'.
Proof.
  intros Hkey0 Hsub Hk [Hl Ho Hkeyed Hfs Hdbs] Hstep. unfold list_conflict in Hstep.
  apply act_bind_Ok in Hstep as (fs & d1 & [= <- <-] & Hstep). rewrite Hfs in Hstep.
  apply act_lift_Ok in Hstep as (present & Hp & Hstep).
  assert (Hpresent : copy_present (de_fs d0) root k = present).
  { unfold copy_present. destruct root as [root|]; [|by injection Hp as <-]. rewrite Hp.
    destruct present; [by apply bool_decide_eq_true|by apply bool_decide_eq_false]. }
  destruct present.
  - injection Hstep as <- <-. split; [|..|done|done|done].
    + rewrite List.filter_app, fmap_app, <- Hl. simpl. by rewrite Hpresent.
    + intros k'. rewrite Ho. split; [|set_solver].
      intros [Hk' Hd]. split; [done|]. intros [Hin| ->%list_elem_of_singleton]%elem_of_app; auto.
  - assert (Hd' : l' = l ∧ de_fs d' = de_fs d0 ∧ (∀ p, p ≠ conn → de_dbs d' !! p = de_dbs d0 !! p) ∧
      db_conflicts (database conn d') = db_conflicts (mark_conflict_resolved (database conn d) (k_conflict_id k))).
    { unfold mbind, act_bind, on_database, zoom, modify in Hstep.
      destruct (normalize_vault_relative_path _) as [np|e]; injection Hstep as <- <-; simpl;
        rewrite ?database_set; (split_and!; [done|done| |done]); intros p Hne;
        rewrite !lookup_insert_ne by done; by apply Hdbs. }
    destruct Hd' as (-> & Hfs' & Hdbs' & Hconf).
    assert (Hopen : ∀ k', k' ∈ SyncDb.list_open_conflicts (database conn d') ↔
      k' ∈ SyncDb.list_open_conflicts (database conn d) ∧ k_conflict_id k' ≠ k_conflict_id k).
    { intros k'. rewrite <- elem_of_open_after_resolve by done. rewrite !elem_of_open_conflicts. by rewrite Hconf. }
    split; [| | |done|done].
    + rewrite List.filter_app, fmap_app, <- Hl. simpl. rewrite Hpresent. by rewrite app_nil_r.
    + intros k'. rewrite Hopen, Ho. split.
      * intros [[Hk' Hd] Hne]. split; [done|].
        intros [Hin| ->%list_elem_of_singleton]%elem_of_app; [auto|done].
      * intros [Hk' Hd]. split; [split; [done|set_solver]|]. intros Heq. assert (k' = k) as ->.
        { apply elem_of_open_conflicts in Hk' as [_ [i Hi]], Hk as [_ [j Hj]].
          pose proof (Hkey0 _ _ Hi). pose proof (Hkey0 _ _ Hj). congruence. }
        rewrite Hpresent in Hd. by specialize (Hd ltac:(set_solver)).
    + intros id k'. rewrite Hconf. by apply mark_conflict_resolved_keyed.
Qed.

(** Listing conflicts. For a vault with a database, listing returns, in order,
    the open conflicts whose copy is still in the vault (all of them when the vault
    folder is not there), and afterwards exactly those are open; it changes no file
    and no other vault's database. *)
Theorem open_conflicts_listed (status : SyncRuntimeStatus) (vault_id : string) (home path : AbsPath)
    (d d' : Device Keychain Service) (l : list SyncConflictSummary) :
  rt_vault_id status = Some vault_id → home_dir = Some home →
  sync_db_path (data_root identifier home) vault_id = Ok path → is_Some (de_dbs d !! path) →
  conflicts_keyed (init_schema (database path d)) →
  Commands.list_open_conflicts identifier now status d = (Ok l, d') →
  let root := root_path ← rt_root_path status;
              if is_dir (de_fs d) (path_from root_path) then Some (path_from root_path) else None in
  let before := SyncDb.list_open_conflicts (init_schema (database path d)) in
  l = conflict_summary <$> List.filter (copy_present (de_fs d) root) before ∧
  (∀ k, k ∈ SyncDb.list_open_conflicts (database path d') ↔
        k ∈ before ∧ copy_present (de_fs d) root k = true) ∧
  de_fs d' = de_fs d ∧ (∀ p, p ≠ path → de_dbs d' !! p = de_dbs d !! p).
Proof.
  intros Hv Hh Hpath Hdb Hkey. unfold Commands.list_open_conflicts. rewrite Hv, Hh.
  intros (p & Hp & Hm)%act_lift_Ok. rewrite Hpath in Hp. injection Hp as <-.
  apply act_bind_Ok in Hm as (b & d1 & [= <- <-] & Hm). rewrite bool_decide_true in Hm by done. simpl in Hm.
  apply act_bind_Ok in Hm as (conn & d1 & Hopen & Hm). unfold open_sync_db in Hopen.
  apply act_lift_Ok in Hopen as (u & _ & Hopen). injection Hopen as <- <-.
  set (d1 := set_database path (init_schema (database path d)) d) in *.
  apply act_bind_Ok in Hm as (before & d2 & [= <- <-] & Hm).
  apply act_bind_Ok in Hm as (fs & d2 & [= <- <-] & Hm).
  set (root := rt_root_path status ≫= _). set (before := SyncDb.list_open_conflicts (init_schema _)).
  assert (Hd1 : database path d1 = init_schema (database path d)) by apply database_set.
  rewrite Hd1 in Hm. fold before in Hm. change (de_fs d1) with (de_fs d) in Hm. fold root in Hm.
  assert (Hlist : listing path root d1 ([] ++ before) l d').
  { revert Hm. apply (act_fold_invariant (λ done l d, done ⊆ before ∧ listing path root d1 done l d)).
    - split; [set_solver|]. split; [done| |by rewrite Hd1|done|done]. intros k. set_solver.
    - intros dn l1 d2 k l2 d3 Hk [Hsub Hli] Hstep. split; [set_solver|].
      eapply list_conflict_listing; [..|exact Hli|exact Hstep]; rewrite Hd1; done. }
  destruct Hlist as [Hl Ho _ Hfs Hdbs]. simpl in Hl. split; [done|]. split; [|split; [done|]].
  - intros k. rewrite Ho, Hd1. set_solver.
  - intros p Hne. rewrite Hdbs by done. unfold d1. simpl. by rewrite lookup_insert_ne.
Qed.
End conflicts.
