(* ===== verification/Toys.v ===== *)
(** * Concrete instances for the sync engine

    Texts for the records the engine serializes, with their reading back, and the
    instances of every external function the push and the pull use; they make the
    two run on examples. *)
From Stdlib Require Import Ascii String.
#[local] Set Warnings "-clear-no-such-hyp".
From S2P Require Import Prelude SyncErrors Paths SyncDb Scanner Planner Crypto Keys Packer Watcher.
From S2P Require Import Commit Transfer Pull Push.
Import Crypto.Toy Packer.Examples.

#[export] Existing Instances Concrete.ascii_unicode Crypto.Toy.crypto
  Crypto.Toy.crypto_laws Keys.Toy.key_lib Packer.Examples.pack_lib Packer.Examples.pack_laws
  Packer.Examples.index_json Packer.Examples.json_index Packer.Examples.index_laws
  Scanner.Examples.os SyncDb.Examples.sqlite Planner.Examples.text.

(** A hash that is the input in hexadecimal, cut or padded to 64 digits. *)
Definition hex_digit (n : nat) : ascii := ascii_of_nat (if n <? 10 then 48 + n else 87 + n).
Fixpoint hex_text (s : string) : string :=
  match s with
  | EmptyString => EmptyString
  | String c s => let n := nat_of_ascii c in String (hex_digit (n / 16)) (String (hex_digit (n mod 16)) (hex_text s))
  end.
#[export] Instance hex_blake3 : Blake3 := {| blake3_hex := λ b, str_take 64 (hex_text b +:+ zeros 64) |}.
#[export] Instance hex_blake3_laws : Blake3Laws.
Proof.
  split. intros b. unfold blake3_hex, hex_blake3.
  apply str_length_take. rewrite str_app_length, Concrete.length_zeros. lia.
Qed.

(** ** The commit body *)

Definition change_text (c : CommitBodyFileOp) : string :=
  match c with
  | UpsertFile fid path np hash size ref =>
      write_items ["u"; fid; path; np; hash; number size; cr_object_id ref; cr_entry_id ref]
  | DeleteFile fid path np => write_items ["d"; fid; path; np]
  end.
Definition text_change (s : string) : CommitBodyFileOp :=
  match read_items s with
  | [_; fid; path; np; hash; size; oid; eid] =>
      UpsertFile fid path np hash (read_number size) {| cr_object_id := oid; cr_entry_id := eid |}
  | [_; fid; path; np] => DeleteFile fid path np
  | _ => DeleteFile "" "" ""
  end.
Lemma text_change_text c : text_change (change_text c) = c.
Proof.
  destruct c as [fid path np hash size [oid eid]|fid path np]; unfold text_change, change_text;
    rewrite read_write_items; simpl; [by rewrite read_write_number|done].
Qed.

Definition pack_text (p : CommitBodyPackRef) : string :=
  write_items [pr_pack_ref p; pr_object_id p; pr_pack_kind p; number (Z.of_nat (pr_shard_index p));
               number (Z.of_nat (pr_entry_count p))].
Definition text_pack (s : string) : CommitBodyPackRef :=
  match read_items s with
  | [ref; oid; kind; index; count] =>
      {| pr_pack_ref := ref; pr_object_id := oid; pr_pack_kind := kind;
         pr_shard_index := Z.to_nat (read_number index); pr_entry_count := Z.to_nat (read_number count) |}
  | _ => {| pr_pack_ref := ""; pr_object_id := ""; pr_pack_kind := ""; pr_shard_index := 0;
            pr_entry_count := 0 |}
  end.
Lemma text_pack_text p : text_pack (pack_text p) = p.
Proof.
  destruct p as [ref oid kind index count]. unfold text_pack, pack_text. rewrite read_write_items. simpl.
  by rewrite !read_write_number, !Nat2Z.id.
Qed.

#[export] Instance body_json : Serialize CommitBody := λ b,
  Ok (write_items [b_format b; number (b_version b); b_commit_id b; b_commit_kind b;
        write_items (b_parent_commit_ids b); b_tree_id b;
        write_items (change_text <$> b_changes b); write_items (pack_text <$> b_packs b)]).
#[export] Instance json_body : Deserialize CommitBody := λ s,
  match read_items s with
  | [format; version; cid; kind; parents; tid; changes; packs] =>
      Ok {| b_format := format; b_version := read_number version; b_commit_id := cid;
            b_commit_kind := kind; b_parent_commit_ids := read_items parents; b_tree_id := tid;
            b_changes := text_change <$> read_items changes; b_packs := text_pack <$> read_items packs |}
  | _ => Err (Serialization "invalid commit body")
  end.
#[export] Instance body_laws : SerdeLaws CommitBody.
Proof.
  intros [format version cid kind parents tid changes packs] b [= <-].
  unfold from_slice, json_body. rewrite read_write_items. simpl.
  rewrite read_write_number, !read_write_items, <- !list_fmap_compose. f_equal.
  f_equal.
  - rewrite <- (list_fmap_id changes) at 2. apply list_fmap_ext. intros. apply text_change_text.
  - rewrite <- (list_fmap_id packs) at 2. apply list_fmap_ext. intros. apply text_pack_text.
Qed.

(** ** The other records *)

#[export] Instance pack_aad_json : Serialize PackAad := Crypto.Toy.pack_aad_json.
#[export] Instance body_aad_json : Serialize CommitBodyAad := λ a,
  Ok (write_items ([ca_workspace_id a; ca_commit_id a; ca_body_object_id a])).
#[export] Instance strings_json : Serialize (list string) := λ l, Ok (write_items l).
#[export] Instance tree_json : Serialize (list TreeCacheEntryBody) := λ l,
  Ok (write_items ((λ e, tb_normalized_path e +:+ ":" +:+ default "" (tb_plaintext_hash e)) <$> l)).
#[export] Instance identity_json : Serialize CommitIdentity := λ i,
  Ok (number (ci_device_seq i) +:+ ci_author_device_id i).
#[export] Instance signature_json : Serialize CommitSignaturePayload := λ p, Ok (sp_commit_id p).

(** ** An object store *)

(** A service that reserves identifiers by reference, accepts every upload and
    serves the given objects. *)
Definition lookup_object (objects : list ReservedEncryptedUploadObject) (id : string)
  : option ReservedEncryptedUploadObject :=
  List.find (λ o, bool_decide (re_object_id o = id)) objects.

Definition store_target (o : ReservedEncryptedUploadObject) : ObjectDownloadTargetDescriptor :=
  {| dt_object_id := re_object_id o; dt_kind := re_kind o; dt_get_url := re_object_id o;
     dt_required_headers := []; dt_ciphertext_sha256 := sha256_hex (re_ciphertext o);
     dt_size_bytes := byte_len (re_ciphertext o) |}.

Definition store_net (objects : list ReservedEncryptedUploadObject) : TransferNet :=
  {| reserve_object_ids _ _ requests :=
       Ok ((λ r, {| ro_client_object_ref := or_client_object_ref r;
                    ro_object_id := "id-" +:+ or_client_object_ref r; ro_kind := or_kind r |}) <$> requests);
     create_object_upload_batch _ _ _ _ descriptors :=
       Ok ((λ d, {| ut_object_id := ud_object_id d; ut_put_url := ud_object_id d;
                    ut_required_headers := [] |}) <$> descriptors);
     complete_object_upload_batch _ _ _ _ completed :=
       Ok ((λ c, {| oc_object := Some {| um_object_id := cu_object_id c;
                                         um_ciphertext_sha256 := cu_ciphertext_sha256 c;
                                         um_size_bytes := cu_size_bytes c |};
                    oc_error_reason := None |}) <$> completed);
     create_object_download_batch _ _ _ ids :=
       try_map (λ id, ok_or (store_target <$> lookup_object objects id) (Transport "unknown object")) ids;
     http_put _ _ := Ok None;
     http_get _ request :=
       ok_or (re_ciphertext <$> lookup_object objects (get_url request)) (Network "unknown object");
     now_at _ := 0%Z; nanos_at _ := 0%Z |}.

Lemma lookup_object_in objects o :
  NoDup (re_object_id <$> objects) → o ∈ objects → lookup_object objects (re_object_id o) = Some o.
Proof.
  unfold lookup_object. induction objects as [|x objects IH]; simpl; [set_solver|].
  rewrite NoDup_cons. intros [Hx Hnd] [<-|Hin]%elem_of_cons; [by rewrite bool_decide_true|].
  rewrite bool_decide_false; [by apply IH|]. intros Heq. apply Hx. rewrite Heq. by apply list_elem_of_fmap_2.
Qed.

Lemma try_map_eq {E X Y} (f : X → Result E Y) (g : X → Y) l :
  (∀ x, x ∈ l → f x = Ok (g x)) → try_map f l = Ok (g <$> l).
Proof.
  intros Hf. apply try_map_Ok. apply Forall2_fmap_r, Forall_Forall2_diag, Forall_forall. exact Hf.
Qed.

Lemma store_serves objects ws dev us :
  NoDup (re_object_id <$> objects) → validate_transfer_ids ws dev = Ok tt →
  Forall (λ o, byte_len (re_ciphertext o) ≤ i64_max)%Z objects → us ⊆ objects →
  @download_objects _ (store_net objects) default_transfer_config ws dev (re_object_id <$> us)
  = Ok ((λ u, {| d_object_id := re_object_id u; d_kind := re_kind u;
                 d_ciphertext_sha256 := sha256_hex (re_ciphertext u); d_ciphertext := re_ciphertext u |})
          <$> us).
Proof.
  intros Hnd Hids Hsize Hsub.
  assert (Hturn : @download_turn _ (store_net objects) ws dev (re_object_id <$> us) 0 =
    Ok ((λ u, {| d_object_id := re_object_id u; d_kind := re_kind u;
                 d_ciphertext_sha256 := sha256_hex (re_ciphertext u); d_ciphertext := re_ciphertext u |})
          <$> us)).
  { unfold download_turn.
    assert (@create_object_download_batch (store_net objects) 0 ws dev (re_object_id <$> us)
            = Ok (store_target <$> us)) as ->.
    { apply try_map_Ok, Forall2_fmap, Forall_Forall2_diag, Forall_forall. intros u Hu.
      by rewrite lookup_object_in by (try done; by apply Hsub). }
    cbn [map_err mbind result_bind]. unfold download_attempt.
    apply try_map_Ok, Forall2_fmap, Forall_Forall2_diag, Forall_forall. intros u Hu.
    unfold download_target.
    assert (∀ h, @http_get (store_net objects) 0 {| get_url := re_object_id u; get_headers := h |}
            = Ok (re_ciphertext u)) as Hget.
    { intros h. cbn. by rewrite lookup_object_in by (try done; by apply Hsub). }
    unfold store_target at 1 2. cbn [dt_get_url]. rewrite Hget.
    cbn [ok_or map_err mbind result_bind dt_ciphertext_sha256 store_target].
    rewrite bool_decide_true by done. cbn [negb reject_if mbind result_bind].
    rewrite Forall_forall in Hsize. specialize (Hsize u (Hsub u Hu)).
    unfold checked_size, i64_try_from. rewrite (proj2 (Z.leb_le _ _)) by done.
    cbn [ok_or map_err mbind result_bind dt_size_bytes store_target]. by rewrite Z.eqb_refl. }
  unfold download_objects, download_loop. rewrite Hids. destruct us as [|u us]; [done|].
  cbn [mbind result_bind fmap list_fmap]. cbn [fmap list_fmap] in Hturn.
  cbn [attempt_loop default_transfer_config max_attempts]. by rewrite Hturn.
Qed.

(** A service whose history is [commits], with [head] and the given objects. *)
Definition service (head : SyncHead) (commits : list SyncCommitHeader)
    (objects : list ReservedEncryptedUploadObject) : Remote :=
  {| get_head _ := Ok head;
     list_commits _ after limit := Ok (honest_page commits after limit);
     transfer_config := default_transfer_config; transfer_net := store_net objects |}.
Definition no_head : SyncHead :=
  {| current_head_commit_id := ""; head_version := 0; latest_checkpoint_commit_id := "" |}.

(** ** A story: a device publishes the first commit of a workspace *)

Module Story.
Definition ok_or_default {E A} (a : A) (r : Result E A) : A := match r with Ok x => x | Err _ => a end.

Definition two_lines (a b : string) : bytes :=
  a +:+ String Merge.newline b +:+ String Merge.newline "".
Lemma ok_or_default_Ok {E A} (a : A) (r : Result E A) :
  (match r with Ok _ => true | Err _ => false end) = true → r = Ok (ok_or_default a r).
Proof. by destruct r. Qed.

Definition workspace_key : SymmetricKey := "0123456789abcdef0123456789abcdef".
Definition vault : Fs := list_to_map
  [(["v"], Dir); (["v"; "notes"], Dir); (["v"; "notes"; "a.md"], File (two_lines "one" "two") 7);
   (["v"; "b.md"], File "beta" 7)].
Definition push : PushInput :=
  {| ps_vault_id := "vault"; ps_vault_root := ["v"]; ps_workspace_id := "w"; ps_device_id := "device-a";
     ps_workspace_key := workspace_key; ps_signing_key := "signing"; ps_now_ms := 1000;
     ps_planner_config := default_config; ps_nonces := λ _, "nnnnnnnnnnnnnnnnnnnnnnnn" |}.
Definition scanned : list ScannedFile := ok_or_default [] (scan_vault vault ["v"]).
Definition plan : SyncPlan :=
  ok_or_default {| commit_kind := Incremental; tree_id := ""; tree_entries := []; file_ops := [];
                   pack_shards := [] |} (plan_checkpoint scanned default_config).
Definition empty_service : Remote := service no_head [] [].
Definition reserved : ReservedCommitObjects :=
  ok_or_default {| rc_body_object_id := ""; rc_pack_object_ids := ∅ |}
    (@reserve_commit_objects empty_service "w" "device-a" plan).
Definition prepared : PreparedCommit :=
  ok_or_default
    {| pp_tree_entries := []; pp_tree_id := ""; pp_commit_id := ""; pp_referenced := [];
       pp_body := {| b_format := ""; b_version := 0; b_commit_id := ""; b_commit_kind := "";
                     b_parent_commit_ids := []; b_tree_id := ""; b_changes := []; b_packs := [] |};
       pp_uploads := [] |} (prepare_commit push empty_db 1 "" [] plan reserved).
Definition uploaded : list UploadedObjectMetadata :=
  ok_or_default [] (@upload_reserved_objects _ (store_net []) default_transfer_config "w" "device-a"
                      ("upload_" +:+ pp_commit_id prepared) (pp_uploads prepared)).2.
Definition body_metadata : UploadedObjectMetadata :=
  default {| um_object_id := ""; um_ciphertext_sha256 := ""; um_size_bytes := 0 |}
    (List.find (λ m, bool_decide (um_object_id m = rc_body_object_id reserved)) uploaded).
Definition commit : PublishCommitInput :=
  ok_or_default
    {| pc_workspace_id := ""; pc_commit_id := ""; pc_commit_kind := KindUnspecified;
       pc_expected_head_commit_id := ""; pc_parent_commit_ids := []; pc_author_device_id := "";
       pc_device_seq := 0; pc_body_object_id := ""; pc_body_ciphertext_sha256 := "";
       pc_body_size_bytes := 0; pc_referenced_object_ids := []; pc_signature := "" |}
    (publish_input push 1 "" [] Checkpoint (rc_body_object_id reserved) prepared body_metadata).

(** The service once the commit is published, and a second device. *)
Definition published_head : SyncHead :=
  {| current_head_commit_id := pc_commit_id commit; head_version := 1;
     latest_checkpoint_commit_id := pc_commit_id commit |}.
#[local] Instance published_service : Remote :=
  service published_head [published_header commit 1] (pp_uploads prepared).
Definition pull : PullInput :=
  {| in_vault_id := "vault"; in_vault_root := ["v"]; in_workspace_id := "w"; in_device_id := "device-b";
     in_workspace_key := workspace_key; in_search := None; in_now_ms := 2000; in_clock := 9 |}.
Definition fresh_device : World :=
  {| w_fs := list_to_map [(["v"], Dir)]; w_db := empty_db; w_ledger := Some empty_ledger; w_notices := [] |}.
Definition pulled : PullRemoteChangesResult * World :=
  match pull_remote_changes 2 pull fresh_device with
  | Some (Ok res, w) => (res, w)
  | _ => ({| applied_commits := []; bootstrapped_from_checkpoint := false |}, fresh_device)
  end.
End Story.
