(* ===== verification/Devices.v ===== *)
(** * Devices that run sync

    Concrete devices on which the commands run: a first run that publishes the
    vault, a deletion that a status scan hides, and conflicts that are listed. *)
From Stdlib Require Import Ascii String.
#[local] Set Warnings "-clear-no-such-hyp".
From S2P Require Import Prelude Text SyncErrors Paths SyncDb Scanner Planner Crypto Keys AccountKeys.
From S2P Require Import Packer Watcher Commit Transfer SyncState VaultConfig Pull Push Account Commands Runs Toys.
Import Toys.Story.

#[local] Existing Instances Keys.Toy.keyring AccountKeys.Examples.serde
  Account.Examples.no_key_envelope_aad Account.Examples.kdf_json Account.Examples.json_kdf
  Account.Examples.wrap_json Account.Examples.json_wrap Account.Examples.json_workspace_wrap
  Account.Examples.rng Account.Examples.no_environment Account.Examples.store_api
  VaultConfig.Examples.config_json VaultConfig.Examples.json_config VaultConfig.Examples.json_version.

#[local] Instance host : Host :=
  {| home_dir := Some ["home"]; open_connection _ := Ok tt; canonicalize p := Some p |}.
#[local] Instance signed_in : Auth :=
  {| is_plugin_authorized := Ok true; authorization_header_for_plugin := Ok (Some "token") |}.

(** A workspace without commits, and a service that accepts the first one. *)
#[local] Instance accepts : Publisher := {| publish_commit input :=
  Ok {| pb_commit_id := pc_commit_id input; pb_head_version := 1; pb_idempotent := false |} |}.
#[local] Instance new_workspace_server : Server :=
  {| remote_at _ := empty_service; publisher_at _ := accepts; progress_at _ := [];
     nonces_at _ _ := "nnnnnnnnnnnnnnnnnnnnnnnn" |}.

Abbreviation Chain := (gmap (string * string) string).
Abbreviation Machine := (Device Chain Account.Examples.Store).

Definition config : SyncVaultConfig :=
  {| cf_vault_id := "vault"; cf_root_path := "/v"; cf_account_key_id := None;
     cf_remote_workspace_id := "w"; cf_workspace_name := Some "Notes"; cf_device_id := "device-a";
     cf_device_name := None; cf_remember_workspace_key := true; cf_passphrase := None |}.
Definition remembered (k : Result SyncError Chain) : Chain := ok_or_default ∅ k.
Definition chain : Chain :=
  let k := remembered (remember_workspace_key None "vault" ∅ workspace_key) in
  remembered (remember_device_signing_key None "vault" k workspace_key).
Definition inner : SyncInner :=
  {| st_status := configured_status 900 config true None; st_active_run_id := None; st_next_run_id := 1 |}.

(** A configured device with two notes that was never synced. *)
Definition device (fs : Fs) : Machine :=
  {| de_state := inner;
     de_setup := {| se_keys := chain; se_draws := 0;
                    se_service := {| Account.Examples.st_account := None;
                                     Account.Examples.st_envelope_list := [];
                                     Account.Examples.st_workspaces := [] |} |};
     de_fs := fs; de_dbs := ∅; de_ledger := empty_ledger; de_notices := []; de_emitted := [] |}.
Definition no_search (n : SearchNotice) : Result string unit := Ok tt.
(** The database of the vault. *)
Definition sync_path : AbsPath := ok_or_default [] (sync_db_path (data_root None ["home"]) "vault").
Abbreviation first_run := (sync_run_once None 1000 9 no_search 2 None None (device vault)).

(** The evaluation the next statements share. *)
Lemma first_run_facts :
  match first_run with
  | Some (Ok status, d) =>
      completed 1000 status ∧ db_conflicts <$> (de_dbs d !! sync_path) = Some ∅ ∧
      v_local_head_commit_id <$> (get_vault (database sync_path d) "vault") = Some (Some (pc_commit_id Story.commit))
  | _ => False
  end.
Proof. vm_compute. repeat split; reflexivity. Qed.

(** ** A first run *)

Lemma sync_run_once_witness : ∃ status d',
  first_run = Some (Ok status, d') ∧ st_status (de_state d') = status ∧ completed 1000 status.
Proof.
  pose proof first_run_facts as Hfacts. destruct first_run as [[[status|e] d']|] eqn:Hrun; [|destruct Hfacts..].
  exists status, d'. split; [reflexivity|].
  exact (proj2 (sync_run_once_outcome None 1000 9 no_search 2 None None (device vault) d' (Ok status) Hrun)).
Defined.

(** ** A restart *)

(** The vault with its configuration file, and the application just started. *)
Definition saved_vault : Fs :=
  (write_sync_config_with_status 9 vault ["v"] config true 900 default_status_file).2.
Definition started : Machine := set_state (SyncState.new 800) (device saved_vault).
Abbreviation opened := (restore_vault_config_for_root None 1000 ["v"] started).2.
Abbreviation restarted_run := (sync_run_once None 1000 9 no_search 2 None None opened).

Lemma restarted_facts :
  match restarted_run with
  | Some (Ok _, d) => rt_configured (st_status (de_state d)) = true
  | _ => False
  end.
Proof. vm_compute. reflexivity. Qed.

Lemma commands_keep_state_witness : ∃ d', rtc (any_command None) started d' ∧
  rt_configured (st_status (de_state d')) = true ∧ state_ok (de_state d').
Proof.
  pose proof restarted_facts as Hfacts. destruct restarted_run as [[[s|e] d']|] eqn:Hrun; [|destruct Hfacts..].
  exists d'.
  assert (Hd : rtc (any_command None) started d').
  { apply (rtc_l _ _ opened); [|apply rtc_once].
    - exists _, _, _, _, _, _, 1000%Z, 9%Z, no_search. eapply (command_open_vault None 1000 9 no_search ["v"]).
      apply surjective_pairing.
    - exists _, _, _, _, _, _, 1000%Z, 9%Z, no_search. eapply command_run. exact Hrun. }
  split; [exact Hd|]. split; [exact Hfacts|].
  apply (commands_keep_state_ok None started d'); [|exact Hd]. exists 800%Z. reflexivity.
Defined.

(** ** Conflicts *)

Definition conflict (id copy : string) : SyncConflictRecord :=
  {| k_conflict_id := id; k_path := "a.md"; k_conflict_path := copy; k_base_commit_id := None;
     k_local_commit_id := None; k_remote_commit_id := None; k_status := "open"; k_created_at_ms := 5 |}.
Definition conflicted : Machine :=
  set_database sync_path
    (upsert_conflict (upsert_conflict empty_db (conflict "c1" "b.md")) (conflict "c2" "gone.md")) (device vault).
Abbreviation listed := (Commands.list_open_conflicts None 1000 (st_status inner) conflicted).

Lemma conflicted_keyed : conflicts_keyed (init_schema (database sync_path conflicted)).
Proof.
  assert (Hdec : map_Forall (λ id k, k_conflict_id k = id)
                   (db_conflicts (init_schema (database sync_path conflicted)))).
  { apply (bool_decide_unpack _). vm_compute. exact I. }
  exact Hdec.
Qed.
Lemma listed_facts :
  match listed with
  | (Ok l, _) => cs_conflict_id <$> l = ["c1"]
  | _ => False
  end ∧ copy_present vault (Some ["v"]) (conflict "c2" "gone.md") = false.
Proof. vm_compute. split; reflexivity. Qed.

Lemma open_conflicts_listed_witness : ∃ l d',
  listed = (Ok l, d') ∧ cs_conflict_id <$> l = ["c1"] ∧
  conflict "c2" "gone.md" ∉ SyncDb.list_open_conflicts (database sync_path d').
Proof.
  pose proof listed_facts as [Hfacts Hgone].
  destruct listed as [[l|e] d'] eqn:Hl; [|destruct Hfacts]. exists l, d'.
  split; [reflexivity|]. split; [exact Hfacts|].
  assert (Hhome : home_dir = Some ["home"]) by reflexivity.
  assert (Hpath : sync_db_path (data_root None ["home"]) "vault" = Ok sync_path) by (vm_compute; reflexivity).
  assert (Hdb : is_Some (de_dbs conflicted !! sync_path)) by (eexists; reflexivity).
  destruct (open_conflicts_listed None 1000 (st_status inner) "vault" ["home"] sync_path conflicted d' l
    eq_refl Hhome Hpath Hdb conflicted_keyed Hl) as (_ & Hopen & _).
  intros Hin. apply Hopen in Hin as [_ Hpresent]. vm_compute in Hpresent, Hgone. congruence.
Defined.

(** ** A deletion that a status check hides *)

(** The device once the first run published the vault, and a service at that head. *)
Definition synced : Machine := match first_run with Some (_, d) => d | None => device vault end.
Definition synced_server : Server :=
  {| remote_at _ := published_service; publisher_at _ := accepts; progress_at _ := [];
     nonces_at _ _ := "nnnnnnnnnnnnnnnnnnnnnnnn" |}.
Definition after_deletion : Machine := set_files (base.delete ["v"; "b.md"] (de_fs synced)) synced.
Definition next_run (d : Machine) : option (SyncResult SyncRuntimeStatus * Machine) :=
  let server : Server := synced_server in sync_run_once None 2000 9 no_search 2 None None d.
Definition published_count (r : option (SyncResult SyncRuntimeStatus * Machine)) : option Z :=
  match r with
  | Some (Ok _, d) => v_next_device_seq <$> get_vault (database sync_path d) "vault"
  | _ => None
  end.

(** A note is deleted and sync runs: the deletion is published. When the status was
    looked up in between, whose scan already marked the row as deleted, the next
    run publishes nothing: its plan holds only the rows that its own scan marked. *)
Example status_scan_hides_deletion :
  published_count (next_run after_deletion) = Some 3%Z ∧
  published_count (next_run (status_with_conflicts None 1500 true after_deletion).2) = Some 2%Z ∧
  rt_pending_uploads <$> (match (status_with_conflicts None 1500 true after_deletion).1 with
                          | Ok s => Some s | Err _ => None end) = Some 1%Z.
Proof. vm_compute. repeat split; reflexivity. Qed.
