(* ===== verification/PushPull.v ===== *)
(** * What is published can be pulled (sync/checkpoint.rs against sync/applier.rs)

    The commit a device prepares decrypts, on a device with the workspace key, to
    the body that was written and the packs that were planned; replaying it gives
    a tree with the published tree identifier, the one the publisher caches. *)
From Stdlib Require Import Ascii String.
#[local] Set Warnings "-clear-no-such-hyp".
From S2P Require Import Prelude SyncErrors Paths SyncDb Scanner Planner Crypto Keys Packer Watcher.
From S2P Require Import Commit Transfer Pull Push.
From S2P Require Import Toys.

(** ** Sorting and maps *)

Lemma btree_values_fmap {V W} (f : V → W) (m : gmap string V) :
  btree_values (f <$> m) = f <$> btree_values m.
Proof.
  unfold btree_values.
  assert (Hs : sort_by (leb_on fst) (map_to_list (f <$> m))
             = sort_by (leb_on fst) (prod_map id f <$> map_to_list m)).
  { apply sort_by_key_unique; [by rewrite map_to_list_fmap|apply NoDup_fst_map_to_list]. }
  rewrite Hs, (sort_by_fmap (prod_map id f) (leb_on fst)) by done.
  rewrite <- !list_fmap_compose. by apply list_fmap_ext.
Qed.

Lemma tree_entries_sorted_fmap f (t : Tree) :
  (∀ e, t_normalized_path (f e) = t_normalized_path e) →
  tree_entries_sorted (f <$> t) = f <$> tree_entries_sorted t.
Proof.
  intros Hf. unfold tree_entries_sorted. rewrite btree_values_fmap.
  apply sort_by_fmap. intros a b. unfold leb_on. by rewrite !Hf.
Qed.

(** ** Trees of the publisher and of the puller *)

Lemma adopt_commit_path cid e : t_normalized_path (adopt_commit cid e) = t_normalized_path e.
Proof. unfold adopt_commit. by destruct (str_is_empty _). Qed.
Lemma tree_cache_entry_body_adopt cid entries :
  tree_cache_entry_body (adopt_commit cid <$> entries) = tree_cache_entry_body entries.
Proof.
  unfold tree_cache_entry_body. rewrite <- list_fmap_compose. apply list_fmap_ext.
  intros i e _. simpl. unfold adopt_commit. by destruct (str_is_empty _).
Qed.

(** Every entry of the tree already belongs to a commit. *)
Definition adopted (tree : Tree) : Prop := ∀ id e, tree !! id = Some e → t_commit_id e ≠ "".
Lemma adopt_adopted cid tree : adopted tree → adopt_commit cid <$> tree = tree.
Proof.
  intros Ha. apply map_eq. intros id. rewrite lookup_fmap. destruct (tree !! id) as [e|] eqn:He; [|done].
  simpl. unfold adopt_commit. apply Ha in He. by destruct (t_commit_id e).
Qed.

Section agreement.
Context `{Unicode, Blake3, CryptoLib}.
Context `{!Serialize (list TreeCacheEntryBody)}.

(** A change the puller accepts. *)
Definition acceptable (commit : DecryptedCommit) (change : CommitBodyFileOp) : Prop :=
  match change with
  | UpsertFile file_id path normalized_path plaintext_hash size content_ref =>
      validate_remote_file_identity file_id path normalized_path = Ok tt ∧
      ∃ plaintext, pack_entry_plaintext (dc_packs commit) content_ref = Ok plaintext ∧
        validate_plaintext_metadata path plaintext plaintext_hash size = Ok tt
  | DeleteFile file_id path normalized_path =>
      validate_remote_file_identity file_id path normalized_path = Ok tt
  end.

Lemma materialize_step_agrees reserved commit op change t t1 cid :
  h_commit_id (dc_header commit) = cid →
  commit_body_file_op reserved op = Ok change → materialize_op reserved t op = Ok t1 →
  acceptable commit change →
  materialize_change commit (adopt_commit cid <$> t) change = Ok (adopt_commit cid <$> t1).
Proof.
  intros Hcid Hop Ht Hacc. destruct op as [fid path np hash sz pref eid|fid path np]; simpl in Hop, Ht.
  - apply bind_Ok_inv in Hop as (oid & Hoid & [= <-]). rewrite Hoid in Ht. injection Ht as <-.
    destruct Hacc as (Hid & plaintext & Hp & Hm). simpl. rewrite Hid. simpl. rewrite Hp. simpl.
    rewrite Hm. simpl. rewrite fmap_insert, Hcid. done.
  - injection Hop as <-. injection Ht as <-. simpl in *. rewrite Hacc. simpl. by rewrite fmap_delete.
Qed.

Lemma materialize_agrees reserved commit ops changes t t1 cid :
  h_commit_id (dc_header commit) = cid →
  try_map (commit_body_file_op reserved) ops = Ok changes →
  try_fold (materialize_op reserved) t ops = Ok t1 → Forall (acceptable commit) changes →
  try_fold (materialize_change commit) (adopt_commit cid <$> t) changes = Ok (adopt_commit cid <$> t1).
Proof.
  intros Hcid Hmap%try_map_Ok. revert t. induction Hmap as [|op change ops changes Hop _ IH]; intros t; simpl.
  - by intros [= <-].
  - intros (t2 & Ht & Hf)%bind_Ok_inv [Hacc Hall]%Forall_cons.
    rewrite (materialize_step_agrees _ _ _ _ _ _ _ Hcid Hop Ht Hacc). simpl. by apply IH.
Qed.
End agreement.

(** ** What was uploaded decrypts *)

(** The service's answer for a download of uploaded objects. *)
Definition stored `{CryptoLib} (u : ReservedEncryptedUploadObject) : DownloadedObject :=
  {| d_object_id := re_object_id u; d_kind := re_kind u;
     d_ciphertext_sha256 := sha256_hex (re_ciphertext u); d_ciphertext := re_ciphertext u |}.

(** The reservation names exactly the packs of the plan, each with its own,
    non-blank object identifier. *)
Record reserved_for (plan : SyncPlan) (reserved : ReservedCommitObjects) : Prop := {
  rf_refs : NoDup (p_pack_ref <$> pack_shards plan);
  rf_dom : dom (rc_pack_object_ids reserved) = list_to_set (p_pack_ref <$> pack_shards plan);
  rf_inj r r' id : rc_pack_object_ids reserved !! r = Some id →
    rc_pack_object_ids reserved !! r' = Some id → r = r';
  rf_ids r id : rc_pack_object_ids reserved !! r = Some id →
    validate_required id "pack.object_id" = Ok tt }.

Section decrypts.
Context `{Unicode, Blake3, Os, Sqlite, CryptoLaws, KeyLib, PackLaws, PlannerText, Remote}.
Context `{!Serialize PackIndex, !Deserialize PackIndex, !Serialize PackAad, !SerdeLaws PackIndex,
          !Serialize CommitBodyAad, !Serialize CommitBody, !Deserialize CommitBody,
          !SerdeLaws CommitBody, !Serialize (list TreeCacheEntryBody), !Serialize (list string),
          !Serialize CommitIdentity, !Serialize CommitSignaturePayload}.

(** The upload of a shard. *)
Definition shard_upload (input : PushInput) (cid : string) (reserved : ReservedCommitObjects)
    (shard : PackShardPlan) (u : ReservedEncryptedUploadObject) : Prop :=
  rc_pack_object_ids reserved !! p_pack_ref shard = Some (re_object_id u) ∧
  object_kind_for_pack_kind (p_pack_kind shard) = Ok (re_kind u) ∧
  ∃ i p, encrypt_pack (ps_nonces input i) (ps_workspace_key input) (ps_workspace_id input)
           (re_object_id u) (p_pack_kind shard) cid (pack_entries shard) = Ok p ∧
         re_ciphertext u = ep_blob p.

Lemma encrypt_shards_Ok input cid reserved shards ups0 ups :
  try_fold (encrypt_shard input cid reserved) ups0 shards = Ok ups →
  ∃ new, ups = ups0 ++ new ∧ Forall2 (shard_upload input cid reserved) shards new.
Proof.
  revert ups0. induction shards as [|shard shards IH]; intros ups0; simpl.
  - intros [= <-]. exists []. by rewrite app_nil_r.
  - intros Hf. apply bind_Ok_inv in Hf as (ups1 & Hstep & Hf). apply IH in Hf as (new & -> & Hnew).
    unfold encrypt_shard in Hstep. apply bind_Ok_inv in Hstep as (oid & Hoid%ok_or_Ok & Hstep).
    apply bind_Ok_inv in Hstep as (p & Hp & Hstep). apply bind_Ok_inv in Hstep as (kind & Hk & [= <-]).
    eexists (_ :: new). rewrite <- app_assoc. split; [reflexivity|]. constructor; [|done].
    split_and!; simpl; try done. by eexists _, p.
Qed.

(** The reference the body keeps to a shard, and the pack the puller reads. *)
Definition pack_ref_of (shard : PackShardPlan) (u : ReservedEncryptedUploadObject) : CommitBodyPackRef :=
  {| pr_pack_ref := p_pack_ref shard; pr_object_id := re_object_id u; pr_pack_kind := p_pack_kind shard;
     pr_shard_index := p_shard_index shard; pr_entry_count := length (p_entries shard) |}.

Definition pack_read (shard : PackShardPlan) (u : ReservedEncryptedUploadObject)
    (packs : gmap string UnpackedPack) : Prop :=
  ∃ up, packs !! re_object_id u = Some up ∧
    ∀ e, e ∈ p_entries shard → up_entries up !! e_entry_id e = Some (e_plaintext e).

Lemma body_pack_refs input cid plan reserved new :
  Forall2 (shard_upload input cid reserved) (pack_shards plan) new →
  commit_body_pack_refs plan reserved = zip_with pack_ref_of (pack_shards plan) new.
Proof.
  unfold commit_body_pack_refs. induction 1 as [|shard u shards new [Hoid _] _ IH]; [done|].
  simpl. rewrite Hoid. simpl. f_equal. exact IH.
Qed.

Lemma upload_ids_NoDup input cid plan reserved new :
  reserved_for plan reserved → Forall2 (shard_upload input cid reserved) (pack_shards plan) new →
  NoDup (re_object_id <$> new).
Proof.
  intros Hr Hf. pose proof (rf_refs _ _ Hr) as Hnd. revert Hnd.
  induction Hf as [|shard u shards new (Hoid & _) Hf IH]; [constructor|].
  rewrite !fmap_cons, !NoDup_cons. intros [Hnot Hnd]. split; [|by apply IH].
  intros (u' & Heq & Hin)%list_elem_of_fmap. apply list_elem_of_lookup in Hin as [i Hi].
  destruct (Forall2_lookup_r _ _ _ _ _ Hf Hi) as (shard' & Hs & (Hoid' & _)).
  rewrite <- Heq in Hoid'. apply Hnot. rewrite (rf_inj _ _ Hr _ _ _ Hoid Hoid').
  apply list_elem_of_fmap_2. by eapply list_elem_of_lookup_2.
Qed.

Lemma upload_ids_perm input cid plan reserved new :
  reserved_for plan reserved → Forall2 (shard_upload input cid reserved) (pack_shards plan) new →
  re_object_id <$> new ≡ₚ btree_values (rc_pack_object_ids reserved).
Proof.
  intros Hr Hf. unfold btree_values. rewrite sort_by_perm.
  apply NoDup_Permutation; [by eapply upload_ids_NoDup| |].
  - rewrite <- (list_fmap_id (map_to_list _)), <- list_fmap_compose.
    apply NoDup_fmap_2_strong; [|apply NoDup_map_to_list].
    intros [r id] [r' id'] Hx%elem_of_map_to_list Hy%elem_of_map_to_list Heq. simpl in Heq. subst id'.
    by rewrite (rf_inj _ _ Hr _ _ _ Hx Hy).
  - intros id. split.
    + intros (u & -> & [i Hi]%list_elem_of_lookup)%list_elem_of_fmap.
      destruct (Forall2_lookup_r _ _ _ _ _ Hf Hi) as (shard & _ & (Hoid & _)).
      apply list_elem_of_fmap. exists (p_pack_ref shard, re_object_id u). split; [done|].
      by apply elem_of_map_to_list.
    + intros ([r id'] & -> & Hin%elem_of_map_to_list)%list_elem_of_fmap. simpl.
      assert (Hdom : r ∈ dom (rc_pack_object_ids reserved)) by (by apply elem_of_dom_2 in Hin).
      rewrite (rf_dom _ _ Hr), elem_of_list_to_set in Hdom.
      apply list_elem_of_fmap in Hdom as (shard & -> & [i Hi]%list_elem_of_lookup).
      destruct (Forall2_lookup_l _ _ _ _ _ Hf Hi) as (u & Hu & (Hoid & _)).
      rewrite Hoid in Hin. injection Hin as <-. apply list_elem_of_fmap_2. by eapply list_elem_of_lookup_2.
Qed.

Lemma validate_packs_Ok input cid reserved shards new seen :
  (∀ r id, rc_pack_object_ids reserved !! r = Some id → validate_required id "pack.object_id" = Ok tt) →
  Forall2 (shard_upload input cid reserved) shards new →
  NoDup (re_object_id <$> new) → (∀ u, u ∈ new → re_object_id u ∉ seen) →
  ∃ seen', try_fold validate_pack seen (zip_with pack_ref_of shards new) = Ok seen'.
Proof.
  intros Hids Hf. revert seen. induction Hf as [|shard u shards new (Hoid & Hkind & _) _ IH]; intros seen Hnd Hseen.
  { by eexists. }
  apply NoDup_cons in Hnd as [Hnot Hnd]. simpl. unfold validate_pack at 2. simpl.
  rewrite (Hids _ _ Hoid). simpl. rewrite bool_decide_false by (apply Hseen; set_solver). simpl.
  rewrite Hkind. simpl. apply IH; [done|]. intros u' Hu' [Heq|Hin]%elem_of_cons.
  - apply Hnot. rewrite <- Heq. by apply list_elem_of_fmap_2.
  - revert Hin. apply Hseen. set_solver.
Qed.

Section reading.
Context (input : PushInput) (pin : PullInput) (reserved : ReservedCommitObjects).
Context (header : SyncCommitHeader).
Hypothesis (Hkey : in_workspace_key pin = ps_workspace_key input).
Hypothesis (Hws : in_workspace_id pin = ps_workspace_id input).
Hypothesis (Hnonce : ∀ i, String.length (ps_nonces input i) = 24).

Lemma decrypt_packs_Ok shards new downloads packs0 :
  Forall2 (shard_upload input (h_commit_id header) reserved) shards new →
  NoDup (re_object_id <$> new) → (∀ u, u ∈ new → downloads !! re_object_id u = Some (stored u)) →
  ∃ packs, try_fold (decrypt_commit_pack pin header downloads) packs0
             (zip_with pack_ref_of shards new) = Ok packs ∧
    (∀ k, k ∉ re_object_id <$> new → packs !! k = packs0 !! k) ∧
    Forall2 (λ shard u, pack_read shard u packs) shards new.
Proof.
  intros Hf. revert packs0. induction Hf as [|shard u shards new (Hoid & Hkind & i & p & Hp & Hct) Hf IH];
    intros packs0 Hnd Hdl; [by exists packs0|].
  apply NoDup_cons in Hnd as [Hnot Hnd].
  destruct (decrypt_encrypted_pack _ _ _ _ _ _ _ _ (Hnonce i) Hp) as (up & Hup & _ & Hindex & _ & Hall).
  destruct (IH (<[re_object_id u := up]> packs0) Hnd) as (packs & Hfold & Hother & Hread);
    [intros; apply Hdl; set_solver|]. exists packs.
  assert (Hup' : packs !! re_object_id u = Some up) by (by rewrite Hother, lookup_insert_eq).
  split_and!.
  - simpl. unfold decrypt_commit_pack at 2. cbn [pack_ref_of pr_object_id pr_pack_kind pr_entry_count].
    rewrite Hdl by set_solver. cbn [ok_or mbind result_bind]. unfold validate_downloaded_pack.
    cbn [stored d_object_id d_kind d_ciphertext pr_object_id pr_pack_kind].
    rewrite bool_decide_true by done. cbn [negb reject_if mbind result_bind].
    change (pr_pack_kind (pack_ref_of shard u)) with (p_pack_kind shard). rewrite Hkind. cbn [mbind result_bind]. rewrite bool_decide_true by done.
    cbn [negb reject_if mbind result_bind]. rewrite Hkey, Hws, Hct, Hup. cbn [mbind result_bind].
    rewrite Hindex, length_fmap, length_sort_by. unfold pack_entries. rewrite length_fmap, Nat.eqb_refl.
    cbn [negb reject_if mbind result_bind]. exact Hfold.
  - intros k Hk. rewrite fmap_cons, not_elem_of_cons in Hk. destruct Hk as [Hne Hk].
    rewrite Hother by done. by rewrite lookup_insert_ne.
  - constructor; [|done]. exists up. split; [done|]. intros e He.
    apply (Hall {| pe_entry_id := e_entry_id e; pe_plaintext := e_plaintext e |}).
    unfold pack_entries. apply list_elem_of_fmap. by exists e.
Qed.
End reading.

(** *** The published commit *)

(** An operation whose file the plan packs, as the puller will check it. *)
Definition op_sound (plan : SyncPlan) (op : PlanFileOp) : Prop :=
  match op with
  | Upsert file_id path normalized_path plaintext_hash size pack_ref pack_entry_id =>
      validate_remote_file_identity file_id path normalized_path = Ok tt ∧
      ∃ shard e, shard ∈ pack_shards plan ∧ p_pack_ref shard = pack_ref ∧ e ∈ p_entries shard ∧
        e_entry_id e = pack_entry_id ∧
        validate_plaintext_metadata path (e_plaintext e) plaintext_hash size = Ok tt
  | Delete file_id path normalized_path =>
      validate_remote_file_identity file_id path normalized_path = Ok tt
  end.

Lemma op_sound_acceptable input cid reserved plan new commit op change :
  Forall2 (shard_upload input cid reserved) (pack_shards plan) new →
  Forall2 (λ shard u, pack_read shard u (dc_packs commit)) (pack_shards plan) new →
  commit_body_file_op reserved op = Ok change → op_sound plan op → acceptable commit change.
Proof.
  intros Hups Hread Hop Hsound. destruct op as [fid path np hash sz pref eid|fid path np]; simpl in Hop.
  2:{ injection Hop as <-. exact Hsound. }
  apply bind_Ok_inv in Hop as (oid & Hoid%ok_or_Ok & [= <-]).
  destruct Hsound as (Hid & shard & e & [i Hi]%list_elem_of_lookup & <- & He & <- & Hmeta).
  split; [done|]. exists (e_plaintext e). split; [|done].
  destruct (Forall2_lookup_l _ _ _ _ _ Hups Hi) as (u & Hu & (Huid & _)).
  rewrite Hoid in Huid. injection Huid as ->.
  destruct (Forall2_lookup_l _ _ _ _ _ Hread Hi) as (u' & Hu' & (up & Hup & Hall)).
  rewrite Hu in Hu'. injection Hu' as <-.
  unfold pack_entry_plaintext. simpl. rewrite Hup. simpl. by rewrite Hall.
Qed.

Section published.
Context (input : PushInput) (pin : PullInput) (db : Db) (device_seq : Z) (expected_head : string).
Context (parents : list string) (plan : SyncPlan) (reserved : ReservedCommitObjects).
Context (prepared : PreparedCommit) (uploaded : list UploadedObjectMetadata).
Context (bm : UploadedObjectMetadata) (pc : PublishCommitInput) (server_seq : Z).
Hypothesis (Hkey : in_workspace_key pin = ps_workspace_key input).
Hypothesis (Hws : in_workspace_id pin = ps_workspace_id input).
Hypothesis (Hnonce : ∀ i, String.length (ps_nonces input i) = 24).
Hypothesis (Hres : reserved_for plan reserved).
Hypothesis (Hbody_id : ∀ r, rc_pack_object_ids reserved !! r ≠ Some (rc_body_object_id reserved)).
Hypothesis (Hprep : prepare_commit input db device_seq expected_head parents plan reserved = Ok prepared).
Hypothesis (Hup : (upload_reserved_objects transfer_config (ps_workspace_id input) (ps_device_id input)
                     ("upload_" +:+ pp_commit_id prepared) (pp_uploads prepared)).2 = Ok uploaded).
Hypothesis (Hbm : List.find (λ m, bool_decide (um_object_id m = rc_body_object_id reserved)) uploaded
                  = Some bm).
Hypothesis (Hpc : publish_input input device_seq expected_head parents (commit_kind plan)
                    (rc_body_object_id reserved) prepared bm = Ok pc).
Hypothesis (Hserve : ∀ us, us ⊆ pp_uploads prepared →
  download_objects transfer_config (in_workspace_id pin) (in_device_id pin) (re_object_id <$> us)
  = Ok (stored <$> us)).

(** What a prepared commit consists of. *)
Lemma prepare_commit_inv : ∃ t0 t1 changes new body_plaintext body_blob,
  t0 = (if str_is_empty expected_head then ∅
        else insert_all ∅ ((λ e, (t_file_id e, e)) <$> list_tree_entries db expected_head)) ∧
  try_fold (materialize_op reserved) t0 (file_ops plan) = Ok t1 ∧
  pp_tree_entries prepared = tree_entries_sorted t1 ∧
  tree_id_for_entries (tree_entries_sorted t1) = Ok (pp_tree_id prepared) ∧
  commit_body_file_ops plan reserved = Ok changes ∧
  pp_commit_id prepared ≠ "" ∧
  pp_referenced prepared = sort_by str_leb (btree_values (rc_pack_object_ids reserved)) ∧
  pp_body prepared = {| b_format := "kuku.sync.commit-body"; b_version := 1;
    b_commit_id := pp_commit_id prepared; b_commit_kind := push_commit_kind_label (commit_kind plan);
    b_parent_commit_ids := parents; b_tree_id := pp_tree_id prepared; b_changes := changes;
    b_packs := commit_body_pack_refs plan reserved |} ∧
  Forall2 (shard_upload input (pp_commit_id prepared) reserved) (pack_shards plan) new ∧
  to_vec (pp_body prepared) = Ok body_plaintext ∧
  encrypt_commit_body (ps_nonces input (length new)) (commit_body_key (ps_workspace_key input) (ps_workspace_id input))
    (CommitBodyAad_new (ps_workspace_id input) (pp_commit_id prepared)
       (push_commit_kind_label (commit_kind plan)) parents (ps_device_id input) device_seq
       (rc_body_object_id reserved)) body_plaintext = Ok body_blob ∧
  pp_uploads prepared = new ++ [{| re_object_id := rc_body_object_id reserved; re_kind := ObjCommitBody;
                                   re_ciphertext := body_blob |}].
Proof using Hprep.
  unfold prepare_commit in Hprep. clear -Hprep.
  apply bind_Ok_inv in Hprep as (entries & Hmat & Hp). unfold materialize_tree_entries in Hmat.
  apply bind_Ok_inv in Hmat as (t1 & Hfold & [= <-]).
  apply bind_Ok_inv in Hp as (tid & Htid & Hp). apply bind_Ok_inv in Hp as (changes & Hch & Hp).
  apply bind_Ok_inv in Hp as (cid & Hcid & Hp). apply bind_Ok_inv in Hp as (uploads & Hups & [= <-]).
  unfold encrypted_uploads in Hups. apply bind_Ok_inv in Hups as (ups & Hshards & Hups).
  apply bind_Ok_inv in Hups as (plain & Hplain & Hups). apply bind_Ok_inv in Hups as (blob & Hblob & [= <-]).
  apply encrypt_shards_Ok in Hshards as (new & -> & Hnew). simpl in *.
  eexists _, t1, changes, new, plain, blob. split_and!; try done.
  unfold commit_id_for in Hcid. by apply bind_Ok_inv in Hcid as (json & _ & [= <-]).
Qed.

Lemma publish_input_inv : ∃ signature,
  pc = {| pc_workspace_id := ps_workspace_id input; pc_commit_id := pp_commit_id prepared;
     pc_commit_kind := proto_commit_kind (commit_kind plan); pc_expected_head_commit_id := expected_head;
     pc_parent_commit_ids := parents; pc_author_device_id := ps_device_id input;
     pc_device_seq := device_seq; pc_body_object_id := rc_body_object_id reserved;
     pc_body_ciphertext_sha256 := um_ciphertext_sha256 bm; pc_body_size_bytes := um_size_bytes bm;
     pc_referenced_object_ids := pp_referenced prepared; pc_signature := signature |}.
Proof using Hpc.
  unfold publish_input in Hpc. clear -Hpc. apply bind_Ok_inv in Hpc as (signature & _ & [= <-]).
  by exists signature.
Qed.

(** The metadata of the body upload are those of the encrypted body. *)
Lemma body_metadata_inv new body_blob :
  Forall2 (shard_upload input (pp_commit_id prepared) reserved) (pack_shards plan) new →
  pp_uploads prepared = new ++ [{| re_object_id := rc_body_object_id reserved; re_kind := ObjCommitBody;
                                   re_ciphertext := body_blob |}] →
  um_ciphertext_sha256 bm = sha256_hex body_blob ∧
  um_size_bytes bm = size_bytes (encrypted_blob_metadata body_blob).
Proof using Hup Hbm Hbody_id.
  intros Hnew Huploads.
  apply SyncDb.list_find_Some in Hbm as [Hin Hid%bool_decide_eq_true].
  destruct (upload_reserved_objects_Ok _ _ _ _ _ _ Hup) as (_ & Hmeta); [by rewrite Huploads; destruct new|].
  destruct (Hmeta _ Hin) as (o & Ho & (Hoid & Hh & Hs) & Hmax).
  rewrite Huploads in Ho. apply elem_of_app in Ho as [[i Hi]%list_elem_of_lookup| ->%list_elem_of_singleton].
  - destruct (Forall2_lookup_r _ _ _ _ _ Hnew Hi) as (shard & _ & (Hsid & _)).
    rewrite <- Hoid, Hid in Hsid. by apply Hbody_id in Hsid.
  - simpl in *. split; [done|]. rewrite Hs. lia.
Qed.

Lemma published_commit_decrypts :
  ∃ commit new,
    decrypt_commit pin (published_header pc server_seq) = Ok commit ∧
    dc_header commit = published_header pc server_seq ∧ dc_body commit = pp_body prepared ∧
    Forall2 (shard_upload input (pp_commit_id prepared) reserved) (pack_shards plan) new ∧
    Forall2 (λ shard u, pack_read shard u (dc_packs commit)) (pack_shards plan) new.
Proof using All.
  destruct prepare_commit_inv as (t0 & t1 & changes & new & plain & blob & _ & _ & _ & _ & _ & _ &
    Hreferenced & Hbody & Hnew & Hplain & Hblob & Huploads).
  destruct publish_input_inv as (signature & Hpc_eq).
  destruct (body_metadata_inv new blob Hnew Huploads) as [Hsha Hsize].
  set (header := published_header pc server_seq) in *.
  assert (Hcid : h_commit_id header = pp_commit_id prepared) by (unfold header; by rewrite Hpc_eq).
  set (body_upload := {| re_object_id := rc_body_object_id reserved; re_kind := ObjCommitBody;
                         re_ciphertext := blob |}) in *.
  pose proof (upload_ids_NoDup _ _ _ _ _ Hres Hnew) as Hids.
  set (downloads := insert_all ∅ ((λ o, (d_object_id o, o)) <$> (stored <$> new))).
  destruct (decrypt_packs_Ok input pin reserved header Hkey Hws Hnonce (pack_shards plan) new downloads ∅)
    as (packs & Hpacks & _ & Hread); [by rewrite Hcid|done| |].
  { intros u Hu. apply lookup_insert_all.
    - rewrite <- !list_fmap_compose. exact Hids.
    - rewrite <- list_fmap_compose. apply list_elem_of_fmap. by exists u. }
  exists {| dc_header := header; dc_body := pp_body prepared; dc_packs := packs |}, new.
  split_and!; [|done..].
  pose proof (Hserve [body_upload]) as Hdl_body. pose proof (Hserve new) as Hdl_packs.
  rewrite Huploads in Hdl_body, Hdl_packs.
  specialize (Hdl_body ltac:(set_solver)). specialize (Hdl_packs ltac:(set_solver)).
  assert (Hdown : download_one (in_workspace_id pin) (in_device_id pin) (h_body_object_id header)
                  = Ok (stored body_upload)).
  { unfold download_one. replace [h_body_object_id header] with (re_object_id <$> [body_upload]).
    - by rewrite Hdl_body.
    - unfold header. by rewrite Hpc_eq. }
  assert (Hvalid : validate_downloaded_commit_body header (stored body_upload) = Ok tt).
  { unfold validate_downloaded_commit_body, header. rewrite Hpc_eq. cbn.
    rewrite !bool_decide_true by done. cbn. rewrite Hsize, Z.eqb_refl. done. }
  assert (Hkind : commit_kind_label (h_commit_kind header) = Ok (push_commit_kind_label (commit_kind plan))).
  { unfold header. rewrite Hpc_eq. simpl. by destruct (commit_kind plan). }
  assert (Hrefs : (pr_object_id <$> b_packs (pp_body prepared)) = re_object_id <$> new).
  { rewrite Hbody. cbn [b_packs]. rewrite (body_pack_refs _ _ _ _ _ Hnew).
    clear -Hnew. induction Hnew as [|shard u shards new _ _ IH]; [done|].
    change (re_object_id u :: (pr_object_id <$> zip_with pack_ref_of shards new)
            = re_object_id u :: (re_object_id <$> new)). by rewrite IH. }
  assert (Hvbody : validate_commit_body header (push_commit_kind_label (commit_kind plan)) (pp_body prepared)
                   = Ok tt).
  { unfold validate_commit_body. rewrite Hrefs.
    replace (sort_by str_leb (h_referenced_object_ids header)) with (sort_by str_leb (re_object_id <$> new)).
    2:{ unfold header. rewrite Hpc_eq. cbn [published_header h_referenced_object_ids pc_referenced_object_ids].
        rewrite Hreferenced, sort_by_idemp by apply _. apply str_sort_perm. by eapply upload_ids_perm. }
    destruct (validate_packs_Ok input (pp_commit_id prepared) reserved (pack_shards plan) new [])
      as (seen & Hseen); [apply (rf_ids _ _ Hres)|done|done|set_solver|].
    unfold validate_packs, header. rewrite Hbody, Hpc_eq.
    cbn [b_format b_version b_commit_id b_commit_kind b_parent_commit_ids b_packs published_header
         h_commit_id h_parent_commit_ids pc_commit_id pc_parent_commit_ids].
    rewrite !bool_decide_true by done. cbn.
    rewrite (body_pack_refs _ _ _ _ _ Hnew). by rewrite Hseen. }
  unfold decrypt_commit. rewrite Hdown. cbn [mbind result_bind]. rewrite Hvalid. cbn [mbind result_bind].
  rewrite Hkind. cbn [mbind result_bind].
  rewrite Hkey, Hws. unfold decrypt_commit_body.
  replace (CommitBodyAad_new _ (h_commit_id header) _ _ _ _ _) with
    (CommitBodyAad_new (ps_workspace_id input) (pp_commit_id prepared)
       (push_commit_kind_label (commit_kind plan)) parents (ps_device_id input) device_seq
       (rc_body_object_id reserved)) by (unfold header; by rewrite Hpc_eq).
  cbn [stored d_ciphertext body_upload re_ciphertext].
  rewrite (decrypt_encrypt_same _ _ _ _ _ (Hnonce _) Hblob). cbn [mbind result_bind].
  rewrite (from_slice_to_vec _ _ Hplain). cbn [mbind result_bind]. rewrite Hvbody. cbn [mbind result_bind].
  unfold download_many. rewrite Hrefs, <- Hws, Hdl_packs. cbn [mbind result_bind].
  replace (b_packs (pp_body prepared)) with (zip_with pack_ref_of (pack_shards plan) new)
    by (rewrite Hbody; cbn [b_packs]; by rewrite (body_pack_refs _ _ _ _ _ Hnew)).
  fold downloads. rewrite Hpacks. done.
Qed.

(** The tree both devices start from: the one cached for the expected head. *)
Definition parent_tree : Tree :=
  if str_is_empty expected_head then ∅
  else insert_all ∅ ((λ e, (t_file_id e, e)) <$> list_tree_entries db expected_head).

(** C3: what is published can be pulled. Take any prepared commit whose upload
    succeeded and whose header was signed, under identifiers the service reserved
    one per pack, and a service that returns uploaded objects as they were sent.
    Then a device with the workspace key decrypts the listed commit to the body
    that was written; and from the tree the publisher started from, if each
    operation of the plan is about a packed file, replaying it succeeds, gives
    exactly the entries the publisher caches for its commit, and passes the check
    of the published tree identifier. *)
Theorem published_commit_accepted :
  Forall (op_sound plan) (file_ops plan) → adopted parent_tree →
  (commit_kind plan = Checkpoint → parent_tree = ∅) →
  ∃ commit tree',
    decrypt_commit pin (published_header pc server_seq) = Ok commit ∧
    dc_body commit = pp_body prepared ∧
    materialize_remote_tree_only commit parent_tree = Ok tree' ∧
    tree_entries_sorted tree' = adopt_commit (pp_commit_id prepared) <$> pp_tree_entries prepared ∧
    validate_tree_id (b_tree_id (dc_body commit)) (tree_entries_sorted tree') = Ok tt.
Proof using All.
  intros Hsound Hadopted Hcheckpoint.
  destruct published_commit_decrypts as (commit & new & Hdec & Hhd & Hb & Hnew & Hread).
  destruct prepare_commit_inv as (t0 & t1 & changes & _ & _ & _ & Ht0 & Hfold & Hentries & Htid &
    Hchanges & _ & _ & Hbody & _).
  destruct publish_input_inv as (signature & Hpc_eq).
  assert (Hcid : h_commit_id (dc_header commit) = pp_commit_id prepared) by (by rewrite Hhd, Hpc_eq).
  assert (Hacc : Forall (acceptable commit) changes).
  { apply Forall_forall. intros change [i Hi]%list_elem_of_lookup.
    apply try_map_Ok in Hchanges. destruct (Forall2_lookup_r _ _ _ _ _ Hchanges Hi) as (op & Hop & Hc).
    eapply op_sound_acceptable; [done..|]. rewrite Forall_forall in Hsound. apply Hsound.
    by eapply list_elem_of_lookup_2. }
  exists commit, (adopt_commit (pp_commit_id prepared) <$> t1). split_and!; [done..| | |].
  - unfold materialize_remote_tree_only.
    assert (Hstart : starting_tree (dc_header commit) parent_tree
                     = adopt_commit (pp_commit_id prepared) <$> t0).
    { rewrite Ht0. fold parent_tree. rewrite adopt_adopted by done. unfold starting_tree.
      case_bool_decide as Hk; [|done]. symmetry. apply Hcheckpoint. rewrite Hhd, Hpc_eq in Hk.
      simpl in Hk. by destruct (commit_kind plan). }
    rewrite Hstart, Hb, Hbody. cbn [b_changes]. by eapply materialize_agrees.
  - rewrite tree_entries_sorted_fmap by apply adopt_commit_path. by rewrite Hentries.
  - rewrite tree_entries_sorted_fmap by apply adopt_commit_path.
    unfold validate_tree_id, tree_id_for_entries. rewrite tree_cache_entry_body_adopt.
    fold (tree_id_for_entries (tree_entries_sorted t1)). rewrite Htid. simpl.
    by rewrite Hb, Hbody, bool_decide_true.
Qed.
End published.
End decrypts.

(** ** Plans of scanned files *)

Section plans.
Context `{Unicode, Blake3, PlannerText}.

(** A scanned file as the puller will check it. *)
Definition file_sound (f : ScannedFile) : Prop :=
  validate_remote_file_identity (s_file_id f) (s_path f) (s_normalized_path f) = Ok tt ∧
  validate_plaintext_metadata (s_path f) (s_plaintext f) (s_plaintext_hash f) (s_size_bytes f) = Ok tt.
Definition row_sound (r : SyncFileRecord) : Prop :=
  validate_remote_file_identity (f_file_id r) (f_path r) (f_normalized_path r) = Ok tt.

(** The operations of a plan that packs its files correctly are sound when the
    files and the deleted rows are. *)
Lemma plan_ops_sound kind max plan files dels :
  packing_ok kind max files (pack_shards plan) → plan_ok plan files dels →
  NoDup (s_normalized_path <$> files) → Forall file_sound files → Forall row_sound dels →
  Forall (op_sound plan) (file_ops plan).
Proof.
  intros (Hcat & _ & _) (_ & _ & Htree & _ & Hops) Hnd Hfiles Hdels. rewrite Hops. apply Forall_app. split.
  - apply Forall_fmap, Forall_forall. intros t Ht.
    destruct (Htree t Ht) as (f & Hf & (Hid & Hpath & Hnp & Hhash & Hsize & _) & shard & e & Hs & He & Href & Heid & Hen & _).
    rewrite Forall_forall in Hfiles. destruct (Hfiles f Hf) as [Hident Hmeta].
    unfold compose, op_sound, upsert_of. rewrite Hid, Hpath, Hnp, Hhash, Hsize, Href, Heid.
    split; [done|]. exists shard, e. split_and!; try done.
    assert (Hpe : e ∈ plan_entry <$> sort_by (leb_on s_normalized_path) files).
    { rewrite <- Hcat. apply list_elem_of_concat. exists (p_entries shard). split; [done|].
      by apply list_elem_of_fmap_2. }
    apply list_elem_of_fmap in Hpe as (g & -> & Hg%elem_of_sort_by). simpl in *.
    rewrite (NoDup_key_inj s_normalized_path files g f Hnd Hg Hf); [done|congruence].
  - apply Forall_fmap. eapply Forall_impl; [|intros r Hr; exact Hr].
    apply Forall_forall. intros r Hr%elem_of_sort_by. rewrite Forall_forall in Hdels. by apply Hdels.
Qed.
End plans.

Module Examples.
Import Story.

(** The service of the story, with the uploaded objects. *)
#[local] Instance story_service : Remote := published_service.

Lemma story_object_ids :
  rc_pack_object_ids reserved = {["checkpoint_pack-0" := "id-checkpoint_pack-0"]}.
Proof. apply (bool_decide_unpack _). vm_compute. exact I. Qed.

Lemma story_reserved : reserved_for plan reserved.
Proof.
  assert (Hrefs : p_pack_ref <$> pack_shards plan = ["checkpoint_pack-0"]) by (vm_compute; reflexivity).
  split.
  - rewrite Hrefs. apply NoDup_singleton.
  - rewrite story_object_ids, Hrefs. set_solver.
  - intros r r' id. rewrite story_object_ids, !lookup_singleton_Some. by intros [Hr _] [Hr' _]; subst.
  - intros r id. rewrite story_object_ids, lookup_singleton_Some. intros [_ <-]. vm_compute. reflexivity.
Qed.

Lemma story_body_apart r : rc_pack_object_ids reserved !! r ≠ Some (rc_body_object_id reserved).
Proof.
  rewrite story_object_ids, lookup_singleton_Some. intros [_ Heq]. vm_compute in Heq. discriminate Heq.
Qed.

Lemma story_serves us : us ⊆ pp_uploads prepared →
  download_objects transfer_config (in_workspace_id pull) (in_device_id pull) (re_object_id <$> us)
  = Ok (stored <$> us).
Proof.
  apply store_serves; [|reflexivity|].
  - apply (bool_decide_unpack _). vm_compute. exact I.
  - apply (bool_decide_unpack _). vm_compute. exact I.
Qed.

(** [op_sound], decided. *)
Definition op_checks (p : SyncPlan) (op : PlanFileOp) : bool :=
  match op with
  | Upsert file_id path normalized_path plaintext_hash size pack_ref pack_entry_id =>
      bool_decide (validate_remote_file_identity file_id path normalized_path = Ok tt) &&
      List.existsb (λ shard, bool_decide (p_pack_ref shard = pack_ref) &&
        List.existsb (λ e, bool_decide (e_entry_id e = pack_entry_id) &&
          bool_decide (validate_plaintext_metadata path (e_plaintext e) plaintext_hash size = Ok tt))
          (p_entries shard)) (pack_shards p)
  | Delete file_id path normalized_path =>
      bool_decide (validate_remote_file_identity file_id path normalized_path = Ok tt)
  end.
Lemma op_checks_sound p op : op_checks p op = true → op_sound p op.
Proof.
  destruct op; simpl; [|apply bool_decide_eq_true].
  intros [Hid%bool_decide_eq_true (shard & Hs & Hin)%List.existsb_exists]%andb_true_iff.
  apply andb_true_iff in Hin as [Href%bool_decide_eq_true (e & He & Hm)%List.existsb_exists].
  apply andb_true_iff in Hm as [Heid%bool_decide_eq_true Hmeta%bool_decide_eq_true].
  split; [done|]. exists shard, e. rewrite !list_elem_of_In. done.
Qed.

Lemma story_sound : Forall (op_sound plan) (file_ops plan).
Proof.
  apply Forall_forall. intros op Hop%list_elem_of_In. apply op_checks_sound.
  assert (Hall : List.forallb (op_checks plan) (file_ops plan) = true) by (vm_compute; reflexivity).
  rewrite List.forallb_forall in Hall. by apply Hall.
Qed.

Lemma published_commit_witness : ∃ commit' tree',
  decrypt_commit pull (published_header commit 1) = Ok commit' ∧
  materialize_remote_tree_only commit' ∅ = Ok tree' ∧
  (t_normalized_path <$> tree_entries_sorted tree') = ["b.md"; "notes/a.md"].
Proof.
  destruct (published_commit_accepted push pull empty_db 1 "" [] plan reserved prepared uploaded
              body_metadata commit 1) as (commit' & tree' & Hdec & _ & Hmat & Hentries & _).
  - reflexivity.
  - reflexivity.
  - reflexivity.
  - exact story_reserved.
  - exact story_body_apart.
  - vm_compute. reflexivity.
  - vm_compute. reflexivity.
  - vm_compute. reflexivity.
  - vm_compute. reflexivity.
  - exact story_serves.
  - exact story_sound.
  - intros id e He. vm_compute in He. discriminate He.
  - reflexivity.
  - exists commit', tree'. split; [exact Hdec|]. split; [exact Hmat|]. rewrite Hentries. vm_compute. reflexivity.
Defined.
End Examples.
