(* ===== verification/PullSafety.v ===== *)
(** * Local edits survive a pull (sync/applier.rs)

    What the replay of a remote commit does to the files of the vault: which
    files a step may change, and where the content of a locally edited file is
    afterwards, whether or not the step succeeds. *)
From Stdlib Require Import Ascii String.
#[local] Set Warnings "-clear-no-such-hyp".
From S2P Require Import Prelude SyncErrors Paths Merge SyncDb Scanner Planner Crypto Keys Packer.
From S2P Require Import Watcher Commit Transfer Pull.
From S2P Require Import Push Toys.

(** ** Paths of conflict copies *)

Definition no_backslash (s : string) : Prop := str_existsb (Ascii.eqb backslash) s = false.

Lemma components_normal p n :
  Normal n ∈ components p → n ∈ split_on slash p ∧ n ≠ "" ∧ n ≠ "." ∧ n ≠ "..".
Proof.
  assert (Hseg : ∀ s, component_of_segment s = Some (Normal n) → s = n ∧ n ≠ "" ∧ n ≠ "." ∧ n ≠ "..").
  { intros s. unfold component_of_segment. repeat case_bool_decide; [done..|]. intros [= ->]. naive_solver. }
  assert (Homap : ∀ l : list string, Normal n ∈ omap component_of_segment l → n ∈ l ∧ n ≠ "" ∧ n ≠ "." ∧ n ≠ "..").
  { intros l (s & Hs & Hn)%list_elem_of_omap. by apply Hseg in Hn as [-> ?]. }
  unfold components. destruct (split_on slash p) as [|s rest]; [set_solver|].
  assert (Htail : Normal n ∈ omap component_of_segment rest →
                  n ∈ s :: rest ∧ n ≠ "" ∧ n ≠ "." ∧ n ≠ "..") by (intros []%Homap; set_solver).
  case_bool_decide; [destruct rest; [set_solver|intros [|]%elem_of_cons; [done|auto]]|].
  case_bool_decide; [intros [|]%elem_of_cons; [done|auto]|].
  intros [Hin|]%elem_of_app; [|auto].
  destruct (component_of_segment s) eqn:Hs; [|set_solver].
  apply list_elem_of_singleton in Hin as <-. apply Hseg in Hs as [-> ?]. set_solver.
Qed.

Lemma rsplit_dot_eq s b a : rsplit_dot s = Some (b, a) → s = b +:+ "." +:+ a.
Proof.
  revert b. induction s as [|c s IH]; intros b; simpl; [done|].
  destruct (rsplit_dot s) as [[b' a']|].
  - intros [= <- <-]. by rewrite (IH b') at 1.
  - destruct (Ascii.eqb_spec c "."); [|done]. by intros [= <- <-]; subst.
Qed.

Lemma file_stem_existsb p name : str_existsb p name = false → str_existsb p (file_stem name) = false.
Proof.
  unfold file_stem. destruct (rsplit_dot name) as [[[|c b] a]|] eqn:Hs; [done| |done].
  apply rsplit_dot_eq in Hs as ->. rewrite str_existsb_app. by intros [? _]%orb_false_iff.
Qed.
Lemma extension_existsb p name ext :
  extension name = Some ext → str_existsb p name = false → str_existsb p ext = false.
Proof.
  unfold extension. destruct (rsplit_dot name) as [[[|c b] a]|] eqn:Hs; [done| |done].
  apply rsplit_dot_eq in Hs as ->. intros [= <-]. rewrite !str_existsb_app.
  by intros [_ [_ ?]%orb_false_iff]%orb_false_iff.
Qed.

Lemma timestamp_existsb c ms :
  c = slash ∨ c = backslash → str_existsb (Ascii.eqb c) (timestamp_utc ms) = false.
Proof.
  intros Hc.
  assert (Hd : ∀ n : N, Ascii.eqb c (pretty_N_char n) = false).
  { intros n. unfold pretty_N_char. destruct Hc as [-> | ->]; by repeat case_match. }
  assert (Hm : Ascii.eqb c "-" = false) by (by destruct Hc as [-> | ->]).
  unfold timestamp_utc. destruct (civil_from_days _) as [[y m] d].
  rewrite !str_existsb_app, !fmt_padded_existsb by done. simpl. by rewrite Hm.
Qed.

Lemma conflict_file_name_existsb c name ms k :
  c = slash ∨ c = backslash → (0 ≤ k)%Z → str_existsb (Ascii.eqb c) name = false →
  str_existsb (Ascii.eqb c)
    (conflict_file_name (file_stem name) (timestamp_utc ms) (extension name) k) = false.
Proof.
  intros Hc Hk Hname. rewrite conflict_file_name_eq, !str_existsb_app, timestamp_existsb by done.
  rewrite file_stem_existsb by done.
  assert (Hd : ∀ n : N, Ascii.eqb c (pretty_N_char n) = false).
  { intros n. unfold pretty_N_char. destruct Hc as [-> | ->]; by repeat case_match. }
  replace (str_existsb (Ascii.eqb c) ".conflict-") with false by (by destruct Hc as [-> | ->]).
  assert (Hsuf : str_existsb (Ascii.eqb c) (if (k =? 1)%Z then "" else "-" +:+ fmt_int k) = false).
  { destruct (k =? 1)%Z; [done|]. rewrite str_existsb_app, fmt_int_existsb by done.
    by destruct Hc as [-> | ->]. }
  rewrite Hsuf.
  destruct (extension name) as [ext|] eqn:Hext; [|done]. simpl.
  erewrite extension_existsb by done. by destruct Hc as [-> | ->].
Qed.

(** A "/"-join of segments that are neither ".." nor contain a slash has no
    component that leads upwards. *)
Lemma join_no_parent segs :
  segs ≠ [] → Forall (λ s, str_existsb (Ascii.eqb slash) s = false ∧ s ≠ "..") segs →
  ParentDir ∉ components (join "/" segs).
Proof.
  intros Hne Hs Hin. unfold components in Hin.
  rewrite split_on_join in Hin; [|done|by eapply Forall_impl; [done|intros s []]].
  assert (Hseg : ∀ s, s ∈ segs → component_of_segment s ≠ Some ParentDir).
  { intros s Hin'. rewrite Forall_forall in Hs. apply Hs in Hin' as [_ Hd]. unfold component_of_segment.
    repeat case_bool_decide; congruence. }
  destruct segs as [|s rest]; [done|].
  assert (Hrest : ParentDir ∉ omap component_of_segment rest).
  { intros (x & Hx & Hp)%list_elem_of_omap. eapply Hseg; [|done]. set_solver. }
  repeat case_bool_decide; [destruct rest|..]; try set_solver.
  apply elem_of_app in Hin as [Hin|]; [|done].
  destruct (component_of_segment s) eqn:Hc; [|set_solver].
  apply list_elem_of_singleton in Hin as <-. eapply Hseg; [|done]. set_solver.
Qed.

Lemma validate_relative_path_names path original :
  validate_relative_path path = Ok original →
  original ≠ [] ∧ Forall (λ n, Normal n ∈ components path) original.
Proof.
  unfold validate_relative_path. destruct (is_blank path); [done|].
  intros (out & Hf & Hout)%bind_Ok_inv. destruct out as [|o out]; [done|]. injection Hout as <-.
  split; [done|]. revert Hf.
  apply (try_fold_invariant (λ out, Forall (λ n, Normal n ∈ components path) out)); [constructor|].
  intros l x l' Hx Hl. destruct x; simpl; try done; intros [= <-]; [done|].
  apply Forall_app. split; [done|by constructor].
Qed.

Lemma conflict_candidate_no_parent path original ms k :
  no_backslash path → validate_relative_path path = Ok original → (0 ≤ k)%Z →
  ParentDir ∉ components (conflict_candidate original (timestamp_utc ms) k).
Proof.
  intros Hb [Hne Hn]%validate_relative_path_names Hk.
  assert (Hplain : ∀ n c, n ∈ original → c = slash ∨ c = backslash → str_existsb (Ascii.eqb c) n = false).
  { intros n c Hin Hc. rewrite Forall_forall in Hn. apply Hn, components_normal in Hin as (Hin & _).
    destruct Hc as [-> | ->]; [by eapply split_on_no_sep|by eapply str_existsb_split]. }
  unfold conflict_candidate, path_to_slash_string, slash_join.
  set (name := default "" (last original)).
  assert (Hlast : name ∈ original).
  { unfold name. destruct (last original) as [x|] eqn:Hl; [|by apply last_None in Hl].
    apply last_Some in Hl as [l ->]. set_solver. }
  set (fname := conflict_file_name _ _ _ _).
  assert (Hf : ∀ c, c = slash ∨ c = backslash → str_existsb (Ascii.eqb c) fname = false)
    by (intros c Hc; apply conflict_file_name_existsb; auto).
  assert (Hinit : ∀ n, n ∈ removelast original → n ∈ original).
  { intros n Hin. rewrite (app_removelast_last "" Hne). set_solver. }
  rewrite str_replace_id.
  - apply join_no_parent; [by destruct (removelast original)|]. apply Forall_app. split.
    + apply Forall_forall. intros n Hin%Hinit. split; [auto|].
      rewrite Forall_forall in Hn. apply Hn, components_normal in Hin. naive_solver.
    + constructor; [|constructor]. split; [auto|]. intros Heq%(f_equal String.length).
      unfold fname in Heq. rewrite conflict_file_name_eq, !str_app_length in Heq. simpl in Heq. lia.
  - apply join_existsb; [done|]. apply Forall_app. split; [|by constructor; [auto|constructor]].
    apply Forall_forall. intros n Hin%Hinit. auto.
Qed.

(** ** Frames *)

(** Every file outside [T] keeps its content and time. *)
Definition files_kept (T : list AbsPath) (fs fs' : Fs) : Prop :=
  ∀ q c m, q ∉ T → fs !! q = Some (File c m) → fs' !! q = Some (File c m).

#[export] Instance files_kept_refl T : Reflexive (files_kept T).
Proof. by intros fs q c m. Qed.
#[export] Instance files_kept_trans T : Transitive (files_kept T).
Proof. intros f g h Hfg Hgh q c m HT Hq. eauto. Qed.
Lemma files_kept_nil p fs fs' : files_kept [] fs fs' → files_kept [p] fs fs'.
Proof. intros Hk q c m _. apply Hk. set_solver. Qed.
Lemma files_kept_weaken T T' fs fs' : T ⊆ T' → files_kept T fs fs' → files_kept T' fs fs'.
Proof. intros Hsub Hk q c m HT. apply Hk. set_solver. Qed.

(** A free place stays free of files when it is not touched. *)
Definition no_file (fs : Fs) (q : AbsPath) : Prop := ∀ c m, fs !! q ≠ Some (File c m).

Lemma create_dir_all_kept fs p fs' : create_dir_all fs p = Ok fs' → files_kept [] fs fs'.
Proof.
  unfold create_dir_all. apply (try_fold_invariant (files_kept [] fs)); [done|].
  intros s x s' _ Hs. unfold create_dir_step. destruct (is_dir s x); [by intros [= <-]|].
  destruct (s !! x) eqn:Hx; [done|]. intros [= <-]. etrans; [exact Hs|].
  intros q c m _ Hq. rewrite lookup_insert_ne; [done|]. intros ->. congruence.
Qed.

Lemma fs_write_kept fs p content now fs' :
  fs_write fs p content now = Ok fs' → files_kept [p] fs fs' ∧ fs' !! p = Some (File content now).
Proof.
  unfold fs_write. destruct (negb _); [done|]. intros Hw.
  assert (fs' = <[p := File content now]> fs) as -> by (by destruct (fs !! p) as [[| |]|]; simplify_eq).
  split; [|by rewrite lookup_insert_eq]. intros q c m Hq Hl.
  rewrite lookup_insert_ne; [done|]. set_solver.
Qed.

Lemma fs_remove_file_kept fs p fs' : fs_remove_file fs p = Ok fs' → files_kept [p] fs fs'.
Proof.
  unfold fs_remove_file. intros Hr.
  assert (fs' = base.delete p fs) as -> by (by destruct (fs !! p) as [[| |]|]; simplify_eq).
  intros q c m Hq Hl. rewrite lookup_delete_ne; [done|]. set_solver.
Qed.

Section safety.
Context `{Unicode, Blake3, Os, Sqlite, CryptoLib, KeyLib, PackLib, Remote}.
Context `{!Serialize PackIndex, !Deserialize PackIndex, !Serialize PackAad,
          !Serialize CommitBodyAad, !Deserialize CommitBody,
          !Serialize (list TreeCacheEntryBody), !Serialize (list string)}.

(** Where a vault path leads when the resolution accepts it. *)
Definition resolves (fs : Fs) (root : AbsPath) (path : string) (p : AbsPath) : Prop :=
  resolve_vault_path_strict (is_symlink fs) root path = Ok p.

(** After a write of [content] to [path]: either it failed and no file changed,
    or exactly the target did. *)
Definition write_effect (input : PullInput) (path : string) (content : bytes) (w : World)
    {A} (r : SyncResult A) (w' : World) : Prop :=
  w_db w' = w_db w ∧
  ((∃ e, r = Err e) ∧ files_kept [] (w_fs w) (w_fs w') ∨
   ∃ p, resolves (w_fs w) (in_vault_root input) path p ∧ files_kept [p] (w_fs w) (w_fs w') ∧
        w_fs w' !! p = Some (File content (in_clock input))).

Lemma resolve_post {B} root path (f : AbsPath → Action B) w (Q : SyncResult B → World → Prop) :
  (∀ p, resolves (w_fs w) root path p → act_post (f p) w Q) → (∀ e, Q (Err e) w) →
  act_post (p ← resolve_remote_path root path; f p) w Q.
Proof.
  intros HO HE. apply act_post_bind. unfold act_post at 1, resolve_remote_path, mbind, act_bind, gets, lift.
  destruct (resolve_vault_path_strict _ _ _) as [p|e] eqn:Hr; [exact (HO p Hr)|exact (HE _)].
Qed.

Lemma record_expected_effect f w :
  act_post (record_expected f) w
    (λ r w', w_fs w' = w_fs w ∧ w_db w' = w_db w ∧ ∃ t, r = Ok t).
Proof.
  unfold act_post, record_expected. destruct (w_ledger w); [destruct (f _)|]; simpl; eauto.
Qed.
Lemma finish_remote_mutation_effect t result w :
  act_post (finish_remote_mutation t result) w
    (λ r w', w_fs w' = w_fs w ∧ w_db w' = w_db w ∧ r = result).
Proof. unfold act_post, finish_remote_mutation. destruct result, (w_ledger w), t; done. Qed.
Lemma notify_search_effect input n w :
  act_post (notify_search input n) w (λ r w', w_fs w' = w_fs w ∧ w_db w' = w_db w).
Proof. unfold act_post, notify_search. by destruct (in_search input). Qed.

Lemma write_file_effect clock p content w r w' :
  write_file clock p content w = (r, w') →
  w_db w' = w_db w ∧
  ((∃ e, r = Err e) ∧ files_kept [] (w_fs w) (w_fs w') ∨
   r = Ok tt ∧ files_kept [p] (w_fs w) (w_fs w') ∧ w_fs w' !! p = Some (File content clock)).
Proof.
  unfold write_file. destruct (match p with [] => _ | _ => _ end) as [fs|e] eqn:Hmade.
  - assert (Hdirs : files_kept [] (w_fs w) fs).
    { destruct p; [by injection Hmade as ->|]. by apply map_err_Ok, create_dir_all_kept in Hmade. }
    destruct (fs_write _ _ _ _) as [fs'|e] eqn:Hw; intros [= <- <-]; simpl; (split; [done|]);
      [right|left; eauto].
    apply fs_write_kept in Hw as [Hk Hp]. split_and!; [done| |done].
    etrans; [|done]. by apply files_kept_nil.
  - intros [= <- <-]. split; [done|]. left. split; [by eexists|done].
Qed.

Lemma apply_remote_write_effect input path content w :
  act_post (apply_remote_write input path content) w
    (λ r w', write_effect input path content w r w').
Proof.
  unfold apply_remote_write. apply resolve_post; [intros p Hr|split; [done|left; split; [by eexists|done]]].
  apply act_post_bind. eapply act_post_mono; [apply record_expected_effect|].
  intros r1 w1 (Hf1 & Hd1 & t & ->). apply act_post_bind, act_post_intro.
  intros r2 w2 Hw. destruct (write_file _ _ _ w1) as [result w2'] eqn:Hfile.
  injection Hw as <- <-. apply write_file_effect in Hfile as (Hd2 & Hcase). rewrite Hf1 in Hcase.
  apply act_post_bind. eapply act_post_mono; [apply finish_remote_mutation_effect|].
  intros r3 w3 (Hf3 & Hd3 & ->). destruct Hcase as [[(e & ->) Hk]|(-> & Hk & Hp)].
  - split; [congruence|]. left. rewrite Hf3. eauto.
  - eapply act_post_mono; [apply notify_search_effect|]. intros r4 w4 [Hf4 Hd4].
    split; [congruence|]. right. exists p. rewrite Hf4, Hf3. done.
Qed.

Lemma apply_remote_delete_effect input path w :
  act_post (apply_remote_delete input path) w
    (λ r w', w_db w' = w_db w ∧
       (files_kept [] (w_fs w) (w_fs w') ∨
        ∃ p, resolves (w_fs w) (in_vault_root input) path p ∧ files_kept [p] (w_fs w) (w_fs w'))).
Proof.
  unfold apply_remote_delete. apply resolve_post; [intros p Hr|split; [done|by left]].
  apply act_post_gets, act_post_bind.
  eapply (act_post_mono _ _ (λ r w', w_fs w' = w_fs w ∧ w_db w' = w_db w ∧ ∃ t, r = Ok t)).
  { destruct (path_exists _ _); [apply record_expected_effect|].
    unfold act_post. simpl. eauto. }
  intros r1 w1 (Hf1 & Hd1 & t & ->). apply act_post_bind, act_post_intro.
  intros r2 w2 Hw. destruct (remove_file _ w1) as [result w2'] eqn:Hfile. injection Hw as <- <-.
  assert (Hcase : w_db w2' = w_db w1 ∧ files_kept [p] (w_fs w1) (w_fs w2')).
  { unfold remove_file in Hfile. destruct (fs_remove_file _ _) as [fs'|[]] eqn:Hrm; injection Hfile as <- <-;
      split; try done. by apply fs_remove_file_kept in Hrm. }
  destruct Hcase as [Hd2 Hk]. rewrite Hf1 in Hk.
  apply act_post_bind. eapply act_post_mono; [apply finish_remote_mutation_effect|].
  intros r3 w3 (Hf3 & Hd3 & ->).
  assert (HQ : ∀ w4, w_fs w4 = w_fs w3 → w_db w4 = w_db w3 → w_db w4 = w_db w ∧
     (files_kept [] (w_fs w) (w_fs w4) ∨
      ∃ p, resolves (w_fs w) (in_vault_root input) path p ∧ files_kept [p] (w_fs w) (w_fs w4))).
  { intros w4 Hf4 Hd4. split; [congruence|]. right. exists p. by rewrite Hf4, Hf3. }
  destruct result; [|by apply HQ].
  eapply act_post_mono; [apply notify_search_effect|]. intros r4 w4 [Hf4 Hd4]. by apply HQ.
Qed.

(** *** Conflict copies *)

Lemma resolves_join fs root path p :
  ParentDir ∉ components path → resolves fs root path p → p = join_path root path.
Proof.
  intros Hpar Hr. unfold resolves, resolve_vault_path_strict, resolve_vault_path, join_path in *.
  apply bind_Ok_inv in Hr as (p' & Hr & Hs). apply bind_Ok_inv in Hs as (u & _ & [= <-]).
  destruct (str_is_empty path) eqn:He.
  { destruct path; [|done]. injection Hr as <-. by rewrite app_nil_r. }
  apply bind_Ok_inv in Hr as (p1 & Hf & Hr). case_bool_decide; [|done]. injection Hr as <-.
  clear -Hf Hpar. revert Hf Hpar. generalize root at 2 3 as r.
  induction (components path) as [|c cs IH]; intros r; simpl; [by intros [= <-]; rewrite app_nil_r|].
  intros (r' & Hc & Hf)%bind_Ok_inv Hpar. apply not_elem_of_cons in Hpar as [Hne Hpar].
  apply IH in Hf as ->; [|done]. destruct c; simpl in *; simplify_eq; [done|].
  by rewrite <- app_assoc.
Qed.

Lemma conflict_copy_path_fresh input fs path c :
  no_backslash path → conflict_copy_path input fs path = Ok c →
  ParentDir ∉ components c ∧ path_exists fs (join_path (in_vault_root input) c) = false.
Proof.
  intros Hb. unfold conflict_copy_path, conflict_copy_relative_path.
  intros Hc. apply bind_Ok_inv in Hc as (found & Hf & Hok).
  apply bind_Ok_inv in Hf as (original & Hv & Hf). apply Ok_inj in Hf.
  apply ok_or_Ok in Hok as ->. apply first_free_Some in Hf as (k & Hk & -> & He & _).
  split; [|done]. eapply conflict_candidate_no_parent; [done..|lia].
Qed.

Definition conflict_row (input : PullInput) (path copy : string) (base : option string)
    (header : SyncCommitHeader) : SyncConflictRecord :=
  {| k_conflict_id := conflict_id_for path copy base (h_commit_id header) (in_now_ms input);
     k_path := path; k_conflict_path := copy; k_base_commit_id := base; k_local_commit_id := None;
     k_remote_commit_id := Some (h_commit_id header); k_status := "open";
     k_created_at_ms := in_now_ms input |}.

(** The content is in a file [copy] that did not exist before. *)
Definition fresh_copy (input : PullInput) (content : bytes) (w w' : World) (copy : string) : Prop :=
  ∃ q, resolves (w_fs w) (in_vault_root input) copy q ∧ no_file (w_fs w) q ∧
       w_fs w' !! q = Some (File content (in_clock input)).

Lemma write_conflict_copy_effect input path content base header w :
  no_backslash path →
  act_post (write_conflict_copy input path content base header) w
    (λ r w', files_kept [] (w_fs w) (w_fs w') ∧
       ∀ copy, r = Ok copy → fresh_copy input content w w' copy ∧
         w_db w' = upsert_conflict (w_db w) (conflict_row input path copy base header)).
Proof.
  intros Hb. unfold write_conflict_copy. apply act_post_gets, act_post_lift; [|by split].
  intros c [Hpar Hfree]%conflict_copy_path_fresh; [|done].
  apply act_post_bind. eapply act_post_mono; [apply apply_remote_write_effect|].
  intros r1 w1 [Hd [[(e & ->) Hk]|(p & Hr & Hk & Hp)]]; [by split|].
  rewrite <- (resolves_join _ _ _ _ Hpar Hr) in Hfree.
  assert (Hno : no_file (w_fs w) p) by (intros x m Hx; unfold path_exists in Hfree; by rewrite Hx in Hfree).
  assert (Hk0 : files_kept [] (w_fs w) (w_fs w1)).
  { intros q x m _ Hq. apply Hk; [|done]. intros ->%list_elem_of_singleton. by apply Hno in Hq. }
  destruct r1; [|by split]. unfold act_post. simpl. split; [done|]. intros ? [= <-].
  split; [by exists p|]. by rewrite Hd.
Qed.

Lemma read_local_file_post {B} input path (f : bytes → Action B) w (Q : SyncResult B → World → Prop) :
  (∀ p c m, resolves (w_fs w) (in_vault_root input) path p → w_fs w !! p = Some (File c m) →
     act_post (f c) w Q) →
  (∀ e, Q (Err e) w) → act_post (c ← read_local_file input path; f c) w Q.
Proof.
  intros HO HE. apply act_post_bind. unfold read_local_file. apply resolve_post; [|apply HE].
  intros p Hr. apply act_post_gets. unfold act_post at 1, lift, fs_read.
  destruct (w_fs w !! p) as [[c m| |]|] eqn:Hp; simpl; try apply HE. exact (HO p c m Hr Hp).
Qed.
(** *** A change of a locally edited file *)

Lemma resolves_det fs fs' root path p p' :
  resolves fs root path p → resolves fs' root path p' → p = p'.
Proof.
  unfold resolves, resolve_vault_path_strict. intros Hr Hr'.
  apply bind_Ok_inv in Hr as (a & Ha & (u & _ & [= <-])%bind_Ok_inv).
  apply bind_Ok_inv in Hr' as (b & Hb & (v & _ & [= <-])%bind_Ok_inv). congruence.
Qed.

Definition change_file_id (change : CommitBodyFileOp) : string :=
  match change with UpsertFile file_id _ _ _ _ _ | DeleteFile file_id _ _ => file_id end.
Definition change_path (change : CommitBodyFileOp) : string :=
  match change with UpsertFile _ path _ _ _ _ | DeleteFile _ path _ => path end.
(** The content a change brings; a deletion brings none. *)
Definition remote_content (commit : DecryptedCommit) (change : CommitBodyFileOp) : option bytes :=
  match change with
  | UpsertFile _ _ _ _ _ content_ref =>
      match pack_entry_plaintext (dc_packs commit) content_ref with Ok b => Some b | Err _ => None end
  | DeleteFile _ _ _ => None
  end.

(** [content] and [remote] merge to [merged] over the content that both sides last agreed on,
    the one the tree of the replay records for the file and the service still holds. *)
Definition merges_to (input : PullInput) (base_entry : option SyncTreeEntryRecord)
    (content remote merged : bytes) : Prop :=
  ∃ entry base, base_entry = Some entry ∧
    download_tree_entry_content input (t_commit_id entry) entry = Ok (Some base) ∧
    merge_markdown base content remote = Ok (Merged merged).
(** Where the edited [content] of the file [p] is after the step. *)
Definition edit_survives (input : PullInput) (base_entry : option SyncTreeEntryRecord) (remote : option bytes)
    (p : AbsPath) (content : bytes) (m : Z) (w w' : World) : Prop :=
  w_fs w' !! p = Some (File content m) ∨
  match remote with
  | Some remote => ∃ merged, merges_to input base_entry content remote merged ∧
      w_fs w' !! p = Some (File merged (in_clock input))
  | None => ∃ copy, fresh_copy input content w w' copy
  end.

(** The remote content is filed as a conflict copy of [path], with the commit of the base. *)
Definition filed_as_conflict (input : PullInput) (base_entry : option SyncTreeEntryRecord)
    (header : SyncCommitHeader) (path : string) (remote : bytes) (w w' : World) : Prop :=
  ∃ copy, fresh_copy input remote w w' copy ∧
    w_db w' = upsert_conflict (w_db w) (conflict_row input path copy (t_commit_id <$> base_entry) header).

Section edited.
Context (input : PullInput) (dirty : SyncFileRecord) (path : string) (p : AbsPath) (content : bytes)
  (m : Z) (w : World).
Hypothesis (Hkept : f_deleted dirty = false) (Hpath : f_path dirty = path).
Hypothesis (Hb : no_backslash path) (Hr : resolves (w_fs w) (in_vault_root input) path p).
Hypothesis (Hp : w_fs w !! p = Some (File content m)).

Lemma kept_survives base_entry remote w' :
  files_kept [] (w_fs w) (w_fs w') → edit_survives input base_entry remote p content m w w'.
Proof. intros Hk. left. apply Hk; [set_solver|done]. Qed.

Lemma read_edited_post {B} (f : bytes → Action B) (Q : SyncResult B → World → Prop) :
  act_post (f content) w Q → (∀ e, Q (Err e) w) →
  act_post (c ← read_local_file input (f_path dirty); f c) w Q.
Proof.
  intros HO HE. apply read_local_file_post; [|done]. intros p' c' m' Hr' Hp'.
  rewrite Hpath in Hr'. rewrite (resolves_det _ _ _ _ _ _ Hr' Hr) in Hp'. by simplify_eq.
Qed.

(** What a merge step leaves: the edit survives; on success the remote content was merged in,
    or, where the two do not merge, filed as a conflict *)
Definition merge_outcome (header : SyncCommitHeader) (base_entry : option SyncTreeEntryRecord)
    (remote : bytes) (r : SyncResult RemoteApplyAction) (w' : World) : Prop :=
  files_kept [p] (w_fs w) (w_fs w') ∧
  edit_survives input base_entry (Some remote) p content m w w' ∧
  (∀ action, r = Ok action →
     (action = AppliedRemote → w_fs w' !! p = Some (File remote (in_clock input))) ∧
     ((∀ merged, ¬ merges_to input base_entry content remote merged) ∧
        filed_as_conflict input base_entry header path remote w w' ∧ action = KeptLocalDirty ∨
      ∃ merged, merges_to input base_entry content remote merged ∧
        w_fs w' !! p = Some (File merged (in_clock input)))).
Lemma merge_files_conflict header base_entry remote :
  (∀ merged, ¬ merges_to input base_entry content remote merged) →
  act_post
    (_ ← write_conflict_copy input path remote (t_commit_id <$> base_entry) header; mret KeptLocalDirty : Action _) w
    (merge_outcome header base_entry remote).
Proof.
  intros Hno. apply act_post_bind.
  eapply act_post_mono; [by apply write_conflict_copy_effect|]. intros r1 w1 [Hk Hok].
  destruct r1 as [copy|e]; (split; [by apply files_kept_nil|split; [by apply kept_survives|]]); [|done].
  intros action [= <-]. split; [done|]. left. split; [done|]. split; [|done].
  destruct (Hok copy eq_refl) as [Hf Hdb]. by exists copy.
Qed.
Lemma merge_remote_upsert_safe header base_entry remote :
  act_post (merge_remote_upsert input header base_entry dirty path remote) w (merge_outcome header base_entry remote).
Proof.
  assert (Hfail : ∀ e : SyncError, merge_outcome header base_entry remote (Err e) w).
  { intros e. split; [done|split; [by left|done]]. }
  unfold merge_remote_upsert. rewrite Hkept. apply read_edited_post; [|done].
  destruct base_entry as [be|].
  2: { refine (merge_files_conflict header None remote _). intros merged (entry & base & He & _). discriminate. }
  apply act_post_lift; [|intros; by apply Hfail]. intros [base|] Hbase.
  2: { refine (merge_files_conflict header (Some be) remote _).
       intros merged (entry & base & He & Hb' & _). injection He as <-. rewrite Hb' in Hbase. discriminate. }
  apply act_post_lift; [|intros; by apply Hfail]. intros [merged|] Hm.
  2: { refine (merge_files_conflict header (Some be) remote _).
       intros merged (entry & base' & He & Hb' & Hm'). injection He as <-. rewrite Hb' in Hbase.
       injection Hbase as ->. rewrite Hm' in Hm. discriminate. }
  assert (Hmerges : merges_to input (Some be) content remote merged) by (by exists be, base).
  apply act_post_bind. eapply act_post_mono; [apply apply_remote_write_effect|].
  intros r1 w1 [Hd [[(e & ->) Hk]|(p' & Hr' & Hk & Hp')]].
  - split; [by apply files_kept_nil|split; [by apply kept_survives|done]].
  - rewrite (resolves_det _ _ _ _ _ _ Hr' Hr) in *.
    assert (Hsurv : edit_survives input (Some be) (Some remote) p content m w w1) by (right; eauto).
    destruct r1; [|done]. unfold act_post. case_bool_decide as Heq; simpl;
      (split; [done|split; [done|]]); intros action [= <-]; (split; [|right; eauto]); [|done].
    intros _. by rewrite <- Heq.
Qed.

Lemma merge_remote_delete_safe header base_entry :
  act_post (merge_remote_delete input header (Some dirty) path) w
    (λ r w', files_kept [p] (w_fs w) (w_fs w') ∧ edit_survives input base_entry None p content m w w').
Proof.
  unfold merge_remote_delete. rewrite Hkept. apply read_edited_post; [|intros; split; [done|by left]].
  apply act_post_bind. eapply act_post_mono; [by apply write_conflict_copy_effect|].
  intros r1 w1 [Hk1 Hok].
  assert (Hkp : files_kept [p] (w_fs w) (w_fs w1)) by (by apply files_kept_nil).
  destruct r1 as [copy|e]; [|split; [done|by apply kept_survives]].
  destruct (Hok copy eq_refl) as [(q & Hq & Hno & Hcopy) _].
  apply act_post_bind. eapply act_post_mono; [apply apply_remote_delete_effect|].
  intros r2 w2 [Hd2 Hk2].
  assert (Hk : files_kept [p] (w_fs w1) (w_fs w2)).
  { destruct Hk2 as [Hk2|(p' & Hr' & Hk2)]; [by apply files_kept_nil|].
    by rewrite (resolves_det _ _ _ _ _ _ Hr' Hr) in Hk2. }
  assert (HQ : files_kept [p] (w_fs w) (w_fs w2) ∧ edit_survives input base_entry None p content m w w2).
  { split; [by etrans|]. right. exists copy, q. split_and!; [done..|].
    apply Hk; [|done]. intros ->%list_elem_of_singleton. by apply Hno in Hp. }
  by destruct r2.
Qed.
End edited.

(** C8: a pull never loses a local edit. Let a remote change concern a file that
    is locally edited (a dirty, not deleted row for its path, which holds
    [content]). Whatever the step does, fail included, every other file keeps its
    content; and the edited content is still in place, or was merged line by line
    with the remote content into the file, over the base that the replayed tree
    records for the file, or, when the remote deletes the file, was first copied to
    a name that no file had. When an upsert succeeds, the two contents are merged
    where they merge over that base; where they do not, or there is no base, the
    remote content is filed in a fresh conflict copy with an open conflict row that
    names the commit of the base. The file counts as synchronised only if it now
    holds the remote content. *)
Theorem apply_change_keeps_local_edits (input : PullInput) (merge_state : RemoteMergeState)
    (commit : DecryptedCommit) (tree : Tree) (synced : list string) (change : CommitBodyFileOp)
    (w w' : World) (r : SyncResult (Tree * list string)) (dirty : SyncFileRecord) (p : AbsPath)
    (content : bytes) (m : Z) :
  merge_state !! change_file_id change = Some dirty → f_deleted dirty = false →
  f_path dirty = change_path change → no_backslash (change_path change) →
  resolves (w_fs w) (in_vault_root input) (change_path change) p →
  w_fs w !! p = Some (File content m) →
  apply_change input merge_state commit (tree, synced) change w = (r, w') →
  let base_entry := tree !! change_file_id change in
  files_kept [p] (w_fs w) (w_fs w') ∧
  edit_survives input base_entry (remote_content commit change) p content m w w' ∧
  (∀ tree' synced' remote, r = Ok (tree', synced') → remote_content commit change = Some remote →
     ((∀ merged, ¬ merges_to input base_entry content remote merged) ∧
        filed_as_conflict input base_entry (dc_header commit) (change_path change) remote w w' ∧ synced' = synced ∨
      ∃ merged, merges_to input base_entry content remote merged ∧
        w_fs w' !! p = Some (File merged (in_clock input))) ∧
     (change_file_id change ∈ synced' → change_file_id change ∉ synced →
        w_fs w' !! p = Some (File remote (in_clock input)))).
Proof.
  intros Hms Hkept Hpath Hb Hr Hp Happ base_entry.
  eapply (act_post_elim _ _ (λ r w', _ ∧ _ ∧ _) r w'); [|exact Happ]. clear Happ r w'.
  assert (Hsame : files_kept [p] (w_fs w) (w_fs w) ∧
    edit_survives input base_entry (remote_content commit change) p content m w w) by (split; [done|by left]).
  destruct change as [fid path npath hash sz ref|fid path npath]; simpl in *.
  - apply act_post_lift; [intros _ _|intros; naive_solver].
    apply act_post_lift; [intros remote Hrem|intros; naive_solver]. rewrite Hrem in *.
    apply act_post_lift; [intros _ _|intros; naive_solver]. rewrite Hms.
    apply act_post_bind. eapply act_post_mono; [by apply merge_remote_upsert_safe|].
    intros r1 w1 (Hk & Hs & Hok). destruct r1 as [action|e]; [|naive_solver].
    destruct (Hok action eq_refl) as [Happlied Hcase].
    unfold act_post. simpl. split; [done|split; [done|]]. intros tree' synced' rem [= <- <-] [= <-].
    split; [destruct Hcase as [(Hno & Hf & ->)|]; [by left|by right]|].
    case_bool_decide as Ha; [by rewrite Ha in Happlied; auto|done].
  - apply act_post_lift; [intros _ _|intros; naive_solver]. rewrite Hms.
    apply act_post_bind. eapply act_post_mono; [by apply merge_remote_delete_safe|].
    intros r1 w1 (Hk & Hs). unfold act_post. destruct r1; simpl; naive_solver.
Qed.

(** *** Files a step does not concern *)

Section frame.
Context (input : PullInput) (q : AbsPath) (content : bytes) (m : Z).
Definition keeps (w : World) : Prop := w_fs w !! q = Some (File content m).
Definition leads_elsewhere (path : string) : Prop :=
  no_backslash path ∧ ∀ fs, ¬ resolves fs (in_vault_root input) path q.

Lemma apply_remote_write_keeps path c w :
  leads_elsewhere path → keeps w → act_post (apply_remote_write input path c) w (λ _, keeps).
Proof.
  intros [_ Hq] Hw. eapply act_post_mono; [apply apply_remote_write_effect|].
  intros r w' [_ [[_ Hk]|(p & Hr & Hk & _)]]; apply Hk; try done; [set_solver|].
  intros ->%list_elem_of_singleton. by eapply Hq.
Qed.
Lemma apply_remote_delete_keeps path w :
  leads_elsewhere path → keeps w → act_post (apply_remote_delete input path) w (λ _, keeps).
Proof.
  intros [_ Hq] Hw. eapply act_post_mono; [apply apply_remote_delete_effect|].
  intros r w' [_ [Hk|(p & Hr & Hk)]]; apply Hk; try done; [set_solver|].
  intros ->%list_elem_of_singleton. by eapply Hq.
Qed.
Lemma write_conflict_copy_keeps path c base header w :
  no_backslash path → keeps w →
  act_post (write_conflict_copy input path c base header) w (λ _, keeps).
Proof.
  intros Hb Hw. eapply act_post_mono; [by apply write_conflict_copy_effect|].
  intros r w' [Hk _]. apply Hk; [set_solver|done].
Qed.
Lemma read_local_file_keeps path w : keeps w → act_post (read_local_file input path) w (λ _, keeps).
Proof.
  intros Hw. unfold read_local_file. apply resolve_post; [|done]. intros p _. by apply act_post_gets.
Qed.
Lemma lift_keeps {A} (r : SyncResult A) w : keeps w → act_post (lift r) w (λ _, keeps).
Proof. done. Qed.
Lemma set_db_keeps (f : World → Db) w :
  keeps w → act_post (modify (λ w, set_db (f w) w) : Action unit) w (λ _, keeps).
Proof. done. Qed.
Lemma ret_keeps {A} (a : A) w : keeps w → act_post (mret a : Action A) w (λ _, keeps).
Proof. done. Qed.
Hint Resolve apply_remote_write_keeps apply_remote_delete_keeps write_conflict_copy_keeps
  read_local_file_keeps lift_keeps set_db_keeps ret_keeps : kuku.

Ltac keep_step :=
  lazymatch goal with
  | |- act_post (mbind _ _) _ _ => apply act_post_seq; [auto with kuku|intros]
  | |- act_post (match ?x with _ => _ end) _ _ => destruct x
  | |- act_post _ _ _ => by auto with kuku
  end.
Ltac keep := repeat keep_step.

Lemma merge_remote_upsert_keeps header base_entry dirty path remote w :
  leads_elsewhere path → keeps w →
  act_post (merge_remote_upsert input header base_entry dirty path remote) w (λ _, keeps).
Proof. intros Hl Hw. pose proof Hl as [Hb _]. unfold merge_remote_upsert. keep. Qed.

Lemma merge_remote_delete_keeps header dirty path w :
  leads_elsewhere path → keeps w →
  act_post (merge_remote_delete input header dirty path) w (λ _, keeps).
Proof. intros Hl Hw. pose proof Hl as [Hb _]. unfold merge_remote_delete. keep. Qed.
Hint Resolve merge_remote_upsert_keeps merge_remote_delete_keeps : kuku.

Lemma apply_change_keeps merge_state commit st change w :
  leads_elsewhere (change_path change) → keeps w →
  act_post (apply_change input merge_state commit st change) w (λ _, keeps).
Proof.
  intros Hl Hw. destruct st as [tree synced], change; simpl in *; [|by keep].
  do 3 keep_step. apply act_post_seq; [|intros; by keep]. keep.
Qed.

Lemma refresh_local_scan_keeps w : keeps w → act_post (refresh_local_scan input) w (λ _, keeps).
Proof. intros Hw. unfold refresh_local_scan. apply act_post_gets. keep. Qed.
Hint Resolve refresh_local_scan_keeps : kuku.

Lemma persist_applied_commit_keeps commit tree synced w :
  keeps w → act_post (persist_applied_commit input commit tree synced) w (λ _, keeps).
Proof. intros Hw. unfold persist_applied_commit. do 2 keep_step. apply act_post_gets. keep. Qed.
End frame.

(** C24: frame of a replayed commit. Whatever the outcome of
    [apply_decrypted_commit], a file outside the paths the commit names keeps its
    content; in particular nothing outside the vault root changes. *)
Theorem apply_decrypted_commit_frame (input : PullInput) (merge_state : RemoteMergeState)
    (tree : Tree) (commit : DecryptedCommit) (w w' : World) (r : SyncResult Tree)
    (q : AbsPath) (content : bytes) (m : Z) :
  Forall (λ change, no_backslash (change_path change)) (b_changes (dc_body commit)) →
  (∀ change fs, change ∈ b_changes (dc_body commit) →
     ¬ resolves fs (in_vault_root input) (change_path change) q) →
  w_fs w !! q = Some (File content m) →
  apply_decrypted_commit input merge_state tree commit w = (r, w') →
  w_fs w' !! q = Some (File content m).
Proof.
  intros Hb Hq Hl Happ. eapply (act_post_elim _ _ (λ _ w', keeps q content m w') r w'); [|exact Happ].
  clear Happ r w'. apply act_post_seq.
  - apply (act_post_fold (keeps q content m)); [done|]. intros st change w1 Hin Hw1.
    apply apply_change_keeps; [|done]. split; [by rewrite Forall_forall in Hb; apply Hb|].
    intros fs. by apply Hq.
  - intros [tree' synced] w1 Hw1. apply act_post_seq; [by apply persist_applied_commit_keeps|done].
Qed.
End safety.

(** The second device of the story edits the first line of a file whose second
    line the next commit changes. *)
Module Examples.
Import Story.
#[local] Existing Instance published_service.

Definition path : string := "notes/a.md".
Definition target : AbsPath := ["v"; "notes"; "a.md"].
Definition edited : bytes := two_lines "ONE" "two".
Definition remote : bytes := two_lines "one" "TWO".
Definition device : World :=
  set_fs (<[target := File edited 11]> (w_fs pulled.2)) pulled.2.
Definition row : SyncFileRecord :=
  {| f_file_id := file_id_for_normalized_path path; f_path := path; f_normalized_path := path;
     f_kind := FILE_KIND_MARKDOWN; f_plaintext_hash := Some (blake3_hex edited);
     f_size_bytes := Some 8%Z; f_mtime_ms := Some 11%Z; f_last_synced_commit_id := None;
     f_dirty := true; f_deleted := false |}.
Definition entry_tree : Tree :=
  insert_all ∅ ((λ e, (t_file_id e, e)) <$> (adopt_commit (pp_commit_id prepared) <$> pp_tree_entries prepared)).
Definition change : CommitBodyFileOp :=
  UpsertFile (file_id_for_normalized_path path) path path (blake3_hex remote) 8
    {| cr_object_id := "pack-2"; cr_entry_id := "entry-2" |}.
Definition second_commit : DecryptedCommit :=
  {| dc_header := published_header commit 2;
     dc_body := {| b_format := ""; b_version := 1; b_commit_id := ""; b_commit_kind := "";
                   b_parent_commit_ids := []; b_tree_id := ""; b_changes := [change]; b_packs := [] |};
     dc_packs := {["pack-2" := {| up_index := {| pi_format := ""; pi_version := 1; pi_pack_id := "";
                                                 pi_entries := [] |};
                                  up_entries := {["entry-2" := remote]} |}]} |}.
Definition after : SyncResult (Tree * list string) * World :=
  apply_change pull {[change_file_id change := row]} second_commit (entry_tree, []) change device.

Lemma keeps_local_edits_witness :
  w_fs after.2 !! target = Some (File (two_lines "ONE" "TWO") 9) ∧
  edit_survives pull (entry_tree !! change_file_id change) (Some remote) target edited 11 device after.2.
Proof.
  split; [vm_compute; reflexivity|].
  assert (Hremote : remote_content second_commit change = Some remote) by (vm_compute; reflexivity).
  rewrite <- Hremote.
  apply (apply_change_keeps_local_edits pull {[change_file_id change := row]} second_commit entry_tree []
           change device after.2 after.1 row target edited 11).
  - apply lookup_singleton_eq.
  - reflexivity.
  - reflexivity.
  - vm_compute. reflexivity.
  - vm_compute. reflexivity.
  - vm_compute. reflexivity.
  - unfold after. apply surjective_pairing.
Defined.

Definition replayed : SyncResult Tree * World :=
  apply_decrypted_commit pull {[change_file_id change := row]} entry_tree second_commit device.

Lemma commit_frame_witness : w_fs replayed.2 !! ["v"; "b.md"] = Some (File "beta" 9).
Proof.
  apply (apply_decrypted_commit_frame pull {[change_file_id change := row]} entry_tree second_commit device
           replayed.2 replayed.1 ["v"; "b.md"] "beta" 9).
  - constructor; [vm_compute; reflexivity|constructor].
  - intros c fs Hc Hres. apply list_elem_of_singleton in Hc. subst c.
    unfold resolves, resolve_vault_path_strict in Hres.
    destruct (resolve_vault_path (in_vault_root pull) (change_path change)) as [q|e] eqn:Hq;
      vm_compute in Hq; [|discriminate Hq]. injection Hq as <-. cbn [mbind result_bind] in Hres.
    apply bind_Ok_inv in Hres as (u & _ & Hres). discriminate Hres.
  - vm_compute. reflexivity.
  - unfold replayed. apply surjective_pairing.
Defined.
End Examples.
