(* ===== verification/PullReplay.v ===== *)
(** * A pull replays the history (sync/applier.rs)

    The tree of a history is what its commits say, one after the other. A pull
    ends with the local head at the remote head and the cached tree equal to the
    tree of the whole history, wherever the device started from. *)
From Stdlib Require Import Ascii String.
#[local] Set Warnings "-clear-no-such-hyp".
From S2P Require Import Prelude SyncErrors Paths Merge SyncDb Scanner Planner Crypto Keys Packer.
From S2P Require Import Watcher Commit Transfer Pull Push Toys.

(** ** Tables a step leaves alone *)

(** The vault rows and the cached trees are the same. *)
Definition same_tables (db db' : Db) : Prop :=
  db_vaults db' = db_vaults db ∧ db_tree_entries db' = db_tree_entries db.
#[export] Instance same_tables_refl : Reflexive same_tables.
Proof. by intros db. Qed.
#[export] Instance same_tables_trans : Transitive same_tables.
Proof. intros a b c [] []. split; congruence. Qed.

Lemma upsert_scanned_tables `{Unicode, Blake3, Sqlite} db f id dirty db' :
  upsert_scanned db f id dirty = Ok db' → same_tables db db'.
Proof. unfold upsert_scanned. repeat case_match; intros [= <-]; done. Qed.

Lemma apply_scan_tables `{Unicode, Blake3, Sqlite} db files now res db' :
  apply_scan db files now = Ok (res, db') → same_tables db db'.
Proof.
  unfold apply_scan. intros (st & Hfirst & Hscan)%bind_Ok_inv.
  apply bind_Ok_inv in Hscan as ([db2 dels] & Hsecond & [= <- <-]).
  assert (Hst : same_tables db (sl_db st)).
  { revert Hfirst. apply (try_fold_invariant (λ st, same_tables db (sl_db st))); [done|].
    intros s x s' _ Hs Hstep. unfold scan_file_step in Hstep. ok_inv Hstep. simpl.
    etrans; [exact Hs|]. by eapply upsert_scanned_tables. }
  change (same_tables db (db2, dels).1). revert Hsecond.
  apply (try_fold_invariant (λ s, same_tables db s.1)); [done|].
  intros [s d] x s' _ Hs Hstep. unfold scan_delete_step in Hstep. destruct (_ || _); [by injection Hstep as <-|].
  apply bind_Ok_inv in Hstep as (r & _ & [= <-]). exact Hs.
Qed.

Section replay.
Context `{Unicode, Blake3, Os, Sqlite, CryptoLib, KeyLib, PackLib, Remote}.
Context `{!Serialize PackIndex, !Deserialize PackIndex, !Serialize PackAad,
          !Serialize CommitBodyAad, !Deserialize CommitBody,
          !Serialize (list TreeCacheEntryBody), !Serialize (list string)}.

Section tables.
Context (input : PullInput) (db : Db).
Definition holds (w : World) : Prop := same_tables db (w_db w).

Lemma record_expected_holds f w : holds w → act_post (record_expected f) w (λ _, holds).
Proof. intros Hw. unfold act_post, record_expected. destruct (w_ledger w); [by destruct (f _)|done]. Qed.
Lemma finish_remote_mutation_holds t result w :
  holds w → act_post (finish_remote_mutation t result) w (λ _, holds).
Proof. intros Hw. unfold act_post, finish_remote_mutation. by destruct result, (w_ledger w), t. Qed.
Lemma notify_search_holds n w : holds w → act_post (notify_search input n) w (λ _, holds).
Proof. intros Hw. unfold act_post, notify_search. by destruct (in_search input). Qed.
Lemma write_file_holds p c w : holds w →
  act_post ((λ w, let '(r, w) := write_file (in_clock input) p c w in (Ok r, w)) : Action (SyncResult unit)) w (λ _, holds).
Proof.
  intros Hw. unfold act_post, write_file. destruct (match p with [] => _ | _ => _ end); [|done].
  by destruct (fs_write _ _ _ _).
Qed.
Lemma remove_file_holds p w : holds w →
  act_post ((λ w, let '(r, w) := remove_file p w in (Ok r, w)) : Action (SyncResult unit)) w (λ _, holds).
Proof. intros Hw. unfold act_post, remove_file. by destruct (fs_remove_file _ _) as [|[]]. Qed.
Lemma lift_holds {A} (r : SyncResult A) w : holds w → act_post (lift r) w (λ _, holds).
Proof. done. Qed.
Lemma gets_holds {A} (f : World → A) w : holds w → act_post (gets f : Action A) w (λ _, holds).
Proof. done. Qed.
Lemma ret_holds {A} (a : A) w : holds w → act_post (mret a : Action A) w (λ _, holds).
Proof. done. Qed.
Hint Resolve record_expected_holds finish_remote_mutation_holds notify_search_holds write_file_holds
  remove_file_holds lift_holds gets_holds ret_holds : kuku.

Ltac hold_step :=
  lazymatch goal with
  | |- act_post (mbind _ _) _ _ => apply act_post_seq; [|intros]
  | |- act_post (match ?x with _ => _ end) _ _ => destruct x
  | |- act_post _ _ _ => by auto with kuku
  end.
Ltac hold := repeat hold_step.

Lemma apply_remote_write_holds path c w :
  holds w → act_post (apply_remote_write input path c) w (λ _, holds).
Proof. intros Hw. unfold apply_remote_write, resolve_remote_path. hold. Qed.
Lemma apply_remote_delete_holds path w :
  holds w → act_post (apply_remote_delete input path) w (λ _, holds).
Proof. intros Hw. unfold apply_remote_delete, resolve_remote_path. hold. Qed.
Hint Resolve apply_remote_write_holds apply_remote_delete_holds : kuku.
Lemma write_conflict_copy_holds path c base header w :
  holds w → act_post (write_conflict_copy input path c base header) w (λ _, holds).
Proof. intros Hw. unfold write_conflict_copy. hold. Qed.
Lemma read_local_file_holds path w : holds w → act_post (read_local_file input path) w (λ _, holds).
Proof. intros Hw. unfold read_local_file, resolve_remote_path. hold. Qed.
Hint Resolve write_conflict_copy_holds read_local_file_holds : kuku.
Lemma merge_remote_upsert_holds header be dirty path remote w :
  holds w → act_post (merge_remote_upsert input header be dirty path remote) w (λ _, holds).
Proof. intros Hw. unfold merge_remote_upsert. hold. Qed.
Lemma merge_remote_delete_holds header dirty path w :
  holds w → act_post (merge_remote_delete input header dirty path) w (λ _, holds).
Proof. intros Hw. unfold merge_remote_delete. hold. Qed.
Hint Resolve merge_remote_upsert_holds merge_remote_delete_holds : kuku.
Lemma apply_change_holds ms commit st change w :
  holds w → act_post (apply_change input ms commit st change) w (λ _, holds).
Proof. intros Hw. destruct st as [tree synced], change; simpl; hold. Qed.
Lemma refresh_local_scan_holds w : holds w → act_post (refresh_local_scan input) w (λ _, holds).
Proof.
  intros Hw. unfold refresh_local_scan. apply act_post_gets. hold_step; [hold|].
  apply act_post_gets, act_post_lift; [|done]. intros [res db'] Hs%apply_scan_tables.
  change (same_tables db db'). by eapply same_tables_trans.
Qed.
End tables.

(** ** The tree of a history *)

Definition history_step (input : PullInput) (tree : Tree) (header : SyncCommitHeader) : SyncResult Tree :=
  commit ← decrypt_commit input header; materialize_remote_tree_only commit tree.
Definition history_tree (input : PullInput) (headers : list SyncCommitHeader) (tree : Tree)
  : SyncResult Tree := try_fold (history_step input) tree headers.

(** Trees are keyed by the identifier of the file. *)
Definition tree_wf (tree : Tree) : Prop := ∀ id e, tree !! id = Some e → t_file_id e = id.

Lemma materialize_change_wf commit tree change tree' :
  tree_wf tree → materialize_change commit tree change = Ok tree' → tree_wf tree'.
Proof.
  intros Hwf. destruct change; simpl; intros Hm; ok_inv Hm; intros i e.
  - intros [[<- <-]|[_ Hl]]%lookup_insert_Some; [done|by apply Hwf].
  - intros [_ Hl]%lookup_delete_Some. by apply Hwf.
Qed.
Lemma history_tree_wf input headers tree tree' :
  tree_wf tree → history_tree input headers tree = Ok tree' → tree_wf tree'.
Proof.
  intros Hwf. apply (try_fold_invariant tree_wf); [done|]. intros s x s' _ Hs Hstep.
  apply bind_Ok_inv in Hstep as (commit & _ & Hm). revert Hm. unfold materialize_remote_tree_only.
  apply (try_fold_invariant tree_wf); [|intros; by eapply materialize_change_wf].
  unfold starting_tree. by case_bool_decide.
Qed.

(** The tree part of a replayed change does not depend on the local files. *)
Lemma apply_change_tree input ms commit tree synced change w tree' synced' w' :
  apply_change input ms commit (tree, synced) change w = (Ok (tree', synced'), w') →
  materialize_change commit tree change = Ok tree'.
Proof.
  destruct change; simpl; intros Happ.
  - apply act_lift_Ok in Happ as ([] & -> & Happ). simpl.
    apply act_lift_Ok in Happ as (remote & -> & Happ). simpl.
    apply act_lift_Ok in Happ as ([] & -> & Happ). simpl.
    apply act_bind_Ok in Happ as (action & w1 & _ & Happ). by injection Happ as <-.
  - apply act_lift_Ok in Happ as ([] & -> & Happ). simpl.
    apply act_bind_Ok in Happ as (action & w1 & _ & Happ). by injection Happ as <-.
Qed.

(** Reading back the rows of a tree. *)
Lemma btree_values_perm {V} (t : gmap string V) : btree_values t ≡ₚ (map_to_list t).*2.
Proof. unfold btree_values. by rewrite sort_by_perm. Qed.
Lemma tree_entries_sorted_perm (t : Tree) : tree_entries_sorted t ≡ₚ (map_to_list t).*2.
Proof. unfold tree_entries_sorted. by rewrite sort_by_perm, btree_values_perm. Qed.

Lemma tree_read_back (tree : Tree) entries :
  tree_wf tree → entries ≡ₚ (map_to_list tree).*2 →
  insert_all ∅ ((λ e, (t_file_id e, e)) <$> entries) = tree.
Proof.
  intros Hwf Hp.
  assert (Hrows : (λ e, (t_file_id e, e)) <$> entries ≡ₚ map_to_list tree).
  { rewrite Hp, <- list_fmap_compose. rewrite <- (list_fmap_id (map_to_list tree)) at 2.
    apply reflexive_eq, list_fmap_ext. intros i [k e] Hin%list_elem_of_lookup_2%elem_of_map_to_list.
    simpl. by rewrite (Hwf _ _ Hin). }
  rewrite insert_all_union, (right_id_L ∅ (∪)).
  - rewrite <- (list_to_map_to_list tree). apply list_to_map_proper; [|done].
    rewrite Hrows. apply NoDup_fst_map_to_list.
  - rewrite Hrows. apply NoDup_fst_map_to_list.
Qed.

Lemma tree_read_back_db db v id (tree : Tree) :
  tree_wf tree → v_local_head_commit_id v = Some id →
  list_tree_entries db id ≡ₚ tree_entries_sorted tree → initial_tree_entries db v = tree.
Proof.
  intros Hwf Hv Hp. unfold initial_tree_entries. rewrite Hv.
  apply tree_read_back; [done|]. by rewrite Hp, tree_entries_sorted_perm.
Qed.

(** The vault is at commit [id] and the cached tree of [id] is [tree]. *)
Definition at_commit (input : PullInput) (id : string) (tree : Tree) (w : World) : Prop :=
  ∃ v, get_vault (w_db w) (in_vault_id input) = Some v ∧
    v_local_head_commit_id v = Some id ∧ v_remote_head_commit_id v = Some id ∧
    initial_tree_entries (w_db w) v = tree.

Lemma persist_applied_commit_Ok input commit tree synced w w' u :
  tree_wf tree → is_Some (get_vault (w_db w) (in_vault_id input)) →
  persist_applied_commit input commit tree synced w = (Ok u, w') →
  validate_tree_id (b_tree_id (dc_body commit)) (tree_entries_sorted tree) = Ok tt ∧
  at_commit input (h_commit_id (dc_header commit)) tree w'.
Proof.
  intros Hwf [v Hv] Hp. unfold persist_applied_commit in Hp.
  apply act_lift_Ok in Hp as ([] & Hval & Hp). split; [done|].
  apply act_lift_Ok in Hp as (json & _ & Hp).
  apply act_bind_Ok in Hp as (db & w1 & [= <- <-] & Hp).
  apply act_lift_Ok in Hp as (db1 & Hcache & Hp).
  apply act_bind_Ok in Hp as (u1 & w1 & [= <- <-] & Hp).
  apply act_bind_Ok in Hp as (u2 & w2 & Hscan & Hp).
  assert (Hsame : same_tables db1 (w_db w2)).
  { eapply (act_post_elim _ _ (λ _ w, holds db1 w)); [|exact Hscan].
    apply refresh_local_scan_holds. unfold holds. done. }
  apply act_bind_Ok in Hp as (u3 & w3 & [= <- <-] & Hp).
  apply act_lift_Ok in Hp as (parents & _ & Hp).
  apply act_bind_Ok in Hp as (u4 & w4 & [= <- <-] & [= _ <-]).
  destruct Hsame as [Hvaults Htrees].
  assert (Hv2 : db_vaults (w_db w2) !! in_vault_id input = Some v).
  { rewrite Hvaults. unfold persist_tree_cache in Hcache. by apply bind_Ok_inv in Hcache as (m & _ & [= <-]). }
  eexists. unfold get_vault. simpl. rewrite lookup_alter_eq, Hv2. simpl. split_and!; try done.
  apply (tree_read_back_db _ _ (h_commit_id (dc_header commit))); [done..|].
  apply persist_tree_cache_lists in Hcache as [Hl _]. rewrite <- Hl.
  unfold list_tree_entries. simpl. by rewrite Htrees.
Qed.

Lemma apply_decrypted_commit_Ok input ms tree commit w tree' w' :
  tree_wf tree → is_Some (get_vault (w_db w) (in_vault_id input)) →
  apply_decrypted_commit input ms tree commit w = (Ok tree', w') →
  materialize_remote_tree_only commit tree = Ok tree' ∧
  validate_tree_id (b_tree_id (dc_body commit)) (tree_entries_sorted tree') = Ok tt ∧
  at_commit input (h_commit_id (dc_header commit)) tree' w'.
Proof.
  intros Hwf [v Hv] Happ. unfold apply_decrypted_commit in Happ.
  apply act_bind_Ok in Happ as ([tree1 synced] & w1 & Hfold & Happ).
  apply act_bind_Ok in Happ as (u & w2 & Hpersist & [= <- <-]).
  assert (Hmat : materialize_remote_tree_only commit tree = Ok tree1).
  { pose proof (act_fold_invariant (λ d st w1,
      try_fold (materialize_change commit) (starting_tree (dc_header commit) tree) d = Ok st.1)
      (apply_change input ms commit) [] (starting_tree (dc_header commit) tree, []) (b_changes (dc_body commit))
      w (tree1, synced) w1 eq_refl) as Hinv. apply Hinv; [|done].
    intros d [t sy] wa x [t' sy'] wb _ HP Hstep. rewrite try_fold_app. simpl in *. rewrite HP. simpl.
    apply apply_change_tree in Hstep as ->. done. }
  assert (Hwf1 : tree_wf tree1).
  { revert Hmat. apply (try_fold_invariant tree_wf); [|intros; by eapply materialize_change_wf].
    unfold starting_tree. by case_bool_decide. }
  assert (Hsame : holds (w_db w) w1).
  { eapply (act_post_elim _ _ (λ _ w1, holds (w_db w) w1)); [|exact Hfold].
    apply act_post_fold; [by unfold holds|]. intros. by apply apply_change_holds. }
  split; [done|]. eapply persist_applied_commit_Ok; [done| |exact Hpersist].
  exists v. unfold get_vault. by destruct Hsame as [-> _].
Qed.

Lemma replay_Ok input ms tree replay w tree' ids w' :
  tree_wf tree → is_Some (get_vault (w_db w) (in_vault_id input)) →
  act_fold (replay_commit input ms) (tree, []) replay w = (Ok (tree', ids), w') →
  history_tree input replay tree = Ok tree' ∧ ids = h_commit_id <$> replay ∧
  ∀ c, last replay = Some c → at_commit input (h_commit_id c) tree' w'.
Proof.
  intros Hwf Hv Hfold.
  pose proof (act_fold_invariant (λ d st w1,
      history_tree input d tree = Ok st.1 ∧ st.2 = h_commit_id <$> d ∧
      is_Some (get_vault (w_db w1) (in_vault_id input)) ∧
      ∀ c, last d = Some c → at_commit input (h_commit_id c) st.1 w1)
      (replay_commit input ms) [] (tree, []) replay w (tree', ids) w') as Hinv.
  destruct Hinv as (Hr1 & Hr2 & _ & Hr4); [|clear Hfold|done|done].
  - split_and!; done.
  - intros d [t ids0] wa header [t' ids1] wb _ (Hh & Hids & Hva & _) Hstep. simpl in *.
    unfold replay_commit in Hstep. apply act_lift_Ok in Hstep as (commit & Hdec & Hstep).
    apply act_bind_Ok in Hstep as (t1 & w1 & Happ & [= <- <- <-]).
    apply apply_decrypted_commit_Ok in Happ as (Hmat & _ & Hat); [|by eapply history_tree_wf|done].
    assert (Hhd : dc_header commit = header).
    { unfold decrypt_commit in Hdec. ok_inv Hdec. done. }
    rewrite Hhd in Hat. split_and!.
    + unfold history_tree in *. rewrite try_fold_app, Hh. simpl. unfold history_step. rewrite Hdec. simpl.
      simpl in Hmat. by rewrite Hmat.
    + by rewrite fmap_app, Hids.
    + destruct Hat as (v & Hget & _). by exists v.
    + intros c. rewrite last_snoc. by intros [= <-].
Qed.

Lemma history_tree_cons input header headers tree :
  history_tree input (header :: headers) tree =
  (commit ← decrypt_commit input header; tree1 ← materialize_remote_tree_only commit tree;
   history_tree input headers tree1).
Proof.
  unfold history_tree. simpl. unfold history_step at 2. by destruct (decrypt_commit input header).
Qed.

Lemma rematerialize_Ok input target commits tree t pre c post :
  rematerialize_tree_entries input target commits tree = Ok t →
  commits = pre ++ c :: post → h_commit_id c = target → Forall (λ c, h_commit_id c ≠ target) pre →
  history_tree input (pre ++ [c]) tree = Ok t.
Proof.
  intros Hr -> Hid Hpre. revert tree Hr.
  induction Hpre as [|d pre Hd Hpre IH]; intros tree; simpl; intros Hr;
    apply bind_Ok_inv in Hr as (commit & Hdec & Hr); apply bind_Ok_inv in Hr as (tree1 & Hmat & Hr);
    rewrite history_tree_cons, Hdec; cbn [mbind result_bind]; rewrite Hmat; cbn [mbind result_bind].
  - by rewrite bool_decide_eq_true_2 in Hr.
  - rewrite bool_decide_eq_false_2 in Hr by done. by apply IH.
Qed.

Lemma history_tree_app input l1 l2 tree :
  history_tree input (l1 ++ l2) tree = (t ← history_tree input l1 tree; history_tree input l2 t).
Proof. apply try_fold_app. Qed.

(** A history that starts at a checkpoint forgets what was before. *)
Lemma history_tree_checkpoint input c rest tree tree' :
  h_commit_kind c = KindCheckpoint →
  history_tree input (c :: rest) tree = history_tree input (c :: rest) tree'.
Proof.
  intros Hc. unfold history_tree. simpl.
  replace (history_step input tree c) with (history_step input tree' c); [done|].
  unfold history_step. destruct (decrypt_commit input c) as [commit|e] eqn:Hdec; [|done]. simpl.
  assert (Hhd : dc_header commit = c) by (unfold decrypt_commit in Hdec; by ok_inv Hdec).
  unfold materialize_remote_tree_only, starting_tree. by rewrite Hhd, bool_decide_eq_true_2.
Qed.

(** The tree cached for the local head is the one its history describes. *)
Definition cache_sound (input : PullInput) (commits : list SyncCommitHeader) (db : Db) : Prop :=
  ∀ v before c after, get_vault db (in_vault_id input) = Some v →
    commits = before ++ c :: after → v_local_head_commit_id v = Some (h_commit_id c) →
    Forall (λ d, h_commit_id d ≠ h_commit_id c) before → initial_tree_entries db v ≠ ∅ →
    history_tree input (before ++ [c]) ∅ = Ok (initial_tree_entries db v).

(** Rows of the vault table have their identifier as key. *)
Definition vaults_keyed (db : Db) : Prop := ∀ id v, db_vaults db !! id = Some v → v_vault_id v = id.

Lemma get_vault_upsert db v : is_Some (get_vault (upsert_vault db v) (v_vault_id v)).
Proof. unfold get_vault, upsert_vault. simpl. rewrite lookup_insert_eq. by eexists. Qed.

(** The pull after the vault row was written: the tree it starts from. *)
Lemma starting_tree_Ok input head db v commits sel tree T :
  select_replay_commits (pull_vault_record input head (get_vault db (in_vault_id input))) head commits
    = Ok sel → rs_commits sel ≠ [] →
  v = pull_vault_record input head (get_vault db (in_vault_id input)) →
  initial_or_rematerialized_tree_entries input db v commits = Ok tree →
  (∀ c, c ∈ commits → h_commit_id c = latest_checkpoint_commit_id head → h_commit_kind c = KindCheckpoint) →
  (∀ v0, get_vault db (in_vault_id input) = Some v0 → v_local_head_commit_id v0 ≠ Some "") →
  cache_sound input commits db → history_tree input commits ∅ = Ok T →
  tree_wf tree ∧ history_tree input (rs_commits sel) tree = Ok T ∧
  ∃ c, last (rs_commits sel) = Some c ∧ h_commit_id c = current_head_commit_id head.
Proof.
  intros Hsel Hne -> Htree Hcp Hhead Hcache HT. set (v := pull_vault_record _ _ _) in *.
  assert (Hempty : tree_wf ∅) by (by intros i e; rewrite lookup_empty).
  assert (Hlocal : v_local_head_commit_id v = get_vault db (in_vault_id input) ≫= v_local_head_commit_id)
    by done.
  apply select_replay_commits_correct in Hsel as [(_ & Hnil & _)|(_ & pre & Hsplit & Hlast & Hloc & Hnone & Hck)];
    [done|].
  unfold initial_or_rematerialized_tree_entries in Htree.
  destruct (v_local_head_commit_id v) as [local|] eqn:Hv; simpl in *.
  - assert (Hl : local ≠ "").
    { destruct (get_vault db (in_vault_id input)) as [v0|] eqn:Hg; [|done].
      change (Some local = v_local_head_commit_id v0) in Hlocal.
      intros ->. by apply (Hhead v0). }
    destruct (Hloc Hl) as (_ & before & c & -> & Hid & Hbefore).
    rewrite <- app_assoc in Hsplit. simpl in Hsplit.
    assert (Hpre : history_tree input (before ++ [c]) ∅ = Ok tree).
    { replace (str_is_empty local) with false in Htree by (by destruct local). simpl in Htree.
      case_bool_decide as Ht; simpl in Htree; [by eapply rematerialize_Ok|]. injection Htree as <-.
      destruct (get_vault db (in_vault_id input)) as [v0|] eqn:Hg; [|done].
      change (Some local = v_local_head_commit_id v0) in Hlocal.
      assert (Hsame : initial_tree_entries db v = initial_tree_entries db v0)
        by (unfold initial_tree_entries; by replace (v_local_head_commit_id v) with (v_local_head_commit_id v0)).
      rewrite Hsame in *. eapply Hcache; [done|exact Hsplit|by rewrite Hid, <- Hlocal|by rewrite Hid|done]. }
    split; [by eapply history_tree_wf|]. split; [|done].
    change (c :: rs_commits sel) with ([c] ++ rs_commits sel) in Hsplit.
    rewrite app_assoc in Hsplit. rewrite Hsplit, history_tree_app, Hpre in HT. exact HT.
  - unfold initial_tree_entries in Htree.
    replace (v_local_head_commit_id v) with (@None string) in Htree by (symmetry; exact Hv).
    injection Htree as <-.
    split; [done|]. split; [|done].
    destruct (decide (latest_checkpoint_commit_id head = "")) as [Hc|Hc].
    + destruct (Hnone eq_refl Hc) as [-> _]. simpl in Hsplit. by rewrite <- Hsplit.
    + destruct (Hck eq_refl Hc) as ((c & rest & Hsel & Hid) & _). rewrite Hsel in *.
      rewrite Hsplit, history_tree_app in HT. apply bind_Ok_inv in HT as (t & _ & HT).
      rewrite <- HT. apply history_tree_checkpoint. apply Hcp; [|done]. rewrite Hsplit. set_solver.
Qed.

(** C1: a pull converges to the remote history. Suppose the whole remote history
    decodes to the tree [T], the checkpoint the service names is a checkpoint, and
    the tree cached for the local head, if any, is what the history up to it
    describes. Then a pull that applied commits, wherever it started from (an
    empty device, a checkpoint, a cached tree, a lost cache), ends with the vault
    at the remote head and the cached tree equal to [T]; the commits it reports
    are a suffix of the history. *)
Theorem pull_converges (fuel : nat) (input : PullInput) (w w' : World) (res : PullRemoteChangesResult)
    (head : SyncHead) (commits : list SyncCommitHeader) (T : Tree) :
  vaults_keyed (w_db w) →
  (∀ v, get_vault (w_db w) (in_vault_id input) = Some v → v_local_head_commit_id v ≠ Some "") →
  get_head (in_workspace_id input) = Ok head →
  list_all_commits fuel (in_workspace_id input) = Some (Ok commits) →
  (∀ c, c ∈ commits → h_commit_id c = latest_checkpoint_commit_id head → h_commit_kind c = KindCheckpoint) →
  cache_sound input commits (w_db w) →
  history_tree input commits ∅ = Ok T →
  pull_remote_changes fuel input w = Some (Ok res, w') → applied_commits res ≠ [] →
  at_commit input (current_head_commit_id head) T w' ∧
  ∃ pre replay, commits = pre ++ replay ∧ applied_commits res = h_commit_id <$> replay.
Proof.
  intros Hkeyed Hhead Hgh Hlist Hcp Hcache HT Hpull Happ.
  unfold pull_remote_changes in Hpull. rewrite Hlist in Hpull.
  set (v := pull_vault_record input head (get_vault (w_db w) (in_vault_id input))).
  destruct (validate_pull_input input) as [u|e] eqn:Hvalid.
  2:{ unfold mbind, act_bind, lift in Hpull. by injection Hpull. }
  set (w1 := set_db (upsert_vault (w_db w) v) w).
  replace ((_ ← lift (Ok u); _) w) with (Ok (E := SyncError) (head, v), w1) in Hpull
    by (unfold mbind, act_bind, lift; by rewrite Hgh).
  assert (Hvid : v_vault_id v = in_vault_id input).
  { unfold v, pull_vault_record. simpl. destruct (get_vault _ _) as [v0|] eqn:Hg; [|done]. by apply Hkeyed. }
  assert (Hrow : is_Some (get_vault (w_db w1) (in_vault_id input))).
  { rewrite <- Hvid. apply get_vault_upsert. }
  destruct (str_is_empty (current_head_commit_id head)); [injection Hpull as <- <-; done|].
  apply (inj Some) in Hpull. unfold lift at 1 in Hpull.
  apply act_bind_Ok in Hpull as (commits' & w2 & [= <- <-] & Hpull).
  apply act_lift_Ok in Hpull as (sel & Hsel & Hpull).
  destruct (rs_commits sel) as [|c replay] eqn:Hrs; [injection Hpull as <- <-; done|].
  rewrite <- Hrs in Hpull.
  apply act_bind_Ok in Hpull as (u2 & w2 & Hscan & Hpull).
  assert (Hsame : same_tables (w_db w1) (w_db w2)).
  { eapply (act_post_elim _ _ (λ _ w, holds (w_db w1) w)); [|exact Hscan].
    apply refresh_local_scan_holds. by unfold holds. }
  apply act_bind_Ok in Hpull as (ms & w3 & [= <- <-] & Hpull).
  apply act_bind_Ok in Hpull as (db & w3 & [= <- <-] & Hpull).
  apply act_lift_Ok in Hpull as (tree & Htree & Hpull).
  apply act_bind_Ok in Hpull as ([tree' ids] & w3 & Hfold & [= <- <-]).
  assert (Hinit : initial_tree_entries (w_db w2) v = initial_tree_entries (w_db w) v).
  { unfold initial_tree_entries. destruct (v_local_head_commit_id v); [|done].
    unfold list_tree_entries. by destruct Hsame as [_ ->]. }
  unfold initial_or_rematerialized_tree_entries in Htree. rewrite Hinit in Htree.
  destruct (starting_tree_Ok input head (w_db w) v commits sel tree T) as (Hwf & Hhist & c' & Hlast & Hid);
    [done|by rewrite Hrs|done..|].
  apply replay_Ok in Hfold as (Hh & Hids & Hat); [|done|].
  2:{ destruct Hrow as [r Hr]. exists r. unfold get_vault in *. by destruct Hsame as [-> _]. }
  rewrite Hh in Hhist. injection Hhist as ->. specialize (Hat c' Hlast). rewrite Hid in Hat.
  split; [exact Hat|].
  apply select_replay_commits_correct in Hsel as [(_ & Hnil & _)|(_ & pre & Hsplit & _)];
    [by rewrite Hnil in Hrs|]. by exists pre, (rs_commits sel).
Qed.
End replay.

Module Examples.
Import Story.
#[local] Existing Instance published_service.

Definition history : list SyncCommitHeader := [published_header commit 1].

Lemma list_all_commits_witness : list_all_commits 2 "w" = Some (Ok history).
Proof.
  apply (proj1 (list_all_commits_complete "w" history 2)).
  - intros after. reflexivity.
  - repeat constructor.
  - constructor; [reflexivity|constructor].
  - simpl. lia.
Defined.

Definition history_result : SyncResult Tree := history_tree pull history ∅.

Lemma pull_converges_witness :
  at_commit pull (pc_commit_id commit) (ok_or_default ∅ history_result) pulled.2 ∧
  t_normalized_path <$> tree_entries_sorted (ok_or_default ∅ history_result) = ["b.md"; "notes/a.md"].
Proof.
  split; [|vm_compute; reflexivity].
  apply (pull_converges 2 pull fresh_device pulled.2 pulled.1 published_head history).
  - intros id v Hv. vm_compute in Hv. discriminate Hv.
  - intros v Hv. vm_compute in Hv. discriminate Hv.
  - reflexivity.
  - reflexivity.
  - intros c Hc _. apply list_elem_of_singleton in Hc. rewrite Hc. vm_compute. reflexivity.
  - intros v before c after Hv. vm_compute in Hv. discriminate Hv.
  - apply ok_or_default_Ok. vm_compute. reflexivity.
  - unfold pulled. destruct (pull_remote_changes 2 pull fresh_device) as [[[res|e] w]|] eqn:Hp.
    + reflexivity.
    + exfalso. assert (Hl : applied_commits pulled.1 = []) by (unfold pulled; rewrite Hp; reflexivity).
      vm_compute in Hl. discriminate Hl.
    + exfalso. assert (Hl : applied_commits pulled.1 = []) by (unfold pulled; rewrite Hp; reflexivity).
      vm_compute in Hl. discriminate Hl.
  - intros Hnil. vm_compute in Hnil. discriminate Hnil.
Defined.
End Examples.
