(* ===== verification/Knowledge.v ===== *)
(** * Knowledge texts (knowledge/markdown.rs, knowledge/models.rs)

    Memory items and wiki pages as markdown with a YAML front matter: identifiers,
    vault-relative paths, checksums and the validation of every field. The YAML
    reader and writer, SHA-256, Unicode normalization and the calendar are
    external code. *)
From Stdlib Require Import Ascii String.
#[local] Set Warnings "-clear-no-such-hyp".
From S2P Require Import Prelude Text Paths Crypto.

(** ** External code *)

(** serde_yaml: the text of a value; reading one, with the message of a failure. *)
Class YamlWrite (T : Type) := yaml_to_string : T → Result string string.
Class YamlRead (T : Type) := yaml_from_str : string → Result string T.
(** icu_normalizer: normalization form C *)
Class Nfc := { nfc : string → string }.
(** chrono, on seconds since the epoch *)
Class Chrono := {
  parse_from_rfc3339 : string → bool;
  to_rfc3339_secs : Z → string;
  to_path_timestamp : Z → string }.

(** ** Data *)

Inductive KnowledgeIdPrefix :=
| PrefixMemory | PrefixWiki | PrefixProposal | PrefixChange | PrefixDecision | PrefixDocument.
Definition prefix_str (p : KnowledgeIdPrefix) : string :=
  match p with
  | PrefixMemory => "mem"
  | PrefixWiki => "wiki"
  | PrefixProposal => "prop"
  | PrefixChange => "change"
  | PrefixDecision => "decision"
  | PrefixDocument => "doc"
  end.

Inductive KnowledgeErrorCode :=
| CodeInvalidArgument | CodeValidationFailed | CodeUnsafePath | CodeAlreadyExists | CodeNotPending
| CodeApplyInProgress | CodeApplyRecoveryRequired | CodeApplyFailed | CodeDocumentChanged | CodeIoError.
#[export] Instance KnowledgeErrorCode_eq_dec : EqDecision KnowledgeErrorCode.
Proof. solve_decision. Defined.

Record SourceRange := { start_line : Z; end_line : Z }.
Record SourceRefInput := {
  fi_path : string;
  fi_title : option string;
  fi_section_path : option (list string);
  fi_range : option SourceRange;
  fi_checksum : option string;
  fi_captured_at : option string }.
Record SourceRef := {
  sf_path : string;
  sf_title : option string;
  sf_section_path : option (list string);
  sf_range : option SourceRange;
  sf_checksum : option string;
  sf_captured_at : string }.

Inductive WikiPageType := TypeSource | TypeConcept | TypeEntity | TypeSynthesis.
Inductive WikiPageStatus := WikiActive | WikiArchived | WikiSuperseded.
Inductive MemoryStatus := MemoryActive | MemoryArchived | MemorySuperseded.

Record WikiPage := {
  wp_id : string;
  wp_page_type : WikiPageType;
  wp_title : string;
  wp_status : WikiPageStatus;
  wp_tags : list string;
  wp_source_refs : list SourceRef;
  wp_created_at : string;
  wp_updated_at : string;
  wp_proposal_id : string;
  wp_decision_document : string;
  wp_body : string }.
Record MemoryItem := {
  mi_id : string;
  mi_kind : option string;
  mi_title : string;
  mi_status : MemoryStatus;
  mi_tags : list string;
  mi_source_refs : list SourceRef;
  mi_created_at : string;
  mi_updated_at : string;
  mi_proposal_id : string;
  mi_decision_document : string;
  mi_body : string }.

Record KnowledgeModelError := { ke_field : string; ke_message : string }.
Abbreviation ModelResult := (Result KnowledgeModelError).
Definition model_error (field message : string) : KnowledgeModelError :=
  {| ke_field := field; ke_message := message |}.

Definition MAX_ID_BODY_LEN : nat := 80.
Definition MAX_SLUG_LEN : nat := 80.
Definition MAX_SOURCE_PATH_CHARS : nat := 1024.
Definition MAX_TITLE_CHARS : nat := 160.
Definition MAX_SECTION_PATH_ENTRIES : nat := 16.
Definition MAX_SECTION_PATH_ENTRY_CHARS : nat := 120.
Definition MAX_WIKI_PATH_CHARS : nat := 1024.

(** ** Checksums and times *)

Definition sha256_checksum_bytes `{CryptoLib} (b : bytes) : string := "sha256:" +:+ hex_encode (sha256 b).
Definition format_utc_timestamp `{Chrono} (time : Z) : string := to_rfc3339_secs time.
Definition format_path_timestamp `{Chrono} (time : Z) : string := to_path_timestamp time.

Definition is_ascii_hexdigit (a : ascii) : bool :=
  let n := ascii_code a in
  (((48 <=? n) && (n <=? 57)) || ((65 <=? n) && (n <=? 70)) || ((97 <=? n) && (n <=? 102)))%N.
Definition is_ascii_uppercase (a : ascii) : bool := let n := ascii_code a in ((65 <=? n) && (n <=? 90))%N.
Definition is_ascii_lowercase (a : ascii) : bool := let n := ascii_code a in ((97 <=? n) && (n <=? 122))%N.
Definition is_ascii_digit (a : ascii) : bool := let n := ascii_code a in ((48 <=? n) && (n <=? 57))%N.

Definition validate_sha256_checksum (value field : string) : ModelResult unit :=
  match strip_prefix "sha256:" value with
  | None => Err (model_error field "Invalid checksum prefix")
  | Some hex =>
      _ ← reject_if (negb ((String.length hex =? 64) && str_forallb is_ascii_hexdigit hex))
            (model_error field "Invalid checksum");
      reject_if (str_existsb is_ascii_uppercase hex) (model_error field "Checksum hex must be lowercase")
  end.

Definition validate_timestamp `{Chrono} (value field : string) : ModelResult unit :=
  _ ← reject_if (negb (parse_from_rfc3339 value)) (model_error field "Invalid timestamp");
  reject_if (negb (ends_with "Z" value) || str_contains "." value)
    (model_error field "Timestamp must be UTC seconds precision").

(** ** Identifiers *)

Definition id_char (a : ascii) : bool := is_ascii_lowercase a || is_ascii_digit a.
Definition valid_id_body (body : string) : bool :=
  match body with
  | EmptyString => false
  | String first rest =>
      id_char first && (char_count body <=? MAX_ID_BODY_LEN)
      && str_forallb (λ a, id_char a || Ascii.eqb a "_") rest
  end.

(** [value.split_once('_')] *)
Fixpoint split_once (sep : ascii) (s : string) : option (string * string) :=
  match s with
  | EmptyString => None
  | String a s =>
      if Ascii.eqb a sep then Some (EmptyString, s)
      else '(before, after) ← split_once sep s; Some (String a before, after)
  end.
Definition is_valid_knowledge_id (value : string) : bool :=
  match split_once "_" value with
  | None => false
  | Some (prefix, body) =>
      bool_decide (prefix ∈ ["mem"; "wiki"; "prop"; "change"; "decision"; "doc"]) && valid_id_body body
  end.

Fixpoint strip_first_prefix (prefixes : list string) (value : string) : string :=
  match prefixes with
  | [] => value
  | p :: prefixes =>
      match strip_prefix p value with Some s => s | None => strip_first_prefix prefixes value end
  end.
Definition strip_known_prefix (value : string) : string :=
  strip_first_prefix ["mem_"; "wiki_"; "prop_"; "change_"; "decision_"; "doc_"] value.

(** The loop of [sanitize_id_body] and of [slugify_title]: letters and digits in
    lower case, every other run as one separator, none in front. [started] tells
    that something was pushed, [last] that it was a separator. *)
Fixpoint separated (sep : ascii) (started last : bool) (s : string) : string :=
  match s with
  | EmptyString => EmptyString
  | String a s =>
      if is_ascii_alphanumeric a then String (ascii_lower a) (separated sep true false s)
      else if negb last && started then String sep (separated sep started true s)
      else separated sep started last s
  end.
(** [while s.ends_with(c) { s.pop(); }] *)
Fixpoint drop_leading (c : ascii) (s : string) : string :=
  match s with
  | EmptyString => EmptyString
  | String a s' => if Ascii.eqb a c then drop_leading c s' else s
  end.
Definition pop_trailing (c : ascii) (s : string) : string := String.rev (drop_leading c (String.rev s)).

Definition truncate_chars (value : string) (max_len : nat) : string := take_chars max_len value.
Definition sanitize_id_body (seed : string) : string :=
  let body := pop_trailing "_" (separated "_" false false (strip_known_prefix seed)) in
  let body := if str_is_empty body then "memory" else body in
  truncate_chars body MAX_ID_BODY_LEN.
Definition slugify_title (value : string) : string :=
  let slug := pop_trailing "-" (separated "-" false false value) in
  let slug := if str_is_empty slug then "memory-proposal" else slug in
  truncate_chars slug MAX_SLUG_LEN.

Definition make_knowledge_id (prefix : KnowledgeIdPrefix) (seed : string) : string :=
  prefix_str prefix +:+ "_" +:+ sanitize_id_body seed.

Definition truncate_for_suffix (value suffix : string) (max_len : nat) : string :=
  truncate_chars value (max_len - char_count suffix).
Definition id_candidate (prefix : KnowledgeIdPrefix) (base : string) (index : nat) : string :=
  let suffix := if index =? 1 then "" else "_" +:+ fmt_int (Z.of_nat index) in
  prefix_str prefix +:+ "_" +:+ truncate_for_suffix base suffix MAX_ID_BODY_LEN +:+ suffix.
Definition make_collision_free_knowledge_id (prefix : KnowledgeIdPrefix) (seed : string)
    (exists_ : string → bool) : ModelResult string :=
  let base := sanitize_id_body seed in
  ok_or (List.find (λ c, negb (exists_ c)) (id_candidate prefix base <$> seq 1 100))
    (model_error "id" "No collision-free Knowledge id is available").

(** ** Vault-relative paths *)

Definition has_windows_drive_prefix (value : string) : bool :=
  match value with
  | String a (String b (String c _)) =>
      (is_ascii_lowercase a || is_ascii_uppercase a) && Ascii.eqb b ":" && Ascii.eqb c backslash
  | _ => false
  end.

Definition hex_value (a : ascii) : option N :=
  let n := ascii_code a in
  if is_ascii_digit a then Some (n - 48)%N
  else if ((97 <=? n) && (n <=? 102))%N then Some (n - 97 + 10)%N
  else if ((65 <=? n) && (n <=? 70))%N then Some (n - 65 + 10)%N
  else None.
Fixpoint contains_percent_encoding (value : string) : bool :=
  match value with
  | EmptyString => false
  | String a rest =>
      match rest with
      | String b (String c _) =>
          Ascii.eqb a "%" && bool_decide (is_Some (hex_value b)) && bool_decide (is_Some (hex_value c))
      | _ => false
      end || contains_percent_encoding rest
  end.

(** The decoding loop of [percent_decode_segment]. *)
Fixpoint percent_decode (value field : string) : ModelResult bytes :=
  let malformed := model_error field "Malformed percent encoding" in
  match value with
  | EmptyString => Ok EmptyString
  | String a rest =>
      if negb (Ascii.eqb a "%") then String a <$> percent_decode rest field
      else match rest with
           | String b (String c rest) =>
               high ← ok_or (hex_value b) malformed;
               low ← ok_or (hex_value c) malformed;
               let decoded := ascii_of_N (high * 16 + low) in
               _ ← reject_if (Ascii.eqb decoded slash || Ascii.eqb decoded backslash)
                     (model_error field "Percent-encoded separators are not allowed");
               String decoded <$> percent_decode rest field
           | _ => Err malformed
           end
  end.
Definition percent_decode_segment (value field : string) : ModelResult string :=
  decoded ← percent_decode value field;
  _ ← reject_if (negb (utf8_valid decoded)) (model_error field "Invalid UTF-8");
  _ ← reject_if (contains_percent_encoding decoded)
        (model_error field "Repeated percent encoding is not allowed");
  Ok decoded.

Definition is_reserved_filename (value : string) : bool :=
  bool_decide (to_ascii_uppercase value ∈
    ["."; ".."; ".DS_STORE"; "CON"; "PRN"; "AUX"; "NUL"; "COM1"; "LPT1"]).

Section paths.
Context `{Nfc}.

Definition normalize_path_segment (field : string) (segments : list string) (raw_segment : string)
  : ModelResult (list string) :=
  _ ← reject_if (str_is_empty raw_segment) (model_error field "Path contains an empty segment");
  decoded ← percent_decode_segment raw_segment field;
  let segment := nfc decoded in
  _ ← reject_if (bool_decide (segment = "." ∨ segment = "..")) (model_error field "Path contains a dot segment");
  _ ← reject_if (is_reserved_filename segment)
        (model_error field ("Reserved filename is not allowed: " +:+ segment));
  _ ← reject_if (has_control segment) (model_error field "Path contains NUL or control characters");
  Ok (segments ++ [segment]).

Definition validate_safe_vault_relative_path (value field : string) : ModelResult string :=
  let trimmed := trim value in
  _ ← reject_if (str_is_empty trimmed) (model_error field "Path is empty");
  _ ← reject_if (starts_with "/" trimmed || starts_with (String backslash "") trimmed
                 || has_windows_drive_prefix trimmed)
        (model_error field "Absolute paths are not allowed");
  _ ← reject_if (has_control trimmed) (model_error field "Path contains NUL or control characters");
  segments ← try_fold (normalize_path_segment field) [] (split_on slash (str_replace backslash slash trimmed));
  Ok (join "/" segments).

Definition validate_wiki_page_path (value field : string) : ModelResult string :=
  path ← validate_safe_vault_relative_path value field;
  _ ← reject_if (MAX_WIKI_PATH_CHARS <? char_count path) (model_error field "Path is too long");
  _ ← reject_if (negb (starts_with "Knowledge/wiki/" path))
        (model_error field "Wiki page path must be under Knowledge/wiki/");
  _ ← reject_if (negb (ends_with ".md" path)) (model_error field "Wiki page path must end with .md");
  Ok path.
End paths.

(** ** Fields *)

Definition validate_non_empty_limited (value field : string) (max_chars : nat) : ModelResult unit :=
  _ ← reject_if (is_blank value) (model_error field "Value is empty");
  reject_if (max_chars <? char_count value) (model_error field "Value is too long").
Definition optional_trimmed_limited (value : option string) (field : string) (max_chars : nat)
  : ModelResult (option string) :=
  match value with
  | None => Ok None
  | Some value =>
      let trimmed := trim value in
      if str_is_empty trimmed then Ok None
      else _ ← validate_non_empty_limited trimmed field max_chars; Ok (Some trimmed)
  end.
Definition normalize_section_path (value : option (list string)) : ModelResult (option (list string)) :=
  match value with
  | None => Ok None
  | Some entries =>
      _ ← reject_if (MAX_SECTION_PATH_ENTRIES <? length entries)
            (model_error "source_refs.section_path" "Too many section path entries");
      normalized ← try_map (λ entry,
        _ ← validate_non_empty_limited (trim entry) "source_refs.section_path" MAX_SECTION_PATH_ENTRY_CHARS;
        Ok (trim entry)) entries;
      Ok (Some normalized)
  end.
Definition validate_range (value : option SourceRange) : ModelResult unit :=
  match value with
  | None => Ok tt
  | Some range =>
      reject_if ((start_line range =? 0) || (end_line range =? 0) || (end_line range <? start_line range))%Z
        (model_error "source_refs.range" "Invalid source range")
  end.
Definition validate_prefixed_id (value : string) (prefix : KnowledgeIdPrefix) (field : string)
  : ModelResult unit :=
  let expected := prefix_str prefix +:+ "_" in
  reject_if (match strip_prefix expected value with Some body => negb (valid_id_body body) | None => true end)
    (model_error field "Invalid Knowledge id").

(** [for x in l { check(x)?; }] *)
Definition check_all {X} (check : X → ModelResult unit) (l : list X) : ModelResult unit :=
  try_fold (λ _ x, check x) tt l.
(** [if let Some(x) = o { check(x)?; }] *)
Definition check_some {X} (check : X → ModelResult unit) (o : option X) : ModelResult unit :=
  match o with Some x => check x | None => Ok tt end.

Section items.
Context `{Nfc, Chrono}.

Definition normalize_source_ref (input : SourceRefInput) (captured_at : string) : ModelResult SourceRef :=
  path ← validate_safe_vault_relative_path (fi_path input) "source_refs.path";
  _ ← reject_if (MAX_SOURCE_PATH_CHARS <? char_count path) (model_error "source_refs.path" "Path is too long");
  title ← optional_trimmed_limited (fi_title input) "source_refs.title" MAX_TITLE_CHARS;
  section_path ← normalize_section_path (fi_section_path input);
  _ ← validate_range (fi_range input);
  _ ← check_some (λ c, validate_sha256_checksum c "source_refs.checksum") (fi_checksum input);
  Ok {| sf_path := path; sf_title := title; sf_section_path := section_path; sf_range := fi_range input;
        sf_checksum := fi_checksum input; sf_captured_at := captured_at |}.

Definition validate_source_ref (r : SourceRef) : ModelResult unit :=
  path ← validate_safe_vault_relative_path (sf_path r) "source_refs.path";
  _ ← reject_if (MAX_SOURCE_PATH_CHARS <? char_count path) (model_error "source_refs.path" "Path is too long");
  _ ← check_some (λ t, validate_non_empty_limited t "source_refs.title" MAX_TITLE_CHARS) (sf_title r);
  _ ← check_some (λ entries,
        _ ← reject_if (MAX_SECTION_PATH_ENTRIES <? length entries)
              (model_error "source_refs.section_path" "Too many section path entries");
        check_all (λ e, validate_non_empty_limited e "source_refs.section_path" MAX_SECTION_PATH_ENTRY_CHARS)
          entries) (sf_section_path r);
  _ ← validate_range (sf_range r);
  _ ← check_some (λ c, validate_sha256_checksum c "source_refs.checksum") (sf_checksum r);
  validate_timestamp (sf_captured_at r) "source_refs.captured_at".
Definition validate_source_refs (source_refs : list SourceRef) : ModelResult unit :=
  check_all validate_source_ref source_refs.

Definition validate_decision_document (value : string) : ModelResult unit :=
  decision_document ← validate_safe_vault_relative_path value "decision_document";
  reject_if (negb (starts_with "Knowledge/decisions/" decision_document))
    (model_error "decision_document" "Decision document must be under Knowledge/decisions/").

(** The status is always one of the three of its type. *)
Definition validate_memory_item (item : MemoryItem) : ModelResult unit :=
  _ ← validate_prefixed_id (mi_id item) PrefixMemory "id";
  _ ← check_some (λ kind, validate_non_empty_limited kind "kind" 40) (mi_kind item);
  _ ← validate_non_empty_limited (mi_title item) "title" MAX_TITLE_CHARS;
  _ ← check_all (λ tag, validate_non_empty_limited tag "tags" 40) (mi_tags item);
  _ ← validate_source_refs (mi_source_refs item);
  _ ← validate_timestamp (mi_created_at item) "created_at";
  _ ← validate_timestamp (mi_updated_at item) "updated_at";
  _ ← validate_prefixed_id (mi_proposal_id item) PrefixProposal "proposal_id";
  _ ← validate_decision_document (mi_decision_document item);
  reject_if (is_blank (mi_body item)) (model_error "body" "Body is empty").
Definition validate_wiki_page (page : WikiPage) : ModelResult unit :=
  _ ← validate_prefixed_id (wp_id page) PrefixWiki "id";
  _ ← validate_non_empty_limited (wp_title page) "title" MAX_TITLE_CHARS;
  _ ← check_all (λ tag, validate_non_empty_limited tag "tags" 40) (wp_tags page);
  _ ← validate_source_refs (wp_source_refs page);
  _ ← validate_timestamp (wp_created_at page) "created_at";
  _ ← validate_timestamp (wp_updated_at page) "updated_at";
  _ ← validate_prefixed_id (wp_proposal_id page) PrefixProposal "proposal_id";
  _ ← validate_decision_document (wp_decision_document page);
  reject_if (is_blank (wp_body page)) (model_error "body" "Body is empty").
End items.

(** ** Markdown with front matter *)

(** [MemoryFrontmatter], [WikiFrontmatter]: an item without its body. *)
Record MemoryFrontmatter := {
  mf_id : string;
  mf_kind : option string;
  mf_title : string;
  mf_status : MemoryStatus;
  mf_tags : list string;
  mf_source_refs : list SourceRef;
  mf_created_at : string;
  mf_updated_at : string;
  mf_proposal_id : string;
  mf_decision_document : string }.
Record WikiFrontmatter := {
  wf_id : string;
  wf_page_type : WikiPageType;
  wf_title : string;
  wf_status : WikiPageStatus;
  wf_tags : list string;
  wf_source_refs : list SourceRef;
  wf_created_at : string;
  wf_updated_at : string;
  wf_proposal_id : string;
  wf_decision_document : string }.
Definition memory_frontmatter (i : MemoryItem) : MemoryFrontmatter :=
  {| mf_id := mi_id i; mf_kind := mi_kind i; mf_title := mi_title i; mf_status := mi_status i;
     mf_tags := mi_tags i; mf_source_refs := mi_source_refs i; mf_created_at := mi_created_at i;
     mf_updated_at := mi_updated_at i; mf_proposal_id := mi_proposal_id i;
     mf_decision_document := mi_decision_document i |}.
Definition into_memory_item (f : MemoryFrontmatter) (body : string) : MemoryItem :=
  {| mi_id := mf_id f; mi_kind := mf_kind f; mi_title := mf_title f; mi_status := mf_status f;
     mi_tags := mf_tags f; mi_source_refs := mf_source_refs f; mi_created_at := mf_created_at f;
     mi_updated_at := mf_updated_at f; mi_proposal_id := mf_proposal_id f;
     mi_decision_document := mf_decision_document f; mi_body := body |}.
Definition wiki_frontmatter (p : WikiPage) : WikiFrontmatter :=
  {| wf_id := wp_id p; wf_page_type := wp_page_type p; wf_title := wp_title p; wf_status := wp_status p;
     wf_tags := wp_tags p; wf_source_refs := wp_source_refs p; wf_created_at := wp_created_at p;
     wf_updated_at := wp_updated_at p; wf_proposal_id := wp_proposal_id p;
     wf_decision_document := wp_decision_document p |}.
Definition into_wiki_page (f : WikiFrontmatter) (body : string) : WikiPage :=
  {| wp_id := wf_id f; wp_page_type := wf_page_type f; wp_title := wf_title f; wp_status := wf_status f;
     wp_tags := wf_tags f; wp_source_refs := wf_source_refs f; wp_created_at := wf_created_at f;
     wp_updated_at := wf_updated_at f; wp_proposal_id := wf_proposal_id f;
     wp_decision_document := wf_decision_document f; wp_body := body |}.

Definition newline : ascii := Ascii false true false true false false false false.
Definition carriage_return : ascii := Ascii true false true true false false false false.
Definition lf : string := String newline "".

(** [value.replace("\r\n", "\n").replace('\r', "\n")] *)
Fixpoint replace_crlf (s : string) : string :=
  match s with
  | EmptyString => EmptyString
  | String a s =>
      if Ascii.eqb a carriage_return
      then match s with
           | String b s' => if Ascii.eqb b newline then String newline (replace_crlf s')
                            else String a (replace_crlf s)
           | EmptyString => String a EmptyString
           end
      else String a (replace_crlf s)
  end.
Definition normalize_markdown_body_for_serialization (value : string) : string :=
  pop_trailing newline (str_replace carriage_return newline (replace_crlf value)) +:+ lf.

(** The text of a front matter between its markers. *)
Definition yaml_block (yaml : string) : string :=
  let yaml := default yaml (strip_prefix ("---" +:+ lf) yaml) in
  if ends_with lf yaml then yaml else yaml +:+ lf.

(** [s.find(needle)] as the text before and after it. *)
Fixpoint split_at_str (needle s : string) : option (string * string) :=
  match strip_prefix needle s with
  | Some after => Some (EmptyString, after)
  | None =>
      match s with
      | EmptyString => None
      | String a s => '(before, after) ← split_at_str needle s; Some (String a before, after)
      end
  end.
Definition split_frontmatter (markdown : string) : ModelResult (string * string) :=
  rest ← ok_or (strip_prefix ("---" +:+ lf) markdown) (model_error "frontmatter" "Missing frontmatter");
  ok_or (split_at_str (lf +:+ "---" +:+ lf) rest)
    (model_error "frontmatter" "Missing closing frontmatter marker").

Section markdown.
Context `{Nfc, Chrono, !YamlWrite MemoryFrontmatter, !YamlRead MemoryFrontmatter,
          !YamlWrite WikiFrontmatter, !YamlRead WikiFrontmatter}.

Definition serialize_memory_item (item : MemoryItem) : ModelResult string :=
  _ ← validate_memory_item item;
  yaml ← map_err (model_error "frontmatter") (yaml_to_string (memory_frontmatter item));
  Ok ("---" +:+ lf +:+ yaml_block yaml +:+ "---" +:+ lf
      +:+ normalize_markdown_body_for_serialization (mi_body item)).
Definition parse_memory_item (markdown : string) : ModelResult MemoryItem :=
  '(frontmatter, body) ← split_frontmatter markdown;
  parsed ← map_err (model_error "frontmatter") (yaml_from_str frontmatter);
  let item := into_memory_item parsed body in
  _ ← validate_memory_item item;
  Ok item.
Definition serialize_wiki_page (page : WikiPage) : ModelResult string :=
  _ ← validate_wiki_page page;
  yaml ← map_err (model_error "frontmatter") (yaml_to_string (wiki_frontmatter page));
  Ok ("---" +:+ lf +:+ yaml_block yaml +:+ "---" +:+ lf
      +:+ normalize_markdown_body_for_serialization (wp_body page)).
Definition parse_wiki_page (markdown : string) : ModelResult WikiPage :=
  '(frontmatter, body) ← split_frontmatter markdown;
  parsed ← map_err (model_error "frontmatter") (yaml_from_str frontmatter);
  let page := into_wiki_page parsed body in
  _ ← validate_wiki_page page;
  Ok page.
End markdown.

(** ** Vault-relative paths stay in the vault *)

(** What the Unicode standard says of normalization form C: no separator appears,
    and only the empty text becomes empty. *)
Class NfcLaws `{Nfc} : Prop := {
  nfc_empty s : nfc s = "" → s = "";
  nfc_separator a s : a = slash ∨ a = backslash →
    str_existsb (Ascii.eqb a) s = false → str_existsb (Ascii.eqb a) (nfc s) = false;
  nfc_ascii s : str_forallb (in_range 0 127) s = true → nfc s = s }.

(** Segments of accepted paths. *)
Definition safe_segment (s : string) : Prop :=
  plain_name s ∧ str_existsb (Ascii.eqb backslash) s = false ∧ is_reserved_filename s = false ∧
  has_control s = false.

Lemma percent_decode_no_separator a field n s decoded :
  String.length s ≤ n → a = slash ∨ a = backslash → str_existsb (Ascii.eqb a) s = false →
  percent_decode s field = Ok decoded → str_existsb (Ascii.eqb a) decoded = false.
Proof.
  intros Hn Ha. revert s decoded Hn. induction n as [|n IH]; intros [|b s] decoded Hn Hs Hd; simpl in Hn;
    try lia; try (apply Ok_inj in Hd; by subst decoded).
  simpl in Hs, Hd. apply orb_false_iff in Hs as [Hb Hs]. destruct (negb _).
  { destruct (percent_decode s field) as [d|] eqn:E; [|done]. apply Ok_inj in Hd. subst decoded.
    simpl. rewrite Hb. simpl. apply (IH s); [lia|done..]. }
  destruct s as [|c [|d s]]; [done..|]. simpl in Hn, Hs.
  apply orb_false_iff in Hs as [_ Hs]. apply orb_false_iff in Hs as [_ Hs].
  apply bind_Ok_inv in Hd as (high & _ & Hd). apply bind_Ok_inv in Hd as (low & _ & Hd).
  apply bind_Ok_inv in Hd as (u & Hr & Hd). apply reject_if_Ok, orb_false_iff in Hr as [Hr1 Hr2].
  destruct (percent_decode s field) as [d'|] eqn:E; [|done]. apply Ok_inj in Hd. subst decoded.
  cbn [str_existsb]. apply orb_false_iff. split.
  - rewrite Ascii.eqb_sym. by destruct Ha as [->| ->].
  - apply (IH s); [lia|done..].
Qed.
Lemma percent_decode_empty field s : percent_decode s field = Ok "" → s = "".
Proof.
  destruct s as [|a s]; [done|]. simpl. destruct (negb _).
  { by destruct (percent_decode s field). }
  destruct s as [|b [|c s]]; [done..|]. intros Hd.
  apply bind_Ok_inv in Hd as (high & _ & Hd). apply bind_Ok_inv in Hd as (low & _ & Hd).
  apply bind_Ok_inv in Hd as (u & _ & Hd). by destruct (percent_decode s field).
Qed.

Section safe_paths.
Context `{NfcLaws}.

Lemma normalize_path_segment_safe field segs raw segs' :
  str_existsb (Ascii.eqb slash) raw = false → str_existsb (Ascii.eqb backslash) raw = false →
  normalize_path_segment field segs raw = Ok segs' → ∃ s, segs' = segs ++ [s] ∧ safe_segment s.
Proof.
  intros Hs Hb Hn. unfold normalize_path_segment in Hn.
  apply bind_Ok_inv in Hn as (u1 & Hne & Hn). apply reject_if_Ok in Hne.
  apply bind_Ok_inv in Hn as (decoded & Hd & Hn).
  apply bind_Ok_inv in Hn as (u2 & Hdots & Hn). apply reject_if_Ok, bool_decide_eq_false in Hdots.
  apply bind_Ok_inv in Hn as (u3 & Hreserved & Hn). apply reject_if_Ok in Hreserved.
  apply bind_Ok_inv in Hn as (u4 & Hcontrol & Hn). apply reject_if_Ok in Hcontrol. apply Ok_inj in Hn.
  exists (nfc decoded). split; [done|].
  unfold percent_decode_segment in Hd. apply bind_Ok_inv in Hd as (d & Hdec & Hd).
  apply bind_Ok_inv in Hd as (u5 & _ & Hd). apply bind_Ok_inv in Hd as (u6 & _ & Hd). apply Ok_inj in Hd. subst d.
  assert (Hsep : ∀ a, a = slash ∨ a = backslash → str_existsb (Ascii.eqb a) raw = false →
            str_existsb (Ascii.eqb a) (nfc decoded) = false).
  { intros a Ha Hraw. apply nfc_separator; [done|].
    by eapply (percent_decode_no_separator a field (String.length raw) raw). }
  split; [|split_and!; auto]. split_and!; [|naive_solver|naive_solver|auto].
  intros Hempty. apply nfc_empty in Hempty. subst decoded. apply percent_decode_empty in Hdec. by subst raw.
Qed.

Lemma safe_path_shape value field path :
  validate_safe_vault_relative_path value field = Ok path →
  ∃ segs, segs ≠ [] ∧ Forall safe_segment segs ∧ path = join "/" segs.
Proof.
  unfold validate_safe_vault_relative_path. intros Hv.
  apply bind_Ok_inv in Hv as (u1 & _ & Hv). apply bind_Ok_inv in Hv as (u2 & _ & Hv).
  apply bind_Ok_inv in Hv as (u3 & _ & Hv). apply bind_Ok_inv in Hv as (segs & Hf & Hv). apply Ok_inj in Hv.
  exists segs. split; [|split; [|done]].
  - destruct (split_on slash (str_replace backslash slash (trim value))) as [|raw rest] eqn:E;
      [by apply split_on_not_nil in E|].
    simpl in Hf. apply bind_Ok_inv in Hf as (segs1 & H1 & Hf).
    assert (Hraws : ∀ seg, seg ∈ raw :: rest → str_existsb (Ascii.eqb slash) seg = false ∧
              str_existsb (Ascii.eqb backslash) seg = false).
    { intros seg Hin. rewrite <- E in Hin. split; [by eapply split_on_no_sep|].
      eapply str_existsb_split; [done|]. by apply str_replace_no. }
    destruct (Hraws raw) as [? ?]; [set_solver|].
    apply normalize_path_segment_safe in H1 as (s & -> & _); [|done..].
    assert (Hpos : 0 < length segs); [|by destruct segs; simpl in Hpos; [lia|]].
    revert Hf. apply (try_fold_invariant (λ l, 0 < length l)); [simpl; lia|].
    intros l x l' Hx Hpos Hl. destruct (Hraws x) as [? ?]; [set_solver|].
    apply normalize_path_segment_safe in Hl as (s' & -> & _); [|done..]. rewrite length_app. lia.
  - revert Hf. apply (try_fold_invariant (Forall safe_segment)); [by constructor|].
    intros l x l' Hx Hsafe Hl.
    apply normalize_path_segment_safe in Hl as (s & -> & Hs); [apply Forall_app; auto| |].
    + by eapply split_on_no_sep.
    + eapply str_existsb_split; [done|]. by apply str_replace_no.
Qed.
Lemma safe_segments_plain segs : Forall safe_segment segs → Forall plain_name segs.
Proof. intros Hs. eapply Forall_impl; [exact Hs|]. by intros s [? _]. Qed.

(** Paths of simple names are accepted as they are. *)
Definition simple_char (a : ascii) : bool :=
  id_char a || is_ascii_uppercase a || Ascii.eqb a "_" || Ascii.eqb a "-" || Ascii.eqb a ".".
Definition simple_name (s : string) : Prop :=
  plain_name s ∧ str_forallb simple_char s = true ∧ is_reserved_filename s = false.
Lemma simple_char_code a : simple_char a = true →
  printable a = true ∧ a ≠ "%"%char ∧ a ≠ ":"%char ∧ a ≠ slash ∧ a ≠ backslash ∧ in_range 0 127 a = true.
Proof. destruct a as [[] [] [] [] [] [] [] []]; intros Ha; try discriminate Ha; by split_and!. Qed.
Lemma percent_decode_simple s field : str_forallb simple_char s = true → percent_decode s field = Ok s.
Proof.
  induction s as [|a s IH]; [done|]. simpl. intros [Ha Hs]%andb_true_iff.
  destruct (simple_char_code a Ha) as (_ & Hp & _). apply Ascii.eqb_neq in Hp. rewrite Hp. simpl. by rewrite IH.
Qed.
Lemma contains_percent_simple s : str_forallb simple_char s = true → contains_percent_encoding s = false.
Proof.
  induction s as [|a s IH]; [done|]. cbn [str_forallb]. intros [Ha Hs]%andb_true_iff.
  destruct (simple_char_code a Ha) as (_ & Hp & _). apply Ascii.eqb_neq in Hp.
  cbn [contains_percent_encoding]. rewrite IH, orb_false_r by done. destruct s as [|b [|c s]]; [done..|]. by rewrite Hp.
Qed.
Lemma normalize_simple_segment field segs s :
  simple_name s → normalize_path_segment field segs s = Ok (segs ++ [s]).
Proof.
  intros ((Hne & Hdot & Hdots & _) & Hs & Hr).
  assert (Hascii : str_forallb (in_range 0 127) s = true).
  { eapply str_forallb_impl; [|exact Hs]. intros a Ha. by apply simple_char_code. }
  unfold normalize_path_segment, percent_decode_segment. destruct s as [|a s]; [done|].
  rewrite percent_decode_simple by done. simpl (str_is_empty _). simpl (reject_if false _).
  cbn [mbind result_bind]. rewrite utf8_valid_ascii, contains_percent_simple by done. cbn [negb reject_if mbind result_bind].
  rewrite nfc_ascii by done. rewrite bool_decide_false by naive_solver. rewrite Hr. cbn [reject_if mbind result_bind].
  rewrite has_control_printable; [done|]. eapply str_forallb_impl; [|exact Hs]. intros b Hb. by apply simple_char_code.
Qed.
Lemma join_forallb p segs : p slash = true → Forall (λ s, str_forallb p s = true) segs → str_forallb p (join "/" segs) = true.
Proof.
  intros Hp Hs. induction Hs as [|s l Hs Hl IH]; [done|]. destruct l as [|t l]; [done|].
  rewrite join_cons2, !str_forallb_app, Hs, IH. simpl. unfold slash in Hp. by rewrite Hp.
Qed.
Lemma simple_path_accepted segs field :
  segs ≠ [] → Forall simple_name segs →
  validate_safe_vault_relative_path (join "/" segs) field = Ok (join "/" segs).
Proof.
  intros Hne Hs.
  assert (Hchars : ∀ p, p slash = true → (∀ a, simple_char a = true → p a = true) → str_forallb p (join "/" segs) = true).
  { intros p Hp Himp. apply join_forallb; [done|]. eapply Forall_impl; [exact Hs|]. intros s (_ & Hc & _).
    by eapply str_forallb_impl. }
  assert (Hprint : str_forallb printable (join "/" segs) = true).
  { apply Hchars; [done|]. intros a Ha. by apply simple_char_code. }
  assert (Hcolon : str_existsb (Ascii.eqb ":") (join "/" segs) = false).
  { eapply (str_forallb_existsb (λ a, negb (Ascii.eqb a ":"))).
    - intros a Ha. rewrite Ascii.eqb_sym. by apply negb_true_iff.
    - apply Hchars; [done|]. intros a Ha. apply negb_true_iff, Ascii.eqb_neq. by apply simple_char_code. }
  assert (Hback : str_existsb (Ascii.eqb backslash) (join "/" segs) = false).
  { eapply (str_forallb_existsb (λ a, negb (Ascii.eqb a backslash))).
    - intros a Ha. rewrite Ascii.eqb_sym. by apply negb_true_iff.
    - apply Hchars; [done|]. intros a Ha. apply negb_true_iff, Ascii.eqb_neq. by apply simple_char_code. }
  assert (Hfirst : ∃ a rest, join "/" segs = String a rest ∧ simple_char a = true).
  { destruct segs as [|s l]; [done|]. apply Forall_cons in Hs as [((He & _) & Hc & _) _].
    destruct s as [|a s]; [done|]. simpl in Hc. apply andb_true_iff in Hc as [Ha _].
    destruct l as [|t l]; [by exists a, s|]. exists a, (s +:+ "/" +:+ join "/" (t :: l)). by rewrite join_cons2. }
  unfold validate_safe_vault_relative_path. rewrite trim_printable by done.
  rewrite str_replace_id by done. rewrite split_on_join; [|done|].
  2: { eapply Forall_impl; [exact Hs|]. by intros s ((_ & _ & _ & ?) & _). }
  destruct Hfirst as (a & rest & Hjoin & Ha). destruct (simple_char_code a Ha) as (_ & _ & _ & Hsl & Hbs & _).
  assert (Habs : starts_with "/" (join "/" segs) || starts_with (String backslash "") (join "/" segs)
                 || has_windows_drive_prefix (join "/" segs) = false).
  { rewrite Hjoin in *. apply orb_false_iff. split; [apply orb_false_iff; split|].
    - apply not_true_is_false. intros [t Ht]%starts_with_true. by injection Ht as -> _.
    - apply not_true_is_false. intros [t Ht]%starts_with_true. by injection Ht as -> _.
    - unfold has_windows_drive_prefix. destruct rest as [|b [|c rest]]; [done..|]. cbn [str_existsb] in Hcolon.
      apply orb_false_iff in Hcolon as [_ Hcolon]. apply orb_false_iff in Hcolon as [Hb _].
      rewrite Ascii.eqb_sym in Hb. rewrite Hb. by rewrite andb_false_r. }
  rewrite Habs, has_control_printable by done. rewrite Hjoin. cbn [str_is_empty reject_if mbind result_bind].
  assert (Hfold : ∀ l acc, Forall simple_name l → try_fold (normalize_path_segment field) acc l = Ok (acc ++ l)).
  { induction l as [|x l IH]; intros acc Hl; [by rewrite app_nil_r|]. apply Forall_cons in Hl as [Hx Hl].
    simpl. rewrite normalize_simple_segment by done. simpl. rewrite IH by done. by rewrite <- app_assoc. }
  rewrite (Hfold segs []) by done. simpl. by rewrite Hjoin.
Qed.
End safe_paths.

(** ** Identifiers are valid and free *)

Definition id_text (s : string) : bool := str_forallb (λ a, id_char a || Ascii.eqb a "_") s.
(** Bodies of identifiers, of any length. *)
Definition id_body (s : string) : Prop :=
  match s with EmptyString => False | String a _ => id_char a = true end ∧ id_text s = true.

Lemma id_text_app s t : id_text (s +:+ t) = id_text s && id_text t.
Proof.
  induction s as [|a s IH]; [done|]. rewrite str_app_cons. unfold id_text in *. simpl. rewrite IH.
  by rewrite andb_assoc.
Qed.
Lemma id_char_ascii a : id_char a || Ascii.eqb a "_" = true → utf8_cont a = false.
Proof. by destruct a as [[] [] [] [] [] [] [] []]. Qed.
Lemma id_text_count s : id_text s = true → char_count s = String.length s.
Proof.
  induction s as [|a s IH]; [done|]. unfold id_text. simpl. intros [Ha Hs]%andb_true_iff.
  rewrite (id_char_ascii a Ha). by rewrite IH.
Qed.
Lemma id_text_take n s : id_text s = true → take_chars n s = str_take n s.
Proof.
  revert n. induction s as [|a s IH]; intros n; [by destruct n|]. unfold id_text. simpl.
  intros [Ha Hs]%andb_true_iff. rewrite (id_char_ascii a Ha). destruct n as [|n]; [done|]. by rewrite IH.
Qed.
Lemma str_take_length n s : String.length (str_take n s) ≤ n.
Proof. revert s. induction n as [|n IH]; intros [|a s]; simpl; try lia. specialize (IH s). unfold str_take in IH. lia. Qed.
Lemma str_take_all n s : String.length s ≤ n → str_take n s = s.
Proof.
  revert s. induction n as [|n IH]; intros [|a s] Hn; simpl in Hn; [done|lia|done|].
  change (String a (str_take n s) = String a s). by rewrite IH by lia.
Qed.
Lemma id_text_prefix n s : id_text s = true → id_text (str_take n s) = true.
Proof.
  intros Hs. rewrite <- (str_take_drop n s), id_text_app in Hs. by apply andb_true_iff in Hs as [? _].
Qed.
Lemma id_body_take n s : id_body s → id_body (str_take (S n) s).
Proof. intros [Hfirst Hs]. split; [by destruct s|]. by apply id_text_prefix. Qed.

Lemma lower_alphanumeric a : is_ascii_alphanumeric a = true → id_char (ascii_lower a) = true.
Proof. by destruct a as [[] [] [] [] [] [] [] []]. Qed.
Lemma separated_id_text started last_ s : id_text (separated "_" started last_ s) = true.
Proof.
  revert started last_. induction s as [|a s IH]; intros started last_; [done|]. simpl.
  destruct (is_ascii_alphanumeric a) eqn:Ha.
  - unfold id_text. simpl. rewrite (lower_alphanumeric a Ha). apply IH.
  - destruct (negb last_ && started); [|apply IH]. unfold id_text. simpl. apply IH.
Qed.
Lemma separated_start last_ s : separated "_" false last_ s = "" ∨ id_body (separated "_" false last_ s).
Proof.
  revert last_. induction s as [|a s IH]; intros last_; [by left|]. simpl.
  destruct (is_ascii_alphanumeric a) eqn:Ha; [|rewrite andb_false_r; apply IH].
  right. split; [by apply lower_alphanumeric|]. unfold id_text. simpl. rewrite (lower_alphanumeric a Ha).
  apply separated_id_text.
Qed.
Lemma drop_leading_suffix c s : ∃ p, s = p +:+ drop_leading c s.
Proof.
  induction s as [|a s [p IH]]; [by exists ""|]. simpl. destruct (Ascii.eqb a c); [|by exists ""].
  exists (String a p). by rewrite str_app_cons, <- IH.
Qed.
Lemma pop_trailing_prefix c s : ∃ t, s = pop_trailing c s +:+ t.
Proof.
  unfold pop_trailing. destruct (drop_leading_suffix c (String.rev s)) as [p Hp]. exists (String.rev p).
  by rewrite <- str_rev_app, <- Hp, str_rev_involutive.
Qed.
Lemma sanitize_id_body_ok seed :
  id_body (sanitize_id_body seed) ∧ String.length (sanitize_id_body seed) ≤ MAX_ID_BODY_LEN.
Proof.
  unfold sanitize_id_body, truncate_chars.
  set (body := pop_trailing "_" _).
  assert (Hbody : body = "" ∨ id_body body).
  { destruct (pop_trailing_prefix "_" (separated "_" false false (strip_known_prefix seed))) as [t Ht].
    fold body in Ht. destruct body as [|a b]; [by left|]. right.
    destruct (separated_start false (strip_known_prefix seed)) as [He|[Hf Hid]]; rewrite Ht in *; [done|].
    split; [done|]. rewrite id_text_app in Hid. by apply andb_true_iff in Hid as [? _]. }
  assert (Hsafe : id_body (if str_is_empty body then "memory" else body)).
  { destruct Hbody as [->|Hb]; [done|]. destruct body; [by destruct Hb|done]. }
  rewrite id_text_take by apply Hsafe. split; [by apply id_body_take|apply str_take_length].
Qed.
Lemma id_body_valid s : id_body s → String.length s ≤ MAX_ID_BODY_LEN → valid_id_body s = true.
Proof.
  intros [Hfirst Hs] Hlen. unfold valid_id_body. destruct s as [|a s]; [done|].
  rewrite Hfirst, (id_text_count _ Hs). unfold id_text in Hs. simpl in Hs.
  apply andb_true_iff in Hs as [_ Hs]. rewrite Hs, andb_true_r. by apply Nat.leb_le.
Qed.
Lemma valid_id_body_text s : valid_id_body s = true → id_body s.
Proof.
  unfold valid_id_body. destruct s as [|a s]; [done|]. intros [[Ha _]%andb_true_iff Hs]%andb_true_iff.
  split; [done|]. unfold id_text. simpl. by rewrite Ha.
Qed.
Lemma prefixed_valid prefix body :
  is_valid_knowledge_id (prefix_str prefix +:+ "_" +:+ body) = valid_id_body body.
Proof. unfold is_valid_knowledge_id. by destruct prefix. Qed.

(** The suffixes that tell candidates apart are short texts of an identifier. *)
Lemma id_suffixes i :
  i ∈ seq 1 100 →
  let suffix := if i =? 1 then "" else "_" +:+ fmt_int (Z.of_nat i) in
  id_text suffix = true ∧ String.length suffix ≤ 4.
Proof.
  intros Hi suffix.
  assert (Hall : forallb (λ i, let suffix := if i =? 1 then "" else "_" +:+ fmt_int (Z.of_nat i) in
                    id_text suffix && (String.length suffix <=? 4)) (seq 1 100) = true) by (vm_compute; done).
  rewrite forallb_forall in Hall. specialize (Hall i ltac:(by apply list_elem_of_In)). simpl in Hall.
  apply andb_true_iff in Hall as [H1 H2]. split; [done|by apply Nat.leb_le].
Qed.
Lemma id_candidate_valid prefix seed i :
  i ∈ seq 1 100 → is_valid_knowledge_id (id_candidate prefix (sanitize_id_body seed) i) = true.
Proof.
  intros Hi. destruct (id_suffixes i Hi) as [Hs Hlen]. destruct (sanitize_id_body_ok seed) as [Hb _].
  unfold id_candidate, truncate_for_suffix, truncate_chars. cbv zeta.
  set (suffix := if i =? 1 then "" else _) in *. rewrite prefixed_valid.
  rewrite (id_text_count _ Hs), (id_text_take _ _ (proj2 Hb)).
  destruct (MAX_ID_BODY_LEN - String.length suffix) as [|n] eqn:Hn; [unfold MAX_ID_BODY_LEN in Hn; lia|].
  destruct (id_body_take n _ Hb) as [Hf Ht]. pose proof (str_take_length (S n) (sanitize_id_body seed)).
  apply id_body_valid.
  - split; [by destruct (str_take _ _)|]. by rewrite id_text_app, Ht, Hs.
  - rewrite str_app_length. lia.
Qed.
Lemma id_candidate_first prefix seed :
  id_candidate prefix (sanitize_id_body seed) 1 = make_knowledge_id prefix seed.
Proof.
  unfold id_candidate, make_knowledge_id, truncate_for_suffix, truncate_chars. simpl (1 =? 1). cbv iota zeta.
  destruct (sanitize_id_body_ok seed) as [[_ Ht] Hlen]. rewrite str_app_nil_r. do 2 f_equal.
  rewrite id_text_take by done. simpl (char_count ""). rewrite Nat.sub_0_r.
  by apply str_take_all.
Qed.

(** Identifiers as names of entries. *)
Lemma split_once_Some sep s before after : split_once sep s = Some (before, after) → s = before +:+ String sep after.
Proof.
  revert before after. induction s as [|a s IH]; intros before after; [done|]. simpl.
  destruct (Ascii.eqb a sep) eqn:Ha.
  - intros [= <- <-]. by apply Ascii.eqb_eq in Ha as ->.
  - destruct (split_once sep s) as [[b c]|] eqn:E; [|done]. simpl. intros [= <- <-].
    by rewrite (IH b c), str_app_cons.
Qed.
Lemma valid_id_text v : is_valid_knowledge_id v = true → id_text v = true ∧ v ≠ "".
Proof.
  unfold is_valid_knowledge_id. destruct (split_once "_" v) as [[pre body]|] eqn:E; [|done].
  apply split_once_Some in E as ->. intros [Hpre%bool_decide_eq_true Hbody]%andb_true_iff.
  apply valid_id_body_text in Hbody as [_ Hbody]. split; [|by destruct pre].
  rewrite id_text_app. assert (Hp : id_text pre = true) by (set_unfold; naive_solver).
  rewrite Hp. exact Hbody.
Qed.
Lemma id_text_plain v ext :
  id_text v = true → v ≠ "" → str_existsb (Ascii.eqb slash) ext = false → plain_name (v +:+ ext).
Proof.
  intros Hv Hne Hext. destruct v as [|a v]; [done|].
  assert (Ha : id_char a || Ascii.eqb a "_" = true) by (unfold id_text in Hv; simpl in Hv; by apply andb_true_iff in Hv as [? _]).
  assert (Hdot : a ≠ "."%char) by (intros ->; done).
  split_and!; [done|by injection 1|by injection 1|].
  rewrite str_existsb_app, Hext, orb_false_r. clear Hne Ha Hdot Hext.
  eapply str_forallb_existsb; [|exact Hv]. intros b. by destruct b as [[] [] [] [] [] [] [] []].
Qed.

(** ** Properties *)

(** Whatever text a document gives as a path, one that is accepted names, joined
    to the root of the vault, an entry below the root: it is a sequence of at least
    one proper name. No name is empty, a dot segment or reserved, and none holds a
    separator of any platform or a control character, whatever was percent-encoded. *)
Theorem validate_safe_vault_relative_path_confined `{NfcLaws} (root : AbsPath) (value field path : string) :
  validate_safe_vault_relative_path value field = Ok path →
  ∃ segs, segs ≠ [] ∧ path = join "/" segs ∧ path_join root path = root ++ segs ∧
    ∀ s, s ∈ segs → s ≠ "" ∧ s ≠ "." ∧ s ≠ ".." ∧
      str_existsb (Ascii.eqb slash) s = false ∧ str_existsb (Ascii.eqb backslash) s = false ∧
      is_reserved_filename s = false ∧ has_control s = false.
Proof.
  intros Hv. apply safe_path_shape in Hv as (segs & Hne & Hs & ->).
  exists segs. split; [done|]. split; [done|]. split.
  - apply path_join_segments; [done|]. by apply safe_segments_plain.
  - intros s Hin. apply (proj1 (Forall_forall _ _) Hs) in Hin as ((? & ? & ? & ?) & ? & ? & ?). done.
Qed.
Lemma safe_path_witness :
  let n : Nfc := {| nfc s := s |} in
  validate_safe_vault_relative_path "Knowledge/wiki\a%20b.md" "path" = Ok "Knowledge/wiki/a b.md" ∧
  ∃ segs, segs ≠ [] ∧ "Knowledge/wiki/a b.md" = join "/" segs ∧
    path_join ["v"] "Knowledge/wiki/a b.md" = ["v"] ++ segs ∧
    ∀ s, s ∈ segs → s ≠ "" ∧ s ≠ "." ∧ s ≠ ".." ∧
      str_existsb (Ascii.eqb slash) s = false ∧ str_existsb (Ascii.eqb backslash) s = false ∧
      is_reserved_filename s = false ∧ has_control s = false.
Proof.
  intros n. assert (Hlaws : NfcLaws) by by split.
  assert (Hv : validate_safe_vault_relative_path "Knowledge/wiki\a%20b.md" "path" = Ok "Knowledge/wiki/a b.md")
    by (vm_compute; done).
  split; [exact Hv|].
  apply (validate_safe_vault_relative_path_confined ["v"] "Knowledge/wiki\a%20b.md" "path"). exact Hv.
Defined.

(** An accepted path need not be accepted again: the check decodes, so what is
    stored after it is another text. A source reference to the file "100%.md" is
    refused when the document that holds it is validated. *)
Example accepted_path_refused_later :
  let n : Nfc := {| nfc s := s |} in
  validate_safe_vault_relative_path "100%25.md" "path" = Ok "100%.md" ∧
  validate_safe_vault_relative_path "100%.md" "path" = Err (model_error "path" "Malformed percent encoding").
Proof. vm_compute. done. Qed.

(** An identifier made for a new item is a valid identifier that is not taken,
    and it is the plain identifier of the seed when that one is free; none is made
    only when all hundred candidates are taken. *)
Theorem make_collision_free_knowledge_id_fresh (prefix : KnowledgeIdPrefix) (seed : string)
    (exists_ : string → bool) :
  match make_collision_free_knowledge_id prefix seed exists_ with
  | Ok id => is_valid_knowledge_id id = true ∧ exists_ id = false ∧
      (exists_ (make_knowledge_id prefix seed) = false → id = make_knowledge_id prefix seed)
  | Err _ => ∀ i, i ∈ seq 1 100 → exists_ (id_candidate prefix (sanitize_id_body seed) i) = true
  end.
Proof.
  unfold make_collision_free_knowledge_id.
  destruct (List.find _ _) as [id|] eqn:Hfind; simpl.
  - destruct (find_some _ _ Hfind) as [Hin Hfree]. apply negb_true_iff in Hfree.
    split; [|split; [done|]].
    + apply list_elem_of_In, list_elem_of_fmap in Hin as (i & -> & Hi). by apply id_candidate_valid.
    + intros Hplain. change (seq 1 100) with (1 :: seq 2 99) in Hfind. rewrite fmap_cons in Hfind. simpl in Hfind.
      rewrite id_candidate_first, Hplain in Hfind. simpl in Hfind. by injection Hfind.
  - intros i Hi. apply negb_false_iff. apply (find_none _ _ Hfind). apply list_elem_of_In.
    by apply list_elem_of_fmap_2.
Qed.
