(* ===== verification/DecisionDocument.v ===== *)
(** * Decision documents (knowledge/decision_document.rs)

    A markdown document whose fenced blocks carry proposals and the decisions on
    them: locating the blocks, reading them, checking that the document is
    consistent, and writing it back with only the front matter and the blocks
    replaced. Positions are byte offsets; the document is walked line by line. *)
From Stdlib Require Import Ascii String.
#[local] Set Warnings "-clear-no-such-hyp".
From S2P Require Import Prelude Text Paths Crypto Knowledge.

(** ** Data *)

Record DecisionDocumentError := { dd_code : KnowledgeErrorCode; dd_message : string }.
Abbreviation DocResult := (Result DecisionDocumentError).
Definition invalid (message : string) : DecisionDocumentError :=
  {| dd_code := CodeValidationFailed; dd_message := message |}.

Definition MAX_DOCUMENT_BYTES : nat := 2 * 1024 * 1024.
Definition MAX_FRONTMATTER_BYTES : nat := 64 * 1024.
Definition MAX_KUKU_BLOCKS : nat := 200.
Definition MAX_PROPOSAL_BLOCKS : nat := 100.
Definition MAX_DECISION_BLOCKS : nat := 100.
Definition MAX_KUKU_PAYLOAD_BYTES : nat := 128 * 1024.
Definition MAX_ID_CHARS : nat := 84.
Definition MAX_KIND_CHARS : nat := 40.
Definition MAX_TAG_CHARS : nat := 40.

Record ByteRange := { r_start : nat; r_end : nat }.
Record KukuBlockSpan := {
  sp_full : ByteRange;
  sp_opening_fence : ByteRange;
  sp_payload : ByteRange;
  sp_closing_fence : ByteRange }.

Record MemoryProposalMemory := {
  pm_id : string;
  pm_kind : option string;
  pm_title : string;
  pm_tags : list string;
  pm_body : string;
  pm_source_refs : list SourceRef }.
Record MemoryProposalBlock := { mp_id : string; mp_operation : string; mp_memory : MemoryProposalMemory }.
Record WikiProposalPage := {
  pp_path : string;
  pp_expected_checksum : option string;
  pp_page_type : string;
  pp_title : string;
  pp_tags : list string;
  pp_body : string;
  pp_source_refs : list SourceRef }.
Record WikiProposalBlock := { wb_id : string; wb_operation : string; wb_page : WikiProposalPage }.
Record DecisionOptionBlock := { op_id : string; op_label : string; op_requires_input : option bool }.
Record DecisionBlock := {
  db_id : string;
  db_proposal_id : string;
  db_target_change_id : string;
  db_question : string;
  db_selection_mode : string;
  db_required : bool;
  db_status : string;
  db_selected_option_id : option string;
  db_options : list DecisionOptionBlock;
  db_other_text : option string;
  db_resolved_at : option string }.

(** A parsed block with its span; the span is absent in blocks built in memory. *)
Inductive ParsedKukuBlock :=
| MemoryProposal (span : option KukuBlockSpan) (value : MemoryProposalBlock)
| WikiProposal (span : option KukuBlockSpan) (value : WikiProposalBlock)
| Decision (span : option KukuBlockSpan) (value : DecisionBlock).
Definition block_span (b : ParsedKukuBlock) : option KukuBlockSpan :=
  match b with MemoryProposal span _ | WikiProposal span _ | Decision span _ => span end.

(** serde_yaml's ordered mapping, and [insert] of a string under a string key. *)
Class YamlMapping := {
  Mapping : Type;
  mapping_insert : Mapping → string → string → Mapping }.

Record FrontmatterKnown := {
  fk_id : string;
  fk_proposal_id : string;
  fk_target_kind : string;
  fk_request_source : string;
  fk_status : string;
  fk_created_at : string;
  fk_updated_at : string;
  fk_source_refs : list SourceRef }.
(** [DecisionDocumentFrontmatter]: the known fields and the whole mapping. *)
Record DecisionDocumentFrontmatter `{YamlMapping} := { fm_known : FrontmatterKnown; fm_raw : Mapping }.
Record ParsedDecisionDocument `{YamlMapping} := {
  doc_markdown : string;
  doc_frontmatter : DecisionDocumentFrontmatter;
  doc_frontmatter_span : ByteRange;
  doc_blocks : list ParsedKukuBlock }.

Record DecisionDocumentIntegrity := {
  in_doc_id : string;
  in_proposal_id : string;
  in_yes_memory_paths : list string;
  in_yes_wiki_paths : list string }.

Definition proposals_of (blocks : list ParsedKukuBlock) : list (option KukuBlockSpan * MemoryProposalBlock) :=
  omap (λ b, match b with MemoryProposal s v => Some (s, v) | _ => None end) blocks.
Definition wiki_proposals_of (blocks : list ParsedKukuBlock) : list (option KukuBlockSpan * WikiProposalBlock) :=
  omap (λ b, match b with WikiProposal s v => Some (s, v) | _ => None end) blocks.
Definition decisions_of (blocks : list ParsedKukuBlock) : list (option KukuBlockSpan * DecisionBlock) :=
  omap (λ b, match b with Decision s v => Some (s, v) | _ => None end) blocks.

(** ** Lines and fences *)

(** [line_at] at the start of each line in turn. *)
Record Line := { l_text : string; l_start : nat; l_end : nat }.
Fixpoint lines_from (start : nat) (pieces : list string) : list Line :=
  match pieces with
  | [] => []
  | p :: pieces =>
      let end_ := start + String.length p in
      {| l_text := if ends_with lf p then str_take (String.length p - 1) p else p;
         l_start := start; l_end := end_ |} :: lines_from end_ pieces
  end.
Definition lines_of (markdown : string) : list Line := lines_from 0 (split_inclusive newline markdown).

(** [take_while(|c| c == a).count()] and the text after it *)
Fixpoint run_length (a : ascii) (s : string) : nat :=
  match s with
  | EmptyString => 0
  | String b s => if Ascii.eqb b a then S (run_length a s) else 0
  end.

Record OpeningFence := { of_marker : ascii; of_len : nat; of_info : string }.
Definition parse_opening_fence (line : string) : option OpeningFence :=
  let indent := run_length " " line in
  if 3 <? indent then None else
  let rest := str_drop indent line in
  match rest with
  | EmptyString => None
  | String marker _ =>
      if negb (Ascii.eqb marker "`") && negb (Ascii.eqb marker "~") then None else
      let len := run_length marker rest in
      if len <? 3 then None
      else Some {| of_marker := marker; of_len := len; of_info := trim (str_drop len rest) |}
  end.
Definition is_closing_fence (line : string) (marker : ascii) (opening_len : nat) : bool :=
  let indent := run_length " " line in
  if 3 <? indent then false else
  let rest := str_drop indent line in
  let len := run_length marker rest in
  if len <? opening_len then false else is_blank (str_drop len rest).
(** The closing line and the lines after it. *)
Fixpoint find_closing_fence (lines : list Line) (marker : ascii) (opening_len : nat)
  : option (Line * list Line) :=
  match lines with
  | [] => None
  | line :: lines =>
      if is_closing_fence (l_text line) marker opening_len then Some (line, lines)
      else find_closing_fence lines marker opening_len
  end.

Inductive KukuLanguage := LangMemoryProposal | LangWikiProposal | LangDecision.
Definition kuku_language (info : string) : option KukuLanguage :=
  match split_whitespace info with
  | [] => None
  | word :: _ =>
      if bool_decide (word = "kuku-memory-proposal") then Some LangMemoryProposal
      else if bool_decide (word = "kuku-wiki-proposal") then Some LangWikiProposal
      else if bool_decide (word = "kuku-decision") then Some LangDecision
      else None
  end.

Definition is_proposal (b : ParsedKukuBlock) : bool :=
  match b with Decision _ _ => false | _ => true end.
Definition check_block_counts (blocks : list ParsedKukuBlock) : DocResult unit :=
  _ ← reject_if (MAX_KUKU_BLOCKS <? length blocks)
        (invalid "Decision document has too many Kuku fenced blocks");
  _ ← reject_if (MAX_PROPOSAL_BLOCKS <? length (List.filter is_proposal blocks))
        (invalid "Decision document has too many proposal blocks");
  reject_if (MAX_DECISION_BLOCKS <? length (List.filter (λ b, negb (is_proposal b)) blocks))
    (invalid "Decision document has too many decision blocks").

Definition span_between (opening closing : Line) : KukuBlockSpan :=
  {| sp_full := {| r_start := l_start opening; r_end := l_end closing |};
     sp_opening_fence := {| r_start := l_start opening; r_end := l_end opening |};
     sp_payload := {| r_start := l_end opening; r_end := l_start closing |};
     sp_closing_fence := {| r_start := l_start closing; r_end := l_end closing |} |}.
Definition slice (s : string) (r : ByteRange) : string := str_slice (r_start r) (r_end r) s.

(** ** Reading *)

Section document.
Context `{YamlMapping, Nfc, Chrono}.
Context `{!YamlRead MemoryProposalBlock, !YamlRead WikiProposalBlock, !YamlRead DecisionBlock,
          !YamlRead FrontmatterKnown, !YamlRead Mapping}.
Context `{!YamlWrite MemoryProposalBlock, !YamlWrite WikiProposalBlock, !YamlWrite DecisionBlock,
          !YamlWrite Mapping}.

Definition read_yaml {T} `{YamlRead T} (what payload : string) : DocResult T :=
  map_err (λ error, invalid ("Malformed " +:+ what +:+ ": " +:+ error)) (yaml_from_str payload).
Definition parse_block (language : KukuLanguage) (span : KukuBlockSpan) (payload : string)
  : DocResult ParsedKukuBlock :=
  match language with
  | LangMemoryProposal => MemoryProposal (Some span) <$> read_yaml "kuku-memory-proposal block" payload
  | LangWikiProposal => WikiProposal (Some span) <$> read_yaml "kuku-wiki-proposal block" payload
  | LangDecision => Decision (Some span) <$> read_yaml "kuku-decision block" payload
  end.

(** The loop over the lines; every turn consumes at least one of them. *)
Fixpoint parse_blocks_loop (fuel : nat) (markdown : string) (lines : list Line)
    (blocks : list ParsedKukuBlock) : DocResult (list ParsedKukuBlock) :=
  match fuel, lines with
  | O, _ | _, [] => Ok blocks
  | S fuel, line :: lines =>
      match parse_opening_fence (l_text line) with
      | None => parse_blocks_loop fuel markdown lines blocks
      | Some opening =>
          let closing := find_closing_fence lines (of_marker opening) (of_len opening) in
          match kuku_language (of_info opening) with
          | None =>
              parse_blocks_loop fuel markdown (match closing with Some (_, after) => after | None => lines end)
                blocks
          | Some language =>
              '(closing, after) ← ok_or closing (invalid "Kuku fenced block is missing closing fence");
              let span := span_between line closing in
              _ ← reject_if (MAX_KUKU_PAYLOAD_BYTES <? l_start closing - l_end line)
                    (invalid "Kuku fenced block payload exceeds maximum size");
              block ← parse_block language span (slice markdown (sp_payload span));
              let blocks := blocks ++ [block] in
              _ ← check_block_counts blocks;
              parse_blocks_loop fuel markdown after blocks
          end
      end
  end.
Definition parse_kuku_blocks (markdown : string) : DocResult (list ParsedKukuBlock) :=
  let lines := lines_of markdown in parse_blocks_loop (length lines) markdown lines [].

Definition parse_frontmatter (markdown : string) : DocResult (DecisionDocumentFrontmatter * ByteRange) :=
  rest ← ok_or (strip_prefix ("---" +:+ lf) markdown) (invalid "Missing document frontmatter");
  '(payload, _) ← ok_or (split_at_str (lf +:+ "---" +:+ lf) rest)
                    (invalid "Missing closing frontmatter marker");
  _ ← reject_if (MAX_FRONTMATTER_BYTES <? String.length payload)
        (invalid "Decision document frontmatter exceeds maximum size");
  known ← read_yaml "document frontmatter" payload;
  raw ← read_yaml "document frontmatter" payload;
  Ok ({| fm_known := known; fm_raw := raw |},
      {| r_start := 0; r_end := 4 + String.length payload + 5 |}).

Definition parse_decision_document (markdown : string) : DocResult ParsedDecisionDocument :=
  _ ← reject_if (MAX_DOCUMENT_BYTES <? String.length markdown)
        (invalid "Decision document exceeds maximum size");
  '(frontmatter, frontmatter_span) ← parse_frontmatter markdown;
  blocks ← parse_kuku_blocks markdown;
  Ok {| doc_markdown := markdown; doc_frontmatter := frontmatter;
        doc_frontmatter_span := frontmatter_span; doc_blocks := blocks |}.

(** ** Writing *)

Definition render_kuku_block {T} `{YamlWrite T} (language : string) (value : T) : DocResult string :=
  yaml ← map_err invalid (yaml_to_string value);
  Ok ("```" +:+ language +:+ lf +:+ yaml_block yaml +:+ "```" +:+ lf).
Definition canonical_markdown (b : ParsedKukuBlock) : DocResult string :=
  match b with
  | MemoryProposal _ value => render_kuku_block "kuku-memory-proposal" value
  | WikiProposal _ value => render_kuku_block "kuku-wiki-proposal" value
  | Decision _ value => render_kuku_block "kuku-decision" value
  end.
Definition render_frontmatter_block (frontmatter : Mapping) : DocResult string :=
  yaml ← map_err invalid (yaml_to_string frontmatter);
  Ok ("---" +:+ lf +:+ yaml_block yaml +:+ "---" +:+ lf).

Definition replace_step (markdown : string) (st : string * nat) (x : ByteRange * string)
  : DocResult (string * nat) :=
  let '(output, cursor) := st in
  let '(range, replacement) := x in
  _ ← reject_if ((r_start range <? cursor) || (String.length markdown <? r_end range))
        (invalid "Kuku block byte span is invalid");
  Ok (output +:+ str_slice cursor (r_start range) markdown +:+ replacement, r_end range).
Definition range_leb (x y : ByteRange * string) : bool := r_start x.1 <=? r_start y.1.
Definition render_with_replacements (markdown : string) (replacements : list (ByteRange * string))
  : DocResult string :=
  '(output, cursor) ← try_fold (replace_step markdown) (EmptyString, 0) (sort_by range_leb replacements);
  Ok (output +:+ str_drop cursor markdown).

Definition block_replacement (b : ParsedKukuBlock) : DocResult (ByteRange * string) :=
  span ← ok_or (block_span b) (invalid "Kuku block is missing byte span data");
  text ← canonical_markdown b;
  Ok (sp_full span, text).
Definition canonicalize_kuku_blocks (document : ParsedDecisionDocument) : DocResult string :=
  replacements ← try_map block_replacement (doc_blocks document);
  render_with_replacements (doc_markdown document) replacements.
Definition render_decision_document (document : ParsedDecisionDocument) : DocResult string :=
  frontmatter ← render_frontmatter_block (fm_raw (doc_frontmatter document));
  replacements ← try_map block_replacement (doc_blocks document);
  render_with_replacements (doc_markdown document)
    ((doc_frontmatter_span document, frontmatter) :: replacements).
End document.

(** ** Consistency *)

Section integrity.
Context `{YamlMapping, Nfc, Chrono}.

Definition check_prefixed_id (value prefix field : string) : DocResult unit :=
  reject_if ((MAX_ID_CHARS <? char_count value) || negb (starts_with (prefix +:+ "_") value)
             || negb (is_valid_knowledge_id value)) (invalid ("Invalid " +:+ field)).
Definition check_non_empty_limited (value field : string) (max_chars : option nat) : DocResult unit :=
  _ ← reject_if (is_blank value) (invalid (field +:+ " is empty"));
  reject_if (match max_chars with Some n => n <? char_count value | None => false end)
    (invalid (field +:+ " is too long")).
Definition check_timestamp (value field : string) : DocResult unit :=
  _ ← reject_if (negb (parse_from_rfc3339 value)) (invalid (field +:+ " must be a valid RFC 3339 timestamp"));
  reject_if (negb (ends_with "Z" value) || str_contains "." value)
    (invalid (field +:+ " must be UTC seconds precision")).
Definition from_model {A} (r : ModelResult A) : DocResult A := map_err (λ e, invalid (ke_message e)) r.
Definition each {X} (check : X → DocResult unit) (l : list X) : DocResult unit :=
  try_fold (λ _ x, check x) tt l.
Definition when_some {X} (check : X → DocResult unit) (o : option X) : DocResult unit :=
  match o with Some x => check x | None => Ok tt end.

Definition check_source_range (range : option SourceRange) : DocResult unit :=
  match range with
  | None => Ok tt
  | Some range =>
      reject_if ((start_line range =? 0) || (end_line range =? 0) || (end_line range <? start_line range))%Z
        (invalid "Invalid source reference range")
  end.
Definition check_source_ref (r : SourceRef) : DocResult unit :=
  _ ← from_model (validate_safe_vault_relative_path (sf_path r) "source_refs.path");
  _ ← when_some (λ t, check_non_empty_limited t "source_refs.title" (Some MAX_TITLE_CHARS)) (sf_title r);
  _ ← when_some (each (λ s, check_non_empty_limited s "source_refs.section_path" (Some MAX_TITLE_CHARS)))
        (sf_section_path r);
  _ ← check_source_range (sf_range r);
  _ ← when_some (λ c, from_model (validate_sha256_checksum c "source_refs.checksum")) (sf_checksum r);
  check_timestamp (sf_captured_at r) "source_refs.captured_at".
Definition check_source_refs (source_refs : list SourceRef) : DocResult unit := each check_source_ref source_refs.

Definition validate_document_frontmatter (f : FrontmatterKnown) : DocResult unit :=
  _ ← check_prefixed_id (fk_id f) "doc" "document id";
  _ ← check_prefixed_id (fk_proposal_id f) "prop" "document proposal_id";
  _ ← reject_if (negb (bool_decide (fk_target_kind f ∈ ["memory"; "wiki"])))
        (invalid "Unsupported decision document target_kind");
  _ ← reject_if (negb (bool_decide (fk_request_source f ∈ ["ai_tool"; "ui_command"])))
        (invalid "Unsupported decision document request_source");
  _ ← reject_if (negb (bool_decide (fk_status f ∈
          ["pending"; "applied"; "partially_applied"; "needs_revision"; "apply_failed"; "superseded"])))
        (invalid "Unsupported decision document status");
  _ ← check_timestamp (fk_created_at f) "created_at";
  _ ← check_timestamp (fk_updated_at f) "updated_at";
  check_source_refs (fk_source_refs f).

Definition validate_memory_proposal (block : MemoryProposalBlock) : DocResult unit :=
  let memory := mp_memory block in
  _ ← check_prefixed_id (mp_id block) "change" "memory proposal id";
  _ ← reject_if (negb (bool_decide (mp_operation block = "create_memory")))
        (invalid ("Unsupported memory proposal operation: " +:+ mp_operation block));
  _ ← check_prefixed_id (pm_id memory) "mem" "proposed memory id";
  _ ← check_non_empty_limited (pm_title memory) "memory title" (Some MAX_TITLE_CHARS);
  _ ← check_non_empty_limited (pm_body memory) "memory body" None;
  _ ← when_some (λ kind, check_non_empty_limited kind "memory kind" (Some MAX_KIND_CHARS)) (pm_kind memory);
  _ ← each (λ tag, check_non_empty_limited tag "memory tag" (Some MAX_TAG_CHARS)) (pm_tags memory);
  check_source_refs (pm_source_refs memory).

Definition normalize_wiki_proposal_path (path : string) : DocResult string :=
  from_model (validate_wiki_page_path path "wiki page path").
Definition validate_wiki_operation (block : WikiProposalBlock) : DocResult unit :=
  if bool_decide (wb_operation block = "create_wiki_page") then
    reject_if (bool_decide (is_Some (pp_expected_checksum (wb_page block))))
      (invalid "Wiki create proposal must not include expected_checksum")
  else if bool_decide (wb_operation block = "update_wiki_page") then
    checksum ← ok_or (pp_expected_checksum (wb_page block))
                 (invalid "Wiki update proposal requires expected_checksum");
    from_model (validate_sha256_checksum checksum "wiki expected_checksum")
  else Err (invalid ("Unsupported wiki proposal operation: " +:+ wb_operation block)).
Definition validate_wiki_proposal (block : WikiProposalBlock) : DocResult unit :=
  let page := wb_page block in
  _ ← check_prefixed_id (wb_id block) "change" "wiki proposal id";
  _ ← validate_wiki_operation block;
  _ ← normalize_wiki_proposal_path (pp_path page);
  _ ← reject_if (negb (bool_decide (pp_page_type page ∈ ["source"; "concept"; "entity"; "synthesis"])))
        (invalid ("Unsupported wiki page_type: " +:+ pp_page_type page));
  _ ← check_non_empty_limited (pp_title page) "wiki title" (Some MAX_TITLE_CHARS);
  _ ← check_non_empty_limited (pp_body page) "wiki body" None;
  _ ← each (λ tag, check_non_empty_limited tag "wiki tag" (Some MAX_TAG_CHARS)) (pp_tags page);
  check_source_refs (pp_source_refs page).

Definition check_option (seen : list string) (option : DecisionOptionBlock) : DocResult (list string) :=
  _ ← check_non_empty_limited (op_id option) "decision option id" (Some MAX_ID_CHARS);
  _ ← check_non_empty_limited (op_label option) "decision option label" (Some MAX_TITLE_CHARS);
  _ ← reject_if (bool_decide (op_id option ∈ seen)) (invalid ("Duplicate decision option id: " +:+ op_id option));
  Ok (op_id option :: seen).
Definition validate_decision_options (block : DecisionBlock) : DocResult unit :=
  option_ids ← try_fold check_option [] (db_options block);
  _ ← each (λ required, reject_if (negb (bool_decide (required ∈ option_ids)))
                          (invalid ("Decision is missing required option: " +:+ required)))
        ["yes"; "no"; "other"];
  other ← ok_or (List.find (λ o, bool_decide (op_id o = "other")) (db_options block))
            (invalid "Decision is missing other option");
  reject_if (negb (bool_decide (op_requires_input other = Some true)))
    (invalid "Decision other option must require input").
Definition check_selected (block : DecisionBlock) (selected : string) : DocResult unit :=
  _ ← reject_if (negb (existsb (λ o, bool_decide (op_id o = selected)) (db_options block)))
        (invalid ("Unknown selected option id: " +:+ selected));
  reject_if (negb (bool_decide (selected ∈ ["yes"; "no"; "other"])))
    (invalid ("Unsupported selected option id: " +:+ selected)).
Definition validate_decision (block : DecisionBlock) (document_proposal_id : string) : DocResult unit :=
  _ ← check_prefixed_id (db_id block) "decision" "decision id";
  _ ← check_prefixed_id (db_proposal_id block) "prop" "decision proposal_id";
  _ ← reject_if (negb (bool_decide (db_proposal_id block = document_proposal_id)))
        (invalid "Decision proposal_id does not match document proposal_id");
  _ ← check_prefixed_id (db_target_change_id block) "change" "decision target_change_id";
  _ ← check_non_empty_limited (db_question block) "decision question" (Some MAX_TITLE_CHARS);
  _ ← reject_if (negb (bool_decide (db_selection_mode block = "single")))
        (invalid "Unsupported decision selection_mode");
  _ ← reject_if (negb (db_required block)) (invalid "MVP decisions must be required");
  _ ← reject_if (negb (bool_decide (db_status block ∈ ["pending"; "committed"; "rejected"; "needs_revision"])))
        (invalid "Unsupported decision status");
  _ ← validate_decision_options block;
  _ ← when_some (check_selected block) (db_selected_option_id block);
  when_some (λ t, check_timestamp t "resolved_at") (db_resolved_at block).

Definition memory_path_for_id (memory_id : string) : string := "Knowledge/memory/" +:+ memory_id +:+ ".md".

(** *** The proposals by identifier, and the outputs they would write *)

(** [span] is absent only in blocks that were not parsed. *)
Definition require_span {A} (x : option KukuBlockSpan * A) (message : string) : DocResult A :=
  _ ← ok_or x.1 (invalid message); Ok x.2.

Definition add_memory_proposal (st : list (string * MemoryProposalBlock) * list string)
    (x : option KukuBlockSpan * MemoryProposalBlock)
  : DocResult (list (string * MemoryProposalBlock) * list string) :=
  let '(by_id, memory_ids) := st in
  proposal ← require_span x "Memory proposal block is missing byte span data";
  _ ← validate_memory_proposal proposal;
  _ ← reject_if (bool_decide (mp_id proposal ∈ by_id.*1))
        (invalid ("Duplicate memory proposal id: " +:+ mp_id proposal));
  let memory_id := pm_id (mp_memory proposal) in
  _ ← reject_if (bool_decide (memory_id ∈ memory_ids)) (invalid ("Duplicate proposed memory id: " +:+ memory_id));
  Ok (by_id ++ [(mp_id proposal, proposal)], memory_ids ++ [memory_id]).
Definition add_wiki_proposal (st : list (string * WikiProposalBlock) * list string)
    (x : option KukuBlockSpan * WikiProposalBlock)
  : DocResult (list (string * WikiProposalBlock) * list string) :=
  let '(by_id, paths) := st in
  proposal ← require_span x "Wiki proposal block is missing byte span data";
  _ ← validate_wiki_proposal proposal;
  _ ← reject_if (bool_decide (wb_id proposal ∈ by_id.*1))
        (invalid ("Duplicate wiki proposal id: " +:+ wb_id proposal));
  path ← normalize_wiki_proposal_path (pp_path (wb_page proposal));
  _ ← reject_if (bool_decide (path ∈ paths)) (invalid ("Duplicate proposed wiki path: " +:+ path));
  Ok (by_id ++ [(wb_id proposal, proposal)], paths ++ [path]).

Definition find_by_id {P} (by_id : list (string * P)) (id : string) : option P :=
  snd <$> List.find (λ x, bool_decide (x.1 = id)) by_id.

(** One decision: [output] is the path a yes would write and the check of it. *)
Definition add_decision {P} (by_id : list (string * P)) (document_proposal_id : string)
    (output : P → DocResult string) (duplicate : string) (check : P → string → DocResult unit)
    (st : list string * list string * list string) (x : option KukuBlockSpan * DecisionBlock)
  : DocResult (list string * list string * list string) :=
  let '(decision_ids, targets, yes_paths) := st in
  decision ← require_span x "Decision block is missing byte span data";
  _ ← validate_decision decision document_proposal_id;
  _ ← reject_if (bool_decide (db_id decision ∈ decision_ids)) (invalid ("Duplicate decision id: " +:+ db_id decision));
  let target := db_target_change_id decision in
  proposal ← ok_or (find_by_id by_id target)
               (invalid ("Decision target_change_id has no matching proposal: " +:+ target));
  let st := (decision_ids ++ [db_id decision], targets ++ [target]) in
  if bool_decide (db_selected_option_id decision = Some "yes") then
    path ← output proposal;
    _ ← reject_if (bool_decide (path ∈ yes_paths)) (invalid (duplicate +:+ path));
    _ ← check proposal path;
    Ok (st.1, st.2, yes_paths ++ [path])
  else Ok (st.1, st.2, yes_paths).

Definition check_decided_once (targets : list string) (proposal_id : string) : DocResult unit :=
  match length (List.filter (λ t, bool_decide (t = proposal_id)) targets) with
  | 1 => Ok tt
  | O => Err (invalid ("Proposal has no matching decision: " +:+ proposal_id))
  | _ => Err (invalid ("Proposal has more than one matching decision: " +:+ proposal_id))
  end.
(** The keys of the [BTreeMap], in order *)
Definition sorted_ids {P} (by_id : list (string * P)) : list string := sort_by str_leb by_id.*1.

(** [exists_]: whether a path exists under the root, when a root is given. *)
Definition validate_memory_decision_document_integrity (document : ParsedDecisionDocument)
    (exists_ : option (string → bool)) : DocResult DecisionDocumentIntegrity :=
  let known := fm_known (doc_frontmatter document) in
  let blocks := doc_blocks document in
  _ ← reject_if (negb (bool_decide (length (wiki_proposals_of blocks) = 0)))
        (invalid "Memory decision document cannot contain wiki proposal blocks");
  let proposals := proposals_of blocks in
  let decisions := decisions_of blocks in
  _ ← reject_if (bool_decide (length proposals = 0)) (invalid "Decision document has no memory proposal blocks");
  _ ← reject_if (bool_decide (length decisions = 0)) (invalid "Decision document has no decision blocks");
  '(by_id, _) ← try_fold add_memory_proposal ([], []) proposals;
  '(_, targets, yes_paths) ←
    try_fold (add_decision by_id (fk_proposal_id known)
                (λ p, Ok (memory_path_for_id (pm_id (mp_memory p)))) "Duplicate yes memory output path: "
                (λ _ path, reject_if (match exists_ with Some f => f path | None => false end)
                             (invalid ("Memory output path already exists: " +:+ path))))
      ([], [], []) decisions;
  _ ← each (check_decided_once targets) (sorted_ids by_id);
  Ok {| in_doc_id := fk_id known; in_proposal_id := fk_proposal_id known;
        in_yes_memory_paths := yes_paths; in_yes_wiki_paths := [] |}.

Definition check_wiki_output (exists_ : option (string → bool)) (proposal : WikiProposalBlock) (path : string)
  : DocResult unit :=
  match exists_ with
  | None => Ok tt
  | Some f =>
      if bool_decide (wb_operation proposal = "create_wiki_page") then
        reject_if (f path) (invalid ("Wiki output path already exists: " +:+ path))
      else if bool_decide (wb_operation proposal = "update_wiki_page") then
        reject_if (negb (f path)) (invalid ("Wiki update path does not exist: " +:+ path))
      else Ok tt
  end.
Definition validate_wiki_decision_document_integrity (document : ParsedDecisionDocument)
    (exists_ : option (string → bool)) : DocResult DecisionDocumentIntegrity :=
  let known := fm_known (doc_frontmatter document) in
  let blocks := doc_blocks document in
  _ ← reject_if (negb (bool_decide (length (proposals_of blocks) = 0)))
        (invalid "Wiki decision document cannot contain memory proposal blocks");
  let proposals := wiki_proposals_of blocks in
  let decisions := decisions_of blocks in
  _ ← reject_if (bool_decide (length proposals = 0)) (invalid "Decision document has no wiki proposal blocks");
  _ ← reject_if (bool_decide (length decisions = 0)) (invalid "Decision document has no decision blocks");
  '(by_id, _) ← try_fold add_wiki_proposal ([], []) proposals;
  '(_, targets, yes_paths) ←
    try_fold (add_decision by_id (fk_proposal_id known)
                (λ p, normalize_wiki_proposal_path (pp_path (wb_page p))) "Duplicate yes wiki output path: "
                (check_wiki_output exists_))
      ([], [], []) decisions;
  _ ← each (check_decided_once targets) (sorted_ids by_id);
  Ok {| in_doc_id := fk_id known; in_proposal_id := fk_proposal_id known;
        in_yes_memory_paths := []; in_yes_wiki_paths := yes_paths |}.

Definition validate_decision_document_integrity (document : ParsedDecisionDocument)
    (exists_ : option (string → bool)) : DocResult DecisionDocumentIntegrity :=
  let known := fm_known (doc_frontmatter document) in
  _ ← validate_document_frontmatter known;
  if bool_decide (fk_target_kind known = "memory")
  then validate_memory_decision_document_integrity document exists_
  else if bool_decide (fk_target_kind known = "wiki")
  then validate_wiki_decision_document_integrity document exists_
  else Err (invalid "Unsupported decision document target_kind").
End integrity.
