(* ===== verification/KnowledgeApply.v ===== *)
(** * Applying a decision document (knowledge/apply.rs)

    The decided proposals of a document become files of the vault. A journal on
    disk records the progress, so that a process that stopped is recovered by the
    next application of the document: files published by an unfinished one are
    removed again, a finished one only lacks the update of the document. *)
From Stdlib Require Import Ascii String.
#[local] Set Warnings "-clear-no-such-hyp".
From S2P Require Import Prelude Text Paths SyncDb Scanner Crypto Knowledge DecisionDocument Disk.

(** ** Errors *)

(** The values [json!] builds for the details of an error. *)
Inductive Json :=
| JBool (b : bool)
| JString (s : string)
| JStrings (l : list string)
| JObject (fields : list (string * Json)).
Record ApplyServiceError := { ae_code : KnowledgeErrorCode; ae_message : string; ae_details : option Json }.
Abbreviation Svc := (Process ApplyServiceError).
Definition service_error (code : KnowledgeErrorCode) (message : string) : ApplyServiceError :=
  {| ae_code := code; ae_message := message; ae_details := None |}.
Abbreviation validation := (service_error CodeValidationFailed).
Abbreviation document_changed := (service_error CodeDocumentChanged).
Abbreviation apply_in_progress := (service_error CodeApplyInProgress).
Abbreviation already_exists := (service_error CodeAlreadyExists).
Abbreviation not_pending := (service_error CodeNotPending).
Abbreviation apply_recovery_required := (service_error CodeApplyRecoveryRequired).
Abbreviation apply_failed := (service_error CodeApplyFailed).
Abbreviation io_error := (service_error CodeIoError).
Definition with_details (e : ApplyServiceError) (details : Json) : ApplyServiceError :=
  {| ae_code := ae_code e; ae_message := ae_message e; ae_details := Some details |}.
Definition from_document_error (e : DecisionDocumentError) : ApplyServiceError :=
  service_error (dd_code e) (dd_message e).
Definition from_document {A} (r : DocResult A) : Svc A := pure (map_err from_document_error r).
Definition from_model_error (e : KnowledgeModelError) : ApplyServiceError := validation (ke_message e).

(** ** Data *)

Inductive DecisionOptionId := OptionYes | OptionNo | OptionOther.
#[export] Instance DecisionOptionId_eq_dec : EqDecision DecisionOptionId.
Proof. solve_decision. Defined.
Inductive ApplyDecisionDocumentStatus := StatusApplied | StatusPartiallyApplied | StatusNeedsRevision.
Definition apply_status_str (s : ApplyDecisionDocumentStatus) : string :=
  match s with
  | StatusApplied => "applied"
  | StatusPartiallyApplied => "partially_applied"
  | StatusNeedsRevision => "needs_revision"
  end.
Record ApplyDecisionDocumentRequest := {
  rq_path : string;
  rq_expected_checksum : string;
  rq_source : string;
  rq_recover : bool }.
Record ApplyDecisionDocumentResult := {
  ar_doc_id : string;
  ar_path : string;
  ar_status : ApplyDecisionDocumentStatus;
  ar_committed_memory_paths : list string;
  ar_committed_wiki_paths : list string;
  ar_rejected_decision_ids : list string;
  ar_needs_revision_decision_ids : list string;
  ar_recovered_from_journal : bool;
  ar_warnings : list string;
  ar_journal_cleanup_required : option bool;
  ar_journal_path : option string }.

Record ZeroWriteOutcome := {
  zo_decision_id : string;
  zo_target_change_id : string;
  zo_selected : DecisionOptionId;
  zo_memory_path : option string;
  zo_wiki_path : option string }.

Inductive ApplyJournalState := JournalStaged | JournalFinalized | JournalDocumentSaved | JournalCleanupRequired.
#[export] Instance ApplyJournalState_eq_dec : EqDecision ApplyJournalState.
Proof. solve_decision. Defined.
Record JournalDecisionResult := {
  jr_decision_id : string;
  jr_target_change_id : string;
  jr_selected_option_id : DecisionOptionId;
  jr_status : string;
  jr_memory_path : option string;
  jr_wiki_path : option string }.
(** The fields of [ApplyJournal] that are never assigned after its creation, and
    the journal with the others. *)
Record JournalPlan := {
  jp_apply_id : string;
  jp_doc_id : string;
  jp_proposal_id : string;
  jp_decision_document_path : string;
  jp_decision_document_checksum_before : string;
  jp_target_kind : string;
  jp_planned_memory_paths : list string;
  jp_planned_wiki_paths : list string;
  jp_wiki_update_expected_checksums : gmap string string;
  jp_decision_results : list JournalDecisionResult;
  jp_created_at : string }.
Record ApplyJournal := {
  aj_plan : JournalPlan;
  aj_state : ApplyJournalState;
  aj_created_paths : list string;
  aj_updated_paths : list string;
  aj_inflight_publish_path : option string;
  aj_finalized_memory_paths : list string;
  aj_finalized_wiki_paths : list string;
  aj_memory_checksums : gmap string string;
  aj_wiki_checksums : gmap string string;
  aj_updated_at : string;
  aj_error : option string }.

(** serde_json on the journal *)
Class JournalJson := {
  journal_to_json : ApplyJournal → Result string bytes;
  journal_from_json : bytes → Result string ApplyJournal }.
Class JournalJsonLaws `{JournalJson} : Prop := {
  journal_json j b : journal_to_json j = Ok b → journal_from_json b = Ok j }.

Record PlannedMemoryWrite := {
  pw_memory_id : string;
  pw_final_path : string;
  pw_staged_path : AbsPath;
  pw_bytes : bytes;
  pw_checksum : string }.
Inductive WikiWriteOperation := WikiCreate | WikiUpdate.
#[export] Instance WikiWriteOperation_eq_dec : EqDecision WikiWriteOperation.
Proof. solve_decision. Defined.
Record PlannedWikiWrite := {
  ww_final_path : string;
  ww_staged_path : AbsPath;
  ww_bytes : bytes;
  ww_checksum : string;
  ww_operation : WikiWriteOperation;
  ww_expected_checksum : option string }.

(** ** The journal as a value *)

Definition set_progress (j : ApplyJournal) (inflight : option string) (at_ : string) : ApplyJournal :=
  {| aj_plan := aj_plan j; aj_state := aj_state j; aj_created_paths := aj_created_paths j;
     aj_updated_paths := aj_updated_paths j; aj_inflight_publish_path := inflight;
     aj_finalized_memory_paths := aj_finalized_memory_paths j;
     aj_finalized_wiki_paths := aj_finalized_wiki_paths j; aj_memory_checksums := aj_memory_checksums j;
     aj_wiki_checksums := aj_wiki_checksums j; aj_updated_at := at_; aj_error := aj_error j |}.
Definition set_journal_state (j : ApplyJournal) (state : ApplyJournalState) (error : option string)
    (at_ : string) : ApplyJournal :=
  {| aj_plan := aj_plan j; aj_state := state; aj_created_paths := aj_created_paths j;
     aj_updated_paths := aj_updated_paths j; aj_inflight_publish_path := aj_inflight_publish_path j;
     aj_finalized_memory_paths := aj_finalized_memory_paths j;
     aj_finalized_wiki_paths := aj_finalized_wiki_paths j; aj_memory_checksums := aj_memory_checksums j;
     aj_wiki_checksums := aj_wiki_checksums j; aj_updated_at := at_; aj_error := error |}.
Definition published_memory (j : ApplyJournal) (path checksum : string) (at_ : string) : ApplyJournal :=
  {| aj_plan := aj_plan j; aj_state := aj_state j; aj_created_paths := aj_created_paths j ++ [path];
     aj_updated_paths := aj_updated_paths j; aj_inflight_publish_path := None;
     aj_finalized_memory_paths := aj_finalized_memory_paths j;
     aj_finalized_wiki_paths := aj_finalized_wiki_paths j;
     aj_memory_checksums := <[path := checksum]> (aj_memory_checksums j);
     aj_wiki_checksums := aj_wiki_checksums j; aj_updated_at := at_; aj_error := aj_error j |}.
Definition published_wiki (j : ApplyJournal) (operation : WikiWriteOperation) (path checksum : string)
    (at_ : string) : ApplyJournal :=
  let created := match operation with WikiCreate => [path] | WikiUpdate => [] end in
  let updated := match operation with WikiCreate => [] | WikiUpdate => [path] end in
  {| aj_plan := aj_plan j; aj_state := aj_state j; aj_created_paths := aj_created_paths j ++ created;
     aj_updated_paths := aj_updated_paths j ++ updated; aj_inflight_publish_path := None;
     aj_finalized_memory_paths := aj_finalized_memory_paths j;
     aj_finalized_wiki_paths := aj_finalized_wiki_paths j; aj_memory_checksums := aj_memory_checksums j;
     aj_wiki_checksums := <[path := checksum]> (aj_wiki_checksums j); aj_updated_at := at_;
     aj_error := aj_error j |}.
Definition finalized (j : ApplyJournal) (memory wiki : list string) (at_ : string) : ApplyJournal :=
  {| aj_plan := aj_plan j; aj_state := JournalFinalized; aj_created_paths := aj_created_paths j;
     aj_updated_paths := aj_updated_paths j; aj_inflight_publish_path := aj_inflight_publish_path j;
     aj_finalized_memory_paths := memory; aj_finalized_wiki_paths := wiki;
     aj_memory_checksums := aj_memory_checksums j; aj_wiki_checksums := aj_wiki_checksums j;
     aj_updated_at := at_; aj_error := aj_error j |}.

Definition outcome_status (selected : DecisionOptionId) : string :=
  match selected with
  | OptionYes => "committed"
  | OptionNo => "rejected"
  | OptionOther => "needs_revision"
  end.
Definition journal_result (o : ZeroWriteOutcome) : JournalDecisionResult :=
  {| jr_decision_id := zo_decision_id o; jr_target_change_id := zo_target_change_id o;
     jr_selected_option_id := zo_selected o; jr_status := outcome_status (zo_selected o);
     jr_memory_path := zo_memory_path o; jr_wiki_path := zo_wiki_path o |}.
Definition outcomes_from_journal (j : ApplyJournal) : list ZeroWriteOutcome :=
  (λ r, {| zo_decision_id := jr_decision_id r; zo_target_change_id := jr_target_change_id r;
           zo_selected := jr_selected_option_id r; zo_memory_path := jr_memory_path r;
           zo_wiki_path := jr_wiki_path r |}) <$> jp_decision_results (aj_plan j).

Definition apply_id_for (doc_id timestamp : string) : string :=
  "apply_" +:+ doc_id +:+ "_" +:+ str_concat (split_on ":" (str_replace "-" ":" timestamp)).
Definition new_journal (doc_id proposal_id decision_document_path checksum_before : string)
    (planned_writes : list PlannedMemoryWrite) (outcomes : list ZeroWriteOutcome) (timestamp : string)
  : ApplyJournal :=
  {| aj_plan := {| jp_apply_id := apply_id_for doc_id timestamp; jp_doc_id := doc_id;
                   jp_proposal_id := proposal_id; jp_decision_document_path := decision_document_path;
                   jp_decision_document_checksum_before := checksum_before; jp_target_kind := "memory";
                   jp_planned_memory_paths := pw_final_path <$> planned_writes;
                   jp_planned_wiki_paths := []; jp_wiki_update_expected_checksums := ∅;
                   jp_decision_results := journal_result <$> outcomes; jp_created_at := timestamp |};
     aj_state := JournalStaged; aj_created_paths := []; aj_updated_paths := [];
     aj_inflight_publish_path := None; aj_finalized_memory_paths := []; aj_finalized_wiki_paths := [];
     aj_memory_checksums := insert_all ∅ ((λ p, (pw_final_path p, pw_checksum p)) <$> planned_writes);
     aj_wiki_checksums := ∅; aj_updated_at := timestamp; aj_error := None |}.
Definition new_wiki_journal (doc_id proposal_id decision_document_path checksum_before : string)
    (planned_writes : list PlannedWikiWrite) (outcomes : list ZeroWriteOutcome) (timestamp : string)
  : ApplyJournal :=
  {| aj_plan := {| jp_apply_id := apply_id_for doc_id timestamp; jp_doc_id := doc_id;
                   jp_proposal_id := proposal_id; jp_decision_document_path := decision_document_path;
                   jp_decision_document_checksum_before := checksum_before; jp_target_kind := "wiki";
                   jp_planned_memory_paths := []; jp_planned_wiki_paths := ww_final_path <$> planned_writes;
                   jp_wiki_update_expected_checksums :=
                     insert_all ∅ (omap (λ p, (λ c, (ww_final_path p, c)) <$> ww_expected_checksum p)
                                     planned_writes);
                   jp_decision_results := journal_result <$> outcomes; jp_created_at := timestamp |};
     aj_state := JournalStaged; aj_created_paths := []; aj_updated_paths := [];
     aj_inflight_publish_path := None; aj_finalized_memory_paths := []; aj_finalized_wiki_paths := [];
     aj_memory_checksums := ∅;
     aj_wiki_checksums := insert_all ∅ ((λ p, (ww_final_path p, ww_checksum p)) <$> planned_writes);
     aj_updated_at := timestamp; aj_error := None |}.

Definition path_is_planned (j : ApplyJournal) (path : string) : bool :=
  bool_decide (path ∈ jp_planned_memory_paths (aj_plan j)) || bool_decide (path ∈ jp_planned_wiki_paths (aj_plan j)).
Definition checksum_for_path (j : ApplyJournal) (path : string) : option string :=
  match aj_memory_checksums j !! path with Some c => Some c | None => aj_wiki_checksums j !! path end.
Definition finalized_paths (j : ApplyJournal) : list string :=
  aj_finalized_memory_paths j ++ aj_finalized_wiki_paths j.
Definition is_wiki_update_path (j : ApplyJournal) (path : string) : bool :=
  bool_decide (is_Some (jp_wiki_update_expected_checksums (aj_plan j) !! path)).

(** ** Places *)

Definition with_extension (p : AbsPath) (ext : string) : AbsPath :=
  match last p with
  | Some name => removelast p ++ [file_stem name +:+ "." +:+ ext]
  | None => p
  end.
Definition journal_path (root : AbsPath) (doc_id : string) : AbsPath :=
  path_join (path_join root ".kuku/knowledge/apply-journal") (doc_id +:+ ".json").
Definition journal_vault_path (doc_id : string) : string :=
  ".kuku/knowledge/apply-journal/" +:+ doc_id +:+ ".json".
Definition staging_dir (root : AbsPath) (doc_id : string) : AbsPath :=
  path_join (path_join root ".kuku/knowledge/apply-tmp") doc_id.

Definition recovery_error_details (j : ApplyJournal) : Json :=
  JObject [("journal_path", JString (journal_vault_path (jp_doc_id (aj_plan j))));
           ("created_paths", JStrings (aj_created_paths j)); ("updated_paths", JStrings (aj_updated_paths j));
           ("cleanup_required", JBool (bool_decide (aj_state j = JournalCleanupRequired)))].

(** ** Decisions *)

Definition validate_apply_request (request : ApplyDecisionDocumentRequest) : Result ApplyServiceError unit :=
  _ ← reject_if (negb (bool_decide (rq_source request = "editor_document_apply")))
        (validation "Unsupported decision document apply source");
  map_err from_model_error (validate_sha256_checksum (rq_expected_checksum request) "expected_checksum").
Definition validate_decision_document_path `{Nfc} (path : string) : Result ApplyServiceError string :=
  path ← map_err from_model_error (validate_safe_vault_relative_path path "path");
  _ ← reject_if (negb (starts_with "Knowledge/decisions/" path))
        (validation "Decision document path must be under Knowledge/decisions/");
  Ok path.

Definition selected_decision_option (block : DecisionBlock) : Result ApplyServiceError DecisionOptionId :=
  match db_selected_option_id block with
  | None => Err (validation "Required decision is missing selected_option_id")
  | Some value =>
      if bool_decide (value = "yes") then Ok OptionYes
      else if bool_decide (value = "no") then Ok OptionNo
      else if bool_decide (value = "other") then Ok OptionOther
      else Err (validation ("Unsupported selected option id: " +:+ value))
  end.

(** The last proposal with the identifier: [collect] into a map keeps it. *)
Definition last_by {P} (id : P → string) (l : list P) (target : string) : option P :=
  List.find (λ p, bool_decide (id p = target)) (reverse l).
Definition decision_outcome (target_kind : string) (proposals : list MemoryProposalBlock)
    (wiki_proposals : list WikiProposalBlock) (decision : DecisionBlock)
  : Result ApplyServiceError ZeroWriteOutcome :=
  selected ← selected_decision_option decision;
  _ ← reject_if (bool_decide (selected = OptionOther) && is_blank (default "" (db_other_text decision)))
        (validation "Other decisions require non-empty other_text");
  let target := db_target_change_id decision in
  paths ←
    (if bool_decide (target_kind = "memory") then
       if bool_decide (selected = OptionYes) then
         proposal ← ok_or (last_by mp_id proposals target) (validation "Decision target has no memory proposal");
         Ok (Some (memory_path_for_id (pm_id (mp_memory proposal))), None)
       else Ok (None, None)
     else if bool_decide (target_kind = "wiki") then
       if bool_decide (selected = OptionYes) then
         proposal ← ok_or (last_by wb_id wiki_proposals target) (validation "Decision target has no wiki proposal");
         Ok (None, Some (pp_path (wb_page proposal)))
       else Ok (None, None)
     else Err (validation "Unsupported decision document target_kind") : Result ApplyServiceError (option string * option string));
  Ok {| zo_decision_id := db_id decision; zo_target_change_id := target; zo_selected := selected;
        zo_memory_path := paths.1; zo_wiki_path := paths.2 |}.
Definition collect_decision_outcomes `{YamlMapping} (document : ParsedDecisionDocument)
  : Result ApplyServiceError (list ZeroWriteOutcome) :=
  let blocks := doc_blocks document in
  try_map (decision_outcome (fk_target_kind (fm_known (doc_frontmatter document)))
             (snd <$> proposals_of blocks) (snd <$> wiki_proposals_of blocks)) (snd <$> decisions_of blocks).

Definition selects (option : DecisionOptionId) (outcomes : list ZeroWriteOutcome) : list ZeroWriteOutcome :=
  List.filter (λ o, bool_decide (zo_selected o = option)) outcomes.
Definition document_status_for_outcomes (outcomes : list ZeroWriteOutcome) : ApplyDecisionDocumentStatus :=
  let has option := negb (bool_decide (length (selects option outcomes) = 0)) in
  if has OptionYes && has OptionOther then StatusPartiallyApplied
  else if has OptionOther then StatusNeedsRevision
  else StatusApplied.

Definition set_document_status (f : FrontmatterKnown) (status updated_at : string) : FrontmatterKnown :=
  {| fk_id := fk_id f; fk_proposal_id := fk_proposal_id f; fk_target_kind := fk_target_kind f;
     fk_request_source := fk_request_source f; fk_status := status; fk_created_at := fk_created_at f;
     fk_updated_at := updated_at; fk_source_refs := fk_source_refs f |}.
Definition resolve_decision (outcomes : list ZeroWriteOutcome) (resolved_at : string) (d : DecisionBlock)
  : DecisionBlock :=
  let ids option := zo_decision_id <$> selects option outcomes in
  let resolved status :=
    {| db_id := db_id d; db_proposal_id := db_proposal_id d; db_target_change_id := db_target_change_id d;
       db_question := db_question d; db_selection_mode := db_selection_mode d; db_required := db_required d;
       db_status := status; db_selected_option_id := db_selected_option_id d; db_options := db_options d;
       db_other_text := db_other_text d; db_resolved_at := Some resolved_at |} in
  if bool_decide (db_id d ∈ ids OptionYes) then resolved "committed"
  else if bool_decide (db_id d ∈ ids OptionNo) then resolved "rejected"
  else if bool_decide (db_id d ∈ ids OptionOther) then resolved "needs_revision"
  else d.
Definition resolve_block (outcomes : list ZeroWriteOutcome) (resolved_at : string) (b : ParsedKukuBlock)
  : ParsedKukuBlock :=
  match b with Decision span d => Decision span (resolve_decision outcomes resolved_at d) | _ => b end.

Section documents.
Context `{YamlMapping}.

Definition set_frontmatter_string (f : DecisionDocumentFrontmatter) (key value : string)
  : DecisionDocumentFrontmatter := {| fm_known := fm_known f; fm_raw := mapping_insert (fm_raw f) key value |}.
Definition with_frontmatter (d : ParsedDecisionDocument) (f : DecisionDocumentFrontmatter)
    (blocks : list ParsedKukuBlock) : ParsedDecisionDocument :=
  {| doc_markdown := doc_markdown d; doc_frontmatter := f; doc_frontmatter_span := doc_frontmatter_span d;
     doc_blocks := blocks |}.
Definition status_frontmatter (f : DecisionDocumentFrontmatter) (status updated_at : string)
  : DecisionDocumentFrontmatter :=
  set_frontmatter_string
    (set_frontmatter_string {| fm_known := set_document_status (fm_known f) status updated_at; fm_raw := fm_raw f |}
       "status" status) "updated_at" updated_at.
Definition apply_decision_updates (document : ParsedDecisionDocument) (outcomes : list ZeroWriteOutcome)
    (document_status resolved_at : string) : ParsedDecisionDocument :=
  with_frontmatter document (status_frontmatter (doc_frontmatter document) document_status resolved_at)
    (resolve_block outcomes resolved_at <$> doc_blocks document).
Definition mark_document_apply_failed (document : ParsedDecisionDocument) (error updated_at : string)
  : ParsedDecisionDocument :=
  with_frontmatter document
    (set_frontmatter_string (status_frontmatter (doc_frontmatter document) "apply_failed" updated_at)
       "last_apply_error" error) (doc_blocks document).
End documents.

Definition apply_result_from_outcomes (doc_id path : string) (status : ApplyDecisionDocumentStatus)
    (outcomes : list ZeroWriteOutcome) (memory wiki : list string) (recovered : bool)
    (warnings : list string) (cleanup_required : option bool) (journal_path : option string)
  : ApplyDecisionDocumentResult :=
  {| ar_doc_id := doc_id; ar_path := path; ar_status := status; ar_committed_memory_paths := memory;
     ar_committed_wiki_paths := wiki;
     ar_rejected_decision_ids := zo_decision_id <$> selects OptionNo outcomes;
     ar_needs_revision_decision_ids := zo_decision_id <$> selects OptionOther outcomes;
     ar_recovered_from_journal := recovered; ar_warnings := warnings;
     ar_journal_cleanup_required := cleanup_required; ar_journal_path := journal_path |}.

(** ** Planned files *)

Section plans.
Context `{CryptoLib, YamlMapping, Nfc, Chrono}.
Context `{!YamlWrite MemoryFrontmatter, !YamlRead MemoryFrontmatter,
          !YamlWrite WikiFrontmatter, !YamlRead WikiFrontmatter}.

Definition render_memory_item_bytes (proposal : MemoryProposalBlock)
    (proposal_id decision_document_path timestamp : string) : Result ApplyServiceError bytes :=
  let memory := mp_memory proposal in
  map_err from_model_error (serialize_memory_item
    {| mi_id := pm_id memory; mi_kind := pm_kind memory; mi_title := pm_title memory;
       mi_status := MemoryActive; mi_tags := pm_tags memory; mi_source_refs := pm_source_refs memory;
       mi_created_at := timestamp; mi_updated_at := timestamp; mi_proposal_id := proposal_id;
       mi_decision_document := decision_document_path; mi_body := pm_body memory |}).

Definition plan_memory_write (root : AbsPath) (document : ParsedDecisionDocument)
    (decision_document_path timestamp : string) (outcome : ZeroWriteOutcome)
  : Result ApplyServiceError PlannedMemoryWrite :=
  let known := fm_known (doc_frontmatter document) in
  proposal ← ok_or (last_by mp_id (snd <$> proposals_of (doc_blocks document)) (zo_target_change_id outcome))
               (validation "Decision target has no proposal");
  text ← render_memory_item_bytes proposal (fk_proposal_id known) decision_document_path timestamp;
  let memory_id := pm_id (mp_memory proposal) in
  Ok {| pw_memory_id := memory_id;
        pw_final_path := default (memory_path_for_id memory_id) (zo_memory_path outcome);
        pw_staged_path := path_join (staging_dir root (fk_id known)) (memory_id +:+ ".md");
        pw_bytes := text; pw_checksum := sha256_checksum_bytes text |}.
Definition plan_memory_writes (root : AbsPath) (document : ParsedDecisionDocument)
    (outcomes : list ZeroWriteOutcome) (decision_document_path timestamp : string)
  : Result ApplyServiceError (list PlannedMemoryWrite) :=
  try_map (plan_memory_write root document decision_document_path timestamp) (selects OptionYes outcomes).

Definition wiki_write_operation (proposal : WikiProposalBlock) : Result ApplyServiceError WikiWriteOperation :=
  if bool_decide (wb_operation proposal = "create_wiki_page") then Ok WikiCreate
  else if bool_decide (wb_operation proposal = "update_wiki_page") then Ok WikiUpdate
  else Err (validation ("Unsupported wiki proposal operation: " +:+ wb_operation proposal)).
Definition wiki_page_type (value : string) : Result ApplyServiceError WikiPageType :=
  if bool_decide (value = "source") then Ok TypeSource
  else if bool_decide (value = "concept") then Ok TypeConcept
  else if bool_decide (value = "entity") then Ok TypeEntity
  else if bool_decide (value = "synthesis") then Ok TypeSynthesis
  else Err (validation ("Unsupported wiki page_type: " +:+ value)).
Definition render_wiki_page_bytes (proposal : WikiProposalBlock) (existing : option WikiPage)
    (proposal_id decision_document_path timestamp : string) : Result ApplyServiceError bytes :=
  let page := wb_page proposal in
  page_type ← wiki_page_type (pp_page_type page);
  map_err from_model_error (serialize_wiki_page
    {| wp_id := default (make_knowledge_id PrefixWiki (pp_path page)) (wp_id <$> existing);
       wp_page_type := page_type; wp_title := pp_title page;
       wp_status := default WikiActive (wp_status <$> existing); wp_tags := pp_tags page;
       wp_source_refs := pp_source_refs page; wp_created_at := default timestamp (wp_created_at <$> existing);
       wp_updated_at := timestamp; wp_proposal_id := proposal_id;
       wp_decision_document := decision_document_path; wp_body := pp_body page |}).
End plans.

(** ** Files *)

Section files.
Context `{CryptoLib, Environment, Chrono, JournalJson}.

Definition os_error (e : DiskError) : ApplyServiceError := io_error (disk_text e).
Definition io {A} (p : Process DiskError A) : Svc A := map_error os_error p.
(** A call whose absence of a file is an answer. *)
Definition unless_missing {A} (p : Process DiskError A) : Svc (option A) :=
  found ← try_ p;
  match found with
  | Ok a => mret (Some a)
  | Err DiskNotFound => mret None
  | Err e => pure (Err (os_error e))
  end.
Definition timestamp : Svc string := now ≫= λ t, mret (format_utc_timestamp t).

Definition read_to_string (p : AbsPath) : Svc string :=
  b ← io (disk_read p);
  if utf8_valid b then mret b else pure (Err (io_error "stream did not contain valid UTF-8")).

Definition write_journal_atomic (path : AbsPath) (journal : ApplyJournal) : Svc unit :=
  _ ← io (disk_create_dir_all (removelast path));
  text ← pure (map_err io_error (journal_to_json journal));
  let tmp_path := with_extension path "json.tmp" in
  _ ← io (disk_write_synced tmp_path text);
  io (disk_rename tmp_path path).
Definition read_journal (path : AbsPath) : Svc (option ApplyJournal) :=
  text ← unless_missing (disk_read path);
  match text with
  | None => mret None
  | Some text =>
      journal ← pure (map_err (λ e, validation ("Malformed apply journal: " +:+ e)) (journal_from_json text));
      mret (Some journal)
  end.
Definition remove_journal_file (path : AbsPath) : Svc unit :=
  _ ← unless_missing (disk_remove_file path); mret tt.
Definition cleanup_staging_dir (root : AbsPath) (doc_id : string) : Svc unit :=
  let dir := staging_dir root doc_id in
  removed ← try_ (disk_remove_dir_all dir);
  match removed with
  | Ok _ | Err DiskNotFound => mret tt
  | Err DiskNotADirectory => io (disk_remove_file dir)
  | Err e => pure (Err (os_error e))
  end.

Definition exact_or_case_insensitive_exists (path : AbsPath) : Svc bool :=
  found ← io (disk_try_exists path);
  if found : bool then mret true else
  match last path with
  | None => mret false
  | Some name =>
      entries ← unless_missing (disk_read_dir (removelast path));
      mret (match entries with
            | Some entries => existsb (λ candidate, eq_ignore_ascii_case candidate name) entries
            | None => false
            end)
  end.

Definition guarded_replace_file (destination : AbsPath) (expected_checksum : string) (text : bytes) : Svc unit :=
  observed ← io (disk_read destination);
  _ ← pure (reject_if (negb (bool_decide (sha256_checksum_bytes observed = expected_checksum)))
              (document_changed "Decision document changed during apply"));
  let tmp_path := removelast destination ++
                  ["." +:+ default "decision-document" (last destination) +:+ ".apply-tmp"] in
  _ ← io (disk_write_synced tmp_path text);
  renamed ← try_ (disk_rename tmp_path destination);
  _ ← (match renamed with
       | Ok _ => mret tt
       | Err e => _ ← try_ (disk_remove_file tmp_path); pure (Err (os_error e))
       end : Svc unit);
  written ← io (disk_read destination);
  pure (reject_if (negb (bool_decide (sha256_checksum_bytes text = sha256_checksum_bytes written)))
          (io_error "Decision document write verification failed")).

(** The body of [stage_memory_file] and [stage_wiki_file]. *)
Definition stage_file (staged_path : AbsPath) (text : bytes) (checksum failure : string) : Svc unit :=
  _ ← io (disk_create_dir_all (removelast staged_path));
  _ ← io (disk_write_synced staged_path text);
  staged ← io (disk_read staged_path);
  pure (reject_if (negb (bool_decide (sha256_checksum_bytes staged = checksum))) (io_error failure)).
Definition stage_memory_file (planned : PlannedMemoryWrite) : Svc unit :=
  stage_file (pw_staged_path planned) (pw_bytes planned) (pw_checksum planned)
    ("Staged memory checksum verification failed for " +:+ pw_memory_id planned).
Definition stage_wiki_file (planned : PlannedWikiWrite) : Svc unit :=
  stage_file (ww_staged_path planned) (ww_bytes planned) (ww_checksum planned)
    ("Staged wiki checksum verification failed for " +:+ ww_final_path planned).

(** Publishing a new file: a second name for the staged one. *)
Definition link_staged (staged_path destination : AbsPath) (exists_message : string) : Svc unit :=
  _ ← io (disk_create_dir_all (removelast destination));
  map_error (λ e, match e with DiskAlreadyExists => already_exists exists_message | _ => os_error e end)
    (disk_hard_link staged_path destination).
(** The check of the published text and the removal of the staged file. *)
Definition finish_publish (staged_path destination : AbsPath) (checksum failure : string) : Svc unit :=
  published ← io (disk_read destination);
  _ ← pure (reject_if (negb (bool_decide (sha256_checksum_bytes published = checksum))) (io_error failure));
  io (disk_remove_file staged_path).
Definition publish_memory_file (root : AbsPath) (planned : PlannedMemoryWrite) : Svc unit :=
  let destination := path_join root (pw_final_path planned) in
  _ ← link_staged (pw_staged_path planned) destination
        ("Memory output path already exists: " +:+ pw_final_path planned);
  finish_publish (pw_staged_path planned) destination (pw_checksum planned)
    ("Published memory checksum verification failed for " +:+ pw_final_path planned).
Definition publish_wiki_file (root : AbsPath) (planned : PlannedWikiWrite) : Svc unit :=
  let destination := path_join root (ww_final_path planned) in
  _ ← (match ww_operation planned with
       | WikiCreate =>
           link_staged (ww_staged_path planned) destination
             ("Wiki output path already exists: " +:+ ww_final_path planned)
       | WikiUpdate =>
           expected ← pure (ok_or (ww_expected_checksum planned)
                              (validation "Wiki update requires expected checksum"));
           map_error (λ e, if bool_decide (ae_code e = CodeDocumentChanged)
                           then {| ae_code := ae_code e;
                                   ae_message := "Wiki page changed during apply: " +:+ ww_final_path planned;
                                   ae_details := ae_details e |}
                           else e)
             (guarded_replace_file destination expected (ww_bytes planned))
       end : Svc unit);
  finish_publish (ww_staged_path planned) destination (ww_checksum planned)
    ("Published wiki checksum verification failed for " +:+ ww_final_path planned).

Definition preflight_step (root : AbsPath) (paths : list string) (planned : PlannedMemoryWrite)
  : Svc (list string) :=
  let final_path := pw_final_path planned in
  _ ← pure (reject_if (bool_decide (final_path ∈ paths))
              (validation ("Duplicate memory output path: " +:+ final_path)));
  found ← exact_or_case_insensitive_exists (path_join root final_path);
  _ ← pure (reject_if found (already_exists ("Memory output path already exists: " +:+ final_path)));
  mret (paths ++ [final_path]).
Definition preflight_memory_paths (root : AbsPath) (planned_writes : list PlannedMemoryWrite) : Svc unit :=
  _ ← process_fold (preflight_step root) [] planned_writes; mret tt.

(** ** The journal on disk *)

Inductive JournalPathState := PathMissing | ChecksumMatch | ChecksumMismatch.
Definition journal_path_state `{Nfc} (root : AbsPath) (relative_path expected_checksum : string)
  : Svc JournalPathState :=
  _ ← pure (map_err from_model_error (validate_safe_vault_relative_path relative_path "journal memory path"));
  text ← unless_missing (disk_read (path_join root relative_path));
  mret (match text with
        | None => PathMissing
        | Some text => if bool_decide (sha256_checksum_bytes text = expected_checksum) then ChecksumMatch
                       else ChecksumMismatch
        end).

Definition persist_cleanup_required (path : AbsPath) (journal : ApplyJournal) (error : string)
  : Svc ApplyJournal :=
  at_ ← timestamp;
  let journal := set_journal_state journal JournalCleanupRequired (Some error) at_ in
  _ ← write_journal_atomic path journal;
  mret journal.
Definition persist_cleanup_required_error (path : AbsPath) (journal : ApplyJournal) (message : string)
    (code : KnowledgeErrorCode) : Svc ApplyServiceError :=
  updated ← try_ (persist_cleanup_required path journal message);
  mret (match updated with
        | Ok cleanup => {| ae_code := code; ae_message := message;
                           ae_details := Some (recovery_error_details cleanup) |}
        | Err error =>
            with_details (apply_failed "Could not persist cleanup_required apply journal")
              (JObject [("journal_path", JString (journal_vault_path (jp_doc_id (aj_plan journal))));
                        ("created_paths", JStrings (aj_created_paths journal)); ("cleanup_required", JBool true);
                        ("journal_update_error", JString (ae_message error))])
        end).
Definition needs_cleanup {A} (path : AbsPath) (journal : ApplyJournal) (message : string) : Svc A :=
  error ← persist_cleanup_required_error path journal message CodeApplyRecoveryRequired; pure (Err error).

Section recovery.
Context `{Nfc}.

(** The published state of the path in flight: whether to roll it back. *)
Definition inflight_candidate (root path : AbsPath) (journal : ApplyJournal) (inflight_path : string)
  : Svc (list string) :=
  if negb (path_is_planned journal inflight_path)
  then needs_cleanup path journal ("Inflight publish path is not planned: " +:+ inflight_path)
  else match checksum_for_path journal inflight_path with
  | None => needs_cleanup path journal ("Inflight publish path has no checksum: " +:+ inflight_path)
  | Some checksum =>
      state ← journal_path_state root inflight_path checksum;
      match state with
      | ChecksumMatch =>
          if is_wiki_update_path journal inflight_path
          then needs_cleanup path journal
                 ("Inflight wiki update was published and requires manual recovery: " +:+ inflight_path)
          else mret [inflight_path]
      | PathMissing => mret []
      | ChecksumMismatch => needs_cleanup path journal ("Inflight publish checksum mismatch: " +:+ inflight_path)
      end
  end.
Definition rollback_candidate (root path : AbsPath) (journal : ApplyJournal) (_ : unit) (candidate : string)
  : Svc unit :=
  if negb (path_is_planned journal candidate)
  then needs_cleanup path journal ("Created path is not planned: " +:+ candidate)
  else match checksum_for_path journal candidate with
  | None => needs_cleanup path journal ("Created path has no checksum: " +:+ candidate)
  | Some checksum =>
      state ← journal_path_state root candidate checksum;
      match state with
      | ChecksumMatch =>
          removed ← try_ (disk_remove_file (path_join root candidate));
          match removed with
          | Ok _ => mret tt
          | Err error => needs_cleanup path journal
                           ("Failed to rollback created path " +:+ candidate +:+ ": " +:+ disk_text error)
          end
      | PathMissing => mret tt
      | ChecksumMismatch => needs_cleanup path journal ("Created path checksum mismatch: " +:+ candidate)
      end
  end.
Definition or_cleanup (path : AbsPath) (journal : ApplyJournal) (p : Svc unit) : Svc unit :=
  done ← try_ p;
  match done with
  | Ok _ => mret tt
  | Err error => needs_cleanup path journal (ae_message error)
  end.
(** The elements of a [BTreeSet] *)
Definition sorted_set (l : list string) : list string := sort_by str_leb (remove_dups l).
Definition rollback_staged_journal (root path : AbsPath) (journal : ApplyJournal) : Svc unit :=
  inflight ← (match aj_inflight_publish_path journal with
              | None => mret []
              | Some inflight_path => inflight_candidate root path journal inflight_path
              end : Svc (list string));
  _ ← process_fold (rollback_candidate root path journal) tt (sorted_set (aj_created_paths journal ++ inflight));
  _ ← or_cleanup path journal (cleanup_staging_dir root (jp_doc_id (aj_plan journal)));
  or_cleanup path journal (remove_journal_file path).
Definition staged_cleanup_failed (journal : ApplyJournal) (error : ApplyServiceError) : ApplyServiceError :=
  with_details (apply_recovery_required "Staged apply journal cleanup failed")
    (JObject [("journal_path", JString (journal_vault_path (jp_doc_id (aj_plan journal))));
              ("cleanup_error", JString (ae_message error))]).
Definition recover_staged_journal (root path : AbsPath) (journal : ApplyJournal) : Svc unit :=
  if bool_decide (aj_created_paths journal = []) && bool_decide (aj_inflight_publish_path journal = None) then
    _ ← map_error (staged_cleanup_failed journal) (cleanup_staging_dir root (jp_doc_id (aj_plan journal)));
    map_error (staged_cleanup_failed journal) (remove_journal_file path)
  else rollback_staged_journal root path journal.
Definition rollback_after_publish_journal_update_failure (root path : AbsPath) (journal : ApplyJournal)
    (original_error : ApplyServiceError) : Svc ApplyServiceError :=
  rolled_back ← try_ (rollback_staged_journal root path journal);
  mret (match rolled_back with
        | Ok _ => original_error
        | Err error =>
            {| ae_code := CodeApplyFailed;
               ae_message := "Journal update failed after publish and rollback did not complete: "
                             +:+ ae_message error;
               ae_details := ae_details error |}
        end).
End recovery.
End files.

(** ** Recovery of a finalized journal *)

Section apply.
Context `{CryptoLib, Environment, Chrono, JournalJson, YamlMapping, Nfc}.
Context `{!YamlRead MemoryProposalBlock, !YamlRead WikiProposalBlock, !YamlRead DecisionBlock,
          !YamlRead FrontmatterKnown, !YamlRead Mapping}.
Context `{!YamlWrite MemoryProposalBlock, !YamlWrite WikiProposalBlock, !YamlWrite DecisionBlock,
          !YamlWrite Mapping}.
Context `{!YamlWrite MemoryFrontmatter, !YamlRead MemoryFrontmatter,
          !YamlWrite WikiFrontmatter, !YamlRead WikiFrontmatter}.

(** [Result<(), String>] of the code as the optional reason of a mismatch. *)
Abbreviation Check := (Process string).

Definition check_finalized_path (root : AbsPath) (journal : ApplyJournal) (_ : unit) (path : string) : Check unit :=
  match checksum_for_path journal path with
  | None => pure (Err ("Finalized path has no checksum: " +:+ path))
  | Some checksum =>
      state ← map_error ae_message (journal_path_state root path checksum);
      match state with
      | ChecksumMatch => mret tt
      | PathMissing => pure (Err ("Finalized path is missing: " +:+ path))
      | ChecksumMismatch => pure (Err ("Finalized path checksum mismatch: " +:+ path))
      end
  end.
Definition decision_id_count (document : ParsedDecisionDocument) (id : string) : nat :=
  length (List.filter (λ d, bool_decide (db_id d = id)) (snd <$> decisions_of (doc_blocks document))).
Definition check_uncovered (root : AbsPath) (journal : ApplyJournal) (_ : unit) (outcome : ZeroWriteOutcome)
  : Check unit :=
  match (match zo_memory_path outcome with Some p => Some p | None => zo_wiki_path outcome end) with
  | None => mret tt
  | Some write_path =>
      if bool_decide (write_path ∈ finalized_paths journal) then mret tt else
      state ← map_error ae_message (journal_path_state root write_path "sha256:unused");
      match state with
      | PathMissing => mret tt
      | _ => pure (Err ("Target collision is not covered by finalized journal: " +:+ write_path))
      end
  end.
Definition validate_finalized_journal_match (root : AbsPath) (relative_path : string)
    (request : ApplyDecisionDocumentRequest) (current_checksum : string)
    (document : ParsedDecisionDocument) (journal : ApplyJournal) : Check unit :=
  let known := fm_known (doc_frontmatter document) in
  let plan := aj_plan journal in
  let expect (b : bool) (reason : string) : Result string unit := reject_if (negb b) reason in
  _ ← pure (_ ← expect (bool_decide (jp_doc_id plan = fk_id known))
                  "Journal doc_id does not match decision document";
            _ ← expect (bool_decide (jp_proposal_id plan = fk_proposal_id known))
                  "Journal proposal_id does not match decision document";
            _ ← expect (bool_decide (jp_decision_document_path plan = relative_path))
                  "Journal decision document path does not match request path";
            _ ← expect (bool_decide (current_checksum = rq_expected_checksum request))
                  "Decision document checksum does not match request";
            expect (bool_decide (current_checksum = jp_decision_document_checksum_before plan))
              "Decision document checksum does not match finalized journal");
  _ ← process_fold (check_finalized_path root journal) tt (finalized_paths journal);
  _ ← pure (try_fold (λ _ r, expect (decision_id_count document (jr_decision_id r) =? 1)
                               ("Journal decision id is missing or duplicated: " +:+ jr_decision_id r))
              tt (jp_decision_results plan));
  match collect_decision_outcomes document with
  | Ok outcomes => process_fold (check_uncovered root journal) tt outcomes
  | Err _ => mret tt
  end.

(** After the document is saved: the journal is marked, removed, the staging
    directory cleaned; failures only become warnings. [saved] starts the warnings. *)
Definition finish_saved (root path : AbsPath) (journal : ApplyJournal) (saved cleanup : string)
    (result : list string → option bool → option string → ApplyDecisionDocumentResult)
  : Svc ApplyDecisionDocumentResult :=
  let left_behind warning :=
    result [warning] (Some true) (Some (journal_vault_path (jp_doc_id (aj_plan journal)))) in
  at_ ← timestamp;
  let journal := set_journal_state journal JournalDocumentSaved (aj_error journal) at_ in
  updated ← try_ (write_journal_atomic path journal);
  match updated with
  | Err error => mret (left_behind (saved +:+ " journal update failed: " +:+ ae_message error))
  | Ok _ =>
      removed ← try_ (remove_journal_file path);
      match removed with
      | Err error => mret (left_behind (saved +:+ " journal cleanup failed: " +:+ ae_message error))
      | Ok _ =>
          cleaned ← try_ (cleanup_staging_dir root (jp_doc_id (aj_plan journal)));
          mret (result (match cleaned with Ok _ => [] | Err error => [cleanup +:+ ae_message error] end) None None)
      end
  end.

Definition recover_finalized_journal (root decision_document_path : AbsPath) (current_checksum : string)
    (document : ParsedDecisionDocument) (path : AbsPath) (journal : ApplyJournal)
  : Svc ApplyDecisionDocumentResult :=
  let plan := aj_plan journal in
  let outcomes := outcomes_from_journal journal in
  let document_status := document_status_for_outcomes outcomes in
  next_markdown ← from_document (render_decision_document
    (apply_decision_updates document outcomes (apply_status_str document_status) (jp_created_at plan)));
  _ ← map_error (λ error,
        with_details (apply_recovery_required "Finalized journal recovery could not save decision document")
          (JObject [("journal_path", JString (journal_vault_path (jp_doc_id plan)));
                    ("save_error", JString (ae_message error))]))
      (guarded_replace_file decision_document_path current_checksum next_markdown);
  finish_saved root path journal "Recovered decision document, but"
    "Recovered decision document, but staging cleanup failed: "
    (apply_result_from_outcomes (jp_doc_id plan) (jp_decision_document_path plan) document_status outcomes
       (aj_finalized_memory_paths journal) (aj_finalized_wiki_paths journal) true).

Definition mismatch_error (updated : Result ApplyServiceError ApplyJournal) (journal : ApplyJournal)
  : ApplyServiceError :=
  match updated with
  | Ok cleanup => with_details (apply_recovery_required "Finalized journal mismatch requires recovery")
                    (recovery_error_details cleanup)
  | Err error => with_details (apply_recovery_required (ae_message error)) (recovery_error_details journal)
  end.
Definition handle_finalized_journal_mismatch (decision_document_path : AbsPath) (current_checksum : string)
    (request : ApplyDecisionDocumentRequest) (document : ParsedDecisionDocument) (path : AbsPath)
    (journal : ApplyJournal) (reason : string) : Svc ApplyServiceError :=
  updated ← try_ (persist_cleanup_required path journal reason);
  if negb (bool_decide (current_checksum = rq_expected_checksum request))
  then mret (mismatch_error updated journal)
  else
    at_ ← timestamp;
    match render_decision_document (mark_document_apply_failed document reason at_) with
    | Err error => mret (with_details (apply_recovery_required (dd_message error)) (recovery_error_details journal))
    | Ok markdown =>
        replaced ← try_ (guarded_replace_file decision_document_path current_checksum markdown);
        mret (match replaced, updated with
              | Err _, _ => with_details (apply_recovery_required "Finalized journal mismatch requires recovery")
                              (recovery_error_details journal)
              | Ok _, Ok cleanup =>
                  with_details (apply_failed "Finalized journal mismatch marked decision document apply_failed")
                    (recovery_error_details cleanup)
              | Ok _, Err _ =>
                  with_details (apply_failed
                      "Finalized journal mismatch could not persist cleanup_required journal")
                    (JObject [("journal_path", JString (journal_vault_path (jp_doc_id (aj_plan journal))));
                              ("created_paths", JStrings (aj_created_paths journal));
                              ("cleanup_required", JBool true)])
              end)
    end.

(** Whether every finalized path still has its text. *)
Fixpoint finalized_paths_match (root : AbsPath) (journal : ApplyJournal) (paths : list string) : Svc bool :=
  match paths with
  | [] => mret true
  | path :: paths =>
      match checksum_for_path journal path with
      | None => mret false
      | Some checksum =>
          state ← journal_path_state root path checksum;
          match state with
          | ChecksumMatch => finalized_paths_match root journal paths
          | _ => mret false
          end
      end
  end.
Definition completed_orphan_matches (root : AbsPath) (document : ParsedDecisionDocument) (journal : ApplyJournal)
  : Svc bool :=
  let status := fk_status (fm_known (doc_frontmatter document)) in
  if negb (bool_decide (status ∈ ["applied"; "partially_applied"; "needs_revision"])) then mret false else
  matching ← finalized_paths_match root journal (finalized_paths journal);
  if negb matching then mret false else
  let status_by_decision : gmap string string :=
    insert_all ∅ ((λ r, (jr_decision_id r, jr_status r)) <$> jp_decision_results (aj_plan journal)) in
  let decisions := snd <$> decisions_of (doc_blocks document) in
  mret (bool_decide (length decisions = size status_by_decision)
        && forallb (λ d, bool_decide (status_by_decision !! db_id d = Some (db_status d))) decisions).
Definition cleanup_failed (journal : ApplyJournal) (error : ApplyServiceError) : ApplyServiceError :=
  with_details (not_pending "Decision document is not pending")
    (JObject [("journal_path", JString (journal_vault_path (jp_doc_id (aj_plan journal))));
              ("journal_cleanup_required", JBool true); ("cleanup_error", JString (ae_message error))]).
Definition cleanup_completed_orphan_journal (root : AbsPath) (document : ParsedDecisionDocument) (path : AbsPath)
    (journal : ApplyJournal) : Svc unit :=
  matching ← completed_orphan_matches root document journal;
  _ ← pure (reject_if (negb matching)
              (with_details (apply_recovery_required "Finalized journal does not match completed decision document")
                 (recovery_error_details journal)));
  map_error (cleanup_failed journal) (remove_journal_file path).

Inductive ExistingJournalAction :=
| ContinueNormalApply
| ReturnResult (result : ApplyDecisionDocumentResult).
Definition handle_finalized_journal (root decision_document_path : AbsPath) (relative_path : string)
    (request : ApplyDecisionDocumentRequest) (current_checksum : string) (path : AbsPath)
    (document : ParsedDecisionDocument) (journal : ApplyJournal) : Svc ExistingJournalAction :=
  if negb (bool_decide (fk_status (fm_known (doc_frontmatter document)) = "pending")) then
    _ ← cleanup_completed_orphan_journal root document path journal; mret ContinueNormalApply
  else if negb (rq_recover request) then
    pure (Err (with_details (apply_recovery_required "Finalized apply journal requires recovery")
                 (recovery_error_details journal)))
  else
    matched ← try_ (validate_finalized_journal_match root relative_path request current_checksum document journal);
    match matched with
    | Ok _ =>
        result ← recover_finalized_journal root decision_document_path current_checksum document path journal;
        mret (ReturnResult result)
    | Err reason =>
        error ← handle_finalized_journal_mismatch decision_document_path current_checksum request document path
                  journal reason;
        pure (Err error)
    end.
Definition handle_existing_journal (root decision_document_path : AbsPath) (relative_path : string)
    (request : ApplyDecisionDocumentRequest) (current_checksum : string) (path : AbsPath)
    (document : ParsedDecisionDocument) (journal : ApplyJournal) : Svc ExistingJournalAction :=
  match aj_state journal with
  | JournalStaged => _ ← recover_staged_journal root path journal; mret ContinueNormalApply
  | JournalFinalized =>
      handle_finalized_journal root decision_document_path relative_path request current_checksum path document
        journal
  | JournalDocumentSaved =>
      _ ← map_error (cleanup_failed journal) (remove_journal_file path); mret ContinueNormalApply
  | JournalCleanupRequired =>
      pure (Err (with_details (apply_recovery_required "Apply journal requires manual cleanup")
                   (recovery_error_details journal)))
  end.

(** ** Writing *)

(** What a failed step leaves is cleared as far as possible. *)
Definition abandon {A} (root path : AbsPath) (doc_id : string) (error : ApplyServiceError) : Svc A :=
  _ ← try_ (cleanup_staging_dir root doc_id);
  _ ← try_ (remove_journal_file path);
  pure (Err error).
Definition stage_or_abandon (root path : AbsPath) (doc_id : string) (stage : Svc unit) : Svc unit :=
  staged ← try_ stage;
  match staged with
  | Ok _ => mret tt
  | Err error => abandon root path doc_id error
  end.
Definition abandon_publish {A} (root path : AbsPath) (doc_id : string) (journal : ApplyJournal)
    (error : ApplyServiceError) : Svc A :=
  at_ ← timestamp;
  _ ← try_ (write_journal_atomic path (set_progress journal None at_));
  abandon root path doc_id error.
(** The journal announces the path before it is published. *)
Definition announce (path : AbsPath) (journal : ApplyJournal) (final_path : string) : Svc ApplyJournal :=
  at_ ← timestamp;
  let journal := set_progress journal (Some final_path) at_ in
  _ ← write_journal_atomic path journal;
  mret journal.

(** One planned memory item. The failpoints of the tests are not compiled into the
    application. *)
Definition publish_memory_step (root path : AbsPath) (doc_id : string) (journal : ApplyJournal)
    (planned : PlannedMemoryWrite) : Svc ApplyJournal :=
  journal ← announce path journal (pw_final_path planned);
  published ← try_ (publish_memory_file root planned);
  match published with
  | Err error => abandon_publish root path doc_id journal error
  | Ok _ =>
      at_ ← timestamp;
      let journal := published_memory journal (pw_final_path planned) (pw_checksum planned) at_ in
      updated ← try_ (write_journal_atomic path journal);
      match updated with
      | Ok _ => mret journal
      | Err error =>
          error ← rollback_after_publish_journal_update_failure root path journal error; pure (Err error)
      end
  end.
Definition publish_wiki_step (root path : AbsPath) (doc_id : string) (journal : ApplyJournal)
    (planned : PlannedWikiWrite) : Svc ApplyJournal :=
  journal ← announce path journal (ww_final_path planned);
  published ← try_ (publish_wiki_file root planned);
  match published with
  | Err error => abandon_publish root path doc_id journal error
  | Ok _ =>
      at_ ← timestamp;
      let journal :=
        published_wiki journal (ww_operation planned) (ww_final_path planned) (ww_checksum planned) at_ in
      updated ← try_ (write_journal_atomic path journal);
      match updated with
      | Ok _ => mret journal
      | Err error =>
          if bool_decide (ww_operation planned = WikiUpdate)
          then needs_cleanup path journal ("Journal update failed after wiki update publish: " +:+ ae_message error)
          else error ← rollback_after_publish_journal_update_failure root path journal error; pure (Err error)
      end
  end.

(** The document is saved once the journal is finalized. *)
Definition save_document (root decision_document_path : AbsPath) (relative_path checksum_before : string)
    (document : ParsedDecisionDocument) (outcomes : list ZeroWriteOutcome)
    (document_status : ApplyDecisionDocumentStatus) (resolved_at : string) (path : AbsPath)
    (journal : ApplyJournal) (failure : string) (memory wiki : list string) : Svc ApplyDecisionDocumentResult :=
  next_markdown ← pure (map_err
    (λ error, with_details (apply_recovery_required (dd_message error)) (recovery_error_details journal))
    (render_decision_document
       (apply_decision_updates document outcomes (apply_status_str document_status) resolved_at)));
  replaced ← try_ (guarded_replace_file decision_document_path checksum_before next_markdown);
  match replaced with
  | Err _ =>
      at_ ← timestamp;
      let journal := set_journal_state journal (aj_state journal) (Some failure) at_ in
      _ ← try_ (write_journal_atomic path journal);
      pure (Err (with_details (apply_recovery_required failure) (recovery_error_details journal)))
  | Ok _ =>
      finish_saved root path journal "Decision document saved, but apply" "Apply staging cleanup failed: "
        (apply_result_from_outcomes (fk_id (fm_known (doc_frontmatter document))) relative_path document_status
           outcomes memory wiki false)
  end.

Definition apply_with_memory_writes (root decision_document_path : AbsPath)
    (relative_path checksum_before : string) (document : ParsedDecisionDocument)
    (outcomes : list ZeroWriteOutcome) (document_status : ApplyDecisionDocumentStatus) (resolved_at : string)
  : Svc ApplyDecisionDocumentResult :=
  let known := fm_known (doc_frontmatter document) in
  planned_writes ← pure (plan_memory_writes root document outcomes relative_path resolved_at);
  _ ← preflight_memory_paths root planned_writes;
  let path := journal_path root (fk_id known) in
  let journal := new_journal (fk_id known) (fk_proposal_id known) relative_path checksum_before planned_writes
                   outcomes resolved_at in
  _ ← write_journal_atomic path journal;
  _ ← process_fold (λ _ planned, stage_or_abandon root path (fk_id known) (stage_memory_file planned)) tt
        planned_writes;
  journal ← process_fold (publish_memory_step root path (fk_id known)) journal planned_writes;
  at_ ← timestamp;
  let journal := finalized journal (aj_created_paths journal) (aj_finalized_wiki_paths journal) at_ in
  updated ← try_ (write_journal_atomic path journal);
  match updated with
  | Err error => error ← rollback_after_publish_journal_update_failure root path journal error; pure (Err error)
  | Ok _ =>
      save_document root decision_document_path relative_path checksum_before document outcomes document_status
        resolved_at path journal "Decision document save failed after memory finalization"
        (pw_final_path <$> planned_writes) []
  end.

(** *** Wiki pages *)

Definition plan_existing_page (root : AbsPath) (proposal : WikiProposalBlock) (operation : WikiWriteOperation)
    (final_path : string) : Svc (option WikiPage) :=
  match operation with
  | WikiCreate =>
      found ← exact_or_case_insensitive_exists (path_join root final_path);
      _ ← pure (reject_if found (already_exists ("Wiki output path already exists: " +:+ final_path)));
      mret None
  | WikiUpdate =>
      expected ← pure (ok_or (pp_expected_checksum (wb_page proposal))
                         (validation "Wiki update proposal requires expected_checksum"));
      text ← map_error (λ e, match e with
                             | DiskNotFound => validation ("Wiki update path does not exist: " +:+ final_path)
                             | _ => os_error e
                             end) (disk_read (path_join root final_path));
      _ ← pure (reject_if (negb (bool_decide (sha256_checksum_bytes text = expected)))
                  (document_changed ("Wiki page changed before apply: " +:+ final_path)));
      _ ← pure (reject_if (negb (utf8_valid text)) (validation ("Wiki page is not UTF-8: " +:+ final_path)));
      page ← pure (map_err (λ e, validation (ke_field e +:+ ": " +:+ ke_message e)) (parse_wiki_page text));
      mret (Some page)
  end.
Definition plan_wiki_write (root : AbsPath) (document : ParsedDecisionDocument)
    (decision_document_path timestamp : string) (planned : list PlannedWikiWrite) (outcome : ZeroWriteOutcome)
  : Svc (list PlannedWikiWrite) :=
  let known := fm_known (doc_frontmatter document) in
  proposal ← pure (ok_or (last_by wb_id (snd <$> wiki_proposals_of (doc_blocks document))
                            (zo_target_change_id outcome))
                     (validation "Decision target has no wiki proposal"));
  operation ← pure (wiki_write_operation proposal);
  let final_path := default (pp_path (wb_page proposal)) (zo_wiki_path outcome) in
  _ ← pure (reject_if (bool_decide (final_path ∈ ww_final_path <$> planned))
              (validation ("Duplicate wiki output path: " +:+ final_path)));
  existing ← plan_existing_page root proposal operation final_path;
  text ← pure (render_wiki_page_bytes proposal existing (fk_proposal_id known) decision_document_path timestamp);
  let staged_name := hex_encode (sha256 final_path) in
  mret (planned ++
    [{| ww_final_path := final_path;
        ww_staged_path := path_join (staging_dir root (fk_id known)) (staged_name +:+ ".md");
        ww_bytes := text; ww_checksum := sha256_checksum_bytes text; ww_operation := operation;
        ww_expected_checksum := pp_expected_checksum (wb_page proposal) |}]).
Definition plan_wiki_writes (root : AbsPath) (document : ParsedDecisionDocument)
    (outcomes : list ZeroWriteOutcome) (decision_document_path timestamp : string)
  : Svc (list PlannedWikiWrite) :=
  process_fold (plan_wiki_write root document decision_document_path timestamp) [] (selects OptionYes outcomes).

Definition finalize_wiki (root path : AbsPath) (journal : ApplyJournal) (planned_writes : list PlannedWikiWrite)
  : Svc ApplyJournal :=
  at_ ← timestamp;
  let journal := finalized journal (aj_finalized_memory_paths journal) (ww_final_path <$> planned_writes) at_ in
  updated ← try_ (write_journal_atomic path journal);
  match updated with
  | Ok _ => mret journal
  | Err error =>
      if existsb (λ p, bool_decide (ww_operation p = WikiUpdate)) planned_writes
      then needs_cleanup path journal
             ("Journal finalization failed after wiki update publish: " +:+ ae_message error)
      else error ← rollback_after_publish_journal_update_failure root path journal error; pure (Err error)
  end.
Definition apply_with_wiki_writes (root decision_document_path : AbsPath)
    (relative_path checksum_before : string) (document : ParsedDecisionDocument)
    (outcomes : list ZeroWriteOutcome) (document_status : ApplyDecisionDocumentStatus) (resolved_at : string)
  : Svc ApplyDecisionDocumentResult :=
  let known := fm_known (doc_frontmatter document) in
  planned_writes ← plan_wiki_writes root document outcomes relative_path resolved_at;
  let path := journal_path root (fk_id known) in
  let journal := new_wiki_journal (fk_id known) (fk_proposal_id known) relative_path checksum_before
                   planned_writes outcomes resolved_at in
  _ ← write_journal_atomic path journal;
  _ ← process_fold (λ _ planned, stage_or_abandon root path (fk_id known) (stage_wiki_file planned)) tt
        planned_writes;
  journal ← process_fold (publish_wiki_step root path (fk_id known)) journal planned_writes;
  journal ← finalize_wiki root path journal planned_writes;
  save_document root decision_document_path relative_path checksum_before document outcomes document_status
    resolved_at path journal "Decision document save failed after wiki finalization" []
    (ww_final_path <$> planned_writes).

(** ** The whole application *)

(** [root.join(path).exists()] for every path [integrity] asks about; the answers
    are taken in one look at the disk. *)
Definition existing_under (root : AbsPath) (fs : Fs) (path : string) : bool :=
  path_exists fs (path_join root path).
Definition look_at_disk {E} : Process E Fs := λ m, (Returned (Ok (mc_fs m)), m).

(** No write is needed: only the document changes. *)
Definition apply_without_writes (decision_document_path : AbsPath) (relative_path current_checksum : string)
    (document : ParsedDecisionDocument) (outcomes : list ZeroWriteOutcome)
    (document_status : ApplyDecisionDocumentStatus) (resolved_at : string) : Svc ApplyDecisionDocumentResult :=
  next_markdown ← from_document (render_decision_document
    (apply_decision_updates document outcomes (apply_status_str document_status) resolved_at));
  _ ← guarded_replace_file decision_document_path current_checksum next_markdown;
  mret (apply_result_from_outcomes (fk_id (fm_known (doc_frontmatter document))) relative_path document_status
          outcomes [] [] false [] None None).
Definition apply_pending (root decision_document_path : AbsPath) (relative_path current_checksum : string)
    (request : ApplyDecisionDocumentRequest) (document : ParsedDecisionDocument)
  : Svc ApplyDecisionDocumentResult :=
  let known := fm_known (doc_frontmatter document) in
  _ ← pure (reject_if (negb (bool_decide (current_checksum = rq_expected_checksum request)))
              (document_changed "Decision document changed before apply"));
  _ ← pure (reject_if (negb (bool_decide (fk_status known = "pending")))
              (not_pending "Decision document is not pending"));
  fs ← look_at_disk;
  _ ← from_document (validate_decision_document_integrity document (Some (existing_under root fs)));
  outcomes ← pure (collect_decision_outcomes document);
  let document_status := document_status_for_outcomes outcomes in
  resolved_at ← timestamp;
  if bool_decide (selects OptionYes outcomes = [])
  then apply_without_writes decision_document_path relative_path current_checksum document outcomes
         document_status resolved_at
  else if bool_decide (fk_target_kind known = "memory")
  then apply_with_memory_writes root decision_document_path relative_path current_checksum document outcomes
         document_status resolved_at
  else if bool_decide (fk_target_kind known = "wiki")
  then apply_with_wiki_writes root decision_document_path relative_path current_checksum document outcomes
         document_status resolved_at
  else pure (Err (validation "Unsupported decision document target_kind")).

Definition apply_decision_document_with_locks (root decision_document_path : AbsPath) (relative_path : string)
    (request : ApplyDecisionDocumentRequest) : Svc ApplyDecisionDocumentResult :=
  current_markdown ← read_to_string decision_document_path;
  let current_checksum := sha256_checksum_bytes current_markdown in
  document ← from_document (parse_decision_document current_markdown);
  let path := journal_path root (fk_id (fm_known (doc_frontmatter document))) in
  existing ← read_journal path;
  action ← (match existing with
            | None => mret ContinueNormalApply
            | Some journal =>
                handle_existing_journal root decision_document_path relative_path request current_checksum path
                  document journal
            end : Svc ExistingJournalAction);
  match action with
  | ReturnResult result => mret result
  | ContinueNormalApply =>
      apply_pending root decision_document_path relative_path current_checksum request document
  end.

(** *** Locks *)

Definition LOCK_STALE_AFTER : Z := 30 * 60.
(** A lock file: its directory and its name there. *)
Record LockFile := { lk_dir : AbsPath; lk_name : string }.
Definition lock_path (l : LockFile) : AbsPath := path_join (lk_dir l) (lk_name l).
Definition apply_lock (root : AbsPath) (doc_id : string) : LockFile :=
  {| lk_dir := path_join root ".kuku/knowledge/apply-lock"; lk_name := doc_id +:+ ".lock" |}.
Definition document_write_lock (root : AbsPath) (relative_path : string) : LockFile :=
  {| lk_dir := path_join root ".kuku/knowledge/document-write-lock";
     lk_name := hex_encode (sha256 relative_path) +:+ ".lock" |}.

Definition create_lock_file (lock_path : AbsPath) : Svc unit :=
  map_error (λ e, match e with DiskAlreadyExists => already_exists "Lock already exists" | _ => os_error e end)
    (disk_create_new lock_path).
Definition lock_is_stale (lock_path : AbsPath) : Svc bool :=
  modified ← unless_missing (disk_modified lock_path);
  match modified with
  | None => mret true
  | Some modified => t ← now; mret (LOCK_STALE_AFTER <? t - modified)%Z
  end.
(** The name of the stale lock: a time stamp without separators. *)
Definition stale_extension (timestamp : string) : string :=
  "stale-" +:+ pop_trailing "Z" (str_replace "T" "-" (str_concat (split_on ":" (str_replace "-" ":" timestamp)))).
Definition replace_stale_lock (lock_path : AbsPath) (in_progress_message : string) : Svc unit :=
  at_ ← timestamp;
  let stale_path := with_extension lock_path (stale_extension at_) in
  _ ← unless_missing (disk_rename lock_path stale_path);
  created ← try_ (create_lock_file lock_path);
  match created with
  | Ok _ => _ ← try_ (disk_remove_file stale_path); mret tt
  | Err error =>
      if bool_decide (ae_code error = CodeAlreadyExists)
      then pure (Err (apply_in_progress in_progress_message)) else pure (Err error)
  end.
Definition acquire_lock_file (lock_path : AbsPath) (in_progress_message : string) : Svc unit :=
  created ← try_ (create_lock_file lock_path);
  match created with
  | Ok _ => mret tt
  | Err error =>
      if bool_decide (ae_code error = CodeAlreadyExists) then
        stale ← lock_is_stale lock_path;
        if negb stale then pure (Err (apply_in_progress in_progress_message))
        else replace_stale_lock lock_path in_progress_message
      else pure (Err error)
  end.
(** A value that holds a lock removes it when it is dropped, unless the process
    stops. *)
Definition holding {A} (lock_path : AbsPath) (p : Svc A) : Svc A :=
  result ← try_ p;
  _ ← try_ (disk_remove_file lock_path);
  pure result.
Definition with_lock {A} (lock : LockFile) (in_progress_message : string) (p : Svc A) : Svc A :=
  _ ← io (disk_create_dir_all (lk_dir lock));
  _ ← acquire_lock_file (lock_path lock) in_progress_message;
  holding (lock_path lock) p.

Definition apply_decision_document_for_root (root : AbsPath) (request : ApplyDecisionDocumentRequest)
  : Svc ApplyDecisionDocumentResult :=
  _ ← pure (validate_apply_request request);
  relative_path ← pure (validate_decision_document_path (rq_path request));
  let path := path_join root relative_path in
  initial_markdown ← read_to_string path;
  initial_document ← from_document (parse_decision_document initial_markdown);
  let doc_id := fk_id (fm_known (doc_frontmatter initial_document)) in
  with_lock (apply_lock root doc_id) "Decision document apply is already in progress"
    (with_lock (document_write_lock root relative_path) "Decision document write is already in progress"
       (apply_decision_document_with_locks root path relative_path request)).
End apply.
