(* ===== verification/ApplyPlan.v ===== *)
(** * What a memory document will write

    The validation of a decision document and the collection of its outcomes walk
    the document separately. For memory items they agree: the files that will be
    planned are the ones that were validated, each once, under identifiers fit for
    names of files. *)
From Stdlib Require Import Ascii String.
#[local] Set Warnings "-clear-no-such-hyp".
From S2P Require Import Prelude Text Paths Crypto Knowledge DecisionDocument KnowledgeApply.

(** ** The proposals by identifier *)

Lemma find_key {A} (key : A → string) (l : list A) (x : A) :
  NoDup (key <$> l) → x ∈ l → List.find (λ y, bool_decide (key y = key x)) l = Some x.
Proof.
  induction l as [|y l IH]; intros Hnd Hin; [by apply elem_of_nil in Hin|]. rewrite fmap_cons in Hnd.
  apply NoDup_cons in Hnd as [Hy Hnd]. simpl. apply elem_of_cons in Hin as [->|Hin].
  - by rewrite bool_decide_true.
  - rewrite bool_decide_false; [by apply IH|]. intros Heq. apply Hy. rewrite Heq. by apply list_elem_of_fmap_2.
Qed.
Lemma find_key_Some {A} (key : A → string) (l : list A) k x :
  List.find (λ y, bool_decide (key y = k)) l = Some x → x ∈ l ∧ key x = k.
Proof.
  intros Hf. apply find_some in Hf as [Hin Hk]. split; [by apply list_elem_of_In|by apply bool_decide_eq_true in Hk].
Qed.
Lemma last_by_unique {A} (key : A → string) (l : list A) (x : A) :
  NoDup (key <$> l) → x ∈ l → last_by key l (key x) = Some x.
Proof.
  intros Hnd Hin. unfold last_by. apply find_key; [|by apply elem_of_reverse].
  by rewrite (reverse_Permutation l).
Qed.

Lemma filter_key_one {A} (key : A → string) (l : list A) (x : A) :
  NoDup (key <$> l) → x ∈ l → length (List.filter (λ y, bool_decide (key y = key x)) l) = 1.
Proof.
  induction l as [|y l IH]; intros Hnd Hin; [by apply elem_of_nil in Hin|]. rewrite fmap_cons in Hnd.
  apply NoDup_cons in Hnd as [Hy Hnd]. simpl. apply elem_of_cons in Hin as [->|Hin].
  - rewrite bool_decide_true by done. simpl. f_equal. apply length_zero_iff_nil.
    destruct (List.filter _ l) as [|z zs] eqn:Hf; [done|]. destruct Hy.
    assert (Hz : In z (List.filter (λ y0, bool_decide (key y0 = key y)) l)) by (rewrite Hf; by left).
    apply filter_In in Hz as [Hz Heq]. apply bool_decide_eq_true in Heq. rewrite <- Heq.
    by apply list_elem_of_fmap_2, list_elem_of_In.
  - rewrite bool_decide_false; [by apply IH|]. intros Heq. apply Hy. rewrite Heq. by apply list_elem_of_fmap_2.
Qed.
Lemma selects_elem option outcomes (o : ZeroWriteOutcome) :
  o ∈ selects option outcomes ↔ o ∈ outcomes ∧ zo_selected o = option.
Proof.
  unfold selects. rewrite list_elem_of_In, filter_In, <- list_elem_of_In. by rewrite bool_decide_eq_true.
Qed.
(** With one outcome for each decision, a decision gets the status of its outcome. *)
Lemma resolve_decision_status outcomes at_ (o : ZeroWriteOutcome) (d : DecisionBlock) :
  NoDup (zo_decision_id <$> outcomes) → o ∈ outcomes → zo_decision_id o = db_id d →
  db_id (resolve_decision outcomes at_ d) = db_id d ∧
  db_status (resolve_decision outcomes at_ d) = outcome_status (zo_selected o).
Proof.
  intros Hnd Hin Hid.
  assert (Hsel : ∀ option, db_id d ∈ zo_decision_id <$> selects option outcomes ↔ zo_selected o = option).
  { intros option. rewrite <- Hid, list_elem_of_fmap. split.
    - intros (o' & Heq & [Hin' Hs]%selects_elem). by rewrite (NoDup_key_inj zo_decision_id _ _ _ Hnd Hin Hin' Heq).
    - intros Hs. exists o. split; [done|]. by apply selects_elem. }
  unfold resolve_decision. destruct (zo_selected o) eqn:Ho.
  - by rewrite bool_decide_true by by apply Hsel.
  - rewrite bool_decide_false by by rewrite Hsel. by rewrite bool_decide_true by by apply Hsel.
  - rewrite bool_decide_false by by rewrite Hsel. rewrite bool_decide_false by by rewrite Hsel.
    by rewrite bool_decide_true by by apply Hsel.
Qed.

Lemma omap_cons {A B} (f : A → option B) x l : omap f (x :: l) = option_list (f x) ++ omap f l.
Proof. simpl. by destruct (f x). Qed.

Section plan.
Context `{CryptoLib, YamlMapping, Nfc, Chrono}.
Context `{!YamlWrite MemoryFrontmatter, !YamlRead MemoryFrontmatter,
          !YamlWrite WikiFrontmatter, !YamlRead WikiFrontmatter}.
Implicit Types (doc : ParsedDecisionDocument) (proposals : list (option KukuBlockSpan * MemoryProposalBlock)).

(** The state of the loop over the proposals that are done. *)
Definition proposals_added proposals (st : list (string * MemoryProposalBlock) * list string) : Prop :=
  st.1 = (λ x, (mp_id x.2, x.2)) <$> proposals ∧ NoDup (mp_id ∘ snd <$> proposals) ∧
  st.2 = (pm_id ∘ mp_memory ∘ snd) <$> proposals ∧ NoDup (pm_id ∘ mp_memory ∘ snd <$> proposals) ∧
  Forall (λ x, validate_memory_proposal x.2 = Ok tt) proposals.
Lemma add_memory_proposals proposals st :
  try_fold add_memory_proposal ([], []) proposals = Ok st → proposals_added proposals st.
Proof.
  intros Hfold. apply (try_fold_prefix_invariant proposals_added add_memory_proposal []) in Hfold; [done|by split_and!; simpl; constructor|].
  - intros done_ [by_id ids] x [by_id' ids'] _ (Hby & Hnd & Hids & Hndm & Hall) Hstep. simpl in *. subst by_id ids.
    unfold add_memory_proposal in Hstep.
    apply bind_Ok_inv in Hstep as (p & Hp & Hstep). unfold require_span in Hp.
    apply bind_Ok_inv in Hp as (s & _ & Hp). apply Ok_inj in Hp. subst p.
    apply bind_Ok_inv in Hstep as ([] & Hvalid & Hstep).
    apply bind_Ok_inv in Hstep as (u & Hid & Hstep). apply reject_if_Ok, bool_decide_eq_false in Hid.
    apply bind_Ok_inv in Hstep as (u' & Hmem & Hstep). apply reject_if_Ok, bool_decide_eq_false in Hmem.
    apply Ok_inj in Hstep. injection Hstep as <- <-.
    rewrite <- list_fmap_compose in Hid.
    split_and!; simpl; rewrite ?fmap_app; try done.
    + apply NoDup_app. split; [done|]. split; [|apply NoDup_singleton].
      intros y Hy ->%list_elem_of_singleton. by apply Hid.
    + apply NoDup_app. split; [done|]. split; [|apply NoDup_singleton].
      intros y Hy ->%list_elem_of_singleton. by apply Hmem.
    + apply Forall_app. split; [done|]. by constructor.
Qed.
Lemma proposals_added_find proposals st target :
  proposals_added proposals st → find_by_id st.1 target = last_by mp_id (snd <$> proposals) target.
Proof.
  intros (-> & Hnd & _). unfold find_by_id.
  destruct (List.find _ ((λ x, (mp_id x.2, x.2)) <$> proposals)) as [[k p]|] eqn:E; simpl.
  - apply (find_key_Some fst) in E as [Hin Hk]. simpl in Hk. subst k.
    apply list_elem_of_fmap in Hin as (x & Hx & Hin). injection Hx as -> ->.
    symmetry. apply last_by_unique; [by rewrite <- list_fmap_compose|by apply list_elem_of_fmap_2].
  - symmetry. unfold last_by. destruct (List.find _ (reverse _)) as [p|] eqn:E'; [|done].
    apply (find_key_Some mp_id) in E' as [Hin Hp]. apply elem_of_reverse, list_elem_of_fmap in Hin as (x & -> & Hin).
    eapply find_none in E; [|by apply list_elem_of_In, (list_elem_of_fmap_2 (λ x, (mp_id x.2, x.2)))].
    simpl in E. by rewrite bool_decide_true in E.
Qed.

(** ** The decisions on them *)

Definition decides_yes (x : option KukuBlockSpan * DecisionBlock) : bool :=
  bool_decide (db_selected_option_id x.2 = Some "yes").
Definition memory_output (p : MemoryProposalBlock) : string := memory_path_for_id (pm_id (mp_memory p)).
Definition yes_output (by_id : list (string * MemoryProposalBlock)) (x : option KukuBlockSpan * DecisionBlock)
  : option string :=
  if decides_yes x then memory_output <$> find_by_id by_id (db_target_change_id x.2) else None.
Abbreviation add_memory_decision by_id proposal_id exists_ :=
  (add_decision by_id proposal_id (λ p, Ok (memory_path_for_id (pm_id (mp_memory p))))
     "Duplicate yes memory output path: "
     (λ _ path, reject_if (match exists_ with Some f => f path | None => false end)
                  (invalid ("Memory output path already exists: " +:+ path)))).

Definition decisions_added by_id proposal_id (exists_ : option (string → bool))
    (decisions : list (option KukuBlockSpan * DecisionBlock)) (st : list string * list string * list string) : Prop :=
  st.1.1 = (db_id ∘ snd) <$> decisions ∧ NoDup (db_id ∘ snd <$> decisions) ∧
  st.1.2 = (db_target_change_id ∘ snd) <$> decisions ∧
  st.2 = omap (yes_output by_id) decisions ∧ NoDup (omap (yes_output by_id) decisions) ∧
  (∀ path f, path ∈ st.2 → exists_ = Some f → f path = false) ∧
  Forall (λ x, validate_decision x.2 proposal_id = Ok tt ∧
               is_Some (find_by_id by_id (db_target_change_id x.2))) decisions.

Lemma add_memory_decision_Ok by_id proposal_id exists_ st x st' :
  add_memory_decision by_id proposal_id exists_ st x = Ok st' →
  validate_decision x.2 proposal_id = Ok tt ∧ (db_id x.2 ∉ st.1.1) ∧
  is_Some (find_by_id by_id (db_target_change_id x.2)) ∧
  st' = (st.1.1 ++ [db_id x.2], st.1.2 ++ [db_target_change_id x.2], st.2 ++ option_list (yes_output by_id x)) ∧
  ∀ path, yes_output by_id x = Some path →
    (path ∉ st.2) ∧ match exists_ with Some f => f path = false | None => True end.
Proof.
  destruct st as [[ids targets] yes]. unfold add_decision, yes_output, decides_yes. intros Hstep.
  apply bind_Ok_inv in Hstep as (d & Hd & Hstep). unfold require_span in Hd.
  apply bind_Ok_inv in Hd as (s & _ & Hd). apply Ok_inj in Hd. subst d.
  apply bind_Ok_inv in Hstep as ([] & Hvalid & Hstep).
  apply bind_Ok_inv in Hstep as (u & Hid & Hstep). apply reject_if_Ok, bool_decide_eq_false in Hid.
  apply bind_Ok_inv in Hstep as (p & Hp & Hstep). apply ok_or_Ok in Hp. rewrite Hp. simpl in *.
  case_bool_decide as Hyes; simpl.
  - apply bind_Ok_inv in Hstep as (u' & Hdup & Hstep). apply reject_if_Ok, bool_decide_eq_false in Hdup.
    apply bind_Ok_inv in Hstep as ([] & Hex & Hstep). apply reject_if_Ok in Hex.
    apply Ok_inj in Hstep. subst st'. split_and!; try done. intros path [= <-]. by destruct exists_.
  - apply Ok_inj in Hstep. subst st'. rewrite app_nil_r. by split_and!.
Qed.
Lemma add_memory_decisions by_id proposal_id exists_ decisions st :
  try_fold (add_memory_decision by_id proposal_id exists_) ([], [], []) decisions = Ok st →
  decisions_added by_id proposal_id exists_ decisions st.
Proof.
  intros Hfold.
  apply (try_fold_prefix_invariant (decisions_added by_id proposal_id exists_) _ []) in Hfold;
    [done|split_and!; simpl; try constructor; set_solver|].
  intros done_ [[ids targets] yes] x st' _ (Hids & Hnd & Htargets & Hyes & Hndy & Hfree & Hall) Hstep.
  apply add_memory_decision_Ok in Hstep as (Hvalid & Hnew & Hsome & -> & Hpath).
  simpl in *. subst ids targets yes.
  assert (Hlast : omap (yes_output by_id) [x] = option_list (yes_output by_id x)) by by rewrite omap_cons, app_nil_r.
  unfold decisions_added. cbn [fst snd]. rewrite !fmap_app, omap_app. rewrite Hlast. split_and!; try done.
  - apply NoDup_app. split; [done|]. split; [|apply NoDup_singleton].
    intros y Hy ->%list_elem_of_singleton. by apply Hnew.
  - apply NoDup_app. split; [done|]. destruct (yes_output by_id x) as [path|]; simpl.
    + split; [|apply NoDup_singleton]. intros y Hy ->%list_elem_of_singleton. by destruct (Hpath path).
    + split; [|constructor]. intros y _ Hy. by apply elem_of_nil in Hy.
  - intros path f Hin ->. apply elem_of_app in Hin as [Hin|Hin]; [by apply (Hfree path)|].
    destruct (yes_output by_id x) as [q|]; simpl in Hin; [|by apply elem_of_nil in Hin].
    apply list_elem_of_singleton in Hin as ->. by destruct (Hpath q).
  - apply Forall_app. split; [done|]. by constructor.
Qed.
(** Only the answers about the outputs matter. *)
Lemma add_memory_decisions_exists by_id proposal_id e e' decisions st0 st :
  try_fold (add_memory_decision by_id proposal_id e) st0 decisions = Ok st →
  (∀ path f, path ∈ st.2 → e' = Some f → f path = false) →
  try_fold (add_memory_decision by_id proposal_id e') st0 decisions = Ok st.
Proof.
  revert st0. induction decisions as [|x decisions IH]; intros st0 Hfold Hfree; [done|]. simpl in *.
  apply bind_Ok_inv in Hfold as (st1 & Hx & Hfold).
  assert (Hsub : ∀ path, path ∈ st1.2 → path ∈ st.2).
  { revert Hfold. apply (try_fold_invariant (λ s, ∀ path, path ∈ st1.2 → path ∈ s.2)); [done|].
    intros s y s' _ Hs Hstep path Hpath.
    apply add_memory_decision_Ok in Hstep as (_ & _ & _ & -> & _). simpl. set_solver. }
  assert (Hx' : add_memory_decision by_id proposal_id e' st0 x = Ok st1); [|rewrite Hx'; simpl; by apply IH].
  pose proof Hx as Hst1. apply add_memory_decision_Ok in Hst1 as (_ & _ & _ & Hst1 & _).
  destruct st0 as [[ids targets] yes]. unfold add_decision in *.
  destruct (require_span x _) as [d|] eqn:Hd; [|done]. simpl in *.
  destruct (validate_decision d _) as [[]|]; [|done]. simpl in *.
  destruct (bool_decide (db_id d ∈ ids)); [done|]. simpl in *.
  destruct (find_by_id by_id (db_target_change_id d)) as [p|] eqn:Hp; [|done]. simpl in *.
  destruct (bool_decide (db_selected_option_id d = Some "yes")) eqn:Hyes; [|done]. simpl in *.
  destruct (bool_decide (memory_path_for_id _ ∈ yes)); [done|]. simpl in *.
  apply bind_Ok_inv in Hx as ([] & _ & Hx). apply Ok_inj in Hx.
  destruct e' as [f|]; simpl; [|by rewrite Hx].
  rewrite (Hfree (memory_path_for_id (pm_id (mp_memory p))) f); [simpl; by rewrite Hx| |done].
  apply Hsub. rewrite <- Hx. simpl. set_solver.
Qed.

(** ** The document as a whole *)

Lemma memory_integrity_Ok doc exists_ r :
  validate_memory_decision_document_integrity doc exists_ = Ok r →
  ∃ st st', let proposals := proposals_of (doc_blocks doc) in let decisions := decisions_of (doc_blocks doc) in
    proposals_added proposals st ∧
    decisions_added st.1 (fk_proposal_id (fm_known (doc_frontmatter doc))) exists_ decisions st' ∧
    in_yes_memory_paths r = st'.2 ∧
    ∀ e', (∀ path f, path ∈ st'.2 → e' = Some f → f path = false) →
      validate_memory_decision_document_integrity doc e' = Ok r.
Proof.
  unfold validate_memory_decision_document_integrity. intros Hv.
  apply bind_Ok_inv in Hv as (u1 & Hw & Hv). apply bind_Ok_inv in Hv as (u2 & Hp & Hv).
  apply bind_Ok_inv in Hv as (u3 & Hd & Hv).
  apply bind_Ok_inv in Hv as ([by_id ids] & Hproposals & Hv).
  apply bind_Ok_inv in Hv as ([[did targets] yes] & Hdecisions & Hv).
  apply bind_Ok_inv in Hv as (u4 & Honce & Hv). apply Ok_inj in Hv.
  exists (by_id, ids), (did, targets, yes). cbv zeta. split; [by apply add_memory_proposals|].
  split; [by apply add_memory_decisions|]. split; [by subst r|].
  intros e' Hfree. rewrite Hw, Hp, Hd. simpl. rewrite Hproposals. simpl.
  rewrite (add_memory_decisions_exists _ _ exists_ e' _ _ _ Hdecisions Hfree). simpl. by rewrite Honce, <- Hv.
Qed.

Lemma selected_yes d o : selected_decision_option d = Ok o → o = OptionYes ↔ db_selected_option_id d = Some "yes".
Proof.
  unfold selected_decision_option. destruct (db_selected_option_id d) as [v|]; [|done].
  case_bool_decide as Hy; [by intros [= <-]; rewrite Hy|].
  case_bool_decide; [intros [= <-]; split; congruence|]. case_bool_decide; [intros [= <-]; split; congruence|done].
Qed.
Lemma memory_outcome_Ok (ps : list MemoryProposalBlock) (wikis : list WikiProposalBlock) d o :
  decision_outcome "memory" ps wikis d = Ok o →
  selected_decision_option d = Ok (zo_selected o) ∧ zo_decision_id o = db_id d ∧
  zo_target_change_id o = db_target_change_id d ∧ zo_wiki_path o = None ∧
  (zo_selected o ≠ OptionYes → zo_memory_path o = None) ∧
  (zo_selected o = OptionYes → ∃ p, last_by mp_id ps (db_target_change_id d) = Some p ∧
                                    zo_memory_path o = Some (memory_output p)).
Proof.
  unfold decision_outcome. intros Ho. apply bind_Ok_inv in Ho as (selected & Hsel & Ho).
  apply bind_Ok_inv in Ho as (u & _ & Ho). apply bind_Ok_inv in Ho as ([mp wp] & Hpaths & Ho). apply Ok_inj in Ho.
  rewrite bool_decide_true in Hpaths by done. subst o. simpl.
  case_bool_decide as Hyes.
  - apply bind_Ok_inv in Hpaths as (p & Hp & Hpaths). apply ok_or_Ok in Hp. apply Ok_inj in Hpaths.
    injection Hpaths as <- <-. split_and!; try done. intros _. by exists p.
  - apply Ok_inj in Hpaths. injection Hpaths as <- <-. by split_and!.
Qed.

(** The outcomes of a validated memory document. *)
Lemma memory_outcomes doc exists_ r outcomes :
  fk_target_kind (fm_known (doc_frontmatter doc)) = "memory" →
  validate_memory_decision_document_integrity doc exists_ = Ok r →
  collect_decision_outcomes doc = Ok outcomes →
  omap zo_memory_path outcomes = in_yes_memory_paths r ∧ NoDup (in_yes_memory_paths r) ∧
  zo_decision_id <$> outcomes = db_id <$> (snd <$> decisions_of (doc_blocks doc)) ∧
  NoDup (zo_decision_id <$> outcomes) ∧
  Forall (λ o, zo_wiki_path o = None ∧ (zo_selected o = OptionYes ↔ is_Some (zo_memory_path o)) ∧
    ∀ path, zo_memory_path o = Some path → ∃ p, path = memory_output p ∧
      last_by mp_id (snd <$> proposals_of (doc_blocks doc)) (zo_target_change_id o) = Some p ∧
      validate_memory_proposal p = Ok tt) outcomes.
Proof.
  intros Hkind Hv Ho. apply memory_integrity_Ok in Hv as (st & st' & Hst & Hst' & Hyes & _).
  unfold collect_decision_outcomes in Ho. rewrite Hkind in Ho. apply try_map_Ok in Ho.
  destruct Hst' as (_ & Hnd & _ & Hpaths & Hndy & _ & _).
  rewrite Hyes, Hpaths. split; [|split; [by rewrite <- Hpaths, Hpaths|]].
  - clear Hnd Hndy Hpaths Hyes. remember (decisions_of (doc_blocks doc)) as decisions eqn:Hdecs. clear Hdecs.
    revert outcomes Ho. induction decisions as [|x decisions IH]; intros outcomes Ho.
    { by apply Forall2_nil_inv_l in Ho as ->. }
    rewrite fmap_cons in Ho. apply Forall2_cons_inv_l in Ho as (o & outcomes' & Ho & Hrest & ->).
    rewrite !omap_cons, (IH _ Hrest). f_equal. apply memory_outcome_Ok in Ho as (Hsel & _ & _ & _ & Hno & Hy).
    pose proof (selected_yes _ _ Hsel) as Hiff. unfold yes_output, decides_yes.
    destruct (decide (zo_selected o = OptionYes)) as [Heq|Hne].
    + destruct (Hy Heq) as (p & Hp & ->). rewrite bool_decide_true by by apply Hiff.
      rewrite (proposals_added_find _ _ _ Hst), Hp. done.
    + rewrite (Hno Hne). rewrite bool_decide_false; [done|]. by rewrite <- Hiff.
  - assert (Hids : zo_decision_id <$> outcomes = db_id <$> (snd <$> decisions_of (doc_blocks doc))).
    { clear -Ho. induction Ho as [|d o ds os Hd Hrest IH]; [done|]. rewrite !fmap_cons, IH.
      by apply memory_outcome_Ok in Hd as (_ & -> & _). }
    split; [done|]. split; [by rewrite Hids, <- list_fmap_compose|].
    apply Forall_forall. intros o Hin. apply list_elem_of_lookup in Hin as [i Hi].
    destruct (Forall2_lookup_r _ _ _ _ _ Ho Hi) as (d & _ & Hd).
    apply memory_outcome_Ok in Hd as (Hsel & _ & Htarget & Hwiki & Hno & Hy).
    destruct (decide (zo_selected o = OptionYes)) as [Heq|Hne].
    + destruct (Hy Heq) as (p & Hp & Hpath). rewrite Hpath. split; [done|]. split; [done|].
      intros path [= <-]. exists p. split; [done|]. rewrite Htarget. split; [done|].
      unfold last_by in Hp. apply (find_key_Some mp_id) in Hp as [Hp _]. rewrite elem_of_reverse in Hp.
      apply list_elem_of_fmap in Hp as (x & -> & Hx). destruct Hst as (_ & _ & _ & _ & Hall).
      by apply (proj1 (Forall_forall _ _) Hall).
    + rewrite (Hno Hne). split; [done|]. split; [by split; [|intros [? ?]]|done].
Qed.

Lemma validated_memory_id p :
  validate_memory_proposal p = Ok tt → is_valid_knowledge_id (pm_id (mp_memory p)) = true.
Proof.
  unfold validate_memory_proposal. intros Hv. apply bind_Ok_inv in Hv as (u1 & _ & Hv).
  apply bind_Ok_inv in Hv as (u2 & _ & Hv). apply bind_Ok_inv in Hv as (u3 & Hid & _).
  unfold check_prefixed_id in Hid. apply reject_if_Ok, orb_false_iff in Hid as [_ Hid].
  by apply negb_false_iff in Hid.
Qed.

(** ** The planned files *)

(** A planned file: its place and its checksum follow from the identifier of the
    memory and from its text. *)
Definition planned_for (root : AbsPath) (doc_id : string) (w : PlannedMemoryWrite) : Prop :=
  is_valid_knowledge_id (pw_memory_id w) = true ∧ pw_final_path w = memory_path_for_id (pw_memory_id w) ∧
  pw_staged_path w = path_join (staging_dir root doc_id) (pw_memory_id w +:+ ".md") ∧
  pw_checksum w = sha256_checksum_bytes (pw_bytes w).

Lemma plan_memory_writes_Ok root doc exists_ r outcomes relative at_ ws :
  fk_target_kind (fm_known (doc_frontmatter doc)) = "memory" →
  validate_memory_decision_document_integrity doc exists_ = Ok r →
  collect_decision_outcomes doc = Ok outcomes →
  plan_memory_writes root doc outcomes relative at_ = Ok ws →
  pw_final_path <$> ws = in_yes_memory_paths r ∧
  Forall (planned_for root (fk_id (fm_known (doc_frontmatter doc)))) ws.
Proof.
  intros Hkind Hv Ho Hplan. destruct (memory_outcomes _ _ _ _ Hkind Hv Ho) as (Hpaths & _ & _ & _ & Hall).
  rewrite <- Hpaths. clear Hv Ho Hpaths. unfold plan_memory_writes in Hplan. apply try_map_Ok in Hplan.
  revert ws Hplan. induction Hall as [|o os (_ & Hyes & Hpath) Hall IH]; intros ws Hplan.
  { by apply Forall2_nil_inv_l in Hplan as ->. }
  rewrite omap_cons. unfold selects in Hplan. simpl in Hplan.
  destruct (decide (zo_selected o = OptionYes)) as [Heq|Hne].
  - rewrite bool_decide_true in Hplan by done.
    apply Forall2_cons_inv_l in Hplan as (w & ws' & Hw & Hrest & ->).
    destruct (IH ws' Hrest) as [Hps Hws]. destruct (proj1 Hyes Heq) as [path Hsome].
    destruct (Hpath path Hsome) as (p & -> & Hp & Hvalid).
    unfold plan_memory_write in Hw. rewrite Hp in Hw. cbn [ok_or mbind result_bind] in Hw.
    apply bind_Ok_inv in Hw as (text & _ & Hw). apply Ok_inj in Hw. subst w.
    rewrite fmap_cons, Hps. rewrite Hsome. simpl. split; [done|]. constructor; [|done].
    split_and!; [by apply validated_memory_id|done..].
  - rewrite bool_decide_false in Hplan by done. destruct (zo_memory_path o) as [path|] eqn:Hsome.
    + by destruct Hne; apply Hyes.
    + by apply IH.
Qed.

(** C21: what an application plans is what was validated. For a memory document that
    passed the integrity check, the planned files are the outputs the check saw, in
    the same order and each once; every file lies directly in the directory of the
    memory items, under a name that is a valid identifier, and records the checksum
    of the text to be written. *)
Theorem planned_writes_validated (root : AbsPath) doc (exists_ : option (string → bool))
    (r : DecisionDocumentIntegrity) (outcomes : list ZeroWriteOutcome) (relative at_ : string)
    (ws : list PlannedMemoryWrite) :
  fk_target_kind (fm_known (doc_frontmatter doc)) = "memory" →
  validate_decision_document_integrity doc exists_ = Ok r →
  collect_decision_outcomes doc = Ok outcomes →
  plan_memory_writes root doc outcomes relative at_ = Ok ws →
  pw_final_path <$> ws = in_yes_memory_paths r ∧ NoDup (pw_final_path <$> ws) ∧
  (∀ path f, path ∈ pw_final_path <$> ws → exists_ = Some f → f path = false) ∧
  ∀ w, w ∈ ws → is_valid_knowledge_id (pw_memory_id w) = true ∧
    path_join root (pw_final_path w) = root ++ ["Knowledge"; "memory"; pw_memory_id w +:+ ".md"] ∧
    pw_checksum w = sha256_checksum_bytes (pw_bytes w).
Proof.
  intros Hkind Hv Ho Hplan. unfold validate_decision_document_integrity in Hv.
  apply bind_Ok_inv in Hv as (u & _ & Hv). rewrite Hkind in Hv. simpl in Hv.
  destruct (plan_memory_writes_Ok _ _ _ _ _ _ _ _ Hkind Hv Ho Hplan) as [Hpaths Hws].
  destruct (memory_outcomes _ _ _ _ Hkind Hv Ho) as (_ & Hnd & _).
  apply memory_integrity_Ok in Hv as (st & st' & _ & (_ & _ & _ & _ & _ & Hfree & _) & Hyes & _).
  rewrite Hpaths. split; [done|]. split; [done|]. split; [rewrite Hyes; exact Hfree|].
  intros w Hw. apply (proj1 (Forall_forall _ _) Hws) in Hw as (Hid & Hfinal & _ & Hsum).
  split; [done|]. split; [|done]. destruct (valid_id_text _ Hid) as [Htext Hne].
  rewrite Hfinal. unfold memory_path_for_id.
  change ("Knowledge/memory/" +:+ pw_memory_id w +:+ ".md")
    with (join "/" ["Knowledge"; "memory"; pw_memory_id w +:+ ".md"]).
  apply path_join_segments; [done|]. repeat constructor; try done.
  all: by apply id_text_plain.
Qed.
End plan.
