(* ===== verification/ApplySafety.v ===== *)
(** * Applications survive stops

    A process that applies a memory document may stop at any step, any number of
    times. The disk it leaves is always in one of five phases, and the next
    application that is not stopped completes the work: every planned file is there
    with its whole text, and the document records the decisions. *)
From Stdlib Require Import Ascii String.
#[local] Set Warnings "-clear-no-such-hyp".
From S2P Require Import Prelude Text Paths SyncDb Scanner Disk Crypto Knowledge DecisionDocument.
From S2P Require Import KnowledgeApply ApplyPlan.

(** ** Places *)

Definition is_file (v : option Node) : Prop := ∃ c t, v = Some (File c t).
Definition file_at (fs : Fs) (p : AbsPath) (c : bytes) : Prop := ∃ t, fs !! p = Some (File c t).
Lemma file_at_is_file fs p c : file_at fs p c → is_file (fs !! p).
Proof. intros [t ->]. by exists c, t. Qed.
Lemma file_at_insert_eq fs p c t : file_at (<[p := File c t]> fs) p c.
Proof. exists t. by rewrite lookup_insert_eq. Qed.
Lemma file_at_inj fs p c c' : file_at fs p c → file_at fs p c' → c = c'.
Proof. intros [t Ht] [t' Ht']. congruence. Qed.
Lemma file_at_eq fs fs' p c : fs' !! p = fs !! p → file_at fs p c → file_at fs' p c.
Proof. intros Heq [t Ht]. exists t. by rewrite Heq. Qed.

Lemma elem_of_prefixes q p : q ∈ prefixes p ↔ q `prefix_of` p ∧ q ≠ [].
Proof.
  unfold prefixes. rewrite list_elem_of_fmap. split.
  - intros (n & -> & Hn%elem_of_seq). split; [apply prefix_take|]. destruct p, n; simpl in *; [lia..|done].
  - intros [[k ->] Hne]. exists (length q). split; [by rewrite take_app_length|].
    apply elem_of_seq. rewrite length_app. destruct q; [done|]. simpl. lia.
Qed.
Lemma prefixes_app root rest q :
  q ∈ prefixes (root ++ rest) → q ∈ prefixes root ∨ ∃ n, n ∈ prefixes rest ∧ q = root ++ n.
Proof.
  unfold prefixes. rewrite !list_elem_of_fmap. intros (n & -> & Hn%elem_of_seq). rewrite length_app in Hn.
  destruct (decide (n ≤ length root)) as [Hle|Hgt].
  - left. exists n. rewrite take_app_le by done. split; [done|]. apply elem_of_seq. lia.
  - right. exists (take (n - length root) rest). rewrite take_app_ge by lia. split; [|done].
    apply list_elem_of_fmap. exists (n - length root). split; [done|]. apply elem_of_seq. lia.
Qed.

Ltac plain_names := repeat (apply Forall_cons; split; [assumption || by split_and!|]); apply Forall_nil_2.

(** The directories, below the root, that applications make. *)
Definition own_dirs (root : AbsPath) (doc_id : string) : list AbsPath :=
  app root <$> [[".kuku"]; [".kuku"; "knowledge"]; [".kuku"; "knowledge"; "apply-journal"];
    [".kuku"; "knowledge"; "apply-tmp"]; [".kuku"; "knowledge"; "apply-tmp"; doc_id];
    ["Knowledge"]; ["Knowledge"; "memory"]].

(** The scene of an application: the vault, the document, the files it plans (all
    named after identifiers) and the disk at first. *)
Class Scene := {
  root : AbsPath;
  doc_id : string;
  document : AbsPath;
  finals : list string;
  fs0 : Fs;
  doc_id_ok : id_text doc_id = true ∧ doc_id ≠ "";
  document_place : ∃ init name, document = root ++ "Knowledge" :: "decisions" :: init ++ [name];
  finals_named path : path ∈ finals → ∃ id, id_text id = true ∧ id ≠ "" ∧ path = memory_path_for_id id;
  root_dirs q : q ∈ prefixes root → fs0 !! q = Some Dir;
  document_dir : fs0 !! removelast document = Some Dir }.

Section layout.
Context `{Scene}.

Lemma doc_id_name ext : str_existsb (Ascii.eqb slash) ext = false → plain_name (doc_id +:+ ext).
Proof. destruct doc_id_ok. by apply id_text_plain. Qed.
Lemma kuku_join name :
  plain_name name → path_join root (".kuku/knowledge/" +:+ name) = root ++ [".kuku"; "knowledge"; name].
Proof. intros Hn. apply (path_join_segments root [".kuku"; "knowledge"; name]); [done|plain_names]. Qed.
Lemma journal_path_eq :
  journal_path root doc_id = root ++ [".kuku"; "knowledge"; "apply-journal"; doc_id +:+ ".json"].
Proof.
  unfold journal_path. change ".kuku/knowledge/apply-journal" with (".kuku/knowledge/" +:+ "apply-journal").
  rewrite kuku_join by by split_and!.
  rewrite path_join_name by by apply doc_id_name. by rewrite <- app_assoc.
Qed.
Lemma staging_dir_eq :
  staging_dir root doc_id = root ++ [".kuku"; "knowledge"; "apply-tmp"; doc_id].
Proof.
  unfold staging_dir. change ".kuku/knowledge/apply-tmp" with (".kuku/knowledge/" +:+ "apply-tmp").
  rewrite kuku_join by by split_and!.
  rewrite path_join_name; [by rewrite <- app_assoc|].
  pose proof (doc_id_name "" eq_refl) as Hd. by rewrite str_app_nil_r in Hd.
Qed.
Lemma file_stem_json s : s ≠ "" → file_stem (s +:+ ".json") = s.
Proof.
  intros Hne. unfold file_stem.
  assert (Hsplit : rsplit_dot (s +:+ ".json") = Some (s, "json")).
  { clear Hne. induction s as [|a s IH]; [done|]. rewrite str_app_cons. simpl. by rewrite IH. }
  rewrite Hsplit. by destruct s.
Qed.
Lemma journal_tmp_eq :
  with_extension (journal_path root doc_id) "json.tmp" =
  root ++ [".kuku"; "knowledge"; "apply-journal"; doc_id +:+ ".json.tmp"].
Proof.
  rewrite journal_path_eq. unfold with_extension.
  rewrite last_app_cons. simpl. rewrite file_stem_json by apply doc_id_ok.
  rewrite removelast_app by done. simpl. by rewrite <- app_assoc.
Qed.

Definition journal : AbsPath := journal_path root doc_id.
Definition journal_tmp : AbsPath := with_extension journal "json.tmp".
Definition staging : AbsPath := staging_dir root doc_id.
Definition document_tmp : AbsPath :=
  removelast document ++ ["." +:+ default "decision-document" (last document) +:+ ".apply-tmp"].
Definition places : list AbsPath := path_join root <$> finals.
Definition dirs : list AbsPath := own_dirs root doc_id.
(** Files whose text does not matter between runs. *)
Definition scratch (q : AbsPath) : Prop :=
  q = journal_tmp ∨ q = document_tmp ∨ (staging `prefix_of` q ∧ q ∉ dirs).

Lemma memory_place id : id_text id = true → id ≠ "" →
  path_join root (memory_path_for_id id) = root ++ ["Knowledge"; "memory"; id +:+ ".md"].
Proof.
  intros Hid Hne. unfold memory_path_for_id.
  change ("Knowledge/memory/" +:+ id +:+ ".md") with (join "/" ["Knowledge"; "memory"; id +:+ ".md"]).
  assert (Hn : plain_name (id +:+ ".md")) by by apply id_text_plain.
  apply path_join_segments; [done|plain_names].
Qed.
Lemma place_shape q : q ∈ places → ∃ name, q = root ++ ["Knowledge"; "memory"; name].
Proof.
  intros (path & -> & Hin)%list_elem_of_fmap. destruct (finals_named path Hin) as (id & Hid & Hne & ->).
  rewrite memory_place by done. by eexists.
Qed.
Lemma dirs_shape q : q ∈ dirs → ∃ n, q = root ++ n ∧
  n ∈ [[".kuku"]; [".kuku"; "knowledge"]; [".kuku"; "knowledge"; "apply-journal"];
       [".kuku"; "knowledge"; "apply-tmp"]; [".kuku"; "knowledge"; "apply-tmp"; doc_id];
       ["Knowledge"]; ["Knowledge"; "memory"]].
Proof. unfold dirs, own_dirs. intros (n & -> & Hn)%list_elem_of_fmap. by exists n. Qed.
Lemma document_tmp_eq : ∃ init name, document = root ++ "Knowledge" :: "decisions" :: init ++ [name] ∧
  document_tmp = root ++ "Knowledge" :: "decisions" :: init ++ ["." +:+ name +:+ ".apply-tmp"].
Proof.
  destruct document_place as (init & name & Heq). exists init, name. split; [done|]. unfold document_tmp.
  assert (Hd : document = (root ++ "Knowledge" :: "decisions" :: init) ++ [name])
    by (rewrite Heq, <- app_assoc; done).
  rewrite Hd, removelast_last, last_snoc. simpl. by rewrite <- app_assoc.
Qed.

(** The places are apart. *)
Lemma dirs_apart q : q ∈ dirs → q ≠ journal ∧ q ≠ document ∧ q ≠ journal_tmp ∧ q ≠ document_tmp ∧ q ∉ places.
Proof.
  intros (n & -> & Hn)%dirs_shape. unfold journal_tmp, journal. rewrite journal_tmp_eq, journal_path_eq.
  destruct document_tmp_eq as (init & name & Hd & ->). rewrite Hd.
  split_and!; try (intros Heq%app_inv_head; subst n; set_unfold; naive_solver).
  intros Hq. apply place_shape in Hq as [m Hq]. apply app_inv_head in Hq. subst n. set_unfold. naive_solver.
Qed.
Lemma staging_file_apart q : staging `prefix_of` q →
  q ≠ journal ∧ q ≠ journal_tmp ∧ q ≠ document ∧ q ≠ document_tmp ∧ q ∉ places.
Proof.
  intros [k ->]. unfold staging, journal_tmp, journal. rewrite staging_dir_eq, journal_tmp_eq, journal_path_eq.
  destruct document_tmp_eq as (init & name & Hd & ->). rewrite Hd, <- app_assoc.
  split_and!; try (intros Heq%app_inv_head; discriminate Heq).
  intros Hq. apply place_shape in Hq as [m Hq]. apply app_inv_head in Hq. discriminate Hq.
Qed.
Lemma journal_apart : (journal ∉ dirs) ∧ journal ≠ journal_tmp ∧ journal ≠ document ∧ journal ≠ document_tmp ∧
  (journal ∉ places) ∧ ¬ scratch journal.
Proof.
  assert (Hd : journal ∉ dirs) by (intros Hq; by apply dirs_apart in Hq as (? & _)).
  assert (Htmp : journal ≠ journal_tmp).
  { unfold journal_tmp, journal. rewrite journal_tmp_eq, journal_path_eq. intros Heq%app_inv_head.
    injection Heq as Heq%str_app_inv_l. discriminate. }
  assert (Hj : journal ≠ document ∧ journal ≠ document_tmp ∧ journal ∉ places).
  { unfold journal. rewrite journal_path_eq. destruct document_tmp_eq as (init & name & Hdoc & ->). rewrite Hdoc.
    split_and!; try (intros Heq%app_inv_head; discriminate Heq).
    intros Hq. apply place_shape in Hq as [m Hq]. apply app_inv_head in Hq. discriminate Hq. }
  destruct Hj as (Hj1 & Hj2 & Hj3). split_and!; [done..|]. intros [Hs|[Hs|[Hs _]]]; [done..|].
  by apply staging_file_apart in Hs as [? _].
Qed.
Lemma document_apart : (document ∉ dirs) ∧ (document ∉ places) ∧ ¬ scratch document ∧ document ≠ journal_tmp ∧
  document ≠ document_tmp.
Proof.
  assert (Hd : document ∉ dirs) by (intros Hq; by apply dirs_apart in Hq as (_ & ? & _)).
  assert (Htmp : document ≠ document_tmp).
  { destruct document_tmp_eq as (init & name & Hdoc & ->). rewrite Hdoc. intros Heq%app_inv_head.
    injection Heq as Heq%app_inv_head. injection Heq as Heq. apply (f_equal String.length) in Heq.
    simpl in Heq. rewrite !str_app_length in Heq. simpl in Heq. lia. }
  assert (Hj : document ≠ journal_tmp ∧ document ∉ places).
  { unfold journal_tmp, journal. rewrite journal_tmp_eq. destruct document_place as (init & name & Hdoc). rewrite Hdoc.
    split; [intros Heq%app_inv_head; discriminate Heq|].
    intros Hq. apply place_shape in Hq as [m Hq]. apply app_inv_head in Hq. discriminate Hq. }
  destruct Hj as [Hj1 Hj2]. split_and!; try done. intros [Hs|[Hs|[Hs _]]]; [done..|].
  by apply staging_file_apart in Hs as (_ & _ & ? & _).
Qed.
Lemma places_apart q : q ∈ places → (q ∉ dirs) ∧ q ≠ journal ∧ q ≠ document ∧ ¬ scratch q.
Proof.
  intros Hq. assert (Hd : q ∉ dirs) by (intros Hd; by apply dirs_apart in Hd as (_ & _ & _ & _ & ?)).
  split; [done|]. split; [by intros ->; destruct journal_apart as (_ & _ & _ & _ & ? & _)|].
  split; [by intros ->; destruct document_apart as (_ & ? & _)|].
  intros [->|[->|[Hs _]]].
  - apply place_shape in Hq as [m Hq]. unfold journal_tmp, journal in Hq. rewrite journal_tmp_eq in Hq.
    apply app_inv_head in Hq. discriminate Hq.
  - apply place_shape in Hq as [m Hq]. destruct document_tmp_eq as (init & name & _ & Htmp). rewrite Htmp in Hq.
    apply app_inv_head in Hq. discriminate Hq.
  - by apply staging_file_apart in Hs as (_ & _ & _ & _ & ?).
Qed.

(** ** Tidy disks *)

(** What may be at a place: directories and files where applications make them, and
    everywhere else what was there at first. *)
Definition fitting (q : AbsPath) (v : option Node) : Prop :=
  if decide (q ∈ dirs) then v = None ∨ v = Some Dir
  else if decide (q = document) then is_file v
  else if decide (q = journal ∨ q ∈ places ∨ q = journal_tmp ∨ q = document_tmp ∨ staging `prefix_of` q)
  then v = None ∨ is_file v
  else v = fs0 !! q.
Definition tidy (fs : Fs) : Prop := ∀ q, fitting q (fs !! q).
(** Only places of [A] changed. *)
Definition changed (A : AbsPath → Prop) (fs fs' : Fs) : Prop :=
  ∀ q, fs' !! q = fs !! q ∨ (A q ∧ fitting q (fs' !! q)).

Lemma changed_refl A fs : changed A fs fs.
Proof. by left. Qed.
Lemma changed_mono (A B : AbsPath → Prop) fs fs' : (∀ q, A q → B q) → changed A fs fs' → changed B fs fs'.
Proof. intros HAB Hc q. destruct (Hc q) as [?|[? ?]]; [by left|right; auto]. Qed.
Lemma changed_trans A fs fs' fs'' : changed A fs fs' → changed A fs' fs'' → changed A fs fs''.
Proof.
  intros H1 H2 q. destruct (H2 q) as [->|?]; [|by right]. destruct (H1 q) as [->|[? ?]]; [by left|by right].
Qed.
Lemma tidy_changed A fs fs' : tidy fs → changed A fs fs' → tidy fs'.
Proof. intros Ht Hc q. destruct (Hc q) as [->|[_ ?]]; [apply Ht|done]. Qed.
Lemma changed_outside A fs fs' q : changed A fs fs' → ¬ A q → fs' !! q = fs !! q.
Proof. intros Hc Hq. by destruct (Hc q) as [?|[? _]]. Qed.

Lemma fitting_dir q v : q ∈ dirs → fitting q v ↔ v = None ∨ v = Some Dir.
Proof. intros Hq. unfold fitting. by rewrite decide_True. Qed.
Lemma fitting_file q v :
  q = journal ∨ q ∈ places ∨ q = journal_tmp ∨ q = document_tmp ∨ (staging `prefix_of` q ∧ q ∉ dirs) →
  fitting q v ↔ v = None ∨ is_file v.
Proof.
  intros Hq. unfold fitting.
  assert (Hd : q ∉ dirs).
  { destruct Hq as [->|[Hq|[->|[->|[_ ?]]]]]; [apply journal_apart|by apply places_apart| | |done];
      intros Hd; apply dirs_apart in Hd; naive_solver. }
  assert (Hdoc : q ≠ document).
  { destruct document_apart as (_ & Hp & Hs & Hjt & Hdt). destruct journal_apart as (_ & _ & Hj & _).
    destruct Hq as [->|[Hq|[->|[->|[Hq _]]]]]; try congruence. intros ->. by apply Hs; right; right. }
  rewrite decide_False, decide_False by done. rewrite decide_True; [done|]. naive_solver.
Qed.
Lemma fitting_document v : fitting document v ↔ is_file v.
Proof. unfold fitting. rewrite decide_False by apply document_apart. by rewrite decide_True. Qed.
Lemma fitting_other q v : q ∉ dirs → q ≠ document → q ≠ journal → q ∉ places → ¬ scratch q →
  fitting q v ↔ v = fs0 !! q.
Proof.
  intros Hd Hdoc Hj Hp Hs. unfold fitting. rewrite !decide_False; [done| |done|done].
  intros [?|[?|[?|[?|?]]]]; [done|done|apply Hs..]; unfold scratch; auto.
Qed.

(** A disk where nothing is in the way. *)
Lemma tidy_first :
  (∀ q, q ∈ dirs → fs0 !! q = None ∨ fs0 !! q = Some Dir) → is_file (fs0 !! document) →
  (∀ q, q = journal ∨ q ∈ places ∨ scratch q → fs0 !! q = None) → tidy fs0.
Proof.
  intros Hdirs Hdoc Hfree q. unfold fitting. destruct (decide (q ∈ dirs)) as [Hd|Hd]; [by apply Hdirs|].
  destruct (decide (q = document)) as [->|Hne]; [done|]. destruct (decide _) as [Hq|Hq]; [|done].
  left. apply Hfree. unfold scratch. naive_solver.
Qed.

(** Directories that are there or can be made. *)
Definition makeable (d : AbsPath) : Prop := ∀ q, q ∈ prefixes d → q ∈ prefixes root ∨ q ∈ dirs.
Lemma root_prefix_other q : q ∈ prefixes root →
  (q ∉ dirs) ∧ q ≠ document ∧ q ≠ journal ∧ (q ∉ places) ∧ ¬ scratch q.
Proof.
  intros Hq. assert (Hlen : length q ≤ length root).
  { apply elem_of_prefixes in Hq as [Hq _]. by apply prefix_length. }
  assert (Hno : ∀ n, n ≠ [] → q ≠ root ++ n).
  { intros n Hn ->. rewrite length_app in Hlen. destruct n; [done|]. simpl in Hlen. lia. }
  unfold journal_tmp, journal. destruct document_tmp_eq as (init & name & Hdoc & Htmp).
  split_and!.
  - intros (n & Heq & Hn)%dirs_shape. apply (Hno n); [|done]. intros ->. set_unfold. naive_solver.
  - rewrite Hdoc. by apply Hno.
  - rewrite journal_path_eq. by apply Hno.
  - intros [m Hm]%place_shape. by apply Hno in Hm.
  - intros [Hs|[Hs|[[k Hs] _]]]; revert Hs.
    + unfold journal_tmp, journal. rewrite journal_tmp_eq. by apply Hno.
    + rewrite Htmp. by apply Hno.
    + unfold staging. rewrite staging_dir_eq, <- app_assoc. by apply Hno.
Qed.
Lemma tidy_makeable fs d q : tidy fs → makeable d → q ∈ prefixes d → fs !! q = None ∨ fs !! q = Some Dir.
Proof.
  intros Ht Hd Hq. destruct (Hd q Hq) as [Hr|Hdir].
  - right. destruct (root_prefix_other q Hr) as (? & ? & ? & ? & ?).
    rewrite (proj1 (fitting_other q _ ltac:(done) ltac:(done) ltac:(done) ltac:(done) ltac:(done)) (Ht q)).
    by apply root_dirs.
  - by apply (proj1 (fitting_dir q _ Hdir)), Ht.
Qed.
Lemma tidy_under_file fs p : tidy fs → makeable (removelast p) → under_file fs p = false.
Proof.
  intros Ht Hp. unfold under_file. apply not_true_is_false. intros Hex.
  apply existsb_exists in Hex as (q & Hin & Hq). apply list_elem_of_In in Hin.
  destruct (tidy_makeable fs _ q Ht Hp Hin) as [Hn|Hn]; by rewrite Hn in Hq.
Qed.
Lemma makeable_journal : makeable (removelast journal).
Proof.
  unfold journal. rewrite journal_path_eq. rewrite removelast_app by done. simpl.
  intros q [Hq|(n & Hn & ->)]%prefixes_app; [by left|right].
  unfold dirs, own_dirs. apply list_elem_of_fmap_2. unfold prefixes in Hn. simpl in Hn. set_unfold. naive_solver.
Qed.
Lemma makeable_staging : makeable staging.
Proof.
  unfold staging. rewrite staging_dir_eq.
  intros q [Hq|(n & Hn & ->)]%prefixes_app; [by left|right].
  unfold dirs, own_dirs. apply list_elem_of_fmap_2. unfold prefixes in Hn. simpl in Hn. set_unfold. naive_solver.
Qed.
Lemma makeable_place q : q ∈ places → makeable (removelast q).
Proof.
  intros [name ->]%place_shape. rewrite removelast_app by done. simpl.
  intros q [Hq|(n & Hn & ->)]%prefixes_app; [by left|right].
  unfold dirs, own_dirs. apply list_elem_of_fmap_2. unfold prefixes in Hn. simpl in Hn. set_unfold. naive_solver.
Qed.

Definition side (q : AbsPath) : Prop := q ∈ dirs ∨ scratch q.
(** What holds wherever a process may stop; it does not depend on scratch files. *)
Class SafePoint (I : Fs → Prop) : Prop := {
  I_tidy fs : I fs → tidy fs;
  I_side fs fs' : I fs → changed side fs fs' → I fs' }.

(** ** Calls on a tidy disk *)

Section steps.
Context `{CryptoLib, Environment, !Unfailing, Chrono, JournalJson}.
Context (I : Fs → Prop) `{!SafePoint I}.

Lemma dirs_made_changed p fs fs' : tidy fs → makeable p → dirs_made p fs fs' → changed (.∈ dirs) fs fs'.
Proof.
  intros Ht Hp Hmade q. destruct (Hmade q) as [?|(Hq & Hnone & Hdir)]; [by left|right].
  destruct (Hp q Hq) as [Hr|Hin].
  - destruct (root_prefix_other q Hr) as (? & ? & ? & ? & ?).
    pose proof (proj1 (fitting_other q _ ltac:(done) ltac:(done) ltac:(done) ltac:(done) ltac:(done)) (Ht q)) as Heq.
    rewrite Hnone, root_dirs in Heq by done. done.
  - split; [done|]. apply fitting_dir; [done|]. by right.
Qed.
Lemma ends_make_dir p fs Q :
  I fs → makeable p →
  (∀ fs', changed (.∈ dirs) fs fs' → (∀ q, q ∈ prefixes p → fs' !! q = Some Dir) → I fs' → Q (Ok tt) fs') →
  ends (disk_create_dir_all p) fs I Q.
Proof.
  intros HI Hp HQ. assert (Ht := I_tidy _ HI).
  assert (Hside : ∀ fs', dirs_made p fs fs' → I fs').
  { intros fs' Hmade. apply (I_side fs); [done|].
    eapply changed_mono; [|by apply (dirs_made_changed p)]. intros q. by left. }
  apply ends_create_dir_all.
  - intros q Hq. by apply (tidy_makeable fs p).
  - exact Hside.
  - intros fs' Hmade Hdirs. apply HQ; [by apply (dirs_made_changed p)|done|by apply Hside].
Qed.
Lemma scratch_fitting q v : scratch q → fitting q v ↔ v = None ∨ is_file v.
Proof. intros Hq. apply fitting_file. unfold scratch in Hq. tauto. Qed.
Lemma insert_scratch fs p c t : scratch p → changed (eq p) fs (<[p := File c t]> fs).
Proof.
  intros Hp q. destruct (decide (p = q)) as [<-|Hne]; [right|left; by rewrite lookup_insert_ne].
  split; [done|]. apply scratch_fitting; [done|]. right. exists c, t. by rewrite lookup_insert_eq.
Qed.
Lemma tidy_scratch fs p : tidy fs → scratch p → fs !! p ≠ Some Dir ∧ ∀ b, fs !! p ≠ Some (Symlink b).
Proof.
  intros Ht Hp. pose proof (proj1 (scratch_fitting p _ Hp) (Ht p)) as [->|(c & t & ->)]; done.
Qed.
Lemma ends_write_scratch p text fs Q :
  I fs → scratch p → is_dir fs (removelast p) = true →
  (∀ fs', changed (eq p) fs fs' → file_at fs' p text → I fs' → Q (Ok tt) fs') →
  ends (disk_write_synced p text) fs I Q.
Proof.
  intros HI Hp Hparent HQ. destruct (tidy_scratch fs p (I_tidy _ HI) Hp) as [Hdir Hlink].
  assert (Hside : ∀ c t, I (<[p := File c t]> fs)).
  { intros c t. apply (I_side fs); [done|]. eapply changed_mono; [|by apply insert_scratch]. intros q <-. by right. }
  apply ends_write_synced; [done..|]. intros t. apply HQ; [by apply insert_scratch|apply file_at_insert_eq|done].
Qed.
Lemma scratch_journal_tmp : scratch journal_tmp.
Proof. by left. Qed.
Lemma scratch_document_tmp : scratch document_tmp.
Proof. by right; left. Qed.

Lemma journal_tmp_parent : removelast journal_tmp = removelast journal.
Proof.
  unfold journal_tmp, journal. rewrite journal_tmp_eq, journal_path_eq. by rewrite !removelast_app.
Qed.
Lemma is_dir_of_prefixes fs d : d ≠ [] → (∀ q, q ∈ prefixes d → fs !! q = Some Dir) → is_dir fs d = true.
Proof.
  intros Hne Hd. unfold is_dir. rewrite (Hd d); [by rewrite orb_true_r|]. by apply elem_of_prefixes.
Qed.
Lemma journal_parent_nonempty : removelast journal ≠ [].
Proof.
  unfold journal. rewrite journal_path_eq, removelast_app by done. simpl. by destruct root.
Qed.
(** Replacing one file by another one of the same kind. *)
Lemma rename_changed fs from to c t :
  scratch from → (to = journal ∨ to = document) → fs !! from = Some (File c t) →
  changed (λ q, q = from ∨ q = to) fs (<[to := File c t]> (delete from fs)).
Proof.
  intros Hfrom Hto Hc q. destruct (decide (to = q)) as [<-|Hne].
  - right. split; [by right|]. rewrite lookup_insert_eq.
    assert (Hf : is_file (Some (File c t))) by by exists c, t.
    destruct Hto as [->| ->]; [apply fitting_file; [by left|by right]|by apply fitting_document].
  - rewrite lookup_insert_ne by done. destruct (decide (from = q)) as [<-|Hne'].
    + right. split; [by left|]. rewrite lookup_delete_eq. apply scratch_fitting; [done|by left].
    + left. by rewrite lookup_delete_ne.
Qed.

Definition journal_area (q : AbsPath) : Prop := q ∈ dirs ∨ q = journal_tmp ∨ q = journal.
Lemma ends_write_journal j b fs Q :
  I fs → journal_to_json j = Ok b →
  (∀ fs', changed journal_area fs fs' → file_at fs' journal b → I fs' ∧ Q (Ok tt) fs') →
  ends (write_journal_atomic journal j) fs I Q.
Proof.
  intros HI Hj HQ. unfold write_journal_atomic. apply ends_bind, ends_map_error.
  apply ends_make_dir; [done|apply makeable_journal|]. intros fs1 Hc1 Hd1 HI1. simpl.
  rewrite Hj. apply ends_bind, ends_pure. simpl. apply ends_bind, ends_map_error.
  fold journal_tmp.
  apply ends_write_scratch; [done|apply scratch_journal_tmp| |].
  { rewrite journal_tmp_parent. apply is_dir_of_prefixes; [apply journal_parent_nonempty|done]. }
  intros fs2 Hc2 [t Ht] HI2. simpl. apply ends_map_error.
  assert (Hdir2 : is_dir fs2 (removelast journal) = true).
  { apply is_dir_of_prefixes; [apply journal_parent_nonempty|]. intros q Hq.
    rewrite <- (Hd1 q Hq). apply (changed_outside _ _ _ _ Hc2). intros <-.
    assert (Hs := scratch_journal_tmp). destruct (tidy_scratch fs1 journal_tmp (I_tidy _ HI1) Hs) as [Hnd _].
    by rewrite (Hd1 _ Hq) in Hnd. }
  assert (Hfin : changed journal_area fs (<[journal := File b t]> (delete journal_tmp fs2))).
  { eapply changed_trans; [eapply changed_mono; [|exact Hc1]; by left|].
    eapply changed_trans; [eapply changed_mono; [|exact Hc2]; intros q <-; by right; left|].
    eapply changed_mono; [|apply (rename_changed fs2 journal_tmp journal b t);
      [apply scratch_journal_tmp|by left|done]].
    intros q [->| ->]; [by right; left|by right; right]. }
  destruct (HQ _ Hfin) as [HIf HQf]; [apply file_at_insert_eq|].
  eapply ends_rename; [exact Ht|done| | |done|done|done].
  - destruct (proj1 (fitting_file journal (fs2 !! journal) ltac:(by left)) (I_tidy _ HI2 journal)) as [->|(? & ? & ->)]; done.
  - intros Heq. by destruct journal_apart as (_ & ? & _).
Qed.

Lemma delete_changed (A : AbsPath → Prop) fs p : A p → fitting p None → changed A fs (delete p fs).
Proof.
  intros Hp Hfit q. destruct (decide (p = q)) as [<-|Hne]; [right|left; by rewrite lookup_delete_ne].
  by rewrite lookup_delete_eq.
Qed.
Lemma fitting_journal_none : fitting journal None.
Proof. apply fitting_file; by left. Qed.
Lemma ends_remove_journal fs Q :
  I fs → is_file (fs !! journal) → I (delete journal fs) → Q (Ok tt) (delete journal fs) →
  ends (remove_journal_file journal) fs I Q.
Proof.
  intros HI (c & t & Hj) HI' HQ. unfold remove_journal_file, unless_missing.
  apply ends_bind, ends_bind, ends_try. eapply ends_remove_file; [exact Hj|done|done|].
  by apply ends_ret, ends_ret.
Qed.
Lemma removed_changed fs fs' : removed_below staging fs fs' → changed (λ q, staging `prefix_of` q) fs fs'.
Proof.
  intros Hr q. destruct (Hr q) as [?|[Hq Hnone]]; [by left|right]. split; [done|]. rewrite Hnone.
  destruct (decide (q ∈ dirs)) as [Hd|Hd]; [apply fitting_dir; [done|by left]|].
  apply fitting_file; [tauto|by left].
Qed.
Lemma staging_side q : staging `prefix_of` q → side q.
Proof. intros Hq. destruct (decide (q ∈ dirs)); [by left|right; by right; right]. Qed.
Lemma staging_dirs : staging ∈ dirs.
Proof.
  unfold staging. rewrite staging_dir_eq. unfold dirs, own_dirs. apply list_elem_of_fmap_2. set_unfold. naive_solver.
Qed.
Lemma makeable_staging_parent : makeable (removelast staging).
Proof.
  intros q Hq. apply makeable_staging. apply elem_of_prefixes in Hq as [Hq Hne]. apply elem_of_prefixes.
  split; [|done]. etransitivity; [exact Hq|]. unfold staging. rewrite staging_dir_eq.
  rewrite removelast_app by done. by apply prefix_app; eexists [_].
Qed.
Lemma ends_cleanup_staging fs Q :
  I fs → (∀ fs', changed (λ q, staging `prefix_of` q) fs fs' → I fs' → Q (Ok tt) fs') →
  ends (cleanup_staging_dir root doc_id) fs I Q.
Proof.
  intros HI HQ. assert (Ht := I_tidy _ HI).
  assert (HIc : ∀ fs', changed (λ q, staging `prefix_of` q) fs fs' → I fs').
  { intros fs' Hc. apply (I_side fs); [done|]. eapply changed_mono; [apply staging_side|done]. }
  unfold cleanup_staging_dir. cbv zeta. fold staging. apply ends_bind, ends_try.
  apply ends_remove_dir_all.
  - apply (fitting_dir staging); [apply staging_dirs|apply Ht].
  - intros fs' Hr. by apply HIc, removed_changed.
  - intros fs' Hr. apply ends_ret, HQ; [by apply removed_changed|by apply HIc, removed_changed].
  - intros Hnone. unfold missing. rewrite (tidy_under_file fs staging Ht makeable_staging_parent).
    apply ends_ret, HQ; [apply changed_refl|done].
Qed.

(** *** Staged and published files *)

Definition staged_place (p : AbsPath) : Prop := removelast p = staging ∧ staging `prefix_of` p ∧ p ∉ dirs.
Lemma staged_scratch p : staged_place p → scratch p.
Proof. intros (_ & ? & ?). by right; right. Qed.
Lemma staging_nonempty : staging ≠ [].
Proof. unfold staging. rewrite staging_dir_eq. by destruct root. Qed.
Lemma look_read_file fs p c : file_at fs p c → look_read fs p = Ok c.
Proof. intros [t Hp]. unfold look_read. by rewrite Hp. Qed.
Lemma ends_stage p text checksum failure fs Q :
  I fs → staged_place p → checksum = sha256_checksum_bytes text →
  (∀ fs', changed (λ q, q ∈ dirs ∨ q = p) fs fs' → file_at fs' p text → I fs' → Q (Ok tt) fs') →
  ends (stage_file p text checksum failure) fs I Q.
Proof.
  intros HI Hp -> HQ. pose proof Hp as (Hparent & _ & _). unfold stage_file. rewrite Hparent.
  apply ends_bind, ends_map_error. apply ends_make_dir; [done|apply makeable_staging|].
  intros fs1 Hc1 Hd1 HI1. simpl. apply ends_bind, ends_map_error.
  apply ends_write_scratch; [done|by apply staged_scratch| |].
  { rewrite Hparent. apply is_dir_of_prefixes; [apply staging_nonempty|done]. }
  intros fs2 Hc2 Hf2 HI2. simpl. apply ends_bind, ends_map_error. apply ends_read; [done|].
  rewrite (look_read_file _ _ _ Hf2). simpl. apply ends_pure. rewrite bool_decide_true by done. apply HQ; [|done..].
  eapply changed_trans; [eapply changed_mono; [|exact Hc1]; by left|].
  eapply changed_mono; [|exact Hc2]. intros q <-. by right.
Qed.
Lemma place_fitting q v : q ∈ places → fitting q v ↔ v = None ∨ is_file v.
Proof. intros Hq. apply fitting_file. tauto. Qed.
Lemma ends_publish_memory (w : PlannedMemoryWrite) fs Q :
  let destination := path_join root (pw_final_path w) in
  I fs → destination ∈ places → staged_place (pw_staged_path w) → file_at fs (pw_staged_path w) (pw_bytes w) →
  fs !! destination = None → pw_checksum w = sha256_checksum_bytes (pw_bytes w) →
  (∀ fs', changed (λ q, q ∈ dirs ∨ q = destination) fs fs' → file_at fs' destination (pw_bytes w) → I fs') →
  (∀ fs', changed (λ q, q ∈ dirs ∨ q = destination ∨ q = pw_staged_path w) fs fs' →
     file_at fs' destination (pw_bytes w) → I fs' → Q (Ok tt) fs') →
  ends (publish_memory_file root w) fs I Q.
Proof.
  intros destination HI Hplace Hstaged Hbytes Hnone Hsum HIlink HQ.
  unfold publish_memory_file. fold destination. cbv zeta.
  destruct (places_apart destination Hplace) as (Hnd & _ & _ & Hns).
  assert (Hne : destination ≠ pw_staged_path w) by (intros Heq; apply Hns; rewrite Heq; by apply staged_scratch).
  apply ends_bind. unfold link_staged. apply ends_bind, ends_map_error.
  apply ends_make_dir; [done|by apply makeable_place|]. intros fs1 Hc1 Hd1 HI1. simpl.
  apply ends_map_error.
  assert (Hbytes1 : file_at fs1 (pw_staged_path w) (pw_bytes w)).
  { eapply file_at_eq; [|exact Hbytes]. apply (changed_outside _ _ _ _ Hc1). by destruct Hstaged as (_ & _ & ?). }
  assert (Hnone1 : fs1 !! destination = None) by by rewrite (changed_outside _ _ _ _ Hc1).
  destruct Hbytes1 as [t Ht].
  set (fs2 := <[destination := File (pw_bytes w) t]> fs1).
  assert (Hc2 : changed (λ q, q ∈ dirs ∨ q = destination) fs fs2).
  { eapply changed_trans; [eapply changed_mono; [|exact Hc1]; by left|]. intros q.
    destruct (decide (destination = q)) as [<-|Hq]; [right|left; unfold fs2; by rewrite lookup_insert_ne].
    split; [by right|]. apply place_fitting; [done|]. right. unfold fs2. rewrite lookup_insert_eq. by eexists _, _. }
  assert (Hf2 : file_at fs2 destination (pw_bytes w)) by apply file_at_insert_eq.
  assert (HI2 : I fs2) by by apply HIlink.
  eapply ends_hard_link; [exact Ht| |done|done|done|].
  { apply is_dir_of_prefixes; [|done]. apply place_shape in Hplace as [name ->].
    rewrite removelast_app by done. by destruct root. }
  simpl. unfold finish_publish. apply ends_bind, ends_map_error, ends_read; [done|].
  fold fs2. rewrite (look_read_file _ _ _ Hf2). simpl. apply ends_bind, ends_pure.
  rewrite <- Hsum, bool_decide_true by done. simpl. apply ends_map_error.
  assert (Hfit : fitting (pw_staged_path w) None) by (apply scratch_fitting; [by apply staged_scratch|by left]).
  assert (Hc3 : changed (eq (pw_staged_path w)) fs2 (delete (pw_staged_path w) fs2)) by by apply delete_changed.
  assert (HI3 : I (delete (pw_staged_path w) fs2)).
  { apply (I_side fs2); [done|]. eapply changed_mono; [|exact Hc3]. intros q <-. right. by apply staged_scratch. }
  eapply ends_remove_file; [|done|done|].
  { unfold fs2. rewrite lookup_insert_ne by done. exact Ht. }
  apply HQ; [| |done].
  - eapply changed_trans; [eapply changed_mono; [|exact Hc2]; naive_solver|].
    eapply changed_mono; [|exact Hc3]. intros q <-. by right; right.
  - eapply file_at_eq; [|exact Hf2]. by rewrite lookup_delete_ne.
Qed.

(** *** The document *)

Lemma document_tmp_parent : removelast document_tmp = removelast document.
Proof. unfold document_tmp. by rewrite removelast_last. Qed.
Lemma document_parent_other : let d := removelast document in
  (d ∉ dirs) ∧ d ≠ document ∧ d ≠ journal ∧ (d ∉ places) ∧ ¬ scratch d.
Proof.
  destruct document_tmp_eq as (init & name & Hdoc & Htmp). cbv zeta.
  assert (Hd : removelast document = root ++ "Knowledge" :: "decisions" :: init).
  { assert (Heq : document = (root ++ "Knowledge" :: "decisions" :: init) ++ [name])
      by (rewrite Hdoc, <- app_assoc; done). by rewrite Heq, removelast_last. }
  assert (Hlong : document ≠ removelast document ∧ document_tmp ≠ removelast document).
  { rewrite Hd, Htmp, Hdoc. split; intros Heq; apply (f_equal length) in Heq;
      rewrite !length_app in Heq; simpl in Heq; rewrite !length_app in Heq; simpl in Heq; lia. }
  destruct Hlong as [Hl1 Hl2]. rewrite Hd in *. split_and!.
  - intros (n & Heq%app_inv_head & Hn)%dirs_shape. subst n. set_unfold. naive_solver.
  - congruence.
  - unfold journal. rewrite journal_path_eq. intros Heq%app_inv_head. discriminate Heq.
  - intros [m Hm]%place_shape. apply app_inv_head in Hm. discriminate Hm.
  - intros [Hs|[Hs|[[k Hs] _]]].
    + unfold journal_tmp, journal in Hs. rewrite journal_tmp_eq in Hs. apply app_inv_head in Hs. discriminate Hs.
    + congruence.
    + unfold staging in Hs. rewrite staging_dir_eq, <- app_assoc in Hs. apply app_inv_head in Hs. discriminate Hs.
Qed.
Lemma document_dir_kept fs : tidy fs → is_dir fs (removelast document) = true.
Proof.
  intros Ht. destruct document_parent_other as (? & ? & ? & ? & ?).
  pose proof (proj1 (fitting_other _ _ ltac:(done) ltac:(done) ltac:(done) ltac:(done) ltac:(done))
    (Ht (removelast document))) as Heq.
  unfold is_dir. by rewrite Heq, document_dir, orb_true_r.
Qed.
Definition document_area (q : AbsPath) : Prop := q = document_tmp ∨ q = document.
Lemma ends_replace_document old text fs Q :
  I fs → file_at fs document old →
  (∀ fs', changed document_area fs fs' → file_at fs' document text → I fs' ∧ Q (Ok tt) fs') →
  ends (guarded_replace_file document (sha256_checksum_bytes old) text) fs I Q.
Proof.
  intros HI Hold HQ. unfold guarded_replace_file. apply ends_bind, ends_map_error, ends_read; [done|].
  rewrite (look_read_file _ _ _ Hold). simpl. apply ends_bind, ends_pure. rewrite bool_decide_true by done. simpl.
  fold document_tmp. apply ends_bind, ends_map_error.
  apply ends_write_scratch; [done|apply scratch_document_tmp| |].
  { rewrite document_tmp_parent. by apply document_dir_kept, I_tidy. }
  intros fs1 Hc1 [t Ht] HI1. simpl. apply ends_bind, ends_try.
  assert (Hc2 : changed document_area fs (<[document := File text t]> (delete document_tmp fs1))).
  { eapply changed_trans; [eapply changed_mono; [|exact Hc1]; intros q <-; by left|].
    apply (rename_changed fs1 document_tmp document text t); [apply scratch_document_tmp|by right|done]. }
  destruct (HQ _ Hc2) as [HI2 HQ2]; [apply file_at_insert_eq|].
  assert (Hdoc : is_file (fs1 !! document)) by by apply fitting_document, I_tidy.
  eapply ends_rename; [exact Ht|by apply document_dir_kept, I_tidy| | |done|done|].
  - destruct Hdoc as (? & ? & Hdoc). by rewrite Hdoc.
  - intros Heq. by destruct document_apart as (_ & _ & _ & _ & ?).
  - apply ends_bind, ends_ret. simpl. apply ends_bind, ends_map_error, ends_read; [done|].
    rewrite (look_read_file _ _ text) by apply file_at_insert_eq. simpl. apply ends_pure.
    by rewrite bool_decide_true.
Qed.
Lemma ends_read_document text fs Q :
  I fs → file_at fs document text → utf8_valid text = true → Q (Ok text) fs →
  ends (read_to_string document) fs I Q.
Proof.
  intros HI Hf Hutf HQ. unfold read_to_string. apply ends_bind, ends_map_error, ends_read; [done|].
  rewrite (look_read_file _ _ _ Hf). simpl. rewrite Hutf. by apply ends_ret.
Qed.

(** *** Looking *)

Lemma look_read_missing fs p : tidy fs → makeable (removelast p) → fs !! p = None → look_read fs p = Err DiskNotFound.
Proof. intros Ht Hp Hn. unfold look_read. rewrite Hn. unfold missing. by rewrite tidy_under_file. Qed.
Lemma ends_read_no_journal fs Q :
  I fs → fs !! journal = None → Q (Ok None) fs → ends (read_journal journal) fs I Q.
Proof.
  intros HI Hn HQ. unfold read_journal, unless_missing. apply ends_bind, ends_bind, ends_try, ends_read; [done|].
  rewrite look_read_missing; [by apply ends_ret, ends_ret|by apply I_tidy|apply makeable_journal|done].
Qed.
Lemma ends_read_journal j b fs Q :
  I fs → file_at fs journal b → journal_from_json b = Ok j → Q (Ok (Some j)) fs →
  ends (read_journal journal) fs I Q.
Proof.
  intros HI Hf Hj HQ. unfold read_journal, unless_missing. apply ends_bind, ends_bind, ends_try, ends_read; [done|].
  rewrite (look_read_file _ _ _ Hf). apply ends_ret. simpl. rewrite Hj. simpl. by apply ends_bind, ends_pure, ends_ret.
Qed.

Context `{NfcLaws}.
Lemma final_path_accepted path field : path ∈ finals → validate_safe_vault_relative_path path field = Ok path.
Proof.
  intros Hp. destruct (finals_named path Hp) as (id & Hid & Hne & ->). unfold memory_path_for_id.
  change ("Knowledge/memory/" +:+ id +:+ ".md") with (join "/" ["Knowledge"; "memory"; id +:+ ".md"]).
  assert (Hn : simple_name (id +:+ ".md")).
  { split; [by apply id_text_plain|]. split.
    - rewrite str_forallb_app. apply andb_true_iff. split; [|done]. eapply str_forallb_impl; [|exact Hid].
      intros a Ha. unfold simple_char. apply orb_true_iff in Ha as [Ha|Ha]; rewrite Ha; by rewrite ?orb_true_r.
    - unfold is_reserved_filename. apply bool_decide_eq_false. intros Hin.
      assert (Hend : ∀ s, to_ascii_uppercase (s +:+ ".md") = to_ascii_uppercase s +:+ ".MD").
      { clear. induction s as [|a s IH]; [done|]. rewrite str_app_cons. simpl. by rewrite IH. }
      rewrite Hend in Hin. revert Hin. generalize (to_ascii_uppercase id). intros u Hin.
      assert (Hrev : String.rev (u +:+ ".MD") ∈ String.rev <$> ["."; ".."; ".DS_STORE"; "CON"; "PRN"; "AUX"; "NUL"; "COM1"; "LPT1"])
        by by apply list_elem_of_fmap_2.
      rewrite str_rev_app in Hrev. set_unfold. naive_solver. }
  assert (Hk : simple_name "Knowledge" ∧ simple_name "memory") by (split; (split; [by split_and!|done])).
  destruct Hk. apply simple_path_accepted; [done|]. by repeat apply Forall_cons_2; try apply Forall_nil_2.
Qed.
Lemma ends_path_state path checksum fs Q :
  I fs → path ∈ finals →
  (fs !! path_join root path = None → Q (Ok PathMissing) fs) →
  (∀ c, file_at fs (path_join root path) c →
     Q (Ok (if bool_decide (sha256_checksum_bytes c = checksum) then ChecksumMatch else ChecksumMismatch)) fs) →
  ends (journal_path_state root path checksum) fs I Q.
Proof.
  intros HI Hp HQ1 HQ2. unfold journal_path_state. rewrite final_path_accepted by done.
  apply ends_bind, ends_pure. simpl. unfold unless_missing. apply ends_bind, ends_bind, ends_try, ends_read; [done|].
  assert (Hplace : path_join root path ∈ places) by by apply list_elem_of_fmap_2.
  destruct (proj1 (place_fitting _ _ Hplace) (I_tidy _ HI _)) as [Hn|(c & t & Hc)].
  - rewrite look_read_missing; [|by apply I_tidy|by apply makeable_place|done]. apply ends_ret, ends_ret. by apply HQ1.
  - rewrite (look_read_file _ _ c) by by exists t. apply ends_ret. simpl. apply ends_ret. apply HQ2. by exists t.
Qed.
End steps.
End layout.
