(* ===== verification/ApplyRecovery.v ===== *)
(** * Applications are all or nothing, whatever stops them

    The phases of an application of a memory document, on the disk: untouched,
    staged, finalized, document saved, complete. Each is a safe point for every call
    of the application, and from each the next application goes on to the end. *)
From Stdlib Require Import Ascii String.
#[local] Set Warnings "-clear-no-such-hyp".
From S2P Require Import Prelude Text Paths SyncDb Scanner Disk Crypto Knowledge DecisionDocument.
From S2P Require Import KnowledgeApply ApplyPlan ApplySafety.

Section recovery.
Context `{Scene, CryptoLib, Chrono, JournalJson, YamlMapping, NfcLaws}.
Context `{!JournalJsonLaws}.
Context `{!YamlRead MemoryProposalBlock, !YamlRead WikiProposalBlock, !YamlRead DecisionBlock,
          !YamlRead FrontmatterKnown, !YamlRead Mapping}.
Context `{!YamlWrite MemoryProposalBlock, !YamlWrite WikiProposalBlock, !YamlWrite DecisionBlock,
          !YamlWrite Mapping}.
Context `{!YamlWrite MemoryFrontmatter, !YamlRead MemoryFrontmatter,
          !YamlWrite WikiFrontmatter, !YamlRead WikiFrontmatter}.

(** ** The job *)

Variables (relative : string) (request : ApplyDecisionDocumentRequest) (markdown : string)
  (doc : ParsedDecisionDocument) (outcomes : list ZeroWriteOutcome) (integrity : DecisionDocumentIntegrity).

Definition known_of (d : ParsedDecisionDocument) : FrontmatterKnown := fm_known (doc_frontmatter d).
Definition decisions_in (d : ParsedDecisionDocument) : list DecisionBlock := snd <$> decisions_of (doc_blocks d).
Definition status_after : string := apply_status_str (document_status_for_outcomes outcomes).
(** What an application at a time writes: the files, and the document. *)
Definition writes_at (at_ : string) (ws : list PlannedMemoryWrite) : Prop :=
  plan_memory_writes root doc outcomes relative at_ = Ok ws.
Definition saved_at (at_ text : string) : Prop :=
  render_decision_document (apply_decision_updates doc outcomes status_after at_) = Ok text.
(** The saved document is a document again, with the same identifier and the
    decisions as they were resolved. *)
Definition reads_back (at_ text : string) : Prop :=
  utf8_valid text = true ∧ ∃ d, parse_decision_document text = Ok d ∧ fk_id (known_of d) = doc_id ∧
    fk_status (known_of d) = status_after ∧
    decisions_in d = resolve_decision outcomes at_ <$> decisions_in doc.

(** A pending memory document, as the request names it, with at least one accepted
    proposal; the files it plans are free, whatever the case of their names. *)
Record Job : Prop := {
  jb_doc_id : fk_id (known_of doc) = doc_id;
  jb_finals : in_yes_memory_paths integrity = finals;
  jb_some : finals ≠ [];
  jb_parsed : parse_decision_document markdown = Ok doc;
  jb_utf8 : utf8_valid markdown = true;
  jb_kind : fk_target_kind (known_of doc) = "memory";
  jb_pending : fk_status (known_of doc) = "pending";
  jb_validated : validate_decision_document_integrity doc (Some (λ _, false)) = Ok integrity;
  jb_outcomes : collect_decision_outcomes doc = Ok outcomes;
  jb_checksum : rq_expected_checksum request = sha256_checksum_bytes markdown;
  jb_recover : rq_recover request = true;
  jb_json j : ∃ b, journal_to_json j = Ok b;
  jb_planned t : ∃ ws, writes_at (format_utc_timestamp t) ws;
  jb_saved t : ∃ text, saved_at (format_utc_timestamp t) text ∧ reads_back (format_utc_timestamp t) text;
  jb_free name path : is_Some (fs0 !! (root ++ ["Knowledge"; "memory"; name])) → path ∈ finals →
    eq_ignore_ascii_case name (default "" (last (path_join root path))) = false }.
Hypothesis job : Job.

Definition place (w : PlannedMemoryWrite) : AbsPath := path_join root (pw_final_path w).
Lemma integrity_memory : validate_memory_decision_document_integrity doc (Some (λ _, false)) = Ok integrity.
Proof.
  pose proof (jb_validated job) as Hv. unfold validate_decision_document_integrity in Hv.
  apply bind_Ok_inv in Hv as (u & _ & Hv). pose proof (jb_kind job) as Hkind. unfold known_of in Hkind.
  by rewrite Hkind in Hv.
Qed.
Lemma writes_finals at_ ws : writes_at at_ ws →
  pw_final_path <$> ws = finals ∧ NoDup (pw_final_path <$> ws) ∧ Forall (planned_for root doc_id) ws.
Proof.
  intros Hw. rewrite <- (jb_doc_id job), <- (jb_finals job).
  destruct (plan_memory_writes_Ok _ _ _ _ _ _ _ _ (jb_kind job) integrity_memory (jb_outcomes job) Hw) as [Hp Hf].
  destruct (memory_outcomes _ _ _ _ (jb_kind job) integrity_memory (jb_outcomes job)) as (_ & Hnd & _).
  by rewrite Hp.
Qed.
Lemma write_place at_ ws w : writes_at at_ ws → w ∈ ws → pw_final_path w ∈ finals ∧ place w ∈ places.
Proof.
  intros Hw Hin. destruct (writes_finals _ _ Hw) as [Hf _].
  assert (pw_final_path w ∈ finals) by (rewrite <- Hf; by apply list_elem_of_fmap_2).
  split; [done|]. by apply (list_elem_of_fmap_2 (path_join root)).
Qed.
Lemma place_write at_ ws q : writes_at at_ ws → q ∈ places → ∃ w, w ∈ ws ∧ q = place w.
Proof.
  intros Hw (path & -> & Hin)%list_elem_of_fmap. destruct (writes_finals _ _ Hw) as [Hf _].
  rewrite <- Hf in Hin. apply list_elem_of_fmap in Hin as (w & -> & Hin). by exists w.
Qed.

(** ** The phases *)

Definition plan_at (at_ : string) (ws : list PlannedMemoryWrite) : JournalPlan :=
  aj_plan (new_journal doc_id (fk_proposal_id (known_of doc)) relative (sha256_checksum_bytes markdown) ws
             outcomes at_).
Record describes (at_ : string) (ws : list PlannedMemoryWrite) (j : ApplyJournal) : Prop := {
  ds_plan : aj_plan j = plan_at at_ ws;
  ds_sums w : w ∈ ws → aj_memory_checksums j !! pw_final_path w = Some (pw_checksum w) }.
Definition published (ws : list PlannedMemoryWrite) (fs : Fs) : Prop :=
  ∀ w, w ∈ ws → file_at fs (place w) (pw_bytes w).
Definition journal_is (j : ApplyJournal) (fs : Fs) : Prop :=
  ∃ b, journal_to_json j = Ok b ∧ file_at fs journal b.
Definition is_time (at_ : string) : Prop := ∃ t, at_ = format_utc_timestamp t.

Inductive Phase (fs : Fs) : Prop :=
| Untouched :
    fs !! journal = None → file_at fs document markdown → (∀ q, q ∈ places → fs !! q = None) → Phase fs
| Staged at_ ws j :
    is_time at_ → writes_at at_ ws → describes at_ ws j → journal_is j fs → aj_state j = JournalStaged →
    file_at fs document markdown →
    (∀ path, path ∈ aj_created_paths j ∨ aj_inflight_publish_path j = Some path → path ∈ finals) →
    (∀ w, w ∈ ws → fs !! place w = None ∨
       ((pw_final_path w ∈ aj_created_paths j ∨ aj_inflight_publish_path j = Some (pw_final_path w)) ∧
        file_at fs (place w) (pw_bytes w))) → Phase fs
| Finalized at_ ws j :
    is_time at_ → writes_at at_ ws → describes at_ ws j → journal_is j fs → aj_state j = JournalFinalized →
    aj_finalized_memory_paths j = finals → aj_finalized_wiki_paths j = [] → published ws fs →
    (file_at fs document markdown ∨ ∃ text, saved_at at_ text ∧ file_at fs document text) → Phase fs
| Saved at_ ws j text :
    is_time at_ → writes_at at_ ws → describes at_ ws j → journal_is j fs → aj_state j = JournalDocumentSaved →
    published ws fs → saved_at at_ text → file_at fs document text → Phase fs
| Complete at_ ws text :
    is_time at_ → fs !! journal = None → writes_at at_ ws → published ws fs → saved_at at_ text →
    file_at fs document text → Phase fs.

Lemma published_eq ws at_ fs fs' : writes_at at_ ws → (∀ q, q ∈ places → fs' !! q = fs !! q) →
  published ws fs → published ws fs'.
Proof.
  intros Hw Heq Hp w Hin. eapply file_at_eq; [|by apply Hp]. apply Heq. by eapply write_place.
Qed.
Lemma journal_is_eq j fs fs' : fs' !! journal = fs !! journal → journal_is j fs → journal_is j fs'.
Proof. intros Heq (b & Hb & Hf). exists b. split; [done|]. by eapply file_at_eq. Qed.
Lemma Phase_eq fs fs' :
  fs' !! journal = fs !! journal → fs' !! document = fs !! document →
  (∀ q, q ∈ places → fs' !! q = fs !! q) → Phase fs → Phase fs'.
Proof.
  intros Hj Hd Hp. intros [Hn Hdoc Hfree|at_ ws j Ht Hw Hds Hji Hst Hdoc Hin Hpl|at_ ws j Ht Hw Hds Hji Hst Hm Hk Hpub Hdoc
    |at_ ws j text Ht Hw Hds Hji Hst Hpub Hs Hdoc|at_ ws text Ht Hn Hw Hpub Hs Hdoc].
  - apply Untouched; [by rewrite Hj|by eapply file_at_eq|]. intros q Hq. rewrite Hp by done. by apply Hfree.
  - eapply (Staged fs' at_ ws j); try done; [by eapply journal_is_eq|by eapply file_at_eq|].
    intros w Hwin. destruct (write_place _ _ _ Hw Hwin) as [_ Hplace]. rewrite (Hp _ Hplace).
    destruct (Hpl w Hwin) as [?|[? Hf]]; [by left|right]. split; [done|]. eapply file_at_eq; [|exact Hf]. by apply Hp.
  - eapply (Finalized fs' at_ ws j); try done; [by eapply journal_is_eq|by eapply published_eq|].
    destruct Hdoc as [Hdoc|(text & Hs & Hdoc)]; [left|right; exists text; split; [done|]]; by eapply file_at_eq.
  - eapply (Saved fs' at_ ws j text); try done; [by eapply journal_is_eq|by eapply published_eq|by eapply file_at_eq].
  - eapply (Complete fs' at_ ws text); try done; [by rewrite Hj|by eapply published_eq|by eapply file_at_eq].
Qed.

(** Where a process may stop. *)
Definition Safe (fs : Fs) : Prop := tidy fs ∧ Phase fs.
(** Where an application starts. *)
Definition untouched (fs : Fs) : Prop :=
  tidy fs ∧ fs !! journal = None ∧ file_at fs document markdown ∧ ∀ q, q ∈ places → fs !! q = None.
Lemma untouched_safe fs : untouched fs → Safe fs.
Proof. intros (Ht & Hj & Hd & Hf). split; [done|]. by apply Untouched. Qed.
(** Where an application ends. *)
Definition completed (fs : Fs) : Prop :=
  tidy fs ∧ fs !! journal = None ∧
  ∃ at_ ws text, is_time at_ ∧ writes_at at_ ws ∧ published ws fs ∧ saved_at at_ text ∧ file_at fs document text.
Lemma completed_safe fs : completed fs → Safe fs.
Proof. intros (Ht & Hj & at_ & ws & text & ? & ? & ? & ? & ?). split; [done|]. by eapply Complete. Qed.
Lemma side_apart q : side q → q ≠ journal ∧ q ≠ document ∧ (q ∉ places).
Proof.
  intros [Hq|Hq]; [apply dirs_apart in Hq; tauto|].
  split_and!; [intros ->; by apply journal_apart in Hq|intros ->; by apply document_apart in Hq|].
  intros Hp. by apply places_apart in Hp as (_ & _ & _ & ?).
Qed.
#[export] Instance Safe_safe : SafePoint Safe.
Proof.
  split; [by intros fs [? _]|]. intros fs fs' [Ht Hp] Hc. split; [by eapply tidy_changed|].
  eapply Phase_eq; [..|exact Hp]; intros; apply (changed_outside side); try done; intros Hq; apply side_apart in Hq; tauto.
Qed.

(** ** Journals of the job *)

Lemma describes_new at_ ws : writes_at at_ ws →
  describes at_ ws (new_journal doc_id (fk_proposal_id (known_of doc)) relative (sha256_checksum_bytes markdown) ws
                      outcomes at_).
Proof.
  intros Hw. split; [done|]. intros w Hin. simpl. destruct (writes_finals _ _ Hw) as (_ & Hnd & _).
  apply lookup_insert_all; [by rewrite <- list_fmap_compose|].
  by apply (list_elem_of_fmap_2 (λ p, (pw_final_path p, pw_checksum p))).
Qed.
(** Changes of the other fields. *)
Lemma describes_same at_ ws j j' :
  aj_plan j' = aj_plan j → aj_memory_checksums j' = aj_memory_checksums j → describes at_ ws j → describes at_ ws j'.
Proof. intros Hp Hm [Hplan Hsums]. split; [by rewrite Hp|]. by rewrite Hm. Qed.
Lemma describes_published at_ ws j w t : writes_at at_ ws → w ∈ ws → describes at_ ws j →
  describes at_ ws (published_memory j (pw_final_path w) (pw_checksum w) t).
Proof.
  intros Hw Hin [Hplan Hsums]. split; [done|]. intros w' Hin'. simpl.
  destruct (decide (pw_final_path w = pw_final_path w')) as [Heq|Hne].
  - rewrite Heq, lookup_insert_eq. rewrite <- (Hsums w' Hin'), <- Heq. symmetry. by apply Hsums.
  - rewrite lookup_insert_ne by done. by apply Hsums.
Qed.
Lemma describes_checksum at_ ws j w : describes at_ ws j → w ∈ ws →
  checksum_for_path j (pw_final_path w) = Some (pw_checksum w).
Proof. intros Hds Hin. unfold checksum_for_path. by rewrite (ds_sums _ _ _ Hds w Hin). Qed.
Lemma describes_planned at_ ws j w : describes at_ ws j → w ∈ ws → path_is_planned j (pw_final_path w) = true.
Proof.
  intros Hds Hin. unfold path_is_planned. rewrite (ds_plan _ _ _ Hds). simpl.
  rewrite bool_decide_true; [done|]. by apply list_elem_of_fmap_2.
Qed.
Lemma describes_no_updates at_ ws j path : describes at_ ws j → is_wiki_update_path j path = false.
Proof.
  intros Hds. unfold is_wiki_update_path. rewrite (ds_plan _ _ _ Hds). simpl.
  rewrite bool_decide_false; [done|]. rewrite lookup_empty. by intros [? ?].
Qed.
Lemma describes_doc_id at_ ws j : describes at_ ws j → jp_doc_id (aj_plan j) = doc_id.
Proof. intros Hds. by rewrite (ds_plan _ _ _ Hds). Qed.

Lemma write_staged at_ ws w : writes_at at_ ws → w ∈ ws →
  staged_place (pw_staged_path w) ∧ pw_staged_path w = staging ++ [pw_memory_id w +:+ ".md"] ∧
  pw_final_path w = memory_path_for_id (pw_memory_id w) ∧ pw_checksum w = sha256_checksum_bytes (pw_bytes w).
Proof.
  intros Hw Hin. destruct (writes_finals _ _ Hw) as (_ & _ & Hall).
  apply (proj1 (Forall_forall _ _) Hall) in Hin as (Hid & Hfinal & Hstaged & Hsum).
  destruct (valid_id_text _ Hid) as [Htext Hne].
  assert (Heq : pw_staged_path w = staging ++ [pw_memory_id w +:+ ".md"]).
  { rewrite Hstaged. fold staging. by apply path_join_name, id_text_plain. }
  split; [|done]. rewrite Heq. split_and!.
  - by rewrite removelast_last.
  - by apply prefix_app_r.
  - unfold staging. rewrite staging_dir_eq, <- app_assoc. intros (n & Heqn & Hn)%dirs_shape.
    apply app_inv_head in Heqn. subst n. set_unfold. naive_solver.
Qed.
Lemma staged_distinct at_ ws w w' : writes_at at_ ws → w ∈ ws → w' ∈ ws →
  pw_staged_path w = pw_staged_path w' → w = w'.
Proof.
  intros Hw Hin Hin' Heq. destruct (writes_finals _ _ Hw) as (_ & Hnd & _).
  destruct (write_staged _ _ _ Hw Hin) as (_ & Hs & Hf & _), (write_staged _ _ _ Hw Hin') as (_ & Hs' & Hf' & _).
  rewrite Hs, Hs' in Heq. apply app_inv_head in Heq. injection Heq as Heq. apply str_app_inv_r in Heq.
  eapply (NoDup_key_inj pw_final_path); [exact Hnd|done|done|]. by rewrite Hf, Hf', Heq.
Qed.

(** ** One application *)

Section runs.
Context `{Environment, !Unfailing}.
Implicit Types (fs : Fs) (C : Fs → Prop) (ws : list PlannedMemoryWrite).

Lemma ends_timestamp fs C (Q : Result ApplyServiceError string → Fs → Prop) :
  (∀ at_, is_time at_ → Q (Ok at_) fs) → ends timestamp fs C Q.
Proof. intros HQ. apply ends_bind, ends_now. intros t. apply ends_ret, HQ. by exists t. Qed.

(** *** Nothing is in the way *)

Lemma ends_free_name fs path Q :
  Safe fs → (∀ q, q ∈ places → fs !! q = None) → path ∈ finals → Q (Ok false) fs →
  ends (exact_or_case_insensitive_exists (path_join root path)) fs Safe Q.
Proof.
  intros Hsafe Hfree Hp HQ. assert (Ht : tidy fs) by apply Hsafe.
  assert (Hplace : path_join root path ∈ places) by by apply list_elem_of_fmap_2.
  pose proof (λ name Hn, jb_free job name path Hn Hp) as Hcase.
  destruct (place_shape _ Hplace) as [name Hshape].
  unfold exact_or_case_insensitive_exists. apply ends_bind, ends_map_error, ends_observe; [done|].
  rewrite (Hfree _ Hplace), tidy_under_file by (done || by apply makeable_place). simpl.
  rewrite Hshape in *. rewrite last_app_cons in *. simpl in *.
  rewrite removelast_app by done. simpl. apply ends_bind. unfold unless_missing. apply ends_bind, ends_try.
  apply ends_observe; [done|]. destruct (is_dir fs _) eqn:Hdir.
  - apply ends_ret, ends_ret.
    assert (Hnone : existsb (λ candidate, eq_ignore_ascii_case candidate name)
                      (fst <$> read_dir fs (root ++ ["Knowledge"; "memory"])) = false); [|by rewrite Hnone].
    apply not_true_is_false. intros Hex. apply existsb_exists in Hex as (c & Hin & Heq).
    apply list_elem_of_In, list_elem_of_fmap in Hin as ([c' node] & -> & Hin%elem_of_read_dir). simpl in Heq.
    rewrite Hcase in Heq; [done|]. rewrite <- app_assoc in Hin. simpl in Hin.
    pose proof (Ht (root ++ ["Knowledge"; "memory"; c'])) as Hfit. rewrite Hin in Hfit.
    destruct (decide (root ++ ["Knowledge"; "memory"; c'] ∈ places)) as [Hpl|Hpl]; [by rewrite Hfree in Hin|].
    rewrite fitting_other in Hfit; [by rewrite <- Hfit|..].
    + intros (n & Hn%app_inv_head & Hnin)%dirs_shape. subst n. set_unfold. naive_solver.
    + destruct document_place as (init & nm & ->). intros Hn%app_inv_head. discriminate Hn.
    + unfold journal. rewrite journal_path_eq. intros Hn%app_inv_head. discriminate Hn.
    + done.
    + unfold scratch, journal_tmp, journal, staging. rewrite journal_tmp_eq, staging_dir_eq.
      destruct document_tmp_eq as (init & nm & _ & ->).
      intros [Hn|[Hn|[[k Hn] _]]]; rewrite <- ?app_assoc in Hn; apply app_inv_head in Hn; discriminate Hn.
  - assert (Hd : fs !! (root ++ ["Knowledge"; "memory"]) = None).
    { destruct (proj1 (fitting_dir (root ++ ["Knowledge"; "memory"]) _
        ltac:(unfold dirs, own_dirs; apply list_elem_of_fmap_2; set_solver)) (Ht _)) as [?|Hd]; [done|].
      unfold is_dir in Hdir. by rewrite Hd, orb_true_r in Hdir. }
    rewrite Hd. unfold missing. rewrite tidy_under_file; [by apply ends_ret, ends_ret|done|].
    rewrite removelast_app by done. intros q Hq. apply (makeable_place _ Hplace).
    rewrite removelast_app by done. apply elem_of_prefixes in Hq as [Hq Hne]. apply elem_of_prefixes.
    split; [|done]. etransitivity; [exact Hq|]. apply prefix_app. by exists ["memory"].
Qed.
Lemma ends_preflight at_ ws fs Q :
  writes_at at_ ws → Safe fs → (∀ q, q ∈ places → fs !! q = None) → Q (Ok tt) fs →
  ends (preflight_memory_paths root ws) fs Safe Q.
Proof.
  intros Hw Hsafe Hfree HQ. destruct (writes_finals _ _ Hw) as (_ & Hnd & _).
  eapply ends_seq; [|intros l fs' Hl; apply ends_ret; revert Hl; instantiate (1 := λ _ fs', fs' = fs); by intros ->].
  eapply (ends_mono _ _ Safe); [|done|].
  - apply (ends_fold (λ done_ paths fs', fs' = fs ∧ paths = pw_final_path <$> done_)); [|done].
    intros done_ x rest paths fs' Hl [-> ->]. unfold preflight_step.
    apply ends_bind, ends_pure. rewrite bool_decide_false; simpl.
    2:{ rewrite Hl, fmap_app in Hnd. apply NoDup_app in Hnd as (_ & Hnd & _). intros Hin. apply (Hnd _ Hin).
        rewrite fmap_cons. by left. }
    assert (Hx : x ∈ ws) by (rewrite Hl; set_solver). destruct (write_place _ _ _ Hw Hx) as [Hfin _].
    apply ends_bind, ends_free_name; [done..|]. apply ends_bind, ends_pure. simpl. apply ends_ret.
    eexists. split; [done|]. split; [done|]. by rewrite fmap_app.
  - intros r fs' (l & -> & -> & _). by exists l.
Qed.

(** *** Files appear one by one *)

Section writing.
Variables (at_ : string) (ws : list PlannedMemoryWrite).
Hypotheses (Hnow : is_time at_) (Hw : writes_at at_ ws).
Implicit Types (j : ApplyJournal) (past rest : list PlannedMemoryWrite) (w x : PlannedMemoryWrite) (path : string).

(** Where the writes [past] are published and the journal is written accordingly. *)
Record progress past (inflight : option string) j fs : Prop := {
  pg_tidy : tidy fs;
  pg_describes : describes at_ ws j;
  pg_journal : journal_is j fs;
  pg_state : aj_state j = JournalStaged;
  pg_created : aj_created_paths j = pw_final_path <$> past;
  pg_inflight : aj_inflight_publish_path j = inflight;
  pg_wiki : aj_finalized_wiki_paths j = [];
  pg_document : file_at fs document markdown;
  pg_done w : w ∈ past → file_at fs (place w) (pw_bytes w) }.
(** The others wait in the staging directory. *)
Definition waiting rest fs : Prop :=
  ∀ w, w ∈ rest → fs !! place w = None ∧ file_at fs (pw_staged_path w) (pw_bytes w).

Lemma progress_safe past rest inflight j fs :
  progress past inflight j fs → (∀ path, inflight = Some path → path ∈ finals) → ws = past ++ rest →
  (∀ w, w ∈ rest → fs !! place w = None ∨ (inflight = Some (pw_final_path w) ∧ file_at fs (place w) (pw_bytes w))) →
  Safe fs.
Proof.
  intros Hp Hin Hws Hrest. split; [apply Hp|].
  eapply (Staged fs at_ ws j); try by destruct Hp.
  - intros path. rewrite (pg_created _ _ _ _ Hp), (pg_inflight _ _ _ _ Hp). intros [Hpath|Hpath]; [|by apply Hin].
    apply list_elem_of_fmap in Hpath as (w & -> & Hwin). eapply write_place; [exact Hw|]. rewrite Hws. set_solver.
  - intros w Hwin. rewrite Hws in Hwin. rewrite (pg_created _ _ _ _ Hp), (pg_inflight _ _ _ _ Hp).
    apply elem_of_app in Hwin as [Hwin|Hwin]; [right|].
    + split; [left; by apply list_elem_of_fmap_2|by apply (pg_done _ _ _ _ Hp)].
    + destruct (Hrest w Hwin) as [?|[? ?]]; [by left|right]. split; [by right|done].
Qed.
Lemma progress_safe_waiting past rest inflight j fs :
  progress past inflight j fs → (∀ path, inflight = Some path → path ∈ finals) → ws = past ++ rest →
  waiting rest fs → Safe fs.
Proof. intros Hp Hin Hws Hrest. eapply progress_safe; [done..|]. intros w Hwin. left. by apply Hrest. Qed.
Lemma progress_changed (A : AbsPath → Prop) past inflight j fs fs' :
  progress past inflight j fs → changed A fs fs' → ¬ A journal → ¬ A document →
  (∀ w, w ∈ past → ¬ A (place w)) → progress past inflight j fs'.
Proof.
  intros Hp Hc Hj Hd Hpl. split; try by destruct Hp.
  - eapply tidy_changed; [apply Hp|done].
  - eapply journal_is_eq; [|by destruct Hp]. by apply (changed_outside A).
  - eapply file_at_eq; [|by destruct Hp]. by apply (changed_outside A).
  - intros w Hwin. eapply file_at_eq; [|by apply (pg_done _ _ _ _ Hp)]. apply (changed_outside A); [done|by apply Hpl].
Qed.
Lemma waiting_changed (A : AbsPath → Prop) rest fs fs' :
  waiting rest fs → changed A fs fs' → (∀ w, w ∈ rest → ¬ A (place w) ∧ ¬ A (pw_staged_path w)) → waiting rest fs'.
Proof.
  intros Hr Hc HA w Hwin. destruct (Hr w Hwin) as [Hn Hf], (HA w Hwin) as [HA1 HA2].
  rewrite (changed_outside A _ _ _ Hc HA1). split; [done|]. eapply file_at_eq; [|exact Hf]. by apply (changed_outside A).
Qed.
(** Another journal. *)
Lemma journal_area_apart q : journal_area q → q ≠ document ∧ (q ∉ places) ∧ ∀ w, w ∈ ws → q ≠ pw_staged_path w.
Proof.
  intros Hq. split_and!.
  - intros ->. destruct document_apart as (? & _ & Hs & ? & _), journal_apart as (_ & _ & ? & _).
    by destruct Hq as [?|[?|?]].
  - intros Hp. destruct (places_apart _ Hp) as (? & ? & _ & Hs).
    destruct Hq as [?|[->|?]]; [done| |done]. by apply Hs; left.
  - intros w Hwin ->. destruct (write_staged _ _ _ Hw Hwin) as ((_ & Hpre & Hnd) & _).
    destruct (staging_file_apart _ Hpre) as (? & ? & _). by destruct Hq as [?|[?|?]].
Qed.
Lemma progress_journal past past' inflight inflight' j j' fs fs' b :
  progress past inflight j fs → changed journal_area fs fs' → file_at fs' journal b → journal_to_json j' = Ok b →
  describes at_ ws j' → aj_state j' = JournalStaged → aj_created_paths j' = pw_final_path <$> past' →
  aj_inflight_publish_path j' = inflight' → aj_finalized_wiki_paths j' = [] →
  (∀ w, w ∈ past' → w ∈ ws ∧ file_at fs (place w) (pw_bytes w)) → progress past' inflight' j' fs'.
Proof.
  intros Hp Hc Hf Hb Hds Hst Hcr Hin Hwi Hdone. split; try done.
  - eapply tidy_changed; [apply Hp|done].
  - by exists b.
  - eapply file_at_eq; [|by apply Hp]. apply (changed_outside _ _ _ _ Hc). intros Ha.
    by apply journal_area_apart in Ha as [? _].
  - intros w Hwin. destruct (Hdone w Hwin) as [Hwws Hfw]. eapply file_at_eq; [|exact Hfw].
    apply (changed_outside _ _ _ _ Hc). intros (_ & Ha & _)%journal_area_apart. apply Ha. by eapply write_place.
Qed.
Lemma waiting_journal rest fs fs' :
  waiting rest fs → changed journal_area fs fs' → (∀ w, w ∈ rest → w ∈ ws) → waiting rest fs'.
Proof.
  intros Hr Hc Hsub. eapply waiting_changed; [done..|]. intros w Hwin. apply Hsub in Hwin.
  split; intros (_ & Ha & Hs)%journal_area_apart; [apply Ha; by eapply write_place|by eapply Hs].
Qed.

Lemma ends_stage_step w past j fs Q :
  w ∈ ws → progress past None j fs → Safe fs →
  (∀ fs', changed (λ q, q ∈ dirs ∨ q = pw_staged_path w) fs fs' → file_at fs' (pw_staged_path w) (pw_bytes w) →
     Safe fs' → Q (Ok tt) fs') →
  ends (stage_or_abandon root journal doc_id (stage_memory_file w)) fs Safe Q.
Proof.
  intros Hin Hp Hsafe HQ. destruct (write_staged _ _ _ Hw Hin) as (Hst & _ & _ & Hsum).
  unfold stage_or_abandon. apply ends_bind, ends_try. apply (ends_stage Safe); [done..|].
  intros fs' Hc Hf Hs. apply ends_ret. by apply HQ.
Qed.
Lemma staged_side w q : w ∈ ws → q ∈ dirs ∨ q = pw_staged_path w → side q.
Proof.
  intros Hin [?| ->]; [by left|right]. destruct (write_staged _ _ _ Hw Hin) as (Hst & _). by apply staged_scratch.
Qed.
Lemma ends_stage_all j fs Q :
  progress [] None j fs → (∀ w, w ∈ ws → fs !! place w = None) →
  (∀ fs', progress [] None j fs' → waiting ws fs' → Q (Ok tt) fs') →
  ends (process_fold (λ _ planned, stage_or_abandon root journal doc_id (stage_memory_file planned)) tt ws)
    fs Safe Q.
Proof.
  intros Hp Hfree HQ.
  apply (ends_mono _ _ Safe Safe (λ r fs, ∃ u : unit, r = Ok u ∧ progress [] None j fs ∧
           (∀ w, w ∈ ws → fs !! place w = None) ∧ ∀ w, w ∈ ws → file_at fs (pw_staged_path w) (pw_bytes w)));
    [|done|intros r fs' ([] & -> & Hp' & Hn & Hf); apply HQ; [done|]; intros w Hin; split; auto].
  apply (ends_fold (λ past (_ : unit) fs, progress [] None j fs ∧ (∀ w, w ∈ ws → fs !! place w = None) ∧
           ∀ w, w ∈ past → file_at fs (pw_staged_path w) (pw_bytes w))).
  2:{ split_and!; [done..|]. intros w Hw0. by apply elem_of_nil in Hw0. }
  intros past x rest [] fs1 Hl (Hp1 & Hn1 & Hf1).
  assert (Hx : x ∈ ws) by (rewrite Hl; set_solver).
  assert (Hsafe : Safe fs1).
  { eapply (progress_safe [] ws); [done|done|done|]. intros w Hin. left. by apply Hn1. }
  eapply ends_stage_step; [done..|]. intros fs2 Hc2 Hf2 _. exists tt. split; [done|].
  assert (Hside : changed side fs1 fs2) by (eapply changed_mono; [|exact Hc2]; intros q; by apply staged_side).
  assert (Hpl : ∀ w, w ∈ ws → ¬ side (place w)).
  { intros w Hin Hs. apply side_apart in Hs as (_ & _ & Hs). apply Hs. by eapply write_place. }
  split_and!.
  - eapply progress_changed; [done..| | |].
    + intros Hs. by apply side_apart in Hs as (? & _).
    + intros Hs. by apply side_apart in Hs as (_ & ? & _).
    + intros w Hin. by apply elem_of_nil in Hin.
  - intros w Hin. rewrite (changed_outside side fs1) by (done || by apply Hpl). by apply Hn1.
  - intros w Hin. apply elem_of_app in Hin as [Hin|Hin%list_elem_of_singleton]; [|by subst w].
    assert (Hwin : w ∈ ws) by (rewrite Hl; set_solver).
    destruct (decide (pw_staged_path w = pw_staged_path x)) as [Heq|Hne].
    { by rewrite (staged_distinct _ _ _ _ Hw Hwin Hx Heq). }
    eapply file_at_eq; [|by apply Hf1]. apply (changed_outside _ _ _ _ Hc2). intros [Hd|Hs].
    + destruct (write_staged _ _ _ Hw Hwin) as ((_ & _ & ?) & _). done.
    + done.
Qed.

Lemma ends_announce past x rest j fs Q :
  ws = past ++ x :: rest → progress past None j fs → waiting (x :: rest) fs →
  (∀ j' fs', progress past (Some (pw_final_path x)) j' fs' → waiting (x :: rest) fs' → Q (Ok j') fs') →
  ends (announce journal j (pw_final_path x)) fs Safe Q.
Proof.
  intros Hl Hp Hwait HQ. unfold announce. apply ends_bind, ends_timestamp. intros t Ht.
  set (j' := set_progress j (Some (pw_final_path x)) t). destruct (jb_json job j') as [b Hb].
  assert (Hsafe : Safe fs) by by eapply progress_safe_waiting.
  assert (Hx : x ∈ ws) by (rewrite Hl; set_solver).
  assert (Hnext : ∀ fs', changed journal_area fs fs' → file_at fs' journal b →
            progress past (Some (pw_final_path x)) j' fs' ∧ waiting (x :: rest) fs').
  { intros fs' Hc Hf. split.
    - eapply progress_journal; try done; try by destruct Hp.
      + eapply describes_same; [| |apply Hp]; done.
      + intros w Hin. split; [rewrite Hl; set_solver|by eapply pg_done].
    - eapply waiting_journal; [done..|]. intros w. rewrite Hl. set_solver. }
  apply ends_bind. eapply (ends_write_journal Safe); [done..|]. intros fs' Hc Hf.
  destruct (Hnext fs' Hc Hf) as [Hp' Hwait']. split; [|by apply ends_ret, HQ].
  eapply progress_safe_waiting; [done| |done..]. intros path [= <-]. by eapply write_place.
Qed.
(** The places publishing a write touches, apart from those of the others. *)
Definition publish_area (x : PlannedMemoryWrite) (q : AbsPath) : Prop :=
  q ∈ dirs ∨ q = place x ∨ q = pw_staged_path x.
Lemma place_memory w : w ∈ ws → place w = root ++ ["Knowledge"; "memory"; pw_memory_id w +:+ ".md"].
Proof.
  intros Hin. destruct (write_staged _ _ _ Hw Hin) as (_ & _ & Hf & _).
  destruct (writes_finals _ _ Hw) as (_ & _ & Hall).
  pose proof (proj1 (Forall_forall _ _) Hall w Hin) as (Hid & _). destruct (valid_id_text _ Hid).
  unfold place. by rewrite Hf, memory_place.
Qed.
Lemma place_inj w w' : w ∈ ws → w' ∈ ws → place w = place w' → w = w'.
Proof.
  intros Hin Hin'. rewrite !place_memory by done. intros Heq%app_inv_head. injection Heq as Heq.
  apply (staged_distinct at_ ws); [done..|].
  destruct (write_staged _ _ _ Hw Hin) as (_ & Hs & _), (write_staged _ _ _ Hw Hin') as (_ & Hs' & _).
  by rewrite Hs, Hs', Heq.
Qed.
Lemma others past x rest w : ws = past ++ x :: rest → w ∈ past ++ rest → w ∈ ws ∧ w ≠ x.
Proof.
  intros Hl Hin. split; [rewrite Hl; set_solver|]. intros ->.
  destruct (writes_finals _ _ Hw) as (_ & Hnd & _). apply NoDup_fmap_1 in Hnd. rewrite Hl in Hnd.
  apply NoDup_app in Hnd as (_ & Hnd & Hnd'). apply NoDup_cons in Hnd' as [Hnd' _].
  apply elem_of_app in Hin as [Hin|Hin]; [|done]. apply (Hnd x Hin). by left.
Qed.
Lemma publish_area_fixed x : x ∈ ws → ¬ publish_area x journal ∧ ¬ publish_area x document.
Proof.
  intros Hx. destruct (write_place _ _ _ Hw Hx) as [_ Hplace]. destruct (places_apart _ Hplace) as (_ & ? & ? & _).
  destruct (write_staged _ _ _ Hw Hx) as ((_ & Hpre & _) & _).
  destruct (staging_file_apart _ Hpre) as (? & _ & ? & _).
  destruct journal_apart as (? & _), document_apart as (? & _).
  split; intros [?|[?|?]]; congruence.
Qed.
Lemma publish_area_others x w :
  x ∈ ws → w ∈ ws → w ≠ x → ¬ publish_area x (place w) ∧ ¬ publish_area x (pw_staged_path w).
Proof.
  intros Hx Hin Hne.
  destruct (write_place _ _ _ Hw Hx) as [_ Hplacex], (write_place _ _ _ Hw Hin) as [_ Hplace].
  destruct (places_apart _ Hplacex) as (_ & _ & _ & Hnsx), (places_apart _ Hplace) as (? & _ & _ & Hns).
  destruct (write_staged _ _ _ Hw Hx) as (Hstx & _), (write_staged _ _ _ Hw Hin) as (Hst & _).
  split; intros [Hd|[Heq|Heq]]; [done|by apply Hne, place_inj| | |..].
  - apply Hns. rewrite Heq. by apply staged_scratch.
  - by destruct Hst as (_ & _ & ?).
  - apply Hnsx. rewrite <- Heq. by apply staged_scratch.
  - by apply Hne, (staged_distinct at_ ws).
Qed.
Lemma publish_keeps past x rest inflight j fs fs' :
  ws = past ++ x :: rest → progress past inflight j fs → waiting (x :: rest) fs → changed (publish_area x) fs fs' →
  progress past inflight j fs' ∧ waiting rest fs'.
Proof.
  intros Hl Hp Hwait Hc. assert (Hx : x ∈ ws) by (rewrite Hl; set_solver).
  destruct (publish_area_fixed x Hx) as [Hj Hd]. split.
  - eapply progress_changed; [done..|]. intros w Hin.
    destruct (others past x rest w Hl ltac:(set_solver)). by apply publish_area_others.
  - eapply waiting_changed; [|exact Hc|].
    + intros w Hin. apply Hwait. by right.
    + intros w Hin. destruct (others past x rest w Hl ltac:(set_solver)). by apply publish_area_others.
Qed.
Lemma ends_publish past x rest j fs Q :
  ws = past ++ x :: rest → progress past (Some (pw_final_path x)) j fs → waiting (x :: rest) fs →
  (∀ fs', progress past (Some (pw_final_path x)) j fs' → waiting rest fs' →
     file_at fs' (place x) (pw_bytes x) → Q (Ok tt) fs') →
  ends (publish_memory_file root x) fs Safe Q.
Proof.
  intros Hl Hp Hwait HQ. assert (Hx : x ∈ ws) by (rewrite Hl; set_solver).
  destruct (write_place _ _ _ Hw Hx) as [Hfin Hplace]. destruct (write_staged _ _ _ Hw Hx) as (Hst & _ & _ & Hsum).
  destruct (Hwait x ltac:(by left)) as [Hn Hf].
  assert (Hin : ∀ path, Some (pw_final_path x) = Some path → path ∈ finals) by by intros path [= <-].
  eapply (ends_publish_memory Safe); [by eapply progress_safe_waiting|done..| |].
  - intros fs' Hc Hf'. destruct (publish_keeps past x rest _ _ _ fs' Hl Hp Hwait) as [Hp' Hwait'].
    { eapply changed_mono; [|exact Hc]. unfold publish_area. naive_solver. }
    eapply (progress_safe past (x :: rest)); [done..|].
    intros w [->|Hin']%elem_of_cons; [by right|left; by apply Hwait'].
  - intros fs' Hc Hf' _. destruct (publish_keeps past x rest _ _ _ fs' Hl Hp Hwait Hc). by apply HQ.
Qed.
Lemma ends_publish_step past x rest j fs Q :
  ws = past ++ x :: rest → progress past None j fs → waiting (x :: rest) fs →
  (∀ j' fs', progress (past ++ [x]) None j' fs' → waiting rest fs' → Q (Ok j') fs') →
  ends (publish_memory_step root journal doc_id j x) fs Safe Q.
Proof.
  intros Hl Hp Hwait HQ. assert (Hx : x ∈ ws) by (rewrite Hl; set_solver).
  unfold publish_memory_step. apply ends_bind. eapply ends_announce; [done..|]. intros j1 fs1 Hp1 Hwait1. cbv beta.
  apply ends_bind, ends_try. eapply ends_publish; [done..|]. intros fs2 Hp2 Hwait2 Hf2.
  apply ends_bind, ends_timestamp. intros t Ht. cbv beta iota.
  set (j2 := published_memory j1 (pw_final_path x) (pw_checksum x) t). destruct (jb_json job j2) as [b Hb].
  apply ends_bind, ends_try. eapply (ends_write_journal Safe); [|done|].
  { eapply (progress_safe past (x :: rest)); [done| |done|].
    - intros path [= <-]. by eapply write_place.
    - intros w [->|Hin']%elem_of_cons; [by right|left; by apply Hwait2]. }
  intros fs3 Hc3 Hf3.
  assert (Hp3 : progress (past ++ [x]) None j2 fs3).
  { eapply progress_journal; try done; try by destruct Hp2.
    - apply describes_published; [done..|apply Hp2].
    - simpl. by rewrite (pg_created _ _ _ _ Hp2), fmap_app.
    - intros w [Hin|Hin%list_elem_of_singleton]%elem_of_app; [|subst w; by split].
      split; [rewrite Hl; set_solver|by eapply pg_done]. }
  assert (Hwait3 : waiting rest fs3).
  { eapply waiting_journal; [done..|]. intros w. rewrite Hl. set_solver. }
  split; [|by apply ends_ret, HQ].
  eapply progress_safe_waiting; [done|done| |done]. by rewrite Hl, <- app_assoc.
Qed.
Lemma ends_publish_all j fs Q :
  progress [] None j fs → waiting ws fs → (∀ j' fs', progress ws None j' fs' → Q (Ok j') fs') →
  ends (process_fold (publish_memory_step root journal doc_id) j ws) fs Safe Q.
Proof.
  intros Hp Hwait HQ.
  apply (ends_mono _ _ Safe Safe (λ r fs, ∃ j, r = Ok j ∧ progress ws None j fs ∧ ∀ rest, ws = ws ++ rest → waiting rest fs));
    [|done|intros r fs' (j' & -> & Hp' & _); by apply HQ].
  apply (ends_fold (λ past j fs, progress past None j fs ∧ ∀ rest, ws = past ++ rest → waiting rest fs)).
  - intros past x rest j1 fs1 Hl [Hp1 Hwait1]. eapply ends_publish_step; [exact Hl|done|by apply Hwait1|].
    intros j2 fs2 Hp2 Hwait2. exists j2. split; [done|]. split; [done|]. intros rest' Hl'.
    rewrite Hl, <- app_assoc in Hl'. apply app_inv_head in Hl'. injection Hl' as <-. done.
  - split; [done|]. intros rest Hr. simpl in Hr. by rewrite <- Hr.
Qed.

(** *** The document is saved *)

(** Where every file is there, and the document. *)
Record settled (text : string) fs : Prop := {
  st_tidy : tidy fs;
  st_published : published ws fs;
  st_saved : saved_at at_ text;
  st_document : file_at fs document text }.
Lemma settled_changed (A : AbsPath → Prop) text fs fs' :
  settled text fs → changed A fs fs' → ¬ A document → (∀ q, A q → q ∉ places) → settled text fs'.
Proof.
  intros Hs Hc Hd Hp. split.
  - eapply tidy_changed; [apply Hs|done].
  - eapply published_eq; [exact Hw| |apply Hs]. intros q Hq. apply (changed_outside A); [done|]. intros Ha. by apply (Hp q).
  - apply Hs.
  - eapply file_at_eq; [|apply Hs]. by apply (changed_outside A).
Qed.
Lemma settled_completed text fs : settled text fs → fs !! journal = None → completed fs.
Proof. intros Hs Hj. split; [apply Hs|]. split; [done|]. exists at_, ws, text. by split_and!; try apply Hs. Qed.
Lemma ends_remove_settled j text fs Q :
  settled text fs → Safe fs → journal_is j fs →
  (settled text (delete journal fs) → completed (delete journal fs) → Q (Ok tt) (delete journal fs)) →
  ends (remove_journal_file journal) fs Safe Q.
Proof.
  intros Hs Hsafe (b & _ & Hf) HQ.
  assert (Hs' : settled text (delete journal fs)).
  { eapply (settled_changed (eq journal)); [done|apply delete_changed; [done|apply fitting_journal_none]| |].
    - apply journal_apart.
    - intros q <-. apply journal_apart. }
  assert (Hc : completed (delete journal fs)) by (eapply settled_completed; [done|by rewrite lookup_delete_eq]).
  apply (ends_remove_journal Safe); [done|by eapply file_at_is_file|by apply completed_safe|by apply HQ].
Qed.
Lemma ends_finish_saved j text saved cleanup
    (result : list string → option bool → option string → ApplyDecisionDocumentResult) fs Q :
  Safe fs → settled text fs → describes at_ ws j →
  (∀ fs', completed fs' → Q (Ok (result [] None None)) fs') →
  ends (finish_saved root journal j saved cleanup result) fs Safe Q.
Proof.
  intros Hsafe Hs Hds HQ. unfold finish_saved. apply ends_bind, ends_timestamp. intros t Ht. cbv beta iota zeta.
  set (j' := set_journal_state j JournalDocumentSaved (aj_error j) t). destruct (jb_json job j') as [b Hb].
  assert (Hds' : describes at_ ws j') by by apply (describes_same _ _ j).
  apply ends_bind, ends_try. eapply (ends_write_journal Safe); [done..|]. intros fs1 Hc1 Hf1.
  assert (Hs1 : settled text fs1).
  { eapply settled_changed; [done..| |].
    - by intros (? & _)%journal_area_apart.
    - by intros q (_ & ? & _)%journal_area_apart. }
  assert (Hsafe1 : Safe fs1).
  { split; [apply Hs1|]. eapply (Saved fs1 at_ ws j'); try apply Hs1; try done. by exists b. }
  split; [done|]. apply ends_bind, ends_try.
  apply (ends_remove_settled j' text); [done..|by exists b|]. intros Hs2 Hcomp2.
  apply ends_bind, ends_try. rewrite (describes_doc_id _ _ _ Hds').
  apply (ends_cleanup_staging Safe); [by apply completed_safe|]. intros fs3 Hc3 _. apply ends_ret, HQ.
  eapply settled_completed.
  - eapply settled_changed; [exact Hs2|exact Hc3| |].
    + by intros (_ & _ & ? & _)%staging_file_apart.
    + by intros q (_ & _ & _ & _ & ?)%staging_file_apart.
  - rewrite (changed_outside _ _ _ _ Hc3); [by rewrite lookup_delete_eq|]. by intros (? & _)%staging_file_apart.
Qed.

Lemma ends_replace_finalized j text fs Q :
  tidy fs → file_at fs document markdown → published ws fs → saved_at at_ text →
  describes at_ ws j → journal_is j fs → aj_state j = JournalFinalized →
  aj_finalized_memory_paths j = finals → aj_finalized_wiki_paths j = [] →
  (∀ fs', Safe fs' → settled text fs' → Q (Ok tt) fs') →
  ends (guarded_replace_file document (sha256_checksum_bytes markdown) text) fs Safe Q.
Proof.
  intros Ht Hdoc Hpub Hsaved Hds Hj Hst Hmem Hwiki HQ.
  assert (Hsafe : Safe fs) by (split; [done|]; eapply Finalized; eauto).
  eapply (ends_replace_document Safe); [done..|]. intros fs' Hc Hf.
  assert (Hapart : ∀ q, document_area q → q ≠ journal ∧ q ∉ places).
  { destruct journal_apart as (_ & _ & ? & ? & _), document_apart as (_ & ? & _).
    intros q [->| ->]; split; try congruence. intros Hp. apply places_apart in Hp as (_ & _ & _ & Hns).
    apply Hns, scratch_document_tmp. }
  assert (Hpub' : published ws fs').
  { eapply published_eq; [exact Hw| |done]. intros q Hq. apply (changed_outside _ _ _ _ Hc). intros Ha.
    by apply Hapart in Ha as [_ ?]. }
  assert (Ht' : tidy fs') by by eapply tidy_changed.
  assert (Hj' : journal_is j fs').
  { eapply journal_is_eq; [|done]. apply (changed_outside _ _ _ _ Hc). intros Ha. by apply Hapart in Ha as [? _]. }
  assert (Hsafe' : Safe fs').
  { split; [done|]. eapply (Finalized fs' at_ ws j); try done. right. by exists text. }
  split; [done|]. by apply HQ.
Qed.

(** The result of an application that writes. *)
Definition commits (recovered : bool) (r : Result ApplyServiceError ApplyDecisionDocumentResult) : Prop :=
  ∃ result, r = Ok result ∧ ar_committed_memory_paths result = finals ∧ ar_committed_wiki_paths result = [] ∧
    ar_status result = document_status_for_outcomes outcomes ∧ ar_recovered_from_journal result = recovered ∧
    ar_warnings result = [] ∧ ar_journal_cleanup_required result = None.

Lemma ends_finalized j fs Q :
  tidy fs → file_at fs document markdown → published ws fs →
  describes at_ ws j → journal_is j fs → aj_state j = JournalFinalized →
  aj_finalized_memory_paths j = finals → aj_finalized_wiki_paths j = [] →
  (∀ r fs', commits false r → completed fs' → Q r fs') →
  ends (save_document root document relative (sha256_checksum_bytes markdown) doc outcomes
          (document_status_for_outcomes outcomes) at_ journal j
          "Decision document save failed after memory finalization" (pw_final_path <$> ws) []) fs Safe Q.
Proof.
  intros Ht Hdoc Hpub Hds Hj Hst Hmem Hwiki HQ. destruct Hnow as [t Heq].
  destruct (jb_saved job t) as (text & Hsaved & _). rewrite <- Heq in Hsaved.
  pose proof Hsaved as Hrender. unfold saved_at, status_after in Hrender.
  unfold save_document. rewrite Hrender. apply ends_bind, ends_pure. cbn [map_err].
  apply ends_bind, ends_try. eapply ends_replace_finalized; [done..|]. intros fs1 Hsafe1 Hs1.
  eapply ends_finish_saved; [done..|]. intros fs2 Hc2. apply HQ; [|done].
  eexists. split; [done|]. simpl. destruct (writes_finals _ _ Hw) as [Hf _]. by rewrite Hf.
Qed.
Lemma ends_memory_writes fs Q :
  Safe fs → fs !! journal = None → file_at fs document markdown → (∀ q, q ∈ places → fs !! q = None) →
  (∀ r fs', commits false r → completed fs' → Q r fs') →
  ends (apply_with_memory_writes root document relative (sha256_checksum_bytes markdown) doc outcomes
          (document_status_for_outcomes outcomes) at_) fs Safe Q.
Proof.
  intros Hsafe Hnone Hdoc Hfree HQ. unfold apply_with_memory_writes. cbv zeta.
  rewrite Hw. apply ends_bind, ends_pure. simpl. apply ends_bind.
  eapply ends_preflight; [done..|]. pose proof (jb_doc_id job) as Hid. unfold known_of in Hid. rewrite Hid.
  fold journal. fold (known_of doc).
  set (j0 := new_journal doc_id (fk_proposal_id (known_of doc)) relative (sha256_checksum_bytes markdown) ws outcomes at_).
  destruct (jb_json job j0) as [b0 Hb0]. apply ends_bind.
  assert (Hplaces : ∀ w, w ∈ ws → place w ∈ places) by (intros w Hin; by eapply write_place).
  eapply (ends_write_journal Safe); [done..|]. intros fs1 Hc1 Hf1.
  assert (Hp1 : progress [] None j0 fs1).
  { split; try done; [by eapply tidy_changed; [apply Hsafe|]|by apply describes_new|by exists b0| |].
    - eapply file_at_eq; [|exact Hdoc]. apply (changed_outside _ _ _ _ Hc1). by intros (? & _)%journal_area_apart.
    - intros w Hin. by apply elem_of_nil in Hin. }
  assert (Hfree1 : ∀ w, w ∈ ws → fs1 !! place w = None).
  { intros w Hin. rewrite (changed_outside _ _ _ _ Hc1); [by apply Hfree, Hplaces|].
    intros (_ & Ha & _)%journal_area_apart. by apply Ha, Hplaces. }
  split; [eapply (progress_safe [] ws); [done|done|done|]; intros w Hin; left; by apply Hfree1|].
  apply ends_bind. eapply ends_stage_all; [done..|]. intros fs2 Hp2 Hwait2. cbv beta iota.
  apply ends_bind. eapply ends_publish_all; [done..|]. intros j3 fs3 Hp3. cbv beta iota.
  apply ends_bind, ends_timestamp. intros t Ht. cbv beta iota zeta.
  set (j4 := finalized j3 (aj_created_paths j3) (aj_finalized_wiki_paths j3) t).
  destruct (jb_json job j4) as [b4 Hb4]. apply ends_bind, ends_try.
  assert (Hds4 : describes at_ ws j4) by (apply (describes_same _ _ j3); [done..|apply Hp3]).
  assert (Hmem4 : aj_finalized_memory_paths j4 = finals).
  { simpl. rewrite (pg_created _ _ _ _ Hp3). by destruct (writes_finals _ _ Hw). }
  assert (Hwiki4 : aj_finalized_wiki_paths j4 = []) by apply Hp3.
  eapply (ends_write_journal Safe); [|done|].
  { eapply (progress_safe ws []); [done|done|by rewrite app_nil_r|]. intros w Hin. by apply elem_of_nil in Hin. }
  intros fs4 Hc4 Hf4. assert (Hj4 : journal_is j4 fs4) by by exists b4.
  assert (Ht4 : tidy fs4) by (eapply tidy_changed; [apply Hp3|done]).
  assert (Hdoc4 : file_at fs4 document markdown).
  { eapply file_at_eq; [|apply Hp3]. apply (changed_outside _ _ _ _ Hc4). by intros (? & _)%journal_area_apart. }
  assert (Hpub4 : published ws fs4).
  { intros w Hin. eapply file_at_eq; [|by eapply pg_done]. apply (changed_outside _ _ _ _ Hc4).
    intros (_ & Ha & _)%journal_area_apart. by apply Ha, Hplaces. }
  split; [split; [done|]; eapply (Finalized fs4 at_ ws j4); try done; by left|].
  by eapply ends_finalized.
Qed.

(** *** Files disappear again *)

Record staged j fs : Prop := {
  sg_tidy : tidy fs;
  sg_describes : describes at_ ws j;
  sg_journal : journal_is j fs;
  sg_state : aj_state j = JournalStaged;
  sg_document : file_at fs document markdown;
  sg_paths path : path ∈ aj_created_paths j ∨ aj_inflight_publish_path j = Some path → path ∈ finals;
  sg_places w : w ∈ ws → fs !! place w = None ∨
     ((pw_final_path w ∈ aj_created_paths j ∨ aj_inflight_publish_path j = Some (pw_final_path w)) ∧
      file_at fs (place w) (pw_bytes w)) }.
Definition vacant fs : Prop := ∀ w, w ∈ ws → fs !! place w = None.
Lemma staged_safe j fs : staged j fs → Safe fs.
Proof. intros []. split; [done|]. by eapply Staged. Qed.
Lemma staged_changed (A : AbsPath → Prop) j fs fs' :
  staged j fs → changed A fs fs' → ¬ A journal → ¬ A document →
  (∀ w, w ∈ ws → A (place w) → fs' !! place w = None) → staged j fs'.
Proof.
  intros Hs Hc Hj Hd Hpl. split; try by destruct Hs.
  - eapply tidy_changed; [apply Hs|done].
  - eapply journal_is_eq; [|by destruct Hs]. by apply (changed_outside A).
  - eapply file_at_eq; [|by destruct Hs]. by apply (changed_outside A).
  - intros w Hin. destruct (Hc (place w)) as [Heq|[Ha _]]; [|left; by apply Hpl].
    destruct (sg_places _ _ Hs w Hin) as [Hn|[Hl Hf]]; [left; by rewrite Heq|right].
    split; [done|]. by eapply file_at_eq.
Qed.
Lemma path_write path : path ∈ finals → ∃ w, w ∈ ws ∧ path = pw_final_path w.
Proof.
  intros Hin. destruct (writes_finals _ _ Hw) as [Hf _]. rewrite <- Hf in Hin.
  apply list_elem_of_fmap in Hin as (w & -> & Hin). by exists w.
Qed.
Lemma vacant_places fs : vacant fs → ∀ q, q ∈ places → fs !! q = None.
Proof. intros Hv q Hq. destruct (place_write _ _ _ Hw Hq) as (w & Hin & ->). by apply Hv. Qed.

Lemma ends_cleanup_staged j fs Q :
  staged j fs → vacant fs → (∀ fs', staged j fs' → vacant fs' → Q (Ok tt) fs') →
  ends (cleanup_staging_dir root doc_id) fs Safe Q.
Proof.
  intros Hs Hv HQ. apply (ends_cleanup_staging Safe); [by eapply staged_safe|]. intros fs' Hc _.
  assert (Hpl : ∀ w, w ∈ ws → ¬ staging `prefix_of` place w).
  { intros w Hin (_ & _ & _ & _ & Hn)%staging_file_apart. apply Hn. by eapply write_place. }
  apply HQ.
  - eapply staged_changed; [done..| | |].
    + by intros (? & _)%staging_file_apart.
    + by intros (_ & _ & ? & _)%staging_file_apart.
    + intros w Hin Ha. by destruct (Hpl w Hin).
  - intros w Hin. rewrite (changed_outside _ _ _ _ Hc (Hpl w Hin)). by apply Hv.
Qed.
Lemma ends_remove_staged j fs Q :
  staged j fs → vacant fs → (∀ fs', untouched fs' → Q (Ok tt) fs') →
  ends (remove_journal_file journal) fs Safe Q.
Proof.
  intros Hs Hv HQ. destruct (sg_journal _ _ Hs) as (b & _ & Hf).
  assert (Hc : changed (eq journal) fs (delete journal fs)) by (apply delete_changed; [done|apply fitting_journal_none]).
  assert (Hu : untouched (delete journal fs)).
  { split; [eapply tidy_changed; [apply Hs|done]|]. split; [by rewrite lookup_delete_eq|]. split.
    - eapply file_at_eq; [|apply Hs]. apply (changed_outside _ _ _ _ Hc). apply journal_apart.
    - intros q Hq. rewrite (changed_outside _ _ _ _ Hc); [by apply vacant_places|].
      intros <-. by destruct journal_apart as (_ & _ & _ & _ & ? & _). }
  apply (ends_remove_journal Safe); [by eapply staged_safe|by eapply file_at_is_file|by apply untouched_safe|by apply HQ].
Qed.

(** The state of a published file, as its checksum tells. *)
Lemma ends_published_state j w fs (Q : Result ApplyServiceError JournalPathState → Fs → Prop) :
  staged j fs → w ∈ ws → (fs !! place w = None → Q (Ok PathMissing) fs) →
  (is_file (fs !! place w) → Q (Ok ChecksumMatch) fs) →
  ends (journal_path_state root (pw_final_path w) (pw_checksum w)) fs Safe Q.
Proof.
  intros Hs Hin HQ1 HQ2. destruct (write_place _ _ _ Hw Hin) as [Hfin _].
  destruct (write_staged _ _ _ Hw Hin) as (_ & _ & _ & Hsum).
  apply (ends_path_state Safe); [by eapply staged_safe|done|done|]. intros c Hf.
  destruct (sg_places _ _ Hs w Hin) as [Hn|[_ Hf']].
  { destruct Hf as [t Hf]. unfold place in Hn. congruence. }
  rewrite (file_at_inj _ _ _ _ Hf Hf'), <- Hsum, bool_decide_true by done. apply HQ2. by eapply file_at_is_file.
Qed.
Lemma ends_rollback_candidate j path fs Q :
  staged j fs → path ∈ finals →
  (∀ fs', staged j fs' → (∀ w, w ∈ ws → fs' !! place w = fs !! place w ∨ fs' !! place w = None) →
     fs' !! path_join root path = None → Q (Ok tt) fs') →
  ends (rollback_candidate root journal j tt path) fs Safe Q.
Proof.
  intros Hs Hin HQ. destruct (path_write path Hin) as (w & Hwin & ->).
  unfold rollback_candidate. rewrite (describes_planned at_ ws), (describes_checksum at_ ws) by (done || apply Hs).
  simpl. apply ends_bind, (ends_published_state j); [done..| |].
  { intros Hn. apply ends_ret. apply HQ; [done| |done]. by left. }
  intros (c & t & Hf). apply ends_bind, ends_try.
  assert (Hplace : place w ∈ places) by by eapply write_place.
  destruct (places_apart _ Hplace) as (_ & Hnj & Hnd & _).
  assert (Hc : changed (eq (place w)) fs (delete (place w) fs)).
  { apply delete_changed; [done|]. apply place_fitting; [done|by left]. }
  assert (Hs' : staged j (delete (place w) fs)).
  { eapply staged_changed; [done..|]. intros w' _ <-. by rewrite lookup_delete_eq. }
  eapply (ends_remove_file _ c t); [done|by eapply staged_safe|by eapply staged_safe|].
  apply ends_ret, HQ; [done| |by rewrite lookup_delete_eq].
  intros w' _. destruct (decide (place w = place w')) as [<-|Hne].
  - right. by rewrite lookup_delete_eq.
  - left. by rewrite lookup_delete_ne.
Qed.
Lemma ends_rollback_all j paths fs Q :
  staged j fs → (∀ path, path ∈ paths → path ∈ finals) →
  (∀ w, w ∈ ws → pw_final_path w ∉ paths → fs !! place w = None) →
  (∀ fs', staged j fs' → vacant fs' → Q (Ok tt) fs') →
  ends (process_fold (rollback_candidate root journal j) tt paths) fs Safe Q.
Proof.
  intros Hs Hin Hfree HQ.
  apply (ends_mono _ _ Safe Safe (λ r fs', ∃ u : unit, r = Ok u ∧ staged j fs' ∧
           (∀ w, w ∈ ws → fs' !! place w = fs !! place w ∨ fs' !! place w = None) ∧
           ∀ path, path ∈ paths → fs' !! path_join root path = None)); [|done|].
  - apply (ends_fold (λ (past : list string) (_ : unit) fs', staged j fs' ∧
           (∀ w, w ∈ ws → fs' !! place w = fs !! place w ∨ fs' !! place w = None) ∧
           ∀ path, path ∈ past → fs' !! path_join root path = None)
           (rollback_candidate root journal j) Safe tt paths).
    2:{ split; [done|]. split; [by left|]. intros path Hp. by apply elem_of_nil in Hp. }
    intros past path rest [] fs1 Hl (Hs1 & Hsub1 & Hpast1).
    assert (Hpath : path ∈ finals) by (apply Hin; rewrite Hl; set_solver).
    apply ends_rollback_candidate; [done..|]. intros fs2 Hs2 Hsub2 Hp2. exists tt. split; [done|]. split; [done|].
    split.
    + intros w Hwin. destruct (Hsub2 w Hwin) as [->|?]; [by apply Hsub1|by right].
    + intros path' [Hp'|Hp'%list_elem_of_singleton]%elem_of_app; [|by subst path'].
      assert (Hfin' : path' ∈ finals) by (apply Hin; rewrite Hl; set_solver).
      destruct (path_write path' Hfin') as (w & Hwin & ->).
      destruct (Hsub2 w Hwin) as [Heq|?]; [|done]. unfold place in Heq. rewrite Heq. by apply Hpast1.
  - intros r fs' ([] & -> & Hs' & Hsub & Hgone). apply HQ; [done|]. intros w Hwin.
    destruct (decide (pw_final_path w ∈ paths)) as [Hp|Hp]; [by apply Hgone|].
    destruct (Hsub w Hwin) as [->|?]; [by apply Hfree|done].
Qed.
Lemma ends_inflight j path fs Q :
  staged j fs → path ∈ finals →
  (∀ l, (l = [path] ∨ (l = [] ∧ fs !! path_join root path = None)) → Q (Ok l) fs) →
  ends (inflight_candidate root journal j path) fs Safe Q.
Proof.
  intros Hs Hin HQ. destruct (path_write path Hin) as (w & Hwin & ->).
  unfold inflight_candidate. rewrite (describes_planned at_ ws), (describes_checksum at_ ws) by (done || apply Hs).
  simpl. apply ends_bind, (ends_published_state j); [done..| |].
  - intros Hn. apply ends_ret, HQ. by right.
  - intros _. rewrite (describes_no_updates at_ ws) by apply Hs. apply ends_ret, HQ. by left.
Qed.
Lemma ends_or_cleanup j p fs Q :
  ends p fs Safe (λ r fs, r = Ok tt ∧ Q (Ok tt) fs) → ends (or_cleanup journal j p) fs Safe Q.
Proof.
  intros Hp. unfold or_cleanup. apply ends_bind, ends_try. eapply ends_mono; [exact Hp|done|].
  intros r fs' [-> HQ]. by apply ends_ret.
Qed.
Lemma ends_rollback j fs Q :
  staged j fs → (∀ fs', untouched fs' → Q (Ok tt) fs') → ends (rollback_staged_journal root journal j) fs Safe Q.
Proof.
  intros Hs HQ. unfold rollback_staged_journal. rewrite (describes_doc_id _ _ _ (sg_describes _ _ Hs)).
  apply (ends_seq _ _ fs Safe (λ l fs', fs' = fs ∧ (∀ path, path ∈ l → path ∈ finals) ∧
    ∀ w, w ∈ ws → pw_final_path w ∉ aj_created_paths j ++ l → fs !! place w = None)).
  - destruct (aj_inflight_publish_path j) as [path|] eqn:Hinf.
    + assert (Hfin : path ∈ finals) by (apply (sg_paths _ _ Hs); by right).
      apply (ends_inflight j); [done..|]. intros l Hl. exists l. split; [done|]. split; [done|].
      split; [intros path' Hp'; destruct Hl as [->|[-> _]]; set_solver|].
      intros w Hwin Hnot. destruct (sg_places _ _ Hs w Hwin) as [?|[Hlist _]]; [done|].
      destruct Hlist as [?|Heq]; [set_solver|]. rewrite Hinf in Heq. injection Heq as ->.
      destruct Hl as [->|[-> ?]]; [set_solver|done].
    + apply ends_ret. exists []. split; [done|]. split; [done|]. split; [intros ? Hp; by apply elem_of_nil in Hp|].
      intros w Hwin Hnot. destruct (sg_places _ _ Hs w Hwin) as [?|[[?|?] _]]; [done|set_solver|congruence].
  - intros l fs' (-> & Hl & Hfree). apply ends_bind, ends_rollback_all; [done| | |].
    + intros path. unfold sorted_set. rewrite elem_of_sort_by, elem_of_remove_dups, elem_of_app.
      intros [?|?]; [apply (sg_paths _ _ Hs); by left|by apply Hl].
    + intros w Hwin Hnot. apply Hfree; [done|]. contradict Hnot. unfold sorted_set.
      by rewrite elem_of_sort_by, elem_of_remove_dups.
    + intros fs1 Hs1 Hv1. apply ends_bind, ends_or_cleanup. apply (ends_cleanup_staged j); [done..|].
      intros fs2 Hs2 Hv2. split; [done|]. apply ends_or_cleanup. apply (ends_remove_staged j); [done..|].
      intros fs3 Hu. split; [done|]. by apply HQ.
Qed.
Lemma ends_recover_staged j fs Q :
  staged j fs → (∀ fs', untouched fs' → Q (Ok tt) fs') → ends (recover_staged_journal root journal j) fs Safe Q.
Proof.
  intros Hs HQ. unfold recover_staged_journal.
  destruct (_ && _) eqn:Hnone; [|by apply ends_rollback].
  apply andb_true_iff in Hnone as [Hcr%bool_decide_eq_true Hinf%bool_decide_eq_true].
  assert (Hv : vacant fs).
  { intros w Hwin. destruct (sg_places _ _ Hs w Hwin) as [?|[[Hin|Hin] _]]; [done| |congruence].
    rewrite Hcr in Hin. by apply elem_of_nil in Hin. }
  rewrite (describes_doc_id _ _ _ (sg_describes _ _ Hs)).
  apply ends_bind, ends_map_error. apply (ends_cleanup_staged j); [done..|]. intros fs1 Hs1 Hv1. simpl.
  apply ends_map_error. apply (ends_remove_staged j); [done..|]. intros fs2 Hu. by apply HQ.
Qed.

(** *** A finished application is recognized *)

Lemma outcome_facts : omap zo_memory_path outcomes = finals ∧ zo_decision_id <$> outcomes = db_id <$> decisions_in doc ∧
  NoDup (zo_decision_id <$> outcomes) ∧ Forall (λ o, zo_wiki_path o = None) outcomes.
Proof.
  destruct (memory_outcomes _ _ _ _ (jb_kind job) integrity_memory (jb_outcomes job)) as (Hp & _ & Hids & Hnd & Hall).
  rewrite Hp, (jb_finals job). split_and!; [done..|]. eapply Forall_impl; [exact Hall|]. by intros o [? _].
Qed.
Lemma journal_outcomes j : describes at_ ws j → outcomes_from_journal j = outcomes.
Proof.
  intros Hds. unfold outcomes_from_journal. rewrite (ds_plan _ _ _ Hds). simpl.
  rewrite <- list_fmap_compose. rewrite <- (list_fmap_id outcomes) at 2. apply list_fmap_ext. by intros ? [].
Qed.
Lemma ends_final_state w fs (Q : Result ApplyServiceError JournalPathState → Fs → Prop) :
  Safe fs → published ws fs → w ∈ ws → Q (Ok ChecksumMatch) fs →
  ends (journal_path_state root (pw_final_path w) (pw_checksum w)) fs Safe Q.
Proof.
  intros Hsafe Hpub Hin HQ. destruct (write_place _ _ _ Hw Hin) as [Hfin _].
  destruct (write_staged _ _ _ Hw Hin) as (_ & _ & _ & Hsum). pose proof (Hpub w Hin) as Hf.
  apply (ends_path_state Safe); [done..| |].
  - destruct Hf as [t Hf]. intros Hn. unfold place in Hf. congruence.
  - intros c Hc. by rewrite (file_at_inj _ _ _ _ Hc Hf), <- Hsum, bool_decide_true.
Qed.
Lemma ends_check_finalized j fs (Q : Result string unit → Fs → Prop) :
  Safe fs → published ws fs → describes at_ ws j → Q (Ok tt) fs →
  ends (process_fold (check_finalized_path root j) tt finals) fs Safe Q.
Proof.
  intros Hsafe Hpub Hds HQ.
  apply (ends_mono _ _ Safe Safe (λ r fs', ∃ u : unit, r = Ok u ∧ fs' = fs)); [|done|by intros r fs' ([] & -> & ->)].
  apply (ends_fold (λ (_ : list string) (_ : unit) fs', fs' = fs)); [|done].
  intros past path rest [] fs' Hl ->. assert (Hin : path ∈ finals) by (rewrite Hl; set_solver).
  destruct (path_write path Hin) as (w & Hwin & ->). unfold check_finalized_path.
  rewrite (describes_checksum at_ ws) by done. apply ends_bind, ends_map_error, ends_final_state; [done..|].
  apply ends_ret. by exists tt.
Qed.
Lemma ends_check_uncovered j fs (Q : Result string unit → Fs → Prop) :
  finalized_paths j = finals → Q (Ok tt) fs →
  ends (process_fold (check_uncovered root j) tt outcomes) fs Safe Q.
Proof.
  intros Hpaths HQ. destruct outcome_facts as (Hmem & _ & _ & Hwiki).
  apply (ends_mono _ _ Safe Safe (λ r fs', ∃ u : unit, r = Ok u ∧ fs' = fs)); [|done|by intros r fs' ([] & -> & ->)].
  apply (ends_fold (λ (_ : list ZeroWriteOutcome) (_ : unit) fs', fs' = fs)); [|done].
  intros past o rest [] fs' Hl ->. assert (Hin : o ∈ outcomes) by (rewrite Hl; set_solver).
  unfold check_uncovered. rewrite (proj1 (Forall_forall _ _) Hwiki o Hin), Hpaths.
  destruct (zo_memory_path o) as [path|] eqn:Hpath; [|apply ends_ret; by exists tt].
  rewrite bool_decide_true; [apply ends_ret; by exists tt|].
  rewrite <- Hmem. apply list_elem_of_omap. by exists o.
Qed.
Lemma decision_ids_checked j : describes at_ ws j →
  try_fold (λ _ r, reject_if (negb (decision_id_count doc (jr_decision_id r) =? 1))
                     ("Journal decision id is missing or duplicated: " +:+ jr_decision_id r))
    tt (jp_decision_results (aj_plan j)) = Ok tt.
Proof.
  intros Hds. rewrite (ds_plan _ _ _ Hds). simpl. destruct outcome_facts as (_ & Hids & Hnd & _).
  assert (Hall : Forall (λ o, decision_id_count doc (zo_decision_id o) = 1) outcomes).
  { apply Forall_forall. intros o Hin. assert (Ho : zo_decision_id o ∈ db_id <$> decisions_in doc).
    { rewrite <- Hids. by apply list_elem_of_fmap_2. }
    apply list_elem_of_fmap in Ho as (d & -> & Hd). unfold decision_id_count. fold (decisions_in doc).
    apply filter_key_one; [by rewrite <- Hids|done]. }
  revert Hall. generalize outcomes. intros os Hall. induction Hall as [|o os' Ho _ IH]; [done|]. simpl. by rewrite Ho.
Qed.

Record final j fs : Prop := {
  fn_describes : describes at_ ws j;
  fn_journal : journal_is j fs;
  fn_state : aj_state j = JournalFinalized;
  fn_memory : aj_finalized_memory_paths j = finals;
  fn_wiki : aj_finalized_wiki_paths j = [];
  fn_published : published ws fs }.
Lemma final_paths j fs : final j fs → finalized_paths j = finals.
Proof. intros Hf. unfold finalized_paths. by rewrite (fn_memory _ _ Hf), (fn_wiki _ _ Hf), app_nil_r. Qed.

Lemma ends_validate_match j fs (Q : Result string unit → Fs → Prop) :
  Safe fs → final j fs → Q (Ok tt) fs →
  ends (validate_finalized_journal_match root relative request (sha256_checksum_bytes markdown) doc j) fs Safe Q.
Proof.
  intros Hsafe Hf HQ. pose proof (fn_describes _ _ Hf) as Hds. unfold validate_finalized_journal_match.
  rewrite (final_paths _ _ Hf), (jb_outcomes job). apply ends_bind, ends_pure.
  rewrite (ds_plan _ _ _ Hds), (jb_checksum job). simpl. fold (known_of doc). rewrite (jb_doc_id job).
  rewrite !bool_decide_true by done. simpl. apply ends_bind, (ends_check_finalized j); [done|apply Hf|done|].
  apply ends_bind, ends_pure. pose proof (decision_ids_checked j Hds) as Hids. rewrite (ds_plan _ _ _ Hds) in Hids.
  simpl in Hids. rewrite Hids. simpl. apply ends_check_uncovered; [by apply (final_paths j fs)|done].
Qed.
Lemma ends_recover_finalized j fs Q :
  Safe fs → file_at fs document markdown → final j fs → (∀ r fs', commits true r → completed fs' → Q r fs') →
  ends (recover_finalized_journal root document (sha256_checksum_bytes markdown) doc journal j) fs Safe Q.
Proof.
  intros Hsafe Hdoc Hf HQ. pose proof (fn_describes _ _ Hf) as Hds. destruct Hnow as [t Heq].
  destruct (jb_saved job t) as (text & Hsaved & _). rewrite <- Heq in Hsaved.
  pose proof Hsaved as Hrender. unfold saved_at, status_after in Hrender.
  unfold recover_finalized_journal. rewrite (journal_outcomes j Hds), (ds_plan _ _ _ Hds). simpl.
  rewrite Hrender. apply ends_bind, ends_pure. simpl. apply ends_bind, ends_map_error.
  eapply (ends_replace_finalized j); try apply Hf; try done; [apply Hsafe|]. intros fs1 Hsafe1 Hs1. simpl.
  eapply ends_finish_saved; [done..|]. intros fs2 Hc2. apply HQ; [|done].
  eexists. split; [done|]. simpl. by rewrite (fn_memory _ _ Hf), (fn_wiki _ _ Hf).
Qed.

Lemma ends_finalized_match j fs (Q : Result ApplyServiceError bool → Fs → Prop) paths :
  Safe fs → published ws fs → describes at_ ws j → (∀ path, path ∈ paths → path ∈ finals) → Q (Ok true) fs →
  ends (finalized_paths_match root j paths) fs Safe Q.
Proof.
  intros Hsafe Hpub Hds Hin HQ. induction paths as [|path paths IH]; [by apply ends_ret|].
  destruct (path_write path) as (w & Hwin & ->); [apply Hin; by left|]. simpl.
  rewrite (describes_checksum at_ ws) by done. apply ends_bind, ends_final_state; [done..|]. simpl.
  apply IH. intros p Hp. apply Hin. by right.
Qed.
Lemma statuses_recorded j d : describes at_ ws j →
  decisions_in d = resolve_decision outcomes at_ <$> decisions_in doc →
  let recorded : gmap string string :=
    insert_all ∅ ((λ r, (jr_decision_id r, jr_status r)) <$> jp_decision_results (aj_plan j)) in
  length (decisions_in d) = size recorded ∧
  forallb (λ b : DecisionBlock, bool_decide (recorded !! db_id b = Some (db_status b))) (decisions_in d) = true.
Proof.
  intros Hds Hd recorded. destruct outcome_facts as (_ & Hids & Hnd & _).
  unfold recorded. rewrite (ds_plan _ _ _ Hds). simpl. rewrite <- list_fmap_compose.
  assert (Hkeys : NoDup (((λ r, (jr_decision_id r, jr_status r)) ∘ journal_result) <$> outcomes).*1)
    by by rewrite <- list_fmap_compose.
  split.
  - rewrite size_insert_all by done. rewrite Hd, !length_fmap. by rewrite <- (length_fmap db_id), <- Hids, length_fmap.
  - apply forallb_forall. intros x Hx. apply list_elem_of_In in Hx. rewrite Hd in Hx.
    apply list_elem_of_fmap in Hx as (x0 & -> & Hx0).
    assert (Ho : db_id x0 ∈ zo_decision_id <$> outcomes) by (rewrite Hids; by apply list_elem_of_fmap_2).
    apply list_elem_of_fmap in Ho as (o & Ho & Hoin).
    destruct (resolve_decision_status outcomes at_ o x0) as [Hid Hst]; [done..|].
    apply bool_decide_eq_true. rewrite Hid, Hst, Ho. apply lookup_insert_all; [done|].
    by apply (list_elem_of_fmap_2 ((λ r, (jr_decision_id r, jr_status r)) ∘ journal_result) outcomes o).
Qed.
Lemma status_done : status_after ∈ ["applied"; "partially_applied"; "needs_revision"].
Proof. unfold status_after. destruct (document_status_for_outcomes _); simpl; set_solver. Qed.
Lemma ends_orphan j d text fs Q :
  Safe fs → final j fs → settled text fs → fk_status (known_of d) = status_after →
  decisions_in d = resolve_decision outcomes at_ <$> decisions_in doc → (∀ fs', completed fs' → Q (Ok tt) fs') →
  ends (cleanup_completed_orphan_journal root d journal j) fs Safe Q.
Proof.
  intros Hsafe Hf Hs Hst Hd HQ. destruct (statuses_recorded j d (fn_describes _ _ Hf) Hd) as [Hlen Hall].
  unfold cleanup_completed_orphan_journal, completed_orphan_matches. unfold known_of in Hst. rewrite Hst.
  rewrite bool_decide_true by apply status_done. simpl. rewrite (final_paths _ _ Hf). apply ends_bind, ends_bind.
  apply (ends_finalized_match j); [done|apply Hf|apply Hf|done|]. simpl. apply ends_ret.
  unfold decisions_in in Hlen, Hall. rewrite Hlen, Hall, bool_decide_true by done. simpl.
  apply ends_bind, ends_pure. simpl. apply ends_map_error.
  apply (ends_remove_settled j text); [done|done|apply Hf|]. intros _ Hc. by apply HQ.
Qed.
End writing.

(** *** The whole call *)

(** What a call that returns says: it committed the files, or the document had been
    saved by an earlier one already. *)
Definition saved_before fs : Prop := ∃ at_ text, saved_at at_ text ∧ file_at fs document text.
Definition answers fs (r : Result ApplyServiceError ApplyDecisionDocumentResult) : Prop :=
  (∃ recovered, commits recovered r) ∨ (saved_before fs ∧ ∃ e, r = Err e).

Lemma parse_document_Ok (d : ParsedDecisionDocument) text fs C Q (f : _ → Svc ApplyDecisionDocumentResult) :
  parse_decision_document text = Ok d → ends (f d) fs C Q →
  ends (from_document (parse_decision_document text) ≫= f) fs C Q.
Proof. intros Hp Hf. rewrite Hp. by apply ends_bind, ends_pure. Qed.
Lemma ends_look_at_disk {E : Type} fs C (Q : Result E Fs → Fs → Prop) : Q (Ok fs) fs → ends look_at_disk fs C Q.
Proof. by intros HQ n. Qed.

Lemma bool_decide_eq_refl (s : string) : bool_decide (s = s) = true.
Proof. by apply bool_decide_eq_true. Qed.
(** Only the answers about the planned files matter to the integrity check. *)
Lemma integrity_free (exists_ : string → bool) : (∀ path, path ∈ finals → exists_ path = false) →
  validate_decision_document_integrity doc (Some exists_) = Ok integrity.
Proof.
  intros Hfree. pose proof (jb_validated job) as Hv. pose proof (jb_kind job) as Hkind.
  unfold validate_decision_document_integrity in *. unfold known_of in Hkind.
  apply bind_Ok_inv in Hv as (u & Hu & Hv). rewrite Hu. simpl. rewrite Hkind in *. simpl in *.
  apply memory_integrity_Ok in Hv as (st & st' & _ & _ & Hpaths & Hany). apply Hany.
  intros path f Hin [= <-]. apply Hfree. by rewrite <- (jb_finals job), Hpaths.
Qed.
Lemma some_accepted : selects OptionYes outcomes ≠ [].
Proof.
  destruct (memory_outcomes _ _ _ _ (jb_kind job) integrity_memory (jb_outcomes job)) as (Hp & _ & _ & _ & Hall).
  rewrite (jb_finals job) in Hp. intros Hnone. apply (jb_some job). rewrite <- Hp.
  destruct (omap zo_memory_path outcomes) as [|path l] eqn:Hl; [done|].
  assert (Hin : path ∈ omap zo_memory_path outcomes) by (rewrite Hl; by left).
  apply list_elem_of_omap in Hin as (o & Ho & Hpath). apply (proj1 (Forall_forall _ _) Hall) in Ho as Hfacts.
  destruct Hfacts as (_ & [_ Hyes] & _). exfalso. apply (not_elem_of_nil o). rewrite <- Hnone.
  apply selects_elem. split; [done|]. apply Hyes. by rewrite Hpath.
Qed.
Lemma ends_pending fs Q :
  untouched fs → (∀ r fs', commits false r → completed fs' → Q r fs') →
  ends (apply_pending root document relative (sha256_checksum_bytes markdown) request doc) fs Safe Q.
Proof.
  intros Hu HQ. pose proof Hu as (Ht & Hj & Hdoc & Hfree).
  unfold apply_pending. cbv zeta. fold (known_of doc).
  rewrite (jb_checksum job), (jb_pending job), (jb_kind job). rewrite !bool_decide_eq_refl.
  apply ends_bind, ends_pure. simpl. apply ends_bind, ends_pure. simpl.
  apply ends_bind, ends_look_at_disk. rewrite integrity_free.
  2:{ intros path Hin. unfold existing_under, path_exists. by rewrite Hfree by by apply list_elem_of_fmap_2. }
  apply ends_bind, ends_pure. simpl. rewrite (jb_outcomes job). apply ends_bind, ends_pure.
  apply ends_bind, ends_timestamp. intros at_ [t Heq]. destruct (jb_planned job t) as [ws Hw]. rewrite <- Heq in Hw.
  rewrite bool_decide_false by apply some_accepted.
  eapply (ends_memory_writes at_ ws); [by exists t|done|by apply untouched_safe|done..].
Qed.
Lemma ends_not_pending (d : ParsedDecisionDocument) checksum fs C Q :
  fk_status (known_of d) ≠ "pending" → (∀ e, Q (Err e) fs) →
  ends (apply_pending root document relative checksum request d) fs C Q.
Proof.
  intros Hst HQ. unfold apply_pending. cbv zeta. fold (known_of d). apply ends_bind, ends_pure.
  destruct (reject_if _ _) as [[]|e]; [|done]. apply ends_bind, ends_pure.
  rewrite (bool_decide_false (fk_status (known_of d) = "pending")) by done. apply HQ.
Qed.
Lemma status_after_not_pending : status_after ≠ "pending".
Proof. unfold status_after. by destruct (document_status_for_outcomes _). Qed.

Lemma ends_continue (j : ApplyJournal) fs Q :
  (∃ at_ ws, is_time at_ ∧ writes_at at_ ws ∧ staged at_ ws j fs) → (∀ fs', untouched fs' → Q (Ok ContinueNormalApply) fs') →
  ends (handle_existing_journal root document relative request (sha256_checksum_bytes markdown) journal doc j) fs Safe Q.
Proof.
  intros (at_ & ws & Ht & Hw & Hs) HQ. unfold handle_existing_journal. rewrite (sg_state _ _ _ _ Hs).
  apply ends_bind, (ends_recover_staged at_ ws); [done..|]. intros fs' Hu. by apply ends_ret, HQ.
Qed.
Lemma ends_with_journal (d : ParsedDecisionDocument) text j fs Q :
  Safe fs → file_at fs document text → utf8_valid text = true → parse_decision_document text = Ok d →
  fk_id (known_of d) = doc_id → journal_is j fs →
  ends (handle_existing_journal root document relative request (sha256_checksum_bytes text) journal d j) fs Safe
    (λ r fs', match r with
              | Ok (ReturnResult result) => Q (Ok result) fs'
              | Ok ContinueNormalApply =>
                  ends (apply_pending root document relative (sha256_checksum_bytes text) request d) fs' Safe Q
              | Err e => Q (Err e) fs'
              end) →
  ends (apply_decision_document_with_locks root document relative request) fs Safe Q.
Proof.
  intros Hsafe Hf Hutf Hp Hid (b & Hb & Hj) Hh. unfold apply_decision_document_with_locks.
  apply ends_bind, (ends_read_document Safe text); [done..|]. cbv zeta. apply (parse_document_Ok d); [done|].
  fold (known_of d). rewrite Hid. fold journal. apply ends_bind.
  eapply (ends_read_journal Safe j b); [done..|by apply journal_json|]. apply ends_bind.
  eapply ends_mono; [exact Hh|done|]. by intros [[]|] fs' HQ; [|apply ends_ret|].
Qed.
Lemma ends_without_journal (d : ParsedDecisionDocument) text fs Q :
  Safe fs → file_at fs document text → utf8_valid text = true → parse_decision_document text = Ok d →
  fk_id (known_of d) = doc_id → fs !! journal = None →
  ends (apply_pending root document relative (sha256_checksum_bytes text) request d) fs Safe Q →
  ends (apply_decision_document_with_locks root document relative request) fs Safe Q.
Proof.
  intros Hsafe Hf Hutf Hp Hid Hn Hh. unfold apply_decision_document_with_locks.
  apply ends_bind, (ends_read_document Safe text); [done..|]. cbv zeta. apply (parse_document_Ok d); [done|].
  fold (known_of d). rewrite Hid. fold journal. apply ends_bind, (ends_read_no_journal Safe); [done..|].
  by apply ends_bind, ends_ret.
Qed.

Lemma saved_reads_back at_ text : is_time at_ → saved_at at_ text → reads_back at_ text.
Proof.
  intros [t ->] Hs. destruct (jb_saved job t) as (text' & Hs' & Hr). unfold saved_at in *. congruence.
Qed.
Definition goes_on fs : Prop :=
  ends (apply_decision_document_with_locks root document relative request) fs Safe
    (λ r fs', completed fs' ∧ answers fs r).

Lemma untouched_goes_on fs : untouched fs → goes_on fs.
Proof.
  intros Hu. pose proof Hu as (Ht & Hj & Hdoc & Hfree).
  eapply ends_without_journal; [by apply untouched_safe|done|apply job|apply job|apply job|done|].
  apply ends_pending; [done|]. intros r fs' Hr Hc. split; [done|]. left. by exists false.
Qed.
Lemma staged_goes_on at_ ws j fs : is_time at_ → writes_at at_ ws → staged at_ ws j fs → goes_on fs.
Proof.
  intros Ht Hw Hs.
  eapply ends_with_journal; [by eapply staged_safe|apply Hs|apply job|apply job|apply job|apply Hs|].
  apply ends_continue; [by exists at_, ws|]. intros fs' Hu.
  apply ends_pending; [done|]. intros r fs2 Hr Hc. split; [done|]. left. by exists false.
Qed.
Lemma finalized_goes_on at_ ws j fs :
  is_time at_ → writes_at at_ ws → tidy fs → file_at fs document markdown → final at_ ws j fs → goes_on fs.
Proof.
  intros Ht Hw Htidy Hdoc Hf.
  assert (Hsafe : Safe fs).
  { split; [done|]. eapply (Finalized fs at_ ws j); try apply Hf; try done. by left. }
  eapply ends_with_journal; [done..|apply job|apply job|apply job|apply Hf|].
  unfold handle_existing_journal, handle_finalized_journal. rewrite (fn_state _ _ _ _ Hf).
  fold (known_of doc). rewrite (jb_pending job), bool_decide_eq_refl, (jb_recover job). simpl.
  apply ends_bind, ends_try, (ends_validate_match at_ ws); [done..|].
  apply ends_bind, (ends_recover_finalized at_ ws); [done..|]. intros r fs' Hr Hc.
  pose proof Hr as (result & -> & _). apply ends_ret. split; [done|]. left. by exists true.
Qed.
(** Whatever remains to be done after the document was saved, the call reports that
    the document is not pending any more. *)
Lemma saved_pending at_ text (d : ParsedDecisionDocument) fs fs0' :
  fk_status (known_of d) = status_after → saved_at at_ text → file_at fs0' document text → completed fs →
  ends (apply_pending root document relative (sha256_checksum_bytes text) request d) fs Safe
    (λ r fs', completed fs' ∧ answers fs0' r).
Proof.
  intros Hst Hs Hf Hc. eapply (ends_mono _ _ Safe Safe (λ r fs', fs' = fs ∧ ∃ e, r = Err e)); [|done|].
  - unfold apply_pending. cbv zeta. fold (known_of d). apply ends_bind, ends_pure.
    destruct (reject_if _ _) as [[]|e]; [|split; [done|by exists e]]. apply ends_bind, ends_pure.
    rewrite Hst, (bool_decide_false (status_after = "pending")) by apply status_after_not_pending.
    split; [done|]. by eexists.
  - intros r fs' [-> He]. split; [done|]. right. split; [by exists at_, text|done].
Qed.
Lemma settled_goes_on at_ ws text fs :
  is_time at_ → writes_at at_ ws → Safe fs → settled at_ ws text fs →
  (fs !! journal = None ∨ ∃ j, final at_ ws j fs ∨
     (describes at_ ws j ∧ journal_is j fs ∧ aj_state j = JournalDocumentSaved)) → goes_on fs.
Proof.
  intros Ht Hw Hsafe Hs Hj. pose proof (st_saved _ _ _ _ Hs) as Hsaved. pose proof (st_document _ _ _ _ Hs) as Hdoc.
  destruct (saved_reads_back _ _ Ht Hsaved) as (Hutf & d & Hp & Hid & Hst & Hdec).
  destruct Hj as [Hn|(j & [Hf|(Hds & Hj & Hstate)])].
  - eapply ends_without_journal; [done..|]. eapply saved_pending; [done..|]. by eapply settled_completed.
  - eapply ends_with_journal; [done..|apply Hf|]. unfold handle_existing_journal, handle_finalized_journal.
    rewrite (fn_state _ _ _ _ Hf). fold (known_of d). rewrite Hst.
    rewrite (bool_decide_false (status_after = "pending")) by apply status_after_not_pending. simpl.
    apply ends_bind. eapply (ends_orphan at_ ws); [done..|]. intros fs' Hc. apply ends_ret.
    by eapply saved_pending.
  - eapply ends_with_journal; [done..|]. unfold handle_existing_journal. rewrite Hstate.
    apply ends_bind, ends_map_error. eapply (ends_remove_settled at_ ws); [done..|]. intros _ Hc. simpl.
    apply ends_ret. by eapply saved_pending.
Qed.
Lemma safe_goes_on fs : Safe fs → goes_on fs.
Proof.
  intros [Htidy Hphase]. pose proof Hphase as Hsafe.
  destruct Hphase as [Hn Hdoc Hfree|at_ ws j Ht Hw Hds Hji Hst Hdoc Hin Hpl|at_ ws j Ht Hw Hds Hji Hst Hm Hk Hpub Hdoc
    |at_ ws j text Ht Hw Hds Hji Hst Hpub Hs Hdoc|at_ ws text Ht Hn Hw Hpub Hs Hdoc].
  - by apply untouched_goes_on.
  - by apply (staged_goes_on at_ ws j).
  - assert (Hf : final at_ ws j fs) by done.
    destruct Hdoc as [Hdoc|(text & Hs & Hdoc)]; [by apply (finalized_goes_on at_ ws j)|].
    apply (settled_goes_on at_ ws text); [done..|]. right. exists j. by left.
  - apply (settled_goes_on at_ ws text); [done..|]. right. exists j. by right.
  - apply (settled_goes_on at_ ws text); [done..|]. by left.
Qed.
End runs.

(** ** Any number of stops *)

(** Applications that were stopped, one after the other, each in an environment of
    its own; none of their calls reported an error. *)
Inductive interrupted (fs : Fs) : Fs → Prop :=
| not_interrupted : interrupted fs fs
| interrupted_again (env : Environment) (fs' : Fs) (n : nat) (m : Machine) :
    @Unfailing env → interrupted fs fs' →
    apply_decision_document_with_locks root document relative request {| mc_fs := fs'; mc_steps := n |} = (Stopped, m) →
    interrupted fs (mc_fs m).
Lemma interrupted_safe fs fs' : Safe fs → interrupted fs fs' → Safe fs'.
Proof.
  intros Hsafe. induction 1 as [|env fs' n m Hun _ IH Hrun]; [done|].
  pose proof (safe_goes_on fs' IH n) as Hend. rewrite Hrun in Hend. by destruct Hend.
Qed.

(** C2: an application of a memory decision document survives any number of stops.
    Take a pending memory document with at least one accepted proposal, on a disk
    where the places of its files are free, let no call of the system report an
    error, and let the process be stopped at any step of the
    application (in the middle of a write, between a file and its journal, inside a
    removal), again and again. The next application that is not stopped returns and
    leaves the disk complete: every accepted proposal has its file with exactly the
    planned text, the document records the decisions, and neither the journal nor
    anything outside the places of the application has changed. It reports the
    committed files, unless an earlier application had already saved the document. *)
Theorem interrupted_application_completes (env : Environment) (fs fs' : Fs) (n : nat) :
  untouched fs → interrupted fs fs' → @Unfailing env → ¬ stops →
  ∃ r m, apply_decision_document_with_locks root document relative request {| mc_fs := fs'; mc_steps := n |} =
           (Returned r, m) ∧ completed (mc_fs m) ∧ answers fs' r.
Proof.
  intros Hu Hint Hun Hno. apply (ends_returns _ _ Safe (λ r fs1, completed fs1 ∧ answers fs' r)); [|done]. apply safe_goes_on.
  eapply interrupted_safe; [by apply untouched_safe|done].
Qed.

(** C10: whenever the application of a memory decision document is stopped, the vault
    stays consistent. Take a pending document as in the theorem above. After any number
    of stopped applications, none of whose calls reported an error, the document still has its old text or its whole new one;
    a planned file is either not there or there with its whole text; once the
    document has changed all of them are there; and no path outside the places of the
    application differs from what was there at first. *)
Theorem interrupted_disk_consistent (fs fs' : Fs) :
  untouched fs → interrupted fs fs' →
  ∃ at_ ws, writes_at at_ ws ∧
    (file_at fs' document markdown ∨ ((∃ text, saved_at at_ text ∧ file_at fs' document text) ∧ published ws fs')) ∧
    (∀ w, w ∈ ws → fs' !! place w = None ∨ file_at fs' (place w) (pw_bytes w)) ∧
    ∀ q, q ∉ dirs → q ≠ document → q ≠ journal → q ∉ places → ¬ scratch q → fs' !! q = fs0 !! q.
Proof.
  intros Hu Hint. destruct (interrupted_safe fs fs') as [Ht Hphase]; [by apply untouched_safe|done|].
  assert (Hother : ∀ q, q ∉ dirs → q ≠ document → q ≠ journal → q ∉ places → ¬ scratch q → fs' !! q = fs0 !! q).
  { intros q ? ? ? ? ?. by apply (fitting_other q). }
  destruct Hphase as [Hn Hdoc Hfree|at_ ws j _ Hw _ _ _ Hdoc _ Hpl|at_ ws j _ Hw _ _ _ _ _ Hpub Hdoc
    |at_ ws j text _ Hw _ _ _ Hpub Hs Hdoc|at_ ws text _ _ Hw Hpub Hs Hdoc].
  - destruct (jb_planned job 0%Z) as [ws Hw]. exists (format_utc_timestamp 0%Z), ws. split_and!; [done|by left| |done].
    intros w Hin. left. apply Hfree. by eapply write_place.
  - exists at_, ws. split_and!; [done|by left| |done]. intros w Hin. destruct (Hpl w Hin) as [?|[_ ?]]; [by left|by right].
  - exists at_, ws. split_and!; [done| |by right; auto|done].
    destruct Hdoc as [?|(text & ? & ?)]; [by left|right]. split; [by exists text|done].
  - exists at_, ws. split_and!; [done| |by right; auto|done]. right. split; [by exists text|done].
  - exists at_, ws. split_and!; [done| |by right; auto|done]. right. split; [by exists text|done].
Qed.
End recovery.
