(* ===== verification/KnowledgeToys.v ===== *)
(** * Concrete instances for the knowledge code

    A line-based text for the records serde_yaml writes, a mixing stand-in for the
    hash, and a decision document with two proposals, so that applications run. *)
From Stdlib Require Import Ascii String.
#[local] Set Warnings "-clear-no-such-hyp".
From S2P Require Import Prelude Text Paths SyncDb Scanner Crypto Packer Knowledge DecisionDocument Disk.
From S2P Require Import KnowledgeApply Toys.
Import Crypto.Toy Packer.Examples.

(** ** Library stand-ins *)

Fixpoint mix (h : Z) (s : string) : Z :=
  match s with
  | EmptyString => h
  | String a s => mix ((h * 257 + Z.of_N (ascii_code a) + 1) mod 2305843009213693951)%Z s
  end.
Definition mixed_hash (b : bytes) : bytes := str_take 32 (fmt_int (mix 7 b) +:+ zeros 32).
#[export] Instance mixing_crypto : CryptoLib := {|
  sha256 := mixed_hash; hex_encode := hex_text;
  xchacha_encrypt := λ key nonce aad msg, Some (key +:+ msg);
  xchacha_decrypt := λ key nonce aad c, strip_prefix key c;
  ed25519_public := λ sk, sk; ed25519_sign := λ sk m, sk; ed25519_verify := λ vk m s, true |}.
#[export] Instance plain_nfc : Nfc := {| nfc s := s |}.
#[export] Instance seconds : Chrono := {|
  parse_from_rfc3339 s := negb (str_is_empty s);
  to_rfc3339_secs t := fmt_int t +:+ "Z"; to_path_timestamp t := fmt_int t +:+ "Z" |}.

(** One line of items. *)
Definition line_break : ascii := Ascii false true false false false false false false.
Definition one_line (items : list string) : string := str_replace newline line_break (write_items items).
Definition line_items (s : string) : list string :=
  read_items (str_replace line_break newline (str_concat (split_on newline s))).
Definition opt_items (o : option string) : string := write_items (option_list o).
Definition items_opt (s : string) : option string := head (read_items s).
Definition ref_text (r : SourceRef) : string := write_items [sf_path r; sf_captured_at r].
Definition text_ref (s : string) : SourceRef :=
  match read_items s with
  | [p; t] => {| sf_path := p; sf_title := None; sf_section_path := None; sf_range := None;
                 sf_checksum := None; sf_captured_at := t |}
  | _ => {| sf_path := ""; sf_title := None; sf_section_path := None; sf_range := None;
            sf_checksum := None; sf_captured_at := "" |}
  end.
Definition refs_text (l : list SourceRef) : string := write_items (ref_text <$> l).
Definition text_refs (s : string) : list SourceRef := text_ref <$> read_items s.

#[export] Instance map_mapping : YamlMapping :=
  {| Mapping := list (string * string);
     mapping_insert m k v := List.filter (λ x, negb (bool_decide (x.1 = k))) m ++ [(k, v)] |}.
Definition field (m : list (string * string)) (k : string) : string :=
  default "" (snd <$> List.find (λ x, bool_decide (x.1 = k)) m).
#[export] Instance write_mapping : YamlWrite Mapping := λ m, Ok (one_line (unpairs m)).
#[export] Instance read_mapping : YamlRead Mapping := λ s, Ok (pairs (line_items s)).
#[export] Instance read_known : YamlRead FrontmatterKnown := λ s,
  let m := pairs (line_items s) in
  Ok {| fk_id := field m "id"; fk_proposal_id := field m "proposal_id"; fk_target_kind := field m "target_kind";
        fk_request_source := field m "request_source"; fk_status := field m "status";
        fk_created_at := field m "created_at"; fk_updated_at := field m "updated_at"; fk_source_refs := [] |}.

#[export] Instance write_memory_proposal : YamlWrite MemoryProposalBlock := λ b, let m := mp_memory b in
  Ok (one_line [mp_id b; mp_operation b; pm_id m; opt_items (pm_kind m); pm_title m; write_items (pm_tags m);
                pm_body m; refs_text (pm_source_refs m)]).
#[export] Instance read_memory_proposal : YamlRead MemoryProposalBlock := λ s,
  match line_items s with
  | [id; op; mid; kind; title; tags; body; refs] =>
      Ok {| mp_id := id; mp_operation := op;
            mp_memory := {| pm_id := mid; pm_kind := items_opt kind; pm_title := title;
                            pm_tags := read_items tags; pm_body := body; pm_source_refs := text_refs refs |} |}
  | _ => Err "invalid proposal"
  end.
#[export] Instance write_wiki_proposal : YamlWrite WikiProposalBlock := λ b, let p := wb_page b in
  Ok (one_line [wb_id b; wb_operation b; pp_path p; opt_items (pp_expected_checksum p); pp_page_type p;
                pp_title p; write_items (pp_tags p); pp_body p; refs_text (pp_source_refs p)]).
#[export] Instance read_wiki_proposal : YamlRead WikiProposalBlock := λ s,
  match line_items s with
  | [id; op; path; checksum; type; title; tags; body; refs] =>
      Ok {| wb_id := id; wb_operation := op;
            wb_page := {| pp_path := path; pp_expected_checksum := items_opt checksum; pp_page_type := type;
                          pp_title := title; pp_tags := read_items tags; pp_body := body;
                          pp_source_refs := text_refs refs |} |}
  | _ => Err "invalid proposal"
  end.
Definition option_text (o : DecisionOptionBlock) : string :=
  write_items [op_id o; op_label o; match op_requires_input o with
                                    | None => "-" | Some true => "true" | Some false => "false" end].
Definition text_option (s : string) : DecisionOptionBlock :=
  match read_items s with
  | [id; label; input] =>
      {| op_id := id; op_label := label;
         op_requires_input := if bool_decide (input = "-") then None else Some (bool_decide (input = "true")) |}
  | _ => {| op_id := ""; op_label := ""; op_requires_input := None |}
  end.
#[export] Instance write_decision : YamlWrite DecisionBlock := λ d,
  Ok (one_line [db_id d; db_proposal_id d; db_target_change_id d; db_question d; db_selection_mode d;
                (if db_required d then "true" else "false"); db_status d; opt_items (db_selected_option_id d);
                write_items (option_text <$> db_options d); opt_items (db_other_text d);
                opt_items (db_resolved_at d)]).
#[export] Instance read_decision : YamlRead DecisionBlock := λ s,
  match line_items s with
  | [id; pid; target; question; mode; required; status; selected; options; other; resolved] =>
      Ok {| db_id := id; db_proposal_id := pid; db_target_change_id := target; db_question := question;
            db_selection_mode := mode; db_required := bool_decide (required = "true"); db_status := status;
            db_selected_option_id := items_opt selected; db_options := text_option <$> read_items options;
            db_other_text := items_opt other; db_resolved_at := items_opt resolved |}
  | _ => Err "invalid decision"
  end.
#[export] Instance write_memory_frontmatter : YamlWrite MemoryFrontmatter := λ f,
  Ok (one_line [mf_id f; opt_items (mf_kind f); mf_title f;
                match mf_status f with MemoryActive => "active" | MemoryArchived => "archived"
                                     | MemorySuperseded => "superseded" end;
                write_items (mf_tags f); refs_text (mf_source_refs f); mf_created_at f; mf_updated_at f;
                mf_proposal_id f; mf_decision_document f]).
#[export] Instance read_memory_frontmatter : YamlRead MemoryFrontmatter := λ s,
  match line_items s with
  | [id; kind; title; status; tags; refs; created; updated; pid; document] =>
      Ok {| mf_id := id; mf_kind := items_opt kind; mf_title := title;
            mf_status := if bool_decide (status = "active") then MemoryActive
                         else if bool_decide (status = "archived") then MemoryArchived else MemorySuperseded;
            mf_tags := read_items tags; mf_source_refs := text_refs refs; mf_created_at := created;
            mf_updated_at := updated; mf_proposal_id := pid; mf_decision_document := document |}
  | _ => Err "invalid front matter"
  end.
Definition page_type_text (t : WikiPageType) : string :=
  match t with TypeSource => "source" | TypeConcept => "concept" | TypeEntity => "entity"
             | TypeSynthesis => "synthesis" end.
#[export] Instance write_wiki_frontmatter : YamlWrite WikiFrontmatter := λ f,
  Ok (one_line [wf_id f; page_type_text (wf_page_type f); wf_title f;
                match wf_status f with WikiActive => "active" | WikiArchived => "archived"
                                     | WikiSuperseded => "superseded" end;
                write_items (wf_tags f); refs_text (wf_source_refs f); wf_created_at f; wf_updated_at f;
                wf_proposal_id f; wf_decision_document f]).
#[export] Instance read_wiki_frontmatter : YamlRead WikiFrontmatter := λ s,
  match line_items s with
  | [id; type; title; status; tags; refs; created; updated; pid; document] =>
      Ok {| wf_id := id;
            wf_page_type := if bool_decide (type = "source") then TypeSource
                            else if bool_decide (type = "concept") then TypeConcept
                            else if bool_decide (type = "entity") then TypeEntity else TypeSynthesis;
            wf_title := title;
            wf_status := if bool_decide (status = "active") then WikiActive
                         else if bool_decide (status = "archived") then WikiArchived else WikiSuperseded;
            wf_tags := read_items tags; wf_source_refs := text_refs refs; wf_created_at := created;
            wf_updated_at := updated; wf_proposal_id := pid; wf_decision_document := document |}
  | _ => Err "invalid front matter"
  end.

(** ** The journal *)

Definition option_id_text (o : DecisionOptionId) : string :=
  match o with OptionYes => "yes" | OptionNo => "no" | OptionOther => "other" end.
Definition text_option_id (s : string) : DecisionOptionId :=
  if bool_decide (s = "yes") then OptionYes else if bool_decide (s = "no") then OptionNo else OptionOther.
Definition result_text (r : JournalDecisionResult) : string :=
  write_items [jr_decision_id r; jr_target_change_id r; option_id_text (jr_selected_option_id r); jr_status r;
               opt_items (jr_memory_path r); opt_items (jr_wiki_path r)].
Definition text_result (s : string) : JournalDecisionResult :=
  match read_items s with
  | [id; target; selected; status; memory; wiki] =>
      {| jr_decision_id := id; jr_target_change_id := target; jr_selected_option_id := text_option_id selected;
         jr_status := status; jr_memory_path := items_opt memory; jr_wiki_path := items_opt wiki |}
  | _ => {| jr_decision_id := ""; jr_target_change_id := ""; jr_selected_option_id := OptionNo;
            jr_status := ""; jr_memory_path := None; jr_wiki_path := None |}
  end.
Definition state_text (s : ApplyJournalState) : string :=
  match s with JournalStaged => "staged" | JournalFinalized => "finalized"
             | JournalDocumentSaved => "document_saved" | JournalCleanupRequired => "cleanup_required" end.
Definition text_state (s : string) : ApplyJournalState :=
  if bool_decide (s = "staged") then JournalStaged else if bool_decide (s = "finalized") then JournalFinalized
  else if bool_decide (s = "document_saved") then JournalDocumentSaved else JournalCleanupRequired.
Definition map_text (m : gmap string string) : string := write_items (unpairs (map_to_list m)).
Definition text_map (s : string) : gmap string string := list_to_map (pairs (read_items s)).
Definition plan_text (p : JournalPlan) : string :=
  write_items [jp_apply_id p; jp_doc_id p; jp_proposal_id p; jp_decision_document_path p;
    jp_decision_document_checksum_before p; jp_target_kind p; write_items (jp_planned_memory_paths p);
    write_items (jp_planned_wiki_paths p); map_text (jp_wiki_update_expected_checksums p);
    write_items (result_text <$> jp_decision_results p); jp_created_at p].
Definition text_plan (s : string) : option JournalPlan :=
  match read_items s with
  | [apply_id; doc_id; pid; path; checksum; kind; memory; wiki; updates; results; created] =>
      Some {| jp_apply_id := apply_id; jp_doc_id := doc_id; jp_proposal_id := pid;
              jp_decision_document_path := path; jp_decision_document_checksum_before := checksum;
              jp_target_kind := kind; jp_planned_memory_paths := read_items memory;
              jp_planned_wiki_paths := read_items wiki; jp_wiki_update_expected_checksums := text_map updates;
              jp_decision_results := text_result <$> read_items results; jp_created_at := created |}
  | _ => None
  end.
#[export] Instance journal_text : JournalJson := {|
  journal_to_json j := Ok (write_items
    [plan_text (aj_plan j); state_text (aj_state j); write_items (aj_created_paths j);
     write_items (aj_updated_paths j); opt_items (aj_inflight_publish_path j);
     write_items (aj_finalized_memory_paths j); write_items (aj_finalized_wiki_paths j);
     map_text (aj_memory_checksums j); map_text (aj_wiki_checksums j); aj_updated_at j; opt_items (aj_error j)]);
  journal_from_json s :=
    match read_items s with
    | [plan; state; created; updated; inflight; memory; wiki; mc; wc; at_; error] =>
        plan ← ok_or (text_plan plan) "invalid plan";
        Ok {| aj_plan := plan; aj_state := text_state state; aj_created_paths := read_items created;
              aj_updated_paths := read_items updated; aj_inflight_publish_path := items_opt inflight;
              aj_finalized_memory_paths := read_items memory; aj_finalized_wiki_paths := read_items wiki;
              aj_memory_checksums := text_map mc; aj_wiki_checksums := text_map wc; aj_updated_at := at_;
              aj_error := items_opt error |}
    | _ => Err "invalid journal"
    end |}.

Lemma items_opt_items o : items_opt (opt_items o) = o.
Proof. unfold items_opt, opt_items. rewrite read_write_items. by destruct o. Qed.
Lemma text_map_text m : text_map (map_text m) = m.
Proof. unfold text_map, map_text. by rewrite read_write_items, pairs_unpairs, list_to_map_to_list. Qed.
Lemma text_result_text r : text_result (result_text r) = r.
Proof.
  destruct r as [? ? selected ? ? ?]. unfold text_result, result_text. rewrite read_write_items. simpl.
  rewrite !items_opt_items. by destruct selected.
Qed.
Lemma text_plan_text p : text_plan (plan_text p) = Some p.
Proof.
  destruct p. unfold text_plan, plan_text. rewrite read_write_items. simpl.
  rewrite !read_write_items, text_map_text. do 2 f_equal. rewrite <- list_fmap_compose.
  rewrite <- (list_fmap_id jp_decision_results) at 2. apply list_fmap_ext. intros. apply text_result_text.
Qed.
#[export] Instance journal_laws : JournalJsonLaws.
Proof.
  split. intros [plan state created updated inflight memory wiki mc wc at_ error] b Hb.
  apply Ok_inj in Hb. subst b. unfold journal_from_json, journal_text. rewrite read_write_items.
  rewrite text_plan_text. cbn [ok_or mbind result_bind].
  rewrite !read_write_items, !text_map_text, !items_opt_items. by destruct state.
Qed.

(** ** A decision document *)

Module Sample.
Definition proposal (id memory : string) : MemoryProposalBlock :=
  {| mp_id := id; mp_operation := "create_memory";
     mp_memory := {| pm_id := memory; pm_kind := None; pm_title := "Title of " +:+ memory; pm_tags := [];
                     pm_body := "Body of " +:+ memory; pm_source_refs := [] |} |}.
Definition decision (id target selected : string) : DecisionBlock :=
  {| db_id := id; db_proposal_id := "prop_auth"; db_target_change_id := target; db_question := "Remember?";
     db_selection_mode := "single"; db_required := true; db_status := "pending";
     db_selected_option_id := Some selected;
     db_options := [{| op_id := "yes"; op_label := "Yes"; op_requires_input := None |};
                    {| op_id := "no"; op_label := "No"; op_requires_input := None |};
                    {| op_id := "other"; op_label := "Other"; op_requires_input := Some true |}];
     db_other_text := None; db_resolved_at := None |}.
Definition text_of (r : DocResult string) : string := match r with Ok s => s | Err _ => "" end.
Definition front (target_kind : string) : string :=
  "---" +:+ lf +:+ one_line (unpairs
    [("id", "doc_auth"); ("proposal_id", "prop_auth"); ("target_kind", target_kind);
     ("request_source", "ai_tool"); ("status", "pending"); ("created_at", "1Z"); ("updated_at", "1Z")])
  +:+ lf +:+ "---" +:+ lf.
Definition memory_document : string :=
  front "memory" +:+ "# Two proposals" +:+ lf
  +:+ text_of (render_kuku_block "kuku-memory-proposal" (proposal "change_a" "mem_a"))
  +:+ text_of (render_kuku_block "kuku-decision" (decision "decision_a" "change_a" "yes"))
  +:+ "Some text between." +:+ lf
  +:+ text_of (render_kuku_block "kuku-memory-proposal" (proposal "change_b" "mem_b"))
  +:+ text_of (render_kuku_block "kuku-decision" (decision "decision_b" "change_b" "yes")).
Definition root : AbsPath := ["v"].
Definition document_path : AbsPath := ["v"; "Knowledge"; "decisions"; "auth.md"].
Definition disk (document : string) : Fs := list_to_map
  [(["v"], Dir); (["v"; "Knowledge"], Dir); (["v"; "Knowledge"; "decisions"], Dir);
   (document_path, File document 5)].
Definition request (document : string) : ApplyDecisionDocumentRequest :=
  {| rq_path := "Knowledge/decisions/auth.md"; rq_expected_checksum := sha256_checksum_bytes document;
     rq_source := "editor_document_apply"; rq_recover := true |}.
Definition error_text (e : DiskError) : string :=
  match e with DiskNotFound => "not found" | DiskAlreadyExists => "already exists"
             | DiskNotADirectory => "not a directory" | DiskOther m => m end.
Definition calm : Environment := {| fate_at _ := Works; time_at n := Z.of_nat n; disk_text := error_text |}.
End Sample.
