(* ===== verification/ApplyExamples.v ===== *)
(** * Applications on concrete disks

    A document with two accepted proposals and a rejected one, applied on a disk that
    holds other files; processes that stop, and the theorems of the applications at
    these inputs. *)
From Stdlib Require Import Ascii String.
#[local] Set Warnings "-clear-no-such-hyp".
From S2P Require Import Prelude Text Paths SyncDb Scanner Crypto Knowledge DecisionDocument Disk.
From S2P Require Import KnowledgeApply ApplyPlan ApplySafety ApplyRecovery Toys KnowledgeToys.
Import KnowledgeToys.Sample.

Module Interrupted.
(** A clock that tells four times apart. *)
Definition coarse : Chrono := {|
  parse_from_rfc3339 s := negb (str_is_empty s);
  to_rfc3339_secs t := fmt_int (t mod 4) +:+ "Z"; to_path_timestamp t := fmt_int (t mod 4) +:+ "Z" |}.
#[local] Existing Instance coarse | 0.
#[local] Instance plain_laws : NfcLaws.
Proof. by split. Qed.

Definition markdown : string :=
  front "memory" +:+ "# Three proposals" +:+ lf
  +:+ text_of (render_kuku_block "kuku-memory-proposal" (proposal "change_a" "mem_a"))
  +:+ text_of (render_kuku_block "kuku-decision" (decision "decision_a" "change_a" "yes"))
  +:+ text_of (render_kuku_block "kuku-memory-proposal" (proposal "change_b" "mem_b"))
  +:+ text_of (render_kuku_block "kuku-decision" (decision "decision_b" "change_b" "no"))
  +:+ "Some text between." +:+ lf
  +:+ text_of (render_kuku_block "kuku-memory-proposal" (proposal "change_c" "mem_c"))
  +:+ text_of (render_kuku_block "kuku-decision" (decision "decision_c" "change_c" "yes")).
Definition nodes : list (AbsPath * Node) :=
  [(["v"], Dir); (["v"; "Knowledge"], Dir); (["v"; "Knowledge"; "decisions"], Dir);
   (["v"; "Knowledge"; "memory"], Dir); (["v"; "Knowledge"; "memory"; "mem_old.md"], File "old" 3);
   (["v"; "notes.md"], File "notes" 4); (document_path, File markdown 5)].
Definition fs : Fs := list_to_map nodes.
Definition relative : string := "Knowledge/decisions/auth.md".

Definition ok_of {E A} (d : A) (r : Result E A) : A := match r with Ok a => a | Err _ => d end.
Definition no_document : ParsedDecisionDocument :=
  {| doc_markdown := ""; doc_frontmatter := {| fm_known :=
       {| fk_id := ""; fk_proposal_id := ""; fk_target_kind := ""; fk_request_source := ""; fk_status := "";
          fk_created_at := ""; fk_updated_at := ""; fk_source_refs := [] |}; fm_raw := [] |};
     doc_frontmatter_span := {| r_start := 0; r_end := 0 |}; doc_blocks := [] |}.

Definition doc : ParsedDecisionDocument := Eval vm_compute in ok_of no_document (parse_decision_document markdown).
Definition outcomes : list ZeroWriteOutcome := Eval vm_compute in ok_of [] (collect_decision_outcomes doc).
Definition integrity : DecisionDocumentIntegrity := Eval vm_compute in
  ok_of {| in_doc_id := ""; in_proposal_id := ""; in_yes_memory_paths := []; in_yes_wiki_paths := [] |}
    (validate_decision_document_integrity doc (Some (λ _, false))).
Definition finals : list string := ["Knowledge/memory/mem_a.md"; "Knowledge/memory/mem_c.md"].

#[local] Instance scene : Scene.
Proof.
  refine {| ApplySafety.root := root; ApplySafety.doc_id := "doc_auth"; ApplySafety.document := document_path;
            ApplySafety.finals := finals; ApplySafety.fs0 := fs |}.
  - by split.
  - by exists [], "auth.md".
  - intros path Hp. repeat (apply elem_of_cons in Hp as [->|Hp]); [| |by apply elem_of_nil in Hp];
      [exists "mem_a"|exists "mem_c"]; done.
  - intros q Hq. unfold prefixes in Hq. simpl in Hq. by apply list_elem_of_singleton in Hq as ->.
  - done.
Defined.
Lemma fs_node q v : fs !! q = Some v → (q, v) ∈ nodes.
Proof. apply elem_of_list_to_map_2. Qed.
Lemma clock_texts (P : string → Prop) : P "0Z" → P "1Z" → P "2Z" → P "3Z" → ∀ t, P (format_utc_timestamp t).
Proof.
  intros ? ? ? ? t. unfold format_utc_timestamp. simpl. pose proof (Z.mod_pos_bound t 4 ltac:(done)).
  assert (t `mod` 4 = 0 ∨ t `mod` 4 = 1 ∨ t `mod` 4 = 2 ∨ t `mod` 4 = 3)%Z as [->|[->|[->| ->]]] by lia; done.
Qed.
Definition updated (at_ : string) : string :=
  text_of (render_decision_document (apply_decision_updates doc outcomes "applied" at_)).
Definition planned (at_ : string) : list PlannedMemoryWrite :=
  ok_of [] (plan_memory_writes root doc outcomes relative at_).
Ltac evaluate t := pattern (format_utc_timestamp t); apply clock_texts; vm_compute; reflexivity.
Lemma planned_Ok t : writes_at relative doc outcomes (format_utc_timestamp t) (planned (format_utc_timestamp t)).
Proof. unfold writes_at. evaluate t. Qed.
Lemma updated_Ok t : saved_at doc outcomes (format_utc_timestamp t) (updated (format_utc_timestamp t)).
Proof. unfold saved_at. evaluate t. Qed.
Lemma updated_utf8 t : utf8_valid (updated (format_utc_timestamp t)) = true.
Proof. evaluate t. Qed.
Definition reread (at_ : string) : ParsedDecisionDocument := ok_of no_document (parse_decision_document (updated at_)).
Lemma reread_Ok t : parse_decision_document (updated (format_utc_timestamp t)) = Ok (reread (format_utc_timestamp t)).
Proof. evaluate t. Qed.
Lemma reread_id t : fk_id (known_of (reread (format_utc_timestamp t))) = "doc_auth".
Proof. evaluate t. Qed.
Lemma reread_status t : fk_status (known_of (reread (format_utc_timestamp t))) = status_after outcomes.
Proof. evaluate t. Qed.
Lemma reread_decisions t : decisions_in (reread (format_utc_timestamp t)) =
  resolve_decision outcomes (format_utc_timestamp t) <$> decisions_in doc.
Proof. evaluate t. Qed.

Lemma memory_free name path : is_Some (fs !! (root ++ ["Knowledge"; "memory"; name])) → path ∈ finals →
  eq_ignore_ascii_case name (default "" (last (path_join root path))) = false.
Proof.
  intros [v Hv%fs_node] Hp. simpl in Hv. unfold nodes in Hv.
  assert (Hname : name = "mem_old.md") by (set_unfold; naive_solver). subst name.
  by repeat (apply elem_of_cons in Hp as [->|Hp]); [..|apply elem_of_nil in Hp].
Qed.
Lemma job : Job relative (request markdown) markdown doc outcomes integrity.
Proof.
  split; [vm_compute; reflexivity|vm_compute; reflexivity|done|vm_compute; reflexivity|vm_compute; reflexivity
    |vm_compute; reflexivity|vm_compute; reflexivity|vm_compute; reflexivity|vm_compute; reflexivity|done|done| | | |].
  - by eexists.
  - intros t. eexists. apply planned_Ok.
  - intros t. eexists. split; [apply updated_Ok|]. split; [apply updated_utf8|].
    exists (reread (format_utc_timestamp t)). split; [apply reread_Ok|].
    split; [apply reread_id|]. split; [apply reread_status|]. apply reread_decisions.
  - exact memory_free.
Qed.
Lemma first : untouched markdown fs.
Proof.
  assert (Hnone : ∀ q, q = journal ∨ q ∈ places ∨ scratch q → fs !! q = None).
  { intros q Hq. destruct (fs !! q) as [v|] eqn:Hv; [|done]. exfalso. apply fs_node in Hv.
    assert (Hin : q ∈ nodes.*1) by (apply (list_elem_of_fmap_2 fst) in Hv; exact Hv).
    assert (Hstaging : Forall (λ q : AbsPath, ¬ staging `prefix_of` q) nodes.*1) by (refine (bool_decide_unpack _ _); vm_compute; exact I).
    assert (Hother : Forall (λ q : AbsPath, (q ∉ journal :: journal_tmp :: document_tmp :: places)) nodes.*1)
      by (refine (bool_decide_unpack _ _); vm_compute; exact I).
    apply (proj1 (Forall_forall _ _) Hother q) in Hin as Ho. apply (proj1 (Forall_forall _ _) Hstaging q) in Hin as Hs.
    unfold scratch in Hq. set_unfold. naive_solver. }
  assert (Hdoc : file_at fs document markdown) by by exists 5%Z; vm_compute.
  split_and!; [|apply Hnone; by left|done|intros q Hq; apply Hnone; by right; left].
  change (tidy (@fs0 scene)). apply tidy_first; [|by eapply file_at_is_file|exact Hnone].
  intros q Hq. assert (Hall : Forall (λ q, fs !! q = None ∨ fs !! q = Some Dir) dirs); [|by apply (proj1 (Forall_forall _ _) Hall)].
  repeat (apply Forall_cons; split; [vm_compute; by auto|]). by apply Forall_nil.
Qed.

(** A process that stops at a given step, in the middle of its effect. *)
Definition torn : Residue := {| rs_done := false; rs_text := "to"; rs_gone _ := false |}.
Definition stop_at (k : nat) : Environment :=
  {| fate_at n := if bool_decide (n = k) then Stops torn else Works; time_at n := Z.of_nat n; disk_text := error_text |}.
Abbreviation run env fs := (apply_decision_document_with_locks (H0 := env) root document_path relative
  (request markdown) {| mc_fs := fs; mc_steps := 0 |}).
#[local] Instance stop_at_unfailing k : @Unfailing (stop_at k).
Proof. split. intros n e residue. simpl. by case_bool_decide. Qed.
#[local] Instance calm_unfailing : @Unfailing calm.
Proof. by split. Qed.
Lemma stopped_run {E A} (o : Outcome E A * Machine) : fst o = Stopped → o = (Stopped, snd o).
Proof. by destruct o as [? ?]; intros [= ->]. Qed.

(** A first process stops between a file and its journal, a second one when it has
    removed that file again. *)
Definition fs1 : Fs := mc_fs (snd (run (stop_at 44) fs)).
Definition fs2 : Fs := mc_fs (snd (run (stop_at 5) fs1)).
Example stops_between :
  bool_decide (is_Some (fs1 !! ["v"; "Knowledge"; "memory"; "mem_a.md"])) = true ∧
  fs2 !! ["v"; "Knowledge"; "memory"; "mem_a.md"] = None.
Proof. by split; vm_compute. Qed.
Lemma first_stop : fst (run (stop_at 44) fs) = Stopped.
Proof. by vm_compute. Qed.
Lemma second_stop : fst (run (stop_at 5) fs1) = Stopped.
Proof. by vm_compute. Qed.
Abbreviation interrupted_to := (interrupted relative (request markdown) fs).
Lemma once_more env fs' : @Unfailing env → interrupted_to fs' → fst (run env fs') = Stopped →
  interrupted_to (mc_fs (snd (run env fs'))).
Proof.
  intros Hun Hint Hstop. exact (interrupted_again _ _ _ env fs' 0 _ Hun Hint (stopped_run _ Hstop)).
Qed.
Lemma twice_interrupted : interrupted_to fs2.
Proof.
  exact (once_more _ _ (stop_at_unfailing 5)
    (once_more _ _ (stop_at_unfailing 44) (not_interrupted _ _ fs) first_stop) second_stop).
Qed.
Lemma calm_goes_on : ¬ @stops calm.
Proof. intros (n & residue & Hn). discriminate Hn. Qed.
Lemma interrupted_application_witness :
  ∃ r m, run calm fs2 = (Returned r, m) ∧ completed relative doc outcomes (mc_fs m) ∧ answers doc outcomes fs2 r.
Proof.
  exact (interrupted_application_completes relative (request markdown) markdown doc outcomes integrity job calm
           fs fs2 0 first twice_interrupted calm_unfailing calm_goes_on).
Defined.
Lemma interrupted_disk_witness :
  ∃ at_ ws, writes_at relative doc outcomes at_ ws ∧
    (file_at fs2 document_path markdown ∨ ((∃ text, saved_at doc outcomes at_ text ∧ file_at fs2 document_path text) ∧ published ws fs2)) ∧
    (∀ w, w ∈ ws → fs2 !! place w = None ∨ file_at fs2 (place w) (pw_bytes w)) ∧
    ∀ q, (q ∉ dirs) → q ≠ document_path → q ≠ journal → (q ∉ places) → ¬ scratch q → fs2 !! q = fs !! q.
Proof.
  exact (interrupted_disk_consistent relative (request markdown) markdown doc outcomes integrity job fs fs2 first
           twice_interrupted).
Defined.

Lemma planned_writes_witness :
  let ws := planned "1Z" in
  pw_final_path <$> ws = finals ∧ NoDup (pw_final_path <$> ws) ∧
  (∀ path f, path ∈ pw_final_path <$> ws → Some (existing_under root fs) = Some f → f path = false) ∧
  ∀ w, w ∈ ws → is_valid_knowledge_id (pw_memory_id w) = true ∧
    path_join root (pw_final_path w) = root ++ ["Knowledge"; "memory"; pw_memory_id w +:+ ".md"] ∧
    pw_checksum w = sha256_checksum_bytes (pw_bytes w).
Proof.
  apply (planned_writes_validated root doc (Some (existing_under root fs)) integrity outcomes relative "1Z" (planned "1Z")).
  - vm_compute. reflexivity.
  - vm_compute. reflexivity.
  - vm_compute. reflexivity.
  - vm_compute. reflexivity.
Defined.

(** ** A failing call

    When the system reports an error while a later file is published, the files
    published before stay, and the journal that knows of them is removed: the
    document cannot be applied any more. *)
Definition fail_at (k : nat) : Environment :=
  {| fate_at n := if bool_decide (n = k) then Fails (DiskOther "I/O error") torn else Works;
     time_at n := Z.of_nat n; disk_text := error_text |}.
Definition says {A} (o : Outcome ApplyServiceError A) : string :=
  match o with Returned (Ok _) => "done" | Returned (Err e) => ae_message e | Stopped => "stopped" end.
Example failed_publish_strands :
  let m := snd (run (fail_at 62) fs) in
  says (fst (run (fail_at 62) fs)) = "I/O error" ∧ mc_fs m !! journal = None ∧
  bool_decide (is_Some (mc_fs m !! ["v"; "Knowledge"; "memory"; "mem_a.md"])) = true ∧
  says (fst (run calm (mc_fs m))) = "Memory output path already exists: Knowledge/memory/mem_a.md".
Proof. by vm_compute. Qed.
End Interrupted.

(** ** An update of a wiki page *)
Module Wiki.
Import Interrupted.
#[local] Existing Instance coarse | 0.
Definition page_path : string := "Knowledge/wiki/concepts/auth.md".
Definition page_text : string := ok_of "" (serialize_wiki_page
  {| wp_id := "wiki_auth"; wp_page_type := TypeConcept; wp_title := "Auth"; wp_status := WikiActive; wp_tags := [];
     wp_source_refs := []; wp_created_at := "1Z"; wp_updated_at := "1Z"; wp_proposal_id := "prop_old";
     wp_decision_document := "Knowledge/decisions/old.md"; wp_body := "Old body" |}).
Definition update : WikiProposalBlock :=
  {| wb_id := "change_a"; wb_operation := "update_wiki_page";
     wb_page := {| pp_path := page_path; pp_expected_checksum := Some (sha256_checksum_bytes page_text);
                   pp_page_type := "concept"; pp_title := "Auth"; pp_tags := []; pp_body := "New body";
                   pp_source_refs := [] |} |}.
Definition markdown : string :=
  front "wiki" +:+ "# An update" +:+ lf
  +:+ text_of (render_kuku_block "kuku-wiki-proposal" update)
  +:+ text_of (render_kuku_block "kuku-decision" (decision "decision_a" "change_a" "yes")).
Definition page : AbsPath := ["v"; "Knowledge"; "wiki"; "concepts"; "auth.md"].
Definition fs : Fs := list_to_map
  [(["v"], Dir); (["v"; "Knowledge"], Dir); (["v"; "Knowledge"; "decisions"], Dir);
   (["v"; "Knowledge"; "wiki"], Dir); (["v"; "Knowledge"; "wiki"; "concepts"], Dir);
   (page, File page_text 3); (document_path, File markdown 5)].
Abbreviation run env fs := (apply_decision_document_with_locks (H0 := env) root document_path relative
  (request markdown) {| mc_fs := fs; mc_steps := 0 |}).
Definition page_at (m : Machine) : string :=
  match mc_fs m !! page with Some (File text _) => text | _ => "" end.
Definition journal_file : AbsPath := journal_path root "doc_auth".

Example update_applies : says (fst (run calm fs)) = "done" ∧ page_at (snd (run calm fs)) ≠ page_text.
Proof. by vm_compute. Qed.
(** A stop after the page was replaced and the journal says so: the next application
    takes the journal for one that published nothing, removes it, and then finds the
    page changed. *)
Example updated_page_forgotten :
  let m := snd (run (stop_at 44) fs) in let m' := snd (run calm (mc_fs m)) in
  fst (run (stop_at 44) fs) = Stopped ∧ page_at m ≠ page_text ∧
  says (fst (run calm (mc_fs m))) = "Wiki page changed before apply: Knowledge/wiki/concepts/auth.md" ∧
  page_at m' = page_at m ∧ mc_fs m' !! journal_file = None.
Proof. by vm_compute. Qed.
(** A stop before the page was replaced: the untouched page is taken for a foreign
    change and the journal asks for manual recovery. *)
Example untouched_page_mistaken :
  let m := snd (run (stop_at 28) fs) in let m' := snd (run calm (mc_fs m)) in
  fst (run (stop_at 28) fs) = Stopped ∧ page_at m = page_text ∧
  says (fst (run calm (mc_fs m))) = "Inflight publish checksum mismatch: Knowledge/wiki/concepts/auth.md" ∧
  says (fst (run calm (mc_fs m'))) = "Apply journal requires manual cleanup".
Proof. by vm_compute. Qed.
End Wiki.
