(* ===== verification/Chars.v ===== *)
(** * Texts as sequences of characters

    A Rust [char] is its code point, a [String] taken apart with [chars] is the
    list of them, and the bytes of a string are their UTF-8 encodings. *)
From Stdlib Require Import Ascii String.
From S2P Require Import Prelude Text.

(** ** Encoding *)

Definition byte_at (base n : N) : ascii := ascii_of_N (base + n).
(** [char::encode_utf8] *)
Definition encode_char (c : N) : string :=
  (if c <? 128 then String (byte_at 0 c) EmptyString
   else if c <? 2048 then String (byte_at 192 (c / 64)) (String (byte_at 128 (c mod 64)) EmptyString)
   else if c <? 65536 then
     String (byte_at 224 (c / 4096)) (String (byte_at 128 (c / 64 mod 64)) (String (byte_at 128 (c mod 64)) EmptyString))
   else
     String (byte_at 240 (c / 262144)) (String (byte_at 128 (c / 4096 mod 64))
       (String (byte_at 128 (c / 64 mod 64)) (String (byte_at 128 (c mod 64)) EmptyString))))%N.
(** [chars.iter().collect::<String>()] *)
Definition from_chars (l : list N) : string := str_concat (encode_char <$> l).
(** [s.chars()], on valid UTF-8 *)
Fixpoint chars (s : string) : list N :=
  let low b := (ascii_code b - 128)%N in
  match s with
  | EmptyString => []
  | String a s1 =>
      if in_range 0 127 a then ascii_code a :: chars s1 else
      match s1 with
      | EmptyString => []
      | String b s2 =>
          if (ascii_code a <? 224)%N then ((ascii_code a - 192) * 64 + low b)%N :: chars s2 else
          match s2 with
          | EmptyString => []
          | String c s3 =>
              if (ascii_code a <? 240)%N then ((ascii_code a - 224) * 4096 + low b * 64 + low c)%N :: chars s3 else
              match s3 with
              | EmptyString => []
              | String d s4 =>
                  ((ascii_code a - 240) * 262144 + low b * 4096 + low c * 64 + low d)%N :: chars s4
              end
          end
      end
  end.
(** The Unicode scalar values, which are the values of [char] *)
Definition is_char (c : N) : bool := ((c <? 55296) || ((57344 <=? c) && (c <? 1114112)))%N.

#[local] Ltac Zify.zify_post_hook ::= Z.to_euclidean_division_equations.
Lemma ascii_code_byte base n : (base + n < 256)%N → ascii_code (byte_at base n) = (base + n)%N.
Proof. intros Hn. unfold ascii_code, byte_at. by apply N_ascii_embedding. Qed.
Lemma byte_of_code a base n : ascii_code a = (base + n)%N → byte_at base n = a.
Proof. unfold ascii_code, byte_at. intros <-. apply ascii_N_embedding. Qed.
Lemma ascii_code_bound a : (ascii_code a < 256)%N.
Proof. apply N_ascii_bounded. Qed.
Lemma in_range_true lo hi a : in_range lo hi a = true ↔ (lo ≤ ascii_code a ≤ hi)%N.
Proof. unfold in_range. by rewrite andb_true_iff, !N.leb_le. Qed.
Lemma in_range_false lo hi a : (ascii_code a < lo ∨ hi < ascii_code a)%N → in_range lo hi a = false.
Proof. intros H. apply not_true_is_false. rewrite in_range_true. lia. Qed.
Lemma is_char_max c : is_char c = true → (c < 1114112)%N.
Proof.
  unfold is_char. rewrite orb_true_iff, andb_true_iff, !N.ltb_lt, N.leb_le. lia.
Qed.

(** The four forms of an encoded character *)
Inductive Encoded (c : N) : string → Prop :=
| one_byte a : ascii_code a = c → (c < 128)%N → Encoded c (String a "")
| two_bytes a b : ascii_code a = (192 + c / 64)%N → ascii_code b = (128 + c mod 64)%N →
    (128 ≤ c < 2048)%N → Encoded c (String a (String b ""))
| three_bytes a b d : ascii_code a = (224 + c / 4096)%N → ascii_code b = (128 + c / 64 mod 64)%N →
    ascii_code d = (128 + c mod 64)%N → (2048 ≤ c < 65536)%N → Encoded c (String a (String b (String d "")))
| four_bytes a b d e : ascii_code a = (240 + c / 262144)%N → ascii_code b = (128 + c / 4096 mod 64)%N →
    ascii_code d = (128 + c / 64 mod 64)%N → ascii_code e = (128 + c mod 64)%N → (65536 ≤ c)%N →
    Encoded c (String a (String b (String d (String e "")))).
Lemma encode_char_form c : is_char c = true → Encoded c (encode_char c).
Proof.
  intros Hc%is_char_max. unfold encode_char.
  destruct (N.ltb_spec c 128); [|destruct (N.ltb_spec c 2048); [|destruct (N.ltb_spec c 65536)]].
  - constructor; [|done]. by rewrite ascii_code_byte by lia.
  - constructor; [rewrite ascii_code_byte; lia..|lia].
  - constructor; [rewrite ascii_code_byte; lia..|lia].
  - constructor; [rewrite ascii_code_byte; lia..|lia].
Qed.
Lemma chars_encode c s : is_char c = true → chars (encode_char c +:+ s) = c :: chars s.
Proof.
  intros Hc. pose proof (is_char_max c Hc) as Hmax.
  destruct (encode_char_form c Hc) as [a Ha Hr|a b Ha Hb Hr|a b d Ha Hb Hd Hr|a b d e Ha Hb Hd He Hr];
    rewrite !str_app_cons; change ("" +:+ s) with s; cbn [chars].
  - rewrite (proj2 (in_range_true 0 127 a)) by lia. by rewrite Ha.
  - rewrite in_range_false by lia. destruct (N.ltb_spec (ascii_code a) 224) as [_|?]; [|lia].
    f_equal. rewrite Ha, Hb. lia.
  - rewrite in_range_false by lia. destruct (N.ltb_spec (ascii_code a) 224); [lia|].
    destruct (N.ltb_spec (ascii_code a) 240) as [_|?]; [|lia]. f_equal. rewrite Ha, Hb, Hd. lia.
  - rewrite in_range_false by lia. destruct (N.ltb_spec (ascii_code a) 224); [lia|].
    destruct (N.ltb_spec (ascii_code a) 240); [lia|]. f_equal. rewrite Ha, Hb, Hd, He. lia.
Qed.
Lemma ascii_code_inj a b : ascii_code a = ascii_code b → a = b.
Proof. unfold ascii_code. intros H. rewrite <- (ascii_N_embedding a), <- (ascii_N_embedding b). by rewrite H. Qed.
Lemma Encoded_encode c s : is_char c = true → Encoded c s → s = encode_char c.
Proof.
  intros Hc Hs. destruct (encode_char_form c Hc); destruct Hs; try lia.
  all: repeat (apply (f_equal2 String); [apply ascii_code_inj; congruence|]); done.
Qed.

(** Valid UTF-8 is a sequence of encoded characters. *)
Lemma utf8_first s : utf8_valid s = true →
  s = "" ∨ ∃ c s', is_char c = true ∧ s = encode_char c +:+ s' ∧ utf8_valid s' = true.
Proof.
  destruct s as [|a s1]; [by left|]. intros Hv. right. cbn [utf8_valid] in Hv.
  assert (Hform : ∃ c s' t, Encoded c t ∧ is_char c = true ∧ String a s1 = t +:+ s' ∧ utf8_valid s' = true).
  { destruct (in_range 0 127 a) eqn:Ha.
    { apply in_range_true in Ha. exists (ascii_code a), s1, (String a "").
      split; [by constructor; lia|]. split; [|done]. unfold is_char. destruct (N.ltb_spec (ascii_code a) 55296); [done|lia]. }
    destruct s1 as [|b s2]; [done|]. destruct (in_range 194 223 a && utf8_cont b) eqn:Hab.
    { apply andb_true_iff in Hab as [Ha2 Hb]. unfold utf8_cont in Hb. rewrite !in_range_true in *.
      set (c := ((ascii_code a - 192) * 64 + (ascii_code b - 128))%N).
      exists c, s2, (String a (String b "")). split; [constructor; unfold c; lia|]. split; [|done].
      unfold is_char. destruct (N.ltb_spec c 55296); [done|unfold c in *; lia]. }
    destruct s2 as [|d s3]; [done|]. destruct (utf8_second_of_3 a b && utf8_cont d) eqn:Habd.
    { apply andb_true_iff in Habd as [Hab3 Hd]. unfold utf8_second_of_3, utf8_cont in *. cbv zeta in Hab3.
      set (c := ((ascii_code a - 224) * 4096 + (ascii_code b - 128) * 64 + (ascii_code d - 128))%N).
      assert (Hr : (2048 ≤ c < 65536 ∧ 224 ≤ ascii_code a ≤ 239 ∧ 128 ≤ ascii_code b ≤ 191 ∧ 128 ≤ ascii_code d ≤ 191
                 ∧ (c < 55296 ∨ 57344 ≤ c))%N).
      { unfold c. rewrite in_range_true in Hd.
        destruct (N.eqb_spec (ascii_code a) 224); [rewrite in_range_true in Hab3; lia|].
        destruct (N.eqb_spec (ascii_code a) 237); [rewrite in_range_true in Hab3; lia|].
        rewrite andb_true_iff, !in_range_true in Hab3. lia. }
      exists c, s3, (String a (String b (String d ""))). split; [constructor; try lia; unfold c; lia|]. split; [|done].
      unfold is_char. rewrite orb_true_iff, andb_true_iff, !N.ltb_lt, N.leb_le. lia. }
    destruct s3 as [|e s4]; [done|]. rewrite !andb_true_iff in Hv. destruct Hv as [[[Hab4 Hd] He] Hv].
    unfold utf8_second_of_4, utf8_cont in *. cbv zeta in Hab4. rewrite !in_range_true in Hd, He.
    set (c := ((ascii_code a - 240) * 262144 + (ascii_code b - 128) * 4096 + (ascii_code d - 128) * 64 + (ascii_code e - 128))%N).
    assert (Hr : (65536 ≤ c < 1114112 ∧ 240 ≤ ascii_code a ≤ 244 ∧ 128 ≤ ascii_code b ≤ 191)%N).
    { unfold c. destruct (N.eqb_spec (ascii_code a) 240); [rewrite in_range_true in Hab4; lia|].
      destruct (N.eqb_spec (ascii_code a) 244); [rewrite in_range_true in Hab4; lia|].
      rewrite andb_true_iff, !in_range_true in Hab4. lia. }
    exists c, s4, (String a (String b (String d (String e "")))).
    split; [constructor; try lia; unfold c; lia|]. split; [|done].
    unfold is_char. rewrite orb_true_iff, andb_true_iff, !N.ltb_lt, N.leb_le. lia. }
  destruct Hform as (c & s' & t & Ht & Hc & Heq & Hs'). exists c, s'. by rewrite <- (Encoded_encode c t Hc Ht).
Qed.
Lemma from_chars_cons c l : from_chars (c :: l) = encode_char c +:+ from_chars l.
Proof. done. Qed.
Lemma utf8_ind (P : string → Prop) :
  P "" → (∀ c s, is_char c = true → utf8_valid s = true → P s → P (encode_char c +:+ s)) →
  ∀ s, utf8_valid s = true → P s.
Proof.
  intros Hnil Hcons s. remember (String.length s) as n eqn:Hn. revert s Hn.
  induction (lt_wf n) as [n _ IH]. intros s -> Hv. destruct (utf8_first s Hv) as [->|(c & s' & Hc & -> & Hs')]; [done|].
  apply Hcons; [done..|]. apply (IH (String.length s')); [|done..]. rewrite str_app_length.
  destruct (encode_char_form c Hc); simpl; lia.
Qed.
(** A string and its characters determine each other. *)
Lemma from_chars_chars s : utf8_valid s = true → from_chars (chars s) = s.
Proof.
  revert s. apply (utf8_ind (λ s, from_chars (chars s) = s)); [done|].
  intros c s' Hc _ IH. by rewrite chars_encode, from_chars_cons, IH.
Qed.
Lemma chars_from_chars l : Forall (λ c, is_char c = true) l → chars (from_chars l) = l.
Proof. induction 1 as [|c l Hc _ IH]; [done|]. by rewrite from_chars_cons, chars_encode, IH. Qed.
Lemma chars_valid s : utf8_valid s = true → Forall (λ c, is_char c = true) (chars s).
Proof.
  revert s. apply (utf8_ind (λ s, Forall (λ c, is_char c = true) (chars s))); [constructor|].
  intros c s' Hc _ IH. rewrite chars_encode by done. by constructor.
Qed.
