(* ===== verification/Indexer.v ===== *)
(** * Texts for the search index (crates/kuku-indexer)

    What the index stores of a note: normalized texts, chunks of bounded size that
    overlap, snippets around a match, and the plan of a query. Texts are sequences of
    characters, as the code takes them apart. *)
From Stdlib Require Import Ascii String.
#[local] Set Warnings "-clear-no-such-hyp".
From S2P Require Import Prelude Text Chars.

(** ** Characters *)

Abbreviation text := (list N).
(** [char::is_whitespace], which is the class [\s] of a regular expression *)
Definition is_whitespace (c : N) : bool :=
  (((9 <=? c) && (c <=? 13)) || (c =? 32) || (c =? 133) || (c =? 160) || (c =? 5760)
   || ((8192 <=? c) && (c <=? 8202)) || (c =? 8232) || (c =? 8233) || (c =? 8239) || (c =? 8287)
   || (c =? 12288))%N.
Fixpoint drop_whitespace (t : text) : text :=
  match t with c :: t' => if is_whitespace c then drop_whitespace t' else t | [] => [] end.
(** [str::trim] *)
Definition trim_text (t : text) : text := reverse (drop_whitespace (reverse (drop_whitespace t))).
(** [&chars[a..b]], which panics out of range *)
Definition slice {A} (a b : nat) (l : list A) : list A := take (b - a) (drop a l).
Definition slice_checked {A} (a b : nat) (l : list A) : option (list A) :=
  if (a <=? b) && (b <=? length l) then Some (slice a b l) else None.

(** [char::is_alphanumeric] *)
Class Alphabet := { is_alphanumeric : N → bool }.

(** ** Normalization (normalize.rs) *)

Section normalize.
Context `{Unicode}.

(** [str::to_lowercase] *)
Definition lowercase (t : text) : text := chars (to_lowercase (from_chars t)).
(** [WHITESPACE_REGEX.replace_all(_, " ")]: a space for each run *)
Fixpoint collapse (in_run : bool) (t : text) : text :=
  match t with
  | [] => []
  | c :: t =>
      if is_whitespace c then if in_run then collapse true t else 32%N :: collapse true t
      else c :: collapse false t
  end.
Definition normalize_text (input : text) : text := lowercase (collapse false (trim_text input)).
End normalize.

Definition is_cjk_char (c : N) : bool :=
  (((11904 <=? c) && (c <=? 40959)) || ((44032 <=? c) && (c <=? 55215)) || ((63744 <=? c) && (c <=? 64255))
   || ((131072 <=? c) && (c <=? 195103)))%N.
Definition contains_cjk (t : text) : bool := existsb is_cjk_char t.

(** ** Chunks (chunk.rs) *)

Definition CHUNK_MAX_CHARS : nat := 1000.
Definition CHUNK_OVERLAP_CHARS : nat := 100.
Definition TARGET_SPLIT_CHARS : nat := 850.
Definition is_boundary (c : N) : bool :=
  existsb (N.eqb c) [10; 46; 33; 63; 12290; 65281; 65311]%N.

Definition boundary_before (cs : text) (idx : nat) : bool :=
  match cs !! (idx - 1) with Some c => is_boundary c | None => false end.
(** [for idx in (lo..hi).rev()]: the last one after a boundary *)
Definition last_boundary (cs : text) (lo hi : nat) : option nat :=
  List.find (boundary_before cs) (reverse (seq lo (hi - lo))).
Definition chunk_end (cs : text) (start : nat) : nat :=
  let upper := Nat.min (start + CHUNK_MAX_CHARS) (length cs) in
  if upper <? length cs then
    let target := Nat.min (start + TARGET_SPLIT_CHARS) upper in
    let boundary :=
      match last_boundary cs target upper with
      | Some idx => Some idx
      | None => last_boundary cs (Nat.min (start + (CHUNK_OVERLAP_CHARS + 1)) target) target
      end in
    default upper boundary
  else upper.
Definition chunk_next (start end_ : nat) : nat :=
  let next := end_ - CHUNK_OVERLAP_CHARS in if next <=? start then end_ else next.
Definition push_part (parts : list text) (part : text) : list text :=
  match part with [] => parts | _ => parts ++ [part] end.
Fixpoint chunk_loop (fuel : nat) (cs : text) (start : nat) (parts : list text) : option (list text) :=
  match fuel with
  | O => None
  | S fuel =>
      if negb (start <? length cs) then Some parts else
      let end_ := chunk_end cs start in
      let parts := push_part parts (trim_text (slice start end_ cs)) in
      if end_ =? length cs then Some parts else chunk_loop fuel cs (chunk_next start end_) parts
  end.
Definition split_chunk_text (input : text) : list text :=
  if length input <=? CHUNK_MAX_CHARS then [trim_text input]
  else default [] (chunk_loop (S (length input)) input 0 []).

(** ** Snippets (snippet.rs) *)

Definition SNIPPET_RADIUS : nat := 80.
Definition ellipsis : N := 8230.
Fixpoint is_prefix (p t : text) : bool :=
  match p, t with
  | [], _ => true
  | a :: p, b :: t => N.eqb a b && is_prefix p t
  | _ :: _, [] => false
  end.
(** The characters before the first occurrence: [lowered[..byte_idx].chars().count()] *)
Fixpoint find_text (needle t : text) : option nat :=
  if is_prefix needle t then Some 0
  else match t with [] => None | _ :: t => S <$> find_text needle t end.
Definition with_ellipses (start end_ len : nat) (snippet : text) : text :=
  (if 0 <? start then [ellipsis] else []) ++ snippet ++ (if end_ <? len then [ellipsis] else []).

(** [None] is a panic. *)
Definition build_snippet `{Unicode} (raw_text query : text) : option text :=
  let raw_chars := trim_text raw_text in
  match raw_chars with
  | [] => Some []
  | _ =>
      let normalized_query := normalize_text query in
      match normalized_query with
      | [] => Some (take (SNIPPET_RADIUS * 2) raw_chars)
      | _ =>
          match find_text normalized_query (lowercase raw_chars) with
          | Some prefix_chars =>
              let start := prefix_chars - SNIPPET_RADIUS in
              let end_ := Nat.min (prefix_chars + length normalized_query + SNIPPET_RADIUS) (length raw_chars) in
              with_ellipses start end_ (length raw_chars) <$> slice_checked start end_ raw_chars
          | None =>
              Some (take (SNIPPET_RADIUS * 2) raw_chars
                    ++ (if SNIPPET_RADIUS * 2 <? length raw_chars then [ellipsis] else []))
          end
      end
  end.

(** [char::len_utf8] *)
Definition len_utf8 (c : N) : nat := String.length (encode_char c).
Definition byte_length (t : text) : nat := sum_list (len_utf8 <$> t).
(** [text[..snap_to_char_boundary(text, byte)].chars().count()]: the characters that
    end at or before the byte *)
Fixpoint chars_before (t : text) (byte : nat) : nat :=
  match t with
  | [] => 0
  | c :: t => if len_utf8 c <=? byte then S (chars_before t (byte - len_utf8 c)) else 0
  end.
Definition build_snippet_for_range (raw_text : text) (start_byte end_byte : nat) : option text :=
  let trimmed := trim_text raw_text in
  match trimmed with
  | [] => Some []
  | _ =>
      let start := chars_before trimmed (Nat.min start_byte (byte_length trimmed)) in
      let clamped_start := byte_length (take start trimmed) in
      let end_ := chars_before trimmed (Nat.min (Nat.max end_byte clamped_start) (byte_length trimmed)) in
      let snippet_start := start - SNIPPET_RADIUS in
      let snippet_end := Nat.min (end_ + SNIPPET_RADIUS) (length trimmed) in
      with_ellipses snippet_start snippet_end (length trimmed)
        <$> slice_checked snippet_start snippet_end trimmed
  end.

(** ** Queries (plan.rs) *)

Inductive QueryRoute := RouteNone | MetadataOnly | MetadataAndBody.
#[export] Instance QueryRoute_eq_dec : EqDecision QueryRoute.
Proof. solve_decision. Defined.
Record SimpleQueryPlan := { original_query : text; normalized_query : text; route : QueryRoute }.

Section query.
Context `{Unicode, Alphabet}.

Definition is_query_token_char (c : N) : bool := is_alphanumeric c || is_cjk_char c.
Fixpoint tokenize (current : text) (input : text) : list text :=
  match input with
  | [] => match current with [] => [] | _ => [current] end
  | c :: input =>
      if is_query_token_char c then tokenize (current ++ [c]) input
      else match current with [] => tokenize [] input | _ => current :: tokenize [] input end
  end.
Definition tokenize_query_terms (input : text) : list text := tokenize [] input.

Definition plan_simple_query (query : text) : SimpleQueryPlan :=
  let trimmed := trim_text query in
  match trimmed with
  | [] => {| original_query := []; normalized_query := []; route := RouteNone |}
  | _ =>
      let normalized := normalize_text trimmed in
      let char_count := length trimmed in
      {| original_query := trimmed; normalized_query := normalized;
         route :=
           if char_count =? 1 then MetadataOnly
           else if contains_cjk trimmed then if 2 <=? char_count then MetadataAndBody else MetadataOnly
           else if 4 <=? length (List.filter (λ c, negb (c =? 32)%N) normalized) then MetadataAndBody
           else MetadataOnly |}
  end.
Definition join_texts (sep : text) (l : list text) : text :=
  match l with [] => [] | t :: l => t ++ concat ((app sep) <$> l) end.
Definition build_fts_query (plan : SimpleQueryPlan) : option text :=
  if negb (bool_decide (route plan = MetadataAndBody)) then None
  else match tokenize_query_terms (normalized_query plan) with
       | [] => None
       | tokens => Some (join_texts [32%N] ((λ token, token ++ [42%N]) <$> tokens))
       end.
End query.

(** ** Chunks cover the text *)

Lemma last_boundary_Some cs lo hi idx : last_boundary cs lo hi = Some idx →
  lo ≤ idx < hi ∧ boundary_before cs idx = true ∧ ∀ i, idx < i < hi → boundary_before cs i = false.
Proof.
  unfold last_boundary. destruct (decide (lo ≤ hi)) as [Hle|Hgt].
  2:{ replace (hi - lo) with 0 by lia. done. }
  assert (Hn : ∃ n, hi = lo + n) by (exists (hi - lo); lia). destruct Hn as [n ->].
  replace (lo + n - lo) with n by lia. clear Hle. induction n as [|n IH]; [done|].
  rewrite seq_S, reverse_snoc. simpl. destruct (boundary_before cs (lo + n)) eqn:Hb.
  - intros [= <-]. split_and!; [lia..|done|]. intros i Hi. lia.
  - intros (Hr & Hb' & Hno)%IH. split_and!; [lia..|done|]. intros i Hi.
    destruct (decide (i = lo + n)) as [->|]; [done|]. apply Hno. lia.
Qed.
Lemma last_boundary_None cs lo hi : last_boundary cs lo hi = None →
  ∀ i, lo ≤ i < hi → boundary_before cs i = false.
Proof.
  unfold last_boundary. intros Hf i Hi. eapply find_none in Hf; [exact Hf|].
  apply list_elem_of_In, elem_of_reverse, elem_of_seq. lia.
Qed.
(** Where a chunk ends. *)
Lemma chunk_end_bounds cs start : start < length cs →
  start < chunk_end cs start ≤ Nat.min (start + CHUNK_MAX_CHARS) (length cs) ∧
  (chunk_end cs start < length cs → start + CHUNK_OVERLAP_CHARS < chunk_end cs start).
Proof.
  intros Hs. unfold chunk_end, CHUNK_MAX_CHARS, TARGET_SPLIT_CHARS, CHUNK_OVERLAP_CHARS. cbv zeta.
  destruct (Nat.ltb_spec (Nat.min (start + 1000) (length cs)) (length cs)) as [Hlt|Hge]; [|lia].
  destruct (last_boundary cs _ _) as [idx|] eqn:Hb; simpl.
  { apply last_boundary_Some in Hb as (Hr & _). lia. }
  destruct (last_boundary cs _ (Nat.min (start + 850) _)) as [idx|] eqn:Hb'; simpl; [|lia].
  apply last_boundary_Some in Hb' as (Hr & _). lia.
Qed.
Lemma chunk_next_bounds cs start : start < length cs → chunk_end cs start < length cs →
  chunk_next start (chunk_end cs start) = chunk_end cs start - CHUNK_OVERLAP_CHARS ∧
  start < chunk_next start (chunk_end cs start) < chunk_end cs start.
Proof.
  intros Hs He. destruct (chunk_end_bounds cs start Hs) as [Hb Ho]. specialize (Ho He).
  unfold chunk_next. cbv zeta. destruct (Nat.leb_spec (chunk_end cs start - CHUNK_OVERLAP_CHARS) start); [lia|].
  unfold CHUNK_OVERLAP_CHARS in *. lia.
Qed.

(** The windows of the chunks from a start on *)
Inductive Windows (cs : text) : nat → list (nat * nat) → Prop :=
| last_window start : start < length cs → chunk_end cs start = length cs → Windows cs start [(start, length cs)]
| next_window start ws :
    start < length cs → chunk_end cs start < length cs → Windows cs (chunk_end cs start - CHUNK_OVERLAP_CHARS) ws →
    Windows cs start ((start, chunk_end cs start) :: ws).
Definition window (cs : text) (w : nat * nat) : text := trim_text (slice w.1 w.2 cs).

Lemma chunk_loop_windows cs fuel start parts : start < length cs → length cs - start < fuel →
  ∃ ws, Windows cs start ws ∧ chunk_loop fuel cs start parts = Some (foldl push_part parts (window cs <$> ws)).
Proof.
  revert start parts. induction fuel as [|fuel IH]; intros start parts Hs Hf; [lia|].
  destruct (chunk_end_bounds cs start Hs) as [Hb Ho]. cbn [chunk_loop].
  destruct (Nat.ltb_spec start (length cs)); [|lia]. cbn [negb]. cbv zeta.
  destruct (Nat.eqb_spec (chunk_end cs start) (length cs)) as [He|He].
  - exists [(start, length cs)]. split; [by constructor|]. by rewrite He.
  - destruct (chunk_next_bounds cs start Hs) as [Hn Hr]; [lia|].
    destruct (IH (chunk_next start (chunk_end cs start)) (push_part parts (window cs (start, chunk_end cs start))))
      as (ws & Hws & Hl); [lia..|].
    exists ((start, chunk_end cs start) :: ws). split; [|exact Hl].
    rewrite Hn in Hws. constructor; [done|lia|done].
Qed.
Lemma foldl_push_part parts l : foldl push_part parts l = parts ++ filter (λ t, t ≠ []) l.
Proof.
  revert parts. induction l as [|t l IH]; intros parts; [by rewrite app_nil_r|]. cbn [foldl]. rewrite IH.
  destruct t as [|c t]; [by rewrite filter_cons_False by naive_solver|].
  rewrite filter_cons_True by done. cbn [push_part]. by rewrite <- app_assoc.
Qed.
Lemma Windows_cover cs start ws i : Windows cs start ws → start ≤ i < length cs → ∃ w, w ∈ ws ∧ w.1 ≤ i < w.2.
Proof.
  intros Hws. induction Hws as [start Hs He|start ws Hs He _ IH]; intros Hi.
  - exists (start, length cs). split; [by left|]. simpl. lia.
  - destruct (decide (i < chunk_end cs start)).
    + exists (start, chunk_end cs start). split; [by left|]. simpl. lia.
    + destruct IH as (w & Hw & Hr); [unfold CHUNK_OVERLAP_CHARS in *; lia|]. exists w. split; [by right|done].
Qed.
Lemma Windows_bounded cs start ws w : Windows cs start ws → w ∈ ws → w.1 < w.2 ≤ length cs ∧ w.2 - w.1 ≤ CHUNK_MAX_CHARS.
Proof.
  intros Hws. induction Hws as [start Hs He|start ws Hs He _ IH].
  - intros ->%list_elem_of_singleton. destruct (chunk_end_bounds cs start Hs) as [Hb _]. simpl. lia.
  - intros [->|Hw]%elem_of_cons; [|by apply IH]. destruct (chunk_end_bounds cs start Hs) as [Hb _]. simpl. lia.
Qed.
(** Consecutive windows share exactly the overlap. *)
Lemma Windows_overlap cs start ws i w w' :
  Windows cs start ws → ws !! i = Some w → ws !! S i = Some w' → w.1 < w'.1 ∧ w.2 < w'.2 ∧ w'.1 + CHUNK_OVERLAP_CHARS = w.2.
Proof.
  intros Hws. revert i. induction Hws as [start Hs He|start ws Hs He Hws IH]; intros i Hi Hi'; [by destruct i|].
  destruct i as [|i]; [|by apply (IH i)]. injection Hi as <-. simpl in Hi'.
  destruct (chunk_end_bounds cs start Hs) as [Hb Ho]. specialize (Ho He). unfold CHUNK_OVERLAP_CHARS in *.
  assert (Hs' : chunk_end cs start - 100 < length cs) by lia.
  destruct (chunk_end_bounds cs _ Hs') as [Hb' Ho']. unfold CHUNK_OVERLAP_CHARS in *.
  inversion Hws as [? _ He'|? ws' _ He' _]; subst; injection Hi' as <-; simpl; lia.
Qed.

(** Two steps make good progress: a chunk that ends early leaves no boundary for the
    next one to end early at. *)
Lemma chunk_end_cases cs start : start < length cs → chunk_end cs start < length cs →
  start + TARGET_SPLIT_CHARS ≤ chunk_end cs start ∨
  (boundary_before cs (chunk_end cs start) = true ∧
   ∀ i, chunk_end cs start < i < start + CHUNK_MAX_CHARS → boundary_before cs i = false).
Proof.
  intros Hs. unfold chunk_end, CHUNK_MAX_CHARS, TARGET_SPLIT_CHARS, CHUNK_OVERLAP_CHARS. cbv zeta.
  destruct (Nat.ltb_spec (Nat.min (start + 1000) (length cs)) (length cs)) as [Hlt|Hge]; [|lia].
  destruct (last_boundary cs _ _) as [idx|] eqn:Hb; simpl.
  { apply last_boundary_Some in Hb as (Hr & _). lia. }
  destruct (last_boundary cs _ (Nat.min (start + 850) _)) as [idx|] eqn:Hb'; simpl; [|lia].
  apply last_boundary_Some in Hb' as (Hr & Hbi & Hno). intros _. right. split; [done|]. intros i Hi.
  destruct (decide (i < start + 850)); [apply Hno; lia|].
  apply (last_boundary_None _ _ _ Hb). lia.
Qed.
Lemma two_steps cs start : let next := chunk_end cs start - CHUNK_OVERLAP_CHARS in
  start < length cs → chunk_end cs start < length cs → chunk_end cs next < length cs →
  start + (TARGET_SPLIT_CHARS - CHUNK_OVERLAP_CHARS) < chunk_end cs next - CHUNK_OVERLAP_CHARS.
Proof.
  intros next Hs He He'. destruct (chunk_end_bounds cs start Hs) as [Hb Ho]. specialize (Ho He).
  assert (Hnext : next < length cs) by (unfold next; lia).
  destruct (chunk_end_bounds cs next Hnext) as [Hb' Ho']. specialize (Ho' He').
  destruct (chunk_end_cases cs start Hs He) as [?|[_ Hno]]; [unfold next, CHUNK_OVERLAP_CHARS, TARGET_SPLIT_CHARS in *; lia|].
  destruct (chunk_end_cases cs next Hnext He') as [?|[Hbb _]];
    [unfold next, CHUNK_OVERLAP_CHARS, TARGET_SPLIT_CHARS in *; lia|].
  destruct (decide (chunk_end cs next < start + CHUNK_MAX_CHARS)) as [Hlt|Hge].
  - rewrite Hno in Hbb; [done|]. unfold next, CHUNK_OVERLAP_CHARS in *. lia.
  - unfold next, CHUNK_OVERLAP_CHARS, TARGET_SPLIT_CHARS, CHUNK_MAX_CHARS in *. lia.
Qed.
Lemma Windows_count cs start ws : Windows cs start ws →
  length ws * (TARGET_SPLIT_CHARS - CHUNK_OVERLAP_CHARS) ≤ 2 * (length cs - start) + 2 * TARGET_SPLIT_CHARS.
Proof.
  assert (Hall : ∀ n start ws, length ws ≤ n → Windows cs start ws →
    length ws * (TARGET_SPLIT_CHARS - CHUNK_OVERLAP_CHARS) ≤ 2 * (length cs - start) + 2 * TARGET_SPLIT_CHARS).
  { clear start ws. unfold TARGET_SPLIT_CHARS, CHUNK_OVERLAP_CHARS. induction n as [|n IH]; intros start ws Hn Hws.
    { destruct ws; [simpl; lia|simpl in Hn; lia]. }
    destruct Hws as [start Hs He|start ws Hs He Hws]; [simpl; lia|].
    inversion Hws as [? Hs' He'|? ws' Hs' He' Hws']; subst; [simpl; lia|]. simpl in Hn.
    pose proof (two_steps cs start Hs He He') as Hstep. cbv zeta in Hstep.
    pose proof (IH _ ws' ltac:(lia) Hws') as Hrest.
    destruct (chunk_end_bounds cs _ Hs') as [Hb' Ho']. unfold TARGET_SPLIT_CHARS, CHUNK_OVERLAP_CHARS in *.
    cbn [length]. lia. }
  intros Hws. by apply (Hall (length ws)).
Qed.

(** C39: splitting loses no text and ends. A text of at most [CHUNK_MAX_CHARS]
    characters is one chunk. A longer one is cut at windows, the first of which starts
    at the beginning: every window holds at most [CHUNK_MAX_CHARS] characters,
    consecutive windows move on and share exactly [CHUNK_OVERLAP_CHARS] characters,
    every character of the text is in one of them, and there are at most about two
    windows for [TARGET_SPLIT_CHARS - CHUNK_OVERLAP_CHARS] characters. The chunks are
    the trimmed texts of the windows that are not blank. *)
Theorem split_chunk_text_covers (t : text) :
  (length t ≤ CHUNK_MAX_CHARS → split_chunk_text t = [trim_text t]) ∧
  (CHUNK_MAX_CHARS < length t → ∃ ws,
    split_chunk_text t = filter (λ part, part ≠ []) (window t <$> ws) ∧
    (∀ w, w ∈ ws → w.1 < w.2 ≤ length t ∧ w.2 - w.1 ≤ CHUNK_MAX_CHARS) ∧
    (∀ i w w', ws !! i = Some w → ws !! S i = Some w' →
       w.1 < w'.1 ∧ w.2 < w'.2 ∧ w'.1 + CHUNK_OVERLAP_CHARS = w.2) ∧
    (∀ i, i < length t → ∃ w, w ∈ ws ∧ w.1 ≤ i < w.2) ∧
    length ws * (TARGET_SPLIT_CHARS - CHUNK_OVERLAP_CHARS) ≤ 2 * length t + 2 * TARGET_SPLIT_CHARS).
Proof.
  unfold split_chunk_text. destruct (Nat.leb_spec (length t) CHUNK_MAX_CHARS) as [Hle|Hgt]; [split; [done|lia]|].
  split; [intros; lia|]. intros _. unfold CHUNK_MAX_CHARS in Hgt.
  destruct (chunk_loop_windows t (S (length t)) 0 []) as (ws & Hws & Hl); [lia..|].
  exists ws. rewrite Hl. simpl. rewrite foldl_push_part. split; [done|].
  split; [intros w; by eapply Windows_bounded|]. split; [intros i w w'; by eapply Windows_overlap|].
  split; [intros i Hi; eapply Windows_cover; [done|lia]|].
  pose proof (Windows_count t 0 ws Hws) as Hcount. by rewrite Nat.sub_0_r in Hcount.
Qed.

Lemma length_slice {A} a b (l : list A) : a ≤ b → b ≤ length l → length (slice a b l) = b - a.
Proof. intros Ha Hb. unfold slice. rewrite length_take, length_drop. lia. Qed.
Lemma drop_whitespace_length t : length (drop_whitespace t) ≤ length t.
Proof. induction t as [|c t IH]; simpl; [done|]. destruct (is_whitespace c); simpl; lia. Qed.
Lemma trim_text_length t : length (trim_text t) ≤ length t.
Proof.
  unfold trim_text. rewrite length_reverse. pose proof (drop_whitespace_length (reverse (drop_whitespace t))) as H1.
  rewrite length_reverse in H1. pose proof (drop_whitespace_length t). lia.
Qed.
Lemma split_chunk_text_bounded t : Forall (λ part, length part ≤ CHUNK_MAX_CHARS) (split_chunk_text t).
Proof.
  destruct (Nat.le_gt_cases (length t) CHUNK_MAX_CHARS) as [Hle|Hgt]; unfold split_chunk_text.
  - rewrite (proj2 (Nat.leb_le _ _)) by done. apply Forall_singleton. pose proof (trim_text_length t). lia.
  - rewrite (proj2 (Nat.leb_gt _ _)) by done. unfold CHUNK_MAX_CHARS in Hgt.
    destruct (chunk_loop_windows t (S (length t)) 0 []) as (ws & Hws & Hl); [lia..|].
    rewrite Hl. simpl. rewrite foldl_push_part. apply Forall_forall.
    intros part [_ (w & -> & Hw)%list_elem_of_fmap]%list_elem_of_filter.
    destruct (Windows_bounded _ _ _ _ Hws Hw) as [Hr Hm]. unfold window. simpl.
    etrans; [apply trim_text_length|]. rewrite length_slice by lia. done.
Qed.

(** ** Snippets *)

Lemma chars_before_length t byte : chars_before t byte ≤ length t.
Proof. revert byte. induction t as [|c t IH]; intros byte; simpl; [done|]. destruct (_ <=? _); [|lia]. specialize (IH (byte - len_utf8 c)). lia. Qed.
Lemma byte_length_cons c t : byte_length (c :: t) = len_utf8 c + byte_length t.
Proof. done. Qed.
Lemma chars_before_take t n byte : n ≤ length t → byte_length (take n t) ≤ byte → n ≤ chars_before t byte.
Proof.
  revert n byte. induction t as [|c t IH]; intros n byte Hn Hb; simpl in *; [lia|].
  destruct n as [|n]; [lia|]. rewrite firstn_cons, byte_length_cons in Hb.
  destruct (Nat.leb_spec (len_utf8 c) byte); [|lia]. apply le_n_S, IH; lia.
Qed.
Lemma byte_length_take t n : byte_length (take n t) ≤ byte_length t.
Proof.
  revert n. induction t as [|c t IH]; intros [|n]; [done..|apply Nat.le_0_l|].
  rewrite firstn_cons, !byte_length_cons. specialize (IH n). lia.
Qed.
Lemma slice_checked_Some {A} a b (l : list A) : a ≤ b → b ≤ length l → slice_checked a b l = Some (slice a b l).
Proof. intros Ha Hb. unfold slice_checked. rewrite (proj2 (Nat.leb_le a b)), (proj2 (Nat.leb_le b (length l))) by lia. done. Qed.

(** A snippet for a range of bytes never panics, whatever the range: bytes inside
    a character, behind the end or in the wrong order. It holds at most
    [SNIPPET_RADIUS] characters on either side of the range. *)
Theorem build_snippet_for_range_total (raw_text : text) (start_byte end_byte : nat) :
  ∃ s, build_snippet_for_range raw_text start_byte end_byte = Some s ∧
    (s = [] ∨ ∃ start end_, start ≤ end_ ≤ length (trim_text raw_text) ∧
      s = with_ellipses (start - SNIPPET_RADIUS) (Nat.min (end_ + SNIPPET_RADIUS) (length (trim_text raw_text)))
            (length (trim_text raw_text))
            (slice (start - SNIPPET_RADIUS) (Nat.min (end_ + SNIPPET_RADIUS) (length (trim_text raw_text)))
               (trim_text raw_text))).
Proof.
  unfold build_snippet_for_range. destruct (trim_text raw_text) as [|c t'] eqn:Ht; [exists []; by auto|].
  rewrite <- Ht. clear Ht. set (t := trim_text raw_text). cbv zeta.
  set (start := chars_before t _). set (end_ := chars_before t (Nat.min (Nat.max _ _) _)).
  assert (Hs : start ≤ length t) by apply chars_before_length.
  assert (He : end_ ≤ length t) by apply chars_before_length.
  assert (Hse : start ≤ end_).
  { apply chars_before_take; [done|]. pose proof (byte_length_take t start). lia. }
  unfold SNIPPET_RADIUS. rewrite slice_checked_Some by lia. eexists. split; [done|]. right. by exists start, end_.
Qed.

Section snippet.
Context `{Unicode}.

Lemma find_text_bound needle t n : find_text needle t = Some n → n ≤ length t.
Proof.
  revert n. induction t as [|c t IH]; intros n; simpl.
  - destruct (is_prefix needle []); [by intros [= <-]|done].
  - destruct (is_prefix needle (c :: t)); [intros [= <-]; lia|].
    destruct (find_text needle t) as [m|] eqn:Hm; [|done]. intros [= <-]. specialize (IH m eq_refl). lia.
Qed.
(** A snippet for a query does not panic on a text that grows by at most
    [SNIPPET_RADIUS] characters when it is put in lower case. *)
Theorem build_snippet_total (raw_text query : text) :
  length (lowercase (trim_text raw_text)) ≤ length (trim_text raw_text) + SNIPPET_RADIUS →
  ∃ s, build_snippet raw_text query = Some s.
Proof.
  intros Hlen. unfold build_snippet. destruct (trim_text raw_text) as [|c t'] eqn:Ht; [by exists []|].
  rewrite <- Ht in *. clear Ht. cbv zeta. destruct (normalize_text query) as [|d q'] eqn:Hq; [by eexists|].
  rewrite <- Hq. clear Hq. destruct (find_text _ _) as [n|] eqn:Hn; [|by eexists].
  apply find_text_bound in Hn. rewrite slice_checked_Some by (unfold SNIPPET_RADIUS in *; lia). by eexists.
Qed.
End snippet.

(** ** Queries *)

Section queries.
Context `{Unicode, Alphabet}.

Lemma tokenize_tokens current input :
  concat (tokenize current input) = current ++ filter (λ c, is_query_token_char c = true) input ∧
  (Forall (λ c, is_query_token_char c = true) current →
   Forall (λ t, t ≠ [] ∧ Forall (λ c, is_query_token_char c = true) t) (tokenize current input)).
Proof.
  revert current. induction input as [|c input IH]; intros current; cbn [tokenize].
  - rewrite filter_nil, app_nil_r. destruct current as [|d cur]; [by split; [|intros _; constructor]|]. cbn [concat].
    rewrite app_nil_r. split; [done|]. intros Hcur. by apply Forall_singleton.
  - destruct (is_query_token_char c) eqn:Hc.
    + destruct (IH (current ++ [c])) as [Hcat Hall]. rewrite filter_cons_True by done. split.
      * by rewrite Hcat, <- app_assoc.
      * intros Hcur. apply Hall, Forall_app. split; [done|]. by constructor.
    + destruct (IH []) as [Hcat Hall]. rewrite filter_cons_False by congruence.
      destruct current as [|d cur]; [by split|]. cbn [concat]. split; [by rewrite Hcat|].
      intros Hcur. constructor; [done|]. by apply Hall.
Qed.
(** What reaches the full-text search is made of prefix terms only: each is a
    non-empty run of letters, digits and ideographs of the normalized query followed
    by a star, and nothing of the query that the search engine would interpret; all
    letters, digits and ideographs of the query are there, in order. *)
Theorem build_fts_query_terms (query : text) (fts : text) :
  build_fts_query (plan_simple_query query) = Some fts →
  ∃ tokens, fts = join_texts [32%N] ((λ token, token ++ [42%N]) <$> tokens) ∧ tokens ≠ [] ∧
    Forall (λ token, token ≠ [] ∧ Forall (λ c, is_query_token_char c = true) token) tokens ∧
    concat tokens = filter (λ c, is_query_token_char c = true) (normalize_text (trim_text query)).
Proof.
  unfold build_fts_query. destruct (negb _); [done|].
  destruct (tokenize_query_terms _) as [|token tokens] eqn:Ht; [done|]. intros [= <-].
  exists (token :: tokens). split; [done|]. split; [done|]. rewrite <- Ht. unfold tokenize_query_terms.
  destruct (tokenize_tokens [] (normalized_query (plan_simple_query query))) as [Hcat Hall].
  split; [by apply Hall|]. rewrite Hcat. simpl. f_equal. unfold plan_simple_query.
  destruct (trim_text query) eqn:Hq; [|done].
  unfold tokenize_query_terms, plan_simple_query in Ht. by rewrite Hq in Ht.
Qed.
End queries.
