(* ===== verification/Wikilinks.v ===== *)
(** * Wikilinks of a note (crates/kuku-indexer/src/wikilink.rs)

    Code is masked by spaces, then links [[target]] and [[target|alias]] are
    scanned. A text that is written with links gives the links back. *)
From Stdlib Require Import Ascii String.
#[local] Set Warnings "-clear-no-such-hyp".
From S2P Require Import Prelude Text Chars Indexer.

Definition NEWLINE : N := 10.
Definition RETURN : N := 13.
Definition BACKTICK : N := 96.
Definition TILDE : N := 126.
Definition OPEN : N := 91.
Definition CLOSE : N := 93.
Definition PIPE : N := 124.
Record ExtractedWikilink := { target : text; alias : option text; ordinal : nat }.

(** ** Masking code *)

Definition char_is (cs : text) (idx : nat) (c : N) : bool := bool_decide (cs !! idx = Some c).
(** [idx == 0 || chars.get(idx.wrapping_sub(1)) == Some(&'\n')] *)
Definition at_line_start (cs : text) (idx : nat) : bool := (idx =? 0) || char_is cs (idx - 1) NEWLINE.
(** [count_run(chars, start, needle)], on the characters from [start] on *)
Fixpoint run_length (needle : N) (cs : text) : nat :=
  match cs with c :: cs => if (c =? needle)%N then S (run_length needle cs) else 0 | [] => 0 end.
Definition count_run (cs : text) (start : nat) (needle : N) : nat := run_length needle (drop start cs).
Definition detect_fence_start (cs : text) (idx : nat) : option (N * nat) :=
  match cs !! idx with
  | None => None
  | Some ch =>
      if negb ((ch =? BACKTICK)%N || (ch =? TILDE)%N) then None
      else if negb (at_line_start cs idx) then None
      else let run_len := count_run cs idx ch in if run_len <? 3 then None else Some (ch, run_len)
  end.
Definition mask_char (c : N) : N := if ((c =? NEWLINE) || (c =? RETURN))%N then c else 32%N.
(** The rest of the closing line, masked with its line break *)
Fixpoint mask_line (cs : text) : text :=
  match cs with
  | [] => []
  | c :: cs => mask_char c :: (if (c =? NEWLINE)%N then [] else mask_line cs)
  end.
(** What [mask_fenced_block] adds to the output; the index moves as far. *)
Fixpoint mask_fenced_block (fuel : nat) (cs : text) (start idx : nat) (fence_char : N) (fence_len : nat) : text :=
  match fuel with
  | O => []
  | S fuel =>
      match cs !! idx with
      | None => []
      | Some ch =>
          if negb (idx =? start) && at_line_start cs idx && (fence_len <=? count_run cs idx fence_char)
          then mask_line (drop idx cs)
          else mask_char ch :: mask_fenced_block fuel cs start (S idx) fence_char fence_len
      end
  end.
(** [find_backtick_run]: how far from [cs] on the run is *)
Fixpoint find_backtick_run (cs : text) (run_len : nat) : option nat :=
  match cs with
  | [] => None
  | c :: cs' =>
      if (c =? BACKTICK)%N && (run_len <=? run_length BACKTICK cs) then Some 0
      else S <$> find_backtick_run cs' run_len
  end.
Fixpoint mask_loop (fuel : nat) (cs : text) (idx : nat) (output : text) : text :=
  match fuel with
  | O => output
  | S fuel =>
      match cs !! idx with
      | None => output
      | Some ch =>
          match detect_fence_start cs idx with
          | Some (fence_char, fence_len) =>
              let masked := mask_fenced_block (length cs) cs idx idx fence_char fence_len in
              mask_loop fuel cs (idx + length masked) (output ++ masked)
          | None =>
              let run_len := count_run cs idx BACKTICK in
              match (if (ch =? BACKTICK)%N then find_backtick_run (drop (idx + run_len) cs) run_len else None) with
              | Some gap =>
                  let masked := mask_char <$> slice idx (idx + run_len + gap + run_len) cs in
                  mask_loop fuel cs (idx + length masked) (output ++ masked)
              | None => mask_loop fuel cs (S idx) (output ++ [ch])
              end
          end
      end
  end.
Definition mask_code_regions (input : text) : text := mask_loop (S (length input)) input 0 [].

(** ** Scanning links *)

(** The scan for the end of a link, on the characters after [[[]: what comes before
    the closing brackets, taken apart at the first bar, and the characters after
    them. [None]: the line or the text ends first. *)
Inductive Candidate :=
| Closed (target : text) (alias : option text) (consumed : nat)
| Unclosed.
Fixpoint scan_candidate (cs : text) (target : text) (alias : option text) (consumed : nat) : Candidate :=
  match cs with
  | c :: (d :: _) as cs' =>
      if ((c =? NEWLINE) || (c =? RETURN))%N then Unclosed
      else if (c =? PIPE)%N && bool_decide (alias = None) then scan_candidate cs' target (Some []) (S consumed)
      else if ((c =? CLOSE) && (d =? CLOSE))%N then Closed target alias (consumed + 2)
      else match alias with
           | None => scan_candidate cs' (target ++ [c]) None (S consumed)
           | Some a => scan_candidate cs' target (Some (a ++ [c])) (S consumed)
           end
  | _ => Unclosed
  end.
Definition finalize_candidate (target : text) (alias : option text) : option (text * option text) :=
  let normalized_target := trim_text target in
  match normalized_target with
  | [] => None
  | _ =>
      match alias with
      | None => Some (normalized_target, None)
      | Some a => match trim_text a with [] => None | a => Some (normalized_target, Some a) end
      end
  end.
Fixpoint scan_links (fuel : nat) (cs : text) : list (text * option text) :=
  match fuel with
  | O => []
  | S fuel =>
      match cs with
      | a :: (b :: rest) as cs' =>
          if negb ((a =? OPEN) && (b =? OPEN))%N then scan_links fuel cs'
          else match scan_candidate rest [] None 0 with
               | Closed target alias consumed =>
                   option_list (finalize_candidate target alias) ++ scan_links fuel (drop consumed rest)
               | Unclosed => scan_links fuel rest
               end
      | _ => []
      end
  end.
Definition scan_text_for_wikilinks (input : text) : list (text * option text) :=
  scan_links (S (length input)) input.
Definition extract_wikilinks (markdown : text) : list ExtractedWikilink :=
  imap (λ ordinal link, {| target := link.1; alias := link.2; ordinal := ordinal |})
    (scan_text_for_wikilinks (mask_code_regions markdown)).

(** ** Masking keeps the shape of the text *)

(** A masked text: every character is kept or replaced by a space, line breaks stay. *)
Definition masked (c m : N) : Prop := m = c ∨ (m = 32%N ∧ c ≠ NEWLINE ∧ c ≠ RETURN).
Lemma mask_char_masked c : masked c (mask_char c).
Proof.
  unfold masked, mask_char. destruct (N.eqb_spec c NEWLINE), (N.eqb_spec c RETURN); simpl; auto.
Qed.
Lemma mask_line_prefix cs : ∃ n, n ≤ length cs ∧ Forall2 masked (take n cs) (mask_line cs).
Proof.
  induction cs as [|c cs (n & Hn & IH)]; [by exists 0|]. simpl. destruct (c =? NEWLINE)%N.
  - exists 1. split; [lia|]. constructor; [apply mask_char_masked|constructor].
  - exists (S n). split; [lia|]. simpl. constructor; [apply mask_char_masked|done].
Qed.
Lemma drop_lookup_cons {A} (l : list A) i x : l !! i = Some x → drop i l = x :: drop (S i) l.
Proof. intros Hi. by apply drop_S. Qed.
Lemma mask_fenced_prefix fuel cs start idx c n :
  ∃ m, m ≤ length cs - idx ∧ Forall2 masked (take m (drop idx cs)) (mask_fenced_block fuel cs start idx c n).
Proof.
  revert idx. induction fuel as [|fuel IH]; intros idx; simpl; [exists 0; split; [lia|constructor]|].
  destruct (cs !! idx) as [ch|] eqn:Hi; [|exists 0; split; [lia|constructor]].
  destruct (_ && _ && _).
  - destruct (mask_line_prefix (drop idx cs)) as (m & Hm & Hf). rewrite length_drop in Hm. by exists m.
  - destruct (IH (S idx)) as (m & Hm & Hf). apply lookup_lt_Some in Hi as Hlt. exists (S m). split; [lia|].
    rewrite (drop_lookup_cons _ _ _ Hi). simpl. constructor; [apply mask_char_masked|done].
Qed.
Lemma masked_refl c : masked c c.
Proof. by left. Qed.
Lemma mask_fenced_nonempty fuel cs idx c n : cs !! idx ≠ None → 0 < fuel →
  mask_fenced_block fuel cs idx idx c n ≠ [].
Proof.
  intros Hi Hf. destruct fuel as [|fuel]; [lia|]. simpl. destruct (cs !! idx); [|done]. by rewrite Nat.eqb_refl.
Qed.
Lemma find_backtick_run_bound cs n gap : find_backtick_run cs n = Some gap → gap + n ≤ length cs ∨ n = 0.
Proof.
  assert (Hrun : ∀ l, run_length BACKTICK l ≤ length l).
  { induction l as [|a l IH]; simpl; [done|]. destruct (_ =? _)%N; lia. }
  revert gap. induction cs as [|c cs IH]; intros gap; cbn [find_backtick_run]; [done|].
  destruct (_ && _) eqn:Hc.
  - intros [= <-]. apply andb_true_iff in Hc as [_ Hc]. apply Nat.leb_le in Hc.
    specialize (Hrun (c :: cs)). left. lia.
  - destruct (find_backtick_run cs n) as [g|] eqn:Hg; [|done]. intros [= <-].
    destruct (IH g eq_refl); [left; simpl; lia|by right].
Qed.
Lemma mask_loop_masked fuel cs idx output :
  idx ≤ length cs → length cs - idx < fuel → Forall2 masked (take idx cs) output →
  Forall2 masked cs (mask_loop fuel cs idx output).
Proof.
  revert idx output. induction fuel as [|fuel IH]; intros idx output Hle Hf Ho; [lia|]. cbn [mask_loop].
  destruct (cs !! idx) as [ch|] eqn:Hi.
  2:{ apply lookup_ge_None in Hi. by rewrite take_ge in Ho. }
  apply lookup_lt_Some in Hi as Hlt.
  assert (Hadd : ∀ m l, Forall2 masked (take m (drop idx cs)) l → m ≤ length cs - idx → l ≠ [] →
    Forall2 masked cs (mask_loop fuel cs (idx + length l) (output ++ l))).
  { intros m l Hl Hm Hne. assert (Hlen : m = length l).
    { apply Forall2_length in Hl. rewrite length_take, length_drop in Hl. lia. }
    subst m. destruct l as [|x l]; [done|]. apply IH; simpl in *; [lia..|].
    rewrite <- take_take_drop. by apply Forall2_app. }
  destruct (detect_fence_start cs idx) as [[c n]|].
  - destruct (mask_fenced_prefix (length cs) cs idx idx c n) as (m & Hm & Hl).
    eapply Hadd; [done..|]. apply mask_fenced_nonempty; [by rewrite Hi|lia].
  - assert (Hstep : Forall2 masked cs (mask_loop fuel cs (S idx) (output ++ [ch]))).
    { replace (S idx) with (idx + length [ch]) by (simpl; lia). apply (Hadd 1); [|lia|done].
      rewrite (drop_lookup_cons _ _ _ Hi). simpl. constructor; [apply masked_refl|constructor]. }
    destruct (ch =? BACKTICK)%N eqn:Hb; [|done]. destruct (find_backtick_run _ _) as [gap|] eqn:Hg; [|done].
    apply (Hadd (count_run cs idx BACKTICK + gap + count_run cs idx BACKTICK)).
    + unfold slice. replace (idx + count_run cs idx BACKTICK + gap + count_run cs idx BACKTICK - idx)
        with (count_run cs idx BACKTICK + gap + count_run cs idx BACKTICK) by lia.
      apply Forall2_fmap_r, Forall_Forall2_diag, Forall_forall. intros c _. apply mask_char_masked.
    + assert (Hpos : 0 < count_run cs idx BACKTICK).
      { unfold count_run. rewrite (drop_lookup_cons _ _ _ Hi). simpl. rewrite Hb. lia. }
      apply find_backtick_run_bound in Hg. rewrite length_drop in Hg. lia.
    + unfold slice. assert (Hpos : 0 < count_run cs idx BACKTICK).
      { unfold count_run. rewrite (drop_lookup_cons _ _ _ Hi). simpl. rewrite Hb. lia. }
      intros Hnil%(f_equal length). rewrite length_fmap, length_take, length_drop in Hnil. simpl in Hnil. lia.
Qed.
Lemma mask_code_regions_masked t : Forall2 masked t (mask_code_regions t).
Proof. apply mask_loop_masked; [lia..|constructor]. Qed.
(** ** Scanning *)

Definition no_line_break (t : text) : Prop := Forall (λ c, c ≠ NEWLINE ∧ c ≠ RETURN) t.
Definition write_alias (alias : option text) : text := match alias with Some a => PIPE :: a | None => [] end.
Definition write_link (target : text) (alias : option text) : text :=
  [OPEN; OPEN] ++ target ++ write_alias alias ++ [CLOSE; CLOSE].

(** What a candidate that was closed looked like. *)
Lemma scan_candidate_alias cs t a n t' a' m : scan_candidate cs t (Some a) n = Closed t' a' m →
  ∃ raw post, cs = raw ++ [CLOSE; CLOSE] ++ post ∧ t' = t ∧ a' = Some (a ++ raw) ∧ m = n + length raw + 2 ∧
    no_line_break raw ∧ drop (length raw + 2) cs = post.
Proof.
  revert a n. induction cs as [|c cs IH]; intros a n; [done|]. cbn [scan_candidate].
  destruct cs as [|d cs]; [done|].
  destruct (N.eqb_spec c NEWLINE), (N.eqb_spec c RETURN); try done. cbn [orb].
  rewrite (bool_decide_false (Some a = None)), andb_false_r by done.
  destruct (N.eqb_spec c CLOSE) as [->|Hc]; [destruct (N.eqb_spec d CLOSE) as [->|Hd]|]; cbn [andb].
  - intros [= <- <- <-]. exists [], cs. rewrite app_nil_r. simpl. split_and!; [done..|lia|constructor|done].
  - intros (raw & post & Hcs & -> & -> & -> & Hraw & Hpost)%IH. exists (CLOSE :: raw), post.
    split_and!; [by rewrite Hcs|done|by rewrite <- app_assoc|simpl; lia|by constructor|done].
  - intros (raw & post & Hcs & -> & -> & -> & Hraw & Hpost)%IH. exists (c :: raw), post.
    split_and!; [by rewrite Hcs|done|by rewrite <- app_assoc|simpl; lia|by constructor|done].
Qed.
Lemma scan_candidate_target cs t n t' a' m : scan_candidate cs t None n = Closed t' a' m →
  ∃ raw alias post, cs = raw ++ write_alias alias ++ [CLOSE; CLOSE] ++ post ∧ t' = t ++ raw ∧ a' = alias ∧
    m = n + length (raw ++ write_alias alias) + 2 ∧ no_line_break (raw ++ write_alias alias) ∧
    Forall (λ c, c ≠ PIPE) raw ∧ drop (length (raw ++ write_alias alias) + 2) cs = post.
Proof.
  revert t n. induction cs as [|c cs IH]; intros t n; [done|]. cbn [scan_candidate].
  destruct cs as [|d cs]; [done|].
  destruct (N.eqb_spec c NEWLINE), (N.eqb_spec c RETURN); try done. cbn [orb].
  destruct (N.eqb_spec c PIPE) as [->|Hp]; cbn [andb].
  { rewrite bool_decide_true by done.
    intros (raw & post & Hcs & -> & -> & -> & Hraw & Hpost)%scan_candidate_alias.
    exists [], (Some raw), post. simpl. rewrite app_nil_r.
    split_and!; [by rewrite Hcs|done|done|lia|by constructor|constructor|done]. }
  destruct (N.eqb_spec c CLOSE) as [->|Hc]; [destruct (N.eqb_spec d CLOSE) as [->|Hd]|]; cbn [andb].
  - intros [= <- <- <-]. exists [], None, cs. rewrite !app_nil_r. simpl. split_and!; [done..|lia|constructor|constructor|done].
  - intros (raw & alias & post & Hcs & -> & -> & -> & Hraw & Hpipe & Hpost)%IH. exists (CLOSE :: raw), alias, post.
    split_and!; [by rewrite Hcs|by rewrite <- app_assoc|done|simpl; lia|by constructor|by constructor|done].
  - intros (raw & alias & post & Hcs & -> & -> & -> & Hraw & Hpipe & Hpost)%IH. exists (c :: raw), alias, post.
    split_and!; [by rewrite Hcs|by rewrite <- app_assoc|done|simpl; lia|by constructor|by constructor|done].
Qed.
(** A text that closes. *)
Lemma scan_candidate_step c cs t alias n : cs ≠ [] → c ≠ NEWLINE → c ≠ RETURN →
  (c = PIPE → alias ≠ None) → c ≠ CLOSE →
  scan_candidate (c :: cs) t alias n =
    match alias with
    | None => scan_candidate cs (t ++ [c]) None (S n)
    | Some a => scan_candidate cs t (Some (a ++ [c])) (S n)
    end.
Proof.
  intros Hcs Hn Hr Hp Hc. destruct cs as [|d cs]; [done|]. cbn [scan_candidate].
  apply N.eqb_neq in Hn, Hr, Hc. rewrite Hn, Hr, Hc. cbn [orb andb].
  destruct (N.eqb_spec c PIPE) as [->|]; [|done]. by rewrite bool_decide_false by auto.
Qed.
Lemma scan_alias_closes alias a t n post : Forall (λ c, c ≠ NEWLINE ∧ c ≠ RETURN ∧ c ≠ CLOSE) alias →
  scan_candidate (alias ++ CLOSE :: CLOSE :: post) t (Some a) n = Closed t (Some (a ++ alias)) (n + length alias + 2).
Proof.
  intros Hall. revert a n. induction Hall as [|c alias (Hn & Hr & Hc) _ IH]; intros a n.
  - simpl. rewrite app_nil_r. f_equal. lia.
  - cbn [app]. rewrite scan_candidate_step by (done || by destruct alias). rewrite IH, <- app_assoc. simpl. f_equal. lia.
Qed.
Lemma scan_target_closes target alias t n post :
  Forall (λ c, c ≠ NEWLINE ∧ c ≠ RETURN ∧ c ≠ CLOSE ∧ c ≠ PIPE) target →
  Forall (λ c, c ≠ NEWLINE ∧ c ≠ RETURN ∧ c ≠ CLOSE) (default [] alias) →
  scan_candidate (target ++ write_alias alias ++ CLOSE :: CLOSE :: post) t None n =
    Closed (t ++ target) alias (n + length (target ++ write_alias alias) + 2).
Proof.
  intros Hall Halias. revert t n. induction Hall as [|c target (Hn & Hr & Hc & Hp) _ IH]; intros t n.
  - destruct alias as [a|]; [|simpl; rewrite app_nil_r; f_equal; lia].
    assert (Hpipe : scan_candidate (PIPE :: a ++ CLOSE :: CLOSE :: post) t None n =
              scan_candidate (a ++ CLOSE :: CLOSE :: post) t (Some []) (S n)) by by destruct a.
    cbn [app write_alias]. rewrite Hpipe. simpl in Halias.
    rewrite (scan_alias_closes a [] t (S n) post Halias), app_nil_r. simpl. f_equal; lia.
  - cbn [app]. rewrite scan_candidate_step by (done || by destruct target, alias). rewrite IH, <- app_assoc.
    simpl. f_equal. lia.
Qed.

Lemma write_link_app t alias rest :
  write_link t alias ++ rest = OPEN :: OPEN :: t ++ write_alias alias ++ CLOSE :: CLOSE :: rest.
Proof. unfold write_link. by rewrite <- !app_assoc. Qed.
Lemma scan_links_sound fuel cs link : link ∈ scan_links fuel cs →
  ∃ pre raw alias post, cs = pre ++ write_link raw alias ++ post ∧ finalize_candidate raw alias = Some link ∧
    no_line_break (raw ++ write_alias alias) ∧ Forall (λ c, c ≠ PIPE) raw.
Proof.
  revert cs. induction fuel as [|fuel IH]; intros cs; [by intros ?%elem_of_nil|]. cbn [scan_links].
  destruct cs as [|a [|b rest]]; [by intros ?%elem_of_nil..|].
  destruct (negb _) eqn:Hopen.
  { intros (pre & raw & alias & post & -> & Hfacts)%IH. by exists (a :: pre), raw, alias, post. }
  apply negb_false_iff, andb_true_iff in Hopen as [->%N.eqb_eq ->%N.eqb_eq].
  destruct (scan_candidate rest [] None 0) as [target alias consumed|] eqn:Hs.
  2:{ intros (pre & raw & alias & post & -> & Hfacts)%IH. by exists (OPEN :: OPEN :: pre), raw, alias, post. }
  apply scan_candidate_target in Hs as (raw & alias' & post & Hrest & -> & -> & -> & Hraw & Hpipe & Hpost).
  rewrite elem_of_app. intros [Hin|Hin].
  - destruct (finalize_candidate _ _) as [l|] eqn:Hl; [|by apply elem_of_nil in Hin].
    apply list_elem_of_singleton in Hin as ->. exists [], raw, alias', post.
    split; [|done]. by rewrite write_link_app, Hrest.
  - cbn [Nat.add app] in Hin. rewrite Hpost in Hin.
    apply IH in Hin as (pre & raw2 & alias2 & post2 & Hpost2 & Hfacts).
    exists (write_link raw alias' ++ pre), raw2, alias2, post2. split; [|done].
    rewrite <- app_assoc, write_link_app, Hrest, Hpost2. done.
Qed.

(** Every link that is extracted is written in the text, outside of code. The
    text with its code blanked, which keeps all other characters and all line breaks
    in their places, contains the link on one line; its target is the trimmed part
    before the first bar, its alias the trimmed part after it, and neither is blank. *)
Theorem extract_wikilinks_sound (markdown : text) (link : ExtractedWikilink) :
  link ∈ extract_wikilinks markdown →
  ∃ blanked pre raw alias post, Forall2 masked markdown blanked ∧
    blanked = pre ++ write_link raw alias ++ post ∧ no_line_break (raw ++ write_alias alias) ∧
    Forall (λ c, c ≠ PIPE) raw ∧ finalize_candidate raw alias = Some (target link, Wikilinks.alias link) ∧
    extract_wikilinks markdown !! ordinal link = Some link.
Proof.
  intros Hin. unfold extract_wikilinks in *. apply elem_of_lookup_imap in Hin as (i & [t a] & -> & Hi).
  apply list_elem_of_lookup_2 in Hi as Hin.
  apply scan_links_sound in Hin as (pre & raw & alias & post & Hcs & Hfin & Hraw & Hpipe).
  exists (mask_code_regions markdown), pre, raw, alias, post. split; [apply mask_code_regions_masked|].
  split_and!; [done..|]. simpl. by rewrite list_lookup_imap, Hi.
Qed.

(** ** A text with links *)

(** How a note is written: plain parts; links, with blanks around the target and the alias;
    links with a blank target or alias, which mean nothing; code between runs of backticks, and
    code blocks between lines that start with at least three backticks or tildes. *)
Inductive Piece :=
| Plain (t : text)
| Link (before target after : text) (alias : option (text * text * text))
| BlankLink (target : text) (alias : option text)
| CodeSpan (ticks : nat) (code : text)
| CodeBlock (fence : N) (opening : nat) (body : text) (closing : nat) (tail : text).
Definition write_padded (a : text * text * text) : text := a.1.1 ++ a.1.2 ++ a.2.
Definition write_piece (p : Piece) : text :=
  match p with
  | Plain t => t
  | Link before target after alias => write_link (write_padded (before, target, after)) (write_padded <$> alias)
  | BlankLink target alias => write_link target alias
  | CodeSpan ticks code => replicate ticks BACKTICK ++ code ++ replicate ticks BACKTICK
  | CodeBlock fence opening body closing tail =>
      (replicate opening fence ++ body ++ [NEWLINE]) ++ (replicate closing fence ++ tail) ++ [NEWLINE]
  end.
Definition write_pieces (ps : list Piece) : text := concat (write_piece <$> ps).
(** The link a piece stands for. *)
Definition link_of (p : Piece) : option (text * option text) :=
  match p with Link _ target _ alias => Some (target, (λ a, a.1.2) <$> alias) | _ => None end.

Definition blank (t : text) : Prop := Forall (λ c, is_whitespace c = true) t.
Definition solid (c : option N) : Prop := match c with Some c => is_whitespace c = false | None => False end.
(** A middle that starts and ends with a character that is not white space, between blanks. *)
Definition padded (a : text * text * text) : Prop := blank a.1.1 ∧ blank a.2 ∧ solid (head a.1.2) ∧ solid (last a.1.2).
(** The characters a target and an alias may have. *)
Definition link_char (c : N) : Prop := c ∉ [NEWLINE; RETURN; CLOSE; BACKTICK; TILDE].
Definition link_written (target : text) (alias : option text) : Prop :=
  Forall (λ c, link_char c ∧ c ≠ PIPE) target ∧ Forall link_char (default [] alias).
(** The start of the text, or the place after a line break. *)
Definition starts_line (pre : text) : Prop := pre = [] ∨ last pre = Some NEWLINE.
(** The piece may be written after [pre]. *)
Definition piece_ok (pre : text) (p : Piece) : Prop :=
  match p with
  | Plain t => Forall (λ c, c ∉ [OPEN; BACKTICK; TILDE]) t
  | Link before target after alias =>
      link_written (write_padded (before, target, after)) (write_padded <$> alias) ∧
      padded (before, target, after) ∧ (∀ a, alias = Some a → padded a)
  | BlankLink target alias => link_written target alias ∧ (blank target ∨ ∃ a, alias = Some a ∧ blank a)
  | CodeSpan ticks code => 0 < ticks ∧ code ≠ [] ∧ (BACKTICK ∉ code) ∧ (3 ≤ ticks → ¬ starts_line pre)
  | CodeBlock fence opening body closing tail =>
      (fence = BACKTICK ∨ fence = TILDE) ∧ 3 ≤ opening ≤ closing ∧ (fence ∉ body) ∧ (NEWLINE ∉ tail) ∧
      starts_line pre
  end.
Fixpoint pieces_ok (pre : text) (ps : list Piece) : Prop :=
  match ps with [] => True | p :: ps => piece_ok pre p ∧ pieces_ok (pre ++ write_piece p) ps end.

(** *** Trimming *)

Lemma drop_whitespace_blank t rest : blank t → drop_whitespace (t ++ rest) = drop_whitespace rest.
Proof. induction 1 as [|c t Hc _ IH]; [done|]. simpl. by rewrite Hc. Qed.
Lemma drop_whitespace_solid t : solid (head t) → drop_whitespace t = t.
Proof. destruct t as [|c t]; [done|]. simpl. by intros ->. Qed.
Lemma last_solid t rest : solid (last t) → solid (head (reverse t ++ rest)).
Proof.
  destruct t as [|c t _] using rev_ind; [done|]. rewrite last_snoc, reverse_snoc. done.
Qed.
Lemma trim_padded a : padded a → trim_text (write_padded a) = a.1.2.
Proof.
  destruct a as [[before t] after]. intros (Hb & Ha & Hh & Hl). unfold trim_text, write_padded. cbn [fst snd] in *.
  rewrite drop_whitespace_blank by done. rewrite (drop_whitespace_solid (t ++ after)) by (destruct t; [destruct Hh|exact Hh]).
  rewrite reverse_app, drop_whitespace_blank by by apply Forall_reverse.
  rewrite drop_whitespace_solid, reverse_involutive; [done|].
  rewrite <-(app_nil_r (reverse t)). by apply last_solid.
Qed.
Lemma trim_blank t : blank t → trim_text t = [].
Proof.
  intros Ht. unfold trim_text. rewrite <-(app_nil_r t), drop_whitespace_blank by done. done.
Qed.
Lemma finalize_padded target alias : padded target → (∀ a, alias = Some a → padded a) →
  finalize_candidate (write_padded target) (write_padded <$> alias) = Some (target.1.2, (λ a, a.1.2) <$> alias).
Proof.
  intros Ht Ha. unfold finalize_candidate. rewrite trim_padded by done.
  destruct target as [[? t] ?]. destruct t as [|c t]; [by destruct Ht as (_ & _ & [] & _)|].
  destruct alias as [a|]; [|done]. specialize (Ha a eq_refl). cbn [fmap option_fmap option_map].
  rewrite trim_padded by done. destruct a as [[? t'] ?]. destruct t' as [|d t']; [by destruct Ha as (_ & _ & [] & _)|done].
Qed.
Lemma finalize_blank target alias : blank target ∨ (∃ a, alias = Some a ∧ blank a) →
  finalize_candidate target alias = None.
Proof.
  unfold finalize_candidate. intros [Ht|(a & -> & Ha)]; [by rewrite trim_blank|].
  rewrite (trim_blank a) by done. by destruct (trim_text target).
Qed.

(** *** Masking *)

Lemma lookup_here (pre t : text) : (pre ++ t) !! length pre = head t.
Proof. rewrite lookup_app_r, Nat.sub_diag by done. by destruct t. Qed.
Lemma line_start_here (pre t : text) : at_line_start (pre ++ t) (length pre) = true ↔ starts_line pre.
Proof.
  unfold at_line_start, char_is, starts_line. rewrite orb_true_iff, Nat.eqb_eq, bool_decide_eq_true.
  destruct pre as [|c pre _] using rev_ind; [by split; left|]. rewrite last_snoc, length_app. simpl.
  rewrite Nat.add_sub, <-app_assoc, lookup_here. simpl. split; intros [H|H]; auto; [lia|by destruct pre].
Qed.
Lemma count_run_here (pre t : text) c : count_run (pre ++ t) (length pre) c = run_length c t.
Proof. unfold count_run. by rewrite drop_app_length. Qed.
Lemma run_length_replicate c n t : head t ≠ Some c → run_length c (replicate n c ++ t) = n.
Proof.
  intros Ht. induction n as [|n IH]; simpl; [|by rewrite N.eqb_refl, IH].
  destruct t as [|d t]; [done|]. simpl in *. destruct (N.eqb_spec d c); [congruence|done].
Qed.
Lemma run_length_ge c n t : n ≤ run_length c (replicate n c ++ t).
Proof. induction n as [|n IH]; simpl; [lia|]. rewrite N.eqb_refl. lia. Qed.

(** What stands between backticks or in a block is blanked. *)
Definition mask_piece (p : Piece) : Piece :=
  match p with CodeSpan _ _ | CodeBlock _ _ _ _ _ => Plain (mask_char <$> write_piece p) | _ => p end.
(** The loop gets past [w], which becomes [m]. *)
Definition masks_to (pre w m : text) : Prop :=
  ∀ post fuel output, length w < fuel → ∃ fuel', fuel - length w ≤ fuel' ∧
    mask_loop fuel (pre ++ w ++ post) (length pre) output =
    mask_loop fuel' (pre ++ w ++ post) (length (pre ++ w)) (output ++ m).

Lemma mask_plain_char pre c : c ≠ BACKTICK → c ≠ TILDE → masks_to pre [c] [c].
Proof.
  intros Hb Ht post fuel output Hf. destruct fuel as [|fuel]; [simpl in Hf; lia|]. exists fuel. simpl. split; [lia|].
  unfold detect_fence_start. rewrite lookup_here. simpl.
  rewrite (proj2 (N.eqb_neq c BACKTICK) Hb), (proj2 (N.eqb_neq c TILDE) Ht). simpl.
  rewrite length_app. simpl. by rewrite Nat.add_1_r.
Qed.
Lemma masks_to_app pre w1 w2 m1 m2 : masks_to pre w1 m1 → masks_to (pre ++ w1) w2 m2 →
  masks_to pre (w1 ++ w2) (m1 ++ m2).
Proof.
  intros H1 H2 post fuel output Hf. rewrite length_app in Hf. rewrite <-app_assoc.
  destruct (H1 (w2 ++ post) fuel output) as (f1 & Hf1 & ->); [lia|].
  rewrite (app_assoc pre). destruct (H2 post f1 (output ++ m1)) as (f2 & Hf2 & ->); [lia|].
  exists f2. rewrite length_app. split; [lia|]. by rewrite <-!app_assoc.
Qed.
Lemma mask_plain pre t : Forall (λ c, c ≠ BACKTICK ∧ c ≠ TILDE) t → masks_to pre t t.
Proof.
  intros Ht. revert pre. induction Ht as [|c t [Hb Hc] _ IH]; intros pre.
  - intros post fuel output Hf. exists fuel. rewrite !app_nil_r. simpl. split; [lia|done].
  - apply (masks_to_app pre [c] t [c] t); [by apply mask_plain_char|apply IH].
Qed.

Lemma find_backtick_run_here (code post : text) n : 0 < n → BACKTICK ∉ code →
  find_backtick_run (code ++ replicate n BACKTICK ++ post) n = Some (length code).
Proof.
  intros Hn. induction code as [|c code IH]; intros Hc.
  - destruct n as [|n]; [lia|]. pose proof (run_length_ge BACKTICK (S n) post) as Hrun. cbn [app] in *.
    cbn [replicate app find_backtick_run] in *. rewrite N.eqb_refl. by rewrite (proj2 (Nat.leb_le _ _) Hrun).
  - apply not_elem_of_cons in Hc as [Hne Hc]. cbn [app find_backtick_run].
    rewrite (proj2 (N.eqb_neq c BACKTICK)) by congruence. cbn [andb]. by rewrite IH.
Qed.
Lemma mask_code_span pre n code : piece_ok pre (CodeSpan n code) →
  masks_to pre (write_piece (CodeSpan n code)) (mask_char <$> write_piece (CodeSpan n code)).
Proof.
  intros (Hn & Hne & Hc & Hfence) post fuel output Hf.
  set (w := write_piece (CodeSpan n code)) in *. destruct fuel as [|fuel]; [lia|].
  assert (Hw : w ++ post = replicate n BACKTICK ++ code ++ replicate n BACKTICK ++ post).
  { unfold w. simpl. by rewrite <-!app_assoc. }
  assert (Hlen : length w = n + length code + n).
  { unfold w. simpl. rewrite !length_app, !length_replicate. lia. }
  assert (Hrun : count_run (pre ++ w ++ post) (length pre) BACKTICK = n).
  { rewrite count_run_here, Hw. apply run_length_replicate. destruct code as [|c code]; [done|].
    apply not_elem_of_cons in Hc as [Hc _]. simpl. congruence. }
  assert (Hhead : (pre ++ w ++ post) !! length pre = Some BACKTICK).
  { rewrite lookup_here, Hw. destruct n; [lia|done]. }
  assert (Hdetect : detect_fence_start (pre ++ w ++ post) (length pre) = None).
  { unfold detect_fence_start. rewrite Hhead, Hrun. change (BACKTICK =? BACKTICK)%N with true. cbn [orb negb].
    destruct (at_line_start _ _) eqn:Hs; [|done]. apply line_start_here in Hs. cbv zeta. simpl.
    destruct (Nat.ltb_spec n 3); [done|]. by destruct Hfence. }
  exists fuel. split; [lia|]. cbn [mask_loop]. rewrite Hhead, Hdetect, Hrun.
  change (BACKTICK =? BACKTICK)%N with true.
  assert (Hdrop : drop (length pre + n) (pre ++ w ++ post) = code ++ replicate n BACKTICK ++ post).
  { rewrite <-drop_drop, drop_app_length, Hw. rewrite <-(length_replicate n BACKTICK) at 1. apply drop_app_length. }
  cbv zeta. rewrite Hdrop, find_backtick_run_here by done.
  assert (Hslice : slice (length pre) (length pre + n + length code + n) (pre ++ w ++ post) = w).
  { unfold slice. rewrite drop_app_length.
    replace (length pre + n + length code + n - length pre) with (length w) by lia. apply take_app_length. }
  by rewrite Hslice, length_fmap, length_app.
Qed.

(** The loop of a block goes on where it finds no closing line. *)
Lemma mask_fenced_walk cs start c n u : ∀ fuel idx,
  take (length u) (drop idx cs) = u →
  (∀ i, i < length u → idx + i = start ∨ at_line_start cs (idx + i) = false ∨ count_run cs (idx + i) c < n) →
  mask_fenced_block (length u + fuel) cs start idx c n =
    (mask_char <$> u) ++ mask_fenced_block fuel cs start (idx + length u) c n.
Proof.
  induction u as [|x u IH]; intros fuel idx Hu Hgo; [simpl; by rewrite Nat.add_0_r|].
  assert (Hx : cs !! idx = Some x).
  { destruct (drop idx cs) as [|y l] eqn:Hd; [done|]. simpl in Hu. injection Hu as -> _.
    rewrite <-(Nat.add_0_r idx), <-lookup_drop, Hd. done. }
  cbn [length Nat.add mask_fenced_block]. rewrite Hx.
  assert (Hcond : negb (idx =? start) && at_line_start cs idx && (n <=? count_run cs idx c) = false).
  { destruct (Hgo 0) as [H|[H|H]]; [simpl; lia|..]; rewrite Nat.add_0_r in H.
    - by rewrite H, Nat.eqb_refl.
    - by rewrite H, andb_false_r.
    - by rewrite (proj2 (Nat.leb_gt _ _) H), andb_false_r. }
  rewrite Hcond, IH.
  - simpl. by rewrite Nat.add_succ_r.
  - rewrite (drop_lookup_cons _ _ _ Hx) in Hu. simpl in Hu. by injection Hu.
  - intros i Hi. replace (S idx + i) with (idx + S i) by lia. apply Hgo. simpl. lia.
Qed.
Lemma mask_line_closes t post : NEWLINE ∉ t →
  mask_line (t ++ [NEWLINE] ++ post) = mask_char <$> (t ++ [NEWLINE]).
Proof.
  induction t as [|c t IH]; [done|]. intros [Hc Ht]%not_elem_of_cons. simpl.
  rewrite (proj2 (N.eqb_neq c NEWLINE)) by congruence. f_equal. by apply IH.
Qed.
Lemma head_body_fence (body rest : text) c : c ∉ body → c ≠ NEWLINE → head (body ++ [NEWLINE] ++ rest) ≠ Some c.
Proof. destruct body as [|d body]; simpl; [congruence|]. intros [? _]%not_elem_of_cons. congruence. Qed.
Lemma at_line_start_inside (pre u v : text) i : 0 < i → i ≤ length u → NEWLINE ∉ u →
  at_line_start (pre ++ u ++ v) (length pre + i) = false.
Proof.
  intros Hi Hle Hn. unfold at_line_start, char_is. apply orb_false_iff. split; [apply Nat.eqb_neq; lia|].
  apply bool_decide_eq_false. rewrite lookup_app_r, lookup_app_l by lia.
  intros Hx. apply Hn. eapply list_elem_of_lookup_2. exact Hx.
Qed.
Lemma mask_code_block pre c n body m tail : piece_ok pre (CodeBlock c n body m tail) →
  let w := write_piece (CodeBlock c n body m tail) in masks_to pre w (mask_char <$> w).
Proof.
  intros (Hc & Hn & Hbody & Htail & Hstart) w post fuel output Hf. destruct fuel as [|fuel]; [lia|].
  assert (Hcn : c ≠ NEWLINE) by by destruct Hc as [-> | ->].
  set (first := replicate n c ++ body ++ [NEWLINE]). set (close := replicate m c ++ tail).
  set (cs := pre ++ w ++ post).
  assert (Hcs : cs = (pre ++ first) ++ close ++ [NEWLINE] ++ post).
  { unfold cs, w. simpl. fold first close. by rewrite <-!app_assoc. }
  assert (Hrun0 : count_run cs (length pre) c = n).
  { unfold cs. rewrite count_run_here. unfold w. simpl. rewrite <-!app_assoc. apply run_length_replicate.
    by apply (head_body_fence body). }
  assert (Hhead : cs !! length pre = Some c).
  { unfold cs. rewrite lookup_here. unfold w. simpl. destruct n; [lia|done]. }
  assert (Hls : at_line_start cs (length pre) = true) by by apply line_start_here.
  assert (Hdetect : detect_fence_start cs (length pre) = Some (c, n)).
  { unfold detect_fence_start. rewrite Hhead, Hls, Hrun0. cbv zeta.
    destruct (Nat.ltb_spec n 3); [lia|]. by destruct Hc as [-> | ->]. }
  assert (Hgo : ∀ i, i < length first → length pre + i = length pre ∨
    at_line_start cs (length pre + i) = false ∨ count_run cs (length pre + i) c < n).
  { intros i Hi. destruct (Nat.eq_dec i 0) as [->|Hi0]; [left; lia|right].
    destruct (Nat.le_gt_cases i (length (replicate n c))) as [Hle|Hgt]; [left|right].
    - unfold cs, w. simpl. rewrite <-!app_assoc. apply at_line_start_inside; [lia|done|].
      by intros [? _]%elem_of_replicate.
    - assert (Hx : cs !! (length pre + i) ≠ Some c).
      { rewrite Hcs, <-app_assoc, lookup_app_r by lia. rewrite Nat.add_comm, Nat.add_sub, lookup_app_l by done.
        unfold first. rewrite lookup_app_r by lia. intros Hx%list_elem_of_lookup_2.
        apply elem_of_app in Hx as [Hx|Hx%list_elem_of_singleton]; [done|]. congruence. }
      assert (Hzero : count_run cs (length pre + i) c = 0); [|lia].
      unfold count_run. destruct (drop _ cs) as [|y l] eqn:Hd; [done|]. simpl.
      destruct (N.eqb_spec y c) as [->|]; [|done]. destruct Hx.
      rewrite <-(Nat.add_0_r (length pre + i)), <-lookup_drop, Hd. done. }
  assert (Hfenced : mask_fenced_block (length cs) cs (length pre) (length pre) c n = mask_char <$> w).
  { assert (Hlen : length first < length cs).
    { rewrite Hcs, !length_app. simpl. lia. }
    replace (length cs) with (length first + S (length cs - length first - 1)) by lia.
    rewrite mask_fenced_walk; [|by rewrite Hcs, <-app_assoc, drop_app_length, take_app_length|done].
    rewrite <-length_app. cbn [mask_fenced_block].
    rewrite Hcs at 1. rewrite lookup_here.
    destruct (head (close ++ [NEWLINE] ++ post)) as [y|] eqn:Hy; [|by destruct close].
    assert (Hclose : negb (length (pre ++ first) =? length pre) && at_line_start cs (length (pre ++ first))
       && (n <=? count_run cs (length (pre ++ first)) c) = true).
    { rewrite !andb_true_iff, negb_true_iff, Nat.eqb_neq, Nat.leb_le. rewrite length_app at 1. split_and!.
      - unfold first. rewrite !length_app. simpl. lia.
      - rewrite Hcs. apply line_start_here. right. unfold first. by rewrite !app_assoc, last_snoc.
      - rewrite Hcs, count_run_here. unfold close. rewrite <-app_assoc.
        pose proof (run_length_ge c m (tail ++ [NEWLINE] ++ post)). lia. }
    rewrite Hclose, Hcs, drop_app_length, mask_line_closes.
    - unfold w. simpl. fold first close. by rewrite <-fmap_app.
    - unfold close. intros [[? _]%elem_of_replicate|]%elem_of_app; [by destruct Hcn|done]. }
  exists fuel. split; [unfold w; simpl; rewrite !length_app; simpl; lia|].
  fold cs. cbn [mask_loop]. rewrite Hhead, Hdetect. cbv zeta. by rewrite Hfenced, length_fmap, length_app.
Qed.

Lemma link_written_uncoded target alias : link_written target alias →
  Forall (λ c, c ≠ BACKTICK ∧ c ≠ TILDE) (write_link target alias).
Proof.
  assert (Himpl : ∀ c, link_char c → c ≠ BACKTICK ∧ c ≠ TILDE) by (unfold link_char; set_solver).
  intros [Ht Ha]. unfold write_link. rewrite !Forall_app. split_and!.
  - by repeat constructor.
  - eapply Forall_impl; [exact Ht|]. naive_solver.
  - destruct alias as [a|]; [|constructor]. constructor; [done|]. eapply Forall_impl; [exact Ha|]. naive_solver.
  - by repeat constructor.
Qed.
Lemma mask_one_piece pre p : piece_ok pre p → masks_to pre (write_piece p) (write_piece (mask_piece p)).
Proof.
  destruct p as [t|before target after alias|target alias|n code|c n body m tail]; intros Hp.
  - apply mask_plain. eapply Forall_impl; [exact Hp|]. set_solver.
  - apply mask_plain, link_written_uncoded, Hp.
  - apply mask_plain, link_written_uncoded, Hp.
  - by apply mask_code_span.
  - by apply mask_code_block.
Qed.
Lemma mask_pieces ps : ∀ pre, pieces_ok pre ps → masks_to pre (write_pieces ps) (write_pieces (mask_piece <$> ps)).
Proof.
  induction ps as [|p ps IH]; intros pre; [intros _; apply mask_plain; constructor|].
  intros [Hp Hps]. unfold write_pieces. cbn [fmap list_fmap concat].
  apply masks_to_app; [by apply mask_one_piece|by apply IH].
Qed.
Lemma mask_code_regions_pieces ps : pieces_ok [] ps →
  mask_code_regions (write_pieces ps) = write_pieces (mask_piece <$> ps).
Proof.
  intros Hps. unfold mask_code_regions.
  destruct (mask_pieces ps [] Hps [] (S (length (write_pieces ps))) []) as (fuel & Hf & Heq); [lia|].
  cbn [app length] in Heq. rewrite app_nil_r in Heq. rewrite Heq. destruct fuel as [|fuel]; [lia|]. cbn [mask_loop].
  by rewrite (lookup_ge_None_2 (write_pieces ps)).
Qed.

(** *** Scanning pieces *)

Lemma scan_links_plain t rest fuel : Forall (λ c, c ≠ OPEN) t → length t < fuel →
  scan_links fuel (t ++ rest) = scan_links (fuel - length t) rest.
Proof.
  intros Ht. revert fuel. induction Ht as [|c t Hc _ IH]; intros fuel Hf; [by rewrite Nat.sub_0_r|].
  simpl in Hf. destruct fuel as [|fuel]; [lia|]. cbn [app scan_links length Nat.sub].
  destruct (t ++ rest) as [|d l] eqn:Hl.
  - apply app_eq_nil in Hl as [-> ->]. simpl. by destruct fuel.
  - apply N.eqb_neq in Hc. rewrite Hc. cbn [andb negb]. apply IH. lia.
Qed.
Lemma scan_links_link target alias rest fuel : link_written target alias →
  scan_links (S fuel) (write_link target alias ++ rest) =
    option_list (finalize_candidate target alias) ++ scan_links fuel rest.
Proof.
  assert (Himpl : ∀ c, link_char c → c ≠ NEWLINE ∧ c ≠ RETURN ∧ c ≠ CLOSE) by (unfold link_char; set_solver).
  intros [Ht Ha]. rewrite write_link_app. cbn [scan_links].
  rewrite scan_target_closes; [|eapply Forall_impl; [exact Ht|naive_solver]|eapply Forall_impl; [exact Ha|naive_solver]].
  cbn [N.eqb andb negb Nat.add app]. f_equal. f_equal.
  replace (target ++ write_alias alias ++ CLOSE :: CLOSE :: rest)
    with ((target ++ write_alias alias ++ [CLOSE; CLOSE]) ++ rest) by by rewrite <- !app_assoc.
  replace (length (target ++ write_alias alias) + 2) with (length (target ++ write_alias alias ++ [CLOSE; CLOSE]))
    by (rewrite !length_app; simpl; lia).
  apply drop_app_length.
Qed.
Lemma scan_links_nil fuel : scan_links fuel [] = [].
Proof. by destruct fuel. Qed.
Lemma masked_not_open t : Forall (λ c, c ≠ OPEN) (mask_char <$> t).
Proof.
  apply Forall_fmap, Forall_forall. intros c _. simpl. unfold mask_char.
  destruct (N.eqb_spec c NEWLINE) as [->|]; [done|]. by destruct (N.eqb_spec c RETURN) as [->|].
Qed.
(** What a piece that was masked leaves to the scan: no link, or one. *)
Lemma scan_links_piece pre p rest fuel : piece_ok pre p → length (write_piece (mask_piece p)) < fuel →
  ∃ fuel', fuel - length (write_piece (mask_piece p)) ≤ fuel' ∧
    scan_links fuel (write_piece (mask_piece p) ++ rest) = option_list (link_of p) ++ scan_links fuel' rest.
Proof.
  destruct p as [t|before target after alias|target alias|n code|c n body m tail]; intros Hp Hf.
  - eexists. split; [reflexivity|]. rewrite scan_links_plain; [done| |done].
    eapply Forall_impl; [exact Hp|]. set_solver.
  - destruct Hp as (Hw & Ht & Ha). destruct fuel as [|fuel]; [lia|]. exists fuel. split; [simpl; lia|].
    cbn [mask_piece write_piece]. rewrite scan_links_link by done. by rewrite finalize_padded.
  - destruct Hp as (Hw & Hb). destruct fuel as [|fuel]; [lia|]. exists fuel. split; [simpl; lia|].
    cbn [mask_piece write_piece]. rewrite scan_links_link by done. by rewrite finalize_blank.
  - eexists. split; [reflexivity|]. rewrite scan_links_plain; [done|apply masked_not_open|done].
  - eexists. split; [reflexivity|]. rewrite scan_links_plain; [done|apply masked_not_open|done].
Qed.
Lemma scan_links_pieces ps : ∀ pre fuel, pieces_ok pre ps → length (write_pieces (mask_piece <$> ps)) < fuel →
  scan_links fuel (write_pieces (mask_piece <$> ps)) = omap link_of ps.
Proof.
  induction ps as [|p ps IH]; intros pre fuel; [intros _ _; apply scan_links_nil|]. intros [Hp Hps] Hf.
  unfold write_pieces in *. cbn [fmap list_fmap concat omap list_omap] in *. rewrite length_app in Hf.
  destruct (scan_links_piece pre p (concat (write_piece <$> (mask_piece <$> ps))) fuel Hp) as (f & Hle & ->); [lia|].
  rewrite (IH _ f Hps) by (unfold fmap in *; lia). by destruct (link_of p).
Qed.

(** C40: links survive being written. A text put together from plain parts, links with any
    blanks around target and alias, links with a blank target or alias, code spans and code
    blocks gives back exactly its links, in order and numbered, each with its target and its
    alias without the blanks around them. A blank link is no link, and neither is anything
    that stands in code, be it written as a link. *)
Theorem extract_wikilinks_written (ps : list Piece) :
  pieces_ok [] ps →
  extract_wikilinks (write_pieces ps) =
    imap (λ ordinal link, {| target := link.1; alias := link.2; ordinal := ordinal |}) (omap link_of ps).
Proof.
  intros Hps. unfold extract_wikilinks, scan_text_for_wikilinks. rewrite mask_code_regions_pieces by done.
  f_equal. apply (scan_links_pieces ps []); [done|lia].
Qed.
