(* ===== verification/Extract.v ===== *)
(** * What the index stores of a note (crates/kuku-indexer/src/extract.rs)

    Front matter is flattened into entries, the events of the Markdown parser are
    gathered into blocks, blocks into chunks under the sections of their headings. *)
From Stdlib Require Import Ascii String.
#[local] Set Warnings "-clear-no-such-hyp,-register-all".
From S2P Require Import Prelude Text Chars Indexer Wikilinks.

(** ** Data *)

Record FrontmatterEntry := { fe_key : text; fe_value : text }.
Inductive ChunkKind := Prose | CodeChunk | HeadingChunk.
#[export] Instance ChunkKind_eq_dec : EqDecision ChunkKind.
Proof. solve_decision. Defined.
Record ExtractedChunk := {
  ec_kind : ChunkKind;
  ec_text : text;
  ec_raw_text : text;
  ec_global_start : nat;
  ec_global_end : nat }.
Record Section_ := { sc_path : list text; sc_level : nat; sc_chunks : list ExtractedChunk }.
Record ExtractedDocument := {
  ed_title : option text;
  ed_frontmatter : list FrontmatterEntry;
  ed_sections : list Section_;
  ed_wikilinks : list ExtractedWikilink;
  ed_normalized_text : text }.
Inductive BlockKind := BlockParagraph | BlockHeading (level : nat) | BlockCode | BlockQuote | BlockItem | BlockTableRow.
Record BlockBuffer := { bb_kind : BlockKind; bb_raw : text }.

(** The events of pulldown_cmark that the code tells apart *)
Inductive MarkdownTag :=
| TagParagraph
| TagHeading (level : nat)
| TagCodeBlock (fenced : option text)
| TagBlockQuote
| TagItem
| TagTableRow
| TagOther.
Inductive MarkdownEvent :=
| StartTag (tag : MarkdownTag)
| EndTag (tag : MarkdownTag)
| TextEvent (t : text)
| CodeEvent (t : text)
| SoftBreak
| HardBreak
| Rule
| OtherEvent.
Class MarkdownParser := { markdown_events : text → list MarkdownEvent }.

(** serde_yaml *)
Inductive Yaml :=
| YamlNull
| YamlBool (b : bool)
| YamlNumber (shown : text)
| YamlString (s : text)
| YamlSequence (l : list Yaml)
| YamlMapping (m : list (Yaml * Yaml))
| YamlTagged (tag : text) (v : Yaml).
Class YamlValues := { yaml_value : text → option Yaml; yaml_shown : Yaml → text }.

Definition txt (s : string) : text := chars s.

(** ** Front matter *)

(** [str::lines] *)
Fixpoint lines_of_text (current : text) (t : text) : list text :=
  match t with
  | [] => match current with [] => [] | _ => [current] end
  | c :: t =>
      if (c =? NEWLINE)%N
      then (if bool_decide (last current = Some RETURN) then removelast current else current) :: lines_of_text [] t
      else lines_of_text (current ++ [c]) t
  end.
Definition text_lines (t : text) : list text := lines_of_text [] t.
Fixpoint split_yaml (yaml : list text) (lines : list text) : option (list text * list text) :=
  match lines with
  | [] => None
  | line :: lines => if bool_decide (line = txt "---") then Some (yaml, lines) else split_yaml (yaml ++ [line]) lines
  end.

Section extract.
Context `{Unicode, YamlValues, MarkdownParser}.

Definition FRONTMATTER_MAX_DEPTH : nat := 32.
(** [Value::as_str] looks through tags. *)
Fixpoint yaml_key (v : Yaml) : text := match v with YamlString s => s | YamlTagged _ v => yaml_key v | _ => [] end.
Definition scalar_text (v : Yaml) : text :=
  match v with
  | YamlNull => []
  | YamlBool b => txt (if b then "true" else "false")
  | YamlNumber shown => shown
  | YamlString s => s
  | _ => trim_text (yaml_shown v)
  end.
(** [depth] counts down from [FRONTMATTER_MAX_DEPTH]. *)
Fixpoint flatten_yaml (depth : nat) (prefix : text) (value : Yaml) : list FrontmatterEntry :=
  match depth with
  | O => [{| fe_key := prefix; fe_value := trim_text (yaml_shown value) |}]
  | S depth =>
      match value with
      | YamlMapping map =>
          concat ((λ kv : Yaml * Yaml,
            let key := yaml_key kv.1 in
            flatten_yaml depth (match prefix with [] => key | _ => prefix ++ txt "." ++ key end) kv.2) <$> map)
      | YamlSequence seq =>
          concat (imap (λ idx child,
            flatten_yaml depth (prefix ++ txt "[" ++ txt (fmt_int (Z.of_nat idx)) ++ txt "]") child) seq)
      | _ => [{| fe_key := prefix; fe_value := scalar_text value |}]
      end
  end.
Definition split_frontmatter (markdown : text) : list FrontmatterEntry * text :=
  match text_lines markdown with
  | first :: rest =>
      if bool_decide (first = txt "---") then
        match split_yaml [] rest with
        | None => ([], markdown)
        | Some (yaml_lines, body_lines) =>
            (match yaml_value (join_texts [NEWLINE] yaml_lines) with
             | Some value => flatten_yaml FRONTMATTER_MAX_DEPTH [] value
             | None => []
             end, join_texts [NEWLINE] body_lines)
        end
      else ([], markdown)
  | [] => ([], markdown)
  end.

(** ** Chunks *)

(** The state of the extraction *)
Record Extraction := {
  ex_sections : list Section_;
  ex_heading_stack : list text;
  ex_title : option text;
  ex_buffer : option BlockBuffer;
  ex_cursor : nat }.
Definition push_chunk (c : ExtractedChunk) (sections : list Section_) : list Section_ :=
  let sections := match sections with [] => [{| sc_path := []; sc_level := 0; sc_chunks := [] |}] | _ => sections end in
  match last sections with
  | Some s => removelast sections ++ [{| sc_path := sc_path s; sc_level := sc_level s; sc_chunks := sc_chunks s ++ [c] |}]
  | None => sections
  end.
Definition append_part (kind : ChunkKind) (st : list Section_ * nat) (raw_part : text) : list Section_ * nat :=
  let '(sections, cursor) := st in
  let normalized := normalize_text raw_part in
  match normalized with
  | [] => (sections, cursor)
  | _ =>
      let end_ := cursor + length raw_part in
      (push_chunk {| ec_kind := kind; ec_text := normalized; ec_raw_text := raw_part;
                     ec_global_start := cursor; ec_global_end := end_ |} sections, end_ + 1)
  end.
Definition append_chunk (sections : list Section_) (kind : ChunkKind) (raw_text : text) (cursor : nat)
  : list Section_ * nat :=
  foldl (append_part kind) (sections, cursor) (split_chunk_text raw_text).

Definition set_sections (x : Extraction) (s : list Section_ * nat) : Extraction :=
  {| ex_sections := s.1; ex_heading_stack := ex_heading_stack x; ex_title := ex_title x;
     ex_buffer := ex_buffer x; ex_cursor := s.2 |}.
Definition set_buffer (x : Extraction) (b : option BlockBuffer) : Extraction :=
  {| ex_sections := ex_sections x; ex_heading_stack := ex_heading_stack x; ex_title := ex_title x;
     ex_buffer := b; ex_cursor := ex_cursor x |}.
Definition flush_buffer (x : Extraction) : Extraction :=
  match ex_buffer x with
  | None => x
  | Some block =>
      let x := set_buffer x None in
      let raw := trim_text (bb_raw block) in
      match raw with
      | [] => x
      | _ =>
          match bb_kind block with
          | BlockHeading level =>
              let title := match ex_title x with None => Some raw | Some t => Some t end in
              let stack := take (level - 1) (ex_heading_stack x) ++ [raw] in
              let sections := ex_sections x ++ [{| sc_path := stack; sc_level := level; sc_chunks := [] |}] in
              set_sections {| ex_sections := sections; ex_heading_stack := stack; ex_title := title;
                              ex_buffer := None; ex_cursor := ex_cursor x |}
                (append_chunk sections HeadingChunk raw (ex_cursor x))
          | BlockCode => set_sections x (append_chunk (ex_sections x) CodeChunk raw (ex_cursor x))
          | _ => set_sections x (append_chunk (ex_sections x) Prose raw (ex_cursor x))
          end
      end
  end.
Definition open_block (kind : BlockKind) (raw : text) : option BlockBuffer := Some {| bb_kind := kind; bb_raw := raw |}.
Definition push_raw (x : Extraction) (t : text) : Extraction :=
  set_buffer x ((λ b, {| bb_kind := bb_kind b; bb_raw := bb_raw b ++ t |}) <$> ex_buffer x).
Definition extract_event (x : Extraction) (e : MarkdownEvent) : Extraction :=
  match e with
  | StartTag TagParagraph => set_buffer x (open_block BlockParagraph [])
  | StartTag (TagHeading level) => set_buffer x (open_block (BlockHeading level) [])
  | StartTag (TagCodeBlock fenced) =>
      let raw := match fenced with Some (c :: lang) => (c :: lang) ++ [NEWLINE] | _ => [] end in
      set_buffer x (open_block BlockCode raw)
  | StartTag TagBlockQuote => set_buffer x (open_block BlockQuote [])
  | StartTag TagItem => set_buffer x (open_block BlockItem [])
  | StartTag TagTableRow => set_buffer x (open_block BlockTableRow [])
  | StartTag TagOther | EndTag TagOther | OtherEvent => x
  | EndTag _ | Rule => flush_buffer x
  | TextEvent t | CodeEvent t => push_raw x t
  | SoftBreak | HardBreak => push_raw x [NEWLINE]
  end.
Definition first_title (frontmatter : list FrontmatterEntry) : option text :=
  fe_value <$> List.find (λ e, bool_decide (fe_key e = txt "title")) (reverse frontmatter).
Definition extraction_start (title : option text) : Extraction :=
  {| ex_sections := [{| sc_path := []; sc_level := 0; sc_chunks := [] |}]; ex_heading_stack := [];
     ex_title := title; ex_buffer := None; ex_cursor := 0 |}.
Definition extract_events (title : option text) (events : list MarkdownEvent) : Extraction :=
  flush_buffer (foldl extract_event (extraction_start title) events).
Definition all_chunks (sections : list Section_) : list ExtractedChunk := concat (sc_chunks <$> sections).
Definition extract_document (markdown : text) : ExtractedDocument :=
  let '(frontmatter, body) := split_frontmatter markdown in
  let wikilinks := extract_wikilinks body in
  let x := extract_events (first_title frontmatter) (markdown_events body) in
  {| ed_title := ex_title x; ed_frontmatter := frontmatter; ed_sections := ex_sections x;
     ed_wikilinks := wikilinks;
     ed_normalized_text := join_texts [32%N] (ec_text <$> all_chunks (ex_sections x)) |}.
End extract.

(** ** Where the chunks are *)

Section layout.
Context `{Unicode}.

(** Chunks that follow each other with one character between them, from a position on
    and up to another one *)
Fixpoint laid_out (from : nat) (cs : list ExtractedChunk) (to : nat) : Prop :=
  match cs with
  | [] => to = from
  | c :: cs =>
      ec_global_start c = from ∧ ec_global_end c = from + length (ec_raw_text c) ∧
      ec_text c = normalize_text (ec_raw_text c) ∧ ec_text c ≠ [] ∧ length (ec_raw_text c) ≤ CHUNK_MAX_CHARS ∧
      laid_out (ec_global_end c + 1) cs to
  end.
Lemma laid_out_snoc from cs to c : laid_out from cs to →
  ec_global_start c = to → ec_global_end c = to + length (ec_raw_text c) →
  ec_text c = normalize_text (ec_raw_text c) → ec_text c ≠ [] → length (ec_raw_text c) ≤ CHUNK_MAX_CHARS →
  laid_out from (cs ++ [c]) (ec_global_end c + 1).
Proof.
  revert from. induction cs as [|d cs IH]; intros from; simpl; [by intros ->|].
  intros (? & ? & ? & ? & ? & Hl) ? ? ? ? ?. split_and!; [done..|]. by apply IH.
Qed.
Definition section_ok (s : Section_) : Prop :=
  length (sc_path s) ≤ sc_level s ∧ (0 < sc_level s → sc_path s ≠ []).
Lemma push_chunk_spec c sections : sections ≠ [] →
  all_chunks (push_chunk c sections) = all_chunks sections ++ [c] ∧ push_chunk c sections ≠ [] ∧
  (λ s, (sc_path s, sc_level s)) <$> push_chunk c sections = (λ s, (sc_path s, sc_level s)) <$> sections.
Proof.
  intros Hne. destruct sections as [|s l _] using rev_ind; [done|].
  assert (Hpush : push_chunk c (l ++ [s]) =
    l ++ [{| sc_path := sc_path s; sc_level := sc_level s; sc_chunks := sc_chunks s ++ [c] |}]).
  { unfold push_chunk. destruct (l ++ [s]) eqn:Hl; [by destruct l|]. rewrite <- Hl.
    by rewrite last_snoc, removelast_last. }
  rewrite Hpush. split; [|split; [by destruct l|by rewrite !fmap_app]].
  unfold all_chunks. rewrite !fmap_app, !concat_app. simpl. by rewrite !app_nil_r, app_assoc.
Qed.
Lemma section_ok_same (l l' : list Section_) :
  (λ s, (sc_path s, sc_level s)) <$> l = (λ s, (sc_path s, sc_level s)) <$> l' → Forall section_ok l → Forall section_ok l'.
Proof.
  intros Heq Hl. apply Forall_forall. intros s Hs.
  assert (Hin : (sc_path s, sc_level s) ∈ (λ s, (sc_path s, sc_level s)) <$> l).
  { rewrite Heq. by apply (list_elem_of_fmap_2 (λ s, (sc_path s, sc_level s))). }
  apply list_elem_of_fmap in Hin as (s' & Hs' & Hin). injection Hs' as Hp Hlev.
  apply (proj1 (Forall_forall _ _) Hl) in Hin. unfold section_ok in *. by rewrite Hp, Hlev.
Qed.

Definition placed (st : list Section_ * nat) : Prop :=
  st.1 ≠ [] ∧ Forall section_ok st.1 ∧ laid_out 0 (all_chunks st.1) st.2.
Lemma append_part_placed kind st part : length part ≤ CHUNK_MAX_CHARS → placed st → placed (append_part kind st part).
Proof.
  intros Hmax. destruct st as [sections cursor]. intros (Hne & Hok & Hl). unfold append_part. simpl in *.
  destruct (normalize_text part) as [|c t] eqn:Hn; [done|].
  set (chunk := {| ec_kind := kind; ec_text := c :: t; ec_raw_text := part; ec_global_start := cursor;
                   ec_global_end := cursor + length part |}).
  destruct (push_chunk_spec chunk sections Hne) as (Hall & Hne' & Hsame).
  split_and!; [done|by eapply section_ok_same|]. cbn [fst snd]. rewrite Hall.
  by apply (laid_out_snoc 0 _ cursor chunk).
Qed.
Lemma append_chunk_placed sections kind raw cursor :
  placed (sections, cursor) → placed (append_chunk sections kind raw cursor).
Proof.
  unfold append_chunk. generalize (sections, cursor). induction (split_chunk_text_bounded raw) as [|part l Hpart _ IH];
    intros st Hst; [done|]. simpl. apply IH. by apply append_part_placed.
Qed.
Definition levels_ok (e : MarkdownEvent) : Prop := match e with StartTag (TagHeading level) => 0 < level | _ => True end.
Definition extraction_ok (x : Extraction) : Prop :=
  placed (ex_sections x, ex_cursor x) ∧
  match ex_buffer x with Some {| bb_kind := BlockHeading level |} => 0 < level | _ => True end.
Lemma flush_buffer_ok x : extraction_ok x → extraction_ok (flush_buffer x).
Proof.
  intros [Hp Hb]. unfold flush_buffer. destruct (ex_buffer x) as [[kind raw]|] eqn:Hbuf; [|by split; [|rewrite Hbuf]].
  simpl. destruct (trim_text raw) as [|c t]; [by split|].
  assert (Hplain : ∀ k, extraction_ok (set_sections (set_buffer x None) (append_chunk (ex_sections x) k (c :: t) (ex_cursor x)))).
  { intros k. split; [|done]. unfold set_sections. simpl.
    pose proof (append_chunk_placed _ k (c :: t) _ Hp) as Hplaced. by destruct (append_chunk _ _ _ _). }
  destruct kind as [|level| | | |]; try apply Hplain.
  destruct Hp as (Hne & Hok & Hl). split; [|done]. simpl.
  match goal with |- placed (?st.1, ?st.2) => enough (Hplaced : placed st) by by destruct st end.
  apply append_chunk_placed. split_and!; simpl.
  - by destruct (ex_sections x).
  - apply Forall_app. split; [done|]. apply Forall_singleton. split; simpl.
    + rewrite length_app, length_take. simpl. lia.
    + intros _ Hnil%(f_equal length). rewrite length_app in Hnil. simpl in Hnil. lia.
  - unfold all_chunks. rewrite fmap_app, concat_app. simpl. by rewrite app_nil_r.
Qed.
Lemma set_buffer_ok x b : extraction_ok x →
  match b with Some {| bb_kind := BlockHeading level |} => 0 < level | _ => True end → extraction_ok (set_buffer x b).
Proof. by intros [Hp _] Hb. Qed.
Lemma push_raw_ok x t : extraction_ok x → extraction_ok (push_raw x t).
Proof. intros Hx. apply set_buffer_ok; [done|]. destruct Hx as [_ Hb]. by destruct (ex_buffer x) as [[]|]. Qed.
Lemma extract_event_ok x e : levels_ok e → extraction_ok x → extraction_ok (extract_event x e).
Proof.
  intros He Hx. destruct e as [tag|tag|t|t| | | |]; try (by apply push_raw_ok); try (by apply flush_buffer_ok); [..|done].
  - by destruct tag as [|level|[[]|]| | | |]; try (by apply set_buffer_ok).
  - by destruct tag; try (by apply flush_buffer_ok).
Qed.
Lemma extract_events_ok title events : Forall levels_ok events → extraction_ok (extract_events title events).
Proof.
  intros He. apply flush_buffer_ok.
  assert (Hstart : extraction_ok (extraction_start title)).
  { split; [|done]. split_and!; [done| |done]. apply Forall_singleton. split; simpl; lia. }
  revert Hstart. generalize (extraction_start title). induction He as [|e events He _ IH]; intros x Hx; [done|].
  simpl. apply IH. by apply extract_event_ok.
Qed.
End layout.

(** ** No text is lost *)

Section flat.
Context `{Unicode}.

Inductive Inline := InlineText (t : text) | InlineCode (t : text) | InlineSoftBreak | InlineHardBreak.
Definition inline_event (i : Inline) : MarkdownEvent :=
  match i with
  | InlineText t => TextEvent t
  | InlineCode t => CodeEvent t
  | InlineSoftBreak => SoftBreak
  | InlineHardBreak => HardBreak
  end.
Definition inline_text (i : Inline) : text :=
  match i with InlineText t | InlineCode t => t | InlineSoftBreak | InlineHardBreak => [NEWLINE] end.
(** A block of a document without nested blocks *)
Record FlatBlock := { fb_tag : MarkdownTag; fb_inlines : list Inline }.
Definition flat_events (b : FlatBlock) : list MarkdownEvent :=
  StartTag (fb_tag b) :: (inline_event <$> fb_inlines b) ++ [EndTag (fb_tag b)].
Definition block_kind (tag : MarkdownTag) : option ChunkKind :=
  match tag with
  | TagOther => None
  | TagHeading _ => Some HeadingChunk
  | TagCodeBlock _ => Some CodeChunk
  | _ => Some Prose
  end.
Definition block_text (b : FlatBlock) : text :=
  match fb_tag b with TagCodeBlock (Some (c :: lang)) => (c :: lang) ++ [NEWLINE] | _ => [] end
  ++ concat (inline_text <$> fb_inlines b).
(** The chunks of a block: those of its text, if it is not blank. *)
Definition block_chunks (b : FlatBlock) : list (ChunkKind * text) :=
  match block_kind (fb_tag b), trim_text (block_text b) with
  | Some kind, (_ :: _) as raw => (pair kind) <$> filter (λ part, normalize_text part ≠ []) (split_chunk_text raw)
  | _, _ => []
  end.
Definition kept (sections : list Section_) : list (ChunkKind * text) :=
  (λ c, (ec_kind c, ec_raw_text c)) <$> all_chunks sections.

Lemma append_chunk_kept sections kind raw cursor : sections ≠ [] →
  kept (append_chunk sections kind raw cursor).1 =
    kept sections ++ ((pair kind) <$> filter (λ part, normalize_text part ≠ []) (split_chunk_text raw)) ∧
  (append_chunk sections kind raw cursor).1 ≠ [].
Proof.
  unfold append_chunk. generalize (split_chunk_text raw). intros l. revert sections cursor.
  induction l as [|part l IH]; intros sections cursor Hne; [by rewrite app_nil_r|].
  cbn [foldl append_part]. cbv zeta. destruct (normalize_text part) as [|c t] eqn:Hn.
  - rewrite filter_cons_False by naive_solver. by apply IH.
  - rewrite filter_cons_True by congruence.
    set (chunk := {| ec_kind := kind; ec_text := c :: t; ec_raw_text := part; ec_global_start := cursor;
                     ec_global_end := cursor + length part |}).
    destruct (push_chunk_spec chunk sections Hne) as (Hall & Hne' & _).
    destruct (IH (push_chunk chunk sections) (cursor + length part + 1) Hne') as [Hkept Hne2].
    split; [|done]. rewrite Hkept. unfold kept. rewrite Hall, fmap_app, <- app_assoc. done.
Qed.
Lemma flush_kept x kind raw : ex_sections x ≠ [] → ex_buffer x = Some {| bb_kind := kind; bb_raw := raw |} →
  let k := match kind with BlockHeading _ => HeadingChunk | BlockCode => CodeChunk | _ => Prose end in
  kept (ex_sections (flush_buffer x)) = kept (ex_sections x) ++
    match trim_text raw with
    | [] => []
    | raw => (pair k) <$> filter (λ part, normalize_text part ≠ []) (split_chunk_text raw)
    end ∧ ex_buffer (flush_buffer x) = None ∧ ex_sections (flush_buffer x) ≠ [].
Proof.
  intros Hne Hb k. unfold flush_buffer. rewrite Hb. cbn [bb_raw bb_kind].
  destruct (trim_text raw) as [|c t]; [by rewrite app_nil_r|].
  assert (Hplain : ∀ k' cursor, kept (append_chunk (ex_sections x) k' (c :: t) cursor).1 = _ ∧ _ ≠ [])
    by (intros k' cursor; by apply append_chunk_kept).
  destruct kind as [|level| | | |]; simpl in *; try (split_and!; [apply Hplain|done|apply Hplain]).
  match goal with |- context [append_chunk ?s HeadingChunk ?r ?cur] =>
    destruct (append_chunk_kept s HeadingChunk r cur) as [Hkept Hne']; [by destruct (ex_sections x)|] end.
  split_and!; [|done|done]. rewrite Hkept. f_equal. unfold kept, all_chunks.
  by rewrite fmap_app, concat_app, app_nil_r.
Qed.
Lemma inlines_pushed inlines x kind raw : ex_buffer x = Some {| bb_kind := kind; bb_raw := raw |} →
  let x' := foldl extract_event x (inline_event <$> inlines) in
  ex_buffer x' = Some {| bb_kind := kind; bb_raw := raw ++ concat (inline_text <$> inlines) |} ∧
  ex_sections x' = ex_sections x.
Proof.
  revert x raw. induction inlines as [|i inlines IH]; intros x raw Hb; [by rewrite app_nil_r|]. simpl.
  assert (Hpush : ∀ t, ex_buffer (push_raw x t) = Some {| bb_kind := kind; bb_raw := raw ++ t |} ∧
                       ex_sections (push_raw x t) = ex_sections x).
  { intros t. unfold push_raw. by rewrite Hb. }
  assert (Hone : ∃ t, inline_text i = t ∧ extract_event x (inline_event i) = push_raw x t)
    by (destruct i; simpl; eauto).
  destruct Hone as (t & -> & ->). destruct (Hpush t) as [Hb' Hs]. destruct (IH _ _ Hb') as [Hb2 Hs2].
  split; [|etransitivity; [exact Hs2|exact Hs]].
  etransitivity; [exact Hb2|]. unfold open_block. cbn [fmap list_fmap concat]. by rewrite <- app_assoc.
Qed.
Lemma start_block b x : block_kind (fb_tag b) ≠ None →
  ∃ kind raw, extract_event x (StartTag (fb_tag b)) = set_buffer x (open_block kind raw) ∧
    raw ++ concat (inline_text <$> fb_inlines b) = block_text b ∧
    block_kind (fb_tag b) = Some (match kind with BlockHeading _ => HeadingChunk | BlockCode => CodeChunk | _ => Prose end) ∧
    ∀ x, extract_event x (EndTag (fb_tag b)) = flush_buffer x.
Proof. intros Hk. unfold block_text. destruct (fb_tag b) as [|level|lang| | | |]; try done; simpl; eauto 10. Qed.
Lemma dropped_inlines inlines x : ex_buffer x = None →
  let x' := foldl extract_event x (inline_event <$> inlines) in
  ex_buffer x' = None ∧ ex_sections x' = ex_sections x.
Proof.
  revert x. induction inlines as [|i inlines IH]; intros x Hb; [done|]. simpl.
  assert (Hone : ∃ t, extract_event x (inline_event i) = push_raw x t) by (destruct i; simpl; eauto).
  destruct Hone as [t ->]. destruct (IH (push_raw x t)) as [Hb' Hs']; [unfold push_raw; by rewrite Hb|]. done.
Qed.
Lemma flat_block_kept b x : ex_sections x ≠ [] → ex_buffer x = None →
  let x' := foldl extract_event x (flat_events b) in
  kept (ex_sections x') = kept (ex_sections x) ++ block_chunks b ∧ ex_buffer x' = None ∧ ex_sections x' ≠ [].
Proof.
  intros Hne Hb. unfold flat_events. cbv zeta. cbn [foldl]. rewrite foldl_app. cbn [foldl].
  destruct (decide (block_kind (fb_tag b) = None)) as [Hnone|Hsome].
  - unfold block_chunks. rewrite Hnone, app_nil_r.
    assert (Hskip : ∀ x, extract_event x (StartTag (fb_tag b)) = x ∧ extract_event x (EndTag (fb_tag b)) = x)
      by (by destruct (fb_tag b)).
    rewrite (proj1 (Hskip _)), (proj2 (Hskip _)).
    destruct (dropped_inlines (fb_inlines b) x Hb) as [-> ->]. done.
  - destruct (start_block b x Hsome) as (kind & raw & -> & Htext & Hkind & ->).
    destruct (inlines_pushed (fb_inlines b) (set_buffer x (open_block kind raw)) kind raw eq_refl) as [Hb' Hs'].
    rewrite Htext in Hb'. cbn [ex_sections set_buffer] in Hs'.
    destruct (flush_kept _ _ _ ltac:(rewrite Hs'; exact Hne) Hb') as (Hkept & Hb2 & Hne2).
    split_and!; [|done..]. rewrite Hkept, Hs'. f_equal. unfold block_chunks. rewrite Hkind.
    by destruct (trim_text (block_text b)).
Qed.

(** Nothing of a document whose blocks hold only inline text is lost or reordered: its chunks are, block by
    block, the pieces of the block's text, of the block's kind. *)
Theorem extract_flat_document title (blocks : list FlatBlock) :
  kept (ex_sections (extract_events title (concat (flat_events <$> blocks)))) = concat (block_chunks <$> blocks).
Proof.
  unfold extract_events.
  assert (Hall : ∀ x, ex_sections x ≠ [] → ex_buffer x = None →
    let x' := foldl extract_event x (concat (flat_events <$> blocks)) in
    kept (ex_sections x') = kept (ex_sections x) ++ concat (block_chunks <$> blocks) ∧ ex_buffer x' = None).
  { induction blocks as [|b blocks IH]; intros x Hne Hb; [by rewrite app_nil_r|]. cbn [fmap list_fmap concat]. cbv zeta.
    rewrite foldl_app. destruct (flat_block_kept b x Hne Hb) as (Hkept & Hb' & Hne').
    destruct (IH _ Hne' Hb') as [Hkept2 Hb2]. split; [|done]. by rewrite Hkept2, Hkept, <- app_assoc. }
  destruct (Hall (extraction_start title)) as [Hkept Hb]; [done..|].
  unfold flush_buffer. by rewrite Hb, Hkept.
Qed.
End flat.

Section document.
Context `{Unicode, YamlValues, MarkdownParser, Alphabet}.
(** For any events of the parser: the chunks of a document are those of its sections in order, none is empty or
    longer than the bound, each stands for the characters between its two positions, with exactly one
    position between a chunk and the next one, and a section's path is never deeper than its level. *)
Theorem extract_document_layout markdown :
  (∀ body, Forall levels_ok (markdown_events body)) →
  let d := extract_document markdown in
  Forall section_ok (ed_sections d) ∧ ed_sections d ≠ [] ∧
  (∃ to, laid_out 0 (all_chunks (ed_sections d)) to) ∧
  ed_normalized_text d = join_texts [32%N] (ec_text <$> all_chunks (ed_sections d)).
Proof.
  intros Hevents. unfold extract_document. destruct (split_frontmatter markdown) as [frontmatter body]. cbv zeta.
  destruct (extract_events_ok (first_title frontmatter) (markdown_events body) (Hevents body)) as [(Hne & Hok & Hl) _].
  simpl in *. split_and!; eauto.
Qed.
End document.
