(* ===== verification/IndexerExamples.v ===== *)
(** * The indexer at work: concrete texts, and where it falls short

    Witnesses of the indexer's theorems, and two texts for which it does not do what
    it is for. *)
From Stdlib Require Import Ascii String.
#[local] Set Warnings "-clear-no-such-hyp,-register-all".
From S2P Require Import Prelude Text Chars Indexer Wikilinks Extract.

(** Letters and digits of ASCII *)
#[local] Instance ascii_alphabet : Alphabet :=
  {| is_alphanumeric c := (((48 <=? c) && (c <=? 57)) || ((65 <=? c) && (c <=? 90)) || ((97 <=? c) && (c <=? 122)))%N |}.
(** A parser for paragraphs and headings of one line each *)
Definition line_events (line : text) : list MarkdownEvent :=
  match line with
  | 35%N :: 35%N :: 32%N :: t => [StartTag (TagHeading 2); TextEvent t; EndTag (TagHeading 2)]
  | 35%N :: 32%N :: t => [StartTag (TagHeading 1); TextEvent t; EndTag (TagHeading 1)]
  | [] => []
  | t => [StartTag TagParagraph; TextEvent t; EndTag TagParagraph]
  end.
#[local] Instance line_parser : MarkdownParser := {| markdown_events t := concat (line_events <$> text_lines t) |}.
Lemma line_parser_levels body : Forall levels_ok (markdown_events body).
Proof.
  apply Forall_concat, Forall_fmap, Forall_true. intros line. unfold compose, line_events.
  repeat (case_match; subst; try (repeat constructor; done)).
Qed.
(** One pair of a key and a string *)
#[local] Instance one_pair : YamlValues :=
  {| yaml_value t :=
       match list_find (N.eqb 58) t with
       | Some (n, _) => Some (YamlMapping [(YamlString (take n t), YamlString (trim_text (drop (S n) t)))])
       | None => None
       end;
     yaml_shown _ := [] |}.

Module Ascii_.
#[local] Existing Instance Concrete.ascii_unicode.

Definition note : text :=
  txt "---
title: Plan
---
# Goals
See [[Road Map|the map]] and `[[code]]`.
## Next
Ship it".
Example note_extracted :
  let d := extract_document note in
  ed_title d = Some (txt "Plan") ∧
  (sc_path <$> ed_sections d) = [[]; [txt "Goals"]; [txt "Goals"; txt "Next"]] ∧
  ed_wikilinks d = [{| target := txt "Road Map"; alias := Some (txt "the map"); ordinal := 0 |}] ∧
  ed_normalized_text d = txt "goals see [[road map|the map]] and `[[code]]`. next ship it".
Proof. vm_compute. done. Qed.
Lemma extract_document_layout_witness :
  Forall section_ok (ed_sections (extract_document note)) ∧
  length (all_chunks (ed_sections (extract_document note))) = 4.
Proof. split; [apply (extract_document_layout note), line_parser_levels|vm_compute; reflexivity]. Defined.

Definition link_pieces : list Piece :=
  [Plain (txt "See "); Link (txt " ") (txt "Road Map") (txt " ") (Some (txt " ", txt "map", [])); Plain (txt ", ");
   BlankLink (txt "  ") None; CodeSpan 1 (txt "[[code]]"); Link [] (txt "b") [] None; Plain [NEWLINE];
   CodeBlock BACKTICK 3 (txt "rust" ++ [NEWLINE] ++ txt "[[block]]") 3 []; BlankLink (txt "c") (Some (txt " "))].
Lemma extract_wikilinks_written_witness :
  pieces_ok [] link_pieces ∧
  extract_wikilinks (write_pieces link_pieces) =
    [{| target := txt "Road Map"; alias := Some (txt "map"); ordinal := 0 |}; {| target := txt "b"; alias := None; ordinal := 1 |}].
Proof.
  assert (Hok : pieces_ok [] link_pieces).
  { cbn [pieces_ok link_pieces piece_ok]. split_and!; try exact I;
      try (apply (bool_decide_unpack _); vm_compute; exact I).
    - intros a Ha. injection Ha as <-. split_and!; try reflexivity; apply (bool_decide_unpack _); vm_compute; exact I.
    - left. apply (bool_decide_unpack _); vm_compute; exact I.
    - intros a Ha. discriminate Ha.
    - right. exists (txt " "). split; [reflexivity|]. apply (bool_decide_unpack _); vm_compute; exact I. }
  split; [exact Hok|]. rewrite (extract_wikilinks_written link_pieces Hok). vm_compute. reflexivity.
Defined.
Lemma extract_wikilinks_sound_witness :
  ∃ blanked pre raw alias post, Forall2 masked note blanked ∧ blanked = pre ++ write_link raw alias ++ post ∧
    finalize_candidate raw alias = Some (txt "Road Map", Some (txt "the map")).
Proof.
  destruct (extract_wikilinks_sound note {| target := txt "Road Map"; alias := Some (txt "the map"); ordinal := 0 |})
    as (blanked & pre & raw & alias & post & Hm & Hb & _ & _ & Hf & _).
  - apply list_elem_of_lookup. exists 0. vm_compute. reflexivity.
  - exists blanked, pre, raw, alias, post. done.
Defined.

Definition long_text : text := concat (replicate 300 (txt "word. ")).
Lemma split_chunk_text_covers_witness : CHUNK_MAX_CHARS < length long_text ∧ ∃ ws,
  split_chunk_text long_text = filter (λ part, part ≠ []) (window long_text <$> ws) ∧
  ∀ i, i < length long_text → ∃ w, w ∈ ws ∧ w.1 ≤ i < w.2.
Proof.
  assert (Hlen : CHUNK_MAX_CHARS < length long_text) by (apply Nat.ltb_lt; vm_compute; reflexivity).
  split; [exact Hlen|]. destruct (proj2 (split_chunk_text_covers long_text) Hlen) as (ws & Hsplit & _ & _ & Hall & _).
  exists ws. split; [exact Hsplit|exact Hall].
Defined.
(** The second chunk starts a hundred characters before the end of the first. *)
Example long_text_split : length <$> split_chunk_text long_text = [995; 904].
Proof. vm_compute. reflexivity. Qed.

Lemma build_snippet_total_witness :
  ∃ s, build_snippet (txt "Call Anna about the plan") (txt "PLAN") = Some s.
Proof. apply build_snippet_total. apply Nat.leb_le. vm_compute. reflexivity. Defined.
Example snippet_shown :
  build_snippet (txt "Call Anna about the plan") (txt "PLAN") = Some (txt "Call Anna about the plan").
Proof. vm_compute. reflexivity. Qed.

Lemma build_fts_query_terms_witness :
  ∃ tokens, txt "anna* or* not* plan*" = join_texts [32%N] ((λ token, token ++ [42%N]) <$> tokens) ∧
    Forall (λ token, token ≠ [] ∧ Forall (λ c, is_query_token_char c = true) token) tokens.
Proof.
  destruct (build_fts_query_terms (txt "Anna OR 'NOT' plan*") (txt "anna* or* not* plan*")) as (tokens & Heq & _ & Hall & _).
  - vm_compute. reflexivity.
  - by exists tokens.
Defined.

(** A list item whose text is followed by a nested list: the parser starts the inner
    item before the outer one ends, and the text of the outer item is nowhere. *)
Definition nested_items : list MarkdownEvent :=
  [StartTag TagItem; TextEvent (txt "buy milk"); StartTag TagItem; TextEvent (txt "two litres");
   EndTag TagItem; EndTag TagItem].
Example nested_item_lost : kept (ex_sections (extract_events None nested_items)) = [(Prose, txt "two litres")].
Proof. vm_compute. reflexivity. Qed.
(** The cells of a table's header are not in a row of the table. *)
Definition table : list MarkdownEvent :=
  [StartTag TagOther; StartTag TagOther; TextEvent (txt "Name"); EndTag TagOther;
   StartTag TagTableRow; TextEvent (txt "Anna"); EndTag TagTableRow; EndTag TagOther].
Example table_header_lost : kept (ex_sections (extract_events None table)) = [(Prose, txt "Anna")].
Proof. vm_compute. reflexivity. Qed.
End Ascii_.

(** The capital dotted I becomes two characters in lower case: positions found in the
    lower-case text are then behind the end of the text itself. *)
Module Dotted.
Fixpoint lower_dotted (s : string) : string :=
  match s with
  | EmptyString => EmptyString
  | String c s1 =>
      match s1 with
      | String d s2 =>
          if bool_decide (c = ascii_of_nat 196 ∧ d = ascii_of_nat 176)
          then String "i" (String (ascii_of_nat 204) (String (ascii_of_nat 135) (lower_dotted s2)))
          else String (ascii_lower c) (lower_dotted s1)
      | EmptyString => String (ascii_lower c) EmptyString
      end
  end.
#[local] Instance dotted : Unicode := {| to_lowercase := lower_dotted |}.
Definition dotted_text : text := replicate 82 304%N ++ txt "x".
Example snippet_panics : lowercase [304%N] = [105%N; 775%N] ∧ build_snippet dotted_text (txt "x") = None.
Proof. vm_compute. done. Qed.
End Dotted.
