(* ===== verification/SearchLinks.v ===== *)
(** * Resolving wikilinks (search/wikilink.rs)

    A link names a note by a path or by a base name. It is resolved against the notes
    of the index: by the path itself, else by the base name, in the folder closest to
    the note that holds the link. Two notes at the same smallest distance leave the
    link ambiguous. *)
From Stdlib Require Import Ascii String.
#[local] Set Warnings "-clear-no-such-hyp".
From S2P Require Import Prelude Text.

Definition RESOLUTION_AMBIGUOUS : string := "ambiguous".
Definition RESOLUTION_BASENAME : string := "basename".
Definition RESOLUTION_EXACT : string := "exact".
Definition RESOLUTION_UNRESOLVED : string := "unresolved".

Record DocIdentity := {
  di_note_uid : Z;
  di_doc_id : string;
  di_normalized_path : string;
  di_basename : string }.
Record LinkResolution := {
  lr_resolved_target_uid : option Z;
  lr_resolved_doc_id : option string;
  lr_resolution_kind : string;
  lr_folder_distance : option Z }.
#[export] Instance DocIdentity_eq_dec : EqDecision DocIdentity.
Proof. solve_decision. Defined.
#[export] Instance LinkResolution_eq_dec : EqDecision LinkResolution.
Proof. solve_decision. Defined.

Definition unresolved : LinkResolution :=
  {| lr_resolved_target_uid := None; lr_resolved_doc_id := None;
     lr_resolution_kind := RESOLUTION_UNRESOLVED; lr_folder_distance := None |}.
Definition ambiguous : LinkResolution :=
  {| lr_resolved_target_uid := None; lr_resolved_doc_id := None;
     lr_resolution_kind := RESOLUTION_AMBIGUOUS; lr_folder_distance := None |}.

(** [DocIndex] *)
Record DocIndex := {
  by_normalized_path : gmap string DocIdentity;
  by_basename : gmap string (list DocIdentity) }.
Definition index_doc (index : DocIndex) (doc : DocIdentity) : DocIndex :=
  {| by_normalized_path := <[di_normalized_path doc := doc]> (by_normalized_path index);
     by_basename := <[di_basename doc := default [] (by_basename index !! di_basename doc) ++ [doc]]> (by_basename index) |}.
Definition DocIndex_new (docs : list DocIdentity) : DocIndex :=
  foldl index_doc {| by_normalized_path := ∅; by_basename := ∅ |} docs.

(** ** Paths *)

Definition strip_ascii_suffix (value suffix : string) : option string :=
  if ends_with suffix (to_ascii_lowercase value)
  then Some (str_take (String.length value - String.length suffix) value) else None.
Definition strip_markdown_extension (value : string) : string :=
  match strip_ascii_suffix value ".markdown" with
  | Some stripped => stripped
  | None => match strip_ascii_suffix value ".md" with Some stripped => stripped | None => value end
  end.
Definition normalize_link_target `{Unicode} (value : string) : string :=
  strip_markdown_extension (to_lowercase (str_replace "\" "/" (trim value))).
Definition basename_from_normalized (value : string) : string := default value (last (split_on "/" value)).
(** [path[..path.rfind('/')?]] *)
Fixpoint before_last_slash (path : string) : option string :=
  match path with
  | EmptyString => None
  | String c path =>
      match before_last_slash path with
      | Some before => Some (String c before)
      | None => if Ascii.eqb c "/" then Some EmptyString else None
      end
  end.
Definition folder_label (path : string) : string := default "Root" (before_last_slash path).
Definition doc_display_name (path : string) : string :=
  strip_markdown_extension (default path (last (split_on "/" path))).
Definition folder_parts (path : string) : list string :=
  filter (λ part, part ≠ "") (removelast (split_on "/" path)).
(** The loop that counts the folders two paths have in common *)
Fixpoint common_folders (source_parts candidate_parts : list string) : nat :=
  match source_parts, candidate_parts with
  | s :: source_parts, c :: candidate_parts =>
      if bool_decide (s = c) then S (common_folders source_parts candidate_parts) else 0
  | _, _ => 0
  end.
Definition folder_distance_between (source_doc_id candidate_doc_id : string) : nat :=
  let source_parts := folder_parts source_doc_id in
  let candidate_parts := folder_parts candidate_doc_id in
  let common := common_folders source_parts candidate_parts in
  (length source_parts - common) + (length candidate_parts - common).
Definition to_doc_identity `{Unicode} (note_uid : Z) (doc_id : string) : DocIdentity :=
  let normalized_path := normalize_link_target doc_id in
  {| di_note_uid := note_uid; di_doc_id := doc_id; di_normalized_path := normalized_path;
     di_basename := basename_from_normalized normalized_path |}.

(** ** Resolution *)

Definition resolved_to (kind : string) (source_doc_id : string) (doc : DocIdentity) : LinkResolution :=
  {| lr_resolved_target_uid := Some (di_note_uid doc); lr_resolved_doc_id := Some (di_doc_id doc);
     lr_resolution_kind := kind;
     lr_folder_distance := Some (Z.of_nat (folder_distance_between source_doc_id (di_doc_id doc))) |}.
(** The best candidate so far with its distance; [None] is the distance [usize::MAX]
    no path reaches. *)
Record Closest := { best : option (DocIdentity * nat); has_tie : bool }.
Definition closest_step (source_doc_id : string) (st : Closest) (candidate : DocIdentity) : Closest :=
  let distance := folder_distance_between source_doc_id (di_doc_id candidate) in
  match best st with
  | None => {| best := Some (candidate, distance); has_tie := false |}
  | Some (_, best_distance) =>
      if distance <? best_distance then {| best := Some (candidate, distance); has_tie := false |}
      else if distance =? best_distance then {| best := best st; has_tie := true |}
      else st
  end.
Definition closest_candidate (source_doc_id : string) (candidates : list DocIdentity) : LinkResolution :=
  let st := foldl (closest_step source_doc_id) {| best := None; has_tie := false |} candidates in
  if has_tie st then ambiguous
  else match best st with
       | None => unresolved
       | Some (doc, _) => resolved_to RESOLUTION_BASENAME source_doc_id doc
       end.
Definition resolve_wikilink `{Unicode} (source_doc_id raw_target : string) (index : DocIndex) : LinkResolution :=
  let normalized_target := normalize_link_target raw_target in
  if str_is_empty normalized_target then unresolved
  else
    match (if str_contains "/" normalized_target then by_normalized_path index !! normalized_target else None) with
    | Some doc => resolved_to RESOLUTION_EXACT source_doc_id doc
    | None =>
        match by_basename index !! basename_from_normalized normalized_target with
        | None => unresolved
        | Some [doc] => resolved_to RESOLUTION_BASENAME source_doc_id doc
        | Some candidates => closest_candidate source_doc_id candidates
        end
    end.

(** ** The index *)

Definition with_path (p : string) (docs : list DocIdentity) : list DocIdentity :=
  filter (λ d, di_normalized_path d = p) docs.
Definition with_basename (b : string) (docs : list DocIdentity) : list DocIdentity :=
  filter (λ d, di_basename d = b) docs.

Lemma DocIndex_new_spec (docs : list DocIdentity) :
  (∀ p, by_normalized_path (DocIndex_new docs) !! p = last (with_path p docs)) ∧
  (∀ b, by_basename (DocIndex_new docs) !! b = match with_basename b docs with [] => None | l => Some l end).
Proof.
  unfold DocIndex_new. induction docs as [|doc docs [IHp IHb]] using rev_ind; [done|].
  rewrite foldl_snoc. unfold with_path, with_basename in *. split.
  - intros p. rewrite filter_app, filter_cons, filter_nil. simpl. case_decide as Hp.
    + subst p. by rewrite lookup_insert_eq, last_snoc.
    + rewrite lookup_insert_ne, app_nil_r by done. apply IHp.
  - intros b. rewrite filter_app, filter_cons, filter_nil. simpl. case_decide as Hb.
    + subst b. rewrite lookup_insert_eq, IHb. by destruct (filter _ docs).
    + rewrite lookup_insert_ne, app_nil_r by done. apply IHb.
Qed.

(** The loop finds the closest candidate, or two of them. *)
Section closest.
Context (source : string).
#[local] Abbreviation distance d := (folder_distance_between source (di_doc_id d)).

(** What the loop knows after some candidates *)
Definition closest_ok (seen : list DocIdentity) (st : Closest) : Prop :=
  match best st with
  | None => seen = [] ∧ has_tie st = false
  | Some (doc, n) =>
      n = distance doc ∧
      ∃ before after, seen = before ++ doc :: after ∧
        Forall (λ d, n < distance d) before ∧ Forall (λ d, n ≤ distance d) after ∧
        (has_tie st = true ↔ Exists (λ d, distance d = n) after)
  end.
Lemma closest_loop_ok seen : closest_ok seen (foldl (closest_step source) {| best := None; has_tie := false |} seen).
Proof.
  induction seen as [|d seen IH] using rev_ind; [done|]. rewrite foldl_snoc.
  set (st := foldl _ _ seen) in *. clearbody st. unfold closest_ok, closest_step in *.
  destruct (best st) as [[doc n]|] eqn:Hbest.
  - destruct IH as (-> & before & after & -> & Hbefore & Hafter & Htie).
    destruct (Nat.ltb_spec (distance d) (distance doc)) as [Hlt|Hge]; simpl.
    + split; [done|]. exists (before ++ doc :: after), []. split_and!; [done| |done|by rewrite Exists_nil].
      apply Forall_app. split; [|apply Forall_cons; split; [done|]];
        eapply Forall_impl; [exact Hbefore|intros e ?; simpl in *; lia|exact Hafter|intros e ?; simpl in *; lia].
    + destruct (Nat.eqb_spec (distance d) (distance doc)) as [Heq|Hne]; simpl; rewrite ?Hbest.
      * split; [done|]. exists before, (after ++ [d]). split_and!; [by rewrite <- app_assoc|done| |].
        -- apply Forall_app. split; [done|]. apply Forall_singleton. lia.
        -- split; [|done]. intros _. apply Exists_app. right. by constructor.
      * split; [done|]. exists before, (after ++ [d]). split_and!; [by rewrite <- app_assoc|done| |].
        -- apply Forall_app. split; [done|]. apply Forall_singleton. lia.
        -- rewrite Htie, Exists_app, Exists_cons, Exists_nil. naive_solver.
  - destruct IH as [-> Htie]. simpl. split; [done|]. exists [], []. by rewrite Exists_nil.
Qed.
End closest.

(** ** What a link resolves to *)

(** The documented meaning of a link: a path names the note at that path; otherwise the
    note with that base name whose folder is closest to the note of the link. *)
Inductive LinkMeaning `{Unicode} (docs : list DocIdentity) (source : string) (target : string) : LinkResolution → Prop :=
| EmptyTarget : target = "" → LinkMeaning docs source target unresolved
| PathTarget doc : target ≠ "" → str_contains "/" target = true → last (with_path target docs) = Some doc →
    LinkMeaning docs source target (resolved_to RESOLUTION_EXACT source doc)
| NoTarget : target ≠ "" → (str_contains "/" target = true → with_path target docs = []) →
    with_basename (basename_from_normalized target) docs = [] → LinkMeaning docs source target unresolved
| ClosestTarget before doc after : target ≠ "" → (str_contains "/" target = true → with_path target docs = []) →
    with_basename (basename_from_normalized target) docs = before ++ doc :: after →
    Forall (λ d, folder_distance_between source (di_doc_id doc) < folder_distance_between source (di_doc_id d)) (before ++ after) →
    LinkMeaning docs source target (resolved_to RESOLUTION_BASENAME source doc)
| TiedTarget before doc between other after : target ≠ "" → (str_contains "/" target = true → with_path target docs = []) →
    with_basename (basename_from_normalized target) docs = before ++ doc :: between ++ other :: after →
    folder_distance_between source (di_doc_id doc) = folder_distance_between source (di_doc_id other) →
    Forall (λ d, folder_distance_between source (di_doc_id doc) ≤ folder_distance_between source (di_doc_id d))
      (with_basename (basename_from_normalized target) docs) →
    LinkMeaning docs source target ambiguous.

Section resolve.
Context `{Unicode}.

Lemma closest_candidate_meaning docs source target :
  target ≠ "" → (str_contains "/" target = true → with_path target docs = []) →
  with_basename (basename_from_normalized target) docs ≠ [] →
  LinkMeaning docs source target (closest_candidate source (with_basename (basename_from_normalized target) docs)).
Proof.
  intros Hne Hpath Hcands. pose proof (closest_loop_ok source (with_basename (basename_from_normalized target) docs)) as Hok.
  unfold closest_candidate. set (st := foldl _ _ _) in *. clearbody st. unfold closest_ok in Hok.
  destruct (best st) as [[doc n]|] eqn:Hbest; [|by destruct Hok].
  destruct Hok as (-> & before & after & Heq & Hbefore & Hafter & Htie). destruct (has_tie st).
  - pose proof (proj1 Htie eq_refl) as Hother. apply Exists_exists in Hother as (other & Hin & Hsame).
    apply list_elem_of_split in Hin as (between & rest & ->).
    eapply (TiedTarget _ _ _ before doc between); [done|done|exact Heq|done|]. rewrite Heq. apply Forall_app. split.
    + eapply Forall_impl; [exact Hbefore|]. intros e ?. simpl in *. lia.
    + by apply Forall_cons.
  - eapply (ClosestTarget _ _ _ before doc after); [done|done|exact Heq|]. apply Forall_app. split; [done|].
    apply Forall_forall. intros d Hd. pose proof (proj1 (Forall_forall _ _) Hafter d Hd) as Hle. simpl in Hle.
    assert (Hnot : folder_distance_between source (di_doc_id d) ≠ folder_distance_between source (di_doc_id doc)); [|lia].
    intros Heqd. enough (false = true) by done. apply Htie, Exists_exists. by exists d.
Qed.

Lemma closest_candidate_single source doc : closest_candidate source [doc] = resolved_to RESOLUTION_BASENAME source doc.
Proof. done. Qed.

Lemma resolve_wikilink_sound (docs : list DocIdentity) (source raw_target : string) :
  LinkMeaning docs source (normalize_link_target raw_target) (resolve_wikilink source raw_target (DocIndex_new docs)).
Proof.
  unfold resolve_wikilink. set (target := normalize_link_target raw_target). cbv zeta.
  destruct (DocIndex_new_spec docs) as [Hp Hb]. rewrite Hp, Hb.
  destruct target as [|c t] eqn:Ht; [by constructor|]. rewrite <- Ht. assert (Hne : target ≠ "") by (rewrite Ht; done).
  replace (str_is_empty target) with false by (rewrite Ht; done). clear Ht.
  destruct (if str_contains "/" target then last (with_path target docs) else None) as [doc|] eqn:Hdoc.
  - destruct (str_contains "/" target) eqn:Hslash; [|done]. by apply PathTarget.
  - assert (Hpath : str_contains "/" target = true → with_path target docs = []).
    { intros Hslash. rewrite Hslash in Hdoc. by apply last_None. }
    pose proof (closest_candidate_meaning docs source target Hne Hpath) as Hclosest.
    destruct (with_basename (basename_from_normalized target) docs) as [|doc1 [|doc2 l]] eqn:Hcands.
    + by apply NoTarget.
    + rewrite <- closest_candidate_single. by apply Hclosest.
    + by apply Hclosest.
Qed.

(** The meaning is unique, so the resolution is determined by it. *)
Lemma closest_unique source l before doc after before' doc' after' :
  l = before ++ doc :: after → l = before' ++ doc' :: after' →
  Forall (λ d, folder_distance_between source (di_doc_id doc) < folder_distance_between source (di_doc_id d)) (before ++ after) →
  Forall (λ d, folder_distance_between source (di_doc_id doc') ≤ folder_distance_between source (di_doc_id d)) l →
  doc' = doc ∧ before' = before ∧ after' = after.
Proof.
  intros -> Heq Hlt Hle.
  assert (Hd : doc' ∈ before ++ doc :: after → doc' ∈ before ++ after → False).
  { intros _ Hin. apply (proj1 (Forall_forall _ _) Hlt) in Hin. simpl in Hin.
    apply Forall_app in Hle as [_ Hle]. apply Forall_cons in Hle as [Hle _]. lia. }
  assert (Hother : ∀ i, (before ++ doc :: after) !! i = Some doc' → i = length before).
  { intros i Hi. destruct (decide (i = length before)) as [->|Hne]; [done|]. exfalso. apply Hd.
    - by eapply list_elem_of_lookup_2.
    - apply elem_of_app. destruct (decide (i < length before)).
      + left. rewrite lookup_app_l in Hi by done. by eapply list_elem_of_lookup_2.
      + right. rewrite lookup_app_r in Hi by lia. destruct (i - length before) as [|j] eqn:Hj; [lia|].
        simpl in Hi. by eapply list_elem_of_lookup_2. }
  assert (Hlen : length before' = length before).
  { apply Hother. rewrite Heq. by rewrite list_lookup_middle. }
  apply app_inj_1 in Heq as [-> Heq]; [|done]. by injection Heq as -> ->.
Qed.
Lemma LinkMeaning_unique docs source target r r' :
  LinkMeaning docs source target r → LinkMeaning docs source target r' → r = r'.
Proof.
  assert (Hct : ∀ before doc after before' doc' between other rest,
    before ++ doc :: after = before' ++ doc' :: between ++ other :: rest →
    Forall (λ d, folder_distance_between source (di_doc_id doc) < folder_distance_between source (di_doc_id d)) (before ++ after) →
    folder_distance_between source (di_doc_id doc') = folder_distance_between source (di_doc_id other) →
    Forall (λ d, folder_distance_between source (di_doc_id doc') ≤ folder_distance_between source (di_doc_id d))
      (before ++ doc :: after) → False).
  { intros before doc after before' doc' between other rest Heq Hlt Htie Hle.
    destruct (closest_unique source _ before doc after before' doc' _ eq_refl Heq Hlt Hle) as (-> & -> & <-).
    apply Forall_app in Hlt as [_ Hlt]. apply Forall_app in Hlt as [_ Hlt]. apply Forall_cons in Hlt as [Hlt _].
    simpl in Hlt. lia. }
  assert (Hcc : ∀ before doc after before' doc' after',
    before ++ doc :: after = before' ++ doc' :: after' →
    Forall (λ d, folder_distance_between source (di_doc_id doc) < folder_distance_between source (di_doc_id d)) (before ++ after) →
    Forall (λ d, folder_distance_between source (di_doc_id doc') < folder_distance_between source (di_doc_id d)) (before' ++ after') →
    doc = doc').
  { intros before doc after before' doc' after' Heq Hlt Hlt'. symmetry.
    refine (proj1 (closest_unique source _ before doc after before' doc' after' eq_refl Heq Hlt _)). rewrite Heq.
    apply Forall_app in Hlt' as [H1 H2]. apply Forall_app. split; [|apply Forall_cons; split; [done|]];
      eapply Forall_impl; [exact H1|intros e ?; simpl in *; lia|exact H2|intros e ?; simpl in *; lia]. }
  intros Hr Hr'. destruct Hr, Hr'; first
    [reflexivity
    |match goal with H1 : ?x = ?y, H2 : ?x ≠ ?y |- _ => destruct (H2 H1) end
    |match goal with H1 : ?x = true, H2 : ?x = true → with_path _ _ = [], H3 : last (with_path _ _) = Some _ |- _ =>
       rewrite (H2 H1) in H3; discriminate H3 end
    |match goal with H1 : with_basename ?b ?l = [], H2 : with_basename ?b ?l = ?x ++ _ |- _ =>
       rewrite H1 in H2; destruct x; discriminate H2 end
    |idtac].
  - congruence.
  - f_equal. match goal with E1 : with_basename _ docs = _, E2 : with_basename _ docs = _ |- doc = doc0 =>
      exact (Hcc _ _ _ _ _ _ (eq_trans (eq_sym E1) E2) ltac:(eassumption) ltac:(eassumption)) end.
  - exfalso. match goal with E1 : with_basename _ docs = before ++ doc :: after, E2 : with_basename _ docs = _ |- _ =>
      refine (Hct _ _ _ _ _ _ _ _ (eq_trans (eq_sym E1) E2) ltac:(eassumption) ltac:(eassumption) _); rewrite <- E1 end.
    eassumption.
  - exfalso. match goal with E2 : with_basename _ docs = before ++ doc :: between ++ _, E1 : with_basename _ docs = _ |- _ =>
      refine (Hct _ _ _ _ _ _ _ _ (eq_trans (eq_sym E1) E2) ltac:(eassumption) ltac:(eassumption) _); rewrite <- E1 end.
    eassumption.
Qed.
(** C37: A link resolves to what it means: nothing if it is empty or no note has its base name;
    the note at its path if it is a path some note has; otherwise the one note with its base
    name whose folder is strictly closest to that of the link's note, and it is ambiguous
    exactly when there are two at the smallest distance. *)
Theorem resolve_wikilink_meaning (docs : list DocIdentity) (source raw_target : string) (r : LinkResolution) :
  LinkMeaning docs source (normalize_link_target raw_target) r ↔ r = resolve_wikilink source raw_target (DocIndex_new docs).
Proof.
  split; [|intros ->; apply resolve_wikilink_sound]. intros Hr. eapply LinkMeaning_unique, resolve_wikilink_sound. done.
Qed.
End resolve.

(** ** The distance of folders *)

Lemma common_folders_comm l k : common_folders l k = common_folders k l.
Proof.
  revert k. induction l as [|a l IH]; intros [|b k]; simpl; try done.
  repeat case_bool_decide; subst; try done. by rewrite IH.
Qed.
Lemma common_folders_le l k : common_folders l k ≤ length l.
Proof. revert k. induction l as [|a l IH]; intros [|b k]; simpl; try lia. case_bool_decide; [|lia]. specialize (IH k). lia. Qed.
Lemma common_folders_min l k m : Nat.min (common_folders l k) (common_folders k m) ≤ common_folders l m.
Proof.
  revert k m. induction l as [|a l IH]; intros [|b k] [|c m]; simpl; try lia.
  repeat case_bool_decide; subst; try lia; try done. specialize (IH k m). lia.
Qed.
Lemma common_folders_all l k : common_folders l k = length l → length l = length k → l = k.
Proof.
  revert k. induction l as [|a l IH]; intros [|b k]; simpl; try done. case_bool_decide; [|done]. subst.
  intros [= Hc] [= Hl]. f_equal. by apply IH.
Qed.

(** The distance between notes is the distance of their folders in the folder tree: it
    is zero exactly for notes of one folder, the same in both directions, and a detour
    over a third note is never shorter. *)
Theorem folder_distance_metric (a b c : string) :
  (folder_distance_between a b = 0 ↔ folder_parts a = folder_parts b) ∧
  folder_distance_between a b = folder_distance_between b a ∧
  folder_distance_between a c ≤ folder_distance_between a b + folder_distance_between b c.
Proof.
  unfold folder_distance_between. cbv zeta.
  set (l := folder_parts a). set (k := folder_parts b). set (m := folder_parts c).
  pose proof (common_folders_le l k). pose proof (common_folders_le k l). pose proof (common_folders_le k m).
  pose proof (common_folders_le m k). pose proof (common_folders_le l m). pose proof (common_folders_le m l).
  pose proof (common_folders_min l k m). rewrite (common_folders_comm k l), (common_folders_comm m k), (common_folders_comm m l) in *.
  split_and!; [|lia|lia]. split.
  - intros Hz. apply common_folders_all; lia.
  - intros Heq. clear -Heq. rewrite <- Heq. clear. enough (common_folders l l = length l) as ->; [lia|].
    induction l as [|x l IH]; simpl; [done|]. rewrite bool_decide_true by done. by rewrite IH.
Qed.

(** ** Letter case *)

(** Lower-casing does not depend on the case of ASCII letters. *)
Class UnicodeFold `{Unicode} : Prop := { to_lowercase_ascii s : to_lowercase (to_ascii_lowercase s) = to_lowercase s }.

Lemma lower_code a : ascii_lower a = a ∨
  (65 ≤ ascii_code a ≤ 90)%N ∧ ascii_code (ascii_lower a) = (ascii_code a + 32)%N.
Proof.
  unfold ascii_lower, ascii_code. destruct ((65 <=? N_of_ascii a) && (N_of_ascii a <=? 90))%N eqn:Ha; [|by left].
  apply andb_true_iff in Ha as [H1%N.leb_le H2%N.leb_le]. right. split; [done|]. apply N_ascii_embedding. lia.
Qed.
Lemma lower_code_eqb a v : (v < 65 ∨ 122 < v)%N → (ascii_code (ascii_lower a) =? v)%N = (ascii_code a =? v)%N.
Proof.
  intros Hv. destruct (lower_code a) as [->|[Ha ->]]; [done|].
  destruct (N.eqb_spec (ascii_code a + 32) v), (N.eqb_spec (ascii_code a) v); lia.
Qed.
Lemma lower_code_leb a v : (122 < v)%N →
  (ascii_code (ascii_lower a) <=? v)%N = (ascii_code a <=? v)%N ∧ (v <=? ascii_code (ascii_lower a))%N = (v <=? ascii_code a)%N.
Proof.
  intros Hv. destruct (lower_code a) as [->|[Ha ->]]; [done|]. split.
  - destruct (N.leb_spec (ascii_code a + 32) v), (N.leb_spec (ascii_code a) v); lia.
  - destruct (N.leb_spec v (ascii_code a + 32)), (N.leb_spec v (ascii_code a)); lia.
Qed.
Lemma ws1_lower a : ws1 (ascii_lower a) = ws1 a.
Proof. by destruct a as [[] [] [] [] [] [] [] []]. Qed.
Lemma ws2_lower a b : ws2 (ascii_lower a) (ascii_lower b) = ws2 a b.
Proof. unfold ws2. by rewrite !lower_code_eqb by lia. Qed.
Lemma ws3_lower a b c : ws3 (ascii_lower a) (ascii_lower b) (ascii_lower c) = ws3 a b c.
Proof.
  unfold ws3. cbv zeta. rewrite !lower_code_eqb by lia.
  by rewrite (proj2 (lower_code_leb c 128 ltac:(lia))), (proj1 (lower_code_leb c 138 ltac:(lia))).
Qed.
Lemma rev_lower s : to_ascii_lowercase (String.rev s) = String.rev (to_ascii_lowercase s).
Proof.
  assert (Happ : ∀ s t, to_ascii_lowercase (s +:+ t) = to_ascii_lowercase s +:+ to_ascii_lowercase t).
  { intros s1 t. induction s1 as [|a s1 IH]; [done|]. change (String a s1 +:+ t) with (String a (s1 +:+ t)).
    change (String (ascii_lower a) (to_ascii_lowercase (s1 +:+ t)) = String (ascii_lower a) (to_ascii_lowercase s1 +:+ to_ascii_lowercase t)).
    by rewrite IH. }
  induction s as [|a s IH]; [done|]. cbn [to_ascii_lowercase]. by rewrite !str_rev_cons, Happ, IH.
Qed.
Lemma trim_start_lower s : to_ascii_lowercase (trim_start s) = trim_start (to_ascii_lowercase s).
Proof.
  induction s as [s IH] using (induction_ltof1 _ String.length). unfold ltof in IH.
  destruct s as [|a s1]; [done|]. cbn [trim_start to_ascii_lowercase]. rewrite ws1_lower.
  destruct (ws1 a); [apply IH; simpl; lia|]. destruct s1 as [|b s2]; [done|]. cbn [to_ascii_lowercase]. rewrite ws2_lower.
  destruct (ws2 a b); [apply IH; simpl; lia|]. destruct s2 as [|c s3]; [done|]. cbn [to_ascii_lowercase]. rewrite ws3_lower.
  destruct (ws3 a b c); [apply IH; simpl; lia|done].
Qed.
Lemma trim_start_rev_lower s : to_ascii_lowercase (trim_start_rev s) = trim_start_rev (to_ascii_lowercase s).
Proof.
  induction s as [s IH] using (induction_ltof1 _ String.length). unfold ltof in IH.
  destruct s as [|a s1]; [done|]. cbn [trim_start_rev to_ascii_lowercase]. rewrite ws1_lower.
  destruct (ws1 a); [apply IH; simpl; lia|]. destruct s1 as [|b s2]; [done|]. cbn [to_ascii_lowercase]. rewrite ws2_lower.
  destruct (ws2 b a); [apply IH; simpl; lia|]. destruct s2 as [|c s3]; [done|]. cbn [to_ascii_lowercase]. rewrite ws3_lower.
  destruct (ws3 c b a); [apply IH; simpl; lia|done].
Qed.
Lemma trim_lower s : to_ascii_lowercase (trim s) = trim (to_ascii_lowercase s).
Proof.
  unfold trim, trim_end. by rewrite rev_lower, trim_start_rev_lower, rev_lower, trim_start_lower.
Qed.
Lemma replace_lower s : to_ascii_lowercase (str_replace "\" "/" s) = str_replace "\" "/" (to_ascii_lowercase s).
Proof.
  induction s as [|a s IH]; [done|]. cbn [str_replace to_ascii_lowercase]. rewrite IH. f_equal.
  by destruct a as [[] [] [] [] [] [] [] []].
Qed.

Section fold.
Context `{UnicodeFold}.
(** Paths that differ in the case of ASCII letters name the same link target. *)
Lemma normalize_link_target_nocase s t : eq_ignore_ascii_case s t = true → normalize_link_target s = normalize_link_target t.
Proof.
  unfold eq_ignore_ascii_case. rewrite bool_decide_eq_true. intros Hst. unfold normalize_link_target. f_equal.
  rewrite <- (to_lowercase_ascii (str_replace "\" "/" (trim s))), <- (to_lowercase_ascii (str_replace "\" "/" (trim t))).
  by rewrite !replace_lower, !trim_lower, Hst.
Qed.
End fold.

(** ** Only notes with the base name of a link matter for it *)

Definition basename_of `{Unicode} (doc_id : string) : string := basename_from_normalized (normalize_link_target doc_id).
Definition identity_ok (d : DocIdentity) : Prop := di_basename d = basename_from_normalized (di_normalized_path d).
Lemma resolve_wikilink_local `{Unicode} docs docs' source raw_target :
  Forall identity_ok docs → Forall identity_ok docs' →
  with_basename (basename_of raw_target) docs = with_basename (basename_of raw_target) docs' →
  resolve_wikilink source raw_target (DocIndex_new docs) = resolve_wikilink source raw_target (DocIndex_new docs').
Proof.
  intros Hd Hd' Heq. unfold resolve_wikilink. cbv zeta.
  destruct (DocIndex_new_spec docs) as [Hp Hb], (DocIndex_new_spec docs') as [Hp' Hb'].
  assert (Hpath : with_path (normalize_link_target raw_target) docs = with_path (normalize_link_target raw_target) docs').
  { assert (Hin : ∀ docs, Forall identity_ok docs → with_path (normalize_link_target raw_target) docs =
      with_path (normalize_link_target raw_target) (with_basename (basename_of raw_target) docs)).
    { clear. intros docs Hok. unfold with_path, with_basename. rewrite list_filter_filter.
      induction Hok as [|d docs Hd _ IH]; [done|]. unfold identity_ok in Hd. rewrite !filter_cons, IH.
      unfold basename_of. repeat case_decide; naive_solver congruence. }
    by rewrite (Hin docs), (Hin docs'), Heq. }
  rewrite Hp, Hp', Hpath, Hb, Hb'. unfold basename_of in Heq. by rewrite Heq.
Qed.
