(* ===== verification/SearchDb.v ===== *)
(** * The search database (search/db.rs)

    The tables of the search index and the statements db.rs runs on them. [documents]
    is keyed by its UNIQUE column [doc_id] and numbers its rows with AUTOINCREMENT,
    which never gives a number twice; [chunk_rows] and [wikilink_refs] are lists in the
    order of their row numbers. SQLite itself does not fail here: a statement that does
    ends the transaction, which leaves the tables as they were. *)
From Stdlib Require Import Ascii String.
#[local] Set Warnings "-clear-no-such-hyp".
From S2P Require Import Prelude Text SearchLinks.

Definition CURRENT_INDEX_VERSION : Z := 1.
Definition INDEX_VERSION_KEY : string := "index_version".

Record IndexedChunkRow := {
  ic_section_path_json : string;
  ic_kind : string;
  ic_text : string;
  ic_raw_text : string;
  ic_global_start : Z;
  ic_global_end : Z }.
Record IndexedWikilinkRow := {
  iw_raw_target : string;
  iw_alias : option string;
  iw_normalized_target : string;
  iw_target_basename : string;
  iw_ordinal : Z }.
Record IndexedDocument := {
  id_note_uid : option Z;
  id_doc_id : string;
  id_title : option string;
  id_mtime_ms : Z;
  id_content_checksum : string;
  id_meta_json : string;
  id_chunks : list IndexedChunkRow;
  id_wikilink_refs : list IndexedWikilinkRow }.
Record StoredDocumentFreshness := { sf_mtime_ms : Z; sf_content_checksum : option string }.
Record StoredWikilinkRefRow := {
  sw_rowid : Z;
  sw_source_note_uid : Z;
  sw_source_doc_id : string;
  sw_raw_target : string;
  sw_alias : option string;
  sw_normalized_target : string;
  sw_target_basename : string;
  sw_resolved_target_uid : option Z;
  sw_resolution_kind : string;
  sw_folder_distance : option Z;
  sw_ordinal : Z }.

(** A row of [documents], without its key *)
Record DocumentRow := {
  dr_note_uid : Z;
  dr_title : option string;
  dr_mtime_ms : Z;
  dr_content_checksum : option string;
  dr_meta_json : string }.
(** A row of [chunk_rows] *)
Record ChunkRow := { cr_rowid : Z; cr_doc_id : string; cr_chunk : IndexedChunkRow }.

(** The tables; [db_sequence] is the greatest number [documents] has given. *)
Record SearchTables := {
  db_documents : gmap string DocumentRow;
  db_sequence : Z;
  db_chunk_rows : list ChunkRow;
  db_wikilink_refs : list StoredWikilinkRefRow }.
Definition empty_tables : SearchTables :=
  {| db_documents := ∅; db_sequence := 0; db_chunk_rows := []; db_wikilink_refs := [] |}.
Definition with_documents (db : SearchTables) (d : gmap string DocumentRow) : SearchTables :=
  {| db_documents := d; db_sequence := db_sequence db; db_chunk_rows := db_chunk_rows db;
     db_wikilink_refs := db_wikilink_refs db |}.
Definition with_sequence (db : SearchTables) (n : Z) : SearchTables :=
  {| db_documents := db_documents db; db_sequence := n; db_chunk_rows := db_chunk_rows db;
     db_wikilink_refs := db_wikilink_refs db |}.
Definition with_chunk_rows (db : SearchTables) (c : list ChunkRow) : SearchTables :=
  {| db_documents := db_documents db; db_sequence := db_sequence db; db_chunk_rows := c;
     db_wikilink_refs := db_wikilink_refs db |}.
Definition with_wikilink_refs (db : SearchTables) (w : list StoredWikilinkRefRow) : SearchTables :=
  {| db_documents := db_documents db; db_sequence := db_sequence db; db_chunk_rows := db_chunk_rows db;
     db_wikilink_refs := w |}.
(** The number SQLite gives a new row of a table without AUTOINCREMENT *)
Definition next_rowid (ids : list Z) : Z := (1 + foldr Z.max 0 ids)%Z.

(** ** Replacing and removing a document *)

Definition document_row (note_uid : Z) (doc : IndexedDocument) : DocumentRow :=
  {| dr_note_uid := note_uid; dr_title := id_title doc; dr_mtime_ms := id_mtime_ms doc;
     dr_content_checksum := Some (id_content_checksum doc); dr_meta_json := id_meta_json doc |}.
(** [DELETE FROM chunk_rows WHERE cond] and the like *)
Definition delete_chunks (cond : string → bool) (db : SearchTables) : SearchTables :=
  with_chunk_rows db (filter (λ c, cond (cr_doc_id c) = false) (db_chunk_rows db)).
Definition delete_documents (cond : string → DocumentRow → bool) (db : SearchTables) : SearchTables :=
  with_documents db (filter (λ kv : string * DocumentRow, cond kv.1 kv.2 = false) (db_documents db)).
Definition delete_wikilinks (note_uid : Z) (db : SearchTables) : SearchTables :=
  with_wikilink_refs db (filter (λ w, sw_source_note_uid w ≠ note_uid) (db_wikilink_refs db)).
Definition insert_document (note_uid : Z) (doc : IndexedDocument) (db : SearchTables) : SearchTables :=
  with_sequence (with_documents db (<[id_doc_id doc := document_row note_uid doc]> (db_documents db)))
    (Z.max (db_sequence db) note_uid).
Definition insert_chunk (doc_id : string) (db : SearchTables) (chunk : IndexedChunkRow) : SearchTables :=
  with_chunk_rows db (db_chunk_rows db ++
    [{| cr_rowid := next_rowid (cr_rowid <$> db_chunk_rows db); cr_doc_id := doc_id; cr_chunk := chunk |}]).
Definition insert_wikilink (note_uid : Z) (doc_id : string) (db : SearchTables) (wikilink : IndexedWikilinkRow)
  : SearchTables :=
  with_wikilink_refs db (db_wikilink_refs db ++
    [{| sw_rowid := next_rowid (sw_rowid <$> db_wikilink_refs db); sw_source_note_uid := note_uid;
        sw_source_doc_id := doc_id; sw_raw_target := iw_raw_target wikilink; sw_alias := iw_alias wikilink;
        sw_normalized_target := iw_normalized_target wikilink;
        sw_target_basename := iw_target_basename wikilink; sw_resolved_target_uid := None;
        sw_resolution_kind := RESOLUTION_UNRESOLVED; sw_folder_distance := None;
        sw_ordinal := iw_ordinal wikilink |}]).
Definition has_uid (db : SearchTables) (note_uid : Z) (doc_id : string) : bool :=
  bool_decide ((dr_note_uid <$> db_documents db !! doc_id) = Some note_uid).
(** The row of a document: the one with its number, if it has one already, else a new one.
    The conflicting row of its path goes, its number's row moves to the path. *)
Definition replace_row (doc : IndexedDocument) (db : SearchTables) : Z * SearchTables :=
  match id_note_uid doc with
  | Some note_uid =>
      let db := delete_chunks (λ id, bool_decide (id = id_doc_id doc) || has_uid db note_uid id) db in
      let db := delete_documents (λ id row, bool_decide (id = id_doc_id doc) && bool_decide (dr_note_uid row ≠ note_uid)) db in
      let db := delete_wikilinks note_uid db in
      (* ON CONFLICT(note_uid) DO UPDATE SET doc_id = ... *)
      let db := delete_documents (λ _ row, bool_decide (dr_note_uid row = note_uid)) db in
      (note_uid, insert_document note_uid doc db)
  | None =>
      let db := delete_chunks (λ id, bool_decide (id = id_doc_id doc)) db in
      let db := delete_documents (λ id _, bool_decide (id = id_doc_id doc)) db in
      let note_uid := (db_sequence db + 1)%Z in
      (note_uid, insert_document note_uid doc db)
  end.
Definition replace_document (db : SearchTables) (doc : IndexedDocument) : Z * SearchTables :=
  let '(note_uid, db) := replace_row doc db in
  let db := foldl (insert_chunk (id_doc_id doc)) db (id_chunks doc) in
  (note_uid, foldl (insert_wikilink note_uid (id_doc_id doc)) db (id_wikilink_refs doc)).
Definition find_note_uid_by_doc_id (db : SearchTables) (doc_id : string) : option Z :=
  dr_note_uid <$> db_documents db !! doc_id.
Definition remove_document (db : SearchTables) (doc_id : string) : option Z * SearchTables :=
  let note_uid := find_note_uid_by_doc_id db doc_id in
  let db := match note_uid with Some note_uid => delete_wikilinks note_uid db | None => db end in
  let db := delete_chunks (λ id, bool_decide (id = doc_id)) db in
  (note_uid, delete_documents (λ id _, bool_decide (id = doc_id)) db).

(** ** Queries *)

(** [SELECT note_uid ... WHERE doc_id = ?1 COLLATE NOCASE ORDER BY doc_id LIMIT 2]: NOCASE folds ASCII. *)
Definition sorted_documents (db : SearchTables) : list (string * DocumentRow) :=
  sort_by (leb_on fst) (map_to_list (db_documents db)).
Definition find_note_uid_by_doc_id_nocase (db : SearchTables) (doc_id : string) : option Z :=
  match take 2 (filter (λ kv : string * DocumentRow, eq_ignore_ascii_case kv.1 doc_id = true) (sorted_documents db)) with
  | [(_, row)] => Some (dr_note_uid row)
  | _ => None
  end.
Definition list_indexed_doc_ids (db : SearchTables) : list string := (sorted_documents db).*1.
Definition load_doc_identities `{Unicode} (db : SearchTables) : list DocIdentity :=
  (λ kv : string * DocumentRow, to_doc_identity (dr_note_uid kv.2) kv.1) <$> sorted_documents db.
Definition load_document_freshness (db : SearchTables) (doc_id : string) : option StoredDocumentFreshness :=
  (λ row, {| sf_mtime_ms := dr_mtime_ms row; sf_content_checksum := dr_content_checksum row |}) <$> db_documents db !! doc_id.
Definition update_document_freshness (db : SearchTables) (doc_id : string) (mtime_ms : Z) (content_checksum : string)
  : SearchTables :=
  with_documents db (alter (λ row,
    {| dr_note_uid := dr_note_uid row; dr_title := dr_title row; dr_mtime_ms := mtime_ms;
       dr_content_checksum := Some content_checksum; dr_meta_json := dr_meta_json row |}) doc_id (db_documents db)).
(** [ORDER BY source_doc_id ASC, ordinal ASC, rowid ASC] *)
Definition wikilink_leb (v w : StoredWikilinkRefRow) : bool :=
  if bool_decide (sw_source_doc_id v = sw_source_doc_id w) then
    if (sw_ordinal v =? sw_ordinal w)%Z then (sw_rowid v <=? sw_rowid w)%Z else (sw_ordinal v <? sw_ordinal w)%Z
  else str_leb (sw_source_doc_id v) (sw_source_doc_id w).
Definition load_wikilink_rows (db : SearchTables) : list StoredWikilinkRefRow := sort_by wikilink_leb (db_wikilink_refs db).
Definition set_resolution (resolution : LinkResolution) (w : StoredWikilinkRefRow) : StoredWikilinkRefRow :=
  {| sw_rowid := sw_rowid w; sw_source_note_uid := sw_source_note_uid w; sw_source_doc_id := sw_source_doc_id w;
     sw_raw_target := sw_raw_target w; sw_alias := sw_alias w; sw_normalized_target := sw_normalized_target w;
     sw_target_basename := sw_target_basename w;
     sw_resolved_target_uid := lr_resolved_target_uid resolution;
     sw_resolution_kind := lr_resolution_kind resolution;
     sw_folder_distance := lr_folder_distance resolution; sw_ordinal := sw_ordinal w |}.
Definition update_wikilink_resolution (db : SearchTables) (rowid : Z) (resolution : LinkResolution) : SearchTables :=
  with_wikilink_refs db
    ((λ w, if bool_decide (sw_rowid w = rowid) then set_resolution resolution w else w) <$> db_wikilink_refs db).
Definition count_by_resolution (db : SearchTables) (predicate : StoredWikilinkRefRow → bool) : nat :=
  length (List.filter predicate (db_wikilink_refs db)).
Definition load_link_counts (db : SearchTables) : nat * nat * nat :=
  (count_by_resolution db (λ w, bool_decide (is_Some (sw_resolved_target_uid w))),
   count_by_resolution db (λ w, bool_decide (sw_resolution_kind w = "unresolved")),
   count_by_resolution db (λ w, bool_decide (sw_resolution_kind w = "ambiguous"))).

(** ** The file and its version *)

(** The texts of [ParseIntError] *)
Definition digit (a : ascii) : option Z :=
  let n := Z.of_N (ascii_code a) in if ((48 <=? n) && (n <=? 57))%Z then Some (n - 48)%Z else None.
Fixpoint parse_digits (sign acc : Z) (s : string) : Result string Z :=
  match s with
  | EmptyString => Ok acc
  | String a s =>
      match digit a with
      | None => Err "invalid digit found in string"
      | Some d =>
          let acc := (acc * 10 + sign * d)%Z in
          if (acc <? i64_min)%Z then Err "number too small to fit in target type"
          else if (i64_max <? acc)%Z then Err "number too large to fit in target type"
          else parse_digits sign acc s
      end
  end.
(** [str::parse::<i64>] *)
Definition parse_i64 (s : string) : Result string Z :=
  match s with
  | EmptyString => Err "cannot parse integer from empty string"
  | String a s' =>
      if Ascii.eqb a "-" || Ascii.eqb a "+" then
        if str_is_empty s' then Err "invalid digit found in string"
        else parse_digits (if Ascii.eqb a "-" then -1 else 1) 0 s'
      else parse_digits 1 0 s
  end.

(** What a database file holds: which of the index's tables are there, whether
    [documents] has the columns that were added later, the table [search_metadata]. *)
Record SearchFile := {
  sf_has_documents : bool;
  sf_has_note_uid : bool;
  sf_has_content_checksum : bool;
  sf_has_other_tables : bool;
  sf_metadata : option (gmap string string);
  sf_tables : SearchTables }.
Definition no_search_file : SearchFile :=
  {| sf_has_documents := false; sf_has_note_uid := false; sf_has_content_checksum := false;
     sf_has_other_tables := false; sf_metadata := None; sf_tables := empty_tables |}.
Definition schema_reset_required (f : SearchFile) : bool := sf_has_documents f && negb (sf_has_note_uid f).
Definition has_existing_search_state (f : SearchFile) : bool := sf_has_documents f || sf_has_other_tables f.
Definition load_index_version (f : SearchFile) : Result string (option Z) :=
  match sf_metadata f with
  | None => Ok None
  | Some m =>
      match m !! INDEX_VERSION_KEY with
      | None => Ok None
      | Some raw => Some <$> map_err (λ e, "Failed to parse stored index version: " +:+ e) (parse_i64 raw)
      end
  end.
Definition version_reset_required (f : SearchFile) : Result string bool :=
  if has_existing_search_state f then
    version ← load_index_version f;
    Ok (match version with None => true | Some version => bool_decide (version ≠ CURRENT_INDEX_VERSION) end)
  else Ok false.
Definition reset_schema (f : SearchFile) : SearchFile := no_search_file.
(** [CREATE TABLE IF NOT EXISTS]: a table that is there is kept with its columns. *)
Definition create_schema (f : SearchFile) : SearchFile :=
  {| sf_has_documents := true;
     sf_has_note_uid := if sf_has_documents f then sf_has_note_uid f else true;
     sf_has_content_checksum := if sf_has_documents f then sf_has_content_checksum f else true;
     sf_has_other_tables := true; sf_metadata := Some (default ∅ (sf_metadata f)); sf_tables := sf_tables f |}.
Definition ensure_documents_freshness_columns (f : SearchFile) : SearchFile :=
  {| sf_has_documents := sf_has_documents f; sf_has_note_uid := sf_has_note_uid f;
     sf_has_content_checksum := sf_has_documents f || sf_has_content_checksum f;
     sf_has_other_tables := sf_has_other_tables f; sf_metadata := sf_metadata f; sf_tables := sf_tables f |}.
Definition persist_index_version (f : SearchFile) : SearchFile :=
  {| sf_has_documents := sf_has_documents f; sf_has_note_uid := sf_has_note_uid f;
     sf_has_content_checksum := sf_has_content_checksum f; sf_has_other_tables := sf_has_other_tables f;
     sf_metadata := (insert INDEX_VERSION_KEY (fmt_int CURRENT_INDEX_VERSION)) <$> sf_metadata f; sf_tables := sf_tables f |}.
Definition init_schema (f : SearchFile) : Result string (SearchFile * bool) :=
  let reset_applied := schema_reset_required f in
  let f := if schema_reset_required f then reset_schema f else f in
  outdated ← version_reset_required f;
  let reset_applied := reset_applied || outdated in
  let f := if outdated then reset_schema f else f in
  Ok (persist_index_version (ensure_documents_freshness_columns (create_schema f)), reset_applied).
(** [open_connection_with_outcome] *)
Definition open_connection (f : SearchFile) : Result string (SearchFile * bool) := init_schema f.

Definition ready (f : SearchFile) : Prop :=
  sf_has_documents f = true ∧ sf_has_note_uid f = true ∧ sf_has_content_checksum f = true ∧
  sf_has_other_tables f = true ∧ load_index_version f = Ok (Some CURRENT_INDEX_VERSION).
(** Opening the index leaves a file with every table and column and the current version,
    with the index that was there or an empty one: empty if it was written by another
    version or before versions, and then the caller is told to rebuild it. A file that
    is opened again is left alone. *)
Theorem init_schema_ready (f f' : SearchFile) (reset : bool) :
  init_schema f = Ok (f', reset) →
  ready f' ∧ init_schema f' = Ok (f', false) ∧
  sf_tables f' = (if reset then empty_tables else sf_tables f) ∧
  (reset = true ↔ has_existing_search_state f = true ∧
    (schema_reset_required f = true ∨ load_index_version f ≠ Ok (Some CURRENT_INDEX_VERSION))).
Proof.
  assert (Hfresh : ∀ g, sf_metadata g ≠ None →
    load_index_version (persist_index_version (ensure_documents_freshness_columns g)) = Ok (Some CURRENT_INDEX_VERSION)).
  { intros g Hg. unfold load_index_version. simpl. destruct (sf_metadata g); [|done]. simpl.
    by rewrite lookup_insert_eq. }
  assert (Hdone : ∀ g, (sf_has_documents g = true → sf_has_note_uid g = true) →
    let f' := persist_index_version (ensure_documents_freshness_columns (create_schema g)) in
    ready f' ∧ init_schema f' = Ok (f', false)).
  { intros g Hg. cbv zeta. set (g' := persist_index_version _). assert (Hready : ready g').
    { split_and!; [done| |done|done|by apply Hfresh]. simpl. destruct (sf_has_documents g); auto. }
    split; [done|]. destruct Hready as (Hd & Hn & Hc & Ho & Hv). unfold init_schema, schema_reset_required, version_reset_required.
    rewrite Hd, Hn. cbn [negb andb]. unfold has_existing_search_state. rewrite Hd, Hv. cbn.
    rewrite bool_decide_false by (intros Hne; by apply Hne). do 2 f_equal. subst g'. clear -Hg.
    unfold persist_index_version, ensure_documents_freshness_columns, create_schema. cbn. rewrite insert_insert_eq.
    destruct (sf_has_documents g); [rewrite Hg by done|]; done. }
  unfold init_schema. destruct (schema_reset_required f) eqn:Hs.
  - simpl. intros [= <- <-]. destruct (Hdone no_search_file) as [? ?]; [done|]. split_and!; [done|done|done|].
    unfold schema_reset_required, has_existing_search_state in *. split; [|done]. intros _.
    apply andb_true_iff in Hs as [-> _]. auto.
  - unfold version_reset_required. destruct (has_existing_search_state f) eqn:He.
    + destruct (load_index_version f) as [v|] eqn:Hv; [|done]. cbn [mbind result_bind].
      assert (Hcur : (match v with None => true | Some v => bool_decide (v ≠ CURRENT_INDEX_VERSION) end) =
                     negb (bool_decide (v = Some CURRENT_INDEX_VERSION))).
      { destruct v as [v|]; [|done]. repeat case_bool_decide; naive_solver. }
      rewrite Hcur. destruct (bool_decide (v = Some CURRENT_INDEX_VERSION)) eqn:Hv'; simpl; intros [= <- <-].
      * apply bool_decide_eq_true in Hv' as ->. destruct (Hdone f) as [? ?].
        { unfold schema_reset_required in Hs. destruct (sf_has_note_uid f), (sf_has_documents f); done. }
        split_and!; [done..|]. naive_solver.
      * apply bool_decide_eq_false in Hv'. destruct (Hdone no_search_file) as [? ?]; [done|].
        split_and!; [done..|]. split; [|done]. intros _. split; [done|]. right. congruence.
    + simpl. intros [= <- <-]. destruct (Hdone f) as [? ?].
      { unfold schema_reset_required, has_existing_search_state in *. by destruct (sf_has_documents f). }
      split_and!; [done..|]. split; [done|]. by intros [? _].
Qed.

(** ** What the statements do *)

(** Numbers of documents are distinct and have been given out; row numbers of links are
    distinct; what a link's row says of its target is computed from the target. *)
Record tables_ok `{Unicode} (db : SearchTables) : Prop := {
  uids_distinct p q r s : db_documents db !! p = Some r → db_documents db !! q = Some s →
    dr_note_uid r = dr_note_uid s → p = q;
  uids_given p r : db_documents db !! p = Some r → (dr_note_uid r ≤ db_sequence db)%Z;
  sources_given w : w ∈ db_wikilink_refs db → (sw_source_note_uid w ≤ db_sequence db)%Z;
  rowids_distinct : NoDup (sw_rowid <$> db_wikilink_refs db);
  targets_normalized : Forall (λ w, sw_normalized_target w = normalize_link_target (sw_raw_target w) ∧
    sw_target_basename w = basename_from_normalized (sw_normalized_target w)) (db_wikilink_refs db) }.
Definition document_ok `{Unicode} (doc : IndexedDocument) : Prop :=
  Forall (λ w, iw_normalized_target w = normalize_link_target (iw_raw_target w) ∧
    iw_target_basename w = basename_from_normalized (iw_normalized_target w)) (id_wikilink_refs doc).

Lemma next_rowid_fresh ids : next_rowid ids ∉ ids.
Proof.
  enough (Hmax : ∀ i, i ∈ ids → (i ≤ foldr Z.max 0 ids)%Z).
  { intros Hin%Hmax. unfold next_rowid in Hin. lia. }
  induction ids as [|j ids IH]; intros i Hi; [by apply not_elem_of_nil in Hi|].
  apply elem_of_cons in Hi as [->|Hi]; simpl; [lia|]. specialize (IH i Hi). lia.
Qed.

(** Inserting links appends rows for them. *)
Definition row_of_link (note_uid : Z) (doc_id : string) (l : IndexedWikilinkRow) (w : StoredWikilinkRefRow) : Prop :=
  sw_source_note_uid w = note_uid ∧ sw_source_doc_id w = doc_id ∧ sw_raw_target w = iw_raw_target l ∧
  sw_alias w = iw_alias l ∧ sw_normalized_target w = iw_normalized_target l ∧
  sw_target_basename w = iw_target_basename l ∧ sw_ordinal w = iw_ordinal l.
Lemma insert_wikilinks_spec note_uid doc_id links db : NoDup (sw_rowid <$> db_wikilink_refs db) →
  let db' := foldl (insert_wikilink note_uid doc_id) db links in
  db_documents db' = db_documents db ∧ db_sequence db' = db_sequence db ∧ db_chunk_rows db' = db_chunk_rows db ∧
  NoDup (sw_rowid <$> db_wikilink_refs db') ∧
  ∃ rows, db_wikilink_refs db' = db_wikilink_refs db ++ rows ∧ Forall2 (row_of_link note_uid doc_id) links rows.
Proof.
  revert db. induction links as [|l links IH]; intros db Hnd; [split_and!; try done; exists []; by rewrite app_nil_r|].
  cbn [foldl]. destruct (IH (insert_wikilink note_uid doc_id db l)) as (Hd & Hs & Hc & Hnd' & rows & Hrows & Hall).
  { simpl. rewrite fmap_app. apply NoDup_app. split; [done|]. split; [|by apply NoDup_singleton].
    intros i Hi ->%list_elem_of_singleton. by apply (next_rowid_fresh (sw_rowid <$> db_wikilink_refs db)). }
  split_and!; [done..|]. rewrite Hrows. simpl. rewrite <- app_assoc. eexists. split; [done|]. by constructor.
Qed.
Lemma insert_chunks_spec doc_id chunks db :
  let db' := foldl (insert_chunk doc_id) db chunks in
  db_documents db' = db_documents db ∧ db_sequence db' = db_sequence db ∧ db_wikilink_refs db' = db_wikilink_refs db ∧
  (λ c, (cr_doc_id c, cr_chunk c)) <$> db_chunk_rows db' =
    ((λ c, (cr_doc_id c, cr_chunk c)) <$> db_chunk_rows db) ++ ((pair doc_id) <$> chunks).
Proof.
  revert db. induction chunks as [|c chunks IH]; intros db; [split_and!; try done; by rewrite app_nil_r|].
  cbn [foldl]. destruct (IH (insert_chunk doc_id db c)) as (-> & -> & -> & Hc). split_and!; [done..|].
  etransitivity; [exact Hc|]. simpl. by rewrite fmap_app, <- app_assoc.
Qed.

Definition chunks_of (db : SearchTables) (doc_id : string) : list IndexedChunkRow :=
  cr_chunk <$> filter (λ c, cr_doc_id c = doc_id) (db_chunk_rows db).
Definition uid_for (db : SearchTables) (doc : IndexedDocument) : Z := default (db_sequence db + 1)%Z (id_note_uid doc).

Section statements.
Context `{Unicode}.

Lemma replace_row_spec db doc : tables_ok db →
  let uid := uid_for db doc in
  let '(note_uid, db') := replace_row doc db in
  note_uid = uid ∧ db_sequence db' = Z.max (db_sequence db) uid ∧
  db_documents db' = <[id_doc_id doc := document_row uid doc]>
    (filter (λ kv : string * DocumentRow, kv.1 ≠ id_doc_id doc ∧ dr_note_uid kv.2 ≠ uid) (db_documents db)) ∧
  db_wikilink_refs db' = filter (λ w, sw_source_note_uid w ≠ uid) (db_wikilink_refs db) ∧
  db_chunk_rows db' = filter (λ c, cr_doc_id c ≠ id_doc_id doc ∧
    (bool_decide (id_note_uid doc ≠ None) && has_uid db uid (cr_doc_id c)) = false) (db_chunk_rows db).
Proof.
  intros Hok. unfold replace_row, uid_for. destruct (id_note_uid doc) as [u|]; cbn -[Z.add Z.max].
  - split_and!; [done|done| |done|].
    + f_equal. rewrite !map_filter_filter. apply map_filter_ext. intros k r _. simpl.
      repeat case_bool_decide; simpl; naive_solver.
    + apply list_filter_iff. intros c.
      destruct (has_uid db u (cr_doc_id c)); case_bool_decide; simpl; naive_solver.
  - split_and!; [done|done| | |].
    + f_equal. apply map_filter_ext. intros k r Hr. simpl. pose proof (uids_given _ Hok _ _ Hr).
      case_bool_decide; [naive_solver|]. split; [|done]. intros _. split; [done|]. lia.
    + symmetry. apply list_filter_all. intros w Hw. pose proof (sources_given _ Hok _ Hw). lia.
    + apply list_filter_iff. intros c. case_bool_decide; naive_solver.
Qed.
(** Replacing a document: its row, its chunks and its links are the new ones, and what
    belonged to its number before is gone. *)
Lemma replace_document_spec db doc : tables_ok db → document_ok doc →
  let uid := uid_for db doc in
  let '(note_uid, db') := replace_document db doc in
  note_uid = uid ∧
  db_documents db' = <[id_doc_id doc := document_row uid doc]>
    (filter (λ kv : string * DocumentRow, kv.1 ≠ id_doc_id doc ∧ dr_note_uid kv.2 ≠ uid) (db_documents db)) ∧
  (∃ rows, db_wikilink_refs db' = filter (λ w, sw_source_note_uid w ≠ uid) (db_wikilink_refs db) ++ rows ∧
    Forall2 (row_of_link uid (id_doc_id doc)) (id_wikilink_refs doc) rows) ∧
  (∀ p, chunks_of db' p = if bool_decide (p = id_doc_id doc) then id_chunks doc
                          else if bool_decide (id_note_uid doc ≠ None) && has_uid db uid p then [] else chunks_of db p) ∧
  tables_ok db'.
Proof.
  intros Hok Hdoc. cbv zeta. unfold replace_document. pose proof (replace_row_spec db doc Hok) as Hrow. cbv zeta in Hrow.
  destruct (replace_row doc db) as [note_uid db1]. destruct Hrow as (-> & Hseq & Hdocs & Hlinks & Hchunks).
  set (uid := uid_for db doc) in *.
  destruct (insert_chunks_spec (id_doc_id doc) (id_chunks doc) db1) as (Hdocs2 & Hseq2 & Hlinks2 & Hchunks2).
  set (db2 := foldl (insert_chunk _) db1 _) in *.
  assert (Hnd : NoDup (sw_rowid <$> db_wikilink_refs db2)).
  { rewrite Hlinks2, Hlinks. apply NoDup_fmap_filter, (rowids_distinct _ Hok). }
  destruct (insert_wikilinks_spec uid (id_doc_id doc) (id_wikilink_refs doc) db2 Hnd)
    as (Hdocs3 & Hseq3 & Hchunks3 & Hnd3 & rows & Hlinks3 & Hrows).
  set (db3 := foldl (insert_wikilink _ _) db2 _) in *.
  assert (Hd : db_documents db3 = <[id_doc_id doc := document_row uid doc]>
    (filter (λ kv : string * DocumentRow, kv.1 ≠ id_doc_id doc ∧ dr_note_uid kv.2 ≠ uid) (db_documents db))) by congruence.
  assert (Hl : db_wikilink_refs db3 = filter (λ w, sw_source_note_uid w ≠ uid) (db_wikilink_refs db) ++ rows) by congruence.
  assert (Hs : db_sequence db3 = Z.max (db_sequence db) uid) by congruence.
  split; [done|]. split; [done|]. split; [by exists rows|]. split.
  - intros p. unfold chunks_of. rewrite Hchunks3.
    assert (Hpairs : ∀ l : list ChunkRow, cr_chunk <$> filter (λ c, cr_doc_id c = p) l =
      snd <$> filter (λ x : string * IndexedChunkRow, x.1 = p) ((λ c, (cr_doc_id c, cr_chunk c)) <$> l)).
    { intros l. induction l as [|c l IH]; [done|]. simpl. rewrite !filter_cons. simpl. case_decide; simpl; [f_equal|]; exact IH. }
    rewrite Hpairs, Hchunks2, Hchunks, filter_app, fmap_app. rewrite <- Hpairs.
    assert (Hnew : snd <$> filter (λ x : string * IndexedChunkRow, x.1 = p) (pair (id_doc_id doc) <$> id_chunks doc) =
      if bool_decide (p = id_doc_id doc) then id_chunks doc else []).
    { destruct (decide (p = id_doc_id doc)) as [->|Hp].
      - rewrite bool_decide_true by done. generalize (id_chunks doc). intros l. induction l as [|c l IH]; [done|].
        cbn [fmap list_fmap]. rewrite filter_cons_True by done. cbn [fmap list_fmap]. f_equal. exact IH.
      - rewrite bool_decide_false by done. rewrite list_filter_none; [done|].
        intros x (c & -> & _)%list_elem_of_fmap. simpl. congruence. }
    rewrite Hnew, list_filter_filter. case_bool_decide as Hp.
    + subst p. rewrite list_filter_none; [done|]. naive_solver.
    + rewrite app_nil_r. destruct (bool_decide (id_note_uid doc ≠ None) && has_uid db uid p) eqn:Hhas.
      * rewrite list_filter_none; [done|]. intros c _ [-> [_ Hf]]. congruence.
      * f_equal. apply list_filter_iff. intros c. naive_solver.
  - split.
    + intros p q r s. rewrite Hd, !lookup_insert_Some, !map_lookup_filter_Some. simpl.
      intros [[<- <-]|(_ & Hr & _ & Hr')] [[<- <-]|(_ & Hs' & _ & Hs'')]; simpl; [done|congruence..|].
      by apply (uids_distinct _ Hok).
    + intros p r. rewrite Hd, Hs, lookup_insert_Some, map_lookup_filter_Some. simpl.
      intros [[<- <-]|(? & Hr & _)]; simpl; [lia|]. pose proof (uids_given _ Hok _ _ Hr). lia.
    + intros w. rewrite Hl, Hs, elem_of_app, list_elem_of_filter. intros [[_ Hw]|Hw].
      * pose proof (sources_given _ Hok _ Hw). lia.
      * apply list_elem_of_lookup in Hw as [i Hi]. destruct (Forall2_lookup_r _ _ _ _ _ Hrows Hi) as (l & _ & (-> & _)). lia.
    + done.
    + rewrite Hl. apply Forall_app. split; [apply Forall_filter_of, (targets_normalized _ Hok)|].
      unfold document_ok in Hdoc. clear -Hrows Hdoc. induction Hrows as [|l w ls ws Hlw _ IH]; [done|].
      apply Forall_cons in Hdoc as [[Hn Hb] Hdoc]. constructor; [|by apply IH].
      destruct Hlw as (_ & _ & -> & _ & -> & -> & _). done.
Qed.

(** Removing a document *)
Lemma remove_document_spec db doc_id : tables_ok db →
  let '(note_uid, db') := remove_document db doc_id in
  note_uid = dr_note_uid <$> db_documents db !! doc_id ∧
  db_documents db' = base.delete doc_id (db_documents db) ∧ db_sequence db' = db_sequence db ∧
  db_wikilink_refs db' = filter (λ w, Some (sw_source_note_uid w) ≠ note_uid) (db_wikilink_refs db) ∧
  (∀ p, chunks_of db' p = if bool_decide (p = doc_id) then [] else chunks_of db p) ∧
  tables_ok db'.
Proof.
  intros Hok. unfold remove_document, find_note_uid_by_doc_id.
  set (db' := delete_documents _ _).
  assert (Hd : db_documents db' = base.delete doc_id (db_documents db)).
  { apply map_eq. intros k. unfold db'. simpl. destruct (_ <$> _) eqn:Hu; simpl; (destruct (decide (k = doc_id)) as [->|Hk];
      [rewrite lookup_delete_eq; apply map_lookup_filter_None; right; intros r _; simpl; by rewrite bool_decide_true
      |rewrite lookup_delete_ne by done; destruct (db_documents db !! k) eqn:Hr;
       [apply map_lookup_filter_Some; split; [done|]; simpl; by rewrite bool_decide_false
       |apply map_lookup_filter_None; by left]]). }
  assert (Hs : db_sequence db' = db_sequence db) by (unfold db'; by destruct (_ <$> _)).
  assert (Hl : db_wikilink_refs db' = filter (λ w, Some (sw_source_note_uid w) ≠ dr_note_uid <$> db_documents db !! doc_id) (db_wikilink_refs db)).
  { unfold db'. destruct (_ <$> _) as [u|]; simpl.
    - apply list_filter_iff. naive_solver.
    - symmetry. by apply list_filter_all. }
  split; [done|]. split; [done|]. split; [done|]. split; [done|]. split.
  - intros p. unfold db', chunks_of. simpl. replace (db_chunk_rows _) with (db_chunk_rows db) by by destruct (_ <$> _).
    rewrite list_filter_filter. case_bool_decide as Hp.
    + subst. rewrite list_filter_none; [done|]. intros c _ [-> Hc]. by rewrite bool_decide_true in Hc.
    + f_equal. apply list_filter_iff. intros c. split; [naive_solver|]. intros ->. split; [done|]. by rewrite bool_decide_false.
  - split; rewrite ?Hd, ?Hs, ?Hl.
    + intros p q r s. rewrite !lookup_delete_Some. intros [_ ?] [_ ?]. by apply (uids_distinct _ Hok).
    + intros p r. rewrite lookup_delete_Some. intros [_ ?]. by eapply (uids_given _ Hok).
    + intros w. rewrite list_elem_of_filter. intros [_ ?]. by apply (sources_given _ Hok).
    + apply NoDup_fmap_filter, (rowids_distinct _ Hok).
    + apply Forall_filter_of, (targets_normalized _ Hok).
Qed.
End statements.
