(* ===== verification/SearchWriter.v ===== *)
(** * The index writer (search/writer.rs)

    One thread takes jobs from a channel and brings the index up to date with the
    vault: a full rebuild, or the change of one note. After a change only the links it
    may concern are resolved again; the main result is that this is enough. *)
From Stdlib Require Import Ascii String.
#[local] Set Warnings "-clear-no-such-hyp".
From S2P Require Import Prelude Text Paths SyncDb Scanner Chars Indexer Wikilinks Extract SearchLinks SearchDb.

(** ** State *)

Record IndexerStatus := {
  is_state : string;
  is_total_docs : nat;
  is_indexed_docs : nat;
  is_last_indexed_at : option Z;
  is_resolved_links : nat;
  is_unresolved_links : nat;
  is_ambiguous_links : nat;
  is_error : option string }.
Definition IndexerStatus_default : IndexerStatus :=
  {| is_state := "idle"; is_total_docs := 0; is_indexed_docs := 0; is_last_indexed_at := None;
     is_resolved_links := 0; is_unresolved_links := 0; is_ambiguous_links := 0; is_error := None |}.
(** The part of [IndexerDebugStatus] that jobs and requests keep *)
Record IndexerDebugStatus := {
  ds_last_job : option (string * option string * string);
  ds_last_rebuild_reason : option string;
  ds_queued_rebuild_reason : option string;
  ds_coalesced_rebuild_count : nat;
  ds_coalesced_index_count : nat }.
Definition IndexerDebugStatus_default : IndexerDebugStatus :=
  {| ds_last_job := None; ds_last_rebuild_reason := None; ds_queued_rebuild_reason := None;
     ds_coalesced_rebuild_count := 0; ds_coalesced_index_count := 0 |}.
Record RebuildQueueState := { queued : bool; running : bool; rerun : bool }.
Inductive WriterJob :=
| FullRebuild (reason : string)
| IndexFile (path source : string)
| RemoveFile (path : string) (is_dir : bool) (source : string)
| RenameFile (old_path new_path : string) (is_dir : bool) (source : string)
| Shutdown.
#[export] Instance WriterJob_eq_dec : EqDecision WriterJob.
Proof. solve_decision. Defined.
Inductive IndexerStorageLocation := AppGlobal | VaultLocal.
Record IndexerConfig := {
  storage_location : IndexerStorageLocation;
  incremental_updates : bool;
  reindex_on_vault_open : bool;
  resolution_policy : string }.
#[export] Instance IndexerStorageLocation_eq_dec : EqDecision IndexerStorageLocation.
Proof. solve_decision. Defined.
#[export] Instance IndexerConfig_eq_dec : EqDecision IndexerConfig.
Proof. solve_decision. Defined.

(** [SearchRuntime] with its database and its channel: the jobs that were sent and not
    received, and whether the thread that receives them is alive. *)
Record SearchRuntime := {
  rt_db : SearchTables;
  rt_jobs : list WriterJob;
  rt_alive : bool;
  rt_pending_index_paths : gset string;
  rt_status : IndexerStatus;
  rt_debug_status : IndexerDebugStatus;
  rt_rebuild_state : RebuildQueueState;
  rt_config : IndexerConfig }.
Abbreviation Writer := (Act SearchRuntime string).

Definition with_db (f : SearchTables → SearchTables) (r : SearchRuntime) : SearchRuntime :=
  {| rt_db := f (rt_db r); rt_jobs := rt_jobs r; rt_alive := rt_alive r;
     rt_pending_index_paths := rt_pending_index_paths r; rt_status := rt_status r;
     rt_debug_status := rt_debug_status r; rt_rebuild_state := rt_rebuild_state r; rt_config := rt_config r |}.
Definition with_jobs (f : list WriterJob → list WriterJob) (r : SearchRuntime) : SearchRuntime :=
  {| rt_db := rt_db r; rt_jobs := f (rt_jobs r); rt_alive := rt_alive r;
     rt_pending_index_paths := rt_pending_index_paths r; rt_status := rt_status r;
     rt_debug_status := rt_debug_status r; rt_rebuild_state := rt_rebuild_state r; rt_config := rt_config r |}.
Definition with_pending (f : gset string → gset string) (r : SearchRuntime) : SearchRuntime :=
  {| rt_db := rt_db r; rt_jobs := rt_jobs r; rt_alive := rt_alive r;
     rt_pending_index_paths := f (rt_pending_index_paths r); rt_status := rt_status r;
     rt_debug_status := rt_debug_status r; rt_rebuild_state := rt_rebuild_state r; rt_config := rt_config r |}.
Definition with_status (f : IndexerStatus → IndexerStatus) (r : SearchRuntime) : SearchRuntime :=
  {| rt_db := rt_db r; rt_jobs := rt_jobs r; rt_alive := rt_alive r;
     rt_pending_index_paths := rt_pending_index_paths r; rt_status := f (rt_status r);
     rt_debug_status := rt_debug_status r; rt_rebuild_state := rt_rebuild_state r; rt_config := rt_config r |}.
Definition with_debug (f : IndexerDebugStatus → IndexerDebugStatus) (r : SearchRuntime) : SearchRuntime :=
  {| rt_db := rt_db r; rt_jobs := rt_jobs r; rt_alive := rt_alive r;
     rt_pending_index_paths := rt_pending_index_paths r; rt_status := rt_status r;
     rt_debug_status := f (rt_debug_status r); rt_rebuild_state := rt_rebuild_state r; rt_config := rt_config r |}.
Definition with_rebuild (f : RebuildQueueState → RebuildQueueState) (r : SearchRuntime) : SearchRuntime :=
  {| rt_db := rt_db r; rt_jobs := rt_jobs r; rt_alive := rt_alive r;
     rt_pending_index_paths := rt_pending_index_paths r; rt_status := rt_status r;
     rt_debug_status := rt_debug_status r; rt_rebuild_state := f (rt_rebuild_state r); rt_config := rt_config r |}.

(** [Sender::send] *)
Definition send (job : WriterJob) : Writer unit := λ r,
  if rt_alive r then (Ok tt, with_jobs (λ jobs, jobs ++ [job]) r) else (Err "sending on a closed channel", r).
Definition set_indexing_status (total_docs indexed_docs : nat) (s : IndexerStatus) : IndexerStatus :=
  {| is_state := "indexing"; is_total_docs := total_docs; is_indexed_docs := indexed_docs;
     is_last_indexed_at := is_last_indexed_at s; is_resolved_links := is_resolved_links s;
     is_unresolved_links := is_unresolved_links s; is_ambiguous_links := is_ambiguous_links s; is_error := None |}.
Definition set_idle_status (now : Z) (total_docs resolved_links unresolved_links ambiguous_links : nat) : IndexerStatus :=
  {| is_state := "idle"; is_total_docs := total_docs; is_indexed_docs := total_docs; is_last_indexed_at := Some now;
     is_resolved_links := resolved_links; is_unresolved_links := unresolved_links;
     is_ambiguous_links := ambiguous_links; is_error := None |}.
Definition set_error_status (error : string) (s : IndexerStatus) : IndexerStatus :=
  {| is_state := "error"; is_total_docs := is_total_docs s; is_indexed_docs := is_indexed_docs s;
     is_last_indexed_at := is_last_indexed_at s; is_resolved_links := is_resolved_links s;
     is_unresolved_links := is_unresolved_links s; is_ambiguous_links := is_ambiguous_links s; is_error := Some error |}.
Definition record_last_job (kind : string) (path : option string) (source : string) (d : IndexerDebugStatus) : IndexerDebugStatus :=
  {| ds_last_job := Some (kind, path, source); ds_last_rebuild_reason := ds_last_rebuild_reason d;
     ds_queued_rebuild_reason := ds_queued_rebuild_reason d;
     ds_coalesced_rebuild_count := ds_coalesced_rebuild_count d; ds_coalesced_index_count := ds_coalesced_index_count d |}.
Definition note_queued_rebuild (coalesced : bool) (reason : string) (d : IndexerDebugStatus) : IndexerDebugStatus :=
  {| ds_last_job := ds_last_job d; ds_last_rebuild_reason := ds_last_rebuild_reason d;
     ds_queued_rebuild_reason := Some reason;
     ds_coalesced_rebuild_count := (if coalesced then 1 else 0) + ds_coalesced_rebuild_count d;
     ds_coalesced_index_count := ds_coalesced_index_count d |}.
Definition note_started_rebuild (reason : string) (d : IndexerDebugStatus) : IndexerDebugStatus :=
  {| ds_last_job := ds_last_job d; ds_last_rebuild_reason := Some reason; ds_queued_rebuild_reason := None;
     ds_coalesced_rebuild_count := ds_coalesced_rebuild_count d; ds_coalesced_index_count := ds_coalesced_index_count d |}.
Definition queue_rebuild (reason : string) : Writer unit :=
  s ← gets rt_rebuild_state;
  should_send ←
    (if running s then
       _ ← modify (with_rebuild (λ s, {| queued := queued s; running := running s; rerun := true |}));
       _ ← modify (with_debug (note_queued_rebuild true reason));
       mret false
     else if queued s then
       _ ← modify (with_debug (note_queued_rebuild true reason));
       mret false
     else
       _ ← modify (with_rebuild (λ s, {| queued := true; running := running s; rerun := rerun s |}));
       _ ← modify (with_debug (note_queued_rebuild false reason));
       mret true);
  if should_send : bool then _ ← attempt (send (FullRebuild reason)); mret tt else mret tt.
Definition reset_rebuild_state_after_error : Writer unit :=
  modify (with_rebuild (λ _, {| queued := false; running := false; rerun := false |})).

(** ** Reading notes *)

(** [search::is_markdown_path] *)
Definition is_markdown_path (path : string) : bool :=
  let lower := to_ascii_lowercase path in ends_with ".md" lower || ends_with ".markdown" lower.

(** serde_json, on the maps and lists the index stores *)
Class IndexJson := { meta_json : list (string * string) → string; section_path_json : list string → string }.

Section writer.
Context `{Unicode, YamlValues, MarkdownParser, Blake3, Os, IndexJson}.

(** [fs::symlink_metadata] *)
Definition stat (fs : Fs) (p : AbsPath) : Result IoError Node :=
  if existsb (λ n, match fs !! take n p with Some (File _ _) => true | _ => false end) (seq 1 (length p - 1))
  then Err NotADirectory
  else if bool_decide (p = []) then Ok Dir else ok_or (fs !! p) NotFound.
Definition collect_entry (root dir : AbsPath) (recurse : AbsPath → list string → Result string (list string))
    (out : list string) (entry : string * Node) : Result string (list string) :=
  let path := dir ++ [entry.1] in
  let rel := drop (length root) path in
  if should_ignore_path rel then Ok out
  else match entry.2 with
       | Symlink _ => Ok out
       | Dir => recurse path out
       | File _ _ =>
           let rel_string := to_relative_path rel in
           if is_markdown_path rel_string then Ok (out ++ [rel_string]) else Ok out
       end.
(** The recursion is bounded by the depth of the tree. *)
Fixpoint collect_markdown_files (fuel : nat) (fs : Fs) (root dir : AbsPath) (out : list string) : Result string (list string) :=
  match fuel with
  | O => Ok out
  | S fuel =>
      if is_dir fs dir
      then try_fold (collect_entry root dir (λ d out, collect_markdown_files fuel fs root d out)) out (read_dir fs dir)
      else Err ("Failed to read vault directory: " +:+ io_text (match fs !! dir with None => NotFound | _ => NotADirectory end))
  end.
Definition mtime_ms (now mtime : Z) : Z := if (0 <=? mtime)%Z then mtime else now.
Definition kind_str (k : ChunkKind) : string :=
  match k with Prose => "Prose" | CodeChunk => "Code" | HeadingChunk => "Heading" end.
Definition chunk_rows_of (sections : list Section_) : list IndexedChunkRow :=
  concat ((λ section,
    (λ chunk, {| ic_section_path_json := section_path_json (from_chars <$> sc_path section);
                 ic_kind := kind_str (ec_kind chunk); ic_text := from_chars (ec_text chunk);
                 ic_raw_text := from_chars (ec_raw_text chunk);
                 ic_global_start := Z.of_nat (ec_global_start chunk);
                 ic_global_end := Z.of_nat (ec_global_end chunk) |}) <$> sc_chunks section) <$> sections).
Definition wikilink_rows_of (links : list ExtractedWikilink) : list IndexedWikilinkRow :=
  (λ link, let normalized_target := normalize_link_target (from_chars (target link)) in
     {| iw_raw_target := from_chars (target link); iw_alias := from_chars <$> Wikilinks.alias link;
        iw_normalized_target := normalized_target;
        iw_target_basename := basename_from_normalized normalized_target;
        iw_ordinal := Z.of_nat (ordinal link) |}) <$> links.
(** [collect::<BTreeMap<_, _>>]: the last value of a key counts. *)
Definition meta_entries (frontmatter : list FrontmatterEntry) : list (string * string) :=
  sort_by (leb_on fst) (map_to_list (insert_all ∅ ((λ e, (from_chars (fe_key e), from_chars (fe_value e))) <$> frontmatter))).
Definition document_of (note_uid : option Z) (rel_path : string) (mtime : Z) (markdown : string) : IndexedDocument :=
  let extracted := extract_document (chars markdown) in
  {| id_note_uid := note_uid; id_doc_id := rel_path; id_title := from_chars <$> ed_title extracted;
     id_mtime_ms := mtime; id_content_checksum := blake3_hex markdown;
     id_meta_json := meta_json (meta_entries (ed_frontmatter extracted));
     id_chunks := chunk_rows_of (ed_sections extracted);
     id_wikilink_refs := wikilink_rows_of (ed_wikilinks extracted) |}.
Definition note_uid_for (db : SearchTables) (rel_path : string) : option Z :=
  match find_note_uid_by_doc_id db rel_path with
  | Some note_uid => Some note_uid
  | None => find_note_uid_by_doc_id_nocase db rel_path
  end.
Definition build_document (fs : Fs) (root : AbsPath) (now : Z) (db : SearchTables) (rel_path : string)
  : Result string (option IndexedDocument) :=
  if negb (is_markdown_path rel_path) then Ok None
  else match stat fs (path_join root rel_path) with
       | Err NotFound => Ok None
       | Err error => Err ("Failed to stat markdown file: " +:+ io_text error)
       | Ok (Symlink _) | Ok Dir => Ok None
       | Ok (File content mtime) =>
           if utf8_valid content
           then Ok (Some (document_of (note_uid_for db rel_path) rel_path (mtime_ms now mtime) content))
           else Err "Failed to read markdown file: stream did not contain valid UTF-8"
       end.

(** ** Resolving links again *)

Record ReResolutionPlan := {
  source_note_uids : gset Z;
  normalized_targets : gset string;
  target_basenames : gset string;
  resolved_target_uids : gset Z }.
Definition should_reresolve_row (plan : ReResolutionPlan) (row : StoredWikilinkRefRow) : bool :=
  bool_decide (sw_source_note_uid row ∈ source_note_uids plan)
  || bool_decide (sw_normalized_target row ∈ normalized_targets plan)
  || bool_decide (sw_target_basename row ∈ target_basenames plan)
  || match sw_resolved_target_uid row with
     | Some target_uid => bool_decide (target_uid ∈ resolved_target_uids plan)
     | None => false
     end.
Definition resolve_row (index : DocIndex) (db : SearchTables) (row : StoredWikilinkRefRow) : SearchTables :=
  update_wikilink_resolution db (sw_rowid row) (resolve_wikilink (sw_source_doc_id row) (sw_raw_target row) index).
Definition resolve_all_wikilinks (db : SearchTables) : SearchTables :=
  foldl (resolve_row (DocIndex_new (load_doc_identities db))) db (load_wikilink_rows db).
Definition plan_is_empty (plan : ReResolutionPlan) : bool :=
  bool_decide (source_note_uids plan = ∅) && bool_decide (normalized_targets plan = ∅)
  && bool_decide (target_basenames plan = ∅) && bool_decide (resolved_target_uids plan = ∅).
Definition rereresolve_wikilinks (plan : ReResolutionPlan) (db : SearchTables) : SearchTables :=
  if plan_is_empty plan then db
  else foldl (resolve_row (DocIndex_new (load_doc_identities db))) db
         (List.filter (should_reresolve_row plan) (load_wikilink_rows db)).
Definition refresh_idle_status (now : Z) : Writer unit :=
  db ← gets rt_db;
  let '(resolved, unresolved, ambiguous) := load_link_counts db in
  modify (with_status (λ _, set_idle_status now (length (list_indexed_doc_ids db)) resolved unresolved ambiguous)).

(** ** Jobs *)

Section jobs.
Context (fs : Fs) (root : AbsPath) (now : Z).
(** A rebuild reads its files one after the other, while other programs change them: the
    file system as it is when the rebuild reads a path *)
Context (sees : string → Fs).

(** [files.chunks(50)] *)
Fixpoint batches (fuel : nat) (files : list string) : list (list string) :=
  match fuel, files with
  | _, [] => []
  | O, _ => []
  | S fuel, _ => take 50 files :: batches fuel (drop 50 files)
  end.
(** The documents of a batch are built before the first of them is written. *)
Definition build_batch (db : SearchTables) (batch : list string) : Result string (list IndexedDocument) :=
  try_fold (λ docs rel_path,
    maybe_doc ← build_document (sees rel_path) root now db rel_path;
    Ok (docs ++ match maybe_doc with Some doc => [doc] | None => [] end)) [] batch.
Definition rebuild_batch (total batch_idx : nat) (batch : list string) : Writer nat :=
  db ← gets rt_db;
  docs ← lift (build_batch db batch);
  _ ← modify (with_db (λ db, foldl (λ db doc, (replace_document db doc).2) db docs));
  _ ← modify (with_status (set_indexing_status total (Nat.min ((batch_idx + 1) * 50) total)));
  mret (S batch_idx).
Definition begin_rebuild (reason : string) : Writer unit :=
  _ ← modify (with_rebuild (λ s, {| queued := false; running := true; rerun := rerun s |}));
  modify (with_debug (note_started_rebuild reason)).
Definition remove_stale (files : list string) (db : SearchTables) : SearchTables :=
  foldl (λ db doc_id, (remove_document db doc_id).2) db
    (List.filter (λ doc_id, negb (bool_decide (doc_id ∈ files))) (list_indexed_doc_ids db)).
Definition rebuild_index (reason : string) : Writer unit :=
  files ← lift (collect_markdown_files (scan_depth fs) fs root root []);
  let files := sort_by str_leb files in
  _ ← modify (with_status (set_indexing_status (length files) 0));
  _ ← act_fold (rebuild_batch (length files)) 0 (batches (length files) files);
  _ ← modify (with_db (remove_stale files));
  _ ← modify (with_db resolve_all_wikilinks);
  _ ← refresh_idle_status now;
  modify (with_debug (record_last_job "full-rebuild" None reason)).
Definition finish_rebuild : Writer unit :=
  s ← gets rt_rebuild_state;
  if rerun s then
    _ ← modify (with_rebuild (λ _, {| queued := true; running := false; rerun := false |}));
    _ ← attempt (send (FullRebuild "rebuild-rerun")); mret tt
  else modify (with_rebuild (λ s, {| queued := queued s; running := false; rerun := rerun s |})).
Definition handle_full_rebuild (reason : string) : Writer unit :=
  _ ← begin_rebuild reason; _ ← rebuild_index reason; finish_rebuild.

Definition handle_index_file (path source : string) : Writer unit :=
  if negb (is_markdown_path path) then mret tt
  else
    _ ← modify (with_status (λ s, set_indexing_status (is_total_docs s) (is_indexed_docs s) s));
    db ← gets rt_db;
    maybe_doc ← lift (build_document fs root now db path);
    match maybe_doc with
    | Some doc =>
        if bool_decide ((load_document_freshness db path ≫= sf_content_checksum) = Some (id_content_checksum doc))
        then
          _ ← modify (with_db (λ db, update_document_freshness db (id_doc_id doc) (id_mtime_ms doc) (id_content_checksum doc)));
          _ ← refresh_idle_status now;
          modify (with_debug (record_last_job "index-file-skip" (Some path) source))
        else
          let normalized := normalize_link_target path in
          let '(note_uid, db) := replace_document db doc in
          let plan := {| source_note_uids := {[note_uid]}; normalized_targets := {[normalized]};
                         target_basenames := {[basename_from_normalized normalized]}; resolved_target_uids := ∅ |} in
          _ ← modify (with_db (λ _, db));
          _ ← modify (with_db (rereresolve_wikilinks plan));
          _ ← refresh_idle_status now;
          modify (with_debug (record_last_job "index-file" (Some path) source))
    | None =>
        let '(note_uid, db) := remove_document db path in
        let normalized := normalize_link_target path in
        let plan := match note_uid with
                    | Some note_uid =>
                        {| source_note_uids := ∅; normalized_targets := {[normalized]};
                           target_basenames := {[basename_from_normalized normalized]};
                           resolved_target_uids := {[note_uid]} |}
                    | None => {| source_note_uids := ∅; normalized_targets := ∅; target_basenames := ∅; resolved_target_uids := ∅ |}
                    end in
        _ ← modify (with_db (λ _, db));
        _ ← modify (with_db (rereresolve_wikilinks plan));
        _ ← refresh_idle_status now;
        modify (with_debug (record_last_job "index-file" (Some path) source))
    end.
Definition handle_remove_file (path : string) (is_dir : bool) (source : string) : Writer unit :=
  if is_dir then queue_rebuild "directory-mutation"
  else if negb (is_markdown_path path) then mret tt
  else
    let normalized := normalize_link_target path in
    db ← gets rt_db;
    let '(note_uid, db) := remove_document db path in
    let plan := {| source_note_uids := ∅; normalized_targets := {[normalized]};
                   target_basenames := {[basename_from_normalized normalized]};
                   resolved_target_uids := match note_uid with Some note_uid => {[note_uid]} | None => ∅ end |} in
    _ ← modify (with_db (λ _, db));
    _ ← modify (with_db (rereresolve_wikilinks plan));
    _ ← refresh_idle_status now;
    modify (with_debug (record_last_job "remove-file" (Some path) source)).
Definition renamed_document (old_uid : option Z) (doc : IndexedDocument) : IndexedDocument :=
  {| id_note_uid := old_uid; id_doc_id := id_doc_id doc; id_title := id_title doc; id_mtime_ms := id_mtime_ms doc;
     id_content_checksum := id_content_checksum doc; id_meta_json := id_meta_json doc; id_chunks := id_chunks doc;
     id_wikilink_refs := id_wikilink_refs doc |}.
Definition handle_rename_file (old_path new_path : string) (is_dir : bool) (source : string) : Writer unit :=
  if is_dir then queue_rebuild "directory-mutation"
  else
    db ← gets rt_db;
    let old_uid := find_note_uid_by_doc_id db old_path in
    let old_normalized := normalize_link_target old_path in
    let new_normalized := normalize_link_target new_path in
    maybe_new_doc ← lift (if is_markdown_path new_path then build_document fs root now db new_path else Ok None);
    let db := if is_markdown_path old_path then (remove_document db old_path).2 else db in
    let '(inserted, db) := match maybe_new_doc with
                           | Some doc => let '(note_uid, db) := replace_document db (renamed_document old_uid doc) in (Some note_uid, db)
                           | None => (None, db)
                           end in
    let plan := {| source_note_uids := match inserted with Some note_uid => {[note_uid]} | None => ∅ end;
                   normalized_targets := {[old_normalized; new_normalized]};
                   target_basenames := {[basename_from_normalized old_normalized; basename_from_normalized new_normalized]};
                   resolved_target_uids := match inserted with Some note_uid => {[note_uid]} | None => ∅ end ∪
                                           match old_uid with Some old_uid => {[old_uid]} | None => ∅ end |} in
    _ ← modify (with_db (λ _, db));
    _ ← modify (with_db (rereresolve_wikilinks plan));
    _ ← refresh_idle_status now;
    modify (with_debug (record_last_job "rename-file" (Some new_path) source)).

(** One turn of the thread's loop *)
Definition handle_job (job : WriterJob) : Writer unit :=
  match job with
  | FullRebuild reason => handle_full_rebuild reason
  | IndexFile path source => _ ← modify (with_pending (λ p, p ∖ {[path]})); handle_index_file path source
  | RemoveFile path is_dir source => handle_remove_file path is_dir source
  | RenameFile old_path new_path is_dir source => handle_rename_file old_path new_path is_dir source
  | Shutdown => mret tt
  end.
Definition is_full_rebuild (job : WriterJob) : bool := match job with FullRebuild _ => true | _ => false end.
Definition run_job (job : WriterJob) : Writer unit :=
  result ← attempt (handle_job job);
  match result with
  | Ok _ => mret tt
  | Err error =>
      _ ← (if is_full_rebuild job then reset_rebuild_state_after_error else mret tt);
      modify (with_status (set_error_status error))
  end.
End jobs.
End writer.
