(* ===== verification/SearchIncremental.v ===== *)
(** * Resolving a part of the links is enough

    After the change of one note only the links whose base name may be concerned are
    resolved again. The index then holds what resolving every link would have given. *)
From Stdlib Require Import Ascii String.
#[local] Set Warnings "-clear-no-such-hyp".
From S2P Require Import Prelude Text Paths SyncDb Scanner Chars Indexer Wikilinks Extract SearchLinks SearchDb SearchWriter.

(** ** The identities of the indexed notes *)

Lemma filter_map_to_list {V} (P : string * V → Prop) `{∀ x, Decision (P x)} (m : gmap string V) :
  filter P (map_to_list m) ≡ₚ map_to_list (filter P m).
Proof.
  apply NoDup_Permutation.
  - apply NoDup_filter, NoDup_map_to_list.
  - apply NoDup_map_to_list.
  - intros [k v]. rewrite list_elem_of_filter, !elem_of_map_to_list, map_lookup_filter_Some. tauto.
Qed.

Section identities.
Context `{Unicode}.
Definition uids (db : SearchTables) : gmap string Z := dr_note_uid <$> db_documents db.
Lemma load_doc_identities_uids db :
  load_doc_identities db = (λ kv : string * Z, to_doc_identity kv.2 kv.1) <$> sort_by (leb_on fst) (map_to_list (uids db)).
Proof.
  unfold load_doc_identities, sorted_documents, uids. rewrite map_to_list_fmap.
  rewrite (sort_by_fmap (prod_map id dr_note_uid) (leb_on fst)) by done. by rewrite <- list_fmap_compose.
Qed.
Lemma load_doc_identities_ok db : Forall identity_ok (load_doc_identities db).
Proof. apply Forall_fmap, Forall_true. done. Qed.
Lemma with_basename_uids b db :
  with_basename b (load_doc_identities db) =
    (λ kv : string * Z, to_doc_identity kv.2 kv.1) <$>
      sort_by (leb_on fst) (map_to_list (filter (λ kv : string * Z, basename_of kv.1 = b) (uids db))).
Proof.
  rewrite load_doc_identities_uids. unfold with_basename.
  assert (Hf : ∀ l : list (string * Z), filter (λ d, di_basename d = b) ((λ kv : string * Z, to_doc_identity kv.2 kv.1) <$> l) =
    (λ kv : string * Z, to_doc_identity kv.2 kv.1) <$> filter (λ kv : string * Z, basename_of kv.1 = b) l).
  { intros l. induction l as [|x l IH]; [done|]. cbn [fmap list_fmap]. rewrite !filter_cons.
    change (di_basename (to_doc_identity x.2 x.1)) with (basename_of x.1).
    case_decide; [cbn [fmap list_fmap]; f_equal|]; exact IH. }
  rewrite Hf, filter_sort_by. f_equal. apply sort_by_key_unique; [apply filter_map_to_list|].
  apply NoDup_fmap_filter, NoDup_fst_map_to_list.
Qed.
Lemma with_basename_same b db db' :
  (∀ id, basename_of id = b → uids db !! id = uids db' !! id) →
  with_basename b (load_doc_identities db) = with_basename b (load_doc_identities db').
Proof.
  intros Hb. rewrite !with_basename_uids. do 3 f_equal. apply map_eq. intros id.
  apply option_eq. intros uid. rewrite !map_lookup_filter_Some. simpl. split; intros [Hl Hid]; (split; [|done]);
    [rewrite <- Hb by done|rewrite Hb by done]; done.
Qed.

(** ** The loop over the links *)

Definition resolution_of (db : SearchTables) (w : StoredWikilinkRefRow) : LinkResolution :=
  resolve_wikilink (sw_source_doc_id w) (sw_raw_target w) (DocIndex_new (load_doc_identities db)).
(** Every link's row says what the link resolves to. *)
Definition links_resolved (db : SearchTables) : Prop :=
  Forall (λ w, set_resolution (resolution_of db w) w = w) (db_wikilink_refs db).

Lemma resolve_rows_refs index rows db :
  (∀ row w, row ∈ rows → w ∈ db_wikilink_refs db → sw_rowid w = sw_rowid row →
     sw_source_doc_id w = sw_source_doc_id row ∧ sw_raw_target w = sw_raw_target row) →
  db_documents (foldl (resolve_row index) db rows) = db_documents db ∧
  db_sequence (foldl (resolve_row index) db rows) = db_sequence db ∧
  db_chunk_rows (foldl (resolve_row index) db rows) = db_chunk_rows db ∧
  db_wikilink_refs (foldl (resolve_row index) db rows) =
    (λ w, if bool_decide (sw_rowid w ∈ sw_rowid <$> rows)
          then set_resolution (resolve_wikilink (sw_source_doc_id w) (sw_raw_target w) index) w else w) <$> db_wikilink_refs db.
Proof.
  revert db. induction rows as [|row rows IH]; intros db Hrows.
  - split_and!; [done..|]. etransitivity; [symmetry; apply list_fmap_id|].
    apply list_fmap_ext. intros i w _. by rewrite bool_decide_false by apply not_elem_of_nil.
  - cbn [foldl]. destruct (IH (resolve_row index db row)) as (-> & -> & -> & Hrefs).
    { intros row' w Hrow' Hw. simpl in Hw. apply list_elem_of_fmap in Hw as (w' & -> & Hw').
      specialize (Hrows row' w' (list_elem_of_further _ _ _ Hrow') Hw'). by case_bool_decide. }
    split_and!; [done..|]. etransitivity; [exact Hrefs|]. simpl. rewrite <- list_fmap_compose.
    apply list_fmap_ext. intros i w Hi. simpl. apply list_elem_of_lookup_2 in Hi.
    destruct (decide (sw_rowid w = sw_rowid row)) as [Heq|Hne].
    + rewrite (bool_decide_true (sw_rowid w = sw_rowid row)) by done.
      destruct (Hrows row w (list_elem_of_here _ _) Hi Heq) as [<- <-]. simpl.
      repeat case_bool_decide; try done; exfalso; set_solver.
    + rewrite (bool_decide_false (sw_rowid w = sw_rowid row)) by done.
      repeat case_bool_decide; try done; exfalso; set_solver.
Qed.
End identities.

(** ** Resolving some links against resolving all *)

Section resolving.
Context `{Unicode}.

Definition resolved_refs (db : SearchTables) : list StoredWikilinkRefRow :=
  (λ w, set_resolution (resolution_of db w) w) <$> db_wikilink_refs db.
Lemma elem_of_load_wikilink_rows db w : w ∈ load_wikilink_rows db ↔ w ∈ db_wikilink_refs db.
Proof. apply elem_of_sort_by. Qed.
Lemma resolve_chosen_refs (P : StoredWikilinkRefRow → bool) db : tables_ok db →
  let db' := foldl (resolve_row (DocIndex_new (load_doc_identities db))) db (List.filter P (load_wikilink_rows db)) in
  db_documents db' = db_documents db ∧ db_sequence db' = db_sequence db ∧ db_chunk_rows db' = db_chunk_rows db ∧
  db_wikilink_refs db' = (λ w, if P w then set_resolution (resolution_of db w) w else w) <$> db_wikilink_refs db.
Proof.
  intros Hok db'. assert (Hsame : ∀ row w, row ∈ db_wikilink_refs db → w ∈ db_wikilink_refs db →
    sw_rowid w = sw_rowid row → w = row).
  { intros row w Hr Hw Heq. by eapply (NoDup_key_inj sw_rowid); [apply (rowids_distinct _ Hok)|..]. }
  assert (Hin : ∀ row, row ∈ List.filter P (load_wikilink_rows db) → row ∈ db_wikilink_refs db ∧ P row = true).
  { intros row Hr. apply list_elem_of_In, filter_In in Hr as [Hr HP]. split; [|done].
    by apply elem_of_load_wikilink_rows, list_elem_of_In. }
  destruct (resolve_rows_refs (DocIndex_new (load_doc_identities db)) (List.filter P (load_wikilink_rows db)) db)
    as (Hd & Hs & Hc & Hrefs).
  { intros row w [Hr _]%Hin Hw Heq. by rewrite (Hsame row w). }
  split_and!; [done..|]. unfold db'. rewrite Hrefs. apply list_fmap_ext. intros i w Hw%list_elem_of_lookup_2.
  case_bool_decide as Hm.
  - apply list_elem_of_fmap in Hm as (row & Heq & [Hr HP]%Hin). assert (HPw : P w = true) by (by rewrite (Hsame row w Hr Hw Heq)). by rewrite HPw.
  - destruct (P w) eqn:HP; [|done]. destruct Hm. apply list_elem_of_fmap. exists w. split; [done|].
    apply list_elem_of_In, filter_In. split; [|done]. by apply list_elem_of_In, elem_of_load_wikilink_rows.
Qed.
Lemma resolve_all_refs db : tables_ok db →
  let db' := resolve_all_wikilinks db in
  db_documents db' = db_documents db ∧ db_sequence db' = db_sequence db ∧ db_chunk_rows db' = db_chunk_rows db ∧
  db_wikilink_refs db' = resolved_refs db.
Proof.
  intros Hok. destruct (resolve_chosen_refs (λ _, true) db Hok) as (Hd & Hs & Hc & Hr).
  assert (Hall : List.filter (λ _ : StoredWikilinkRefRow, true) (load_wikilink_rows db) = load_wikilink_rows db).
  { generalize (load_wikilink_rows db). intros l. induction l as [|x l IH]; [done|]. simpl. by f_equal. }
  rewrite Hall in *. done.
Qed.
Lemma tables_eta (db db' : SearchTables) : db_documents db = db_documents db' → db_sequence db = db_sequence db' →
  db_chunk_rows db = db_chunk_rows db' → db_wikilink_refs db = db_wikilink_refs db' → db = db'.
Proof. destruct db, db'. simpl. by intros -> -> -> ->. Qed.
Lemma tables_ok_resolved db db' (f : StoredWikilinkRefRow → StoredWikilinkRefRow) : tables_ok db →
  db_documents db' = db_documents db → db_sequence db' = db_sequence db → db_wikilink_refs db' = f <$> db_wikilink_refs db →
  (∀ w, f w = w ∨ ∃ r, f w = set_resolution r w) → tables_ok db'.
Proof.
  intros [Hu Hg Hs Hn Ht] Hd Hq Hr Hf.
  assert (Hkeep : ∀ {A} (g : StoredWikilinkRefRow → A), (∀ r w, g (set_resolution r w) = g w) → ∀ w, g (f w) = g w).
  { intros A g Hg' w. destruct (Hf w) as [->|[r ->]]; auto. }
  split; rewrite ?Hd, ?Hq, ?Hr; [done|done| | |].
  - intros w (w' & -> & Hw')%list_elem_of_fmap. rewrite (Hkeep _ sw_source_note_uid) by done. auto.
  - rewrite <- list_fmap_compose. erewrite list_fmap_ext; [exact Hn|]. intros i w _. simpl. by rewrite (Hkeep _ sw_rowid).
  - apply Forall_fmap. eapply Forall_impl; [exact Ht|]. intros w [H1 H2]. unfold compose.
    by rewrite (Hkeep _ sw_normalized_target), (Hkeep _ sw_raw_target), (Hkeep _ sw_target_basename).
Qed.
Lemma resolved_refs_ok db db' : tables_ok db → db_documents db' = db_documents db → db_sequence db' = db_sequence db →
  db_wikilink_refs db' = resolved_refs db → tables_ok db'.
Proof. intros Hok Hd Hs Hr. eapply tables_ok_resolved; [exact Hok|done|done|exact Hr|]. eauto. Qed.
Lemma resolution_of_documents db db' w : db_documents db' = db_documents db → resolution_of db' w = resolution_of db w.
Proof. intros Hd. unfold resolution_of, load_doc_identities, sorted_documents. by rewrite Hd. Qed.
Lemma resolved_refs_resolved db db' : db_documents db' = db_documents db →
  db_wikilink_refs db' = resolved_refs db → links_resolved db'.
Proof.
  intros Hd Hr. unfold links_resolved. rewrite Hr. apply Forall_fmap, Forall_true. intros w. unfold compose.
  rewrite (resolution_of_documents db db') by done. done.
Qed.
Lemma links_resolved_fixed db : tables_ok db → links_resolved db ↔ resolve_all_wikilinks db = db.
Proof.
  intros Hok. destruct (resolve_all_refs db Hok) as (Hd & Hs & Hc & Hr). split.
  - intros Hres. apply tables_eta; [done..|]. rewrite Hr. unfold resolved_refs.
    etransitivity; [|apply list_fmap_id]. apply list_fmap_ext. intros i w Hw%list_elem_of_lookup_2.
    by apply (proj1 (Forall_forall _ _) Hres).
  - intros Heq. apply (resolved_refs_resolved db); [done|]. by rewrite <- Hr, Heq.
Qed.

(** What a plan must cover: the base names of the notes that came, went or changed their
    number, and the notes whose links are new. *)
Definition plan_covers (plan : ReResolutionPlan) (before after : SearchTables) : Prop :=
  (∀ id, basename_of id ∉ target_basenames plan → uids after !! id = uids before !! id) ∧
  (∀ w, w ∈ db_wikilink_refs after → w ∈ db_wikilink_refs before ∨ sw_source_note_uid w ∈ source_note_uids plan).
Lemma unplanned_row_resolved plan before after w :
  tables_ok after → links_resolved before → plan_covers plan before after →
  w ∈ db_wikilink_refs after → should_reresolve_row plan w = false → set_resolution (resolution_of after w) w = w.
Proof.
  intros Hok Hres [Hdocs Hrows] Hw Hplan. unfold should_reresolve_row in Hplan.
  apply orb_false_iff in Hplan as [[[Hs _]%orb_false_iff Hb]%orb_false_iff _].
  apply bool_decide_eq_false in Hs, Hb. destruct (Hrows w Hw) as [Hold|]; [|done].
  transitivity (set_resolution (resolution_of before w) w); [|exact (proj1 (Forall_forall _ _) Hres w Hold)].
  f_equal. unfold resolution_of.
  pose proof (proj1 (Forall_forall _ _) (targets_normalized _ Hok) w Hw) as [Hn Hbase].
  apply resolve_wikilink_local; [apply load_doc_identities_ok..|]. apply with_basename_same. intros id Hid.
  apply Hdocs. rewrite Hid. unfold basename_of. by rewrite <- Hn, <- Hbase.
Qed.
Lemma rereresolve_complete plan before after :
  tables_ok after → links_resolved before → plan_covers plan before after →
  rereresolve_wikilinks plan after = resolve_all_wikilinks after.
Proof.
  intros Hok Hres Hcov. destruct (resolve_all_refs after Hok) as (Hd & Hs & Hc & Hr).
  assert (Hrow : ∀ w, w ∈ db_wikilink_refs after → should_reresolve_row plan w = false → set_resolution (resolution_of after w) w = w)
    by (intros w; by apply (unplanned_row_resolved plan before)).
  unfold rereresolve_wikilinks. destruct (plan_is_empty plan) eqn:He.
  - symmetry. apply links_resolved_fixed; [done|]. apply Forall_forall. intros w Hw. apply Hrow; [done|].
    unfold plan_is_empty in He. apply andb_true_iff in He as [[[He1 He2]%andb_true_iff He3]%andb_true_iff He4].
    apply bool_decide_eq_true in He1, He2, He3, He4. unfold should_reresolve_row. rewrite He1, He2, He3, He4.
    rewrite !bool_decide_false by set_solver. simpl. destruct (sw_resolved_target_uid w); [|done].
    by rewrite bool_decide_false by set_solver.
  - destruct (resolve_chosen_refs (should_reresolve_row plan) after Hok) as (Hd' & Hs' & Hc' & Hr').
    apply tables_eta; [by rewrite Hd', Hd|by rewrite Hs', Hs|by rewrite Hc', Hc|]. rewrite Hr', Hr.
    apply list_fmap_ext. intros i w Hw%list_elem_of_lookup_2. destruct (should_reresolve_row plan w) eqn:HP; [done|].
    symmetry. by apply Hrow.
Qed.
(** After the plan's links were resolved, all are. *)
Lemma rereresolve_resolved plan before after :
  tables_ok after → links_resolved before → plan_covers plan before after →
  tables_ok (rereresolve_wikilinks plan after) ∧ links_resolved (rereresolve_wikilinks plan after) ∧
  db_documents (rereresolve_wikilinks plan after) = db_documents after ∧
  db_chunk_rows (rereresolve_wikilinks plan after) = db_chunk_rows after.
Proof.
  intros Hok Hres Hcov. rewrite (rereresolve_complete plan before) by done.
  destruct (resolve_all_refs after Hok) as (Hd & Hs & Hc & Hr).
  split_and!; [by eapply resolved_refs_ok|by eapply resolved_refs_resolved|done|done].
Qed.
End resolving.

(** ** The jobs *)

Section handlers.
Context `{Unicode, !UnicodeFold, YamlValues, MarkdownParser, Blake3, Os, IndexJson}.

Lemma uids_lookup db id u : uids db !! id = Some u ↔ ∃ row, db_documents db !! id = Some row ∧ dr_note_uid row = u.
Proof. unfold uids. rewrite lookup_fmap, fmap_Some. naive_solver. Qed.
Lemma wikilink_rows_of_ok links : Forall (λ w, iw_normalized_target w = normalize_link_target (iw_raw_target w) ∧
    iw_target_basename w = basename_from_normalized (iw_normalized_target w)) (wikilink_rows_of links).
Proof. apply Forall_fmap, Forall_true. done. Qed.
Lemma build_document_Some fs root now db path doc : build_document fs root now db path = Ok (Some doc) →
  id_doc_id doc = path ∧ id_note_uid doc = note_uid_for db path ∧ document_ok doc.
Proof.
  unfold build_document. destruct (negb _); [done|]. destruct (stat fs _) as [[content mtime| |]|[]]; try done.
  destruct (utf8_valid content); [|done]. intros [= <-]. split_and!; [done|done|]. apply wikilink_rows_of_ok.
Qed.
(** The note whose number a path takes over has the path's base name. *)
Lemma note_uid_for_basename db path id u : tables_ok db → note_uid_for db path = Some u → uids db !! id = Some u →
  basename_of id = basename_of path.
Proof.
  intros Hok Hn (row & Hrow & <-)%uids_lookup. unfold note_uid_for, find_note_uid_by_doc_id in Hn.
  destruct (db_documents db !! path) as [row'|] eqn:Hp; simpl in Hn.
  - injection Hn as Hn. by rewrite (uids_distinct _ Hok id path row row' Hrow Hp).
  - unfold find_note_uid_by_doc_id_nocase in Hn.
    destruct (take 2 _) as [|[id' row'] [|]] eqn:Ht; [done| |done]. injection Hn as Hn.
    assert (Hin : (id', row') ∈ filter (λ kv : string * DocumentRow, eq_ignore_ascii_case kv.1 path = true) (sorted_documents db)).
    { rewrite <- (take_drop 2 (filter _ _)), Ht. set_solver. }
    apply list_elem_of_filter in Hin as [Hcase Hin]. unfold sorted_documents in Hin.
    rewrite elem_of_sort_by in Hin. apply elem_of_map_to_list in Hin.
    rewrite (uids_distinct _ Hok id id' row row') by done.
    unfold basename_of. f_equal. by apply normalize_link_target_nocase.
Qed.

(** Replacing a document changes the numbers of its path and of the note that had its number. *)
Lemma replace_document_covers plan db doc (before : SearchTables) :
  tables_ok db → document_ok doc →
  (∀ id u, uids db !! id = Some u → id_note_uid doc = Some u → basename_of id ∈ target_basenames plan) →
  basename_of (id_doc_id doc) ∈ target_basenames plan →
  uid_for db doc ∈ source_note_uids plan →
  plan_covers plan before db → plan_covers plan before (replace_document db doc).2.
Proof.
  intros Hok Hdoc Hold Hnew Hsrc [Hdocs Hrows]. pose proof (replace_document_spec db doc Hok Hdoc) as Hspec. cbv zeta in Hspec.
  destruct (replace_document db doc) as [note_uid db']. destruct Hspec as (_ & Hd & (rows & Hr & Hrows') & _). simpl. split.
  - intros id Hid. rewrite <- Hdocs by done. unfold uids. rewrite Hd, fmap_insert, lookup_insert_ne by (intros <-; done).
    apply option_eq. intros u. rewrite !lookup_fmap, !fmap_Some. setoid_rewrite map_lookup_filter_Some. simpl. split.
    + intros (row & ([? ?] & ->)). eauto.
    + intros (row & Hrow & ->). exists row. split; [|done]. split; [done|]. split; [by intros ->|]. intros Hu.
      unfold uid_for in Hu. destruct (id_note_uid doc) as [u|] eqn:Hdu; simpl in Hu.
      * apply Hid, (Hold id u); [|done]. apply uids_lookup. eauto.
      * pose proof (uids_given _ Hok _ _ Hrow). lia.
  - intros w. rewrite Hr, elem_of_app, list_elem_of_filter. intros [[_ Hw]|Hw]; [by apply Hrows|].
    right. apply list_elem_of_lookup in Hw as [i Hi]. destruct (Forall2_lookup_r _ _ _ _ _ Hrows' Hi) as (l & _ & (-> & _)). done.
Qed.
Lemma remove_document_covers plan db doc_id (before : SearchTables) : tables_ok db →
  (is_Some (db_documents db !! doc_id) → basename_of doc_id ∈ target_basenames plan) →
  plan_covers plan before db → plan_covers plan before (remove_document db doc_id).2.
Proof.
  intros Hok Hb [Hdocs Hrows]. pose proof (remove_document_spec db doc_id Hok) as Hspec.
  destruct (remove_document db doc_id) as [note_uid db']. destruct Hspec as (_ & Hd & _ & Hr & _). simpl. split.
  - intros id Hid. rewrite <- Hdocs by done. unfold uids. rewrite Hd. rewrite fmap_delete.
    destruct (decide (id = doc_id)) as [->|Hne]; [|by rewrite lookup_delete_ne].
    rewrite lookup_delete_eq, lookup_fmap. destruct (db_documents db !! doc_id) eqn:Hl; [|done].
    destruct Hid. apply Hb. eauto.
  - intros w. rewrite Hr, list_elem_of_filter. intros [_ Hw]. by apply Hrows.
Qed.
Lemma plan_covers_refl plan db : plan_covers plan db db.
Proof. split; [done|]. by left. Qed.

Lemma update_freshness_ok db doc_id mtime checksum : tables_ok db → tables_ok (update_document_freshness db doc_id mtime checksum).
Proof.
  intros Hok. assert (Hu : ∀ p r, db_documents (update_document_freshness db doc_id mtime checksum) !! p = Some r →
    ∃ s, db_documents db !! p = Some s ∧ dr_note_uid r = dr_note_uid s).
  { intros p r. simpl. rewrite lookup_alter_Some. intros [(-> & s & Hs & ->)|[_ Hs]]; eauto. }
  split; [| |apply Hok..].
  - intros p q r s (r' & Hr' & Hur)%Hu (s' & Hs' & Hus)%Hu Heq. eapply (uids_distinct _ Hok); [exact Hr'|exact Hs'|congruence].
  - intros p r (r' & Hr' & ->)%Hu. by eapply (uids_given _ Hok).
Qed.
Lemma update_freshness_resolved db doc_id mtime checksum : links_resolved db → links_resolved (update_document_freshness db doc_id mtime checksum).
Proof.
  intros Hres. unfold links_resolved. eapply Forall_impl; [exact Hres|]. intros w Hw.
  assert (Hr : resolution_of (update_document_freshness db doc_id mtime checksum) w = resolution_of db w).
  { unfold resolution_of. do 2 f_equal. rewrite !load_doc_identities_uids. do 3 f_equal. apply map_eq. intros p.
    unfold uids. simpl. rewrite !lookup_fmap. destruct (decide (p = doc_id)) as [->|Hne].
    - rewrite lookup_alter_eq. by destruct (db_documents db !! doc_id).
    - by rewrite lookup_alter_ne. }
  by rewrite Hr.
Qed.

(** *** What a job does to the database *)

Lemma refresh_idle_status_db now r : ∃ r', refresh_idle_status now r = (Ok tt, r') ∧ rt_db r' = rt_db r.
Proof.
  unfold refresh_idle_status, gets, mbind, act_bind. destruct (load_link_counts (rt_db r)) as [[a b] c].
  eexists. split; [reflexivity|done].
Qed.
Lemma job_end f now g r : ∃ r',
  (_ ← modify (with_db f); _ ← refresh_idle_status now; modify (with_debug g)) r = (Ok tt, r') ∧ rt_db r' = f (rt_db r).
Proof.
  unfold mbind, act_bind, modify. cbn. destruct (refresh_idle_status_db now (with_db f r)) as (r' & -> & Hr').
  eexists. split; [reflexivity|]. simpl. by rewrite Hr'.
Qed.
Lemma queue_rebuild_db reason r : ∃ r', queue_rebuild reason r = (Ok tt, r') ∧ rt_db r' = rt_db r.
Proof.
  unfold queue_rebuild, mbind, act_bind, gets, modify, attempt, send. cbn.
  destruct (running (rt_rebuild_state r)), (queued (rt_rebuild_state r)); cbn; eauto. destruct (rt_alive r); cbn; eauto.
Qed.

(** The database when a job has not started, or after one that failed to read a note *)
Definition db_ok (db : SearchTables) : Prop := tables_ok db ∧ links_resolved db.
(** The end of a job whose plan covers the change *)
Lemma planned_end plan now g db r : db_ok (rt_db r) → tables_ok db → plan_covers plan (rt_db r) db →
  act_post (_ ← modify (with_db (λ _, db)); _ ← modify (with_db (rereresolve_wikilinks plan)); _ ← refresh_idle_status now;
    modify (with_debug g)) r (λ _ r', db_ok (rt_db r')).
Proof.
  intros [Hok Hres] Hdb Hcov. unfold act_post.
  destruct (job_end (rereresolve_wikilinks plan) now g (with_db (λ _, db) r)) as (r' & Hrun & Hr').
  unfold mbind, act_bind, modify in *. cbn in *. rewrite Hrun. cbn. rewrite Hr'.
  destruct (rereresolve_resolved plan (rt_db r) db Hdb Hres Hcov) as (? & ? & _). by split.
Qed.
Lemma handle_index_file_ok fs root now path source r : db_ok (rt_db r) →
  act_post (handle_index_file fs root now path source) r (λ _ r', db_ok (rt_db r')).
Proof.
  intros Hdb. unfold handle_index_file. destruct (negb _); [done|].
  apply act_post_bind. change (act_post ?m ?w ?Q) with (Q (m w).1 (m w).2). cbn [modify fst snd].
  set (r1 := with_status _ r). assert (Hr1 : rt_db r1 = rt_db r) by done.
  apply (act_post_gets rt_db). rewrite Hr1. apply act_post_lift; [|intros e _; exact Hdb].
  intros [doc|] Hbuild.
  - apply build_document_Some in Hbuild as (Hpath & Huid & Hdoc). case_bool_decide.
    + unfold act_post. destruct (job_end (λ db, update_document_freshness db (id_doc_id doc) (id_mtime_ms doc) (id_content_checksum doc))
        now (record_last_job "index-file-skip" (Some path) source) r1) as (r' & -> & Hr'). cbn.
      rewrite Hr', Hr1. destruct Hdb. split; [by apply update_freshness_ok|by apply update_freshness_resolved].
    + destruct (replace_document (rt_db r) doc) as [note_uid db'] eqn:Hrep. cbv zeta.
      pose proof (replace_document_spec (rt_db r) doc (proj1 Hdb) Hdoc) as Hspec. cbv zeta in Hspec. rewrite Hrep in Hspec.
      destruct Hspec as (Hnote & _ & _ & _ & Hok'). apply planned_end; [by rewrite Hr1|done|]. rewrite Hr1.
      replace db' with (replace_document (rt_db r) doc).2 by (by rewrite Hrep).
      apply replace_document_covers; [apply Hdb|done| | |set_solver|apply plan_covers_refl]; cbn [target_basenames].
      * intros id u Hid Hu. rewrite Huid in Hu. apply elem_of_singleton. by eapply note_uid_for_basename; [apply Hdb|..].
      * rewrite Hpath. by apply elem_of_singleton.
  - destruct (remove_document (rt_db r) path) as [note_uid db'] eqn:Hrem. cbv zeta.
    pose proof (remove_document_spec (rt_db r) path (proj1 Hdb)) as Hspec. rewrite Hrem in Hspec.
    destruct Hspec as (Hnote & _ & _ & _ & _ & Hok'). apply planned_end; [by rewrite Hr1|done|]. rewrite Hr1.
    replace db' with (remove_document (rt_db r) path).2 by (by rewrite Hrem).
    apply remove_document_covers; [apply Hdb| |apply plan_covers_refl].
    intros [row Hrow]. rewrite Hnote, Hrow. cbn. by apply elem_of_singleton.
Qed.
Lemma handle_remove_file_ok now path is_dir source r : db_ok (rt_db r) →
  act_post (handle_remove_file now path is_dir source) r (λ _ r', db_ok (rt_db r')).
Proof.
  intros Hdb. unfold handle_remove_file. destruct is_dir.
  { unfold act_post. destruct (queue_rebuild_db "directory-mutation" r) as (r' & -> & Hr'). cbn. by rewrite Hr'. }
  destruct (negb _); [done|]. cbv zeta. apply (act_post_gets rt_db).
  destruct (remove_document (rt_db r) path) as [note_uid db'] eqn:Hrem.
  pose proof (remove_document_spec (rt_db r) path (proj1 Hdb)) as Hspec. rewrite Hrem in Hspec.
  destruct Hspec as (Hnote & _ & _ & _ & _ & Hok'). apply planned_end; [done|done|].
  replace db' with (remove_document (rt_db r) path).2 by (by rewrite Hrem).
  apply remove_document_covers; [apply Hdb| |apply plan_covers_refl]. intros _. cbn. by apply elem_of_singleton.
Qed.
Lemma handle_rename_file_ok fs root now old_path new_path is_dir source r : db_ok (rt_db r) →
  act_post (handle_rename_file fs root now old_path new_path is_dir source) r (λ _ r', db_ok (rt_db r')).
Proof.
  intros Hdb. unfold handle_rename_file. destruct is_dir.
  { unfold act_post. destruct (queue_rebuild_db "directory-mutation" r) as (r' & -> & Hr'). cbn. by rewrite Hr'. }
  cbv zeta. apply (act_post_gets rt_db). apply act_post_lift; [|done]. intros maybe_new_doc Hbuild.
  set (db1 := if is_markdown_path old_path then _ else _).
  assert (Hok1 : tables_ok db1).
  { unfold db1. destruct (is_markdown_path old_path); [|apply Hdb].
    pose proof (remove_document_spec (rt_db r) old_path (proj1 Hdb)) as Hspec. destruct (remove_document _ _) as [? ?].
    destruct Hspec as (_ & _ & _ & _ & _ & Hk). exact Hk. }
  assert (Hsub : ∀ id u, uids db1 !! id = Some u → uids (rt_db r) !! id = Some u).
  { unfold db1. destruct (is_markdown_path old_path); [|done].
    pose proof (remove_document_spec (rt_db r) old_path (proj1 Hdb)) as Hspec. destruct (remove_document _ _) as [? db2].
    destruct Hspec as (_ & Hd & _). simpl. intros id u. rewrite !uids_lookup, Hd. setoid_rewrite lookup_delete_Some. naive_solver. }
  assert (Hcov1 : ∀ plan, basename_of old_path ∈ target_basenames plan → plan_covers plan (rt_db r) db1).
  { intros plan Hp. unfold db1. destruct (is_markdown_path old_path); [|apply plan_covers_refl].
    apply remove_document_covers; [apply Hdb|done|apply plan_covers_refl]. }
  destruct maybe_new_doc as [doc|].
  - assert (Hdoc : id_doc_id doc = new_path ∧ document_ok doc).
    { destruct (is_markdown_path new_path); [|done]. by apply build_document_Some in Hbuild as (? & _ & ?). }
    destruct Hdoc as [Hpath Hdoc]. set (renamed := renamed_document _ doc).
    destruct (replace_document db1 renamed) as [note_uid db'] eqn:Hrep.
    pose proof (replace_document_spec db1 renamed Hok1 Hdoc) as Hspec. cbv zeta in Hspec. rewrite Hrep in Hspec.
    destruct Hspec as (Hnote & _ & _ & _ & Hok'). apply planned_end; [done|done|].
    replace db' with (replace_document db1 renamed).2 by (by rewrite Hrep).
    apply replace_document_covers; [done|done| | |set_solver|apply Hcov1; cbn; unfold basename_of; set_solver]; cbn [target_basenames].
    + intros id u Hid%Hsub Hu. simpl in Hu. apply uids_lookup in Hid as (row & Hrow & Hrowu).
      unfold find_note_uid_by_doc_id in Hu. apply fmap_Some in Hu as (row' & Hrow' & ->).
      rewrite (uids_distinct _ (proj1 Hdb) id old_path row row' Hrow Hrow' Hrowu). unfold basename_of. set_solver.
    + simpl. rewrite Hpath. unfold basename_of. set_solver.
  - apply planned_end; [done|done|]. apply Hcov1. cbn. unfold basename_of. set_solver.
Qed.
End handlers.
