(* ===== verification/SearchRebuild.v ===== *)
(** * A full rebuild leaves the vault in the index

    Every note of the vault is in the index as it was read, with its chunks and links,
    and every link is resolved. Nothing else is left, if all that was there belonged to
    indexed notes. *)
From Stdlib Require Import Ascii String.
#[local] Set Warnings "-clear-no-such-hyp".
From S2P Require Import Prelude Text Paths SyncDb Scanner Chars Indexer Wikilinks Extract SearchLinks SearchDb SearchWriter SearchIncremental.

(** ** What the index holds of a note *)

Definition links_of (db : SearchTables) (uid : Z) : list StoredWikilinkRefRow :=
  filter (λ w, sw_source_note_uid w = uid) (db_wikilink_refs db).
Definition describes_as (db : SearchTables) (doc : IndexedDocument) (uid : Z) : Prop :=
  db_documents db !! id_doc_id doc = Some (document_row uid doc) ∧
  chunks_of db (id_doc_id doc) = id_chunks doc ∧
  Forall2 (row_of_link uid (id_doc_id doc)) (id_wikilink_refs doc) (links_of db uid).
Definition describes (db : SearchTables) (doc : IndexedDocument) : Prop := ∃ uid, describes_as db doc uid.
(** Every chunk and every link belongs to a note of the index. *)
Definition owned (db : SearchTables) : Prop :=
  (∀ c, c ∈ db_chunk_rows db → is_Some (db_documents db !! cr_doc_id c)) ∧
  (∀ w, w ∈ db_wikilink_refs db → ∃ p row, db_documents db !! p = Some row ∧ dr_note_uid row = sw_source_note_uid w).

Section statements.
Context `{Unicode}.

Lemma owned_alt db : owned db ↔
  (∀ p, chunks_of db p ≠ [] → is_Some (db_documents db !! p)) ∧
  (∀ w, w ∈ db_wikilink_refs db → ∃ p, uids db !! p = Some (sw_source_note_uid w)).
Proof.
  unfold owned. setoid_rewrite uids_lookup.
  enough (Hc : (∀ c, c ∈ db_chunk_rows db → is_Some (db_documents db !! cr_doc_id c)) ↔
    (∀ p, chunks_of db p ≠ [] → is_Some (db_documents db !! p))) by (by rewrite Hc).
  unfold chunks_of. split.
  - intros Hall p Hne. destruct (filter _ _) as [|c l] eqn:Hf; [done|].
    assert (Hin : c ∈ filter (λ c, cr_doc_id c = p) (db_chunk_rows db)) by (rewrite Hf; by left).
    apply list_elem_of_filter in Hin as [<- Hin]. by apply Hall.
  - intros Hall c Hc. apply Hall. intros Hnil%fmap_nil_inv.
    apply (not_elem_of_nil c). rewrite <- Hnil. by apply list_elem_of_filter.
Qed.

Lemma uids_replaced db doc p u : tables_ok db → document_ok doc →
  uids (replace_document db doc).2 !! p = Some u ↔
  (p = id_doc_id doc ∧ u = uid_for db doc) ∨ (p ≠ id_doc_id doc ∧ u ≠ uid_for db doc ∧ uids db !! p = Some u).
Proof.
  intros Hok Hdoc. pose proof (replace_document_spec db doc Hok Hdoc) as Hspec. cbv zeta in Hspec.
  destruct (replace_document db doc) as [n db']. destruct Hspec as (_ & Hd & _). simpl.
  rewrite !uids_lookup, Hd. setoid_rewrite lookup_insert_Some. setoid_rewrite map_lookup_filter_Some. simpl. split.
  - intros (row & [[<- <-]|(Hne & Hrow & _ & Hu)] & <-); [by left|]. right. split_and!; [done|done|]. eauto.
  - intros [[-> ->]|(Hne & Hu & (row & Hrow & <-))]; [by eauto|]. exists row. split; [|done]. right. done.
Qed.
Lemma replace_describes db doc : tables_ok db → document_ok doc → describes_as (replace_document db doc).2 doc (uid_for db doc).
Proof.
  intros Hok Hdoc. pose proof (replace_document_spec db doc Hok Hdoc) as Hspec. cbv zeta in Hspec.
  destruct (replace_document db doc) as [n db']. destruct Hspec as (_ & Hd & (rows & Hr & Hrows) & Hc & _). simpl.
  split_and!.
  - by rewrite Hd, lookup_insert_eq.
  - by rewrite Hc, bool_decide_true.
  - unfold links_of. rewrite Hr, filter_app, list_filter_filter, list_filter_none, list_filter_all; [done| |].
    + intros w [i Hi]%list_elem_of_lookup. by destruct (Forall2_lookup_r _ _ _ _ _ Hrows Hi) as (l & _ & (-> & _)).
    + intros w _. naive_solver.
Qed.
Lemma replace_keeps_other db doc other u : tables_ok db → document_ok doc →
  describes_as db other u → id_doc_id other ≠ id_doc_id doc → u ≠ uid_for db doc →
  describes_as (replace_document db doc).2 other u.
Proof.
  intros Hok Hdoc (Hrow & Hchunks & Hlinks) Hne Hu. pose proof (replace_document_spec db doc Hok Hdoc) as Hspec. cbv zeta in Hspec.
  destruct (replace_document db doc) as [n db']. destruct Hspec as (_ & Hd & (rows & Hr & Hrows) & Hc & _). simpl.
  split_and!.
  - rewrite Hd, lookup_insert_ne by done. by apply map_lookup_filter_Some.
  - rewrite Hc, bool_decide_false by done. replace (has_uid db (uid_for db doc) (id_doc_id other)) with false.
    + by rewrite andb_false_r.
    + symmetry. unfold has_uid. rewrite Hrow. apply bool_decide_eq_false. simpl. congruence.
  - enough (links_of db' u = links_of db u) as -> by done. unfold links_of. rewrite Hr, filter_app, list_filter_filter.
    rewrite (list_filter_none _ rows), app_nil_r.
    + apply list_filter_iff. intros w. naive_solver.
    + intros w [i Hi]%list_elem_of_lookup. destruct (Forall2_lookup_r _ _ _ _ _ Hrows Hi) as (l & _ & (-> & _)). congruence.
Qed.
Lemma remove_keeps_other db doc_id other u : tables_ok db → describes_as db other u → id_doc_id other ≠ doc_id →
  describes_as (remove_document db doc_id).2 other u.
Proof.
  intros Hok (Hrow & Hchunks & Hlinks) Hne. pose proof (remove_document_spec db doc_id Hok) as Hspec.
  destruct (remove_document db doc_id) as [n db']. destruct Hspec as (Hn & Hd & _ & Hr & Hc & _). simpl. split_and!.
  - by rewrite Hd, lookup_delete_ne.
  - by rewrite Hc, bool_decide_false.
  - enough (links_of db' u = links_of db u) as -> by done. unfold links_of. rewrite Hr, list_filter_filter.
    apply list_filter_iff. intros w. split; [naive_solver|]. intros Hw. split; [done|]. rewrite Hw, Hn.
    destruct (db_documents db !! doc_id) as [row|] eqn:Hdoc; [|done]. simpl. intros [= Hu].
    apply Hne. by eapply (uids_distinct _ Hok).
Qed.
(** Resolving links changes nothing else of their rows. *)
Lemma resolved_describes db db' (f : StoredWikilinkRefRow → StoredWikilinkRefRow) doc u :
  db_documents db' = db_documents db → db_chunk_rows db' = db_chunk_rows db →
  db_wikilink_refs db' = f <$> db_wikilink_refs db → (∀ w, f w = w ∨ ∃ r, f w = set_resolution r w) →
  describes_as db doc u → describes_as db' doc u.
Proof.
  intros Hd Hc Hr Hf (Hrow & Hchunks & Hlinks). split_and!; [by rewrite Hd|unfold chunks_of in *; by rewrite Hc|].
  assert (Hsrc : ∀ w, sw_source_note_uid (f w) = sw_source_note_uid w) by (intros w; destruct (Hf w) as [->|[r ->]]; done).
  assert (Hl : links_of db' u = f <$> links_of db u).
  { unfold links_of. rewrite Hr. generalize (db_wikilink_refs db). intros l. induction l as [|w l IH]; [done|].
    cbn [fmap list_fmap]. rewrite !filter_cons, Hsrc. case_decide; [cbn [fmap list_fmap]; f_equal|]; exact IH. }
  rewrite Hl. apply Forall2_fmap_r. eapply Forall2_impl; [exact Hlinks|]. intros l w Hw.
  unfold compose. destruct (Hf w) as [->|[r ->]]; exact Hw.
Qed.
Lemma resolve_all_describes db doc u : tables_ok db → describes_as db doc u → describes_as (resolve_all_wikilinks db) doc u.
Proof.
  intros Hok. destruct (resolve_all_refs db Hok) as (Hd & _ & Hc & Hr). eapply resolved_describes; [done|done|exact Hr|]. eauto.
Qed.
Lemma rereresolve_describes plan db doc u : tables_ok db → describes_as db doc u →
  describes_as (rereresolve_wikilinks plan db) doc u.
Proof.
  intros Hok. unfold rereresolve_wikilinks. destruct (plan_is_empty plan); [done|].
  destruct (resolve_chosen_refs (should_reresolve_row plan) db Hok) as (Hd & _ & Hc & Hr).
  eapply resolved_describes; [done|done|exact Hr|]. intros w. cbv beta.
  destruct (should_reresolve_row plan w); [right; by eexists|by left].
Qed.
(** A document that takes over the number of its path leaves nothing without a note. *)
Lemma replace_owned db doc : tables_ok db → document_ok doc →
  (∀ v, uids db !! id_doc_id doc = Some v → v = uid_for db doc) → owned db → owned (replace_document db doc).2.
Proof.
  rewrite !owned_alt. intros Hok Hdoc Hsame [Hchunks Hlinks].
  pose proof (λ p u, uids_replaced db doc p u Hok Hdoc) as Huids.
  pose proof (replace_document_spec db doc Hok Hdoc) as Hspec. cbv zeta in Hspec.
  destruct (replace_document db doc) as [n db']. destruct Hspec as (_ & Hd & (rows & Hr & Hrows) & Hc & _). simpl in *. split.
  - intros p. rewrite Hc. rewrite Hd, lookup_insert_is_Some.
    destruct (decide (p = id_doc_id doc)) as [->|Hp]; [by left|]. rewrite (bool_decide_false (p = _)) by done.
    intros Hne. right. split; [congruence|]. destruct (bool_decide (id_note_uid doc ≠ None) && has_uid db (uid_for db doc) p) eqn:Hu; [done|].
    destruct (Hchunks p Hne) as [row Hrow]. exists row. apply map_lookup_filter_Some. simpl. split; [done|split; [done|]].
    intros Heq. unfold uid_for in *. destruct (id_note_uid doc) as [u|] eqn:Hid; simpl in *.
    + unfold has_uid in Hu. rewrite Hrow in Hu. simpl in Hu. apply bool_decide_eq_false in Hu. congruence.
    + pose proof (uids_given _ Hok _ _ Hrow). lia.
  - intros w. rewrite Hr, elem_of_app. intros [[Hw Hin]%list_elem_of_filter|[i Hi]%list_elem_of_lookup].
    + destruct (Hlinks w Hin) as [p Hp]. exists p. apply Huids. right. split_and!; [|done|done].
      intros ->. apply Hw. by apply Hsame.
    + destruct (Forall2_lookup_r _ _ _ _ _ Hrows Hi) as (l & _ & (Hsrc & _)). exists (id_doc_id doc).
      apply Huids. left. by rewrite Hsrc.
Qed.
Lemma remove_owned db doc_id : tables_ok db → owned db → owned (remove_document db doc_id).2.
Proof.
  rewrite !owned_alt. intros Hok [Hchunks Hlinks]. pose proof (remove_document_spec db doc_id Hok) as Hspec.
  destruct (remove_document db doc_id) as [n db']. destruct Hspec as (Hn & Hd & _ & Hr & Hc & _). simpl. split.
  - intros p. rewrite Hc, Hd. case_bool_decide as Hp; [done|]. intros Hne. rewrite lookup_delete_ne by congruence. by apply Hchunks.
  - intros w. rewrite Hr, list_elem_of_filter. intros [Hw Hin]. destruct (Hlinks w Hin) as [p Hp]. exists p.
    apply uids_lookup in Hp as (row & Hrow & Hu). apply uids_lookup. exists row. split; [|done].
    rewrite Hd, lookup_delete_ne; [done|]. intros ->. apply Hw. rewrite Hn, Hrow. simpl. by rewrite Hu.
Qed.
Lemma resolve_all_owned db : tables_ok db → owned db → owned (resolve_all_wikilinks db).
Proof.
  intros Hok [Hchunks Hlinks]. destruct (resolve_all_refs db Hok) as (Hd & _ & Hc & Hr). unfold owned. rewrite Hc, Hd.
  split; [done|]. intros w. rewrite Hr. intros (w' & -> & Hw')%list_elem_of_fmap. exact (Hlinks w' Hw').
Qed.
Lemma describes_uid db doc u : describes_as db doc u → uids db !! id_doc_id doc = Some u.
Proof. intros (Hrow & _). apply uids_lookup. by eexists. Qed.
End statements.

(** ** The notes that a rebuild reads *)

Section files.
Context `{Unicode, !UnicodeFold, YamlValues, MarkdownParser, Blake3, Os, IndexJson}.
Context (fs : Fs) (root : AbsPath) (now : Z).

(** No two notes whose paths differ in the case of ASCII letters only *)
Definition case_distinct (files : list string) : Prop :=
  ∀ p q, p ∈ files → q ∈ files → eq_ignore_ascii_case p q = true → p = q.
Lemma eq_ignore_ascii_case_sym s t : eq_ignore_ascii_case s t = true → eq_ignore_ascii_case t s = true.
Proof. unfold eq_ignore_ascii_case. rewrite !bool_decide_eq_true. done. Qed.
Lemma eq_ignore_ascii_case_trans s t u : eq_ignore_ascii_case s t = true → eq_ignore_ascii_case t u = true → eq_ignore_ascii_case s u = true.
Proof. unfold eq_ignore_ascii_case. rewrite !bool_decide_eq_true. congruence. Qed.
Lemma note_uid_for_spec db p v : note_uid_for db p = Some v →
  ∃ id, uids db !! id = Some v ∧ eq_ignore_ascii_case id p = true.
Proof.
  unfold note_uid_for, find_note_uid_by_doc_id. destruct (db_documents db !! p) as [row|] eqn:Hp; simpl.
  - intros [= <-]. exists p. split; [apply uids_lookup; eauto|]. by apply bool_decide_eq_true.
  - unfold find_note_uid_by_doc_id_nocase. destruct (take 2 _) as [|[id row] [|]] eqn:Ht; [done| |done].
    intros [= <-]. exists id.
    assert (Hin : (id, row) ∈ filter (λ kv : string * DocumentRow, eq_ignore_ascii_case kv.1 p = true) (sorted_documents db)).
    { rewrite <- (take_drop 2 (filter _ _)), Ht. set_solver. }
    apply list_elem_of_filter in Hin as [Hcase Hin]. split; [|done]. unfold sorted_documents in Hin.
    rewrite elem_of_sort_by in Hin. apply elem_of_map_to_list in Hin. apply uids_lookup. eauto.
Qed.

(** The document of a file as it is read *)
Definition file_document (p : string) : option IndexedDocument :=
  if negb (is_markdown_path p) then None
  else match stat fs (path_join root p) with
       | Ok (File content mtime) => if utf8_valid content then Some (document_of None p (mtime_ms now mtime) content) else None
       | _ => None
       end.
Definition with_uid (uid : option Z) (doc : IndexedDocument) : IndexedDocument := renamed_document uid doc.
Lemma build_document_file db p maybe_doc : build_document fs root now db p = Ok maybe_doc →
  maybe_doc = with_uid (note_uid_for db p) <$> file_document p.
Proof.
  unfold build_document, file_document. destruct (negb _); [by intros [= <-]|].
  destruct (stat fs _) as [[content mtime| |]|[]]; try done; try (by intros [= <-]).
  destruct (utf8_valid content); [by intros [= <-]|done].
Qed.
Lemma file_document_ok p doc : file_document p = Some doc → id_doc_id doc = p ∧ document_ok doc.
Proof.
  unfold file_document. destruct (negb _); [done|]. destruct (stat fs _) as [[content mtime| |]|]; try done.
  destruct (utf8_valid content); [|done]. intros [= <-]. split; [done|]. apply wikilink_rows_of_ok.
Qed.

Lemma remove_stale_spec files db : tables_ok db →
  tables_ok (remove_stale files db) ∧
  (∀ p, is_Some (db_documents (remove_stale files db) !! p) → p ∈ files) ∧
  (∀ doc, id_doc_id doc ∈ files → describes db doc → describes (remove_stale files db) doc) ∧
  (owned db → owned (remove_stale files db)).
Proof.
  intros Hok. unfold remove_stale.
  set (stale := List.filter _ _).
  assert (Hstale : ∀ p, p ∈ stale ↔ is_Some (db_documents db !! p) ∧ p ∉ files).
  { intros p. unfold stale. rewrite list_elem_of_In, filter_In, <- list_elem_of_In, negb_true_iff, bool_decide_eq_false.
    unfold list_indexed_doc_ids, sorted_documents. rewrite list_elem_of_fmap. setoid_rewrite elem_of_sort_by. split.
    - intros [([k row] & -> & Hk%elem_of_map_to_list) Hp]. eauto.
    - intros [[row Hrow] Hp]. split; [|done]. exists (p, row). split; [done|]. by apply elem_of_map_to_list. }
  assert (Hloop : ∀ l db1, tables_ok db1 → (∀ p, p ∈ l → p ∉ files) →
    let db' := foldl (λ db doc_id, (remove_document db doc_id).2) db1 l in
    tables_ok db' ∧ (∀ p, is_Some (db_documents db' !! p) → is_Some (db_documents db1 !! p) ∧ p ∉ l) ∧
    (∀ doc, id_doc_id doc ∈ files → describes db1 doc → describes db' doc) ∧ (owned db1 → owned db')).
  { intros l. induction l as [|q l IH]; intros db1 Hok1 Hl; [split_and!; [done| |done|done]; intros p ?; split; [done|set_solver]|].
    cbn [foldl]. pose proof (remove_document_spec db1 q Hok1) as Hspec.
    assert (Hkeep : ∀ doc, id_doc_id doc ∈ files → describes db1 doc → describes (remove_document db1 q).2 doc).
    { intros doc Hdoc [u Hu]. exists u. apply remove_keeps_other; [done|done|]. intros <-. by apply (Hl (id_doc_id doc)); [set_solver|]. }
    pose proof (remove_owned db1 q Hok1) as Hown1.
    destruct (remove_document db1 q) as [n db2]. destruct Hspec as (_ & Hd & _ & _ & _ & Hok2). simpl in *.
    destruct (IH db2 Hok2) as (Hok3 & Hkeys & Hdesc & Hown); [set_solver|]. split_and!; [done| |eauto|auto].
    intros p Hp. destruct (Hkeys p Hp) as [Hp2 Hpl]. rewrite Hd in Hp2. destruct Hp2 as [row Hrow].
    apply lookup_delete_Some in Hrow as [Hne Hrow]. split; [eauto|]. set_solver. }
  destruct (Hloop stale db Hok) as (Hok' & Hkeys & Hdesc & Hown); [intros p Hp; by apply Hstale in Hp as [_ Hp]|].
  split_and!; [done| |done|done]. intros p Hp. destruct (Hkeys p Hp) as [Hp' Hns]. destruct (decide (p ∈ files)) as [|Hnf]; [done|].
  destruct Hns. by apply Hstale.
Qed.

(** ** The notes of the vault *)

(** A markdown file that is reached through directories which are not ignored *)
Definition vault_note (p : string) : Prop :=
  ∃ d name content mtime, reach fs root [] d ∧ fs !! (root ++ d ++ [name]) = Some (File content mtime) ∧
    should_ignore_path (d ++ [name]) = false ∧ p = to_relative_path (d ++ [name]) ∧ is_markdown_path p = true.
Lemma collect_spec fuel d out out' : collect_markdown_files fuel fs root (root ++ d) out = Ok out' →
  ∃ new, out' = out ++ new ∧ ∀ p, p ∈ new ↔ ∃ d' name content mtime,
    reach fs root d d' ∧ length d' < length d + fuel ∧ fs !! (root ++ d' ++ [name]) = Some (File content mtime) ∧
    should_ignore_path (d' ++ [name]) = false ∧ p = to_relative_path (d' ++ [name]) ∧ is_markdown_path p = true.
Proof.
  revert d out out'. induction fuel as [|fuel IH]; intros d out out'; simpl.
  - intros [= <-]. exists []. rewrite app_nil_r. split; [done|]. intros p. split; [set_solver|].
    intros (d' & name & c & m & Hr%reach_length & Hl & _). lia.
  - destruct (is_dir fs (root ++ d)); [|done]. intros Hf.
    eapply (try_fold_append _ (λ (entry : string * Node) p,
      should_ignore_path (d ++ [entry.1]) = false ∧
      match entry.2 with
      | Dir => ∃ d' name content mtime, reach fs root (d ++ [entry.1]) d' ∧ length d' < length (d ++ [entry.1]) + fuel ∧
          fs !! (root ++ d' ++ [name]) = Some (File content mtime) ∧ should_ignore_path (d' ++ [name]) = false ∧
          p = to_relative_path (d' ++ [name]) ∧ is_markdown_path p = true
      | File _ _ => p = to_relative_path (d ++ [entry.1]) ∧ is_markdown_path p = true
      | Symlink _ => False
      end)) in Hf as (new & -> & Hnew).
    + exists new. split; [done|]. intros p. rewrite Hnew. split.
      * intros ([name node] & Hin%elem_of_read_dir & Hig & Hq). simpl in *. rewrite <- app_assoc in Hin.
        destruct node as [c m| |]; [| |done].
        -- exists d, name, c, m. destruct Hq as [-> Hmd]. split_and!; [constructor|lia|done..].
        -- destruct Hq as (d' & n & c & m & Hr & Hl & Hrest). exists d', n, c, m. split; [by eapply reach_cons|].
           split; [|done]. rewrite length_app in Hl. simpl in Hl. lia.
      * intros (d' & n & c & m & [->|(name & Hd & Hig & Hr)]%reach_inv & Hl & Hfile & Hig' & Hp & Hmd).
        -- exists (n, File c m). rewrite elem_of_read_dir, <- app_assoc. by split_and!.
        -- exists (name, Dir). rewrite elem_of_read_dir, <- app_assoc. split; [done|]. split; [done|]. simpl.
           exists d', n, c, m. split_and!; try done. rewrite length_app. simpl. lia.
    + intros [name node] s s' Hin%elem_of_read_dir Hs. unfold collect_entry in Hs. cbn [fst snd] in Hs.
      rewrite relative_path_drop in Hs. simpl.
      destruct (should_ignore_path (d ++ [name])).
      { injection Hs as <-. exists []. rewrite app_nil_r. split; [done|]. set_solver. }
      destruct node as [c m| |].
      * destruct (is_markdown_path _) eqn:Hmd; injection Hs as <-.
        -- eexists [_]. split; [done|]. intros p. rewrite list_elem_of_singleton. naive_solver.
        -- exists []. rewrite app_nil_r. split; [done|]. intros p. split; [set_solver|]. intros (_ & -> & ?). congruence.
      * rewrite <- app_assoc in Hs. apply IH in Hs as (new & -> & Hnew). exists new. split; [done|]. intros p.
        rewrite Hnew. naive_solver.
      * injection Hs as <-. exists []. rewrite app_nil_r. split; [done|]. set_solver.
Qed.
Lemma collect_notes files p : collect_markdown_files (scan_depth fs) fs root root [] = Ok files → p ∈ files ↔ vault_note p.
Proof.
  intros Hf. rewrite <- (app_nil_r root) in Hf at 2. apply collect_spec in Hf as (new & -> & Hnew). simpl. rewrite Hnew. split.
  - intros (d & n & c & m & Hr & _ & Hrest). by exists d, n, c, m.
  - intros (d & n & c & m & Hr & Hfile & Hrest). exists d, n, c, m. split_and!; try done; [|apply Hrest..].
    simpl. apply scan_depth_bound in Hfile. rewrite !length_app in Hfile. simpl in Hfile. lia.
Qed.

(** The same, by the names of the directories and of the file *)
Definition note_file (q : list string) : Prop :=
  ∃ d name content mtime, reach fs root [] d ∧ q = d ++ [name] ∧ fs !! (root ++ q) = Some (File content mtime) ∧
    should_ignore_path q = false ∧ is_markdown_path (to_relative_path q) = true.
Lemma vault_note_file p : vault_note p ↔ ∃ q, note_file q ∧ p = to_relative_path q.
Proof.
  split.
  - intros (d & name & c & m & Hr & Hf & Hig & -> & Hmd). exists (d ++ [name]). split; [|done].
    by exists d, name, c, m.
  - intros (q & (d & name & c & m & Hr & -> & Hf & Hig & Hmd) & ->). by exists d, name, c, m.
Qed.
(** No two notes have the same path, or paths that differ in the case of ASCII letters only. *)
Definition notes_distinct : Prop :=
  ∀ q q', note_file q → note_file q' →
    eq_ignore_ascii_case (to_relative_path q) (to_relative_path q') = true → q = q'.

Lemma read_dir_names dir : NoDup (read_dir fs dir).*1.
Proof.
  unfold read_dir. assert (Hk : NoDup (map_to_list fs).*1) by apply NoDup_fst_map_to_list.
  induction (map_to_list fs) as [|[p node] l IH]; [apply NoDup_nil_2|].
  cbn [fmap list_fmap] in Hk. apply NoDup_cons in Hk as [Hp Hk]. cbn [omap list_omap fst snd].
  destruct (child_of dir p) as [name|] eqn:Hc; cbn [fmap option_fmap option_map]; [|by apply IH].
  apply child_of_Some in Hc as ->. cbn [list_fmap fst]. apply NoDup_cons. split; [|by apply IH].
  intros ([name' node'] & -> & Hin)%list_elem_of_fmap. apply list_elem_of_omap in Hin as ([p' n'] & Hin & Hc).
  apply fmap_Some in Hc as (name'' & Hc%child_of_Some & [= -> ->]). simpl in *. subst p'.
  apply Hp, list_elem_of_fmap. by exists (dir ++ [name''], n').
Qed.
Definition found_in (d : list string) (entries : list (string * Node)) (out out' : list string) : Prop :=
  ∃ qs, out' = out ++ (to_relative_path <$> qs) ∧ NoDup qs ∧
    ∀ q, q ∈ qs → note_file q ∧ ∃ e rest, e ∈ entries ∧ q = d ++ e.1 :: rest.
Lemma found_in_cons d e entries out out1 out' : e.1 ∉ entries.*1 →
  found_in d [e] out out1 → found_in d entries out1 out' → found_in d (e :: entries) out out'.
Proof.
  intros He (qs1 & -> & Hnd1 & Hin1) (qs2 & -> & Hnd2 & Hin2). exists (qs1 ++ qs2).
  split; [by rewrite fmap_app, app_assoc|]. split.
  - apply NoDup_app. split; [done|]. split; [|done]. intros q Hq1 Hq2.
    apply Hin1 in Hq1 as (_ & e1 & r1 & ->%list_elem_of_singleton & ->).
    apply Hin2 in Hq2 as (_ & e2 & r2 & Hin & Heq%app_inv_head). injection Heq as Heq _.
    apply He, list_elem_of_fmap. by exists e2.
  - intros q [Hq|Hq]%elem_of_app.
    + destruct (Hin1 q Hq) as (Hf & e1 & r1 & ->%list_elem_of_singleton & ->). split; [done|]. exists e, r1. split; [by left|done].
    + destruct (Hin2 q Hq) as (Hf & e2 & r2 & Hin & ->). split; [done|]. exists e2, r2. split; [by right|done].
Qed.
Lemma found_in_nothing d entries out : found_in d entries out out.
Proof. exists []. rewrite app_nil_r. split; [done|]. split; [apply NoDup_nil_2|]. set_solver. Qed.
Lemma collect_distinct fuel d out out' : reach fs root [] d →
  collect_markdown_files fuel fs root (root ++ d) out = Ok out' →
  found_in d (read_dir fs (root ++ d)) out out'.
Proof.
  revert d out out'. induction fuel as [|fuel IH]; intros d out out' Hreach; simpl; [intros [= <-]; apply found_in_nothing|].
  destruct (is_dir fs (root ++ d)); [|done]. pose proof (read_dir_names (root ++ d)) as Hnames.
  assert (Hall : ∀ name node, (name, node) ∈ read_dir fs (root ++ d) → fs !! (root ++ d ++ [name]) = Some node).
  { intros name node Hin%elem_of_read_dir. by rewrite <- app_assoc in Hin. }
  revert out. induction (read_dir fs (root ++ d)) as [|[name node] l IHl]; intros out; [intros [= <-]; apply found_in_nothing|].
  cbn [try_fold]. intros (out1 & Hentry & Hrest)%bind_Ok_inv. apply NoDup_cons in Hnames as [Hname Hnames].
  eapply found_in_cons; [done| |apply IHl; [done|intros n' m' Hin; apply Hall; by right|exact Hrest]].
  specialize (Hall name node (list_elem_of_here _ _)). clear IHl Hrest Hnames Hname.
  unfold collect_entry in Hentry. cbn [fst snd] in Hentry. rewrite relative_path_drop in Hentry.
  destruct (should_ignore_path (d ++ [name])) eqn:Hig; [injection Hentry as <-; apply found_in_nothing|].
  destruct node as [c m| |]; [|..|injection Hentry as <-; apply found_in_nothing].
  - destruct (is_markdown_path _) eqn:Hmd; injection Hentry as <-; [|apply found_in_nothing].
    exists [d ++ [name]]. split; [done|]. split; [apply NoDup_singleton|]. intros q ->%list_elem_of_singleton.
    split; [by exists d, name, c, m|]. exists (name, File c m), []. split; [by left|done].
  - rewrite <- app_assoc in Hentry. apply IH in Hentry as (qs & -> & Hnd & Hqs); [|by econstructor].
    exists qs. split; [done|]. split; [done|]. intros q (Hf & e & rest & _ & ->)%Hqs. split; [done|].
    exists (name, Dir), (e.1 :: rest). split; [by left|]. by rewrite <- app_assoc.
Qed.
Lemma collect_NoDup files : notes_distinct → collect_markdown_files (scan_depth fs) fs root root [] = Ok files → NoDup files.
Proof.
  intros Hdist Hf. rewrite <- (app_nil_r root) in Hf at 2. apply collect_distinct in Hf as (qs & -> & Hnd & Hqs); [|constructor].
  apply NoDup_fmap_2_strong; [|done]. intros q q' [Hq _]%Hqs [Hq' _]%Hqs Heq. apply Hdist; [done..|].
  rewrite Heq. by apply bool_decide_eq_true.
Qed.
Lemma notes_distinct_paths : notes_distinct → ∀ p q, vault_note p → vault_note q → eq_ignore_ascii_case p q = true → p = q.
Proof. intros Hdist p q (a & Ha & ->)%vault_note_file (b & Hb & ->)%vault_note_file Hab. f_equal. by apply Hdist. Qed.

End files.

(** ** The notes, batch by batch *)

Section rebuild.
Context `{Unicode, !UnicodeFold, YamlValues, MarkdownParser, Blake3, Os, IndexJson}.
Context (fs : Fs) (root : AbsPath) (now : Z) (sees : string → Fs).

(** The document of a file as the rebuild reads it *)
Definition seen_document (p : string) : option IndexedDocument := file_document (sees p) root now p.
Lemma seen_document_ok p doc : seen_document p = Some doc → id_doc_id doc = p ∧ document_ok doc.
Proof. apply file_document_ok. Qed.
Lemma build_batch_docs db batch docs : build_batch root now sees db batch = Ok docs →
  docs = omap (λ p, with_uid (note_uid_for db p) <$> seen_document p) batch.
Proof.
  unfold build_batch. intros Hf.
  enough (∀ acc, try_fold (λ docs rel_path, maybe_doc ← build_document (sees rel_path) root now db rel_path;
      Ok (docs ++ match maybe_doc with Some doc => [doc] | None => [] end)) acc batch = Ok docs →
    docs = acc ++ omap (λ p, with_uid (note_uid_for db p) <$> seen_document p) batch) as Hall by (by apply Hall in Hf).
  clear Hf. revert docs. induction batch as [|p batch IH]; intros docs acc; [intros [= <-]; by rewrite app_nil_r|].
  cbn [try_fold]. intros (acc' & Hacc & Hrest)%bind_Ok_inv. apply bind_Ok_inv in Hacc as (m & Hm & [= <-]).
  apply build_document_file in Hm as ->. rewrite (IH docs _ Hrest), <- app_assoc. f_equal. cbn [omap list_omap].
  unfold seen_document. by destruct (_ <$> file_document _ _ _ _).
Qed.

(** The state in the middle of a batch that was built from [db0] *)
Record in_batch (files : list string) (db0 db : SearchTables) (done_ processed : list string) : Prop := {
  ib_ok : tables_ok db;
  ib_sequence : (db_sequence db0 ≤ db_sequence db)%Z;
  ib_uids p u : uids db !! p = Some u → uids db0 !! p = Some u ∨
    (p ∈ done_ ∧ (note_uid_for db0 p = Some u ∨ (db_sequence db0 < u)%Z));
  ib_described p doc : p ∈ processed → seen_document p = Some doc → describes db doc }.
Lemma batch_step files db0 db done_ processed p doc : tables_ok db0 → case_distinct files → p ∈ files →
  done_ ⊆ files → processed ⊆ files → seen_document p = Some doc →
  in_batch files db0 db done_ processed →
  in_batch files db0 (replace_document db (with_uid (note_uid_for db0 p) doc)).2 (done_ ++ [p]) (processed ++ [p]).
Proof.
  intros Hok0 Hcase Hp Hdone Hproc Hfile [Hok Hseq Huids Hdesc]. destruct (seen_document_ok p doc Hfile) as [Hid Hdoc].
  set (doc' := with_uid (note_uid_for db0 p) doc). assert (Hdoc' : document_ok doc') by done.
  assert (Hid' : id_doc_id doc' = p) by done.
  assert (Hfresh : ∀ q u, q ∈ files → q ≠ p → uids db !! q = Some u → u ≠ uid_for db doc').
  { intros q u Hq Hqp Hu Heq. unfold uid_for in Heq. simpl in Heq. destruct (note_uid_for db0 p) as [v|] eqn:Hv; simpl in Heq.
    - subst v. destruct (note_uid_for_spec db0 p u Hv) as (id & Hidu & Hidp). destruct (Huids q u Hu) as [Hold|[_ [Hq'|Hlt]]].
      + apply Hqp, Hcase; [done|done|]. enough (q = id) as -> by done.
        apply uids_lookup in Hold as (r & Hr & Hru), Hidu as (s & Hs & Hsu). eapply (uids_distinct _ Hok0); [done|done|congruence].
      + destruct (note_uid_for_spec db0 q u Hq') as (id' & Hidu' & Hidq). apply Hqp, Hcase; [done|done|].
        assert (id' = id) as ->.
        { apply uids_lookup in Hidu as (r & Hr & Hru), Hidu' as (s & Hs & Hsu). eapply (uids_distinct _ Hok0); [done|done|congruence]. }
        eapply eq_ignore_ascii_case_trans; [apply eq_ignore_ascii_case_sym; exact Hidq|exact Hidp].
      + apply uids_lookup in Hidu as (r & Hr & Hru). pose proof (uids_given _ Hok0 _ _ Hr). lia.
    - apply uids_lookup in Hu as (r & Hr & Hru). pose proof (uids_given _ Hok _ _ Hr). lia. }
  assert (Hspec := replace_document_spec db doc' Hok Hdoc'). cbv zeta in Hspec.
  assert (Hok' : tables_ok (replace_document db doc').2).
  { destruct (replace_document db doc') as [n db']. destruct Hspec as (_ & _ & _ & _ & Hk). exact Hk. }
  split; [done| | |].
  - unfold replace_document. pose proof (replace_row_spec db doc' Hok) as Hrow. cbv zeta in Hrow.
    destruct (replace_row doc' db) as [n db1]. destruct Hrow as (_ & Hs & _).
    assert (Hins : ∀ links db1, db_sequence (foldl (insert_wikilink n (id_doc_id doc')) db1 links) = db_sequence db1).
    { intros links. induction links as [|l links IH]; intros db2; [done|]. simpl. by rewrite IH. }
    assert (Hinc : ∀ chunks db1, db_sequence (foldl (insert_chunk (id_doc_id doc')) db1 chunks) = db_sequence db1).
    { intros chunks. induction chunks as [|l chunks IH]; intros db2; [done|]. simpl. by rewrite IH. }
    simpl. rewrite Hins, Hinc, Hs. lia.
  - intros q u. rewrite uids_replaced by done. rewrite Hid'. intros [[-> ->]|(Hne & Hu & Hold)].
    + right. split; [set_solver|]. unfold uid_for. simpl. destruct (note_uid_for db0 p) as [v|]; simpl; [by left|right; lia].
    + destruct (Huids q u Hold) as [|[? ?]]; [by left|]. right. split; [set_solver|done].
  - intros q other Hq Hother. destruct (decide (q = p)) as [->|Hne].
    + assert (other = doc) as -> by congruence. exists (uid_for db doc'). exact (replace_describes db doc' Hok Hdoc').
    + assert (Hq' : q ∈ processed) by set_solver. destruct (Hdesc q other Hq' Hother) as [u Hu].
      destruct (seen_document_ok q other Hother) as [Hidq _]. exists u. apply replace_keeps_other; [done|done|done|congruence|].
      apply (Hfresh q); [set_solver|done|]. rewrite <- Hidq. by eapply describes_uid.
Qed.
Lemma batch_all files db0 batch : tables_ok db0 → case_distinct files → batch ⊆ files →
  ∀ db done_ processed, done_ ⊆ files → processed ⊆ files → in_batch files db0 db done_ processed →
  in_batch files db0 (foldl (λ db doc, (replace_document db doc).2) db
      (omap (λ p, with_uid (note_uid_for db0 p) <$> seen_document p) batch))
    (done_ ++ batch) (processed ++ batch).
Proof.
  intros Hok0 Hcase. induction batch as [|p batch IH]; intros Hb db done_ processed Hd Hp Hin; [by rewrite !app_nil_r|].
  cbn [omap list_omap]. replace (done_ ++ p :: batch) with ((done_ ++ [p]) ++ batch) by (by rewrite <- app_assoc).
  replace (processed ++ p :: batch) with ((processed ++ [p]) ++ batch) by (by rewrite <- app_assoc).
  destruct (seen_document p) as [doc|] eqn:Hfile; cbn [fmap option_fmap option_map foldl].
  - apply IH; [set_solver..|]. apply batch_step; [done|done|set_solver|done..].
  - apply IH; [set_solver..|]. destruct Hin as [Hok Hseq Huids Hdesc]. split; [done|done| |].
    + intros q u Hq. destruct (Huids q u Hq) as [|[? ?]]; [by left|]. right. split; [set_solver|done].
    + intros q doc Hq Hdoc. apply (Hdesc q); [|done]. apply elem_of_app in Hq as [|Hq]; [done|].
      apply list_elem_of_singleton in Hq as ->. congruence.
Qed.
(** In a batch no note is met twice, and the row of its path has the number it takes. *)
Lemma batch_owned files db0 batch : tables_ok db0 → case_distinct files → batch ⊆ files →
  ∀ db done_ processed, NoDup (done_ ++ batch) → done_ ⊆ files → processed ⊆ files →
  in_batch files db0 db done_ processed → owned db →
  owned (foldl (λ db doc, (replace_document db doc).2) db
      (omap (λ p, with_uid (note_uid_for db0 p) <$> seen_document p) batch)).
Proof.
  intros Hok0 Hcase. induction batch as [|p batch IH]; intros Hb db done_ processed Hnd Hd Hp Hin Hown; [done|].
  cbn [omap list_omap]. rewrite cons_middle, app_assoc in Hnd.
  destruct (seen_document p) as [doc|] eqn:Hfile; cbn [fmap option_fmap option_map foldl].
  - eapply (IH _ _ (done_ ++ [p]) (processed ++ [p])); [done|set_solver|set_solver| |].
    { apply batch_step; [done|done|set_solver|done..]. }
    destruct (seen_document_ok p doc Hfile) as [Hid Hdoc].
    apply replace_owned; [apply Hin|done| |done].
    change (id_doc_id (with_uid (note_uid_for db0 p) doc)) with (id_doc_id doc). rewrite Hid. intros v Hv.
    destruct (ib_uids _ _ _ _ _ Hin p v Hv) as [Hold|[Hdone _]].
    + apply uids_lookup in Hold as (row & Hrow & <-). unfold uid_for. simpl.
      unfold note_uid_for, find_note_uid_by_doc_id. by rewrite Hrow.
    + exfalso. apply NoDup_app in Hnd as (Hnd & _ & _). apply NoDup_app in Hnd as (_ & Hnd & _).
      apply (Hnd p Hdone). set_solver.
  - eapply (IH _ _ (done_ ++ [p]) processed); [done|set_solver|done| |done].
    destruct Hin as [Hok Hseq Huids Hdesc]. split; [done|done| |done].
    intros q u Hq. destruct (Huids q u Hq) as [|[? ?]]; [by left|]. right. split; [set_solver|done].
    Unshelve. all: set_solver.
Qed.
Lemma batches_concat fuel files : length files ≤ fuel → concat (batches fuel files) = files.
Proof.
  revert files. induction fuel as [|fuel IH]; intros files Hlen; [destruct files; [done|simpl in Hlen; lia]|].
  destruct files as [|p files]; [done|].
  change (take 50 (p :: files) ++ concat (batches fuel (drop 50 (p :: files))) = p :: files).
  rewrite IH; [apply take_drop|]. rewrite length_drop. cbn [length] in *. lia.
Qed.

(** The tables when the notes [processed] are written; they started as [start]. *)
Definition stage_ok (start : SearchTables) (files processed : list string) (db : SearchTables) : Prop :=
  tables_ok db ∧ (∀ p doc, case_distinct files → p ∈ processed → seen_document p = Some doc → describes db doc) ∧
  (case_distinct files → NoDup files → owned start → owned db).
Lemma replace_all_ok docs db : Forall document_ok docs → tables_ok db →
  tables_ok (foldl (λ db doc, (replace_document db doc).2) db docs).
Proof.
  intros Hdocs. revert db. induction Hdocs as [|doc docs Hdoc _ IH]; intros db Hok; [done|]. simpl. apply IH.
  pose proof (replace_document_spec db doc Hok Hdoc) as Hspec. cbv zeta in Hspec.
  destruct (replace_document db doc) as [n db']. destruct Hspec as (_ & _ & _ & _ & Hk). exact Hk.
Qed.
Lemma rebuild_batch_ok start files processed total idx batch r : batch ⊆ files → processed ⊆ files →
  (NoDup files → NoDup batch) → stage_ok start files processed (rt_db r) →
  act_post (rebuild_batch root now sees total idx batch) r (λ res r',
    tables_ok (rt_db r') ∧ (∀ idx', res = Ok idx' → stage_ok start files (processed ++ batch) (rt_db r'))).
Proof.
  intros Hb Hp Hnd (Hok & Hdesc & Hown). unfold rebuild_batch. apply (act_post_gets rt_db). apply act_post_lift; [|by intros e _].
  intros docs Hdocs%build_batch_docs.
  assert (Hall : Forall document_ok docs).
  { rewrite Hdocs. apply Forall_forall. intros doc (p & _ & Hdoc)%list_elem_of_omap.
    apply fmap_Some in Hdoc as (d & Hd & ->). by apply (seen_document_ok p d) in Hd as [_ Hd]. }
  unfold act_post, mbind, act_bind, modify. cbn.
  assert (Hok' := replace_all_ok docs (rt_db r) Hall Hok). split; [done|]. intros _ _. split; [done|].
  assert (Hbatch : case_distinct files → in_batch files (rt_db r) (rt_db r) [] processed).
  { intros Hcase. split; [done|lia|by left|]. intros q d Hq Hd. by apply (Hdesc q). }
  split; [|intros Hcase Hndf Hstart; rewrite Hdocs; eapply (batch_owned files _ _ Hok Hcase Hb _ [] processed);
    [by apply Hnd|set_solver|done|by apply Hbatch|by apply Hown]].
  intros p doc Hcase Hin Hfile. rewrite Hdocs. specialize (Hbatch Hcase).
  pose proof (batch_all files (rt_db r) batch Hok Hcase Hb (rt_db r) [] processed ltac:(set_solver) Hp Hbatch) as Hend.
  by apply (ib_described _ _ _ _ _ Hend p).
Qed.
Lemma rebuild_batches_ok start files total bs idx processed r : concat bs ⊆ files → processed ⊆ files →
  (NoDup files → NoDup (concat bs)) → stage_ok start files processed (rt_db r) →
  act_post (act_fold (rebuild_batch root now sees total) idx bs) r (λ res r',
    tables_ok (rt_db r') ∧ (∀ idx', res = Ok idx' → stage_ok start files (processed ++ concat bs) (rt_db r'))).
Proof.
  revert idx processed r. induction bs as [|b bs IH]; intros idx processed r Hb Hp Hnd Hst.
  - rewrite app_nil_r. unfold act_post. simpl. split; [apply Hst|done].
  - cbn [act_fold concat] in *. apply act_post_bind.
    eapply act_post_mono.
    { apply (rebuild_batch_ok start files processed total idx b r); [set_solver|done| |done]. by intros [? _]%Hnd%NoDup_app. }
    intros [idx'|e] r' [Hok Hst']; [|done]. rewrite app_assoc. apply IH; [set_solver|set_solver| |by eapply Hst'].
    by intros (_ & _ & ?)%Hnd%NoDup_app.
Qed.
Lemma rebuild_index_ok reason r : tables_ok (rt_db r) →
  act_post (rebuild_index fs root now sees reason) r (λ res r', tables_ok (rt_db r') ∧
    (res = Ok tt → links_resolved (rt_db r') ∧ ∃ files,
      collect_markdown_files (scan_depth fs) fs root root [] = Ok files ∧
      (∀ p, is_Some (db_documents (rt_db r') !! p) → p ∈ files) ∧
      (case_distinct files → ∀ p doc, p ∈ files → seen_document p = Some doc → describes (rt_db r') doc) ∧
      (case_distinct files → NoDup files → owned (rt_db r) → owned (rt_db r')))).
Proof.
  intros Hok. unfold rebuild_index. apply act_post_lift; [|by intros e _]. intros found Hfound. cbv zeta.
  set (files := sort_by str_leb found). assert (Hin : ∀ p, p ∈ files ↔ p ∈ found) by (intros p; apply elem_of_sort_by).
  apply act_post_bind. change (act_post ?m ?w ?Q) with (Q (m w).1 (m w).2). cbn [modify fst snd].
  apply act_post_bind.
  eapply act_post_mono; [apply (rebuild_batches_ok (rt_db r) files (length files) (batches (length files) files) 0 [] (with_status (set_indexing_status (length files) 0) r))|].
  { by rewrite batches_concat. } { set_solver. } { by rewrite batches_concat. } { split; [done|]. split; [set_solver|done]. }
  intros [idx|e] r1 [Hok1 Hst]; [|by split]. destruct (Hst idx eq_refl) as (_ & Hdesc & Hown). clear Hst.
  rewrite batches_concat in Hdesc by done. simpl in Hdesc.
  destruct (remove_stale_spec files (rt_db r1) Hok1) as (Hok2 & Hkeys & Hdesc2 & Hown2).
  unfold act_post. destruct (job_end resolve_all_wikilinks now (record_last_job "full-rebuild" None reason)
    (with_db (remove_stale files) r1)) as (r' & Hrun & Hr').
  unfold mbind, act_bind, modify in *. cbn in *. rewrite Hrun. cbn. rewrite Hr'.
  destruct (resolve_all_refs _ Hok2) as (Hd & Hs & Hc & Hrefs).
  split; [by eapply resolved_refs_ok|]. intros _. split; [by eapply resolved_refs_resolved|].
  assert (Hcases : case_distinct found → case_distinct files).
  { intros Hcase a b Ha Hb. apply Hcase; by apply Hin. }
  exists found. split_and!; [done| | |].
  - intros p Hp. apply Hin, Hkeys. by rewrite <- Hd.
  - intros Hcase p doc Hp Hdoc. destruct (seen_document_ok p doc Hdoc) as [Hid _].
    destruct (Hdesc2 doc) as [u Hu]; [rewrite Hid; by apply Hin| |exists u; by apply resolve_all_describes].
    apply (Hdesc p); [auto|by apply Hin|done].
  - intros Hcase Hnd Hstart. apply resolve_all_owned, Hown2, Hown; [done|auto| |done].
    unfold files. by rewrite sort_by_perm.
Qed.

(** ** A whole rebuild *)

Lemma finish_rebuild_db r : ∃ r', finish_rebuild r = (Ok tt, r') ∧ rt_db r' = rt_db r.
Proof.
  unfold finish_rebuild, mbind, act_bind, gets, modify, attempt, send. cbn. destruct (rerun (rt_rebuild_state r)); cbn; eauto.
  destruct (rt_alive r); cbn; eauto.
Qed.
Lemma handle_full_rebuild_ok reason r : tables_ok (rt_db r) →
  act_post (handle_full_rebuild fs root now sees reason) r (λ res r', tables_ok (rt_db r') ∧
    (res = Ok tt → links_resolved (rt_db r') ∧
      (∀ p, is_Some (db_documents (rt_db r') !! p) → vault_note fs root p) ∧
      ((∀ p q, vault_note fs root p → vault_note fs root q → eq_ignore_ascii_case p q = true → p = q) →
       ∀ p doc, vault_note fs root p → seen_document p = Some doc → describes (rt_db r') doc) ∧
      (notes_distinct fs root → owned (rt_db r) → owned (rt_db r')))).
Proof.
  intros Hok. unfold handle_full_rebuild. apply act_post_bind.
  apply (act_post_mono _ _ (λ res r1, res = Ok tt ∧ rt_db r1 = rt_db r)); [by split|].
  intros res1 r1 [-> Hr1]. apply act_post_bind. eapply act_post_mono; [apply rebuild_index_ok; by rewrite Hr1|].
  intros [[]|e] r2 [Hok2 Hindex]; [|done]. destruct (Hindex eq_refl) as (Hres & files & Hf & Hkeys & Hdesc & Hown).
  unfold act_post. destruct (finish_rebuild_db r2) as (r3 & -> & Hr3). cbn. rewrite Hr3.
  split; [done|]. intros _.
  assert (Hcases : (∀ p q, vault_note fs root p → vault_note fs root q → eq_ignore_ascii_case p q = true → p = q) → case_distinct files).
  { intros Hcase a b Ha Hb. apply Hcase; by apply (collect_notes fs root files). }
  split_and!; [done| | |].
  - intros p Hp. by apply (collect_notes fs root files), Hkeys.
  - intros Hcase p doc Hp Hdoc. apply (Hdesc) with (p := p); [auto|by apply (collect_notes fs root files)|done].
  - intros Hdist. rewrite <- Hr1. apply Hown; [by apply Hcases, (notes_distinct_paths fs root)|by apply (collect_NoDup fs root)].
Qed.

(** C36: a full rebuild that succeeds. The index then has only notes of the vault, and every
    link is resolved. If no two notes of the vault have paths that agree up to the case of
    ASCII letters, each note is in the index as the rebuild read it when it came to it, if it
    could be read then: its row, its chunks and, under its number, its links, in order and no
    others; other programs may have changed it before and after. And if before the
    rebuild every chunk and every link belonged to an indexed note, then so it is after it,
    and nothing else is left of what the index held. Rows that belonged to no note are not
    looked for and stay. *)
Theorem rebuild_exact reason r r' :
  tables_ok (rt_db r) → handle_full_rebuild fs root now sees reason r = (Ok tt, r') →
  tables_ok (rt_db r') ∧ links_resolved (rt_db r') ∧
  (∀ p, is_Some (db_documents (rt_db r') !! p) → vault_note fs root p) ∧
  (notes_distinct fs root →
     (∀ p doc, vault_note fs root p → seen_document p = Some doc → describes (rt_db r') doc) ∧
     (owned (rt_db r) → owned (rt_db r'))).
Proof.
  intros Hok Hrun. destruct (act_post_elim _ _ _ _ _ (handle_full_rebuild_ok reason r Hok) Hrun) as [Hok' Hend].
  destruct (Hend eq_refl) as (Hres & Hkeys & Hdesc & Hown). split_and!; [done..|].
  intros Hdist. split; [by apply Hdesc, (notes_distinct_paths fs root)|by apply Hown].
Qed.

Lemma handle_job_ok job r : tables_ok (rt_db r) → (is_full_rebuild job = true ∨ links_resolved (rt_db r)) →
  act_post (handle_job fs root now sees job) r (λ res r', tables_ok (rt_db r') ∧
    (is_full_rebuild job = false ∨ res = Ok tt → links_resolved (rt_db r'))).
Proof.
  intros Hok Hres. destruct job as [reason|path source|path is_dir source|old_path new_path is_dir source|]; simpl in *.
  - eapply act_post_mono; [by apply handle_full_rebuild_ok|]. intros res r' [? Hend]. split; [done|].
    intros [|Heq]; [done|]. by apply Hend.
  - destruct Hres as [|Hres]; [done|]. apply act_post_bind.
    apply (act_post_mono _ _ (λ res r1, res = Ok tt ∧ rt_db r1 = rt_db r)); [by split|].
    intros res1 r1 [-> Hr1]. eapply act_post_mono; [apply handle_index_file_ok; by rewrite Hr1|]. intros res r' [? ?]. by split.
  - destruct Hres as [|Hres]; [done|]. eapply act_post_mono; [by apply handle_remove_file_ok|]. intros res r' [? ?]. by split.
  - destruct Hres as [|Hres]; [done|]. eapply act_post_mono; [by apply handle_rename_file_ok|]. intros res r' [? ?]. by split.
  - destruct Hres as [|Hres]; [done|]. by split.
Qed.
(** C35: Resolving a part of the links is enough: if every link of the index is resolved, or
    the job is a full rebuild, then after the job every link is resolved again - resolving
    all of them once more would change nothing. This holds after jobs that fail to read
    a note as well; only a rebuild that fails half way leaves links unresolved. *)
Theorem links_stay_resolved job r res r' :
  tables_ok (rt_db r) → (is_full_rebuild job = true ∨ resolve_all_wikilinks (rt_db r) = rt_db r) →
  handle_job fs root now sees job r = (res, r') →
  tables_ok (rt_db r') ∧ (is_full_rebuild job = false ∨ res = Ok tt → resolve_all_wikilinks (rt_db r') = rt_db r').
Proof.
  intros Hok Hres Hrun.
  assert (Hres' : is_full_rebuild job = true ∨ links_resolved (rt_db r)).
  { destruct Hres as [|Hres]; [by left|]. right. by apply links_resolved_fixed. }
  destruct (act_post_elim _ _ _ _ _ (handle_job_ok job r Hok Hres') Hrun) as [Hok' Hend].
  split; [done|]. intros Hend'. apply links_resolved_fixed; auto.
Qed.
End rebuild.
