(* ===== verification/SearchRuntime.v ===== *)
(** * Requests to the index (search/mod.rs)

    What the application asks of the index: notices that a note was written, removed or
    renamed, rebuilds, a new configuration, another vault. Requests are turned into
    jobs for the writer, and jobs that a waiting one covers are left out. *)
From Stdlib Require Import Ascii String.
#[local] Set Warnings "-clear-no-such-hyp".
From S2P Require Import Prelude Text Paths SyncDb Scanner Chars Indexer Wikilinks Extract SearchLinks SearchDb SearchWriter.

(** ** Notices *)

Definition note_coalesced_index (d : IndexerDebugStatus) : IndexerDebugStatus :=
  {| ds_last_job := ds_last_job d; ds_last_rebuild_reason := ds_last_rebuild_reason d;
     ds_queued_rebuild_reason := ds_queued_rebuild_reason d;
     ds_coalesced_rebuild_count := ds_coalesced_rebuild_count d;
     ds_coalesced_index_count := S (ds_coalesced_index_count d) |}.
Definition clear_pending_index_path (path : string) : Writer unit := modify (with_pending (λ p, p ∖ {[path]})).
Definition enqueue_index_job (path source : string) : Writer unit :=
  rebuild ← gets rt_rebuild_state;
  if queued rebuild && negb (running rebuild) then modify (with_debug note_coalesced_index)
  else
    pending ← gets rt_pending_index_paths;
    if bool_decide (path ∈ pending) then modify (with_debug note_coalesced_index)
    else
      _ ← modify (with_pending (λ p, {[path]} ∪ p));
      sent ← attempt (send (IndexFile path source));
      match sent with
      | Ok _ => mret tt
      | Err error =>
          _ ← clear_pending_index_path path;
          lift (Err ("Failed to enqueue index job: " +:+ error))
      end.
Definition notify_written_with_source (path source : string) : Writer unit :=
  if negb (is_markdown_path path) then mret tt
  else
    config ← gets rt_config;
    if negb (incremental_updates config) then queue_rebuild source
    else enqueue_index_job path source.
Definition send_or_fail (what : string) (job : WriterJob) : Writer unit := λ r,
  let '(res, r) := send job r in (map_err (λ e, "Failed to enqueue " +:+ what +:+ " job: " +:+ e) res, r).
Definition notify_removed_with_source (path : string) (is_dir : bool) (source : string) : Writer unit :=
  config ← gets rt_config;
  if negb (incremental_updates config) then queue_rebuild source
  else
    _ ← clear_pending_index_path path;
    send_or_fail "remove" (RemoveFile path is_dir source).
Definition notify_renamed_with_source (old_path new_path : string) (is_dir : bool) (source : string) : Writer unit :=
  config ← gets rt_config;
  if negb (incremental_updates config) then queue_rebuild source
  else
    _ ← clear_pending_index_path old_path;
    _ ← clear_pending_index_path new_path;
    send_or_fail "rename" (RenameFile old_path new_path is_dir source).

Record FileChangeEvent := { fc_kind : string; fc_path : string; fc_old_path : option string; fc_is_dir : bool }.
Definition handle_watcher_event (event : FileChangeEvent) : Writer unit :=
  if bool_decide (fc_kind event = "create") || bool_decide (fc_kind event = "modify")
  then notify_written_with_source (fc_path event) "external-watch"
  else if bool_decide (fc_kind event = "delete")
  then notify_removed_with_source (fc_path event) (fc_is_dir event) "external-watch"
  else if bool_decide (fc_kind event = "rename")
  then notify_renamed_with_source (default "" (fc_old_path event)) (fc_path event) (fc_is_dir event) "external-watch"
  else mret tt.
(** A note that was loaded with a newer time than the index has *)
Definition reconcile_loaded_markdown (fs : Fs) (root : AbsPath) (path : string) : Writer unit :=
  if negb (is_markdown_path path) then mret tt
  else
    config ← gets rt_config;
    if negb (incremental_updates config) then mret tt
    else match fs !! path_join root path with
         | Some (File _ mtime) =>
             if (mtime <? 0)%Z then mret tt
             else
               db ← gets rt_db;
               let should_queue := match load_document_freshness db path with
                                   | None => true
                                   | Some stored => (sf_mtime_ms stored <? mtime)%Z
                                   end in
               if should_queue then send_or_fail "load reconcile" (IndexFile path "load-stale-reconcile") else mret tt
         | _ => mret tt
         end.

(** ** The manager *)

Inductive ConfigChangeEffect := Noop | RuntimeOnly | Rebuild | RestartAndRebuild.
#[export] Instance ConfigChangeEffect_eq_dec : EqDecision ConfigChangeEffect.
Proof. solve_decision. Defined.
Definition config_change_effect (previous next : IndexerConfig) : ConfigChangeEffect :=
  if bool_decide (previous = next) then Noop
  else if negb (bool_decide (storage_location previous = storage_location next)) then RestartAndRebuild
  else if negb (bool_decide (resolution_policy previous = resolution_policy next)) then Rebuild
  else RuntimeOnly.
(** [SearchManager]; a runtime that was replaced still has jobs its thread works through,
    up to the one that stops it. *)
Record SearchManager := {
  sm_runtime : option SearchRuntime;
  sm_config : IndexerConfig;
  sm_retired : list SearchRuntime }.
Abbreviation Manager := (Act SearchManager string).
Definition set_runtime (m : SearchManager) (r : option SearchRuntime) : SearchManager :=
  {| sm_runtime := r; sm_config := sm_config m; sm_retired := sm_retired m |}.
(** [with_runtime_result] *)
Definition with_runtime_result (f : Writer unit) : Manager unit := λ m,
  match sm_runtime m with
  | None => (Ok tt, m)
  | Some r => let '(res, r) := f r in (res, set_runtime m (Some r))
  end.
Definition request_rebuild_with_reason (reason : string) : Manager unit := with_runtime_result (queue_rebuild reason).
Definition request_rebuild : Manager unit := request_rebuild_with_reason "manual-rebuild".
Definition retire (m : SearchManager) : list SearchRuntime :=
  match sm_runtime m with Some r => (attempt (send Shutdown) r).2 :: sm_retired m | None => sm_retired m end.
Definition close_runtime : Manager unit := λ m,
  (Ok tt, {| sm_runtime := None; sm_config := sm_config m; sm_retired := retire m |}).
Definition new_runtime (db : SearchTables) (config : IndexerConfig) : SearchRuntime :=
  {| rt_db := db; rt_jobs := []; rt_alive := true; rt_pending_index_paths := ∅;
     rt_status := IndexerStatus_default; rt_debug_status := IndexerDebugStatus_default;
     rt_rebuild_state := {| queued := false; running := false; rerun := false |}; rt_config := config |}.
(** [switch_vault_internal]: [file] is the database file at the place the vault and the
    storage location give, or the error of reaching it. *)
Definition switch_vault_internal (file : IndexerStorageLocation → Result string SearchFile) (request_reindex_on_open : bool)
  : Manager unit :=
  config ← gets sm_config;
  f ← lift (file (storage_location config));
  opened ← lift (open_connection f);
  let '(f, reset_applied) := (opened : SearchFile * bool) in
  _ ← modify (λ m, {| sm_runtime := Some (new_runtime (sf_tables f) config); sm_config := sm_config m; sm_retired := retire m |});
  if (reset_applied : bool) then request_rebuild_with_reason "index-version-mismatch"
  else if request_reindex_on_open && reindex_on_vault_open config then request_rebuild_with_reason "vault-open"
  else mret tt.
Definition switch_vault (file : IndexerStorageLocation → Result string SearchFile) : Manager unit := switch_vault_internal file true.
Definition set_runtime_config (config : IndexerConfig) (r : SearchRuntime) : SearchRuntime :=
  {| rt_db := rt_db r; rt_jobs := rt_jobs r; rt_alive := rt_alive r; rt_pending_index_paths := rt_pending_index_paths r;
     rt_status := rt_status r; rt_debug_status := rt_debug_status r; rt_rebuild_state := rt_rebuild_state r;
     rt_config := config |}.
Definition set_config (file : IndexerStorageLocation → Result string SearchFile) (config : IndexerConfig) : Manager unit :=
  m ← gets (λ m, m);
  let effect := config_change_effect (sm_config m) config in
  match effect with
  | Noop => mret tt
  | _ =>
      let restart := match sm_runtime m, effect with Some _, RestartAndRebuild => true | _, _ => false end in
      _ ← modify (λ m, {| sm_runtime := match effect with
                                        | RestartAndRebuild => sm_runtime m
                                        | _ => set_runtime_config config <$> sm_runtime m
                                        end;
                          sm_config := config; sm_retired := sm_retired m |});
      _ ← (if restart then switch_vault_internal file false else mret tt);
      match effect with
      | Rebuild => request_rebuild_with_reason "config-resolution-policy"
      | RestartAndRebuild => request_rebuild_with_reason "config-storage-location"
      | _ => mret tt
      end
  end.
