(* ===== verification/SearchCatchUp.v ===== *)
(** * The index catches up with the vault

    Notes change, notices of the changes arrive later, jobs are queued, dropped and
    worked off by another thread: when everything has come to rest, the index holds the
    notes as they are. One kind of notice must not be dropped for this, and the last part
    shows what happens when it is. *)
From Stdlib Require Import Ascii String.
From stdpp Require Import functions.
#[local] Set Warnings "-clear-no-such-hyp".
From S2P Require Import Prelude Text Paths SyncDb Scanner Chars Indexer Wikilinks Extract SearchLinks SearchDb SearchWriter SearchIncremental SearchRebuild SearchRuntime.

(** ** What jobs do to the queue and to the documents *)

(** A job's end leaves the queue alone. *)
Definition same_queue (r r' : SearchRuntime) : Prop :=
  rt_jobs r' = rt_jobs r ∧ rt_alive r' = rt_alive r ∧ rt_pending_index_paths r' = rt_pending_index_paths r ∧
  rt_rebuild_state r' = rt_rebuild_state r ∧ rt_config r' = rt_config r.
Lemma same_queue_trans r1 r2 r3 : same_queue r1 r2 → same_queue r2 r3 → same_queue r1 r3.
Proof. unfold same_queue. intros (? & ? & ? & ? & ?) (? & ? & ? & ? & ?). split_and!; congruence. Qed.

Section effects.
Context `{Unicode, !UnicodeFold, YamlValues, MarkdownParser, Blake3, Os, IndexJson}.

Lemma refresh_idle_status_queue now r : ∃ r', refresh_idle_status now r = (Ok tt, r') ∧ rt_db r' = rt_db r ∧ same_queue r r'.
Proof.
  unfold refresh_idle_status, gets, mbind, act_bind. destruct (load_link_counts (rt_db r)) as [[a b] c].
  eexists. split; [reflexivity|done].
Qed.
Lemma job_tail f now g r r' :
  (_ ← modify (with_db f); _ ← refresh_idle_status now; modify (with_debug g)) r = (Ok tt, r') →
  rt_db r' = f (rt_db r) ∧ same_queue r r'.
Proof.
  unfold mbind, act_bind, modify. cbn. destruct (refresh_idle_status_queue now (with_db f r)) as (r1 & -> & Hdb & Hq).
  intros [= <-]. split; [exact Hdb|exact Hq].
Qed.
Lemma rereresolve_documents plan db : db_documents (rereresolve_wikilinks plan db) = db_documents db.
Proof.
  unfold rereresolve_wikilinks. destruct (plan_is_empty plan); [done|].
  generalize (DocIndex_new (load_doc_identities db)) (List.filter (should_reresolve_row plan) (load_wikilink_rows db)).
  intros index rows. revert db. induction rows as [|row rows IH]; intros db; [done|]. simpl. by rewrite IH.
Qed.
Lemma planned_tail plan now g db r r' :
  (_ ← modify (with_db (λ _, db)); _ ← modify (with_db (rereresolve_wikilinks plan)); _ ← refresh_idle_status now;
   modify (with_debug g)) r = (Ok tt, r') →
  db_documents (rt_db r') = db_documents db ∧ same_queue r r'.
Proof.
  intros (u & r1 & Ha & Hrest)%act_bind_Ok. injection Ha as <- <-. apply job_tail in Hrest as [-> Hq].
  split; [|done]. by rewrite rereresolve_documents.
Qed.
Lemma handle_index_file_effect fs root now path source r r' :
  handle_index_file fs root now path source r = (Ok tt, r') → is_markdown_path path = true →
  same_queue r r' ∧ ∃ maybe_doc, build_document fs root now (rt_db r) path = Ok maybe_doc ∧
    ((∃ doc, maybe_doc = Some doc ∧
        ((∃ row, db_documents (rt_db r) !! path = Some row ∧ dr_content_checksum row = Some (id_content_checksum doc) ∧
            db_documents (rt_db r') = db_documents (update_document_freshness (rt_db r) path (id_mtime_ms doc) (id_content_checksum doc))) ∨
         db_documents (rt_db r') = db_documents (replace_document (rt_db r) doc).2)) ∨
     maybe_doc = None ∧ db_documents (rt_db r') = db_documents (remove_document (rt_db r) path).2).
Proof.
  unfold handle_index_file. intros Hrun Hmd. rewrite Hmd in Hrun. cbn [negb] in Hrun.
  apply act_bind_Ok in Hrun as (u & r1 & Ha & Hrun). injection Ha as <- Hr1.
  apply act_bind_Ok in Hrun as (db & r2 & Hg & Hrun). injection Hg as Hdb <-.
  apply act_lift_Ok in Hrun as (maybe_doc & Hbuild & Hrun).
  assert (Hr : rt_db r1 = rt_db r) by (by rewrite <- Hr1). rewrite Hr in Hdb. subst db.
  assert (Hq1 : same_queue r r1) by (by rewrite <- Hr1).
  destruct maybe_doc as [doc|].
  - destruct (build_document_Some _ _ _ _ _ _ Hbuild) as (Hid & _ & _). case_bool_decide as Hfresh.
    + apply job_tail in Hrun as [Hd Hq]. split; [by eapply same_queue_trans|]. eexists. split; [done|]. left.
      exists doc. split; [done|]. left. unfold load_document_freshness in Hfresh.
      destruct (db_documents (rt_db r) !! path) as [row|] eqn:Hrow; [|done]. exists row. split_and!; [done|done|].
      by rewrite Hd, Hr, Hid.
    + destruct (replace_document (rt_db r) doc) as [n db'] eqn:Hrep. cbv zeta in Hrun. apply planned_tail in Hrun as [Hd Hq].
      split; [by eapply same_queue_trans|]. eexists. split; [done|]. left. exists doc. split; [done|]. right. rewrite Hrep. exact Hd.
  - destruct (remove_document (rt_db r) path) as [n db'] eqn:Hrem. cbv zeta in Hrun. apply planned_tail in Hrun as [Hd Hq].
    split; [by eapply same_queue_trans|]. eexists. split; [done|]. right. split; [done|exact Hd].
Qed.
Lemma handle_remove_file_effect now path source r r' :
  handle_remove_file now path false source r = (Ok tt, r') →
  same_queue r r' ∧ db_documents (rt_db r') =
    if is_markdown_path path then db_documents (remove_document (rt_db r) path).2 else db_documents (rt_db r).
Proof.
  unfold handle_remove_file. destruct (is_markdown_path path); cbn [negb]; [|by intros [= <-]].
  cbv zeta. intros (db & r2 & Hg & Hrun)%act_bind_Ok. injection Hg as <- <-.
  destruct (remove_document (rt_db r) path) as [n db'] eqn:Hrem. apply planned_tail in Hrun as [Hd Hq].
  split; [done|]. exact Hd.
Qed.
Lemma handle_rename_file_effect fs root now old_path new_path source r r' :
  handle_rename_file fs root now old_path new_path false source r = (Ok tt, r') →
  same_queue r r' ∧ ∃ maybe_doc,
    (if is_markdown_path new_path then build_document fs root now (rt_db r) new_path else Ok None) = Ok maybe_doc ∧
    let db1 := if is_markdown_path old_path then (remove_document (rt_db r) old_path).2 else rt_db r in
    db_documents (rt_db r') =
      match maybe_doc with
      | Some doc => db_documents (replace_document db1 (renamed_document (find_note_uid_by_doc_id (rt_db r) old_path) doc)).2
      | None => db_documents db1
      end.
Proof.
  unfold handle_rename_file. cbv zeta. intros (db & r2 & Hg & Hrun)%act_bind_Ok. injection Hg as <- <-.
  apply act_lift_Ok in Hrun as (maybe_doc & Hbuild & Hrun).
  set (db1 := if is_markdown_path old_path then _ else _) in *.
  destruct maybe_doc as [doc|].
  - destruct (replace_document db1 _) as [n db'] eqn:Hrep. apply planned_tail in Hrun as [Hd Hq].
    split; [done|]. eexists. split; [done|].
    etransitivity; [exact Hd|]. symmetry. exact (f_equal (λ x, db_documents x.2) Hrep).
  - apply planned_tail in Hrun as [Hd Hq]. split; [done|]. eexists. split; [done|]. done.
Qed.
End effects.

(** ** Every row of the index describes a text *)

Section described.
Context `{Unicode, !UnicodeFold, YamlValues, MarkdownParser, Blake3, Os, IndexJson}.

(** Each note of the index is there with the title, chunks and links of one text. *)
Definition all_described (db : SearchTables) : Prop :=
  ∀ p row, db_documents db !! p = Some row →
    ∃ mtime content, describes_as db (document_of None p mtime content) (dr_note_uid row).

Lemma replace_described db p mtime content uid : tables_ok db → all_described db →
  all_described (replace_document db (with_uid uid (document_of None p mtime content))).2.
Proof.
  intros Hok Hall q row Hrow. set (doc := with_uid uid _) in *.
  assert (Hdoc : document_ok doc) by apply wikilink_rows_of_ok.
  assert (Hu : uids (replace_document db doc).2 !! q = Some (dr_note_uid row)) by (apply uids_lookup; eauto).
  apply uids_replaced in Hu as [[-> Hu]|(Hne & Hnu & Hold)]; [| |done..].
  - exists mtime, content. rewrite Hu. exact (replace_describes db doc Hok Hdoc).
  - apply uids_lookup in Hold as (row0 & Hrow0 & Heq). destruct (Hall q row0 Hrow0) as (m & c & Hdesc).
    exists m, c. rewrite <- Heq. apply replace_keeps_other; [done|done|done|exact Hne|congruence].
Qed.
Lemma remove_described db p : tables_ok db → all_described db → all_described (remove_document db p).2.
Proof.
  intros Hok Hall q row Hrow. pose proof (remove_document_spec db p Hok) as Hspec.
  pose proof (λ m c u Hd, remove_keeps_other db p (document_of None q m c) u Hok Hd) as Hkeep.
  destruct (remove_document db p) as [n db']. destruct Hspec as (_ & Hd & _). simpl in *.
  rewrite Hd in Hrow. apply lookup_delete_Some in Hrow as [Hne Hrow]. destruct (Hall q row Hrow) as (m & c & Hdesc).
  exists m, c. by apply Hkeep.
Qed.
Lemma freshness_described db p mtime checksum row : db_documents db !! p = Some row →
  dr_content_checksum row = Some checksum → all_described db → all_described (update_document_freshness db p mtime checksum).
Proof.
  intros Hp Hsum Hall q row' Hrow'. simpl in Hrow'. apply lookup_alter_Some in Hrow' as [(-> & row0 & Hrow0 & ->)|[Hne Hrow']].
  - assert (row0 = row) as -> by congruence. destruct (Hall q row Hp) as (m & c & Hdesc & Hrest). exists mtime, c.
    split; [|exact Hrest]. simpl in *. rewrite lookup_alter_eq, Hp. simpl. f_equal.
    rewrite Hp in Hdesc. injection Hdesc as Hdesc. rewrite Hdesc in Hsum |- *. simpl in *. unfold document_row. simpl. congruence.
  - destruct (Hall q row' Hrow') as (m & c & Hdesc & Hrest). exists m, c. split; [|exact Hrest]. simpl in *.
    by rewrite lookup_alter_ne.
Qed.
Lemma rereresolve_described plan db : tables_ok db → all_described db → all_described (rereresolve_wikilinks plan db).
Proof.
  intros Hok Hall p row Hrow. rewrite rereresolve_documents in Hrow. destruct (Hall p row Hrow) as (m & c & Hd).
  exists m, c. by apply rereresolve_describes.
Qed.

Lemma planned_end_described plan now g db r : tables_ok db → all_described db →
  act_post (_ ← modify (with_db (λ _, db)); _ ← modify (with_db (rereresolve_wikilinks plan)); _ ← refresh_idle_status now;
    modify (with_debug g)) r (λ _ r', all_described (rt_db r')).
Proof.
  intros Hok Hall. unfold act_post.
  destruct (job_end (rereresolve_wikilinks plan) now g (with_db (λ _, db) r)) as (r' & Hrun & Hr').
  unfold mbind, act_bind, modify in *. cbn in *. rewrite Hrun. cbn. rewrite Hr'. by apply rereresolve_described.
Qed.
(** A document that was read is that of the text of the file. *)
Lemma file_document_text fs root now p doc : file_document fs root now p = Some doc →
  ∃ mtime content, doc = document_of None p mtime content.
Proof.
  unfold file_document. destruct (negb _); [done|]. destruct (stat fs _) as [[content mtime| |]|]; try done.
  destruct (utf8_valid content); [|done]. intros [= <-]. by eexists _, _.
Qed.
Lemma build_document_text fs root now db p doc : build_document fs root now db p = Ok (Some doc) →
  ∃ mtime content, doc = with_uid (note_uid_for db p) (document_of None p mtime content).
Proof.
  intros Hb%build_document_file. symmetry in Hb. apply fmap_Some in Hb as (doc0 & Hdoc0 & ->).
  destruct (file_document_text _ _ _ _ _ Hdoc0) as (m & c & ->). by eexists _, _.
Qed.
Lemma replaced_ok db doc : tables_ok db → document_ok doc → tables_ok (replace_document db doc).2.
Proof.
  intros Hok Hdoc. pose proof (replace_document_spec db doc Hok Hdoc) as Hspec. cbv zeta in Hspec.
  destruct (replace_document db doc) as [n db']. by destruct Hspec as (_ & _ & _ & _ & ?).
Qed.
Lemma removed_tables_ok db p : tables_ok db → tables_ok (remove_document db p).2.
Proof.
  intros Hok. pose proof (remove_document_spec db p Hok) as Hspec.
  destruct (remove_document db p) as [n db']. by destruct Hspec as (_ & _ & _ & _ & _ & ?).
Qed.

Lemma handle_index_file_described fs root now path source r : tables_ok (rt_db r) → all_described (rt_db r) →
  act_post (handle_index_file fs root now path source) r (λ _ r', all_described (rt_db r')).
Proof.
  intros Hok Hall. unfold handle_index_file. destruct (negb _); [done|].
  apply act_post_bind. change (act_post ?m ?w ?Q) with (Q (m w).1 (m w).2). cbn [modify fst snd].
  set (r1 := with_status _ r). assert (Hr1 : rt_db r1 = rt_db r) by done.
  apply (act_post_gets rt_db). rewrite Hr1. apply act_post_lift; [|intros e _; exact Hall].
  intros [doc|] Hbuild.
  - destruct (build_document_Some _ _ _ _ _ _ Hbuild) as (Hid & _ & Hdoc).
    apply build_document_text in Hbuild as (mtime & content & ->). case_bool_decide as Hfresh.
    + unfold act_post. set (doc := with_uid _ _) in *.
      destruct (job_end (λ db, update_document_freshness db (id_doc_id doc) (id_mtime_ms doc) (id_content_checksum doc))
        now (record_last_job "index-file-skip" (Some path) source) r1) as (r' & -> & Hr'). cbn. rewrite Hr', Hr1.
      unfold load_document_freshness in Hfresh. destruct (db_documents (rt_db r) !! path) as [row|] eqn:Hrow; [|done].
      by eapply freshness_described.
    + pose proof (replaced_ok _ _ Hok Hdoc) as Hok'. pose proof (replace_described _ path mtime content (note_uid_for (rt_db r) path) Hok Hall) as Hall'.
      destruct (replace_document _ _) as [n db']. cbv zeta. by apply planned_end_described.
  - pose proof (removed_tables_ok _ path Hok) as Hok'. pose proof (remove_described _ path Hok Hall) as Hall'.
    destruct (remove_document _ _) as [n db']. cbv zeta. by apply planned_end_described.
Qed.
Lemma handle_remove_file_described now path is_dir source r : tables_ok (rt_db r) → all_described (rt_db r) →
  act_post (handle_remove_file now path is_dir source) r (λ _ r', all_described (rt_db r')).
Proof.
  intros Hok Hall. unfold handle_remove_file. destruct is_dir.
  { unfold act_post. destruct (queue_rebuild_db "directory-mutation" r) as (r' & -> & Hr'). cbn. by rewrite Hr'. }
  destruct (negb _); [done|]. cbv zeta. apply (act_post_gets rt_db).
  pose proof (removed_tables_ok _ path Hok) as Hok'. pose proof (remove_described _ path Hok Hall) as Hall'.
  destruct (remove_document _ _) as [n db']. by apply planned_end_described.
Qed.
Lemma handle_rename_file_described fs root now old_path new_path is_dir source r :
  tables_ok (rt_db r) → all_described (rt_db r) →
  act_post (handle_rename_file fs root now old_path new_path is_dir source) r (λ _ r', all_described (rt_db r')).
Proof.
  intros Hok Hall. unfold handle_rename_file. destruct is_dir.
  { unfold act_post. destruct (queue_rebuild_db "directory-mutation" r) as (r' & -> & Hr'). cbn. by rewrite Hr'. }
  cbv zeta. apply (act_post_gets rt_db). apply act_post_lift; [|done]. intros maybe_new_doc Hbuild.
  set (db1 := if is_markdown_path old_path then _ else _).
  assert (Hdb1 : tables_ok db1 ∧ all_described db1).
  { unfold db1. destruct (is_markdown_path old_path); [|done]. split; [by apply removed_tables_ok|by apply remove_described]. }
  destruct Hdb1 as [Hok1 Hall1]. destruct maybe_new_doc as [doc|]; [|by apply planned_end_described].
  destruct (is_markdown_path new_path); [|done].
  destruct (build_document_Some _ _ _ _ _ _ Hbuild) as (_ & _ & Hdoc).
  apply build_document_text in Hbuild as (mtime & content & ->).
  set (old_uid := find_note_uid_by_doc_id (rt_db r) old_path).
  change (renamed_document old_uid (with_uid (note_uid_for (rt_db r) new_path) (document_of None new_path mtime content)))
    with (with_uid old_uid (document_of None new_path mtime content)).
  pose proof (replaced_ok db1 (with_uid old_uid (document_of None new_path mtime content)) Hok1 Hdoc) as Hok'.
  pose proof (replace_described db1 new_path mtime content old_uid Hok1 Hall1) as Hall'.
  destruct (replace_document _ _) as [n db']. by apply planned_end_described.
Qed.
(** A rebuild keeps this for the notes that it does not read again, too. *)
Lemma replace_all_described docs db :
  Forall (λ doc, ∃ p mtime content uid, doc = with_uid uid (document_of None p mtime content)) docs →
  tables_ok db → all_described db → all_described (foldl (λ db doc, (replace_document db doc).2) db docs).
Proof.
  intros Hdocs. revert db. induction Hdocs as [|doc docs (p & mtime & content & uid & ->) _ IH]; intros db Hok Hall; [done|].
  simpl. apply IH; [|by apply replace_described]. apply replaced_ok; [done|]. apply wikilink_rows_of_ok.
Qed.
Lemma rebuild_batches_described root now sees total bs idx r : tables_ok (rt_db r) → all_described (rt_db r) →
  act_post (act_fold (rebuild_batch root now sees total) idx bs) r (λ _ r', tables_ok (rt_db r') ∧ all_described (rt_db r')).
Proof.
  intros Hok Hall. apply (act_post_fold (λ r, tables_ok (rt_db r) ∧ all_described (rt_db r))); [done|].
  intros i b r1 _ [Hok1 Hall1]. unfold rebuild_batch. apply (act_post_gets rt_db). apply act_post_lift; [|done].
  intros docs Hdocs%build_batch_docs. unfold act_post, mbind, act_bind, modify. cbn.
  assert (Htexts : Forall (λ doc, ∃ p mtime content uid, doc = with_uid uid (document_of None p mtime content)) docs).
  { rewrite Hdocs. apply Forall_forall. intros doc (p & _ & Hdoc)%list_elem_of_omap.
    apply fmap_Some in Hdoc as (d & Hd & ->). destruct (file_document_text _ _ _ _ _ Hd) as (m & c & ->). by eexists _, _, _, _. }
  split; [|by apply replace_all_described]. apply replace_all_ok; [|done].
  eapply Forall_impl; [exact Htexts|]. intros doc (p & m & c & u & ->). apply wikilink_rows_of_ok.
Qed.
Lemma remove_stale_described files db : tables_ok db → all_described db → all_described (remove_stale files db).
Proof.
  unfold remove_stale. generalize (List.filter (λ doc_id, negb (bool_decide (doc_id ∈ files))) (list_indexed_doc_ids db)).
  intros l. revert db. induction l as [|p l IH]; intros db Hok Hall; [done|]. cbn [foldl]. apply IH.
  - by apply removed_tables_ok.
  - by apply remove_described.
Qed.
Lemma rebuild_index_described fs root now sees reason r : tables_ok (rt_db r) → all_described (rt_db r) →
  act_post (rebuild_index fs root now sees reason) r (λ _ r', all_described (rt_db r')).
Proof.
  intros Hok Hall. unfold rebuild_index. apply act_post_lift; [|done]. intros files _. cbv zeta.
  apply act_post_bind. change (act_post ?m ?w ?Q) with (Q (m w).1 (m w).2). cbn [modify fst snd].
  apply act_post_bind. eapply act_post_mono; [by apply rebuild_batches_described|].
  intros [idx|e] r1 [Hok1 Hall1]; [|done].
  set (stale := remove_stale (sort_by str_leb files)). unfold act_post.
  destruct (job_end resolve_all_wikilinks now (record_last_job "full-rebuild" None reason) (with_db stale r1)) as (r' & Hrun & Hr').
  unfold mbind, act_bind, modify in *. cbn in *. rewrite Hrun. cbn. rewrite Hr'. intros p row Hrow.
  destruct (remove_stale_spec (sort_by str_leb files) (rt_db r1) Hok1) as (Hok2 & _).
  destruct (resolve_all_refs _ Hok2) as (Hd & _). unfold stale in Hrow. rewrite Hd in Hrow.
  destruct (remove_stale_described _ _ Hok1 Hall1 p row Hrow) as (m & c & Hdesc). exists m, c. by apply resolve_all_describes.
Qed.
Lemma handle_job_described fs root now sees job r : is_full_rebuild job = false → tables_ok (rt_db r) → all_described (rt_db r) →
  act_post (handle_job fs root now sees job) r (λ _ r', all_described (rt_db r')).
Proof.
  intros Hnot Hok Hall. destruct job as [reason|path source|path is_dir source|old new is_dir source|]; simpl in *; [done|..|done].
  - apply act_post_bind. apply (act_post_mono _ _ (λ res r1, res = Ok tt ∧ rt_db r1 = rt_db r)); [by split|].
    intros res1 r1 [-> Hr1]. apply handle_index_file_described; by rewrite Hr1.
  - by apply handle_remove_file_described.
  - by apply handle_rename_file_described.
Qed.
End described.

(** ** The index as a map of checksums *)

Section checksums.
Context `{Unicode, !UnicodeFold, YamlValues, MarkdownParser, Blake3, Os, IndexJson}.
Context (root : AbsPath) (now : Z).
(** The paths notes may have: no two of them differ in the case of ASCII letters only. *)
Context (regular : string → Prop).
Hypothesis regular_distinct : ∀ p q, regular p → regular q → eq_ignore_ascii_case p q = true → p = q.
Hypothesis regular_markdown : ∀ p, regular p → is_markdown_path p = true.

Definition note_checksum (fs : Fs) (p : string) : option string := id_content_checksum <$> file_document fs root now p.
Definition index_checksum (db : SearchTables) (p : string) : option (option string) :=
  dr_content_checksum <$> db_documents db !! p.
Definition up_to_date (fs : Fs) (db : SearchTables) (p : string) : Prop :=
  index_checksum db p = Some <$> note_checksum fs p.
Definition keys_regular (db : SearchTables) : Prop := ∀ p, is_Some (db_documents db !! p) → regular p.

Lemma index_checksum_documents db db' p : db_documents db' = db_documents db → index_checksum db' p = index_checksum db p.
Proof. unfold index_checksum. by intros ->. Qed.
Lemma keys_regular_documents db db' : db_documents db' = db_documents db → keys_regular db → keys_regular db'.
Proof. unfold keys_regular. by intros ->. Qed.
Lemma replace_checksums db doc : tables_ok db → document_ok doc → regular (id_doc_id doc) → keys_regular db →
  let db' := (replace_document db doc).2 in
  index_checksum db' (id_doc_id doc) = Some (Some (id_content_checksum doc)) ∧ keys_regular db' ∧
  ∀ q, q ≠ id_doc_id doc → uids db !! q ≠ Some (uid_for db doc) → index_checksum db' q = index_checksum db q.
Proof.
  intros Hok Hdoc Hreg Hkeys. pose proof (replace_document_spec db doc Hok Hdoc) as Hspec. cbv zeta in Hspec.
  destruct (replace_document db doc) as [n db']. destruct Hspec as (_ & Hd & _). simpl. unfold index_checksum, keys_regular. rewrite Hd.
  split_and!.
  - by rewrite lookup_insert_eq.
  - intros p [row Hrow]. apply lookup_insert_Some in Hrow as [[<- _]|[_ Hrow]]; [done|].
    apply map_lookup_filter_Some in Hrow as [Hrow _]. apply Hkeys. eauto.
  - intros q Hq Hu. rewrite lookup_insert_ne by done. f_equal. apply option_eq. intros row.
    rewrite map_lookup_filter_Some. simpl. split; [by intros [? _]|]. intros Hrow. split_and!; [done|done|].
    intros Heq. apply Hu, uids_lookup. eauto.
Qed.
Lemma remove_checksums db doc_id : tables_ok db → keys_regular db →
  let db' := (remove_document db doc_id).2 in
  index_checksum db' doc_id = None ∧ keys_regular db' ∧ ∀ q, q ≠ doc_id → index_checksum db' q = index_checksum db q.
Proof.
  intros Hok Hkeys. pose proof (remove_document_spec db doc_id Hok) as Hspec.
  destruct (remove_document db doc_id) as [n db']. destruct Hspec as (_ & Hd & _). simpl. unfold index_checksum, keys_regular. rewrite Hd.
  split_and!.
  - by rewrite lookup_delete_eq.
  - intros p [row Hrow]. apply lookup_delete_Some in Hrow as [_ Hrow]. apply Hkeys. eauto.
  - intros q Hq. by rewrite lookup_delete_ne.
Qed.
(** No other note has the number a regular path takes over. *)
Lemma uid_for_other db doc q : tables_ok db → keys_regular db → regular (id_doc_id doc) →
  id_note_uid doc = note_uid_for db (id_doc_id doc) → q ≠ id_doc_id doc → uids db !! q ≠ Some (uid_for db doc).
Proof.
  intros Hok Hkeys Hreg Huid Hq Hu. unfold uid_for in Hu. rewrite Huid in Hu.
  destruct (note_uid_for db (id_doc_id doc)) as [v|] eqn:Hv; simpl in Hu.
  - apply note_uid_for_spec in Hv as (id & Hid & Hcase). apply Hq.
    apply uids_lookup in Hu as (r & Hr & Hru), Hid as (s & Hs & Hsu).
    assert (q = id) as -> by (eapply (uids_distinct _ Hok); [done|done|congruence]).
    apply regular_distinct; [apply Hkeys; eauto|done|done].
  - apply uids_lookup in Hu as (r & Hr & Hru). pose proof (uids_given _ Hok _ _ Hr). lia.
Qed.

Lemma handle_index_file_checksums fs path source r r' :
  tables_ok (rt_db r) → keys_regular (rt_db r) → regular path →
  handle_index_file fs root now path source r = (Ok tt, r') →
  same_queue r r' ∧ keys_regular (rt_db r') ∧ up_to_date fs (rt_db r') path ∧
  ∀ q, q ≠ path → index_checksum (rt_db r') q = index_checksum (rt_db r) q.
Proof.
  intros Hok Hkeys Hreg Hrun. apply handle_index_file_effect in Hrun as (Hq & maybe_doc & Hbuild & Heffect); [|by apply regular_markdown].
  split; [done|]. pose proof (build_document_file _ _ _ _ _ _ Hbuild) as Hfile. unfold up_to_date, note_checksum.
  destruct Heffect as [(doc & -> & [(row & Hrow & Hsum & Hd)|Hd])|[-> Hd]].
  - symmetry in Hfile. apply fmap_Some in Hfile as (doc0 & Hdoc0 & ->). rewrite Hdoc0.
    assert (Hsame : ∀ q, index_checksum (rt_db r') q = index_checksum (rt_db r) q).
    { intros q. unfold index_checksum. rewrite Hd. simpl. destruct (decide (q = path)) as [->|Hne].
      - rewrite lookup_alter_eq, Hrow. simpl. by rewrite Hsum.
      - by rewrite lookup_alter_ne. }
    split_and!.
    + intros p Hp. apply Hkeys. specialize (Hsame p). unfold index_checksum in Hsame.
      destruct Hp as [row' Hrow']. rewrite Hrow' in Hsame. destruct (db_documents (rt_db r) !! p); [eauto|done].
    + rewrite Hsame. unfold index_checksum. rewrite Hrow. simpl. by rewrite Hsum.
    + done.
  - symmetry in Hfile. apply fmap_Some in Hfile as (doc0 & Hdoc0 & Heq). rewrite Hdoc0. simpl.
    destruct (build_document_Some _ _ _ _ _ _ Hbuild) as (Hid & Huid & Hdoc).
    destruct (replace_checksums (rt_db r) doc Hok Hdoc) as (Hp & Hk & Hothers); [by rewrite Hid|done|]. rewrite Hid in *.
    split_and!.
    + by apply (keys_regular_documents (replace_document (rt_db r) doc).2).
    + rewrite (index_checksum_documents _ _ _ Hd), Hp. by subst doc.
    + intros q Hne. rewrite (index_checksum_documents _ _ _ Hd). apply Hothers; [done|].
      apply uid_for_other; try done; by rewrite Hid.
  - destruct (file_document fs root now path) as [doc0|] eqn:Hdoc0; [done|]. simpl.
    destruct (remove_checksums (rt_db r) path Hok Hkeys) as (Hp & Hk & Hothers). split_and!.
    + by apply (keys_regular_documents (remove_document (rt_db r) path).2).
    + by rewrite (index_checksum_documents _ _ _ Hd), Hp.
    + intros q Hne. rewrite (index_checksum_documents _ _ _ Hd). by apply Hothers.
Qed.
Lemma handle_remove_file_checksums path source r r' :
  tables_ok (rt_db r) → keys_regular (rt_db r) → handle_remove_file now path false source r = (Ok tt, r') →
  same_queue r r' ∧ keys_regular (rt_db r') ∧ (regular path → index_checksum (rt_db r') path = None) ∧
  ∀ q, q ≠ path → index_checksum (rt_db r') q = index_checksum (rt_db r) q.
Proof.
  intros Hok Hkeys Hrun. apply handle_remove_file_effect in Hrun as (Hq & Hd). split; [done|].
  destruct (remove_checksums (rt_db r) path Hok Hkeys) as (Hp & Hk & Hothers).
  destruct (is_markdown_path path) eqn:Hmd.
  - split_and!.
    + by apply (keys_regular_documents (remove_document (rt_db r) path).2).
    + intros _. by rewrite (index_checksum_documents _ _ _ Hd).
    + intros q Hne. rewrite (index_checksum_documents _ _ _ Hd). by apply Hothers.
  - split_and!.
    + by apply (keys_regular_documents (rt_db r)).
    + intros Hreg%regular_markdown. congruence.
    + intros q _. by apply index_checksum_documents.
Qed.
Lemma handle_rename_file_checksums fs old_path new_path source r r' :
  tables_ok (rt_db r) → keys_regular (rt_db r) →
  (is_markdown_path old_path = true → regular old_path) → (is_markdown_path new_path = true → regular new_path) →
  handle_rename_file fs root now old_path new_path false source r = (Ok tt, r') →
  same_queue r r' ∧ keys_regular (rt_db r') ∧
  (regular new_path → is_Some (note_checksum fs new_path) → up_to_date fs (rt_db r') new_path) ∧
  (regular old_path → note_checksum fs old_path = None ∨ old_path ≠ new_path → index_checksum (rt_db r') old_path = None) ∧
  ∀ q, q ≠ old_path → (q ≠ new_path ∨ note_checksum fs new_path = None) → index_checksum (rt_db r') q = index_checksum (rt_db r) q.
Proof.
  intros Hok Hkeys Hold Hnew Hrun. apply handle_rename_file_effect in Hrun as (Hq & maybe_doc & Hbuild & Hd). split; [done|].
  cbv zeta in Hd. set (db1 := if is_markdown_path old_path then _ else _) in *.
  assert (Hok1 : tables_ok db1).
  { unfold db1. destruct (is_markdown_path old_path); [|done]. pose proof (remove_document_spec (rt_db r) old_path Hok) as Hspec.
    destruct (remove_document (rt_db r) old_path) as [? ?]. destruct Hspec as (_ & _ & _ & _ & _ & Hk). exact Hk. }
  assert (Hdb1 : keys_regular db1 ∧ (regular old_path → index_checksum db1 old_path = None) ∧
    ∀ q, q ≠ old_path → index_checksum db1 q = index_checksum (rt_db r) q).
  { unfold db1. destruct (is_markdown_path old_path) eqn:Hmd.
    - destruct (remove_checksums (rt_db r) old_path Hok Hkeys) as (Hp & Hk & Hothers). done.
    - split_and!; [done| |done]. intros Hreg%regular_markdown. congruence. }
  destruct Hdb1 as (Hkeys1 & Hold1 & Hothers1).
  assert (Hgone : ∀ q, uids db1 !! q ≠ find_note_uid_by_doc_id (rt_db r) old_path ∨ find_note_uid_by_doc_id (rt_db r) old_path = None).
  { intros q. destruct (find_note_uid_by_doc_id (rt_db r) old_path) as [v|] eqn:Hv; [left|by right]. intros Hu.
    unfold find_note_uid_by_doc_id in Hv. apply fmap_Some in Hv as (row & Hrow & ->).
    assert (Hmd : is_markdown_path old_path = true) by (apply regular_markdown, Hkeys; eauto).
    unfold db1 in Hu. rewrite Hmd in Hu. pose proof (remove_document_spec (rt_db r) old_path Hok) as Hspec.
    destruct (remove_document (rt_db r) old_path) as [? ?]. destruct Hspec as (_ & Hd1 & _). simpl in Hu.
    apply uids_lookup in Hu as (row' & Hrow' & Heq). rewrite Hd1 in Hrow'. apply lookup_delete_Some in Hrow' as [Hne Hrow'].
    apply Hne. symmetry. by eapply (uids_distinct _ Hok). }
  destruct maybe_doc as [doc|].
  - destruct (is_markdown_path new_path) eqn:Hmd; [|done]. pose proof (build_document_file _ _ _ _ _ _ Hbuild) as Hfile.
    symmetry in Hfile. apply fmap_Some in Hfile as (doc0 & Hdoc0 & Heq).
    destruct (build_document_Some _ _ _ _ _ _ Hbuild) as (Hid & _ & Hdoc).
    set (renamed := renamed_document _ doc) in *. assert (Hid' : id_doc_id renamed = new_path) by done.
    assert (Hu : ∀ q, uids db1 !! q ≠ Some (uid_for db1 renamed)).
    { intros q. unfold uid_for. simpl. destruct (Hgone q) as [Hg|Hg].
      - destruct (find_note_uid_by_doc_id (rt_db r) old_path) as [v|]; simpl; [done|].
        intros (row & Hrow & Hu)%uids_lookup. pose proof (uids_given _ Hok1 _ _ Hrow). lia.
      - rewrite Hg. simpl. intros (row & Hrow & Hu)%uids_lookup. pose proof (uids_given _ Hok1 _ _ Hrow). lia. }
    destruct (replace_checksums db1 renamed Hok1 Hdoc) as (Hp & Hk & Hothers); [rewrite Hid'; auto|done|]. rewrite Hid' in *.
    assert (Hsome : note_checksum fs new_path = Some (id_content_checksum doc)).
    { unfold note_checksum. rewrite Hdoc0. by subst doc. }
    split_and!.
    + by apply (keys_regular_documents (replace_document db1 renamed).2).
    + intros _ _. unfold up_to_date. by rewrite (index_checksum_documents _ _ _ Hd), Hp, Hsome.
    + intros Hreg Hne. assert (old_path ≠ new_path) by (destruct Hne as [Hn|]; [intros ->; congruence|done]).
      rewrite (index_checksum_documents _ _ _ Hd), Hothers by done. by apply Hold1.
    + intros q Hqo [Hqn|]; [|congruence]. rewrite (index_checksum_documents _ _ _ Hd), Hothers by done. by apply Hothers1.
  - assert (Hnone : regular new_path → note_checksum fs new_path = None).
    { intros Hreg. rewrite (regular_markdown _ Hreg) in Hbuild. pose proof (build_document_file _ _ _ _ _ _ Hbuild) as Hfile.
      unfold note_checksum. by destruct (file_document fs root now new_path). }
    split_and!.
    + by apply (keys_regular_documents db1).
    + intros Hreg [? Hs]. rewrite Hnone in Hs by done. done.
    + intros Hreg _. rewrite (index_checksum_documents _ _ _ Hd). by apply Hold1.
    + intros q Hqo _. rewrite (index_checksum_documents _ _ _ Hd). by apply Hothers1.
Qed.
End checksums.

(** ** The system *)

(** What the rest of the application tells the index about a change *)
Inductive Notice :=
| Written (path : string)
| Removed (path : string) (is_dir : bool)
| Renamed (old_path new_path : string) (is_dir : bool).
(** The paths a notice may be about: any, for a directory *)
Definition covers (n : Notice) (p : string) : Prop :=
  match n with
  | Written path => path = p
  | Removed path is_dir => is_dir = true ∨ path = p
  | Renamed old_path new_path is_dir => is_dir = true ∨ old_path = p ∨ new_path = p
  end.
#[export] Instance covers_dec n p : Decision (covers n p).
Proof. destruct n; simpl; apply _. Defined.
(** Where the thread is: between jobs, with a job it has received, in a rebuild that reads the
    vault - with the file system in which it looked for notes, and the one in which it read
    each note -, or at its end. *)
Inductive Phase :=
| Idle
| Taken (job : WriterJob)
| Rebuilding (reason : string) (walked : Fs) (seen : string → Fs)
| Rebuilt.
Record Sys := { sy_fs : Fs; sy_runtime : SearchRuntime; sy_notices : list Notice; sy_phase : Phase }.

(** What a job will do to a note: bring it up to date, take it out, or nothing. *)
Definition job_effect (present : bool) (p : string) (job : WriterJob) : option bool :=
  match job with
  | FullRebuild _ => Some true
  | IndexFile path _ => if bool_decide (path = p) then Some true else None
  | RemoveFile path is_dir _ => if is_dir then Some true else if bool_decide (path = p) then Some false else None
  | RenameFile old_path new_path is_dir _ =>
      if is_dir then Some true
      else if bool_decide (new_path = p) && present then Some true
      else if bool_decide (old_path = p) then Some false else None
  | Shutdown => None
  end.
(** What the last of the jobs that matter for a note will do to it *)
Definition verdict (present : bool) (p : string) (jobs : list WriterJob) : option bool :=
  last (omap (job_effect present p) jobs).
(** The jobs that wait, the one that was taken included, and the rebuild that will be asked for *)
Definition head_jobs (phase : Phase) : list WriterJob :=
  match phase with Taken job => [job] | _ => [] end.
Definition rerun_jobs (s : RebuildQueueState) : list WriterJob := if rerun s then [FullRebuild "rebuild-rerun"] else [].
Definition waiting (phase : Phase) (r : SearchRuntime) : list WriterJob :=
  head_jobs phase ++ rt_jobs r ++ rerun_jobs (rt_rebuild_state r).

Lemma verdict_app present p a b : verdict present p (a ++ b) =
  match verdict present p b with Some v => Some v | None => verdict present p a end.
Proof. unfold verdict. rewrite omap_app, last_app. by destruct (last (omap _ b)). Qed.
Lemma verdict_cons present p job jobs : verdict present p (job :: jobs) =
  match verdict present p jobs with Some v => Some v | None => job_effect present p job end.
Proof. change (job :: jobs) with ([job] ++ jobs). rewrite verdict_app. unfold verdict at 2. simpl. by destruct (job_effect _ _ _). Qed.
Lemma verdict_rebuild present p reason jobs : FullRebuild reason ∈ jobs → verdict present p jobs ≠ None.
Proof.
  intros (a & b & ->)%list_elem_of_split. rewrite verdict_app, verdict_cons. by destruct (verdict present p b).
Qed.

Section system.
Context `{Unicode, !UnicodeFold, YamlValues, MarkdownParser, Blake3, Os, IndexJson}.
Context (root : AbsPath) (now : Z) (regular : string → Prop).
Context (regular_distinct : ∀ p q, regular p → regular q → eq_ignore_ascii_case p q = true → p = q).
Context (regular_markdown : ∀ p, regular p → is_markdown_path p = true).
#[local] Abbreviation note_checksum := (note_checksum root now).
#[local] Abbreviation up_to_date := (up_to_date root now).

Definition notify (n : Notice) (source : string) : Writer unit :=
  match n with
  | Written path => notify_written_with_source path source
  | Removed path is_dir => notify_removed_with_source path is_dir source
  | Renamed old_path new_path is_dir => notify_renamed_with_source old_path new_path is_dir source
  end.
Definition present (fs : Fs) (p : string) : bool := bool_decide (is_Some (note_checksum fs p)).
(** The files the rebuild finds are those that can be read under a regular path. *)
Definition fs_ok (fs : Fs) : Prop :=
  (∀ p, vault_note fs root p → regular p) ∧ (∀ p, regular p → vault_note fs root p ↔ is_Some (note_checksum fs p)).
Definition notice_paths (n : Notice) : list string :=
  match n with Written p | Removed p _ => [p] | Renamed o n _ => [o; n] end.
Definition job_paths (job : WriterJob) : list string :=
  match job with IndexFile p _ | RemoveFile p _ _ => [p] | RenameFile o n _ _ => [o; n] | _ => [] end.
Definition paths_ok (l : list string) : Prop := Forall (λ p, is_markdown_path p = true → regular p) l.
(** What a notice says of a note it covers *)
Definition truthful (fs : Fs) (n : Notice) (p : string) : Prop :=
  match n with
  | Removed path false => note_checksum fs p = None
  | Renamed old_path new_path false => if bool_decide (new_path = p) then is_Some (note_checksum fs p) else note_checksum fs p = None
  | _ => True
  end.
(** A notice that a note was written may be left to a queued rebuild only if no job behind
    the rebuild takes the note out again. *)
Definition safe_notice (s : Sys) (n : Notice) : Prop :=
  match n with
  | Written p =>
      queued (rt_rebuild_state (sy_runtime s)) = true → running (rt_rebuild_state (sy_runtime s)) = false →
      verdict (present (sy_fs s) p) p (waiting (sy_phase s) (sy_runtime s)) ≠ Some false
  | _ => True
  end.

Inductive step (s : Sys) : Sys → Prop :=
| step_change fs n : fs_ok fs → paths_ok (notice_paths n) →
    (∀ p, regular p → note_checksum fs p ≠ note_checksum (sy_fs s) p → covers n p) →
    (∀ p, regular p → covers n p → truthful fs n p) →
    step s {| sy_fs := fs; sy_runtime := sy_runtime s; sy_notices := sy_notices s ++ [n]; sy_phase := sy_phase s |}
| step_notify n ns source r : sy_notices s = n :: ns → safe_notice s n → notify n source (sy_runtime s) = (Ok tt, r) →
    step s {| sy_fs := sy_fs s; sy_runtime := r; sy_notices := ns; sy_phase := sy_phase s |}
| step_request reason r : queue_rebuild reason (sy_runtime s) = (Ok tt, r) →
    step s {| sy_fs := sy_fs s; sy_runtime := r; sy_notices := sy_notices s; sy_phase := sy_phase s |}
| step_take job jobs : sy_phase s = Idle → rt_jobs (sy_runtime s) = job :: jobs →
    step s {| sy_fs := sy_fs s; sy_runtime := with_jobs (λ _, jobs) (sy_runtime s); sy_notices := sy_notices s; sy_phase := Taken job |}
| step_run job r : sy_phase s = Taken job → is_full_rebuild job = false →
    handle_job (sy_fs s) root now (λ _, sy_fs s) job (sy_runtime s) = (Ok tt, r) →
    step s {| sy_fs := sy_fs s; sy_runtime := r; sy_notices := sy_notices s; sy_phase := Idle |}
| step_begin reason r : sy_phase s = Taken (FullRebuild reason) → begin_rebuild reason (sy_runtime s) = (Ok tt, r) →
    step s {| sy_fs := sy_fs s; sy_runtime := r; sy_notices := sy_notices s;
              sy_phase := Rebuilding reason (sy_fs s) (λ _, sy_fs s) |}
| step_walk reason walked seen : sy_phase s = Rebuilding reason walked seen →
    step s {| sy_fs := sy_fs s; sy_runtime := sy_runtime s; sy_notices := sy_notices s;
              sy_phase := Rebuilding reason (sy_fs s) seen |}
| step_read reason walked seen p : sy_phase s = Rebuilding reason walked seen →
    step s {| sy_fs := sy_fs s; sy_runtime := sy_runtime s; sy_notices := sy_notices s;
              sy_phase := Rebuilding reason walked (<[p := sy_fs s]> seen) |}
| step_rebuild reason walked seen r : sy_phase s = Rebuilding reason walked seen →
    rebuild_index walked root now seen reason (sy_runtime s) = (Ok tt, r) →
    step s {| sy_fs := sy_fs s; sy_runtime := r; sy_notices := sy_notices s; sy_phase := Rebuilt |}
| step_finish r : sy_phase s = Rebuilt → finish_rebuild (sy_runtime s) = (Ok tt, r) →
    step s {| sy_fs := sy_fs s; sy_runtime := r; sy_notices := sy_notices s; sy_phase := Idle |}.

(** *** The invariant *)

Definition destroys (p : string) (job : WriterJob) : Prop :=
  match job with
  | RemoveFile path is_dir _ => is_dir = false ∧ path = p
  | RenameFile old_path _ is_dir _ => is_dir = false ∧ old_path = p
  | _ => False
  end.
(** A note is in the index as it is, or a rebuild has read it as it is. *)
Definition indexed (fs : Fs) (db : SearchTables) (phase : Phase) (p : string) : Prop :=
  match phase with
  | Rebuilding _ walked seen => note_checksum walked p = note_checksum fs p ∧ note_checksum (seen p) p = note_checksum fs p
  | _ => up_to_date fs db p
  end.
(** A note is on the way into the index, or is there as it is. *)
Definition note_ok (s : Sys) (p : string) : Prop :=
  (∃ n, n ∈ sy_notices s ∧ covers n p) ∨
  match verdict (present (sy_fs s) p) p (waiting (sy_phase s) (sy_runtime s)) with
  | Some true => True
  | Some false => note_checksum (sy_fs s) p = None
  | None => indexed (sy_fs s) (rt_db (sy_runtime s)) (sy_phase s) p
  end.
Definition in_rebuild (phase : Phase) : bool := match phase with Rebuilding _ _ _ | Rebuilt => true | _ => false end.
Record sys_ok (s : Sys) : Prop := {
  so_tables : tables_ok (rt_db (sy_runtime s));
  so_links : links_resolved (rt_db (sy_runtime s));
  so_keys : keys_regular regular (rt_db (sy_runtime s));
  so_described : all_described (rt_db (sy_runtime s));
  so_alive : rt_alive (sy_runtime s) = true;
  so_incremental : incremental_updates (rt_config (sy_runtime s)) = true;
  so_running : running (rt_rebuild_state (sy_runtime s)) = in_rebuild (sy_phase s);
  so_running_queued : running (rt_rebuild_state (sy_runtime s)) = true → queued (rt_rebuild_state (sy_runtime s)) = false;
  so_rerun : rerun (rt_rebuild_state (sy_runtime s)) = true → running (rt_rebuild_state (sy_runtime s)) = true;
  so_queued : queued (rt_rebuild_state (sy_runtime s)) = true →
    ∃ reason, FullRebuild reason ∈ head_jobs (sy_phase s) ++ rt_jobs (sy_runtime s);
  so_pending p : p ∈ rt_pending_index_paths (sy_runtime s) → ∃ a source b,
    head_jobs (sy_phase s) ++ rt_jobs (sy_runtime s) = a ++ IndexFile p source :: b ∧ Forall (λ j, ¬ destroys p j) b;
  so_jobs : Forall (λ j, paths_ok (job_paths j)) (head_jobs (sy_phase s) ++ rt_jobs (sy_runtime s));
  so_notices : Forall (λ n, paths_ok (notice_paths n)) (sy_notices s);
  so_truthful p a n b : regular p → sy_notices s = a ++ n :: b → covers n p → Forall (λ m, ¬ covers m p) b →
    truthful (sy_fs s) n p;
  so_fs : fs_ok (sy_fs s);
  so_walked : match sy_phase s with Rebuilding _ walked _ => fs_ok walked | _ => True end;
  so_notes p : regular p → note_ok s p }.

(** *** Verdicts *)

Definition settled (fs : Fs) (db : SearchTables) (ph : Phase) (p : string) (jobs : list WriterJob) : Prop :=
  match verdict (present fs p) p jobs with
  | Some true => True
  | Some false => note_checksum fs p = None
  | None => indexed fs db ph p
  end.
Lemma settled_true fs db ph p jobs : verdict (present fs p) p jobs = Some true → settled fs db ph p jobs.
Proof. unfold settled. by intros ->. Qed.
Lemma verdict_not_destroyed b p jobs : Forall (λ j, job_effect b p j ≠ Some false) jobs → verdict b p jobs ≠ Some false.
Proof.
  induction 1 as [|j jobs Hj _ IH]; [done|]. rewrite verdict_cons. by destruct (verdict b p jobs).
Qed.
Lemma settled_insert fs db ph p a b c : settled fs db ph p (a ++ c) → Forall (λ j, job_effect (present fs p) p j ≠ Some false) b →
  settled fs db ph p (a ++ b ++ c).
Proof.
  intros Hs Hb%verdict_not_destroyed. unfold settled in *. rewrite !verdict_app in *.
  destruct (verdict (present fs p) p c); [done|]. destruct (verdict (present fs p) p b) as [[]|]; done.
Qed.
Lemma settled_fs fs fs' db ph p jobs : note_checksum fs' p = note_checksum fs p → settled fs db ph p jobs → settled fs' db ph p jobs.
Proof. intros Hn. unfold settled, present, indexed, SearchCatchUp.up_to_date. by rewrite Hn. Qed.
Lemma destroyed_effect b p j : job_effect b p j = Some false → destroys p j.
Proof.
  destruct j as [|path|path [] |old new []|]; simpl; try done; repeat case_bool_decide; try done.
  by destruct b.
Qed.
Lemma pending_verdict b p a source l c : Forall (λ j, ¬ destroys p j) l → (∀ j, j ∈ c → job_effect b p j ≠ Some false) →
  verdict b p ((a ++ IndexFile p source :: l) ++ c) = Some true.
Proof.
  intros Hl Hc. rewrite <- app_assoc, verdict_app. change ((IndexFile p source :: l) ++ c) with (IndexFile p source :: (l ++ c)).
  rewrite verdict_cons. assert (Hv : verdict b p (l ++ c) ≠ Some false).
  { apply verdict_not_destroyed, Forall_app. split; [|by apply Forall_forall].
    eapply Forall_impl; [exact Hl|]. intros j Hj Heff. apply Hj. by eapply destroyed_effect. }
  destruct (verdict b p (l ++ c)) as [[]|]; [done..|]. simpl. by rewrite bool_decide_true.
Qed.
Lemma truthful_fs fs fs' n p : note_checksum fs' p = note_checksum fs p → truthful fs n p → truthful fs' n p.
Proof. intros Hn. destruct n as [|path []|old new []]; simpl; rewrite ?Hn; done. Qed.

Definition rest (r : SearchRuntime) : list WriterJob := rerun_jobs (rt_rebuild_state r).
Lemma note_ok_settled s p : note_ok s p ↔ (∃ n, n ∈ sy_notices s ∧ covers n p) ∨
  settled (sy_fs s) (rt_db (sy_runtime s)) (sy_phase s) p (waiting (sy_phase s) (sy_runtime s)).
Proof. done. Qed.

(** *** Files change *)

Lemma change_ok s fs n : sys_ok s → fs_ok fs → paths_ok (notice_paths n) →
  (∀ p, regular p → note_checksum fs p ≠ note_checksum (sy_fs s) p → covers n p) →
  (∀ p, regular p → covers n p → truthful fs n p) →
  sys_ok {| sy_fs := fs; sy_runtime := sy_runtime s; sy_notices := sy_notices s ++ [n]; sy_phase := sy_phase s |}.
Proof.
  intros [] Hfs Hpaths Hcov Htrue.
  assert (Hsame : ∀ p, regular p → ¬ covers n p → note_checksum fs p = note_checksum (sy_fs s) p).
  { intros p Hp Hn. destruct (decide (note_checksum fs p = note_checksum (sy_fs s) p)) as [|Hne]; [done|]. destruct Hn. by apply Hcov. }
  split; simpl; try done.
  - apply Forall_app. split; [done|]. by apply Forall_singleton.
  - intros p a m b Hp Heq Hm Hb. destruct b as [|m' b _] using rev_ind.
    + apply app_inj_tail in Heq as [_ <-]. by apply Htrue.
    + assert (Heq' : sy_notices s ++ [n] = (a ++ m :: b) ++ [m']) by (by rewrite <- app_assoc).
      apply app_inj_tail in Heq' as [Heq' <-]. apply Forall_app in Hb as [Hb Hn]. rewrite Forall_singleton in Hn.
      apply (truthful_fs (sy_fs s)); [apply Hsame; [done|exact Hn]|]. by eapply so_truthful0.
  - intros p Hp. rewrite note_ok_settled. simpl. destruct (decide (covers n p)) as [Hc|Hc].
    + left. exists n. split; [set_solver|done].
    + destruct (proj1 (note_ok_settled s p) (so_notes0 p Hp)) as [(m & Hm & Hcm)|Hs].
      * left. exists m. split; [set_solver|done].
      * right. eapply settled_fs; [by apply Hsame|done].
Qed.

(** *** The queue grows *)

Lemma queue_rebuild_cases reason r r' : queue_rebuild reason r = (Ok tt, r') → rt_alive r = true →
  rt_db r' = rt_db r ∧ rt_alive r' = rt_alive r ∧ rt_pending_index_paths r' = rt_pending_index_paths r ∧ rt_config r' = rt_config r ∧
  ((running (rt_rebuild_state r) = true ∧ rt_jobs r' = rt_jobs r ∧
      rt_rebuild_state r' = {| queued := queued (rt_rebuild_state r); running := true; rerun := true |}) ∨
   (running (rt_rebuild_state r) = false ∧ queued (rt_rebuild_state r) = true ∧ rt_jobs r' = rt_jobs r ∧ rt_rebuild_state r' = rt_rebuild_state r) ∨
   (running (rt_rebuild_state r) = false ∧ queued (rt_rebuild_state r) = false ∧ rt_jobs r' = rt_jobs r ++ [FullRebuild reason] ∧
      rt_rebuild_state r' = {| queued := true; running := false; rerun := rerun (rt_rebuild_state r) |})).
Proof.
  unfold queue_rebuild, mbind, act_bind, gets, modify, attempt, send. cbn. intros Hrun Halive.
  destruct (running (rt_rebuild_state r)) eqn:Hr, (queued (rt_rebuild_state r)) eqn:Hq; cbn in Hrun; rewrite ?Halive, ?Hr, ?Hq in Hrun;
    injection Hrun as <-; cbn; rewrite ?Hr, ?Hq; split_and!; auto 10.
Qed.
(** After a request every note is covered by a rebuild, or by one that was queued already. *)
Lemma request_settled reason r r' ph fs p :
  queue_rebuild reason r = (Ok tt, r') → rt_alive r = true →
  (rerun (rt_rebuild_state r) = true → running (rt_rebuild_state r) = true) →
  settled fs (rt_db r') ph p (waiting ph r') ∨ (rt_jobs r' = rt_jobs r ∧ rt_rebuild_state r' = rt_rebuild_state r ∧
    running (rt_rebuild_state r) = false ∧ queued (rt_rebuild_state r) = true).
Proof.
  intros Hrun Halive Hrerun. destruct (queue_rebuild_cases reason r r' Hrun Halive) as (_ & _ & _ & _ & [(Hr & Hj & Hs)|[(Hr & Hq & Hj & Hs)|(Hr & Hq & Hj & Hs)]]).
  - left. unfold waiting, rerun_jobs. rewrite Hs. simpl. rewrite app_assoc. apply settled_true. by rewrite verdict_app.
  - by right.
  - left. unfold waiting, rerun_jobs. rewrite Hs, Hj. simpl.
    destruct (rerun (rt_rebuild_state r)) eqn:Hre; [by rewrite Hrerun in Hr|]. rewrite app_nil_r, app_assoc.
    apply settled_true. by rewrite verdict_app.
Qed.
Lemma request_ok s reason r : sys_ok s → queue_rebuild reason (sy_runtime s) = (Ok tt, r) →
  sys_ok {| sy_fs := sy_fs s; sy_runtime := r; sy_notices := sy_notices s; sy_phase := sy_phase s |}.
Proof.
  intros [] Hrun. pose proof (λ p, request_settled reason (sy_runtime s) r (sy_phase s) (sy_fs s) p Hrun so_alive0 so_rerun0) as Hset.
  destruct (queue_rebuild_cases _ _ _ Hrun so_alive0) as (Hdb & Halive & Hpend & Hcfg & Hcases).
  assert (Hjobs : rt_jobs r = rt_jobs (sy_runtime s) ∨ rt_jobs r = rt_jobs (sy_runtime s) ++ [FullRebuild reason]) by naive_solver.
  split; simpl; rewrite ?Hdb, ?Halive, ?Hpend, ?Hcfg; try done.
  - destruct Hcases as [(Hr & Hj & ->)|[(Hr & Hq & Hj & ->)|(Hr & Hq & Hj & ->)]]; simpl; congruence.
  - destruct Hcases as [(Hr & Hj & ->)|[(Hr & Hq & Hj & ->)|(Hr & Hq & Hj & ->)]]; simpl; auto.
  - destruct Hcases as [(Hr & Hj & ->)|[(Hr & Hq & Hj & ->)|(Hr & Hq & Hj & ->)]]; simpl; auto.
    intros Hre. rewrite so_rerun0 in Hr by done. done.
  - destruct Hcases as [(Hr & Hj & ->)|[(Hr & Hq & Hj & ->)|(Hr & Hq & Hj & ->)]]; simpl; rewrite Hj; auto.
    intros _. exists reason. set_solver.
  - intros p Hp. destruct (so_pending0 p Hp) as (a & src & b & Heq & Hb). destruct Hjobs as [->| ->]; [by exists a, src, b|].
    exists a, src, (b ++ [FullRebuild reason]). rewrite app_assoc, Heq, <- app_assoc. split; [done|].
    apply Forall_app. split; [done|]. apply Forall_singleton. by intros [].
  - destruct Hjobs as [->| ->]; [done|]. rewrite app_assoc. apply Forall_app. split; [done|]. apply Forall_singleton. apply Forall_nil_2.
  - intros p Hp. rewrite note_ok_settled. simpl. destruct (proj1 (note_ok_settled s p) (so_notes0 p Hp)) as [Hcov|Hs]; [by left|].
    right. destruct (Hset p) as [|(Hj & Hst & _)]; [done|]. rewrite Hdb. unfold waiting in *. by rewrite Hj, Hst.
Qed.

(** *** A notice arrives *)

Lemma grow_ok s n ns r js : sys_ok s → sy_notices s = n :: ns →
  rt_db r = rt_db (sy_runtime s) → rt_alive r = rt_alive (sy_runtime s) → rt_config r = rt_config (sy_runtime s) →
  rt_rebuild_state r = rt_rebuild_state (sy_runtime s) → rt_jobs r = rt_jobs (sy_runtime s) ++ js →
  (∀ p, p ∈ rt_pending_index_paths r → (p ∈ rt_pending_index_paths (sy_runtime s) ∧ Forall (λ j, ¬ destroys p j) js) ∨
     ∃ a source b, js = a ++ IndexFile p source :: b ∧ Forall (λ j, ¬ destroys p j) b) →
  Forall (λ j, paths_ok (job_paths j)) js →
  (∀ p, regular p → ¬ covers n p → Forall (λ j, job_effect (present (sy_fs s) p) p j ≠ Some false) js) →
  (∀ p, regular p → covers n p → truthful (sy_fs s) n p →
     settled (sy_fs s) (rt_db (sy_runtime s)) (sy_phase s) p
       (head_jobs (sy_phase s) ++ (rt_jobs (sy_runtime s) ++ js) ++ rerun_jobs (rt_rebuild_state (sy_runtime s)))) →
  sys_ok {| sy_fs := sy_fs s; sy_runtime := r; sy_notices := ns; sy_phase := sy_phase s |}.
Proof.
  intros [] Hns Hdb Halive Hcfg Hst Hjobs Hpend Hpaths Hkeep Hcov. rewrite Hns in *.
  split; simpl; rewrite ?Hdb, ?Halive, ?Hcfg, ?Hst, ?Hjobs; try done.
  - intros Hq. destruct (so_queued0 Hq) as [reason Hin]. exists reason. rewrite app_assoc. set_solver.
  - intros p Hp. rewrite app_assoc. destruct (Hpend p Hp) as [[Hold Hjs]|(a & src & b & -> & Hb)].
    + destruct (so_pending0 p Hold) as (a & src & b & -> & Hb). exists a, src, (b ++ js). rewrite <- app_assoc.
      split; [done|]. by apply Forall_app.
    + exists ((head_jobs (sy_phase s) ++ rt_jobs (sy_runtime s)) ++ a), src, b. by rewrite <- !app_assoc.
  - rewrite app_assoc. by apply Forall_app.
  - by apply Forall_cons in so_notices0 as [_ ?].
  - intros p a m b Hp Heq. apply (so_truthful0 p (n :: a)); [done|]. simpl. by rewrite Heq.
  - intros p Hp. rewrite note_ok_settled. simpl. rewrite Hdb. unfold waiting. rewrite Hjobs, Hst.
    destruct (decide (Exists (λ m, covers m p) ns)) as [He|He].
    { left. apply Exists_exists in He as (m & Hm & Hcm). by exists m. }
    right. destruct (decide (covers n p)) as [Hc|Hc].
    + apply Hcov; [done|done|]. apply (so_truthful0 p [] n ns Hp eq_refl Hc). by apply Forall_Exists_neg.
    + destruct (proj1 (note_ok_settled s p) (so_notes0 p Hp)) as [(m & Hm & Hcm)|Hs].
      * exfalso. rewrite Hns in Hm. apply elem_of_cons in Hm as [->|Hm]; [done|]. apply He, Exists_exists. by exists m.
      * unfold waiting in Hs. rewrite app_assoc in Hs. rewrite <- app_assoc, app_assoc. apply settled_insert; [done|]. by apply Hkeep.
Qed.
Lemma send_Ok job r r' : send job r = (Ok tt, r') → r' = with_jobs (λ jobs, jobs ++ [job]) r.
Proof. unfold send. destruct (rt_alive r); [by intros [= <-]|done]. Qed.
Lemma send_or_fail_Ok what job r r' : send_or_fail what job r = (Ok tt, r') → r' = with_jobs (λ jobs, jobs ++ [job]) r.
Proof. unfold send_or_fail, send. destruct (rt_alive r); [by intros [= <-]|done]. Qed.
Lemma enqueue_index_job_cases path source r r' : enqueue_index_job path source r = (Ok tt, r') →
  (queued (rt_rebuild_state r) = true ∧ running (rt_rebuild_state r) = false ∧ r' = with_debug note_coalesced_index r) ∨
  (path ∈ rt_pending_index_paths r ∧ r' = with_debug note_coalesced_index r) ∨
  r' = with_jobs (λ jobs, jobs ++ [IndexFile path source]) (with_pending (λ p, {[path]} ∪ p) r).
Proof.
  unfold enqueue_index_job, clear_pending_index_path, mbind, act_bind, gets, modify, attempt, send. cbn.
  destruct (queued (rt_rebuild_state r)), (running (rt_rebuild_state r)); cbn; try (by intros [= <-]; auto);
    (case_bool_decide; cbn; [by intros [= <-]; auto|]); destruct (rt_alive r); cbn; try done; intros [= <-]; auto.
Qed.

Lemma same_runtime_ok s n ns r : sys_ok s → sy_notices s = n :: ns →
  rt_db r = rt_db (sy_runtime s) → same_queue (sy_runtime s) r →
  (∀ p, regular p → covers n p → settled (sy_fs s) (rt_db (sy_runtime s)) (sy_phase s) p (waiting (sy_phase s) (sy_runtime s))) →
  sys_ok {| sy_fs := sy_fs s; sy_runtime := r; sy_notices := ns; sy_phase := sy_phase s |}.
Proof.
  intros Hs Hns Hdb (Hj & Ha & Hp & Hr & Hc) Hcov.
  apply (grow_ok s n ns r []); try done; [by rewrite app_nil_r|rewrite Hp; by left|].
  intros p Hp' Hcp _. rewrite app_nil_r. by apply Hcov.
Qed.
Lemma written_ok s path source ns r : sys_ok s → sy_notices s = Written path :: ns → safe_notice s (Written path) →
  notify_written_with_source path source (sy_runtime s) = (Ok tt, r) →
  sys_ok {| sy_fs := sy_fs s; sy_runtime := r; sy_notices := ns; sy_phase := sy_phase s |}.
Proof.
  intros Hs Hns Hsafe Hrun. unfold notify_written_with_source in Hrun. destruct (is_markdown_path path) eqn:Hmd; cbn [negb] in Hrun.
  2: { injection Hrun as <-. apply (same_runtime_ok s (Written path) ns); [done|done|done|done|].
       intros p Hp Hcp. simpl in Hcp. subst p. apply regular_markdown in Hp. congruence. }
  apply act_bind_Ok in Hrun as (config & r1 & Hcfg & Hrun). injection Hcfg as <- <-.
  rewrite (so_incremental _ Hs) in Hrun. cbn [negb] in Hrun.
  assert (Hreg : regular path).
  { pose proof (so_notices _ Hs) as Hn. rewrite Hns in Hn. apply Forall_cons in Hn as [Hn _]. unfold paths_ok in Hn. simpl in Hn. rewrite Forall_singleton in Hn. auto. }
  destruct (enqueue_index_job_cases _ _ _ _ Hrun) as [(Hq & Hr & ->)|[[Hp ->]| ->]].
  - apply (same_runtime_ok s (Written path) ns); [done|done|done|done|]. intros p _ Hcp. simpl in Hcp. subst p.
    specialize (Hsafe Hq Hr). destruct (so_queued _ Hs Hq) as [reason Hin]. unfold settled.
    assert (Hv : verdict (present (sy_fs s) path) path (waiting (sy_phase s) (sy_runtime s)) ≠ None).
    { apply (verdict_rebuild _ _ reason). unfold waiting. rewrite app_assoc. set_solver. }
    by destruct (verdict _ _ _) as [[]|].
  - apply (same_runtime_ok s (Written path) ns); [done|done|done|done|]. intros p _ Hcp. simpl in Hcp. subst p.
    destruct (so_pending _ Hs path Hp) as (a & src & b & Heq & Hb). apply settled_true. unfold waiting. rewrite app_assoc, Heq.
    apply pending_verdict; [done|]. unfold rerun_jobs. destruct (rerun _); [|set_solver]. by intros j ->%list_elem_of_singleton.
  - apply (grow_ok s (Written path) ns _ [IndexFile path source]); try done.
    + intros p. simpl. intros [->%elem_of_singleton|Hp]%elem_of_union; [|left; split; [done|by apply Forall_singleton; intros []]].
      right. exists [], source, []. by split.
    + by apply Forall_singleton, Forall_singleton.
    + intros p _ Hnc. apply Forall_singleton. simpl. by case_bool_decide.
    + intros p _ Hcp _. simpl in Hcp. subst p. apply settled_true. rewrite !verdict_app.
      unfold rerun_jobs. destruct (rerun _); cbn; [done|]. unfold verdict. simpl. by rewrite bool_decide_true.
Qed.
Lemma removed_ok s path is_dir source ns r : sys_ok s → sy_notices s = Removed path is_dir :: ns →
  notify_removed_with_source path is_dir source (sy_runtime s) = (Ok tt, r) →
  sys_ok {| sy_fs := sy_fs s; sy_runtime := r; sy_notices := ns; sy_phase := sy_phase s |}.
Proof.
  intros Hs Hns Hrun. unfold notify_removed_with_source in Hrun.
  apply act_bind_Ok in Hrun as (config & r1 & Hcfg & Hrun). injection Hcfg as <- <-.
  rewrite (so_incremental _ Hs) in Hrun. cbn [negb] in Hrun.
  apply act_bind_Ok in Hrun as (u & r1 & Hclear & Hrun). injection Hclear as <- <-. apply send_or_fail_Ok in Hrun as ->.
  pose proof (so_notices _ Hs) as Hn. rewrite Hns in Hn. apply Forall_cons in Hn as [Hn _].
  apply (grow_ok s (Removed path is_dir) ns _ [RemoveFile path is_dir source]); try done.
  - intros p. simpl. intros [Hp Hne]%elem_of_difference. left. split; [done|]. apply Forall_singleton. intros [_ ->]. set_solver.
  - by apply Forall_singleton.
  - intros p _ Hnc. apply Forall_singleton. simpl in *. destruct is_dir; [done|]. case_bool_decide; [|done]. destruct Hnc. by right.
  - intros p _ Hcp Ht. unfold settled. rewrite !verdict_app. unfold rerun_jobs. destruct (rerun _); cbn; [done|].
    unfold verdict. simpl in *. destruct is_dir; [done|]. destruct Hcp as [|<-]; [done|]. by rewrite bool_decide_true.
Qed.
Lemma renamed_ok s old_path new_path is_dir source ns r : sys_ok s → sy_notices s = Renamed old_path new_path is_dir :: ns →
  notify_renamed_with_source old_path new_path is_dir source (sy_runtime s) = (Ok tt, r) →
  sys_ok {| sy_fs := sy_fs s; sy_runtime := r; sy_notices := ns; sy_phase := sy_phase s |}.
Proof.
  intros Hs Hns Hrun. unfold notify_renamed_with_source in Hrun.
  apply act_bind_Ok in Hrun as (config & r1 & Hcfg & Hrun). injection Hcfg as <- <-.
  rewrite (so_incremental _ Hs) in Hrun. cbn [negb] in Hrun.
  apply act_bind_Ok in Hrun as (u & r1 & Hclear & Hrun). injection Hclear as <- <-.
  apply act_bind_Ok in Hrun as (u & r1 & Hclear & Hrun). injection Hclear as <- <-. apply send_or_fail_Ok in Hrun as ->.
  pose proof (so_notices _ Hs) as Hn. rewrite Hns in Hn. apply Forall_cons in Hn as [Hn _].
  apply (grow_ok s (Renamed old_path new_path is_dir) ns _ [RenameFile old_path new_path is_dir source]); try done.
  - intros p. simpl. intros [[Hp Hne]%elem_of_difference Hne']%elem_of_difference. left. split; [set_solver|]. apply Forall_singleton. intros [_ ->]. set_solver.
  - by apply Forall_singleton.
  - intros p _ Hnc. apply Forall_singleton. simpl in *. destruct is_dir; [done|]. repeat case_bool_decide; simpl; try done; naive_solver.
  - intros p _ Hcp Ht. unfold settled. rewrite !verdict_app. unfold rerun_jobs. destruct (rerun _); cbn; [done|].
    unfold verdict. simpl in *. destruct is_dir; [done|]. case_bool_decide as Hnew.
    + unfold present. by rewrite bool_decide_true.
    + simpl. destruct Hcp as [|[<-|]]; [done| |done]. by rewrite bool_decide_true.
Qed.

(** *** The thread works *)

Lemma take_ok s job jobs : sys_ok s → sy_phase s = Idle → rt_jobs (sy_runtime s) = job :: jobs →
  sys_ok {| sy_fs := sy_fs s; sy_runtime := with_jobs (λ _, jobs) (sy_runtime s); sy_notices := sy_notices s; sy_phase := Taken job |}.
Proof.
  intros [] Hph Hjobs. unfold note_ok, waiting in *. rewrite Hph, Hjobs in *. split; simpl; done.
Qed.
(** The job at work goes; the others stay in their order. *)
Lemma pending_tail p job l : (∃ a source b, job :: l = a ++ IndexFile p source :: b ∧ Forall (λ j, ¬ destroys p j) b) →
  (∀ source, job ≠ IndexFile p source) → ∃ a source b, l = a ++ IndexFile p source :: b ∧ Forall (λ j, ¬ destroys p j) b.
Proof.
  intros (a & src & b & Heq & Hb) Hne. destruct a as [|j a]; simpl in Heq; injection Heq as Hj Hl.
  - by destruct (Hne src).
  - by exists a, src, b.
Qed.
Lemma settled_next fs db db' ph ph' p job l : settled fs db ph p (job :: l) →
  (verdict (present fs p) p l = None → settled fs db ph p [job] → indexed fs db' ph' p) →
  settled fs db' ph' p l.
Proof.
  unfold settled. rewrite verdict_cons. unfold verdict at 3. simpl. intros Hs Hup.
  destruct (verdict (present fs p) p l) as [v|]; [done|]. apply Hup; [done|]. by destruct (job_effect (present fs p) p job).
Qed.
(** What a job does to the index, seen from a note *)
Lemma job_checksums fs job r r' : tables_ok (rt_db r) → keys_regular regular (rt_db r) → paths_ok (job_paths job) →
  is_full_rebuild job = false →
  handle_job fs root now (λ _, fs) job r = (Ok tt, r') →
  (∃ reason, queue_rebuild reason r = (Ok tt, r') ∧ ∀ p source, job ≠ IndexFile p source) ∨
  (rt_jobs r' = rt_jobs r ∧ rt_alive r' = rt_alive r ∧ rt_rebuild_state r' = rt_rebuild_state r ∧ rt_config r' = rt_config r ∧
   (∀ p, p ∈ rt_pending_index_paths r' → p ∈ rt_pending_index_paths r ∧ ∀ source, job ≠ IndexFile p source) ∧
   keys_regular regular (rt_db r') ∧
   ∀ p, regular p → settled fs (rt_db r) Idle p [job] → up_to_date fs (rt_db r') p).
Proof.
  intros Hok Hkeys Hpaths Hnot Hrun. destruct job as [|path source|path is_dir source|old new is_dir source|]; simpl in Hrun; [done|..].
  - right. apply act_bind_Ok in Hrun as (u & r1 & Hclear & Hrun). injection Hclear as <- <-.
    unfold paths_ok in Hpaths. simpl in Hpaths. rewrite Forall_singleton in Hpaths.
    destruct (is_markdown_path path) eqn:Hmd.
    + destruct (handle_index_file_checksums root now regular regular_distinct regular_markdown fs path source (with_pending (λ p, p ∖ {[path]}) r) r' Hok Hkeys (Hpaths eq_refl) Hrun)
        as ((Hj & Ha & Hp & Hr & Hc) & Hk & Hup & Hothers).
      simpl in *. split_and!; try done.
      * intros p. rewrite Hp. intros [Hin Hne]%elem_of_difference. split; [done|]. intros src [= ->]. set_solver.
      * intros p Hreg. unfold settled, verdict. simpl. case_bool_decide as Heq; [by subst|]. simpl. intros Hs.
        unfold SearchCatchUp.up_to_date in *. by rewrite Hothers.
    + unfold handle_index_file in Hrun. rewrite Hmd in Hrun. injection Hrun as <-. simpl. split_and!; try done.
      * intros p [Hin Hne]%elem_of_difference. split; [done|]. intros src [= ->]. set_solver.
      * intros p Hreg. unfold settled, verdict. simpl. case_bool_decide as Heq; [|done].
        subst. apply regular_markdown in Hreg. congruence.
  - destruct is_dir.
    { left. exists "directory-mutation". split; [exact Hrun|done]. }
    right. destruct (handle_remove_file_checksums now regular regular_markdown path source r r' Hok Hkeys Hrun)
      as ((Hj & Ha & Hp & Hr & Hc) & Hk & Hgone & Hothers).
    split_and!; try done.
    + intros p Hin. rewrite Hp in Hin. done.
    + intros p Hreg. unfold settled, verdict. simpl. case_bool_decide as Heq; simpl; intros Hs; unfold SearchCatchUp.up_to_date in *.
      * subst. by rewrite Hgone, Hs.
      * by rewrite Hothers.
  - destruct is_dir.
    { left. exists "directory-mutation". split; [exact Hrun|done]. }
    right. unfold paths_ok in Hpaths. simpl in Hpaths. apply Forall_cons in Hpaths as [Hpo Hpn]. rewrite Forall_singleton in Hpn.
    destruct (handle_rename_file_checksums root now regular regular_markdown fs old new source r r' Hok Hkeys Hpo Hpn Hrun)
      as ((Hj & Ha & Hp & Hr & Hc) & Hk & Hnew & Hold & Hothers).
    split_and!; try done.
    + intros p Hin. rewrite Hp in Hin. done.
    + intros p Hreg. unfold settled, verdict. simpl. unfold present. case_bool_decide as Hn; simpl.
      * subst new. case_bool_decide as Hsome; simpl; [intros _; by apply Hnew|].
        assert (Hnone : note_checksum fs p = None) by (by apply eq_None_not_Some).
        case_bool_decide as Ho; simpl; intros Hs; unfold SearchCatchUp.up_to_date in *.
        -- subst old. rewrite Hold by (try done; by left). by rewrite Hnone.
        -- rewrite Hothers; [done|congruence|by right].
      * case_bool_decide as Ho; simpl; intros Hs; unfold SearchCatchUp.up_to_date in *.
        -- subst old. rewrite Hold by (try done; right; congruence). by rewrite Hs.
        -- rewrite Hothers; [done|congruence|left; congruence].
  - right. injection Hrun as <-. split_and!; try done.
Qed.
Lemma run_ok s job r : sys_ok s → sy_phase s = Taken job → is_full_rebuild job = false →
  handle_job (sy_fs s) root now (λ _, sy_fs s) job (sy_runtime s) = (Ok tt, r) →
  sys_ok {| sy_fs := sy_fs s; sy_runtime := r; sy_notices := sy_notices s; sy_phase := Idle |}.
Proof.
  intros Hs Hph Hnot Hrun. pose proof Hs as [].
  destruct (act_post_elim _ _ _ _ _ (handle_job_ok (sy_fs s) root now (λ _, sy_fs s) job (sy_runtime s) so_tables0 (or_intror so_links0)) Hrun) as [Hok Hres].
  specialize (Hres (or_introl Hnot)).
  pose proof (act_post_elim _ _ _ _ _ (handle_job_described (sy_fs s) root now (λ _, sy_fs s) job (sy_runtime s) Hnot so_tables0 so_described0) Hrun) as Hdescribed.
  cbv beta in Hdescribed. rewrite Hph in *. simpl in *.
  apply Forall_cons in so_jobs0 as [Hjob Hjobs].
  assert (Hrun_false : running (rt_rebuild_state (sy_runtime s)) = false) by done.
  assert (Hrerun_false : rerun (rt_rebuild_state (sy_runtime s)) = false).
  { destruct (rerun _) eqn:Hre; [|done]. rewrite so_rerun0 in Hrun_false by done. done. }
  assert (Hqueued : queued (rt_rebuild_state (sy_runtime s)) = true → ∃ reason, FullRebuild reason ∈ rt_jobs (sy_runtime s)).
  { intros Hq. destruct (so_queued0 Hq) as [reason Hin]. exists reason. apply elem_of_cons in Hin as [<-|]; done. }
  assert (Hnote : ∀ p, regular p → (∃ n, n ∈ sy_notices s ∧ covers n p) ∨
    settled (sy_fs s) (rt_db (sy_runtime s)) Idle p (job :: rt_jobs (sy_runtime s))).
  { intros p Hp. destruct (proj1 (note_ok_settled s p) (so_notes0 p Hp)) as [|Hset]; [by left|right].
    unfold waiting, rerun_jobs in Hset. rewrite Hph, Hrerun_false, app_nil_r in Hset. exact Hset. }
  destruct (job_checksums (sy_fs s) job (sy_runtime s) r so_tables0 so_keys0 Hjob Hnot Hrun)
    as [(reason & Hq & Hni)|(Hj & Ha & Hr & Hc & Hp & Hk & Hup)].
  - destruct (queue_rebuild_cases _ _ _ Hq so_alive0) as (Hdb & Halive & Hpend & Hcfg & Hcases).
    destruct Hcases as [(Hr & _)|[(Hr & Hqd & Hj & Hst)|(Hr & Hqd & Hj & Hst)]]; [congruence|..].
    + split; simpl; rewrite ?Hdb, ?Halive, ?Hpend, ?Hcfg, ?Hj, ?Hst; try done.
      * intros p Hin. apply (pending_tail p job); [by apply so_pending0|]. by intros src.
      * intros p Hp. rewrite note_ok_settled. simpl. destruct (Hnote p Hp) as [|Hset]; [by left|]. right.
        unfold waiting, rerun_jobs. rewrite Hst, Hrerun_false, Hj, app_nil_r. simpl.
        eapply settled_next; [exact Hset|]. intros Hv _. destruct (Hqueued Hqd) as [rs Hin]. destruct (verdict_rebuild (present (sy_fs s) p) p rs _ Hin Hv).
    + split; simpl; rewrite ?Hdb, ?Halive, ?Hpend, ?Hcfg, ?Hj, ?Hst; simpl; try done.
      * by intros Hre; rewrite Hrerun_false in Hre.
      * intros _. exists reason. set_solver.
      * intros p Hin. destruct (pending_tail p job (rt_jobs (sy_runtime s))) as (a & src & b & Heq & Hb).
        { by apply so_pending0. } { by intros src. }
        exists a, src, (b ++ [FullRebuild reason]). rewrite Heq, <- app_assoc. split; [done|].
        apply Forall_app. split; [done|]. apply Forall_singleton. by intros [].
      * apply Forall_app. split; [done|]. apply Forall_singleton. apply Forall_nil_2.
      * intros p Hp. rewrite note_ok_settled. simpl. right. unfold waiting, rerun_jobs. rewrite Hst, Hj. simpl.
        rewrite Hrerun_false, app_nil_r. apply settled_true. by rewrite verdict_app.
  - split; simpl; rewrite ?Ha, ?Hr, ?Hc, ?Hj; try done.
    + intros p Hin. destruct (Hp p Hin) as [Hold Hne]. by apply (pending_tail p job); [apply so_pending0|].
    + intros p Hreg. rewrite note_ok_settled. simpl. destruct (Hnote p Hreg) as [|Hset]; [by left|]. right.
      unfold waiting, rerun_jobs. rewrite Hr, Hrerun_false, Hj, app_nil_r. simpl.
      eapply settled_next; [exact Hset|]. intros _ Hone. by apply Hup.
Qed.
Lemma begin_ok s reason r : sys_ok s → sy_phase s = Taken (FullRebuild reason) →
  begin_rebuild reason (sy_runtime s) = (Ok tt, r) →
  sys_ok {| sy_fs := sy_fs s; sy_runtime := r; sy_notices := sy_notices s;
            sy_phase := Rebuilding reason (sy_fs s) (λ _, sy_fs s) |}.
Proof.
  intros [] Hph Hrun. injection Hrun as <-. unfold note_ok, waiting in *. rewrite Hph in *. simpl in *.
  apply Forall_cons in so_jobs0 as [_ Hjobs]. split; simpl; try done.
  - intros p Hp. by apply (pending_tail p (FullRebuild reason)); [apply so_pending0|].
  - intros p Hp. destruct (so_notes0 p Hp) as [|Hset]; [by left|right]. unfold waiting, rerun_jobs in *. simpl in *.
    eapply (settled_next _ (rt_db (sy_runtime s)) (rt_db (sy_runtime s)) Idle (Rebuilding reason (sy_fs s) (λ _, sy_fs s))); [exact Hset|done].
Qed.
(** The rebuild reads on: what it has read anew is as it is. *)
Lemma reading_ok s reason walked walked' seen seen' : sys_ok s → sy_phase s = Rebuilding reason walked seen →
  fs_ok walked' → (walked' = walked ∨ walked' = sy_fs s) → (∀ p, seen' p = seen p ∨ seen' p = sy_fs s) →
  sys_ok {| sy_fs := sy_fs s; sy_runtime := sy_runtime s; sy_notices := sy_notices s; sy_phase := Rebuilding reason walked' seen' |}.
Proof.
  intros [] Hph Hfs Hwalked Hseen. unfold note_ok, waiting in *. rewrite Hph in *. split; simpl; try done.
  intros p Hp. destruct (so_notes0 p Hp) as [|Hset]; [by left|right]. unfold waiting in *. simpl in *.
  destruct (verdict _ _ _) as [[]|]; [done..|]. destruct Hset as [Hw Hs].
  split; [by destruct Hwalked as [->| ->]|by destruct (Hseen p) as [->| ->]].
Qed.
Lemma rebuild_batches_queue sees total bs idx r :
  act_post (act_fold (rebuild_batch root now sees total) idx bs) r (λ _ r', same_queue r r').
Proof.
  apply (act_post_fold (same_queue r)); [done|]. intros i b r1 _ Hq. unfold rebuild_batch.
  apply (act_post_gets rt_db). apply act_post_lift; [|done]. intros docs _. exact Hq.
Qed.
Lemma rebuild_index_queue fs sees reason r r' : rebuild_index fs root now sees reason r = (Ok tt, r') → same_queue r r'.
Proof.
  unfold rebuild_index. intros (files & _ & Hrun)%act_lift_Ok.
  apply act_bind_Ok in Hrun as (u & r1 & Hst & Hrun). injection Hst as _ Hr1.
  assert (Hq1 : same_queue r r1) by (by rewrite <- Hr1). clear Hr1.
  apply act_bind_Ok in Hrun as (n & r2 & Hb & Hrun).
  pose proof (act_post_elim _ _ _ _ _ (rebuild_batches_queue sees _ _ 0 r1) Hb) as Hq2.
  apply act_bind_Ok in Hrun as (u' & r3 & Hst & Hrun). injection Hst as _ Hr3.
  assert (Hq3 : same_queue r2 r3) by (by rewrite <- Hr3). apply job_tail in Hrun as [_ Hq4].
  eapply same_queue_trans; [exact Hq1|]. eapply same_queue_trans; [exact Hq2|]. by eapply same_queue_trans.
Qed.
(** What a rebuild leaves: notes of the vault it walked through, and each that did not change
    since as it is. *)
Lemma rebuild_index_checksums fs walked seen reason r r' : tables_ok (rt_db r) → fs_ok walked →
  rebuild_index walked root now seen reason r = (Ok tt, r') →
  tables_ok (rt_db r') ∧ links_resolved (rt_db r') ∧ keys_regular regular (rt_db r') ∧
  ∀ p, regular p → note_checksum walked p = note_checksum fs p → note_checksum (seen p) p = note_checksum fs p →
    up_to_date fs (rt_db r') p.
Proof.
  intros Htables [Hreg Hnotes] Hrun.
  destruct (act_post_elim _ _ _ _ _ (rebuild_index_ok walked root now seen reason r Htables) Hrun) as [Hok Hend].
  destruct (Hend eq_refl) as (Hres & files & Hfiles & Hkeys & Hdesc & _).
  assert (Hin : ∀ p, p ∈ files ↔ vault_note walked root p) by (intros p; by apply collect_notes).
  split_and!; [done|done|intros p Hp; by apply Hreg, Hin, Hkeys|]. intros p Hp Hw Hs.
  unfold SearchCatchUp.up_to_date. rewrite <- Hs. unfold SearchCatchUp.note_checksum at 1.
  destruct (file_document (seen p) root now p) as [doc|] eqn:Hdoc.
  - assert (Hsome : is_Some (note_checksum fs p)) by (rewrite <- Hs; unfold SearchCatchUp.note_checksum; rewrite Hdoc; by eexists).
    destruct (Hdesc) with (p := p) (doc := doc) as [u (Hrow & _)]; [|by apply Hin, Hnotes; [|rewrite Hw]|done|].
    + intros a b Hfa Hfb. apply regular_distinct; by apply Hreg, Hin.
    + destruct (file_document_ok _ _ _ _ _ Hdoc) as [Hid _]. unfold index_checksum. by rewrite <- Hid, Hrow.
  - assert (Hnone : note_checksum fs p = None) by (rewrite <- Hs; unfold SearchCatchUp.note_checksum; by rewrite Hdoc).
    unfold index_checksum. destruct (db_documents (rt_db r') !! p) as [row|] eqn:Hrow; [|done]. exfalso.
    assert (Hnote : vault_note walked root p) by (apply Hin, Hkeys; eauto).
    apply Hnotes in Hnote; [|done]. rewrite Hw, Hnone in Hnote. by destruct Hnote.
Qed.
Lemma rebuild_ok s reason walked seen r : sys_ok s → sy_phase s = Rebuilding reason walked seen →
  rebuild_index walked root now seen reason (sy_runtime s) = (Ok tt, r) →
  sys_ok {| sy_fs := sy_fs s; sy_runtime := r; sy_notices := sy_notices s; sy_phase := Rebuilt |}.
Proof.
  intros Hs Hph Hrun. pose proof Hs as []. pose proof (rebuild_index_queue _ _ _ _ _ Hrun) as (Hj & Ha & Hpe & Hr & Hc).
  rewrite Hph in *. simpl in *.
  destruct (rebuild_index_checksums (sy_fs s) walked seen reason _ r so_tables0 so_walked0 Hrun) as (Hok & Hres & Hkeys & Hup).
  pose proof (act_post_elim _ _ _ _ _ (rebuild_index_described walked root now seen reason _ so_tables0 so_described0) Hrun) as Hdescribed.
  split; simpl; rewrite ?Ha, ?Hc, ?Hr, ?Hj, ?Hpe; try done.
  intros p Hp. rewrite note_ok_settled. simpl. destruct (proj1 (note_ok_settled s p) (so_notes0 p Hp)) as [|Hset]; [by left|right].
  unfold settled, waiting in *. rewrite Hph in Hset. simpl in *. rewrite Hr, Hj.
  destruct (verdict _ _ _) as [[]|]; [done..|]. destruct Hset as [Hw Hseen]. by apply Hup.
Qed.
Lemma finish_ok s r : sys_ok s → sy_phase s = Rebuilt → finish_rebuild (sy_runtime s) = (Ok tt, r) →
  sys_ok {| sy_fs := sy_fs s; sy_runtime := r; sy_notices := sy_notices s; sy_phase := Idle |}.
Proof.
  intros [] Hph Hrun. unfold finish_rebuild, mbind, act_bind, gets, modify, attempt, send in Hrun. cbn in Hrun.
  unfold note_ok, waiting, rerun_jobs in *. rewrite Hph in *. simpl in *.
  destruct (rerun (rt_rebuild_state (sy_runtime s))) eqn:Hre; cbn in Hrun; rewrite ?so_alive0 in Hrun; injection Hrun as <-.
  - split; simpl; try done.
    + intros _. exists "rebuild-rerun". set_solver.
    + intros p Hin. destruct (so_pending0 p Hin) as (a & src & b & Heq & Hb). exists a, src, (b ++ [FullRebuild "rebuild-rerun"]).
      rewrite Heq, <- app_assoc. split; [done|]. apply Forall_app. split; [done|]. apply Forall_singleton. by intros [].
    + apply Forall_app. split; [done|]. apply Forall_singleton. apply Forall_nil_2.
    + intros p Hp. destruct (so_notes0 p Hp) as [|Hv]; [by left|]. right. unfold waiting, rerun_jobs. simpl.
      rewrite app_nil_r. exact Hv.
  - split; simpl; try done.
    + by rewrite Hre.
    + intros p Hp. destruct (so_notes0 p Hp) as [|Hv]; [by left|]. right. unfold waiting, rerun_jobs. simpl. rewrite Hre. exact Hv.
Qed.

Lemma system_step_ok s s' : sys_ok s → step s s' → sys_ok s'.
Proof.
  intros Hs. destruct 1 as [fs n ? ? ? ?|n ns source r ? Hsafe Hn|reason r ?|job jobs ? ?|job r ? ? ?|reason r ? ?|reason walked seen Hph|reason walked seen p Hph|reason walked seen r ? ?|r ? ?].
  - by apply change_ok.
  - destruct n; simpl in Hn; [by eapply written_ok|by eapply removed_ok|by eapply renamed_ok].
  - by eapply request_ok.
  - by eapply take_ok.
  - by eapply run_ok.
  - by eapply begin_ok.
  - eapply reading_ok; [done|done|apply Hs|by right|by left].
  - eapply (reading_ok s reason walked walked seen); [done|done| |by left|].
    + pose proof (so_walked _ Hs) as Hw. by rewrite Hph in Hw.
    + intros q. destruct (decide (q = p)) as [->|Hne]; [right; by rewrite fn_lookup_insert|left; by rewrite fn_lookup_insert_ne].
  - by eapply rebuild_ok.
  - by eapply finish_ok.
Qed.

(** Where the system starts: a runtime that was opened on an index and asked for a rebuild *)
Lemma start_ok fs db config reason : tables_ok db → links_resolved db → keys_regular regular db → all_described db →
  incremental_updates config = true → fs_ok fs →
  sys_ok {| sy_fs := fs; sy_runtime := (queue_rebuild reason (new_runtime db config)).2; sy_notices := []; sy_phase := Idle |}.
Proof.
  intros Hok Hres Hkeys Hdesc Hinc Hfs. split; simpl; try done.
  - intros _. exists reason. set_solver.
  - apply Forall_singleton, Forall_nil_2.
  - intros p a n b _ Heq. by destruct a.

  - intros p Hp. by right.
Qed.
(** No notice is on its way, the thread is between jobs, no job waits. *)
Definition quiescent (s : Sys) : Prop :=
  sy_notices s = [] ∧ sy_phase s = Idle ∧ rt_jobs (sy_runtime s) = [].

(** What the index holds of a note: the row, the chunks and the links of a text with the
    note's checksum, under one number; nothing when there is no note. *)
Definition index_holds (fs : Fs) (db : SearchTables) (p : string) : Prop :=
  match file_document fs root now p with
  | Some doc => ∃ mtime content uid, blake3_hex content = id_content_checksum doc ∧
      describes_as db (document_of None p mtime content) uid
  | None => db_documents db !! p = None
  end.
Lemma up_to_date_holds fs db p : all_described db → up_to_date fs db p → index_holds fs db p.
Proof.
  intros Hall. unfold SearchCatchUp.up_to_date, SearchCatchUp.note_checksum, index_checksum, index_holds.
  destruct (db_documents db !! p) as [row|] eqn:Hrow; destruct (file_document fs root now p) as [doc|]; simpl; try done.
  intros [= Hsum]. destruct (Hall p row Hrow) as (mtime & content & Hdesc). exists mtime, content, (dr_note_uid row).
  split; [|done]. pose proof (proj1 Hdesc) as Hrow'. simpl in Hrow'. rewrite Hrow in Hrow'. injection Hrow' as Hrow'.
  rewrite Hrow' in Hsum. simpl in Hsum. congruence.
Qed.

(** C33: the index catches up. Incremental updates are on; the notes of the vault can be read
    and no two of their paths agree up to the case of ASCII letters; every change is notified,
    and jobs that are taken succeed; and no notice of a write is left to a queued rebuild
    behind which a job still takes the same note out ([safe_notice]; without this a note can
    be lost). Then, in whatever order notes change, notices arrive, rebuilds are asked for,
    jobs are taken and rebuilds read one note after the other, and whatever notices and requests are left out because waiting jobs cover
    them: when no notice is on its way and no job is left, the index holds for every path the
    row, the chunks and the links of a text with the checksum of the note there, or nothing
    if there is no note, it holds no other document, and every link is resolved. *)
Theorem index_catches_up s s' : sys_ok s → rtc step s s' → quiescent s' →
  (∀ p, regular p → up_to_date (sy_fs s') (rt_db (sy_runtime s')) p ∧ index_holds (sy_fs s') (rt_db (sy_runtime s')) p) ∧
  (∀ p, is_Some (db_documents (rt_db (sy_runtime s')) !! p) → regular p) ∧
  resolve_all_wikilinks (rt_db (sy_runtime s')) = rt_db (sy_runtime s').
Proof.
  intros Hs Hsteps (Hn & Hph & Hj). assert (Hs' : sys_ok s') by (induction Hsteps; eauto using system_step_ok).
  split; [|split; [exact (so_keys _ Hs')|by apply links_resolved_fixed; apply Hs']].
  intros p Hp. enough (Hup : up_to_date (sy_fs s') (rt_db (sy_runtime s')) p).
  { split; [done|]. apply up_to_date_holds; [apply Hs'|done]. }
  destruct (so_notes _ Hs' p Hp) as [(n & Hin & _)|Hv]; [rewrite Hn in Hin; by apply not_elem_of_nil in Hin|].
  unfold waiting, rerun_jobs in Hv. rewrite Hph, Hj in Hv. simpl in Hv.
  destruct (rerun (rt_rebuild_state (sy_runtime s'))) eqn:Hre; [|exact Hv].
  pose proof (so_rerun _ Hs' Hre) as Hr. rewrite (so_running _ Hs'), Hph in Hr. done.
Qed.
End system.
