(* ===== verification/SearchQueries.v ===== *)
(** * Advanced queries of the index (search/mod.rs, search/db.rs)

    The simple and the advanced query, and the graph of the notes. Full-text matching,
    [LIKE] and regular expressions are libraries and parameters here. *)
From Stdlib Require Import Ascii String QArith_base.
#[local] Set Warnings "-clear-no-such-hyp".
From S2P Require Import Prelude Text Paths SyncDb Scanner Chars Indexer Wikilinks Extract SearchLinks SearchDb SearchWriter SearchIncremental.

(** ** The rows of the body, with the number of their heading *)

Record AdvancedTitleRow := { at_doc_id : string; at_title : string }.
Record AdvancedBodyRow := {
  ab_doc_id : string;
  ab_title : option string;
  ab_section_path : list string;
  ab_section_ordinal : nat;
  ab_kind : string;
  ab_raw_text : string;
  ab_global_start : Z }.
Record SimpleSearchHit := {
  sh_doc_id : string;
  sh_title : option string;
  sh_section_path : list string;
  sh_section_ordinal : nat;
  sh_snippet : string;
  sh_kind : string;
  sh_score : Q }.
(** [serde_json::from_str::<Vec<String>>(..).unwrap_or_default()] *)
Class SectionPathParser := { parse_section_path : string → list string }.

(** [ORDER BY cr.doc_id ASC, cr.section_path ASC, cr.global_start ASC] *)
Definition section_key (c : ChunkRow) : string * string := (cr_doc_id c, ic_section_path_json (cr_chunk c)).
Definition body_leb (c d : ChunkRow) : bool :=
  if bool_decide (section_key c = section_key d) then (ic_global_start (cr_chunk c) <=? ic_global_start (cr_chunk d))%Z
  else str_pair_leb (section_key c) (section_key d).
Definition body_rows (db : SearchTables) : list ChunkRow := sort_by body_leb (db_chunk_rows db).
Definition is_heading (c : ChunkRow) : bool := bool_decide (ic_kind (cr_chunk c) = "Heading").

(** The loop's state: the section of the last row and how many headings it has had *)
Record SectionCount := { sc_current_key : option (string * string); sc_heading_count : nat }.
Definition section_ordinal_step `{SectionPathParser} (st : SectionCount) (c : ChunkRow) : nat * SectionCount :=
  let key := section_key c in
  let heading_count := if bool_decide (sc_current_key st = Some key) then sc_heading_count st else 0 in
  match parse_section_path (ic_section_path_json (cr_chunk c)) with
  | [] => (0, {| sc_current_key := Some key; sc_heading_count := heading_count |})
  | _ =>
      if is_heading c then (heading_count, {| sc_current_key := Some key; sc_heading_count := S heading_count |})
      else (heading_count - 1, {| sc_current_key := Some key; sc_heading_count := heading_count |})
  end.
Definition no_section : SectionCount := {| sc_current_key := None; sc_heading_count := 0 |}.
Fixpoint with_ordinals `{SectionPathParser} (st : SectionCount) (rows : list ChunkRow) : list (ChunkRow * nat) :=
  match rows with
  | [] => []
  | c :: rows => let '(ordinal, st) := section_ordinal_step st c in (c, ordinal) :: with_ordinals st rows
  end.
(** The number the simple query's statement gives a row: [MAX(0, (SELECT COUNT( * ) ...) - 1)] *)
Definition anchors (rows : list ChunkRow) (c : ChunkRow) : nat :=
  length (List.filter (λ d, bool_decide (section_key d = section_key c) && is_heading d
                            && (ic_global_start (cr_chunk d) <=? ic_global_start (cr_chunk c))%Z) rows).
Definition sql_section_ordinal (db : SearchTables) (c : ChunkRow) : nat :=
  if bool_decide (ic_section_path_json (cr_chunk c) = "[]") then 0 else anchors (db_chunk_rows db) c - 1.

(** ** The advanced query *)

Class Regex := {
  regex_error : string → bool → option string;
  regex_find : string → bool → string → option (nat * nat) }.
(** [visit_advanced_*]: rows until the visitor has enough *)
Fixpoint visit {R S} (visitor : S → R → S * bool) (st : S) (rows : list R) : S :=
  match rows with
  | [] => st
  | row :: rows => let '(st, should_continue) := visitor st row in if should_continue : bool then visit visitor st rows else st
  end.
Definition title_rows (db : SearchTables) : list AdvancedTitleRow :=
  omap (λ kv : string * DocumentRow,
    match dr_title kv.2 with
    | Some title => if str_is_empty title then None else Some {| at_doc_id := kv.1; at_title := title |}
    | None => None
    end) (sorted_documents db).
Definition advanced_body_rows `{SectionPathParser} (db : SearchTables) : list AdvancedBodyRow :=
  (λ x : ChunkRow * nat,
     {| ab_doc_id := cr_doc_id x.1; ab_title := db_documents db !! cr_doc_id x.1 ≫= dr_title;
        ab_section_path := parse_section_path (ic_section_path_json (cr_chunk x.1)); ab_section_ordinal := x.2;
        ab_kind := ic_kind (cr_chunk x.1); ab_raw_text := ic_raw_text (cr_chunk x.1);
        ab_global_start := ic_global_start (cr_chunk x.1) |}) <$> with_ordinals no_section (body_rows db).
Record SimpleSearchResult := { sr_query : string; sr_items : list SimpleSearchHit }.
Definition sr_total (r : SimpleSearchResult) : nat := length (sr_items r).
Record AdvancedQueryRequest := { aq_query : string; aq_case_sensitive : bool; aq_max_results : option nat }.

Section advanced.
Context `{Regex, SectionPathParser}.
Context (query : string) (case_insensitive : bool).
Definition title_hit (row : AdvancedTitleRow) : option SimpleSearchHit :=
  match regex_find query case_insensitive (at_title row) with
  | Some _ => Some {| sh_doc_id := at_doc_id row; sh_title := Some (at_title row); sh_section_path := [];
                      sh_section_ordinal := 0; sh_snippet := at_title row; sh_kind := "Title"; sh_score := 1%Q |}
  | None => None
  end.
Definition body_hit (row : AdvancedBodyRow) : option SimpleSearchHit :=
  let trimmed := trim (ab_raw_text row) in
  match regex_find query case_insensitive trimmed with
  | Some (start, end_) =>
      Some {| sh_doc_id := ab_doc_id row; sh_title := ab_title row; sh_section_path := ab_section_path row;
              sh_section_ordinal := ab_section_ordinal row;
              sh_snippet := from_chars (default [] (build_snippet_for_range (chars trimmed) start end_));
              sh_kind := ab_kind row; sh_score := 0%Q |}
  | None => None
  end.
(** The visitors of the titles and of the body: a row that does not match goes on. *)
Definition title_visitor (max_results : nat) (hits : list SimpleSearchHit) (row : AdvancedTitleRow) : list SimpleSearchHit * bool :=
  let hits := match title_hit row with Some hit => hits ++ [hit] | None => hits end in
  (hits, length hits <? max_results).
Definition body_visitor (max_results : nat) (hits : list SimpleSearchHit) (row : AdvancedBodyRow) : list SimpleSearchHit * bool :=
  match body_hit row with
  | None => (hits, true)
  | Some hit => let hits := hits ++ [hit] in (hits, length hits <? max_results)
  end.
Definition advanced_hits (db : SearchTables) (max_results : nat) : list SimpleSearchHit :=
  let hits := visit (title_visitor max_results) [] (title_rows db) in
  if length hits <? max_results then visit (body_visitor max_results) hits (advanced_body_rows db) else hits.
End advanced.
Definition query_advanced `{Regex, SectionPathParser} (db : option SearchTables) (request : AdvancedQueryRequest)
  : Result string SimpleSearchResult :=
  let query := trim (aq_query request) in
  let empty := {| sr_query := query; sr_items := [] |} in
  if str_is_empty query then Ok empty
  else match db with
       | None => Ok empty
       | Some db =>
           match regex_error query (negb (aq_case_sensitive request)) with
           | Some error => Err ("Invalid regex: " +:+ error)
           | None =>
               let max_results := default 20 (aq_max_results request) in
               if max_results =? 0 then Ok empty
               else Ok {| sr_query := query;
                          sr_items := advanced_hits query (negb (aq_case_sensitive request)) db max_results |}
           end
       end.

Lemma visit_title `{Regex} query ci max hits rows : length hits < max →
  visit (title_visitor query ci max) hits rows = take max (hits ++ omap (title_hit query ci) rows).
Proof.
  revert hits. induction rows as [|row rows IH]; intros hits Hlen; cbn [visit omap list_omap].
  - by rewrite app_nil_r, take_ge by lia.
  - unfold title_visitor at 1. destruct (title_hit query ci row) as [hit|].
    + destruct (Nat.ltb_spec (length (hits ++ [hit])) max) as [Hlt|Hge].
      * rewrite IH by done. by rewrite <- app_assoc.
      * rewrite length_app in Hge. simpl in Hge.
        assert (Hsnoc : ∀ l, hits ++ hit :: l = (hits ++ [hit]) ++ l) by (intros l; by rewrite <- app_assoc).
        rewrite (Hsnoc (omap _ rows)), take_app_length'; [done|].
        rewrite length_app. simpl. lia.
    + rewrite (proj2 (Nat.ltb_lt _ _)) by done. by apply IH.
Qed.
Lemma visit_body `{Regex} query ci max hits rows : length hits < max →
  visit (body_visitor query ci max) hits rows = take max (hits ++ omap (body_hit query ci) rows).
Proof.
  revert hits. induction rows as [|row rows IH]; intros hits Hlen; cbn [visit omap list_omap].
  - by rewrite app_nil_r, take_ge by lia.
  - unfold body_visitor at 1. destruct (body_hit query ci row) as [hit|].
    + destruct (Nat.ltb_spec (length (hits ++ [hit])) max) as [Hlt|Hge].
      * rewrite IH by done. by rewrite <- app_assoc.
      * rewrite length_app in Hge. simpl in Hge.
        assert (Hsnoc : ∀ l, hits ++ hit :: l = (hits ++ [hit]) ++ l) by (intros l; by rewrite <- app_assoc).
        rewrite (Hsnoc (omap _ rows)), take_app_length'; [done|].
        rewrite length_app. simpl. lia.
    + by apply IH.
Qed.
(** The advanced query returns the first of its hits: those of the titles in the order of the
    paths, then those of the chunks in the order of path, section and position, as many as
    were asked for; it stops reading rows as soon as it has them. *)
Theorem query_advanced_exact `{Regex, SectionPathParser} db request r :
  query_advanced (Some db) request = Ok r →
  let query := trim (aq_query request) in
  let ci := negb (aq_case_sensitive request) in
  sr_query r = query ∧
  sr_items r = if str_is_empty query then [] else
    take (default 20 (aq_max_results request))
      (omap (title_hit query ci) (title_rows db) ++ omap (body_hit query ci) (advanced_body_rows db)).
Proof.
  unfold query_advanced. cbv zeta. destruct (str_is_empty _) eqn:Hq; [by intros [= <-]|].
  destruct (regex_error _ _); [done|]. destruct (Nat.eqb_spec (default 20 (aq_max_results request)) 0) as [->|Hmax].
  - by intros [= <-].
  - intros [= <-]. split; [done|]. unfold advanced_hits. cbn [sr_items]. set (max := default 20 _) in *.
    rewrite visit_title by (simpl; lia). simpl.
    set (titles := omap _ (title_rows db)). set (body := omap _ (advanced_body_rows db)).
    destruct (Nat.ltb_spec (length (take max titles)) max) as [Hlt|Hge]; rewrite length_take in *.
    + rewrite visit_body by (rewrite length_take; lia). by rewrite (take_ge titles) by lia.
    + rewrite take_app_le by lia. done.
Qed.

(** ** The numbers of the headings *)

Definition body_position (c : ChunkRow) : (string * string) * Z := (section_key c, ic_global_start (cr_chunk c)).
Lemma str_pair_leb_antisym k l : str_pair_leb k l = true → str_pair_leb l k = true → k = l.
Proof.
  destruct k as [a b], l as [a' b']. unfold str_pair_leb. simpl. repeat case_decide; try congruence.
  - intros. f_equal; [done|]. by apply str_leb_antisym.
  - intros. exfalso. by apply H, str_leb_antisym.
Qed.
#[export] Instance body_leb_total : TotalPreorder body_leb.
Proof.
  split; unfold body_leb; intros c d.
  - repeat case_bool_decide; try congruence; [lia|].
    apply (@tpo_total _ _ (str_pair_leb_total section_key)).
  - intros e. repeat case_bool_decide; try congruence; try lia; intros Hcd Hde; try congruence.
    + exfalso. apply H. apply str_pair_leb_antisym; congruence.
    + by eapply (@tpo_trans _ _ (str_pair_leb_total section_key)).
Qed.

Definition headings_of (k : string * string) (rows : list ChunkRow) : nat :=
  length (List.filter (λ d, bool_decide (section_key d = k) && is_heading d) rows).
Lemma headings_of_app k l1 l2 : headings_of k (l1 ++ l2) = headings_of k l1 + headings_of k l2.
Proof. unfold headings_of. by rewrite List.filter_app, length_app. Qed.
Lemma filter_length_ext {A} (p q : A → bool) l : (∀ x, x ∈ l → p x = q x) → length (List.filter p l) = length (List.filter q l).
Proof.
  induction l as [|x l IH]; [done|]. intros Heq. simpl. rewrite (Heq x) by left.
  specialize (IH (λ y Hy, Heq y (list_elem_of_further _ _ _ Hy))). destruct (q x); simpl; by rewrite IH.
Qed.
Lemma filter_length_none {A} (p : A → bool) l : (∀ x, x ∈ l → p x = false) → length (List.filter p l) = 0.
Proof.
  intros Hnone. rewrite (filter_length_ext p (λ _, false)) by done. clear Hnone. by induction l.
Qed.
Lemma str_pair_leb_refl k : str_pair_leb k k = true.
Proof. unfold str_pair_leb. rewrite decide_True by done. apply str_leb_refl. Qed.
Lemma anchors_perm c l1 l2 : l1 ≡ₚ l2 → anchors l1 c = anchors l2 c.
Proof.
  unfold anchors. induction 1; simpl; [done| | |congruence]; repeat case_match; simpl; congruence.
Qed.
Lemma body_leb_key c d : body_leb c d = true → str_pair_leb (section_key c) (section_key d) = true.
Proof.
  unfold body_leb. case_bool_decide as Hk; [|done]. intros _. rewrite Hk. apply str_pair_leb_refl.
Qed.
Lemma body_leb_start c d : body_leb c d = true → section_key c = section_key d →
  (ic_global_start (cr_chunk c) ≤ ic_global_start (cr_chunk d))%Z.
Proof. unfold body_leb. intros Hle Hk. case_bool_decide; [lia|done]. Qed.

Section ordinals.
Context `{SectionPathParser}.
#[local] Abbreviation sorted := (StronglySorted (λ c d, body_leb c d = true)).

Lemma new_section pre c rows : sorted (pre ++ c :: rows) → section_key <$> last pre ≠ Some (section_key c) →
  headings_of (section_key c) pre = 0.
Proof.
  intros [Hpre [Hs _]]%StronglySorted_app Hne. apply filter_length_none. intros d Hd.
  case_bool_decide as Hk; [|done]. exfalso. apply Hne.
  destruct (last pre) as [e|] eqn:Hlast; [|by apply last_None in Hlast; subst; apply not_elem_of_nil in Hd].
  apply last_Some in Hlast as [pre' ->]. simpl. f_equal.
  apply str_pair_leb_antisym; [apply body_leb_key, Hpre; [set_solver|left]|].
  apply elem_of_app in Hd as [Hd|Hd]; [|apply list_elem_of_singleton in Hd as <-; by rewrite Hk; apply str_pair_leb_refl].
  rewrite <- Hk. apply body_leb_key. apply StronglySorted_app in Hs as [Hs _]. apply Hs; [done|left].
Qed.
Lemma anchors_before pre c rows : sorted (pre ++ c :: rows) → NoDup (body_position <$> pre ++ c :: rows) →
  anchors (pre ++ c :: rows) c = headings_of (section_key c) pre + (if is_heading c then 1 else 0).
Proof.
  intros [Hpre [_ Hs]]%StronglySorted_app Hdistinct. unfold anchors. rewrite List.filter_app, length_app. f_equal.
  - apply filter_length_ext. intros d Hd. case_bool_decide as Hk; [|done]. simpl. rewrite andb_comm.
    rewrite (proj2 (Z.leb_le _ _)); [done|]. apply body_leb_start; [|done]. apply Hpre; [done|left].
  - cbn [List.filter]. rewrite bool_decide_true, Z.leb_refl, andb_true_r by done. simpl.
    enough (Hrest : length (List.filter (λ d, bool_decide (section_key d = section_key c) && is_heading d
      && (ic_global_start (cr_chunk d) <=? ic_global_start (cr_chunk c))%Z) rows) = 0).
    { destruct (is_heading c); simpl; by rewrite Hrest. }
    apply filter_length_none. intros d Hd. case_bool_decide as Hk; [|done]. simpl.
    apply andb_false_iff. right. apply Z.leb_gt.
    apply StronglySorted_inv in Hs as [_ Hs]. rewrite Forall_forall in Hs.
    assert (Hle := body_leb_start c d (Hs d Hd) (eq_sym Hk)).
    enough (ic_global_start (cr_chunk c) ≠ ic_global_start (cr_chunk d)) by lia. intros Heq.
    rewrite fmap_app, fmap_cons in Hdistinct. apply NoDup_app in Hdistinct as (_ & _ & Hdistinct).
    apply NoDup_cons in Hdistinct as [Hnot _]. apply Hnot. apply list_elem_of_fmap. exists d. split; [|done].
    unfold body_position. congruence.
Qed.

(** The loop, after the rows [pre] *)
Record counted (pre : list ChunkRow) (st : SectionCount) : Prop := {
  counted_key : sc_current_key st = section_key <$> last pre;
  counted_headings k : sc_current_key st = Some k → parse_section_path k.2 ≠ [] → sc_heading_count st = headings_of k pre }.
Lemma section_ordinal_step_spec pre st c rows :
  counted pre st → sorted (pre ++ c :: rows) → NoDup (body_position <$> pre ++ c :: rows) →
  (parse_section_path (ic_section_path_json (cr_chunk c)) = [] ↔ ic_section_path_json (cr_chunk c) = "[]") →
  let '(n, st') := section_ordinal_step st c in
  n = (if bool_decide (ic_section_path_json (cr_chunk c) = "[]") then 0 else anchors (pre ++ c :: rows) c - 1) ∧
  counted (pre ++ [c]) st'.
Proof.
  intros [Hkey Hcount] Hs Hdistinct Hparse. unfold section_ordinal_step.
  rewrite (anchors_before pre c rows) by done.
  assert (Hnow : parse_section_path (ic_section_path_json (cr_chunk c)) ≠ [] →
    (if bool_decide (sc_current_key st = Some (section_key c)) then sc_heading_count st else 0) = headings_of (section_key c) pre).
  { intros Hp. case_bool_decide as Hc; [by apply Hcount|]. symmetry. eapply new_section; [done|]. by rewrite <- Hkey. }
  assert (Hone : headings_of (section_key c) [c] = if is_heading c then 1 else 0).
  { unfold headings_of. simpl. rewrite bool_decide_true by done. by destruct (is_heading c). }
  destruct (parse_section_path _) as [|seg segs] eqn:Hp.
  - rewrite bool_decide_true by (by apply Hparse). split; [done|]. split; simpl; [by rewrite last_snoc|].
    intros k [= <-] Hk. by rewrite <- Hp in Hk.
  - rewrite (bool_decide_false (_ = "[]")) by (intros Heq; by apply Hparse in Heq). specialize (Hnow ltac:(done)).
    destruct (is_heading c) eqn:Hh; (split; [lia|]); (split; simpl; [by rewrite last_snoc|]);
      intros k [= <-] _; rewrite headings_of_app, Hone, Hnow; lia.
Qed.
Lemma with_ordinals_spec pre st rows :
  counted pre st → sorted (pre ++ rows) → NoDup (body_position <$> pre ++ rows) →
  Forall (λ c, parse_section_path (ic_section_path_json (cr_chunk c)) = [] ↔ ic_section_path_json (cr_chunk c) = "[]") rows →
  with_ordinals st rows =
    (λ c, (c, if bool_decide (ic_section_path_json (cr_chunk c) = "[]") then 0 else anchors (pre ++ rows) c - 1)) <$> rows.
Proof.
  revert pre st. induction rows as [|c rows IH]; intros pre st Hst Hs Hdistinct Hparse; [done|].
  inversion_clear Hparse as [|?? Hc Hrows]. assert (Hstep := section_ordinal_step_spec pre st c rows Hst Hs Hdistinct Hc).
  cbn [with_ordinals]. destruct (section_ordinal_step st c) as [n st']. destruct Hstep as [-> Hst'].
  rewrite (cons_middle c pre rows), app_assoc in *. cbn [fmap list_fmap]. f_equal. by apply IH.
Qed.
End ordinals.

(** The number the two queries give a hit among the sections of the same heading is the
    same: the advanced query counts headings while it streams the rows in order, the
    simple query's statement counts them for each row. *)
Theorem section_ordinals_agree `{SectionPathParser} (db : SearchTables) :
  NoDup (body_position <$> db_chunk_rows db) →
  Forall (λ c, parse_section_path (ic_section_path_json (cr_chunk c)) = [] ↔ ic_section_path_json (cr_chunk c) = "[]")
    (db_chunk_rows db) →
  with_ordinals no_section (body_rows db) = (λ c, (c, sql_section_ordinal db c)) <$> body_rows db.
Proof.
  intros Hdistinct Hparse. unfold body_rows. rewrite (with_ordinals_spec []).
  - apply list_fmap_ext. intros i c _. unfold sql_section_ordinal. simpl.
    by rewrite (anchors_perm c (sort_by body_leb (db_chunk_rows db)) (db_chunk_rows db)) by apply sort_by_perm.
  - split; simpl; [done|]. by intros k.
  - apply sort_by_sorted, body_leb_total.
  - simpl. by apply NoDup_sort_by.
  - by rewrite sort_by_perm.
Qed.
