(* ===== verification/SearchSimple.v ===== *)
(** * Simple queries of the index (search/mod.rs, search/db.rs)

    A simple query looks for its text in the titles and the front matter, with [LIKE], and
    for its words in the chunks, with the full-text index. SQLite's [lower] and [LIKE] are
    defined here; the full-text index is a parameter. *)
From Stdlib Require Import Ascii String QArith_base Lqa.
#[local] Set Warnings "-clear-no-such-hyp".
From S2P Require Import Prelude Text Paths SyncDb Scanner Chars Indexer Wikilinks Extract SearchLinks SearchDb SearchWriter SearchIncremental SearchQueries.

(** ** LIKE *)

(** [LIKE] of SQLite: [%] stands for any text, [_] for any character, and the case of
    ASCII letters does not count. *)
Definition PERCENT : N := 37.
Definition UNDERSCORE : N := 95.
Definition fold_ascii (c : N) : N := if ((65 <=? c) && (c <=? 90))%N then (c + 32)%N else c.
Fixpoint like_match (pattern t : text) : bool :=
  match pattern with
  | [] => match t with [] => true | _ => false end
  | p :: pattern =>
      if (p =? PERCENT)%N then
        (fix from t := like_match pattern t || match t with [] => false | _ :: t => from t end) t
      else match t with
           | [] => false
           | c :: t => ((p =? UNDERSCORE)%N || (fold_ascii p =? fold_ascii c)%N) && like_match pattern t
           end
  end.
(** [lower(COALESCE(value, ''))]: SQLite lowers ASCII letters only. *)
Definition sql_lower (value : string) : text := fold_ascii <$> chars value.

Lemma like_percent pattern t : like_match (PERCENT :: pattern) t = true ↔ ∃ a b, t = a ++ b ∧ like_match pattern b = true.
Proof.
  change (like_match (PERCENT :: pattern) t) with
    ((fix from t := like_match pattern t || match t with [] => false | _ :: t => from t end) t).
  induction t as [|c t IH].
  - rewrite orb_false_r. split; [by exists [], []|]. by intros ([] & [] & ? & ?).
  - rewrite orb_true_iff, IH. split.
    + intros [Hm|(a & b & -> & Hm)]; [by exists [], (c :: t)|by exists (c :: a), b].
    + intros (a & b & Heq & Hm). destruct a as [|d a]; simpl in Heq; [left; by subst b|].
      injection Heq as -> ->. right. by exists a, b.
Qed.
Lemma like_plain q pattern t : Forall (λ c, c ≠ PERCENT ∧ c ≠ UNDERSCORE) q →
  like_match (q ++ pattern) t = true ↔
  ∃ a b, t = a ++ b ∧ fold_ascii <$> a = fold_ascii <$> q ∧ like_match pattern b = true.
Proof.
  intros Hq. revert t. induction Hq as [|p q [Hp Hu] Hq IH]; intros t.
  - simpl. split; [by exists [], t|]. intros ([] & b & -> & ? & ?); done.
  - cbn [app like_match]. rewrite (proj2 (N.eqb_neq p PERCENT)), (proj2 (N.eqb_neq p UNDERSCORE)) by done. simpl.
    destruct t as [|c t].
    + split; [done|]. intros ([|d a] & b & Heq & Hf & _); [by destruct q|done].
    + rewrite andb_true_iff, N.eqb_eq, IH. split.
      * intros (Hc & a & b & -> & Ha & Hm). exists (c :: a), b. split; [done|]. split; [|done]. cbn [fmap list_fmap]. by rewrite Hc, Ha.
      * intros ([|d a] & b & Heq & Hf & Hm); [done|]. injection Heq as <- ->. cbn [fmap list_fmap] in Hf. injection Hf as Hc Ha.
        split; [done|]. by exists a, b.
Qed.

(** ** The query *)

(** The rows of [chunks_fts MATCH ?1] with [-bm25(chunks_fts)], which depends on all rows *)
Class FullText := { fts_score : SearchTables → text → ChunkRow → option Q }.

Section simple.
Context `{Unicode, Alphabet, SectionPathParser, FullText}.

Definition metadata_hit (like : text) (doc_id : string) (row : DocumentRow) : option SimpleSearchHit :=
  if like_match like (sql_lower (default "" (dr_title row))) || like_match like (sql_lower (dr_meta_json row)) then
    Some {| sh_doc_id := doc_id; sh_title := dr_title row; sh_section_path := []; sh_section_ordinal := 0;
            sh_snippet := default (dr_meta_json row) (dr_title row); sh_kind := "Heading"; sh_score := 1000000%Q |}
  else None.
Definition query_metadata_hits (db : SearchTables) (normalized_query : text) (limit : nat) : list SimpleSearchHit :=
  take limit (omap (λ kv : string * DocumentRow, metadata_hit ([PERCENT] ++ normalized_query ++ [PERCENT]) kv.1 kv.2)
    (sorted_documents db)).
(** [ORDER BY score DESC, doc_id ASC] *)
Definition score_leb (s : Q) (id : string) (s' : Q) (id' : string) : bool :=
  if Qeq_bool s s' then str_leb id id' else Qle_bool s' s.
Definition row_leb (x y : Q * ChunkRow) : bool := score_leb x.1 (cr_doc_id x.2) y.1 (cr_doc_id y.2).
(** [None] is a panic of the snippet. *)
Fixpoint option_all {A} (l : list (option A)) : option (list A) :=
  match l with
  | [] => Some []
  | x :: l => x ← x; l ← option_all l; Some (x :: l)
  end.
Definition chunk_hit (db : SearchTables) (snippet_builder : string → option string) (row : Q * ChunkRow) : option SimpleSearchHit :=
  let c := row.2 in
  snippet ← snippet_builder (ic_raw_text (cr_chunk c));
  Some {| sh_doc_id := cr_doc_id c; sh_title := db_documents db !! cr_doc_id c ≫= dr_title;
          sh_section_path := parse_section_path (ic_section_path_json (cr_chunk c));
          sh_section_ordinal := sql_section_ordinal db c; sh_snippet := snippet; sh_kind := ic_kind (cr_chunk c);
          sh_score := row.1 |}.
Definition matching_rows (db : SearchTables) (fts_query : text) : list (Q * ChunkRow) :=
  omap (λ c, (λ score, (score, c)) <$> fts_score db fts_query c) (db_chunk_rows db).
Definition query_body_hits (db : SearchTables) (fts_query : text) (limit : nat) (snippet_builder : string → option string)
  : option (list SimpleSearchHit) :=
  option_all (chunk_hit db snippet_builder <$> take limit (sort_by row_leb (matching_rows db fts_query))).
(** [hits.retain(|hit| dedup.insert((...)))] *)
Definition hit_key (h : SimpleSearchHit) :=
  (sh_doc_id h, sh_section_path h, sh_section_ordinal h, sh_kind h, sh_snippet h).
Fixpoint retain_new (seen : list (string * list string * nat * string * string)) (hits : list SimpleSearchHit) : list SimpleSearchHit :=
  match hits with
  | [] => []
  | h :: hits => if bool_decide (hit_key h ∈ seen) then retain_new seen hits else h :: retain_new (hit_key h :: seen) hits
  end.
Definition hit_leb (g h : SimpleSearchHit) : bool := score_leb (sh_score g) (sh_doc_id g) (sh_score h) (sh_doc_id h).
(** The candidates: the metadata hits, then the body hits *)
Definition simple_candidates (db : SearchTables) (plan : SimpleQueryPlan) (max_results : nat) : option (list SimpleSearchHit) :=
  let hits := query_metadata_hits db (normalized_query plan) max_results in
  match build_fts_query plan with
  | None => Some hits
  | Some fts_query =>
      body ← query_body_hits db fts_query max_results
               (λ raw, from_chars <$> build_snippet (chars raw) (original_query plan));
      Some (hits ++ body)
  end.
Definition query_simple (db : option SearchTables) (query : string) (max_results : nat) : option SimpleSearchResult :=
  let plan := plan_simple_query (chars query) in
  let empty := {| sr_query := from_chars (original_query plan); sr_items := [] |} in
  if bool_decide (route plan = RouteNone) then Some empty
  else match db with
       | None => Some empty
       | Some db =>
           hits ← simple_candidates db plan max_results;
           Some {| sr_query := from_chars (original_query plan);
                   sr_items := take max_results (sort_by hit_leb (retain_new [] hits)) |}
       end.

(** ** What it finds *)

#[export] Instance score_leb_total {A} (score : A → Q) (id : A → string) :
  TotalPreorder (λ x y, score_leb (score x) (id x) (score y) (id y)).
Proof.
  split; unfold score_leb; intros x y.
  - rewrite (Qeq_bool_comm (score y)). destruct (Qeq_bool (score x) (score y)); [apply str_leb_total|].
    rewrite !Qle_bool_iff. destruct (Qlt_le_dec (score x) (score y)); [right; by apply Qlt_le_weak|by left].
  - intros z. destruct (Qeq_bool (score x) (score y)) eqn:Hxy; [apply Qeq_bool_iff in Hxy|apply Qeq_bool_neq in Hxy];
      (destruct (Qeq_bool (score y) (score z)) eqn:Hyz; [apply Qeq_bool_iff in Hyz|apply Qeq_bool_neq in Hyz]);
      (destruct (Qeq_bool (score x) (score z)) eqn:Hxz; [apply Qeq_bool_iff in Hxz|apply Qeq_bool_neq in Hxz]);
      rewrite ?Qle_bool_iff; intros Ha Hb; try lra; by eapply str_leb_trans.
Qed.
Lemma retain_new_spec seen hits :
  NoDup (hit_key <$> retain_new seen hits) ∧
  (∀ h, h ∈ retain_new seen hits → h ∈ hits ∧ hit_key h ∉ seen) ∧
  (∀ h, h ∈ hits → hit_key h ∈ seen ∨ hit_key h ∈ (hit_key <$> retain_new seen hits)).
Proof.
  revert seen. induction hits as [|h hits IH]; intros seen; cbn [retain_new].
  { split_and!; [apply NoDup_nil_2|intros h Hh; by apply not_elem_of_nil in Hh..]. }
  case_bool_decide as Hseen.
  - destruct (IH seen) as (Hnd & Hsound & Hall). split_and!; [done|intros g Hg; apply Hsound in Hg as [? ?]; split; [by right|done]|].
    intros g [->|Hg]%elem_of_cons; auto.
  - destruct (IH (hit_key h :: seen)) as (Hnd & Hsound & Hall). cbn [fmap list_fmap]. split_and!.
    + apply NoDup_cons. split; [|done]. intros (g & Hk & Hg)%list_elem_of_fmap. apply Hsound in Hg as [_ Hg]. apply Hg. rewrite <- Hk. left.
    + intros g [->|Hg]%elem_of_cons; [split; [left|done]|]. apply Hsound in Hg as [Hg Hn]. split; [by right|]. intros Hin. apply Hn. by right.
    + intros g [->|Hg]%elem_of_cons; [right; left|]. destruct (Hall g Hg) as [Hk|Hk]; [|right; by right].
      apply elem_of_cons in Hk as [->|Hk]; [right; left|by left].
Qed.
(** A simple query returns the best of its candidates, the metadata hits and the body
    hits: none of them twice, in the order of their scores and paths, at most as many as
    were asked for; a candidate it leaves out comes after all those it returns, and it
    leaves none out before it has as many as were asked for. *)
Theorem query_simple_best db query n r candidates :
  query_simple (Some db) query n = Some r →
  let plan := plan_simple_query (chars query) in
  simple_candidates db plan n = Some candidates → route plan ≠ RouteNone →
  NoDup (hit_key <$> sr_items r) ∧ StronglySorted (λ g h, hit_leb g h = true) (sr_items r) ∧ length (sr_items r) ≤ n ∧
  (∀ h, h ∈ sr_items r → h ∈ candidates) ∧
  ∃ rest, (∀ h, h ∈ candidates → hit_key h ∈ (hit_key <$> sr_items r ++ rest)) ∧
    (∀ g h, g ∈ sr_items r → h ∈ rest → hit_leb g h = true) ∧ (rest = [] ∨ length (sr_items r) = n).
Proof.
  unfold query_simple. cbv zeta. intros Hr Hc Hroute. rewrite bool_decide_false in Hr by done. rewrite Hc in Hr.
  injection Hr as <-. cbn [sr_items]. destruct (retain_new_spec [] candidates) as (Hnd & Hsound & Hall).
  set (kept := retain_new [] candidates) in *. set (sorted := sort_by hit_leb kept).
  assert (Hsorted : StronglySorted (λ g h, hit_leb g h = true) sorted) by (apply sort_by_sorted, score_leb_total).
  assert (Hperm : sorted ≡ₚ kept) by apply sort_by_perm.
  rewrite <- (take_drop n sorted) in Hsorted. apply StronglySorted_app in Hsorted as (Hlt & Htake & _). split_and!.
  - eapply (NoDup_app (hit_key <$> take n sorted) (hit_key <$> drop n sorted)). rewrite <- fmap_app, take_drop. by rewrite Hperm.
  - done.
  - rewrite length_take. lia.
  - intros h Hh. apply Hsound. rewrite <- Hperm. rewrite <- (take_drop n sorted). apply elem_of_app. by left.
  - exists (drop n sorted). split_and!.
    + intros h Hh. rewrite take_drop, Hperm. apply Hall in Hh as [Hh|Hh]; [by apply not_elem_of_nil in Hh|done].
    + intros g h Hg Hh. by apply Hlt.
    + destruct (decide (length sorted ≤ n)); [left; by apply drop_ge|right; rewrite length_take; lia].
Qed.
(** The metadata hits of a query without wildcards are the documents that contain it. *)
Lemma metadata_hit_contains q doc_id row : Forall (λ c, c ≠ PERCENT ∧ c ≠ UNDERSCORE) q →
  is_Some (metadata_hit ([PERCENT] ++ q ++ [PERCENT]) doc_id row) ↔
  ∃ value, (value = default "" (dr_title row) ∨ value = dr_meta_json row) ∧
    ∃ a b c, fold_ascii <$> chars value = a ++ b ++ c ∧ fold_ascii <$> b = fold_ascii <$> q.
Proof.
  intros Hq. assert (Hlike : ∀ v, like_match ([PERCENT] ++ q ++ [PERCENT]) (sql_lower v) = true ↔
    ∃ a b c, fold_ascii <$> chars v = a ++ b ++ c ∧ fold_ascii <$> b = fold_ascii <$> q).
  { intros v. change ([PERCENT] ++ q ++ [PERCENT]) with (PERCENT :: (q ++ [PERCENT])). rewrite like_percent.
    setoid_rewrite like_plain; [|done]. split.
    - intros (a & ? & Heq & b & c & -> & Hb & _). by exists a, b, c.
    - intros (a & b & c & Heq & Hb). exists a, (b ++ c). split; [done|]. exists b, c. split_and!; [done|done|].
      apply like_percent. exists c, []. by rewrite app_nil_r. }
  unfold metadata_hit. destruct (_ || _) eqn:Hor.
  - apply orb_true_iff in Hor. rewrite !Hlike in Hor. split; [|done]. intros _.
    destruct Hor as [Ht|Hm]; [exists (default "" (dr_title row))|exists (dr_meta_json row)]; auto.
  - apply orb_false_iff in Hor as [Ht Hm]. split; [by intros []|]. intros (v & [->| ->] & Hv%Hlike); congruence.
Qed.
End simple.
