(* ===== verification/SearchGraph.v ===== *)
(** * The graph of the notes (search/mod.rs)

    [get_graph_snapshot]: the notes of the index and the links between them, as the
    resolution of the wikilinks left them. *)
From Stdlib Require Import Ascii String.
#[local] Set Warnings "-clear-no-such-hyp".
From S2P Require Import Prelude Text SyncDb SearchLinks SearchDb SearchIncremental SearchQueries.

Record GraphLinkDto := { gl_source : string; gl_target : string }.
Record GraphNodeDto := {
  gn_id : string;
  gn_name : string;
  gn_file_path : string;
  gn_folder : string;
  gn_cluster_index : nat;
  gn_link_count : nat;
  gn_is_orphan : bool }.
Record GraphSnapshot := {
  gs_nodes : list GraphNodeDto;
  gs_links : list GraphLinkDto;
  gs_adjacency_map : gmap string (list string);
  gs_unresolved_count : nat;
  gs_ambiguous_count : nat }.
Record ResolveWikilinkResult := { rw_resolved_path : option string; rw_resolution_kind : string }.

(** The variables of the loop over the links: [link_keys] are the pairs in [links]. *)
Record GraphBuild := {
  gb_adjacency : gmap string (gset string);
  gb_links : list (string * string);
  gb_unresolved : nat;
  gb_ambiguous : nat }.
Definition no_links : GraphBuild := {| gb_adjacency := ∅; gb_links := []; gb_unresolved := 0; gb_ambiguous := 0 |}.
(** [.collect::<HashMap<_, _>>()]: the last of two rows with a number would stay. *)
Definition doc_by_uid (docs : list DocIdentity) : gmap Z string :=
  list_to_map (reverse ((λ doc, (di_note_uid doc, di_doc_id doc)) <$> docs)).
Definition add_neighbour (a b : string) (adjacency : gmap string (gset string)) : gmap string (gset string) :=
  <[a := default ∅ (adjacency !! a) ∪ {[b]}]> adjacency.
Definition count_link (by_uid : gmap Z string) (st : GraphBuild) (row : StoredWikilinkRefRow) : GraphBuild :=
  if bool_decide (sw_resolution_kind row = RESOLUTION_AMBIGUOUS) then
    {| gb_adjacency := gb_adjacency st; gb_links := gb_links st; gb_unresolved := gb_unresolved st;
       gb_ambiguous := S (gb_ambiguous st) |}
  else match sw_resolved_target_uid row with
       | None =>
           {| gb_adjacency := gb_adjacency st; gb_links := gb_links st; gb_unresolved := S (gb_unresolved st);
              gb_ambiguous := gb_ambiguous st |}
       | Some target_uid =>
           match by_uid !! target_uid with
           | None => st
           | Some target =>
               let source := sw_source_doc_id row in
               if bool_decide (source = target) then st
               else {| gb_adjacency := add_neighbour target source (add_neighbour source target (gb_adjacency st));
                       gb_links := if bool_decide ((source, target) ∈ gb_links st) then gb_links st
                                   else gb_links st ++ [(source, target)];
                       gb_unresolved := gb_unresolved st; gb_ambiguous := gb_ambiguous st |}
           end
       end.
(** [Vec::dedup] *)
Fixpoint dedup (l : list string) : list string :=
  match l with
  | x :: (y :: _) as l' => if bool_decide (x = y) then dedup l' else x :: dedup l'
  | _ => l
  end.
Definition cluster_map (docs : list DocIdentity) : gmap string nat :=
  let folders := dedup (sort_by str_leb ((λ doc, folder_label (di_doc_id doc)) <$> docs)) in
  list_to_map (reverse (imap (λ idx folder, (folder, idx)) folders)).
Definition graph_node (clusters : gmap string nat) (adjacency : gmap string (gset string)) (doc : DocIdentity) : GraphNodeDto :=
  let folder := folder_label (di_doc_id doc) in
  let neighbours := from_option size 0 (adjacency !! di_doc_id doc) in
  {| gn_id := di_doc_id doc; gn_name := doc_display_name (di_doc_id doc); gn_file_path := di_doc_id doc;
     gn_folder := folder; gn_cluster_index := default 0 (clusters !! folder); gn_link_count := neighbours;
     gn_is_orphan := neighbours =? 0 |}.
(** The last loop takes the neighbours out of the map. *)
Definition take_neighbours (st : gmap string (gset string) * gmap string (list string)) (doc : DocIdentity) :=
  let neighbours := sort_by str_leb (elements (default ∅ (st.1 !! di_doc_id doc))) in
  (base.delete (di_doc_id doc) st.1, <[di_doc_id doc := neighbours]> st.2).
Definition adjacency_map (docs : list DocIdentity) (adjacency : gmap string (gset string)) : gmap string (list string) :=
  (foldl take_neighbours (adjacency, ∅) docs).2.
Definition get_graph_snapshot `{Unicode} (db : option SearchTables) : GraphSnapshot :=
  match db with
  | None => {| gs_nodes := []; gs_links := []; gs_adjacency_map := ∅; gs_unresolved_count := 0; gs_ambiguous_count := 0 |}
  | Some db =>
      let docs := load_doc_identities db in
      let st := foldl (count_link (doc_by_uid docs)) no_links (load_wikilink_rows db) in
      {| gs_nodes := sort_by (leb_on gn_file_path) (graph_node (cluster_map docs) (gb_adjacency st) <$> docs);
         gs_links := (λ k, {| gl_source := k.1; gl_target := k.2 |}) <$> sort_by str_pair_leb (gb_links st);
         gs_adjacency_map := adjacency_map docs (gb_adjacency st);
         gs_unresolved_count := gb_unresolved st; gs_ambiguous_count := gb_ambiguous st |}
  end.
(** [SearchState::resolve_wikilink] *)
Definition resolve_wikilink_command `{Unicode} (db : option SearchTables) (source_path raw_target : string)
  : ResolveWikilinkResult :=
  match db with
  | None => {| rw_resolved_path := None; rw_resolution_kind := "unresolved" |}
  | Some db =>
      let resolution := resolve_wikilink source_path raw_target (DocIndex_new (load_doc_identities db)) in
      {| rw_resolved_path := lr_resolved_doc_id resolution; rw_resolution_kind := lr_resolution_kind resolution |}
  end.

(** ** What the graph shows *)

(** A link of the index: a row resolved to another document *)
Definition linked (by_uid : gmap Z string) (rows : list StoredWikilinkRefRow) (s t : string) : Prop :=
  s ≠ t ∧ ∃ w, w ∈ rows ∧ sw_source_doc_id w = s ∧ sw_resolution_kind w ≠ RESOLUTION_AMBIGUOUS ∧
    ∃ uid, sw_resolved_target_uid w = Some uid ∧ by_uid !! uid = Some t.
Lemma linked_cons by_uid w rows s t :
  linked by_uid (rows ++ [w]) s t ↔ linked by_uid rows s t ∨ linked by_uid [w] s t.
Proof.
  unfold linked. setoid_rewrite elem_of_app. naive_solver.
Qed.

Record graph_of (by_uid : gmap Z string) (rows : list StoredWikilinkRefRow) (st : GraphBuild) : Prop := {
  graph_links s t : (s, t) ∈ gb_links st ↔ linked by_uid rows s t;
  graph_links_once : NoDup (gb_links st);
  graph_adjacency a b : b ∈ default ∅ (gb_adjacency st !! a) ↔ linked by_uid rows a b ∨ linked by_uid rows b a;
  graph_unresolved : gb_unresolved st = length (filter (λ w, sw_resolution_kind w ≠ RESOLUTION_AMBIGUOUS ∧
    sw_resolved_target_uid w = None) rows);
  graph_ambiguous : gb_ambiguous st = length (filter (λ w, sw_resolution_kind w = RESOLUTION_AMBIGUOUS) rows) }.
Lemma add_neighbour_lookup a b adjacency x y :
  y ∈ default ∅ (add_neighbour a b adjacency !! x) ↔ y ∈ default ∅ (adjacency !! x) ∨ (x = a ∧ y = b).
Proof.
  unfold add_neighbour. destruct (decide (x = a)) as [->|Hne].
  - rewrite lookup_insert_eq. simpl. set_solver.
  - rewrite lookup_insert_ne by done. naive_solver.
Qed.
Lemma linked_one by_uid w s t : linked by_uid [w] s t ↔
  s ≠ t ∧ sw_source_doc_id w = s ∧ sw_resolution_kind w ≠ RESOLUTION_AMBIGUOUS ∧
  ∃ uid, sw_resolved_target_uid w = Some uid ∧ by_uid !! uid = Some t.
Proof. unfold linked. setoid_rewrite list_elem_of_singleton. naive_solver. Qed.
(** A row that is no link of the graph *)
Lemma graph_of_skip by_uid rows st w n m :
  (∀ s t, ¬ linked by_uid [w] s t) → graph_of by_uid rows st →
  gb_unresolved st + length (filter (λ w, sw_resolution_kind w ≠ RESOLUTION_AMBIGUOUS ∧ sw_resolved_target_uid w = None) [w]) = n →
  gb_ambiguous st + length (filter (λ w, sw_resolution_kind w = RESOLUTION_AMBIGUOUS) [w]) = m →
  graph_of by_uid (rows ++ [w])
    {| gb_adjacency := gb_adjacency st; gb_links := gb_links st; gb_unresolved := n; gb_ambiguous := m |}.
Proof.
  intros Hno [Hlinks Honce Hadj Hun Ham] <- <-.
  assert (Hsame : ∀ s t, linked by_uid (rows ++ [w]) s t ↔ linked by_uid rows s t).
  { intros s t. rewrite linked_cons. specialize (Hno s t). tauto. }
  split; simpl; [|done| | |]; intros; rewrite ?Hsame; auto; rewrite filter_app, length_app; congruence.
Qed.
Lemma count_link_graph by_uid rows st w : graph_of by_uid rows st → graph_of by_uid (rows ++ [w]) (count_link by_uid st w).
Proof.
  intros Hst. assert (Hno := linked_one by_uid w). unfold count_link. case_bool_decide as Ha.
  { apply graph_of_skip; [|done| |]; [|rewrite filter_cons_False by tauto|rewrite filter_cons_True by done]; simpl; [|lia..].
    intros s t. rewrite Hno. tauto. }
  destruct (sw_resolved_target_uid w) as [uid|] eqn:Huid.
  2: { apply graph_of_skip; [|done| |]; [|rewrite filter_cons_True by done|rewrite filter_cons_False by done]; simpl; [|lia..].
       intros s t. rewrite Hno. naive_solver. }
  assert (Hun : filter (λ w, sw_resolution_kind w ≠ RESOLUTION_AMBIGUOUS ∧ sw_resolved_target_uid w = None) [w] = []).
  { rewrite filter_cons_False by naive_solver. done. }
  assert (Ham : filter (λ w, sw_resolution_kind w = RESOLUTION_AMBIGUOUS) [w] = []) by (by rewrite filter_cons_False).
  assert (Hsame : (∀ s t, ¬ linked by_uid [w] s t) → graph_of by_uid (rows ++ [w]) st).
  { intros Hnone. destruct st. eapply graph_of_skip in Hst; [exact Hst|done|rewrite Hun; simpl; lia|rewrite Ham; simpl; lia]. }
  destruct (by_uid !! uid) as [t|] eqn:Ht; [|apply Hsame; intros s t'; rewrite Hno; naive_solver].
  case_bool_decide as Hst'; [apply Hsame; intros s t'; rewrite Hno; naive_solver|].
  assert (Hone : ∀ a b, linked by_uid [w] a b ↔ a = sw_source_doc_id w ∧ b = t) by (intros a b; rewrite Hno; naive_solver).
  destruct Hst as [Hlinks Honce Hadj Hu Hm]. split; cbn [gb_adjacency gb_links gb_unresolved gb_ambiguous].
  - intros a b. rewrite linked_cons, <- Hlinks, Hone. case_bool_decide; set_solver.
  - case_bool_decide; [done|]. apply NoDup_app. split_and!; [done| |by apply NoDup_singleton].
    intros k Hk Hk'. apply list_elem_of_singleton in Hk' as ->. done.
  - intros a b. rewrite !add_neighbour_lookup, !linked_cons, Hadj, !Hone. tauto.
  - by rewrite filter_app, Hun, app_nil_r.
  - by rewrite filter_app, Ham, app_nil_r.
Qed.
Lemma count_links_graph by_uid rows : graph_of by_uid rows (foldl (count_link by_uid) no_links rows).
Proof.
  induction rows as [|w rows IH] using rev_ind.
  - split; simpl; try done; try (intros; rewrite ?lookup_empty; unfold linked; set_solver). apply NoDup_nil_2.
  - rewrite foldl_app. by apply count_link_graph.
Qed.

Section neighbours.
Lemma take_neighbours_delete docs adj m k : k ∉ (di_doc_id <$> docs) →
  (foldl take_neighbours (adj, m) docs).2 !! k = m !! k.
Proof.
  revert adj m. induction docs as [|d docs IH]; intros adj m Hk; [done|]. cbn [foldl fmap list_fmap] in *.
  apply not_elem_of_cons in Hk as [Hne Hk]. unfold take_neighbours at 2. rewrite IH by done. by rewrite lookup_insert_ne.
Qed.
Lemma adjacency_map_lookup docs adj d : NoDup (di_doc_id <$> docs) → d ∈ docs →
  adjacency_map docs adj !! di_doc_id d = Some (sort_by str_leb (elements (default ∅ (adj !! di_doc_id d)))).
Proof.
  unfold adjacency_map. generalize (∅ : gmap string (list string)). revert adj.
  induction docs as [|e docs IH]; intros adj m Hnd Hd; [by apply not_elem_of_nil in Hd|].
  cbn [foldl fmap list_fmap] in *. apply NoDup_cons in Hnd as [Hnot Hnd]. unfold take_neighbours at 2. cbn [fst snd].
  apply elem_of_cons in Hd as [->|Hd].
  - rewrite take_neighbours_delete by done. by rewrite lookup_insert_eq.
  - rewrite IH by done. rewrite lookup_delete_ne; [done|]. intros Heq. apply Hnot. rewrite Heq. by apply list_elem_of_fmap_2.
Qed.
Lemma adjacency_map_absent docs adj k : k ∉ (di_doc_id <$> docs) → adjacency_map docs adj !! k = None.
Proof. intros Hk. unfold adjacency_map. by rewrite take_neighbours_delete. Qed.
End neighbours.

Lemma load_doc_identities_ids `{Unicode} db : (di_doc_id <$> load_doc_identities db) = list_indexed_doc_ids db.
Proof. unfold load_doc_identities, list_indexed_doc_ids. by rewrite <- list_fmap_compose. Qed.
Lemma indexed_doc_ids_once db : NoDup (list_indexed_doc_ids db).
Proof. apply NoDup_sort_by, NoDup_fst_map_to_list. Qed.
Lemma elem_of_indexed_doc_ids db d : d ∈ list_indexed_doc_ids db ↔ is_Some (db_documents db !! d).
Proof.
  unfold list_indexed_doc_ids, sorted_documents. rewrite list_elem_of_fmap. setoid_rewrite elem_of_sort_by. split.
  - intros ([? row] & -> & Hin%elem_of_map_to_list). by eexists.
  - intros [row Hrow]. exists (d, row). by rewrite elem_of_map_to_list.
Qed.
Lemma doc_by_uid_lookup `{Unicode} db uid d : tables_ok db →
  doc_by_uid (load_doc_identities db) !! uid = Some d ↔ dr_note_uid <$> db_documents db !! d = Some uid.
Proof.
  intros Hok. unfold doc_by_uid. rewrite <- elem_of_list_to_map.
  - rewrite elem_of_reverse, list_elem_of_fmap. unfold load_doc_identities. setoid_rewrite list_elem_of_fmap. split.
    + intros (? & [= -> ->] & [p row] & -> & Hin). apply elem_of_sort_by, elem_of_map_to_list in Hin. simpl.
      by rewrite Hin.
    + rewrite fmap_Some. intros (row & Hrow & ->). eexists. split; [|exists (d, row); split; [done|]]; [done|].
      by apply elem_of_sort_by, elem_of_map_to_list.
  - rewrite fmap_reverse, reverse_Permutation, <- list_fmap_compose. unfold load_doc_identities.
    rewrite <- list_fmap_compose. apply NoDup_fmap_2_strong.
    + intros [p r] [q r'] Hp%elem_of_sort_by%elem_of_map_to_list Hq%elem_of_sort_by%elem_of_map_to_list Heq.
      simpl in Heq. assert (p = q) as -> by (by eapply uids_distinct). congruence.
    + apply (NoDup_fmap_1 fst), NoDup_sort_by, NoDup_fst_map_to_list.
Qed.

(** A link between two documents of the index *)
Definition note_links (db : SearchTables) (s t : string) : Prop :=
  s ≠ t ∧ ∃ w, w ∈ db_wikilink_refs db ∧ sw_source_doc_id w = s ∧ sw_resolution_kind w ≠ RESOLUTION_AMBIGUOUS ∧
    ∃ uid, sw_resolved_target_uid w = Some uid ∧ dr_note_uid <$> db_documents db !! t = Some uid.
Lemma linked_note_links `{Unicode} db s t : tables_ok db →
  linked (doc_by_uid (load_doc_identities db)) (load_wikilink_rows db) s t ↔ note_links db s t.
Proof.
  intros Hok. unfold linked, note_links, load_wikilink_rows. setoid_rewrite elem_of_sort_by.
  setoid_rewrite doc_by_uid_lookup; [done|done].
Qed.
(** The neighbours of a note, as the graph lists them *)
Definition graph_build `{Unicode} (db : SearchTables) : GraphBuild :=
  foldl (count_link (doc_by_uid (load_doc_identities db))) no_links (load_wikilink_rows db).
Definition neighbours `{Unicode} (db : SearchTables) (d : string) : list string :=
  sort_by str_leb (elements (default ∅ (gb_adjacency (graph_build db) !! d))).
Lemma adjacency_map_neighbours `{Unicode} db d :
  adjacency_map (load_doc_identities db) (gb_adjacency (graph_build db)) !! d =
    if decide (is_Some (db_documents db !! d)) then Some (neighbours db d) else None.
Proof.
  assert (Hnd := indexed_doc_ids_once db). rewrite <- load_doc_identities_ids in Hnd.
  case_decide as Hd; rewrite <- elem_of_indexed_doc_ids, <- load_doc_identities_ids in Hd.
  - apply list_elem_of_fmap in Hd as (doc & -> & Hdoc). by apply adjacency_map_lookup.
  - by apply adjacency_map_absent.
Qed.
Lemma neighbours_spec `{Unicode} db d : tables_ok db →
  (∀ x, x ∈ neighbours db d ↔ note_links db d x ∨ note_links db x d) ∧ NoDup (neighbours db d) ∧
  StronglySorted (λ x y, str_leb x y = true) (neighbours db d).
Proof.
  intros Hok. destruct (count_links_graph (doc_by_uid (load_doc_identities db)) (load_wikilink_rows db)) as [_ _ Hadj _ _].
  unfold neighbours. split_and!.
  - intros x. rewrite elem_of_sort_by, elem_of_elements. unfold graph_build. by rewrite Hadj, !linked_note_links.
  - rewrite sort_by_perm. apply NoDup_elements.
  - apply sort_by_sorted, _.
Qed.
Lemma graph_nodes_spec `{Unicode} db node :
  node ∈ gs_nodes (get_graph_snapshot (Some db)) →
  is_Some (db_documents db !! gn_id node) ∧ gn_link_count node = length (neighbours db (gn_id node)) ∧
  (gn_is_orphan node = true ↔ neighbours db (gn_id node) = []).
Proof.
  cbn [gs_nodes get_graph_snapshot]. intros (doc & -> & Hdoc)%elem_of_sort_by%list_elem_of_fmap.
  assert (Hsize : from_option size 0 (gb_adjacency (graph_build db) !! di_doc_id doc) = length (neighbours db (di_doc_id doc))).
  { unfold neighbours. rewrite length_sort_by. by destruct (gb_adjacency _ !! _). }
  cbn [gn_id gn_link_count gn_is_orphan graph_node]. fold (graph_build db). rewrite Hsize. split_and!; [|done|].
  - rewrite <- elem_of_indexed_doc_ids, <- load_doc_identities_ids. by apply list_elem_of_fmap_2.
  - rewrite Nat.eqb_eq. apply length_zero_iff_nil.
Qed.
Definition sorted_links (l : list GraphLinkDto) : Prop :=
  StronglySorted (λ a b, str_pair_leb (gl_source a, gl_target a) (gl_source b, gl_target b) = true) l.

(** C38: The graph of the notes: its links are those the index resolved between two different
    notes, each once and in order; the neighbours of a note are the notes it has a link to
    or from, each once and in order, for the notes of the index and no others; a node
    for each note, in order, that counts its neighbours and is an orphan without any. *)
Theorem graph_snapshot_exact `{Unicode} (db : SearchTables) : tables_ok db →
  let g := get_graph_snapshot (Some db) in
  (∀ s t, {| gl_source := s; gl_target := t |} ∈ gs_links g ↔ note_links db s t) ∧
  NoDup (gs_links g) ∧ sorted_links (gs_links g) ∧
  gn_id <$> gs_nodes g = list_indexed_doc_ids db ∧
  (∀ d, is_Some (gs_adjacency_map g !! d) ↔ is_Some (db_documents db !! d)) ∧
  (∀ d ns, gs_adjacency_map g !! d = Some ns →
     (∀ x, x ∈ ns ↔ note_links db d x ∨ note_links db x d) ∧ NoDup ns ∧
     StronglySorted (λ x y, str_leb x y = true) ns) ∧
  (∀ node, node ∈ gs_nodes g → ∃ ns, gs_adjacency_map g !! gn_id node = Some ns ∧
     gn_link_count node = length ns ∧ (gn_is_orphan node = true ↔ ns = [])) ∧
  gs_ambiguous_count g = (load_link_counts db).2.
Proof.
  intros Hok g. destruct (count_links_graph (doc_by_uid (load_doc_identities db)) (load_wikilink_rows db)) as [Hl Hnd _ _ Ham].
  assert (Hmap := adjacency_map_neighbours db : ∀ d, gs_adjacency_map g !! d = _).
  split_and!.
  - intros s t. rewrite <- linked_note_links, <- Hl by done. subst g. cbn [gs_links get_graph_snapshot].
    rewrite list_elem_of_fmap. setoid_rewrite elem_of_sort_by. split; [by intros ([? ?] & [= -> ->] & ?)|].
    intros Hin. by exists (s, t).
  - subst g. cbn [gs_links get_graph_snapshot]. apply NoDup_fmap_2_strong.
    + by intros [] [] _ _ [= -> ->].
    + by rewrite sort_by_perm.
  - subst g. unfold sorted_links. cbn [gs_links get_graph_snapshot].
    assert (Hs := sort_by_sorted str_pair_leb (gb_links (graph_build db))).
    fold (graph_build db). revert Hs. generalize (sort_by str_pair_leb (gb_links (graph_build db))). clear.
    induction 1 as [|[a b] l _ IH Hall]; [constructor|]. cbn [fmap list_fmap]. constructor; [done|].
    apply Forall_fmap. apply (Forall_impl _ _ _ Hall). by intros [].
  - subst g. cbn [gs_nodes get_graph_snapshot]. 
    assert (Hdocs : sort_by (leb_on di_doc_id) (load_doc_identities db) = load_doc_identities db).
    { unfold load_doc_identities, sorted_documents. rewrite (sort_by_fmap _ (leb_on fst)) by done.
      rewrite sort_by_idemp; [done|apply leb_on_total]. }
    rewrite (sort_by_fmap _ (leb_on di_doc_id)) by done.
    rewrite Hdocs, <- list_fmap_compose, <- load_doc_identities_ids. done.
  - intros d. rewrite Hmap. case_decide as Hd; [by split|]. split; [by intros []|done].
  - intros d ns. rewrite Hmap. case_decide; [|done]. intros [= <-]. by apply neighbours_spec.
  - intros node (Hd & Hcount & Horphan)%graph_nodes_spec. exists (neighbours db (gn_id node)).
    by rewrite Hmap, decide_True.
  - subst g. cbn [gs_ambiguous_count get_graph_snapshot]. rewrite Ham. unfold load_link_counts, count_by_resolution. cbn [snd].
    unfold load_wikilink_rows. rewrite sort_by_perm. apply (f_equal length).
    clear. induction (db_wikilink_refs db) as [|w l IH]; [done|]. rewrite filter_cons. simpl.
    rewrite IH. unfold bool_decide. by destruct (decide _), (decide_rel _ _ _).
Qed.
