(* ===== verification/SearchExamples.v ===== *)
(** * The search index at work: concrete vaults, and where it falls short

    Witnesses of the index's theorems on a small vault, and four situations in which the
    index does not end up with what the vault holds. *)
From Stdlib Require Import Ascii String QArith_base.
#[local] Set Warnings "-clear-no-such-hyp".
From S2P Require Import Prelude Text Paths SyncDb Scanner Chars Indexer Wikilinks Extract IndexerExamples SearchLinks SearchDb SearchWriter SearchIncremental SearchRebuild SearchRuntime SearchCatchUp SearchQueries SearchSimple SearchGraph.

#[local] Existing Instance Concrete.ascii_unicode.
#[local] Existing Instance Concrete.pad_blake3.
#[local] Existing Instance Scanner.Examples.os.
#[local] Existing Instance IndexerExamples.line_parser.
#[local] Existing Instance IndexerExamples.one_pair.
#[local] Instance ascii_fold : UnicodeFold.
Proof.
  split. intros s. change (to_ascii_lowercase (to_ascii_lowercase s) = to_ascii_lowercase s).
  induction s as [|a s IH]; [done|]. cbn [to_ascii_lowercase]. by rewrite IH, Concrete.ascii_lower_idemp.
Qed.
#[local] Instance json : IndexJson :=
  {| meta_json l := join "," ((λ kv : string * string, kv.1 +:+ ":" +:+ kv.2) <$> l);
     section_path_json l := "[" +:+ join "," l +:+ "]" |}.

(** ** Links *)

Definition docs : list DocIdentity :=
  imap (λ i id, to_doc_identity (Z.of_nat i) id) ["area/alpha.md"; "area/sub/alpha.md"; "other/alpha.md"; "notes/beta.md"].
Example closest_folder :
  resolve_wikilink "area/sub/note.md" "Alpha" (DocIndex_new docs) =
    {| lr_resolved_target_uid := Some 1%Z; lr_resolved_doc_id := Some "area/sub/alpha.md";
       lr_resolution_kind := RESOLUTION_BASENAME; lr_folder_distance := Some 0%Z |} ∧
  resolve_wikilink "root/note.md" "alpha" (DocIndex_new docs) = ambiguous ∧
  resolve_wikilink "root/note.md" "Other\Alpha.MD" (DocIndex_new docs) =
    {| lr_resolved_target_uid := Some 2%Z; lr_resolved_doc_id := Some "other/alpha.md";
       lr_resolution_kind := RESOLUTION_EXACT; lr_folder_distance := Some 2%Z |}.
Proof. vm_compute. done. Qed.
Lemma resolve_wikilink_meaning_witness : LinkMeaning docs "root/note.md" (normalize_link_target "alpha") ambiguous.
Proof. apply (proj2 (resolve_wikilink_meaning docs "root/note.md" "alpha" ambiguous)). vm_compute. reflexivity. Defined.

(** ** The file of the index *)

Definition old_file : SearchFile :=
  {| sf_has_documents := true; sf_has_note_uid := true; sf_has_content_checksum := false; sf_has_other_tables := true;
     sf_metadata := Some {[ "index_version" := "0" ]}; sf_tables := empty_tables |}.
Lemma init_schema_ready_witness : ∃ f, init_schema old_file = Ok (f, true) ∧ ready f ∧ init_schema f = Ok (f, false).
Proof.
  destruct (init_schema old_file) as [[f reset]|] eqn:Hi; [|vm_compute in Hi; discriminate].
  assert (Hreset : reset = true) by (vm_compute in Hi; by injection Hi as _ <-). subst reset.
  exists f. destruct (init_schema_ready old_file f true Hi) as (Hr & Hi' & _). done.
Defined.

(** ** A vault *)

Definition root : AbsPath := ["v"].
Definition vault (files : list (list string * string)) : Fs :=
  list_to_map ((["v"], Dir) :: (["v"; "area"], Dir) :: ((λ f, ("v" :: f.1, File f.2 7)) <$> files)).
Definition config : IndexerConfig :=
  {| storage_location := AppGlobal; incremental_updates := true; reindex_on_vault_open := true; resolution_policy := "closest-folder" |}.
Definition fresh : SearchRuntime := new_runtime empty_tables config.
(** Jobs, one after the other, on the same files *)
Definition run_jobs (fs : Fs) (jobs : list WriterJob) (r : SearchRuntime) : SearchRuntime :=
  foldl (λ r job, (run_job fs root 9 (λ _, fs) job r).2) r jobs.
Definition shown (r : SearchRuntime) : list (string * option string) :=
  (λ kv : string * DocumentRow, (kv.1, dr_content_checksum kv.2)) <$> sorted_documents (rt_db r).
Definition links (r : SearchRuntime) : list (string * string * string) :=
  (λ w, (sw_source_doc_id w, sw_raw_target w, sw_resolution_kind w)) <$> load_wikilink_rows (rt_db r).

Definition two_notes : Fs := vault [(["a.md"], "# A
see [[b]]"); (["area"; "b.md"], "# B
see [[a]] and [[c]]")].
Example rebuilt :
  let r := run_jobs two_notes [FullRebuild "vault-open"] fresh in
  is_state (rt_status r) = "idle" ∧ (shown r).*1 = ["a.md"; "area/b.md"] ∧
  links r = [("a.md", "b", "basename"); ("area/b.md", "a", "basename"); ("area/b.md", "c", "unresolved")].
Proof. vm_compute. done. Qed.

Lemma empty_tables_ok : tables_ok empty_tables.
Proof. split; simpl; try done; first [apply NoDup_nil_2|apply Forall_nil_2|intros w Hw; by apply not_elem_of_nil in Hw]. Qed.
Definition rebuilt_runtime : SearchRuntime := (handle_full_rebuild two_notes root 9 (λ _, two_notes) "vault-open" fresh).2.
Lemma rebuilt_runtime_run : handle_full_rebuild two_notes root 9 (λ _, two_notes) "vault-open" fresh = (Ok tt, rebuilt_runtime).
Proof. unfold rebuilt_runtime. vm_compute. reflexivity. Qed.
(** The notes of this vault *)
Definition two_paths (p : string) : Prop := p = "a.md" ∨ p = "area/b.md".
Lemma two_notes_found : collect_markdown_files (scan_depth two_notes) two_notes root root [] = Ok ["a.md"; "area/b.md"] ∨
  collect_markdown_files (scan_depth two_notes) two_notes root root [] = Ok ["area/b.md"; "a.md"].
Proof. (left; vm_compute; reflexivity) || (right; vm_compute; reflexivity). Qed.
Lemma two_notes_vault p : vault_note two_notes root p ↔ two_paths p.
Proof.
  destruct two_notes_found as [Hf|Hf]; rewrite <- (collect_notes _ _ _ p Hf); unfold two_paths; rewrite elem_of_cons, list_elem_of_singleton; tauto.
Qed.
Lemma two_paths_distinct p q : two_paths p → two_paths q → eq_ignore_ascii_case p q = true → p = q.
Proof. intros [->| ->] [->| ->]; try done; intros Hc; vm_compute in Hc; discriminate. Qed.
Lemma two_notes_distinct : notes_distinct two_notes root.
Proof.
  assert (Hfile : ∀ q, note_file two_notes root q → q = ["a.md"] ∨ q = ["area"; "b.md"]).
  { intros q (d & name & content & mtime & _ & _ & Hf & _). apply elem_of_list_to_map_2 in Hf.
    cbn [fmap list_fmap fst snd app root] in Hf. rewrite !elem_of_cons in Hf.
    destruct Hf as [Hf|[Hf|[Hf|[Hf|Hf]]]]; [discriminate Hf..| | |by apply not_elem_of_nil in Hf].
    - left. by injection Hf as ->.
    - right. by injection Hf as ->. }
  intros q q' [->| ->]%Hfile [->| ->]%Hfile Hc; try done; vm_compute in Hc; discriminate.
Qed.
Lemma empty_owned : owned empty_tables.
Proof. split; intros x Hx; by apply not_elem_of_nil in Hx. Qed.
Lemma rebuild_exact_witness : owned (rt_db rebuilt_runtime) ∧ ∃ doc, file_document two_notes root 9 "area/b.md" = Some doc ∧
  describes (rt_db rebuilt_runtime) doc ∧ length (id_wikilink_refs doc) = 2.
Proof.
  destruct (rebuild_exact two_notes root 9 (λ _, two_notes) "vault-open" fresh rebuilt_runtime empty_tables_ok rebuilt_runtime_run)
    as (_ & _ & _ & Hend). destruct (Hend two_notes_distinct) as [Hdesc Hown]. split; [exact (Hown empty_owned)|].
  destruct (file_document two_notes root 9 "area/b.md") as [doc|] eqn:Hdoc; [|vm_compute in Hdoc; discriminate].
  exists doc. split; [done|].
  split; [|vm_compute in Hdoc; by injection Hdoc as <-]. apply (Hdesc "area/b.md"); [|done].
  apply two_notes_vault. by right.
Defined.

Lemma rebuilt_runtime_ok : tables_ok (rt_db rebuilt_runtime).
Proof.
  exact (proj1 (act_post_elim _ _ _ _ _ (handle_full_rebuild_ok two_notes root 9 (λ _, two_notes) "vault-open" fresh empty_tables_ok) rebuilt_runtime_run)).
Qed.

(** A second note named b comes closer: the link of a.md moves to it. *)
Definition three_notes : Fs := vault [(["a.md"], "# A
see [[b]]"); (["area"; "b.md"], "# B
see [[a]] and [[c]]"); (["b.md"], "# Other B")].
Definition indexed_runtime : SearchRuntime := (handle_job three_notes root 9 (λ _, three_notes) (IndexFile "b.md" "save") rebuilt_runtime).2.
Lemma links_stay_resolved_witness :
  resolve_all_wikilinks (rt_db indexed_runtime) = rt_db indexed_runtime ∧
  sw_resolved_target_uid <$> load_wikilink_rows (rt_db indexed_runtime) = [Some 3; Some 1; None]%Z.
Proof.
  split; [|vm_compute; reflexivity].
  refine (proj2 (links_stay_resolved three_notes root 9 (λ _, three_notes) (IndexFile "b.md" "save") rebuilt_runtime (Ok tt) indexed_runtime rebuilt_runtime_ok _ _) _).
  - right. vm_compute. reflexivity.
  - unfold indexed_runtime. vm_compute. reflexivity.
  - by left.
Defined.

(** ** Queries *)

(** A regular expression that is a plain text, and section paths as [json] writes them *)
#[local] Instance plain_regex : Regex :=
  {| regex_error q _ := if String.prefix "(" q then Some "unclosed group" else None;
     regex_find q _ s := (λ i, (i, i + String.length q)) <$> String.index 0 q s |}.
#[local] Instance json_paths : SectionPathParser :=
  {| parse_section_path s := if bool_decide (s = "[]") then [] else [s] |}.
Definition request (q : string) (n : nat) : AdvancedQueryRequest :=
  {| aq_query := q; aq_case_sensitive := true; aq_max_results := Some n |}.
Definition paths_found (r : Result string SimpleSearchResult) : list string :=
  match r with Ok r => sh_doc_id <$> sr_items r | Err _ => [] end.
Example advanced_finds :
  paths_found (query_advanced (Some (rt_db rebuilt_runtime)) (request " see" 5)) = ["a.md"; "area/b.md"] ∧
  paths_found (query_advanced (Some (rt_db rebuilt_runtime)) (request "see" 1)) = ["a.md"] ∧
  query_advanced (Some (rt_db rebuilt_runtime)) (request "(" 1) = Err "Invalid regex: unclosed group".
Proof. vm_compute. done. Qed.
Lemma query_advanced_exact_witness : ∃ r,
  query_advanced (Some (rt_db rebuilt_runtime)) (request "see" 1) = Ok r ∧
  sr_items r = take 1 (omap (title_hit "see" false) (title_rows (rt_db rebuilt_runtime)) ++
    omap (body_hit "see" false) (advanced_body_rows (rt_db rebuilt_runtime))).
Proof.
  destruct (query_advanced (Some (rt_db rebuilt_runtime)) (request "see" 1)) as [r|e] eqn:Hr.
  - exists r. split; [done|]. exact (proj2 (query_advanced_exact _ _ _ Hr)).
  - vm_compute in Hr. discriminate.
Defined.
(** Two sections of the same name *)
Definition repeated : Fs := vault [(["a.md"], "# A
one
# A
two")].
Definition repeated_db : SearchTables := rt_db (run_jobs repeated [FullRebuild "vault-open"] fresh).
Lemma section_ordinals_agree_witness :
  with_ordinals no_section (body_rows repeated_db) = (λ c, (c, sql_section_ordinal repeated_db c)) <$> body_rows repeated_db ∧
  (sql_section_ordinal repeated_db <$> body_rows repeated_db) = [0; 0; 1; 1].
Proof.
  split; [|vm_compute; reflexivity]. apply section_ordinals_agree.
  - apply (bool_decide_unpack _). vm_compute. exact I.
  - apply Forall_forall. intros c _. unfold parse_section_path, json_paths. by case_bool_decide.
Defined.
Lemma graph_snapshot_exact_witness :
  gn_id <$> gs_nodes (get_graph_snapshot (Some (rt_db rebuilt_runtime))) = ["a.md"; "area/b.md"] ∧
  gs_links (get_graph_snapshot (Some (rt_db rebuilt_runtime))) =
    [{| gl_source := "a.md"; gl_target := "area/b.md" |}; {| gl_source := "area/b.md"; gl_target := "a.md" |}].
Proof.
  split; [|vm_compute; reflexivity].
  destruct (graph_snapshot_exact (rt_db rebuilt_runtime) rebuilt_runtime_ok) as (_ & _ & _ & Hn & _).
  etrans; [exact Hn|]. vm_compute. reflexivity.
Defined.

(** Simple queries: rows match by a word of their text, and score alike. *)
#[local] Instance word_index : FullText :=
  {| fts_score _ q c := if str_contains (from_chars (removelast q)) (ic_text (cr_chunk c)) then Some 1%Q else None |}.
#[local] Instance ascii_alphabet : Alphabet := {| is_alphanumeric c := is_ascii_alphanumeric (ascii_of_N c) |}.
Definition simple_found (query : string) : option (list (string * string)) :=
  (λ r, (λ h, (sh_doc_id h, sh_kind h)) <$> sr_items r) <$> query_simple (Some (rt_db rebuilt_runtime)) query 5.
Example simple_finds :
  simple_found "seek" = Some [] ∧ simple_found "  " = Some [] ∧ simple_found "B" = Some [("area/b.md", "Heading")] ∧
  simple_found "[[and" = Some [("area/b.md", "Prose")].
Proof. vm_compute. done. Qed.
Lemma query_simple_best_witness : ∃ r, query_simple (Some (rt_db rebuilt_runtime)) "[[and" 1 = Some r ∧
  NoDup (hit_key <$> sr_items r) ∧ length (sr_items r) ≤ 1.
Proof.
  destruct (query_simple (Some (rt_db rebuilt_runtime)) "[[and" 1) as [r|] eqn:Hr; [|vm_compute in Hr; discriminate].
  destruct (simple_candidates (rt_db rebuilt_runtime) (plan_simple_query (chars "[[and")) 1) as [c|] eqn:Hc;
    [|vm_compute in Hc; discriminate].
  assert (Hroute : route (plan_simple_query (chars "[[and")) ≠ RouteNone) by (vm_compute; discriminate).
  exists r. destruct (query_simple_best _ _ _ _ _ Hr Hc Hroute) as (Hnd & _ & Hlen & _).
  split; [reflexivity|]. split; [exact Hnd|exact Hlen].
Defined.

(** ** Where the index falls short *)

(** The wildcards of [LIKE] are not escaped: a query of percent signs finds every note. And
    SQLite lowers ASCII letters only: a title with another capital is not found by its own
    text, lowered as Unicode has it. *)
Theorem wildcards_not_escaped :
  simple_found "%%" = Some [("a.md", "Heading"); ("area/b.md", "Heading")] ∧ simple_found "x%" = Some [].
Proof. vm_compute. done. Qed.
Example accented_title_missed :
  like_match (chars "%école%") (sql_lower "École") = false ∧ like_match (chars "%cole%") (sql_lower "École") = true.
Proof. vm_compute. done. Qed.


(** A note is renamed over another one: the links of the note that was written over stay in
    the index under its path, next to those it has now, and neither a save nor a full
    rebuild takes them out. *)
Definition before_rename : Fs := vault [(["draft.md"], "see [[new]]"); (["note.md"], "see [[old]]")].
Definition after_rename : Fs := vault [(["note.md"], "see [[new]]")].
Theorem renamed_over_keeps_links :
  let r := run_jobs after_rename [RenameFile "draft.md" "note.md" false "external-watch"]
             (run_jobs before_rename [FullRebuild "vault-open"] fresh) in
  links r = [("note.md", "old", "unresolved"); ("note.md", "new", "unresolved")] ∧
  links (run_jobs after_rename [IndexFile "note.md" "save"; FullRebuild "manual-rebuild"] r) = links r.
Proof. vm_compute. done. Qed.

(** Two notes whose paths differ in the case of letters, as a case-sensitive file system has
    them: indexing one takes the other out of the index. *)
Definition case_variants : Fs := vault [(["Note.md"], "one"); (["note.md"], "two")].
Theorem case_variant_taken_out :
  let r := run_jobs (vault [(["Note.md"], "one")]) [FullRebuild "vault-open"] fresh in
  (shown r).*1 = ["Note.md"] ∧ (shown (run_jobs case_variants [IndexFile "note.md" "save"] r)).*1 = ["note.md"] ∧
  (shown (run_jobs case_variants [IndexFile "note.md" "save"; IndexFile "Note.md" "save"] r)).*1 = ["Note.md"].
Proof. vm_compute. done. Qed.

(** One note that is not UTF-8 keeps every other note out of the index. *)
Definition one_bad_note : Fs := vault [(["a.md"], "fine"); (["bad.md"], String (ascii_of_nat 255) "")].
Theorem bad_note_stops_rebuild :
  let r := run_jobs one_bad_note [FullRebuild "vault-open"] fresh in
  shown r = [] ∧ is_state (rt_status r) = "error".
Proof. vm_compute. done. Qed.

(** A rebuild is queued; a note is removed, then written again: the removal waits behind the
    rebuild, the notice of the write is left to the rebuild. The rebuild finds the note,
    the removal takes it out. *)
Definition requests : Writer unit :=
  _ ← queue_rebuild "vault-open";
  _ ← notify_removed_with_source "a.md" false "external-watch";
  notify_written_with_source "a.md" "external-watch".
Theorem dropped_notice_loses_note :
  let r := (requests fresh).2 in
  let r' := run_jobs two_notes (rt_jobs r) r in
  rt_jobs r = [FullRebuild "vault-open"; RemoveFile "a.md" false "external-watch"] ∧
  is_state (rt_status r') = "idle" ∧ (shown r').*1 = ["area/b.md"] ∧ is_Some (file_document two_notes root 9 "a.md").
Proof. vm_compute. split_and!; [done..|]. eauto. Qed.

(** ** The index catches up *)

(** a.md is there when the vault is opened; area/b.md is written when the rebuild has looked
    for the notes already, and its notice arrives before the rebuild ends. *)
Definition one_note : Fs := vault [(["a.md"], "# A
see [[b]]")].
Definition opened : SearchRuntime := (queue_rebuild "vault-open" fresh).2.
Definition taken : SearchRuntime := with_jobs (λ _, []) opened.
Definition begun : SearchRuntime := (begin_rebuild "vault-open" taken).2.
Definition noticed : SearchRuntime := (notify_written_with_source "area/b.md" "save" begun).2.
Definition seen : string → Fs := <["a.md" := two_notes]> (λ _, one_note).
Definition indexed : SearchRuntime := (rebuild_index one_note root 9 seen "vault-open" noticed).2.
Definition finished : SearchRuntime := (finish_rebuild indexed).2.
Definition taken_again : SearchRuntime := with_jobs (λ _, []) finished.
Definition caught_up : SearchRuntime :=
  (handle_job two_notes root 9 (λ _, two_notes) (IndexFile "area/b.md" "save") taken_again).2.
Lemma one_note_vault p : vault_note one_note root p ↔ p = "a.md".
Proof.
  assert (Hf : collect_markdown_files (scan_depth one_note) one_note root root [] = Ok ["a.md"]) by (vm_compute; reflexivity).
  by rewrite <- (collect_notes _ _ _ p Hf), list_elem_of_singleton.
Qed.
Lemma one_note_ok : fs_ok root 9 two_paths one_note.
Proof.
  split.
  - intros p ->%one_note_vault. by left.
  - intros p [->| ->]; rewrite one_note_vault; unfold note_checksum.
    + split; [intros _; vm_compute; eauto|done].
    + split; [done|]. intros Hn. vm_compute in Hn. by destruct Hn.
Qed.
Lemma two_notes_ok : fs_ok root 9 two_paths two_notes.
Proof.
  split.
  - by intros p Hp%two_notes_vault.
  - intros p Hp. rewrite two_notes_vault. split; [intros _|done]. unfold note_checksum.
    destruct Hp as [->| ->]; vm_compute; eauto.
Qed.
Lemma two_paths_markdown p : two_paths p → is_markdown_path p = true.
Proof. by intros [->| ->]. Qed.
Definition sys (fs : Fs) (r : SearchRuntime) (ns : list Notice) (ph : Phase) : Sys :=
  {| sy_fs := fs; sy_runtime := r; sy_notices := ns; sy_phase := ph |}.
Lemma catch_up_run : rtc (step root 9 two_paths) (sys one_note opened [] Idle) (sys two_notes caught_up [] Idle).
Proof.
  eapply rtc_l; [apply (step_take root 9 two_paths (sys one_note opened [] Idle) (FullRebuild "vault-open") [])|]; [done|vm_compute; reflexivity|].
  eapply rtc_l; [apply (step_begin root 9 two_paths (sys one_note taken [] (Taken (FullRebuild "vault-open"))) "vault-open" begun)|]; [done|vm_compute; reflexivity|].
  set (reading := Rebuilding "vault-open" one_note).
  eapply rtc_l; [apply (step_change root 9 two_paths (sys one_note begun [] (reading (λ _, one_note))) two_notes (Written "area/b.md"))|].
  - exact two_notes_ok.
  - apply Forall_singleton. intros _. by right.
  - intros p [->| ->] Hne; [|done]. destruct Hne. vm_compute. reflexivity.
  - done.
  - eapply rtc_l; [apply (step_read root 9 two_paths (sys two_notes begun [Written "area/b.md"] (reading (λ _, one_note)))
      "vault-open" one_note (λ _, one_note) "a.md"); done|].
    eapply rtc_l; [eapply (step_notify root 9 two_paths (sys two_notes begun [Written "area/b.md"] (reading seen)) (Written "area/b.md") [] "save" noticed)|].
    + done.
    + intros Hq. vm_compute in Hq. discriminate Hq.
    + vm_compute. reflexivity.
    + eapply rtc_l; [apply (step_rebuild root 9 two_paths (sys two_notes noticed [] (reading seen)) "vault-open" one_note seen indexed)|]; [done|vm_compute; reflexivity|].
      eapply rtc_l; [apply (step_finish root 9 two_paths (sys two_notes indexed [] Rebuilt) finished)|]; [done|vm_compute; reflexivity|].
      eapply rtc_l; [apply (step_take root 9 two_paths (sys two_notes finished [] Idle) (IndexFile "area/b.md" "save") [])|]; [done|vm_compute; reflexivity|].
      eapply rtc_l; [apply (step_run root 9 two_paths (sys two_notes taken_again [] (Taken (IndexFile "area/b.md" "save")))
        (IndexFile "area/b.md" "save") caught_up)|]; [done|done|vm_compute; reflexivity|].
      apply rtc_refl.
Qed.
Lemma index_catches_up_witness :
  index_holds root 9 two_notes (rt_db caught_up) "area/b.md" ∧ resolve_all_wikilinks (rt_db caught_up) = rt_db caught_up.
Proof.
  assert (Hstart : sys_ok root 9 two_paths (sys one_note opened [] Idle)).
  { apply (start_ok root 9 two_paths); [exact two_paths_distinct|exact two_paths_markdown|exact empty_tables_ok|apply Forall_nil_2| | |done|exact one_note_ok].
    - by intros p [row Hrow].
    - intros p row Hrow. discriminate Hrow. }
  destruct (index_catches_up root 9 two_paths two_paths_distinct two_paths_markdown _ _ Hstart catch_up_run) as (Hup & _ & Hlinks).
  - split_and!; [done|done|vm_compute; reflexivity].
  - split; [exact (proj2 (Hup _ (or_intror eq_refl)))|exact Hlinks].
Defined.
