(* ===== verification/AiTypes.v ===== *)
(** * The assistant: data and tools (crates/kuku-ai: types.rs, mutation.rs, error.rs, tools/) *)
From Stdlib Require Import Ascii String.
#[local] Set Warnings "-clear-no-such-hyp,-register-all".
From S2P Require Import Prelude Text.

(** [serde_json::Value] *)
Inductive Value :=
| VNull
| VBool (b : bool)
| VNumber (digits : string)
| VString (s : string)
| VArray (items : list Value)
| VObject (fields : list (string * Value)).
(** [Value::get] on a key, [Value::as_str] *)
Definition value_get (v : Value) (key : string) : option Value :=
  match v with
  | VObject fields => snd <$> List.find (λ kv : string * Value, bool_decide (kv.1 = key)) fields
  | _ => None
  end.
Definition as_str (v : Value) : option string := match v with VString s => Some s | _ => None end.
(** [serde_json::to_string] *)
Class ValueText := { value_to_string : Value → string }.

(** ** types.rs *)

Inductive ProviderKind := Gemini | OpenAi | RemoteProvider.
Inductive ChatMode := Ask | Agent | Inline.
#[export] Instance ProviderKind_eq_dec : EqDecision ProviderKind.
Proof. solve_decision. Defined.
#[export] Instance ChatMode_eq_dec : EqDecision ChatMode.
Proof. solve_decision. Defined.
Record EmbeddedFileContext := {
  ef_path : string;
  ef_content : string;
  ef_checksum : string;
  ef_size_bytes : Z }.
Record EditorContext := {
  ec_active_file : option string;
  ec_selected_text : option string;
  ec_embedded_files : list EmbeddedFileContext;
  ec_open_tabs : list string;
  ec_cursor_line : option Z }.
Definition EditorContext_default : EditorContext :=
  {| ec_active_file := None; ec_selected_text := None; ec_embedded_files := []; ec_open_tabs := []; ec_cursor_line := None |}.
Record AiConfig := {
  ac_provider : ProviderKind;
  ac_api_key : option string;
  ac_openai_api_key : option string;
  ac_openai_base_url : option string;
  ac_openai_model : option string;
  ac_model : string;
  ac_server_url : option string;
  ac_round_limit : nat;
  ac_proxy_tool_timeout_ms : Z }.
Record ModelToolCall := {
  tc_call_id : string;
  tc_tool_name : string;
  tc_arguments : Value;
  tc_signature : option bytes;
  tc_tool_call_id : option string;
  tc_provider_call_id : option string }.
Record TokenUsage := {
  tu_input_tokens : Z;
  tu_output_tokens : Z;
  tu_total_tokens : Z;
  tu_cached_input_tokens : Z }.
Inductive FinishReason := Stop | ToolCalls | ToolRoundLimit | FinishCancelled | FinishError.
#[export] Instance FinishReason_eq_dec : EqDecision FinishReason.
Proof. solve_decision. Defined.
Inductive ChatMessage :=
| MSystem (content : string)
| MUser (content : string) (editor_context : option EditorContext)
| MAssistant (content : string) (tool_calls : list ModelToolCall)
| MToolResult (call_id tool_name output : string) (is_error : bool) (tool_call_id provider_call_id : option string).
Definition is_user (m : ChatMessage) : bool := match m with MUser _ _ => true | _ => false end.

(** ** mutation.rs *)

Inductive MutationOp :=
| CreateFile (path content : string)
| CreateDirectory (path : string)
| ReplaceFile (path content expected_checksum : string) (before_excerpt : option string)
| DeleteFile (path expected_checksum : string)
| DeleteDirectory (path expected_checksum : string)
| RenameFileOp (from to : string).
Record MutationPlan := { mp_summary : string; mp_operations : list MutationOp }.
Record ConflictItem := {
  ci_path : string;
  ci_reason : string;
  ci_expected : option string;
  ci_actual : option string }.
Inductive MutationApplyResult :=
| MutationApplied (summary : string) (warnings : list string)
| PartiallyApplied (summary : string) (applied failed skipped warnings : list string)
| MutationConflict (summary : string) (conflicts : list ConflictItem).

(** ** error.rs *)

Inductive AiError :=
| NotConfigured
| SessionNotFound
| SessionBusy
| Cancelled
| HostUnavailable
| ApprovalNotFound
| Unauthorized
| ProviderInit (message : string)
| ProviderError (message : string)
| InvalidArguments (message : string)
| AiToolNotFound (name : string)
| ProxyTimeout (name : string)
| AiStateError (message : string)
| AiIo (message : string).
#[export] Instance AiError_eq_dec : EqDecision AiError.
Proof. solve_decision. Defined.
Definition ai_error_text (e : AiError) : string :=
  match e with
  | NotConfigured => "AI is not configured. Choose a connection in Settings and add its API key or model."
  | SessionNotFound => "AI session not found."
  | SessionBusy => "AI session is already running."
  | Cancelled => "AI request was cancelled."
  | HostUnavailable => "AI host is not registered."
  | ApprovalNotFound => "Approval request not found."
  | Unauthorized => "Authorization expired or invalid."
  | ProviderInit m => "Provider init failed: " +:+ m
  | ProviderError m => "Provider request failed: " +:+ m
  | InvalidArguments m => "Invalid arguments: " +:+ m
  | AiToolNotFound m => "Tool not found: " +:+ m
  | ProxyTimeout m => "Proxy tool timeout: " +:+ m
  | AiStateError m => "State error: " +:+ m
  | AiIo m => "I/O error: " +:+ m
  end.
Inductive ToolError := ToolInvalidArguments (message : string) | ExecutionFailed (message : string).
Definition tool_error_text (e : ToolError) : string :=
  match e with
  | ToolInvalidArguments m => "Invalid tool arguments: " +:+ m
  | ExecutionFailed m => "Tool execution failed: " +:+ m
  end.

(** ** tools/ *)

Inductive ToolAccess := ReadOnly | ProposesMutation.
#[export] Instance ToolAccess_eq_dec : EqDecision ToolAccess.
Proof. solve_decision. Defined.
Inductive ToolSource := Native | Proxy.
#[export] Instance ToolSource_eq_dec : EqDecision ToolSource.
Proof. solve_decision. Defined.
Record ToolDescriptor := {
  td_tool_id : string;
  td_name : string;
  td_description : string;
  td_parameters : Value;
  td_category : string;
  td_access : ToolAccess;
  td_source : ToolSource }.
Definition INLINE_EDIT_TOOL_ID : string := "builtin.edit_file".
(** The tools of a mode *)
Definition mode_allows (mode : ChatMode) (tool : ToolDescriptor) : bool :=
  match mode with
  | Agent => true
  | Ask => bool_decide (td_access tool = ReadOnly)
  | Inline => bool_decide (td_access tool = ReadOnly) || bool_decide (td_tool_id tool = INLINE_EDIT_TOOL_ID)
              || bool_decide (td_name tool = "edit_file")
  end.
Definition allowed_tools (mode : ChatMode) (descriptors : list ToolDescriptor) : list ToolDescriptor :=
  List.filter (mode_allows mode) descriptors.
Record ProxyToolDescriptor := {
  pd_tool_id : string;
  pd_name : string;
  pd_description : string;
  pd_parameters : Value;
  pd_category : string }.
Definition as_tool_descriptor (d : ProxyToolDescriptor) : ToolDescriptor :=
  {| td_tool_id := pd_tool_id d; td_name := pd_name d; td_description := pd_description d;
     td_parameters := pd_parameters d; td_category := pd_category d; td_access := ReadOnly; td_source := Proxy |}.
Record ProxyToolResult := { pr_output : string; pr_is_error : bool }.
Record NativeToolResult := {
  nr_text : string;
  nr_mutation : option MutationPlan;
  nr_preview_text : option string }.

(** The registry: [T] is the type of native tools. *)
Record ToolRegistry (T : Type) := { reg_native : gmap string T; reg_proxy : gmap string ProxyToolDescriptor }.
Arguments reg_native {T}.
Arguments reg_proxy {T}.
Section registry.
Context {T : Type} (descriptor : T → ToolDescriptor).
Definition register_native (tool : T) (r : ToolRegistry T) : ToolRegistry T :=
  {| reg_native := <[td_name (descriptor tool) := tool]> (reg_native r); reg_proxy := reg_proxy r |}.
Definition get_native (r : ToolRegistry T) (name : string) : option T := reg_native r !! name.
Definition register_proxy (d : ProxyToolDescriptor) (r : ToolRegistry T) : ToolRegistry T :=
  {| reg_native := reg_native r; reg_proxy := <[pd_name d := d]> (reg_proxy r) |}.
Definition unregister_proxy (name : string) (r : ToolRegistry T) : ToolRegistry T :=
  {| reg_native := reg_native r; reg_proxy := base.delete name (reg_proxy r) |}.
Definition get_proxy (r : ToolRegistry T) (name : string) : option ProxyToolDescriptor := reg_proxy r !! name.
Definition descriptors (r : ToolRegistry T) : list ToolDescriptor :=
  sort_by (leb_on td_name)
    ((descriptor ∘ snd <$> map_to_list (reg_native r)) ++ (as_tool_descriptor ∘ snd <$> map_to_list (reg_proxy r))).

(** Registered tools are found under their names. *)
Definition registry_ok (r : ToolRegistry T) : Prop :=
  (∀ name t, reg_native r !! name = Some t → td_name (descriptor t) = name) ∧
  (∀ name d, reg_proxy r !! name = Some d → pd_name d = name).
Lemma register_native_ok tool r : registry_ok r → registry_ok (register_native tool r).
Proof.
  intros [Hn Hp]. split; [|done]. intros name t. cbn [reg_native register_native].
  rewrite lookup_insert_Some. intros [[<- <-]|[_ Ht]]; auto.
Qed.
Lemma register_proxy_ok d r : registry_ok r → registry_ok (register_proxy d r).
Proof.
  intros [Hn Hp]. split; [done|]. intros name t. cbn [reg_proxy register_proxy].
  rewrite lookup_insert_Some. intros [[<- <-]|[_ Ht]]; auto.
Qed.
Lemma unregister_proxy_ok name r : registry_ok r → registry_ok (unregister_proxy name r).
Proof.
  intros [Hn Hp]. split; [done|]. intros n t. cbn [reg_proxy unregister_proxy].
  rewrite lookup_delete_Some. intros [_ Ht]. auto.
Qed.
Lemma elem_of_descriptors r d : d ∈ descriptors r →
  (∃ name t, reg_native r !! name = Some t ∧ d = descriptor t) ∨
  (∃ name p, reg_proxy r !! name = Some p ∧ d = as_tool_descriptor p).
Proof.
  intros Hd%elem_of_sort_by. apply elem_of_app in Hd as [Hd|Hd];
    apply list_elem_of_fmap in Hd as ([name x] & -> & Hx%elem_of_map_to_list); [left|right]; eauto.
Qed.
End registry.
