(* ===== verification/AiSession.v ===== *)
(** * A chat session and its history (crates/kuku-ai/session.rs)

    The state of a session, the texts that accompany a user's message, and the
    compaction of the history that is sent to the model. *)
From Stdlib Require Import Ascii String.
#[local] Set Warnings "-clear-no-such-hyp,-register-all".
From S2P Require Import Prelude Text Chars Indexer AiTypes.

(** ** The session *)

Inductive SessionStatus := Idle | Streaming | AwaitingApproval | Applying.
#[export] Instance SessionStatus_eq_dec : EqDecision SessionStatus.
Proof. solve_decision. Defined.
Inductive ApprovalDecision := Approve | Reject.
#[export] Instance ApprovalDecision_eq_dec : EqDecision ApprovalDecision.
Proof. solve_decision. Defined.
Record SessionControl := {
  sc_status : SessionStatus;
  sc_cancel : option nat;
  sc_deferred_cancel : bool }.
#[export] Instance SessionControl_eq_dec : EqDecision SessionControl.
Proof. solve_decision. Defined.
Record PathSnapshot := { ps_checksum : string; ps_is_dir : bool }.

(** [SessionRuntime]. Cancellation tokens and oneshot channels are shared objects; they are
    numbered by [sn_next], a token is cancelled when it is in [sn_cancelled], a channel has
    the decision that was sent on it and a receiver that is alive or not. *)
Record SessionRuntime := {
  sn_id : string;
  sn_mode : ChatMode;
  sn_messages : list ChatMessage;
  sn_editor_context : EditorContext;
  sn_approvals : gmap string nat;
  sn_path_snapshots : gmap string PathSnapshot;
  sn_control : SessionControl;
  sn_next : nat;
  sn_cancelled : gset nat;
  sn_decisions : gmap nat ApprovalDecision;
  sn_receivers : gset nat }.
Definition idle_control : SessionControl := {| sc_status := Idle; sc_cancel := None; sc_deferred_cancel := false |}.
Definition SessionRuntime_new (id : string) (mode : ChatMode) : SessionRuntime :=
  {| sn_id := id; sn_mode := mode; sn_messages := []; sn_editor_context := EditorContext_default; sn_approvals := ∅;
     sn_path_snapshots := ∅; sn_control := idle_control; sn_next := 0; sn_cancelled := ∅; sn_decisions := ∅;
     sn_receivers := ∅ |}.
Definition with_mode (m : ChatMode) (s : SessionRuntime) : SessionRuntime :=
  {| sn_id := sn_id s; sn_mode := m; sn_messages := sn_messages s; sn_editor_context := sn_editor_context s;
     sn_approvals := sn_approvals s; sn_path_snapshots := sn_path_snapshots s; sn_control := sn_control s;
     sn_next := sn_next s; sn_cancelled := sn_cancelled s; sn_decisions := sn_decisions s; sn_receivers := sn_receivers s |}.
Definition push_message (m : ChatMessage) (s : SessionRuntime) : SessionRuntime :=
  {| sn_id := sn_id s; sn_mode := sn_mode s; sn_messages := sn_messages s ++ [m]; sn_editor_context := sn_editor_context s;
     sn_approvals := sn_approvals s; sn_path_snapshots := sn_path_snapshots s; sn_control := sn_control s;
     sn_next := sn_next s; sn_cancelled := sn_cancelled s; sn_decisions := sn_decisions s; sn_receivers := sn_receivers s |}.
Definition with_editor_context (c : EditorContext) (s : SessionRuntime) : SessionRuntime :=
  {| sn_id := sn_id s; sn_mode := sn_mode s; sn_messages := sn_messages s; sn_editor_context := c;
     sn_approvals := sn_approvals s; sn_path_snapshots := sn_path_snapshots s; sn_control := sn_control s;
     sn_next := sn_next s; sn_cancelled := sn_cancelled s; sn_decisions := sn_decisions s; sn_receivers := sn_receivers s |}.
Definition with_snapshots (f : gmap string PathSnapshot → gmap string PathSnapshot) (s : SessionRuntime) : SessionRuntime :=
  {| sn_id := sn_id s; sn_mode := sn_mode s; sn_messages := sn_messages s; sn_editor_context := sn_editor_context s;
     sn_approvals := sn_approvals s; sn_path_snapshots := f (sn_path_snapshots s); sn_control := sn_control s;
     sn_next := sn_next s; sn_cancelled := sn_cancelled s; sn_decisions := sn_decisions s; sn_receivers := sn_receivers s |}.
Definition with_control (c : SessionControl) (s : SessionRuntime) : SessionRuntime :=
  {| sn_id := sn_id s; sn_mode := sn_mode s; sn_messages := sn_messages s; sn_editor_context := sn_editor_context s;
     sn_approvals := sn_approvals s; sn_path_snapshots := sn_path_snapshots s; sn_control := c;
     sn_next := sn_next s; sn_cancelled := sn_cancelled s; sn_decisions := sn_decisions s; sn_receivers := sn_receivers s |}.
Definition with_channels (approvals : gmap string nat) (next : nat) (decisions : gmap nat ApprovalDecision)
  (receivers : gset nat) (s : SessionRuntime) : SessionRuntime :=
  {| sn_id := sn_id s; sn_mode := sn_mode s; sn_messages := sn_messages s; sn_editor_context := sn_editor_context s;
     sn_approvals := approvals; sn_path_snapshots := sn_path_snapshots s; sn_control := sn_control s;
     sn_next := next; sn_cancelled := sn_cancelled s; sn_decisions := decisions; sn_receivers := receivers |}.
Definition cancel_token (token : nat) (s : SessionRuntime) : SessionRuntime :=
  {| sn_id := sn_id s; sn_mode := sn_mode s; sn_messages := sn_messages s; sn_editor_context := sn_editor_context s;
     sn_approvals := sn_approvals s; sn_path_snapshots := sn_path_snapshots s; sn_control := sn_control s;
     sn_next := sn_next s; sn_cancelled := {[token]} ∪ sn_cancelled s; sn_decisions := sn_decisions s;
     sn_receivers := sn_receivers s |}.
Definition is_cancelled (token : nat) (s : SessionRuntime) : bool := bool_decide (token ∈ sn_cancelled s).

Definition start_run : Act SessionRuntime AiError nat := λ s,
  if negb (bool_decide (sc_status (sn_control s) = Idle)) then (Err SessionBusy, s)
  else
    let cancel := sn_next s in
    let s := with_channels (sn_approvals s) (S (sn_next s)) (sn_decisions s) (sn_receivers s) s in
    (Ok cancel, with_control {| sc_status := Streaming; sc_cancel := Some cancel; sc_deferred_cancel := false |} s).
Definition cancel_session (s : SessionRuntime) : SessionRuntime :=
  let control := sn_control s in
  match sc_status control with
  | Applying =>
      let s := with_control {| sc_status := Applying; sc_cancel := sc_cancel control; sc_deferred_cancel := true |} s in
      match sc_cancel control with Some cancel => cancel_token cancel s | None => s end
  | status =>
      let s := with_control {| sc_status := status; sc_cancel := None; sc_deferred_cancel := sc_deferred_cancel control |} s in
      match sc_cancel control with Some cancel => cancel_token cancel s | None => s end
  end.
Definition set_status (status : SessionStatus) (s : SessionRuntime) : SessionRuntime :=
  with_control {| sc_status := status; sc_cancel := sc_cancel (sn_control s);
                  sc_deferred_cancel := sc_deferred_cancel (sn_control s) |} s.
(** The sender that was in the map under the same call is dropped. *)
Definition begin_awaiting_approval (call_id : string) (s : SessionRuntime) : nat * SessionRuntime :=
  let rx := sn_next s in
  (rx, set_status AwaitingApproval
         (with_channels (<[call_id := rx]> (sn_approvals s)) (S rx) (sn_decisions s) ({[rx]} ∪ sn_receivers s) s)).
Definition clear_approval (call_id : string) (s : SessionRuntime) : SessionRuntime :=
  with_channels (base.delete call_id (sn_approvals s)) (sn_next s) (sn_decisions s) (sn_receivers s) s.
Definition resolve_approval (call_id : string) (approved : bool) : Act SessionRuntime AiError unit := λ s,
  match sn_approvals s !! call_id with
  | None => (Err ApprovalNotFound, s)
  | Some sender =>
      let s := clear_approval call_id s in
      if bool_decide (sender ∈ sn_receivers s)
      then (Ok tt, with_channels (sn_approvals s) (sn_next s)
                     (<[sender := if approved then Approve else Reject]> (sn_decisions s)) (sn_receivers s) s)
      else (Err ApprovalNotFound, s)
  end.
(** The end of the waiting: the receiver is dropped. *)
Definition drop_receiver (rx : nat) (s : SessionRuntime) : SessionRuntime :=
  with_channels (sn_approvals s) (sn_next s) (sn_decisions s) (sn_receivers s ∖ {[rx]}) s.
(** What the receiver can see: a decision, or that its sender is gone *)
Inductive Received := Decided (d : ApprovalDecision) | SenderDropped | NothingYet.
Definition try_receive (rx : nat) (s : SessionRuntime) : Received :=
  match sn_decisions s !! rx with
  | Some d => Decided d
  | None =>
      if bool_decide (Exists (λ kv : string * nat, kv.2 = rx) (map_to_list (sn_approvals s))) then NothingYet else SenderDropped
  end.
Definition remember_path_snapshot (path checksum : string) (is_dir : bool) : SessionRuntime → SessionRuntime :=
  with_snapshots (insert path {| ps_checksum := checksum; ps_is_dir := is_dir |}).
Definition path_snapshot (path : string) (s : SessionRuntime) : option (string * bool) :=
  (λ p, (ps_checksum p, ps_is_dir p)) <$> sn_path_snapshots s !! path.
Definition complete_run (s : SessionRuntime) : bool * SessionRuntime :=
  (sc_deferred_cancel (sn_control s), with_control idle_control s).

Section snapshots.
Context `{Blake3}.
Definition checksum_for_content (content : string) : string := blake3_hex content.
(** [blake3::Hasher::new().finalize()] *)
Definition empty_directory_checksum : string := blake3_hex EmptyString.
Definition applied_op (snapshots : gmap string PathSnapshot) (op : MutationOp) : gmap string PathSnapshot :=
  match op with
  | CreateFile path content | ReplaceFile path content _ _ =>
      <[path := {| ps_checksum := checksum_for_content content; ps_is_dir := false |}]> snapshots
  | CreateDirectory path => <[path := {| ps_checksum := empty_directory_checksum; ps_is_dir := true |}]> snapshots
  | DeleteFile path _ | DeleteDirectory path _ => base.delete path snapshots
  | RenameFileOp from to =>
      match snapshots !! from with
      | Some snapshot => <[to := snapshot]> (base.delete from snapshots)
      | None => base.delete to snapshots
      end
  end.
Definition apply_successful_mutation (operations : list MutationOp) : SessionRuntime → SessionRuntime :=
  with_snapshots (λ snapshots, foldl applied_op snapshots operations).
Definition cleared_op (snapshots : gmap string PathSnapshot) (op : MutationOp) : gmap string PathSnapshot :=
  match op with
  | CreateFile path _ | CreateDirectory path | ReplaceFile path _ _ _ | DeleteFile path _ | DeleteDirectory path _ =>
      base.delete path snapshots
  | RenameFileOp from to => base.delete to (base.delete from snapshots)
  end.
Definition clear_mutation_snapshots (operations : list MutationOp) : SessionRuntime → SessionRuntime :=
  with_snapshots (λ snapshots, foldl cleared_op snapshots operations).
End snapshots.
Definition remember_embedded_file_snapshots (editor_context : EditorContext) (s : SessionRuntime) : SessionRuntime :=
  foldl (λ s file, remember_path_snapshot (ef_path file) (ef_checksum file) false s) s (ec_embedded_files editor_context).
