(* ===== verification/AiHistory.v ===== *)
(** * The texts of a turn and the compaction of the history (crates/kuku-ai/session.rs) *)
From Stdlib Require Import Ascii String.
#[local] Set Warnings "-clear-no-such-hyp,-register-all".
From S2P Require Import Prelude Text Chars Indexer AiTypes.

Definition HISTORY_HARD_CAP_BYTES : nat := 64 * 1024.
Definition HISTORY_SUMMARY_MAX_BYTES : nat := 8 * 1024.
Definition HISTORY_MIN_RAW_USER_TURNS : nat := 3.
Definition HISTORY_SUMMARY_ITEM_MAX_BYTES : nat := 320.
Definition HISTORY_SUMMARY_MAX_REQUESTS : nat := 3.
Definition HISTORY_SUMMARY_MAX_TOOL_RESULTS : nat := 3.
Definition HISTORY_SUMMARY_MAX_ASSISTANT_REPLIES : nat := 2.
Definition HISTORY_SUMMARY_MAX_OPEN_TABS : nat := 4.
Definition HISTORY_SUMMARY_MAX_ATTACHMENTS : nat := 3.
Definition HISTORY_SUMMARY_CONTEXT_MESSAGE : string := "[Internal context: Earlier conversation turns were compacted to stay within the context budget. The next assistant message is a background summary of omitted history. Treat it as prior conversation context, not as a new user request.]".
Definition NL : string := String (ascii_of_nat 10) EmptyString.
Definition DQ : string := String (ascii_of_nat 34) EmptyString.
Definition HISTORY_SUMMARY_ASSISTANT_PREFIX : string := "Background summary of earlier conversation:" +:+ NL.
Definition USER_MESSAGE_MARKER : string := "--- USER MESSAGE ---" +:+ NL.

(** ** The user's message *)

Definition mode_label (mode : ChatMode) : string :=
  match mode with Ask => "Ask" | Agent => "Agent" | Inline => "Inline" end.
Definition mode_notice (previous_mode run_mode : ChatMode) : string :=
  "[Internal context: The user switched AI mode from " +:+ mode_label previous_mode +:+ " to " +:+ mode_label run_mode
  +:+ " before this message. Use the current " +:+ mode_label run_mode +:+ " mode instructions and available tools for this turn.]".
Definition content_with_mode_notice (previous_mode run_mode : ChatMode) (content : string) : string :=
  if bool_decide (previous_mode = run_mode) then content
  else mode_notice previous_mode run_mode +:+ NL +:+ NL +:+ content.
Definition selected_text_context (c : EditorContext) : option string :=
  match ec_selected_text c with Some t => if is_blank t then None else Some t | None => None end.
(** [value.replace('\\', "\\\\").replace('"', "\\\"")] *)
Fixpoint escape_prompt_attr (value : string) : string :=
  match value with
  | EmptyString => EmptyString
  | String a value =>
      if Ascii.eqb a "\" then String "\" (String "\" (escape_prompt_attr value))
      else if Ascii.eqb a (ascii_of_nat 34) then String "\" (String a (escape_prompt_attr value))
      else String a (escape_prompt_attr value)
  end.
(** [.map(str::trim).filter(|path| !path.is_empty())] *)
Definition non_empty_path (path : option string) : option string :=
  match path with Some p => if str_is_empty (trim p) then None else Some (trim p) | None => None end.
Definition add_new (acc : list string) (path : string) : list string :=
  if bool_decide (path ∈ acc) then acc else acc ++ [path].
Definition trimmed_tabs (open_tabs : list string) : list string := omap (λ p, non_empty_path (Some p)) open_tabs.
Definition active_editor_context_block (c : EditorContext) : option string :=
  let active_file := non_empty_path (ec_active_file c) in
  let open_tabs := foldl add_new [] (trimmed_tabs (ec_open_tabs c)) in
  match active_file, open_tabs with
  | None, [] => None
  | _, _ =>
      Some ("[Internal context: The user is working in the editor. Resolve references like 'this document' against the active file first. Open tabs provide nearby document context by path only; they are not attached as full content.]"
        +:+ (match active_file with Some f => NL +:+ NL +:+ "Active file: " +:+ escape_prompt_attr f | None => EmptyString end)
        +:+ (match open_tabs with
             | [] => EmptyString
             | _ => NL +:+ "Open tabs:" +:+ str_concat ((λ p, NL +:+ "- " +:+ escape_prompt_attr p) <$> open_tabs)
             end))
  end.
Definition ends_with_newline (s : string) : bool := ends_with NL s.
Definition selected_text_block (selected_text : string) (active_file : option string) : string :=
  let active_file := default EmptyString active_file in
  let guidance :=
    if str_is_empty active_file then "This selected text is a focus excerpt, not a full document."
    else "This selected text is a focus excerpt from the active file, not the full document. If you need to modify " +:+ active_file
         +:+ ", read the full active file before proposing edits and preserve all unrelated content outside the target section." in
  "[Internal context: The user selected text in the active editor. " +:+ guidance +:+ "]" +:+ NL +:+ NL
  +:+ "--- BEGIN SELECTED TEXT activeFile=" +:+ DQ +:+ escape_prompt_attr active_file +:+ DQ +:+ " sizeBytes=" +:+ DQ
  +:+ fmt_int (byte_len selected_text) +:+ DQ +:+ " ---" +:+ NL +:+ selected_text
  +:+ (if ends_with_newline selected_text then EmptyString else NL) +:+ "--- END SELECTED TEXT ---".
Definition embedded_file_block (file : EmbeddedFileContext) : string :=
  NL +:+ NL +:+ "--- BEGIN ATTACHED FILE path=" +:+ DQ +:+ escape_prompt_attr (ef_path file) +:+ DQ +:+ " checksum=" +:+ DQ
  +:+ escape_prompt_attr (ef_checksum file) +:+ DQ +:+ " sizeBytes=" +:+ DQ +:+ fmt_int (ef_size_bytes file) +:+ DQ +:+ " ---" +:+ NL
  +:+ ef_content file +:+ (if ends_with_newline (ef_content file) then EmptyString else NL)
  +:+ "--- END ATTACHED FILE path=" +:+ DQ +:+ escape_prompt_attr (ef_path file) +:+ DQ +:+ " ---".
Definition embedded_files_context (files : list EmbeddedFileContext) : string :=
  let label := if bool_decide (length files = 1) then "file" else "files" in
  "[Internal context: The user attached " +:+ fmt_int (Z.of_nat (length files)) +:+ " vault markdown " +:+ label
  +:+ ". Treat them as user-provided context. Paths are vault-relative. Attached files are already available in this user message.]"
  +:+ str_concat (embedded_file_block <$> files).
Definition content_with_turn_context (previous_mode run_mode : ChatMode) (content : string) (c : EditorContext) : string :=
  let selected_text := selected_text_context c in
  let active_editor_context := active_editor_context_block c in
  match selected_text, ec_embedded_files c, active_editor_context with
  | None, [], None => content_with_mode_notice previous_mode run_mode content
  | _, _, _ =>
      join (NL +:+ NL)
        ((if bool_decide (previous_mode = run_mode) then [] else [mode_notice previous_mode run_mode])
         ++ option_list active_editor_context
         ++ (match selected_text with Some t => [selected_text_block t (ec_active_file c)] | None => [] end)
         ++ (match ec_embedded_files c with [] => [] | files => [embedded_files_context files] end)
         ++ [USER_MESSAGE_MARKER +:+ content])
  end.

(** ** Sizes and cuts *)

(** [text[..end]] for the last character boundary up to [cutoff] *)
Definition cut_at (text : string) (cutoff : nat) : string :=
  from_chars (take (chars_before (chars text) cutoff) (chars text)).
Definition dots (n : nat) : string := str_concat (replicate n ".").
Definition truncate_text_bytes (text : string) (max_bytes : nat) : string :=
  if max_bytes =? 0 then EmptyString
  else if String.length text <=? max_bytes then text
  else if max_bytes <=? 3 then dots max_bytes
  else cut_at text (max_bytes - 3) +:+ "...".
Definition summarize_output (output : string) : string :=
  if length (chars output) <=? 600 then output else from_chars (take 600 (chars output)) +:+ "...".
Definition option_size (s : option string) : nat := match s with Some s => String.length s | None => 0 end.
Section sizes.
Context `{ValueText}.
Definition model_tool_call_input_size (call : ModelToolCall) : nat :=
  String.length (tc_call_id call) + String.length (tc_tool_name call) + String.length (value_to_string (tc_arguments call))
  + option_size (tc_signature call) + option_size (tc_tool_call_id call) + option_size (tc_provider_call_id call).
Definition model_input_size (message : ChatMessage) : nat :=
  match message with
  | MSystem content | MUser content _ => String.length content
  | MAssistant content tool_calls => String.length content + sum_list (model_tool_call_input_size <$> tool_calls)
  | MToolResult call_id tool_name output _ tool_call_id provider_call_id =>
      String.length call_id + String.length tool_name + String.length output
      + option_size tool_call_id + option_size provider_call_id
  end.
End sizes.

(** ** The summary of what is left out *)

Definition normalize_summary_text (text : string) : string := join " " (split_whitespace text).
(** [rsplit_once]: what follows the last occurrence *)
Fixpoint after_last (marker s : string) : option string :=
  match s with
  | EmptyString => None
  | String _ s' => match after_last marker s' with Some rest => Some rest | None => strip_prefix marker s end
  end.
Definition extract_user_request (content : string) : string := default content (after_last USER_MESSAGE_MARKER content).
Definition summary_editor_context_suffix (c : EditorContext) : option string :=
  let details :=
    (match non_empty_path (ec_active_file c) with Some f => ["active file " +:+ f] | None => [] end)
    ++ (match selected_text_context c with Some t => ["selected excerpt " +:+ fmt_int (byte_len t) +:+ "B"] | None => [] end)
    ++ (match ec_embedded_files c with
        | [] => []
        | files => ["attached " +:+ join ", " (ef_path <$> take HISTORY_SUMMARY_MAX_ATTACHMENTS files)]
        end)
    ++ (let open_tabs := join ", " (take HISTORY_SUMMARY_MAX_OPEN_TABS (trimmed_tabs (ec_open_tabs c))) in
        if str_is_empty open_tabs then [] else ["open tabs " +:+ open_tabs]) in
  match details with [] => None | _ => Some (" [context: " +:+ join "; " details +:+ "]") end.
Definition summary_user_message (message : ChatMessage) : option string :=
  match message with
  | MUser content editor_context =>
      let request := truncate_text_bytes (normalize_summary_text (extract_user_request content)) HISTORY_SUMMARY_ITEM_MAX_BYTES in
      if str_is_empty request then None
      else Some (request +:+ default EmptyString (editor_context ≫= summary_editor_context_suffix))
  | _ => None
  end.
Definition summary_tool_result_message (message : ChatMessage) : option string :=
  match message with
  | MToolResult _ tool_name output is_error _ _ =>
      let excerpt := truncate_text_bytes (normalize_summary_text output) HISTORY_SUMMARY_ITEM_MAX_BYTES in
      if str_is_empty excerpt
      then Some (tool_name +:+ " " +:+ (if is_error : bool then "returned an error" else "completed"))
      else Some (tool_name +:+ " " +:+ (if is_error : bool then "resulted in error" else "result") +:+ ": " +:+ excerpt)
  | _ => None
  end.
Definition summary_assistant_message (message : ChatMessage) : option string :=
  match message with
  | MAssistant content tool_calls =>
      let excerpt := truncate_text_bytes (normalize_summary_text content) HISTORY_SUMMARY_ITEM_MAX_BYTES in
      let parts :=
        (if str_is_empty excerpt then [] else [excerpt])
        ++ (match tool_calls with
            | [] => []
            | _ => ["tool calls: " +:+ join ", " (foldl add_new [] (tc_tool_name <$> tool_calls))]
            end) in
      match parts with [] => None | _ => Some (join " | " parts) end
  | _ => None
  end.
(** The lines were collected from the end and are reversed. *)
Definition summary_section (heading : string) (lines : list string) : list string :=
  match lines with
  | [] => []
  | _ => [heading +:+ NL +:+ join NL ((λ line, "- " +:+ line) <$> reverse lines)]
  end.
Definition count_messages (p : ChatMessage → bool) (messages : list ChatMessage) : nat := length (List.filter p messages).
Definition build_history_summary (messages : list ChatMessage) (max_bytes : nat) : option string :=
  if bool_decide (messages = []) || (max_bytes <? 128) then None
  else
    let counted p := fmt_int (Z.of_nat (count_messages p messages)) in
    let sections :=
      ["Summarized earlier turns: " +:+ counted is_user +:+ " user, "
       +:+ counted (λ m, match m with MAssistant _ _ => true | _ => false end) +:+ " assistant, "
       +:+ counted (λ m, match m with MToolResult _ _ _ _ _ _ => true | _ => false end) +:+ " tool result."]
      ++ summary_section "Recent omitted user requests:"
           (take HISTORY_SUMMARY_MAX_REQUESTS (omap summary_user_message (reverse messages)))
      ++ summary_section "Recent omitted tool outcomes:"
           (take HISTORY_SUMMARY_MAX_TOOL_RESULTS (omap summary_tool_result_message (reverse messages)))
      ++ summary_section "Recent omitted assistant replies:"
           (take HISTORY_SUMMARY_MAX_ASSISTANT_REPLIES (omap summary_assistant_message (reverse messages))) in
    let summary := truncate_text_bytes (join (NL +:+ NL) sections) max_bytes in
    if is_blank summary then None else Some summary.
Definition build_history_summary_messages (messages : list ChatMessage) (max_bytes : nat) : option (list ChatMessage) :=
  let overhead := String.length HISTORY_SUMMARY_CONTEXT_MESSAGE + String.length HISTORY_SUMMARY_ASSISTANT_PREFIX in
  if max_bytes <=? overhead then None
  else
    summary ← build_history_summary messages (max_bytes - overhead);
    Some [MUser HISTORY_SUMMARY_CONTEXT_MESSAGE None; MAssistant (HISTORY_SUMMARY_ASSISTANT_PREFIX +:+ summary) []].

(** ** Compaction *)

Section compaction.
Context `{ValueText}.
(** The loop from the end of the history: what is kept, last message first *)
Fixpoint keep_recent (kept_bytes kept_user_turns : nat) (rev_messages : list ChatMessage) : list ChatMessage :=
  match rev_messages with
  | [] => []
  | message :: rest =>
      let message_bytes := model_input_size message in
      let would_exceed := HISTORY_HARD_CAP_BYTES <? kept_bytes + message_bytes in
      if (HISTORY_MIN_RAW_USER_TURNS <=? kept_user_turns) && would_exceed then []
      else message :: keep_recent (kept_bytes + message_bytes) (if is_user message then S kept_user_turns else kept_user_turns) rest
  end.
(** [while omitted_len < messages.len() && !matches!(messages[omitted_len], User)] *)
Fixpoint drop_to_user (messages : list ChatMessage) : list ChatMessage :=
  match messages with
  | [] => []
  | message :: rest => if is_user message then messages else drop_to_user rest
  end.
Definition history_size (messages : list ChatMessage) : nat := sum_list (model_input_size <$> messages).
Definition compact_history_for_model (messages : list ChatMessage) : list ChatMessage :=
  match messages with
  | [] => []
  | _ =>
      let kept_rev := keep_recent 0 0 (reverse messages) in
      if length kept_rev =? length messages then messages
      else
        let kept_messages := drop_to_user (drop (length messages - length kept_rev) messages) in
        let omitted := take (length messages - length kept_messages) messages in
        let summary_messages :=
          build_history_summary_messages omitted
            (Nat.min (HISTORY_HARD_CAP_BYTES - history_size kept_messages) HISTORY_SUMMARY_MAX_BYTES) in
        default [] summary_messages ++ kept_messages
  end.
End compaction.
