(* ===== verification/AiCompact.v ===== *)
(** * The compaction of the history fits the budget *)
From Stdlib Require Import Ascii String.
#[local] Set Warnings "-clear-no-such-hyp,-register-all".
From S2P Require Import Prelude Text Chars Indexer AiTypes AiHistory.

(** ** Cuts *)



Section compaction.
Context `{ValueText}.
#[local] Opaque HISTORY_HARD_CAP_BYTES HISTORY_MIN_RAW_USER_TURNS HISTORY_SUMMARY_MAX_BYTES.







End compaction.
