(* ===== verification/AiEndpoint.v ===== *)
(** * The address of an OpenAI-compatible service (crates/kuku-ai/provider/openai.rs)

    Parsing of addresses ([std::net]), which hosts need a key, and which base URLs are
    accepted. URLs are parsed and written by the url crate, a parameter. *)
From Stdlib Require Import Ascii String.
#[local] Set Warnings "-clear-no-such-hyp,-register-all".
From S2P Require Import Prelude Text AiTypes.

(** ** [str::parse::<IpAddr>()] *)

Inductive IpAddr := V4 (a b c d : N) | V6 (groups : list N).
(** A parser reads from the front of the text; what fails has read nothing. *)
Definition Parser (A : Type) : Type := string → option (A * string).
#[export] Instance parser_ret : MRet Parser := λ A a s, Some (a, s).
#[export] Instance parser_bind : MBind Parser := λ A B f p s, '(a, s) ← p s; f a s.
Definition read_given_char (c : ascii) : Parser unit := λ s,
  match s with String a s => if Ascii.eqb a c then Some (tt, s) else None | EmptyString => None end.
Definition read_separator (sep : ascii) (index : nat) {A} (p : Parser A) : Parser A :=
  if index =? 0 then p else read_given_char sep ≫= λ _, p.
Definition digit_value (radix : N) (a : ascii) : option N :=
  let v :=
    if in_range 48 57 a then Some (ascii_code a - 48)%N
    else if in_range 97 102 a then Some (ascii_code a - 87)%N
    else if in_range 65 70 a then Some (ascii_code a - 55)%N
    else None in
  v ≫= λ n, if (n <? radix)%N then Some n else None.
Fixpoint read_digits (radix : N) (acc : N) (count : nat) (s : string) : N * nat * string :=
  match s with
  | EmptyString => (acc, count, s)
  | String a rest =>
      match digit_value radix a with
      | Some d => read_digits radix (acc * radix + d)%N (S count) rest
      | None => (acc, count, s)
      end
  end.
(** [read_number(radix, Some(max_digits), allow_zero_prefix)] of an integer below [bound] *)
Definition read_number (radix : N) (max_digits : nat) (bound : N) (allow_zero_prefix : bool) : Parser N := λ s,
  let has_leading_zero := starts_with "0" s in
  let '(n, count, rest) := read_digits radix 0 0 s in
  if (count =? 0) || (max_digits <? count) || (bound <=? n)%N || (negb allow_zero_prefix && has_leading_zero && (1 <? count))
  then None else Some (n, rest).
Definition read_ipv4_addr : Parser (N * N * N * N) :=
  let octet i := read_separator "." i (read_number 10 3 256 false) in
  a ← octet 0; b ← octet 1; c ← octet 2; d ← octet 3; mret (a, b, c, d).
(** [read_groups]: at most [limit] groups, [i] of them read, and whether the last two were an
    IPv4 address *)
Fixpoint read_groups (left_ i : nat) (s : string) : list N * bool * string :=
  match left_ with
  | 0 => ([], false, s)
  | S left_ =>
      match (if left_ =? 0 then None else read_separator ":" i read_ipv4_addr s) with
      | Some ((a, b, c, d), s) => ([a * 256 + b; c * 256 + d]%N, true, s)
      | None =>
          match read_separator ":" i (read_number 16 4 65536 true) s with
          | Some (g, s) => let '(groups, v4, s) := read_groups left_ (S i) s in (g :: groups, v4, s)
          | None => ([], false, s)
          end
      end
  end.
Definition read_ipv6_addr : Parser (list N) := λ s,
  let '(head, head_ipv4, s) := read_groups 8 0 s in
  if length head =? 8 then Some (head, s)
  else if head_ipv4 then None
  else
    '(_, s) ← read_given_char ":" s;
    '(_, s) ← read_given_char ":" s;
    let '(tail, _, s) := read_groups (8 - (length head + 1)) 0 s in
    Some (head ++ replicate (8 - length head - length tail) 0%N ++ tail, s).
Definition parse_ip (s : string) : option IpAddr :=
  let addr :=
    match read_ipv4_addr s with
    | Some ((a, b, c, d), rest) => Some (V4 a b c d, rest)
    | None => '(groups, rest) ← read_ipv6_addr s; Some (V6 groups, rest)
    end in
  '(addr, rest) ← addr; if str_is_empty rest then Some addr else None.
(** [is_loopback], [is_private] *)
Definition v4_is_loopback (a : N) : bool := (a =? 127)%N.
Definition v4_is_private (a b : N) : bool :=
  ((a =? 10) || ((a =? 172) && (16 <=? b) && (b <=? 31)) || ((a =? 192) && (b =? 168)))%N.
Definition v6_is_loopback (groups : list N) : bool := bool_decide (groups = [0; 0; 0; 0; 0; 0; 0; 1]%N).

(** ** openai.rs *)

Inductive KeyRequirement := KeyRequired | KeyOptional.
#[export] Instance KeyRequirement_eq_dec : EqDecision KeyRequirement.
Proof. solve_decision. Defined.
Record Endpoint := { ep_base : string; ep_requirement : KeyRequirement }.
Fixpoint trim_start_char (c : ascii) (s : string) : string :=
  match s with
  | String a rest => if Ascii.eqb a c then trim_start_char c rest else s
  | EmptyString => EmptyString
  end.
Definition trim_end_char (c : ascii) (s : string) : string := String.rev (trim_start_char c (String.rev s)).
Definition normalize_api_key (api_key : option string) : option string :=
  match api_key with Some k => if str_is_empty (trim k) then None else Some (trim k) | None => None end.
Definition key_requirement (host : string) : KeyRequirement :=
  let normalized := to_ascii_lowercase (trim_end_char "." (trim_end_char "]" (trim_start_char "[" host))) in
  if bool_decide (normalized = "localhost") || ends_with ".local" normalized || ends_with ".ts.net" normalized
  then KeyOptional
  else
    match parse_ip normalized with
    | Some (V4 a b _ _) => if v4_is_loopback a || v4_is_private a b then KeyOptional else KeyRequired
    | Some (V6 groups) => if v6_is_loopback groups then KeyOptional else KeyRequired
    | None => KeyRequired
    end.
(** What the url crate says of a URL, and the URL written with another path *)
Record Url := {
  url_scheme : string;
  url_username : string;
  url_password : option string;
  url_query : option string;
  url_fragment : option string;
  url_host : option string;
  url_path : string;
  url_with_path : string → string }.
Class UrlCrate := { url_parse : string → Result string Url }.
Section endpoint.
Context `{UrlCrate}.
Definition parse_endpoint (base_url : string) (key_present : bool) : Result AiError Endpoint :=
  url ← map_err (λ error, InvalidArguments ("invalid OpenAI base URL: " +:+ error)) (url_parse (trim base_url));
  reject_if (negb (bool_decide (url_scheme url = "http") || bool_decide (url_scheme url = "https")))
    (InvalidArguments "OpenAI base URL must use http or https");;
  reject_if (negb (str_is_empty (url_username url)) || bool_decide (is_Some (url_password url)))
    (InvalidArguments "OpenAI base URL must not contain userinfo");;
  reject_if (bool_decide (is_Some (url_query url)) || bool_decide (is_Some (url_fragment url)))
    (InvalidArguments "OpenAI base URL must not contain a query or fragment");;
  host ← ok_or (url_host url) (InvalidArguments "OpenAI base URL must contain a host");
  let requirement := key_requirement host in
  reject_if (negb (bool_decide (url_scheme url = "https")) && (key_present || bool_decide (requirement = KeyRequired)))
    (InvalidArguments "OpenAI base URL must use https when a key is present or the host requires a key");;
  let path := trim_end_char "/" (url_path url) in
  Ok {| ep_base := trim_end_char "/" (url_with_path url (if str_is_empty path then "/v1" else path));
        ep_requirement := requirement |}.

(** A host that needs no key: a local name or an address of this machine or a private network *)
Inductive local_host (host : string) : Prop :=
| local_name : host = "localhost" ∨ ends_with ".local" host = true ∨ ends_with ".ts.net" host = true → local_host host
| local_v4 a b c d : parse_ip host = Some (V4 a b c d) →
    (a = 127 ∨ a = 10 ∨ a = 172 ∧ 16 ≤ b ≤ 31 ∨ a = 192 ∧ b = 168)%N → local_host host
| local_v6 : parse_ip host = Some (V6 [0; 0; 0; 0; 0; 0; 0; 1]%N) → local_host host.
Lemma key_requirement_optional host : key_requirement host = KeyOptional ↔
  local_host (to_ascii_lowercase (trim_end_char "." (trim_end_char "]" (trim_start_char "[" host)))).
Proof.
  unfold key_requirement. set (n := to_ascii_lowercase _). destruct (bool_decide _ || _ || _) eqn:Hname.
  { split; [|done]. intros _. apply local_name.
    apply orb_true_iff in Hname as [[->%bool_decide_eq_true|]%orb_true_iff|]; auto. }
  apply orb_false_iff in Hname as [[Hl%bool_decide_eq_false Hlocal]%orb_false_iff Hts].
  assert (Hno : ¬ (n = "localhost" ∨ ends_with ".local" n = true ∨ ends_with ".ts.net" n = true)) by (intros [|[|]]; congruence).
  split.
  - destruct (parse_ip n) as [[a b c d|groups]|] eqn:Hip; [| |done].
    + destruct (_ || _) eqn:Hb; [|done]. intros _. eapply local_v4; [done|].
      unfold v4_is_loopback, v4_is_private in Hb. rewrite !orb_true_iff, !andb_true_iff, !N.eqb_eq, !N.leb_le in Hb. tauto.
    + unfold v6_is_loopback. case_bool_decide as Hg; [|done]. intros _. apply local_v6. by rewrite Hip, Hg.
  - intros [?|a b c d Hip Hb|Hip]; [done| |]; rewrite Hip; [|done].
    unfold v4_is_loopback, v4_is_private. case_match eqn:Hf; [done|].
    rewrite !orb_false_iff, !andb_false_iff, !N.eqb_neq, !N.leb_gt in Hf. lia.
Qed.

(** An accepted base URL uses http or https, carries no user name, password, query or
    fragment, and uses plain http only when no key will be sent and the host is local. *)
Lemma parse_endpoint_secure base_url key_present e : parse_endpoint base_url key_present = Ok e →
  ∃ url host, url_parse (trim base_url) = Ok url ∧ url_host url = Some host ∧
    url_username url = EmptyString ∧ url_password url = None ∧ url_query url = None ∧ url_fragment url = None ∧
    ep_requirement e = key_requirement host ∧
    (url_scheme url = "https" ∨ url_scheme url = "http" ∧ key_present = false ∧
       local_host (to_ascii_lowercase (trim_end_char "." (trim_end_char "]" (trim_start_char "[" host))))).
Proof.
  unfold parse_endpoint. intros Hparse. ok_inv Hparse.
  apply map_err_Ok in Hok. apply ok_or_Ok in Hok3.
  apply orb_false_iff in Hok1 as [Huser%negb_false_iff Hpass%bool_decide_eq_false].
  apply orb_false_iff in Hok2 as [Hquery%bool_decide_eq_false Hfrag%bool_decide_eq_false].
  exists a, a3. split_and!; try done; try by apply eq_None_not_Some.
  - by destruct (url_username a).
  - apply negb_false_iff, orb_true_iff in Hok0. rewrite !bool_decide_eq_true in Hok0.
    apply andb_false_iff in Hok4 as [Hs%negb_false_iff%bool_decide_eq_true|Hk]; [by left|].
    apply orb_false_iff in Hk as [Hkey Hreq%bool_decide_eq_false]. destruct Hok0 as [Hhttp|]; [|by left].
    right. split_and!; [done..|]. apply key_requirement_optional. by destruct (key_requirement a3).
Qed.
End endpoint.
Example parse_ip_examples :
  (parse_ip "127.0.0.1", parse_ip "::1", parse_ip "0:0:0:0:0:0:0:1", parse_ip "01.2.3.4", parse_ip "256.1.1.1",
   parse_ip "::ffff:10.0.0.1", parse_ip "1:2", parse_ip "fe80::1:2") =
  (Some (V4 127 0 0 1), Some (V6 [0;0;0;0;0;0;0;1]%N), Some (V6 [0;0;0;0;0;0;0;1]%N), None, None,
   Some (V6 [0;0;0;0;0;65535;2560;1]%N), None, Some (V6 [65152;0;0;0;0;0;1;2]%N)).
Proof. reflexivity. Qed.
