(* ===== verification/AiState.v ===== *)
(** * The state of the assistant (crates/kuku-ai: state.rs, tools/proxy.rs, commands.rs) *)
From Stdlib Require Import Ascii String.
#[local] Set Warnings "-clear-no-such-hyp,-register-all".
From S2P Require Import Prelude Text AiTypes AiSession AiEndpoint.

(** ** The calls of proxy tools that wait for the front end (ProxyBroker)

    The oneshot channels are numbered; a channel has the result that was sent on it and a
    receiver that is alive or not. *)
Record ProxyBroker := {
  pb_pending : gmap string nat;
  pb_next : nat;
  pb_results : gmap nat ProxyToolResult;
  pb_receivers : gset nat }.
Definition ProxyBroker_default : ProxyBroker := {| pb_pending := ∅; pb_next := 0; pb_results := ∅; pb_receivers := ∅ |}.
Definition register_pending (call_id : string) (b : ProxyBroker) : nat * ProxyBroker :=
  (pb_next b, {| pb_pending := <[call_id := pb_next b]> (pb_pending b); pb_next := S (pb_next b);
                 pb_results := pb_results b; pb_receivers := {[pb_next b]} ∪ pb_receivers b |}).
Definition clear_pending (call_id : string) (b : ProxyBroker) : ProxyBroker :=
  {| pb_pending := base.delete call_id (pb_pending b); pb_next := pb_next b; pb_results := pb_results b;
     pb_receivers := pb_receivers b |}.
Definition resolve_pending (call_id : string) (result : ProxyToolResult) : Act ProxyBroker AiError unit := λ b,
  match pb_pending b !! call_id with
  | None => (Err (AiToolNotFound call_id), b)
  | Some sender =>
      let b := clear_pending call_id b in
      if bool_decide (sender ∈ pb_receivers b)
      then (Ok tt, {| pb_pending := pb_pending b; pb_next := pb_next b; pb_results := <[sender := result]> (pb_results b);
                      pb_receivers := pb_receivers b |})
      else (Err (AiStateError ("Proxy call " +:+ call_id +:+ " is no longer pending")), b)
  end.
Definition drop_pending_receiver (rx : nat) (b : ProxyBroker) : ProxyBroker :=
  {| pb_pending := pb_pending b; pb_next := pb_next b; pb_results := pb_results b; pb_receivers := pb_receivers b ∖ {[rx]} |}.
Definition pending_is_open (rx : nat) (b : ProxyBroker) : bool :=
  bool_decide (Exists (λ kv : string * nat, kv.2 = rx) (map_to_list (pb_pending b))).

(** ** Backends *)

Class Backends := {
  Backend : Type;
  gemini_new : string → string → Result AiError Backend;
  remote_new : string → string → Result AiError Backend;
  openai_client : string → string → string → Result AiError Backend }.
(** How the application was built: with debug assertions, and the [KUKU_API_URL] of the build *)
Record Build := { debug_assertions : bool; kuku_api_url : option string }.
Definition fallback_server_url (build : Build) : string :=
  if debug_assertions build then "http://localhost:8080" else "https://api.kuku.mom".
Definition default_server_url (build : Build) : string := default (fallback_server_url build) (kuku_api_url build).
Definition AiConfig_default (build : Build) : AiConfig :=
  {| ac_provider := RemoteProvider; ac_api_key := None; ac_openai_api_key := None; ac_openai_base_url := None;
     ac_openai_model := None; ac_model := "gemini-3.1-flash-lite"; ac_server_url := Some (default_server_url build);
     ac_round_limit := 12; ac_proxy_tool_timeout_ms := 15000 |}.
Section backends.
Context `{UrlCrate} `{Backends} (build : Build).
(** [OpenAiBackend::new]: the client is made by the rig crate *)
Definition openai_new (api_key : option string) (base_url model : string) : Result AiError Backend :=
  let key := normalize_api_key api_key in
  endpoint ← parse_endpoint base_url (bool_decide (is_Some key));
  key ← match key, ep_requirement endpoint with
        | Some key, _ => Ok key
        | None, KeyOptional => Ok "local"
        | None, KeyRequired => Err NotConfigured
        end;
  openai_client key (ep_base endpoint) model.
Definition build_backend (config : AiConfig) : Result AiError (option Backend) :=
  match ac_provider config with
  | Gemini =>
      match ac_api_key config with
      | None => Ok None
      | Some api_key => backend ← gemini_new api_key (ac_model config); Ok (Some backend)
      end
  | RemoteProvider =>
      let base_url := default (fallback_server_url build) (ac_server_url config) in
      backend ← remote_new base_url (ac_model config); Ok (Some backend)
  | OpenAi =>
      let model := trim (ac_model config) in
      if str_is_empty model then Ok None
      else
        let base_url := default "https://api.openai.com/v1" (ac_openai_base_url config) in
        let key := normalize_api_key (ac_openai_api_key config) in
        endpoint ← parse_endpoint base_url (bool_decide (is_Some key));
        if bool_decide (ep_requirement endpoint = KeyRequired) && bool_decide (key = None) then Ok None
        else backend ← openai_new key base_url model; Ok (Some backend)
  end.

(** ** AiState

    [T] is the type of native tools. The session runtimes are shared: one that [reset_state]
    takes out of the table lives on in the turn that runs on it. *)
Context {T : Type} (descriptor : T → ToolDescriptor).
Record AiState := {
  as_config : AiConfig;
  as_provider : option Backend;
  as_sessions : gmap string SessionRuntime;
  as_tools : ToolRegistry T;
  as_broker : ProxyBroker;
  as_host : bool }.
Definition AiState_default : AiState :=
  {| as_config := AiConfig_default build; as_provider := None; as_sessions := ∅;
     as_tools := {| reg_native := ∅; reg_proxy := ∅ |}; as_broker := ProxyBroker_default; as_host := false |}.
Definition with_config (c : AiConfig) (s : AiState) : AiState :=
  {| as_config := c; as_provider := as_provider s; as_sessions := as_sessions s; as_tools := as_tools s;
     as_broker := as_broker s; as_host := as_host s |}.
Definition with_provider (p : option Backend) (s : AiState) : AiState :=
  {| as_config := as_config s; as_provider := p; as_sessions := as_sessions s; as_tools := as_tools s; as_broker := as_broker s;
     as_host := as_host s |}.
Definition with_sessions (m : gmap string SessionRuntime) (s : AiState) : AiState :=
  {| as_config := as_config s; as_provider := as_provider s; as_sessions := m; as_tools := as_tools s;
     as_broker := as_broker s; as_host := as_host s |}.
Definition with_tools (r : ToolRegistry T) (s : AiState) : AiState :=
  {| as_config := as_config s; as_provider := as_provider s; as_sessions := as_sessions s; as_tools := r;
     as_broker := as_broker s; as_host := as_host s |}.
Definition with_broker (b : ProxyBroker) (s : AiState) : AiState :=
  {| as_config := as_config s; as_provider := as_provider s; as_sessions := as_sessions s; as_tools := as_tools s;
     as_broker := b; as_host := as_host s |}.
Definition with_host (h : bool) (s : AiState) : AiState :=
  {| as_config := as_config s; as_provider := as_provider s; as_sessions := as_sessions s; as_tools := as_tools s;
     as_broker := as_broker s; as_host := h |}.
Definition set_host : AiState → AiState := with_host true.

Definition normalized_config (c : AiConfig) : AiConfig :=
  {| ac_provider := ac_provider c; ac_api_key := normalize_api_key (ac_api_key c);
     ac_openai_api_key := normalize_api_key (ac_openai_api_key c); ac_openai_base_url := ac_openai_base_url c;
     ac_openai_model := ac_openai_model c; ac_model := ac_model c; ac_server_url := ac_server_url c;
     ac_round_limit := ac_round_limit c; ac_proxy_tool_timeout_ms := ac_proxy_tool_timeout_ms c |}.
(** *** The methods that take several locks

    [set_config], [reset_state] and [backend] take the locks of the fields one after the
    other, so other tasks run between. A point says what a method does next. *)
Inductive Method := Method_set_config (config : AiConfig) | Method_reset_state | Method_backend.
Inductive Point :=
| WriteConfig (config : AiConfig) (* self.inner.config.write(), after the backend was built *)
| WriteProvider (backend : option Backend) (* self.inner.provider.write() *)
| DrainSessions | WriteDefaultConfig | ClearProvider (* of reset_state *)
| ReadProvider | ReadConfig | KeepProvider (provider : Backend) (* of backend *)
| MethodDone (r : Result AiError (option Backend)).
Definition set_config (config : AiConfig) : Point := WriteConfig (normalized_config config).
Definition reset_state : Point := DrainSessions.
Definition backend : Point := ReadProvider.
Definition method_start (m : Method) : Point :=
  match m with Method_set_config config => set_config config | Method_reset_state => reset_state | Method_backend => backend end.
(** One step: at most one lock is taken. *)
Definition method_step (p : Point) (s : AiState) : Point * AiState :=
  match p with
  | WriteConfig config =>
      match build_backend config with
      | Err e => (MethodDone (Err e), s)
      | Ok backend => (WriteProvider backend, with_config config s)
      end
  | WriteProvider backend => (MethodDone (Ok None), with_provider backend s)
  | DrainSessions => (WriteDefaultConfig, with_sessions ∅ s)
  | WriteDefaultConfig => (ClearProvider, with_config (AiConfig_default build) s)
  | ClearProvider => (MethodDone (Ok None), with_provider None s)
  | ReadProvider =>
      match as_provider s with Some provider => (MethodDone (Ok (Some provider)), s) | None => (ReadConfig, s) end
  | ReadConfig =>
      match build_backend (as_config s) with
      | Err e => (MethodDone (Err e), s)
      | Ok None => (MethodDone (Err NotConfigured), s)
      | Ok (Some provider) => (KeepProvider provider, s)
      end
  | KeepProvider provider => (MethodDone (Ok (Some provider)), with_provider (Some provider) s)
  | MethodDone r => (MethodDone r, s)
  end.
(** The identifier is a fresh UUID. *)
Definition create_session (id : string) (mode : ChatMode) (s : AiState) : AiState :=
  with_sessions (<[id := SessionRuntime_new id mode]> (as_sessions s)) s.
Definition get_session (id : string) (s : AiState) : Result AiError SessionRuntime :=
  ok_or (as_sessions s !! id) SessionNotFound.
Definition on_session {A} (id : string) (m : Act SessionRuntime AiError A) : Act AiState AiError A := λ s,
  match get_session id s with
  | Err e => (Err e, s)
  | Ok session => let '(r, session) := m session in (r, with_sessions (<[id := session]> (as_sessions s)) s)
  end.
Definition state_remember_path_snapshot (id path checksum : string) (is_dir : bool) : Act AiState AiError unit :=
  on_session id (modify (remember_path_snapshot path checksum is_dir)).
Definition state_path_snapshot (id path : string) (s : AiState) : Result AiError (option (string * bool)) :=
  session ← get_session id s; Ok (path_snapshot path session).
Definition tool_descriptors (s : AiState) : list ToolDescriptor := descriptors descriptor (as_tools s).

(** ** The commands (commands.rs) *)

(** The commands that take one lock; [ai_set_config] and [ai_reset_state] call their methods. *)
Inductive AiCommand :=
| AiNewSession (id : string) (mode : ChatMode)
| AiCancel (session_id : string)
| AiResolveApproval (session_id call_id : string) (approved : bool)
| AiRegisterProxyTool (d : ProxyToolDescriptor)
| AiUnregisterProxyTool (name : string)
| AiSubmitProxyToolResult (call_id output : string) (is_error : bool).
Definition ai_command (c : AiCommand) : Act AiState AiError unit := λ s,
  match c with
  | AiNewSession id mode => (Ok tt, create_session id mode s)
  | AiCancel id => on_session id (modify cancel_session) s
  | AiResolveApproval id call_id approved => on_session id (resolve_approval call_id approved) s
  | AiRegisterProxyTool d => (Ok tt, with_tools (register_proxy d (as_tools s)) s)
  | AiUnregisterProxyTool name => (Ok tt, with_tools (unregister_proxy name (as_tools s)) s)
  | AiSubmitProxyToolResult call_id output is_error =>
      zoom as_broker with_broker (resolve_pending call_id {| pr_output := output; pr_is_error := is_error |}) s
  end.

(** The commands that only look *)
Definition ai_get_config (s : AiState) : AiConfig := as_config s.
Definition ai_list_tools (s : AiState) : list ToolDescriptor := tool_descriptors s.

(** ** Theorems *)

(** *** Tasks that use the state at the same time

    [cc_tasks] are the calls of the three methods, each at its point; [cc_set] are the
    configurations [set_config] was called with. *)
Record Concurrent := { cc_state : AiState; cc_tasks : list Point; cc_set : list AiConfig }.
Definition concurrent_start : Concurrent := {| cc_state := AiState_default; cc_tasks := []; cc_set := [] |}.
Inductive StateEvent := Calls (m : Method) | Continues (task : nat) | Commands (c : AiCommand).
Definition concurrent_step (c : Concurrent) (e : StateEvent) : Concurrent :=
  match e with
  | Calls m =>
      {| cc_state := cc_state c; cc_tasks := cc_tasks c ++ [method_start m];
         cc_set := cc_set c ++ match m with Method_set_config config => [config] | _ => [] end |}
  | Continues i =>
      match cc_tasks c !! i with
      | Some p => let '(p, s) := method_step p (cc_state c) in
                  {| cc_state := s; cc_tasks := <[i := p]> (cc_tasks c); cc_set := cc_set c |}
      | None => c
      end
  | Commands command => {| cc_state := (ai_command command (cc_state c)).2; cc_tasks := cc_tasks c; cc_set := cc_set c |}
  end.
Definition concurrent_run (events : list StateEvent) : Concurrent := foldl concurrent_step concurrent_start events.

Definition returned (p : Point) : bool := match p with MethodDone _ => true | _ => false end.
(** In the middle of a change of the configuration *)
Definition changing (p : Point) : bool :=
  match p with WriteConfig _ | WriteProvider _ | DrainSessions | WriteDefaultConfig | ClearProvider => true | _ => false end.
(** No change starts while a method is at work, and no method is called during a change. *)
Definition apart (c : Concurrent) (e : StateEvent) : Prop :=
  match e with
  | Calls Method_backend => Forall (λ p, changing p = false) (cc_tasks c)
  | Calls _ => Forall (λ p, returned p = true) (cc_tasks c)
  | _ => True
  end.
Fixpoint all_apart (c : Concurrent) (events : list StateEvent) : Prop :=
  match events with [] => True | e :: events => apart c e ∧ all_apart (concurrent_step c e) events end.

(** A backend of a configuration that is the default one or was set *)
Definition known_backend (set : list AiConfig) (b : Backend) : Prop :=
  ∃ config, (config = AiConfig_default build ∨ ∃ raw, raw ∈ set ∧ config = normalized_config raw) ∧
    build_backend config = Ok (Some b).
Definition known_config (set : list AiConfig) (config : AiConfig) : Prop :=
  config = AiConfig_default build ∨ ∃ raw, raw ∈ set ∧ config = normalized_config raw.
Definition known_point (set : list AiConfig) (p : Point) : Prop :=
  match p with
  | WriteConfig config => known_config set config
  | WriteProvider (Some b) | KeepProvider b | MethodDone (Ok (Some b)) => known_backend set b
  | _ => True
  end.
Definition all_known (c : Concurrent) : Prop :=
  known_config (cc_set c) (as_config (cc_state c)) ∧
  (∀ b, as_provider (cc_state c) = Some b → known_backend (cc_set c) b) ∧
  Forall (known_point (cc_set c)) (cc_tasks c).

Lemma on_session_config {A} id (m : Act SessionRuntime AiError A) s :
  as_config (on_session id m s).2 = as_config s ∧ as_provider (on_session id m s).2 = as_provider s.
Proof. unfold on_session. destruct (get_session id s) as [session|e]; [|done]. by destruct (m session). Qed.
Lemma ai_command_config c s :
  as_config (ai_command c s).2 = as_config s ∧ as_provider (ai_command c s).2 = as_provider s.
Proof.
  destruct c; try done; cbn [ai_command]; try apply on_session_config.
  unfold zoom. by destruct (resolve_pending _ _ _).
Qed.
Lemma known_config_backend set config b : known_config set config → build_backend config = Ok (Some b) → known_backend set b.
Proof. intros Hc Hb. by exists config. Qed.
Lemma known_point_more set raw p : known_point set p → known_point (set ++ raw) p.
Proof.
  assert (Hc : ∀ config, known_config set config → known_config (set ++ raw) config) by (unfold known_config; set_solver).
  assert (Hb : ∀ b, known_backend set b → known_backend (set ++ raw) b) by (intros b (config & Hk & Hb); exists config; set_solver).
  destruct p as [|[]| | | | | | |[[]|]]; simpl; auto.
Qed.
Lemma method_step_known set p s : known_config set (as_config s) → (∀ b, as_provider s = Some b → known_backend set b) →
  known_point set p → let '(p', s') := method_step p s in
  known_config set (as_config s') ∧ (∀ b, as_provider s' = Some b → known_backend set b) ∧ known_point set p'.
Proof.
  intros Hc Hb Hp. destruct p as [config|[b|]| | | | | |b|r]; simpl in *; try done.
  - destruct (build_backend config) as [[b|]|e] eqn:Hbuild; simpl; split_and!; try done. by eapply known_config_backend.
  - split_and!; [done| |done]. by intros ? [= <-].
  - split_and!; [by left|done|done].
  - destruct (as_provider s) as [b|] eqn:Hp'; simpl; rewrite ?Hp'; split_and!; auto.
  - destruct (build_backend (as_config s)) as [[b|]|e] eqn:Hbuild; simpl; split_and!; try done. by eapply known_config_backend.
  - split_and!; [done| |done]. by intros ? [= <-].
Qed.
Lemma concurrent_step_known c e : all_known c → all_known (concurrent_step c e).
Proof.
  intros (Hc & Hb & Ht). destruct e as [m|i|command]; simpl.
  - assert (Hold : Forall (known_point (cc_set c ++ match m with Method_set_config config => [config] | _ => [] end)) (cc_tasks c)).
    { eapply Forall_impl; [exact Ht|]. intros p. apply known_point_more. }
    split_and!; simpl.
    + exact (known_point_more _ _ (WriteConfig _) Hc).
    + intros b Hp. exact (known_point_more _ _ (KeepProvider b) (Hb b Hp)).
    + apply Forall_app. split; [done|]. apply Forall_singleton. destruct m; simpl; try done. right. exists config. set_solver.
  - destruct (cc_tasks c !! i) as [p|] eqn:Hi; [|done].
    pose proof (method_step_known (cc_set c) p (cc_state c) Hc Hb (proj1 (Forall_lookup _ _) Ht i p Hi)) as Hstep.
    destruct (method_step p (cc_state c)) as [p' s']. destruct Hstep as (? & ? & ?). split_and!; [done|done|].
    by apply Forall_insert.
  - destruct (ai_command_config command (cc_state c)) as [Hc' Hp']. split_and!; simpl; rewrite ?Hc', ?Hp'; done.
Qed.

(** A stored backend is the one of the stored configuration. *)
Definition provider_current (s : AiState) : Prop := ∀ b, as_provider s = Some b → build_backend (as_config s) = Ok (Some b).
(** Between changes, and during one *)
Definition at_rest (c : Concurrent) : Prop :=
  provider_current (cc_state c) ∧
  Forall (λ p, changing p = false ∧ ∀ b, p = KeepProvider b → build_backend (as_config (cc_state c)) = Ok (Some b)) (cc_tasks c).
Definition in_change (c : Concurrent) : Prop :=
  ∃ i p, cc_tasks c !! i = Some p ∧ changing p = true ∧
    (∀ j q, cc_tasks c !! j = Some q → j ≠ i → returned q = true) ∧
    match p with
    | WriteProvider b => build_backend (as_config (cc_state c)) = Ok b
    | ClearProvider => True
    | _ => provider_current (cc_state c)
    end.
Lemma returned_at_rest p s : returned p = true →
  changing p = false ∧ ∀ b, p = KeepProvider b → build_backend (as_config s) = Ok (Some b).
Proof. by destruct p. Qed.
Lemma change_over ts i (p : Point) s : returned p = true → (∀ j q, ts !! j = Some q → j ≠ i → returned q = true) →
  Forall (λ p, changing p = false ∧ ∀ b, p = KeepProvider b → build_backend (as_config s) = Ok (Some b)) (<[i := p]> ts).
Proof.
  intros Hp Hothers. apply Forall_lookup. intros j q [(-> & <- & _)|[Hne Hq]]%list_lookup_insert_Some.
  - by apply returned_at_rest.
  - apply returned_at_rest. eapply Hothers; [exact Hq|done].
Qed.
Lemma change_step c i p : in_change c → cc_tasks c !! i = Some p →
  at_rest (concurrent_step c (Continues i)) ∨ in_change (concurrent_step c (Continues i)).
Proof.
  intros (k & q & Hk & Hq & Hothers & Hcur) Hi. simpl. rewrite Hi.
  destruct (decide (i = k)) as [->|Hne].
  2:{ destruct p; try (by specialize (Hothers i _ Hi Hne)). right. exists k, q. simpl.
      rewrite list_insert_id by done. by split_and!. }
  assert (p = q) as -> by congruence. pose proof (lookup_lt_Some _ _ _ Hk) as Hlt.
  assert (Hnext : ∀ p' s', changing p' = true →
    match p' with WriteProvider b => build_backend (as_config s') = Ok b | ClearProvider => True | _ => provider_current s' end →
    in_change {| cc_state := s'; cc_tasks := <[k := p']> (cc_tasks c); cc_set := cc_set c |}).
  { intros p' s' Hp' Hs'. exists k, p'. simpl. rewrite list_lookup_insert_eq by done. split_and!; [done..| |done].
    intros j r Hr Hj. rewrite list_lookup_insert_ne in Hr by done. by eapply Hothers. }
  destruct q as [config|b| | | | | | |]; simpl in *; try done.
  - destruct (build_backend config) as [b|e] eqn:Hb; [right; by apply Hnext|left].
    split; [done|by apply change_over].
  - left. split; [|by apply change_over]. intros b'. simpl. by intros ->.
  - right. by apply Hnext.
  - right. by apply Hnext.
  - left. split; [by intros b'|by apply change_over].
Qed.
Lemma rest_step c i p : at_rest c → cc_tasks c !! i = Some p → at_rest (concurrent_step c (Continues i)).
Proof.
  intros [Hcur Ht] Hi. simpl. rewrite Hi. pose proof (proj1 (Forall_lookup _ _) Ht i p Hi) as [Hp Hkeep].
  assert (Hstay : ∀ p' s', as_config s' = as_config (cc_state c) → provider_current s' → changing p' = false →
    (∀ b, p' = KeepProvider b → build_backend (as_config s') = Ok (Some b)) →
    at_rest {| cc_state := s'; cc_tasks := <[i := p']> (cc_tasks c); cc_set := cc_set c |}).
  { intros p' s' Hs' Hcur' Hc' Hk'. split; [done|]. simpl. apply Forall_insert; [|done]. by rewrite Hs'. }
  destruct p as [| | | | | | |b|]; simpl in *; try done.
  - destruct (as_provider (cc_state c)); by apply Hstay.
  - destruct (build_backend (as_config (cc_state c))) as [[b|]|e] eqn:Hb; apply Hstay; try done. by intros ? [= <-].
  - apply Hstay; [done| |done|done]. intros b' [= <-]. by apply Hkeep.
  - by apply Hstay.
Qed.
Lemma concurrent_step_rest c e : apart c e → at_rest c ∨ in_change c → at_rest (concurrent_step c e) ∨ in_change (concurrent_step c e).
Proof.
  intros Hapart Hc. destruct e as [m|i|command].
  - assert (Hstart : ∀ p, changing p = true → Forall (λ p, returned p = true) (cc_tasks c) →
      (match p with WriteProvider _ | ClearProvider => False | _ => True end) → ∀ set,
      in_change {| cc_state := cc_state c; cc_tasks := cc_tasks c ++ [p]; cc_set := set |}).
    { intros p Hp Hall Hfirst set. exists (length (cc_tasks c)), p. simpl. rewrite list_lookup_middle by done.
      split_and!; [done|done| |].
      - intros j q Hq Hj. apply lookup_snoc_Some in Hq as [[_ Hq]|[-> _]]; [|done]. by apply (proj1 (Forall_lookup _ _) Hall j q).
      - destruct Hc as [[Hcur _]|(k & q & Hk & Hq & _)]; [by destruct p|].
        pose proof (proj1 (Forall_lookup _ _) Hall k q Hk) as Hr. by destruct q. }
    destruct m as [config| |]; simpl in *; [right; by apply Hstart..|].
    destruct Hc as [[Hcur Ht]|(k & q & Hk & Hq & _)].
    + left. split; [done|]. apply Forall_app. split; [done|]. by apply Forall_singleton.
    + pose proof (proj1 (Forall_lookup _ _) Hapart k q Hk) as Hr. simpl in Hr. congruence.
  - destruct (cc_tasks c !! i) as [p|] eqn:Hi; [|simpl; by rewrite Hi].
    destruct Hc as [Hc|Hc]; [left; by eapply rest_step|by eapply change_step].
  - destruct (ai_command_config command (cc_state c)) as [Hcfg Hprov].
    destruct Hc as [[Hcur Ht]|(k & q & Hk & Hq & Ho & Hcur)]; [left|right].
    + split; simpl; [intros b; rewrite Hcfg, Hprov; apply Hcur|by rewrite Hcfg].
    + exists k, q. simpl. split_and!; [done..|]. destruct q; try done; try (intros b'; rewrite Hcfg, Hprov; apply Hcur).
      by rewrite Hcfg.
Qed.

(** C30: the backend that is stored, and every backend that a turn was given, is the one of the
    default configuration or of a configuration that was set, however the calls of
    [set_config], [reset_state] and [backend] and the other commands interleave. If no change
    of the configuration overlaps another call, then whenever no change is at work, the stored
    backend is the one of the stored configuration, and so is what a call of [backend] returns
    by its next step. A change that overlaps a call of [backend] can leave the old backend. *)
Theorem backend_follows_config (events : list StateEvent) : let c := concurrent_run events in
  ((∀ b, as_provider (cc_state c) = Some b → known_backend (cc_set c) b) ∧
   (∀ i b, cc_tasks c !! i = Some (MethodDone (Ok (Some b))) → known_backend (cc_set c) b)) ∧
  (all_apart concurrent_start events → Forall (λ p, changing p = false) (cc_tasks c) →
     (∀ b, as_provider (cc_state c) = Some b → build_backend (as_config (cc_state c)) = Ok (Some b)) ∧
     (∀ i p b, cc_tasks c !! i = Some p → returned p = false → (method_step p (cc_state c)).1 = MethodDone (Ok (Some b)) →
        build_backend (as_config (cc_state c)) = Ok (Some b))).
Proof.
  intros c. split.
  - assert (Hknown : all_known c).
    { unfold c, concurrent_run. induction events as [|e events IH] using rev_ind.
      - split_and!; [by left|done|constructor].
      - rewrite foldl_snoc. by apply concurrent_step_known. }
    destruct Hknown as (_ & Hb & Ht). split; [done|]. intros i b Hi.
    exact (proj1 (Forall_lookup _ _) Ht i _ Hi).
  - intros Hapart Hdone.
    assert (Hrest : at_rest c ∨ in_change c).
    { unfold c, concurrent_run. clear c Hdone.
      assert (Hstart : at_rest concurrent_start ∨ in_change concurrent_start) by (left; split; [done|constructor]).
      revert Hstart Hapart. generalize concurrent_start. induction events as [|e events IH]; intros c0 Hc0; [done|].
      intros [He Hevents]. apply IH; [by apply concurrent_step_rest|done]. }
    destruct Hrest as [[Hcur Ht]|(k & q & Hk & Hq & _)].
    2:{ pose proof (proj1 (Forall_lookup _ _) Hdone k q Hk) as Hq'. simpl in Hq'. congruence. }
    split; [exact Hcur|]. intros i p b Hi Hrun Hret.
    pose proof (proj1 (Forall_lookup _ _) Ht i p Hi) as [Hp Hkeep].
    destruct p as [| | | | | | |b'|]; simpl in *; try done.
    + destruct (as_provider (cc_state c)) as [b'|] eqn:Hb; [|done]. injection Hret as ->. by apply Hcur.
    + destruct (build_backend _) as [[]|]; done.
    + injection Hret as ->. by apply Hkeep.
Qed.

(** C27: an API key for an OpenAI-compatible service is only sent over https: a backend is made
    with the key of the configuration only for an https URL, and without https only for a host
    of this machine or a private network, with a placeholder for the key. *)
Theorem openai_key_is_protected config b : ac_provider config = OpenAi → build_backend config = Ok (Some b) →
  ∃ url host key base, url_parse (trim (default "https://api.openai.com/v1" (ac_openai_base_url config))) = Ok url ∧
    url_host url = Some host ∧ openai_client key base (trim (ac_model config)) = Ok b ∧
    (url_scheme url = "https" ∨
     url_scheme url = "http" ∧ key = "local" ∧
     local_host (to_ascii_lowercase (trim_end_char "." (trim_end_char "]" (trim_start_char "[" host))))).
Proof.
  unfold build_backend. intros -> Hb. destruct (str_is_empty _); [done|]. cbv zeta in Hb.
  set (base_url := default _ _) in *. apply bind_Ok_inv in Hb as (endpoint & Hep & Hb). cbn beta in Hb.
  destruct (_ && _); [done|]. apply bind_Ok_inv in Hb as (b' & Hnew & [= ->]).
  unfold openai_new in Hnew. cbv zeta in Hnew. set (key := normalize_api_key (normalize_api_key _)) in *.
  apply bind_Ok_inv in Hnew as (e & He & Hnew). cbn beta in Hnew. apply bind_Ok_inv in Hnew as (k & Hk & Hnew). cbn beta in Hnew.
  destruct (parse_endpoint_secure _ _ _ He) as (url & host & Hurl & Hhost & _ & _ & _ & _ & _ & Hscheme).
  exists url, host, k, (ep_base e). split_and!; [done..|]. destruct Hscheme as [|(Hhttp & Hkey & Hlocal)]; [by left|]. right.
  split_and!; [done| |done]. apply bool_decide_eq_false in Hkey. destruct key as [key|]; [by destruct Hkey|].
  destruct (ep_requirement e); [done|]. by injection Hk as <-.
Qed.
End backends.
