(* ===== verification/AiTurn.v ===== *)
(** * A turn of the assistant (crates/kuku-ai: session.rs, prompts.rs)

    [run_turn] is an asynchronous task: while it runs, commands of the front end change the
    session and the state, and what it awaits is answered by the provider, the tools, the
    host and the user. A script lists what happens: the commands that are executed and the
    answers, in their order. A turn whose script ends (or does not answer what is awaited) is
    suspended there. Every operation on shared state is one step, and commands can be
    executed before each of them. *)
From Stdlib Require Import Ascii String.
#[local] Set Warnings "-clear-no-such-hyp,-register-all".
From S2P Require Import Prelude Text Indexer AiTypes AiSession AiEndpoint AiState AiHistory.

(** ** Requests, events, scripts *)

Inductive ToolChoice := ChoiceAuto | ChoiceRequired | ChoiceNone.
Record CompletionTurnRequest := {
  cr_model : string;
  cr_system_prompt : option string;
  cr_messages : list ChatMessage;
  cr_tools : list ToolDescriptor;
  cr_tool_choice : ToolChoice;
  cr_authorization_header : option string }.
Inductive CompletionEvent :=
| TextDelta (delta : string)
| EvToolCalls (calls : list ModelToolCall)
| Finished (finish_reason : FinishReason) (usage : option TokenUsage).
Record PendingApproval := {
  pa_call_id : string;
  pa_tool_id : string;
  pa_tool_name : string;
  pa_plan : MutationPlan;
  pa_preview_text : option string }.
(** The events of the front end (TurnEventSink) *)
Inductive TurnEvent :=
| StreamChunk (delta : string)
| Done (finish_reason : FinishReason) (usage : option TokenUsage)
| ErrorEvent (error : AiError)
| ToolStart (tool_call : ModelToolCall) (tool_id : string)
| ToolEnd (tool_call : ModelToolCall) (tool_id output : string) (is_error : bool)
| PendingApprovalEvent (pending : PendingApproval)
| ProxyCall (call_id tool_id tool_name : string) (arguments : Value).
(** What other tasks do to the session of the turn and to the state, one lock at a time: a
    [set_config] writes the configuration and then the backend it has built from it, a
    [reset_state] drains the sessions and writes the defaults, a [backend] of another turn
    writes what it has built from a configuration it has read. A script may have these steps
    in any order. The tools of the host record the files that they read. *)
Inductive Command :=
| Cancel
| ResolveApproval (call_id : string) (approved : bool)
| SubmitProxyToolResult (call_id : string) (result : ProxyToolResult)
| RememberPathSnapshot (path checksum : string) (is_dir : bool)
| ConfigWritten (config : AiConfig)
| ProviderWritten (built_from : option AiConfig)
| SessionsDrained
| RegisterProxyTool (d : ProxyToolDescriptor)
| UnregisterProxyTool (name : string)
| SetHost.
Inductive Answer :=
| AnsHeader (header : Result AiError (option string))
| AnsStream (opened : Result AiError unit)
| AnsItem (item : option (Result AiError CompletionEvent))
| AnsCancelled
| AnsTool (result : Result ToolError NativeToolResult)
| AnsReceived
| AnsTimeout
| AnsApply (result : Result AiError MutationApplyResult).
(** [Proceed] ends the commands before a step. *)
Inductive Entry := During (c : Command) | Proceed | Answered (a : Answer).
(** What is recorded of a run: the events sent, the commands executed, the requests, the
    start of a wait for an approval, and the plans given to the host *)
Inductive LogEntry :=
| LEvent (e : TurnEvent)
| LCommand (c : Command)
| LRequest (r : CompletionTurnRequest)
| LAwaits (call_id : string)
| LApply (plan : MutationPlan).

(** ** prompts.rs *)

Definition mode_instruction (mode : ChatMode) : string :=
  match mode with
  | Ask => "You are Kuku AI in Ask mode. Answer clearly. You may use read-only tools when useful."
  | Agent => "You are Kuku AI in Agent mode. You may read from the vault and, when needed, propose edits through tools."
  | Inline => "You are Kuku AI in Inline mode. Work from the active editor context. You may use read-only tools and may propose edits only with edit_file on the current active file. Never create, delete, move, or rename files in Inline mode. If the selected text is only an excerpt, read the active file before proposing edits and preserve unrelated content."
  end.
Definition build_system_prompt (mode : ChatMode) (tools : list ToolDescriptor) : string :=
  match tools with
  | [] => mode_instruction mode
  | _ =>
      mode_instruction mode +:+ NL +:+ NL +:+ "All tool paths are vault-relative. Use an empty string for the vault root, never '/'."
      +:+ NL +:+ NL +:+ "Available tools:" +:+ NL
      +:+ join NL ((λ tool, "- " +:+ td_name tool +:+ ": " +:+ td_description tool) <$> tools)
  end.

(** ** Texts *)

Definition REMOTE_AUTH_REQUESTER_PLUGIN_ID : string := "ai-chat".
Definition tool_not_allowed_message (tool_name : string) (mode : ChatMode) : string :=
  "Tool '" +:+ tool_name +:+ "' is not available in " +:+ mode_label mode +:+ " mode for this turn.".
Definition fallback_tool_id (tool_name : string) : string :=
  if str_contains "." tool_name then tool_name else "builtin." +:+ tool_name.
Definition describe_apply_result (result : MutationApplyResult) : string :=
  match result with
  | MutationApplied summary [] => "Applied: " +:+ summary
  | MutationApplied summary warnings => "Applied: " +:+ summary +:+ NL +:+ "Warnings: " +:+ join "; " warnings
  | PartiallyApplied summary applied failed skipped warnings =>
      let part label sep l := match l with [] => [] | _ => [label +:+ join sep l] end in
      join NL (["Partially applied: " +:+ summary] ++ part "Applied: " ", " applied ++ part "Failed: " ", " failed
               ++ part "Skipped: " ", " skipped ++ part "Warnings: " "; " warnings)
  | MutationConflict summary conflicts =>
      "Conflict: " +:+ summary +:+ ". " +:+ join ", " ((λ c, ci_path c +:+ " (" +:+ ci_reason c +:+ ")") <$> conflicts)
  end.
Definition is_conflict (result : MutationApplyResult) : bool :=
  match result with MutationConflict _ _ => true | _ => false end.

Section turn.
Context `{UrlCrate} `{Backends} `{ValueText} `{Blake3} (build : Build) {T : Type} (descriptor : T → ToolDescriptor).

(** ** Steps *)

Record World := {
  w_session : SessionRuntime;
  w_state : AiState (T := T);
  w_log : list LogEntry;
  w_script : list Entry }.
Definition with_session (s : SessionRuntime) (w : World) : World :=
  {| w_session := s; w_state := w_state w; w_log := w_log w; w_script := w_script w |}.
Definition with_state (s : AiState (T := T)) (w : World) : World :=
  {| w_session := w_session w; w_state := s; w_log := w_log w; w_script := w_script w |}.
Definition logged (e : LogEntry) (w : World) : World :=
  {| w_session := w_session w; w_state := w_state w; w_log := w_log w ++ [e]; w_script := w_script w |}.
Definition with_script (l : list Entry) (w : World) : World :=
  {| w_session := w_session w; w_state := w_state w; w_log := w_log w; w_script := l |}.
Definition command_session (c : Command) (s : SessionRuntime) : SessionRuntime :=
  match c with
  | Cancel | SessionsDrained => cancel_session s
  | ResolveApproval call_id approved => (resolve_approval call_id approved s).2
  | RememberPathSnapshot path checksum is_dir => remember_path_snapshot path checksum is_dir s
  | _ => s
  end.
Definition command_state (c : Command) (s : AiState (T := T)) : AiState (T := T) :=
  match c with
  | SubmitProxyToolResult call_id result => with_broker (resolve_pending call_id result (as_broker s)).2 s
  | ConfigWritten config => with_config config s
  | ProviderWritten (Some config) =>
      match build_backend build config with Ok backend => with_provider backend s | Err _ => s end
  | ProviderWritten None => with_provider None s
  | SessionsDrained => with_sessions ∅ s
  | RegisterProxyTool d => with_tools (register_proxy d (as_tools s)) s
  | UnregisterProxyTool name => with_tools (unregister_proxy name (as_tools s)) s
  | SetHost => set_host s
  | _ => s
  end.
Definition execute (c : Command) (w : World) : World :=
  logged (LCommand c) (with_session (command_session c (w_session w)) (with_state (command_state c (w_state w)) w)).

Inductive Outcome (A : Type) := Returned (r : Result AiError A) (w : World) | Suspended (w : World).
#[global] Arguments Returned {A}.
#[global] Arguments Suspended {A}.
Definition Task (A : Type) : Type := World → Outcome A.
#[export] Instance task_ret : MRet Task := λ A a w, Returned (Ok a) w.
#[export] Instance task_bind : MBind Task := λ A B f m w,
  match m w with
  | Returned (Ok a) w => f a w
  | Returned (Err e) w => Returned (Err e) w
  | Suspended w => Suspended w
  end.
Definition fail {A} (e : AiError) : Task A := λ w, Returned (Err e) w.
Definition task_lift {A} (r : Result AiError A) : Task A := λ w, Returned r w.
(** The outcome as a value, for a caller that looks at the error *)
Definition catch {A} (m : Task A) : Task (Result AiError A) := λ w,
  match m w with Returned r w => Returned (Ok r) w | Suspended w => Suspended w end.
Fixpoint commands_before (script : list Entry) (w : World) : World :=
  match script with
  | During c :: script => commands_before script (execute c w)
  | Proceed :: script => with_script script w
  | _ => with_script script w
  end.
(** One step on the shared state *)
Definition step {A} (f : World → Result AiError A * World) : Task A := λ w,
  let '(r, w) := f (commands_before (w_script w) w) in Returned r w.
Definition update (f : World → World) : Task unit := step (λ w, (Ok tt, f w)).
Definition on_runtime (f : SessionRuntime → SessionRuntime) : Task unit := update (λ w, with_session (f (w_session w)) w).
Definition read {A} (f : World → A) : Task A := step (λ w, (Ok (f w), w)).
Definition emit (e : TurnEvent) : Task unit := update (logged (LEvent e)).
(** Waiting for one of the answers that [accept] takes *)
Fixpoint wait {A} (accept : Answer → World → option (Result AiError A * World)) (script : list Entry) (w : World) : Outcome A :=
  match script with
  | [] => Suspended (with_script [] w)
  | During c :: script => wait accept script (execute c w)
  | Proceed :: script => wait accept script w
  | Answered a :: rest =>
      match accept a w with
      | Some (r, w) => Returned r (with_script rest w)
      | None => Suspended (with_script script w)
      end
  end.
Definition await {A} (accept : Answer → World → option (Result AiError A * World)) : Task A := λ w, wait accept (w_script w) w.

(** ** Changes that wait for the user (gate_and_apply) *)

(** [select! { _ = cancel.cancelled() => …, decision = approval_rx => … }]: nothing when it was
    cancelled; the receiver is gone afterwards *)
Definition await_decision (cancel rx : nat) : Task (option ApprovalDecision) :=
  await (λ a w,
    let done := with_session (drop_receiver rx (w_session w)) w in
    match a with
    | AnsCancelled => if is_cancelled cancel (w_session w) then Some (Ok None, done) else None
    | AnsReceived =>
        match try_receive rx (w_session w) with
        | Decided d => Some (Ok (Some d), done)
        | SenderDropped => Some (Err ApprovalNotFound, done)
        | NothingYet => None
        end
    | _ => None
    end).
Definition begin_step (call_id : string) : Task nat :=
  step (λ w, let '(rx, s) := begin_awaiting_approval call_id (w_session w) in (Ok rx, logged (LAwaits call_id) (with_session s w))).
Definition apply_mutation (plan : MutationPlan) : Task MutationApplyResult :=
  update (logged (LApply plan));;
  await (λ a w, match a with AnsApply r => Some (r, w) | _ => None end).
Definition after_apply (operations : list MutationOp) (result : MutationApplyResult) : Task unit :=
  match result with
  | MutationApplied _ _ => on_runtime (apply_successful_mutation operations)
  | PartiallyApplied _ _ _ _ _ => on_runtime (clear_mutation_snapshots operations)
  | MutationConflict _ _ => mret tt
  end.
(** What runs after the guard [RestoreStreaming] is made *)
Definition gated (cancel rx : nat) (pending : PendingApproval) : Task (string * bool) :=
  emit (PendingApprovalEvent pending);;
  decision ← await_decision cancel rx;
  match decision with
  | None => on_runtime (clear_approval (pa_call_id pending));; fail Cancelled
  | Some Reject => mret ("Rejected by user", true)
  | Some Approve =>
      host ← read (λ w, as_host (w_state w));
      if negb host then fail HostUnavailable
      else
        on_runtime (set_status Applying);;
        apply_result ← apply_mutation (pa_plan pending);
        after_apply (mp_operations (pa_plan pending)) apply_result;;
        cancelled ← read (λ w, is_cancelled cancel (w_session w));
        if cancelled : bool then fail Cancelled
        else mret (describe_apply_result apply_result, is_conflict apply_result)
  end.
(** The guard is dropped on every exit. *)
Definition gate_and_apply (cancel : nat) (pending : PendingApproval) : Task (string * bool) :=
  rx ← begin_step (pa_call_id pending);
  result ← catch (gated cancel rx pending);
  on_runtime (set_status Streaming);;
  task_lift result.

(** ** Tools *)

Definition filter_mutation (d : ToolDescriptor) (m : option MutationPlan) : option MutationPlan :=
  if bool_decide (td_access d = ReadOnly) then None else m.
(** [app] is there in every turn that a command starts; the tool runs on the host. *)
Definition execute_native_tool (cancel : nat) (tool_call : ModelToolCall) (d : ToolDescriptor) : Task (string * bool) :=
  tool ← read (λ w, get_native (as_tools (w_state w)) (tc_tool_name tool_call));
  match tool with
  | None => fail (AiToolNotFound (tc_tool_name tool_call))
  | Some _ =>
      result ← await (λ a w, match a with AnsTool r => Some (Ok r, w) | _ => None end);
      match result with
      | Err error => mret (tool_error_text error, true)
      | Ok native_result =>
          match filter_mutation d (nr_mutation native_result) with
          | None => mret (nr_text native_result, false)
          | Some mutation =>
              gate_and_apply cancel
                {| pa_call_id := tc_call_id tool_call; pa_tool_id := td_tool_id d; pa_tool_name := tc_tool_name tool_call;
                   pa_plan := mutation; pa_preview_text := nr_preview_text native_result |}
          end
      end
  end.
(** What the wait for a proxy tool ends with *)
Inductive ProxyWait := ProxyAnswered (r : ProxyToolResult) | ResponderDropped | ProxyTimedOut | ProxyCancelled.
Definition await_proxy (cancel rx : nat) : Task ProxyWait :=
  await (λ a w,
    let broker := as_broker (w_state w) in
    let done r := Some (Ok r, with_state (with_broker (drop_pending_receiver rx broker) (w_state w)) w) in
    match a with
    | AnsCancelled => if is_cancelled cancel (w_session w) then done ProxyCancelled else None
    | AnsReceived =>
        match pb_results broker !! rx with
        | Some r => done (ProxyAnswered r)
        | None => if pending_is_open rx broker then None else done ResponderDropped
        end
    | AnsTimeout =>
        match pb_results broker !! rx with
        | Some _ => None
        | None => if pending_is_open rx broker then done ProxyTimedOut else None
        end
    | _ => None
    end).
Definition clear_proxy_call (call_id : string) : Task unit :=
  update (λ w, with_state (with_broker (clear_pending call_id (as_broker (w_state w))) (w_state w)) w).
Definition execute_proxy_tool (cancel : nat) (tool_call : ModelToolCall) (tool_id : string) : Task (string * bool) :=
  proxy ← read (λ w, get_proxy (as_tools (w_state w)) (tc_tool_name tool_call));
  match proxy with
  | None => mret ("Proxy tool " +:+ tc_tool_name tool_call +:+ " is not registered", true)
  | Some _ =>
      receiver ← step (λ w, let '(rx, b) := register_pending (tc_call_id tool_call) (as_broker (w_state w)) in
                            (Ok rx, with_state (with_broker b (w_state w)) w));
      emit (ProxyCall (tc_call_id tool_call) tool_id (tc_tool_name tool_call) (tc_arguments tool_call));;
      response ← await_proxy cancel receiver;
      match response with
      | ProxyCancelled => clear_proxy_call (tc_call_id tool_call);; fail Cancelled
      | ProxyTimedOut => clear_proxy_call (tc_call_id tool_call);; fail (ProxyTimeout (tc_tool_name tool_call))
      | ProxyAnswered output => mret (pr_output output, pr_is_error output)
      | ResponderDropped => mret ("Proxy tool responder dropped", true)
      end
  end.
(** The outcome of a tool: only a cancellation is an error of the turn. *)
Definition tool_outcome (r : Result AiError (string * bool)) : Task (string * bool) :=
  match r with
  | Ok outcome => mret outcome
  | Err Cancelled => fail Cancelled
  | Err error => mret (ai_error_text error, true)
  end.
Definition find_tool (allowed : list ToolDescriptor) (name : string) : option ToolDescriptor :=
  List.find (λ tool, bool_decide (td_name tool = name)) allowed.
Definition run_tool (cancel : nat) (mode : ChatMode) (d : option ToolDescriptor) (tool_id : string) (tool_call : ModelToolCall) :
  Task (string * bool) :=
  match d with
  | None => mret (tool_not_allowed_message (tc_tool_name tool_call) mode, true)
  | Some d =>
      match td_source d with
      | Native => r ← catch (execute_native_tool cancel tool_call d); tool_outcome r
      | Proxy => r ← catch (execute_proxy_tool cancel tool_call tool_id); tool_outcome r
      end
  end.
Definition handle_tool_call (cancel : nat) (mode : ChatMode) (allowed : list ToolDescriptor) (tool_call : ModelToolCall) :
  Task (string * bool) :=
  let d := find_tool allowed (tc_tool_name tool_call) in
  let tool_id := default (fallback_tool_id (tc_tool_name tool_call)) (td_tool_id <$> d) in
  emit (ToolStart tool_call tool_id);;
  outcome ← run_tool cancel mode d tool_id tool_call;
  emit (ToolEnd tool_call tool_id outcome.1 outcome.2);;
  mret outcome.

(** ** A turn (run_turn_inner) *)

Definition authorization (call : Task (option string)) : Task string :=
  host ← read (λ w, as_host (w_state w));
  if negb host then fail HostUnavailable
  else
    header ← call;
    match header with Some h => mret h | None => fail NotConfigured end.
Definition host_header : Task (option string) := await (λ a w, match a with AnsHeader r => Some (r, w) | _ => None end).
Definition stream_turn (request : CompletionTurnRequest) : Task unit :=
  update (logged (LRequest request));;
  await (λ a w, match a with AnsStream r => Some (r, w) | _ => None end).
Definition is_remote (config : AiConfig) : bool := match ac_provider config with RemoteProvider => true | _ => false end.
Definition with_header (header : string) (r : CompletionTurnRequest) : CompletionTurnRequest :=
  {| cr_model := cr_model r; cr_system_prompt := cr_system_prompt r; cr_messages := cr_messages r; cr_tools := cr_tools r;
     cr_tool_choice := cr_tool_choice r; cr_authorization_header := Some header |}.
(** The stream of a round is opened, a second time after a refused authorization *)
Definition open_stream (config : AiConfig) (request : CompletionTurnRequest) : Task unit :=
  opened ← catch (stream_turn request);
  match opened with
  | Ok _ => mret tt
  | Err Unauthorized =>
      if is_remote config then
        refreshed_header ← authorization host_header;
        stream_turn (with_header refreshed_header request)
      else fail Unauthorized
  | Err error => fail error
  end.
(** What a round has received *)
Record RoundReceived := {
  rd_text : string;
  rd_tool_calls : list ModelToolCall;
  rd_reason : FinishReason;
  rd_usage : option TokenUsage }.
Definition nothing_received : RoundReceived := {| rd_text := EmptyString; rd_tool_calls := []; rd_reason := Stop; rd_usage := None |}.
Definition receive_event (e : CompletionEvent) (r : RoundReceived) : RoundReceived :=
  match e with
  | TextDelta delta =>
      {| rd_text := rd_text r +:+ delta; rd_tool_calls := rd_tool_calls r; rd_reason := rd_reason r; rd_usage := rd_usage r |}
  | EvToolCalls calls =>
      {| rd_text := rd_text r; rd_tool_calls := rd_tool_calls r ++ calls; rd_reason := rd_reason r; rd_usage := rd_usage r |}
  | Finished reason usage =>
      {| rd_text := rd_text r; rd_tool_calls := rd_tool_calls r; rd_reason := reason; rd_usage := usage |}
  end.
Definition announce_event (e : CompletionEvent) (w : World) : World :=
  match e with TextDelta delta => logged (LEvent (StreamChunk delta)) w | _ => w end.
(** [loop { select! { _ = cancel.cancelled() => …, item = stream.next() => … } }] *)
Fixpoint read_stream (cancel : nat) (r : RoundReceived) (script : list Entry) (w : World) : Outcome RoundReceived :=
  match script with
  | [] => Suspended (with_script [] w)
  | During c :: script => read_stream cancel r script (execute c w)
  | Proceed :: script => read_stream cancel r script w
  | Answered AnsCancelled :: rest =>
      if is_cancelled cancel (w_session w) then Returned (Err Cancelled) (with_script rest w)
      else Suspended (with_script script w)
  | Answered (AnsItem None) :: rest => Returned (Ok r) (with_script rest w)
  | Answered (AnsItem (Some (Err error))) :: rest => Returned (Err error) (with_script rest w)
  | Answered (AnsItem (Some (Ok e))) :: rest => read_stream cancel (receive_event e r) rest (announce_event e w)
  | Answered _ :: _ => Suspended (with_script script w)
  end.
Definition receive_round (cancel : nat) : Task RoundReceived := λ w, read_stream cancel nothing_received (w_script w) w.
Definition tool_result_message (tool_call : ModelToolCall) (outcome : string * bool) : ChatMessage :=
  MToolResult (tc_call_id tool_call) (tc_tool_name tool_call) outcome.1 outcome.2 (tc_tool_call_id tool_call)
    (tc_provider_call_id tool_call).
Fixpoint call_tools (cancel : nat) (mode : ChatMode) (allowed : list ToolDescriptor) (tool_calls : list ModelToolCall) : Task unit :=
  match tool_calls with
  | [] => mret tt
  | tool_call :: tool_calls =>
      result ← handle_tool_call cancel mode allowed tool_call;
      on_runtime (push_message (tool_result_message tool_call result));;
      call_tools cancel mode allowed tool_calls
  end.
Definition round_request (mode : ChatMode) (config : AiConfig) (allowed : list ToolDescriptor) (messages : list ChatMessage)
  (header : option string) : CompletionTurnRequest :=
  {| cr_model := ac_model config; cr_system_prompt := Some (build_system_prompt mode allowed); cr_messages := messages;
     cr_tools := allowed; cr_tool_choice := ChoiceAuto; cr_authorization_header := header |}.
Definition push_reply (r : RoundReceived) : Task unit :=
  if str_is_empty (rd_text r) && bool_decide (length (rd_tool_calls r) = 0) then mret tt
  else on_runtime (push_message (MAssistant (rd_text r) (rd_tool_calls r))).
(** One round up to the reply of the model *)
Definition ask_model (cancel : nat) (mode : ChatMode) (config : AiConfig) (allowed : list ToolDescriptor) : Task RoundReceived :=
  messages ← read (λ w, compact_history_for_model (sn_messages (w_session w)));
  header ← (if is_remote config then header ← authorization host_header; mret (Some header) else mret None);
  open_stream config (round_request mode config allowed messages header);;
  r ← receive_round cancel;
  push_reply r;;
  mret r.
Fixpoint rounds (limit cancel : nat) (mode : ChatMode) (config : AiConfig) (allowed : list ToolDescriptor)
  (usage : option TokenUsage) : Task (FinishReason * option TokenUsage) :=
  match limit with
  | 0 => mret (ToolRoundLimit, usage)
  | S limit =>
      r ← ask_model cancel mode config allowed;
      match rd_tool_calls r with
      | [] => mret (rd_reason r, rd_usage r)
      | tool_calls =>
          call_tools cancel mode allowed tool_calls;;
          rounds limit cancel mode config allowed (rd_usage r)
      end
  end.
(** [AiState::backend], step by step *)
Definition state_backend : Task Backend :=
  provider ← read (λ w, as_provider (w_state w));
  match provider with
  | Some provider => mret provider
  | None =>
      config ← read (λ w, as_config (w_state w));
      provider ← task_lift (built ← build_backend build config; ok_or built NotConfigured);
      update (λ w, with_state (with_provider (Some provider) (w_state w)) w);;
      mret provider
  end.
Definition run_turn_inner (mode : ChatMode) (content : string) (editor_context : EditorContext) :
  Task (FinishReason * option TokenUsage) :=
  cancel ← step (λ w, let '(r, s) := start_run (w_session w) in (r, with_session s w));
  previous_mode ← step (λ w, (Ok (sn_mode (w_session w)), with_session (with_mode mode (w_session w)) w));
  on_runtime (remember_embedded_file_snapshots editor_context);;
  let content := content_with_turn_context previous_mode mode content editor_context in
  on_runtime (with_editor_context editor_context);;
  on_runtime (push_message (MUser content (Some editor_context)));;
  _ ← state_backend;
  config ← read (λ w, as_config (w_state w));
  descriptors ← read (λ w, tool_descriptors descriptor (w_state w));
  rounds (ac_round_limit config) cancel mode config (allowed_tools mode descriptors) None.
(** The end of a run: the session is idle, and the front end is told once *)
Definition announce_result (result : Result AiError (FinishReason * option TokenUsage)) (deferred_cancel : bool) : Task unit :=
  match result with
  | Ok (finish_reason, usage) => emit (Done (if deferred_cancel then FinishCancelled else finish_reason) usage)
  | Err error =>
      emit (ErrorEvent error);;
      emit (Done (if bool_decide (error = Cancelled) || deferred_cancel then FinishCancelled else FinishError) None)
  end.
Definition finalize_run (result : Result AiError (FinishReason * option TokenUsage)) : Task unit :=
  deferred_cancel ← step (λ w, let '(d, s) := complete_run (w_session w) in (Ok d, with_session s w));
  announce_result result deferred_cancel.
Definition run_turn (mode : ChatMode) (content : string) (editor_context : EditorContext) : Task unit :=
  result ← catch (run_turn_inner mode content editor_context);
  finalize_run result.
End turn.
