(* ===== verification/AiApproval.v ===== *)
(** * Changes are made only after the user approved them

    Rules for what every outcome of a task satisfies, and the history of a turn: each plan
    that is given to the host was shown to the user, who then approved it. *)
From Stdlib Require Import Ascii String.
#[local] Set Warnings "-clear-no-such-hyp,-register-all".
From S2P Require Import Prelude Text Indexer AiTypes AiSession AiEndpoint AiState AiHistory AiTurn.

(** ** The history of a turn *)

(** The first decision on a call *)
Fixpoint first_decision (call_id : string) (l : list LogEntry) : option bool :=
  match l with
  | [] => None
  | LCommand (ResolveApproval c approved) :: l => if bool_decide (c = call_id) then Some approved else first_decision call_id l
  | _ :: l => first_decision call_id l
  end.
Definition opens_or_applies (e : LogEntry) : bool := match e with LAwaits _ | LApply _ => true | _ => false end.
Definition quiet (l : list LogEntry) : Prop := Forall (λ e, opens_or_applies e = false) l.
(** The tool that proposed the change may change files, and is one of the mode. *)
Definition proposed_by_tool (mode : ChatMode) (p : PendingApproval) : Prop :=
  ∃ d, mode_allows mode d = true ∧ td_access d = ProposesMutation ∧ td_name d = pa_tool_name p ∧ td_tool_id d = pa_tool_id p.
(** Since the wait for the call began, nothing else was applied or waited for, the plan was
    shown, and the first decision was an approval. *)
Definition approved_plan (mode : ChatMode) (before : list LogEntry) (plan : MutationPlan) : Prop :=
  ∃ earlier p since, before = earlier ++ LAwaits (pa_call_id p) :: since ∧ quiet since ∧
    LEvent (PendingApprovalEvent p) ∈ since ∧ pa_plan p = plan ∧ first_decision (pa_call_id p) since = Some true ∧
    proposed_by_tool mode p.
Definition changes_approved (mode : ChatMode) (log : list LogEntry) : Prop :=
  ∀ before plan after, log = before ++ LApply plan :: after → approved_plan mode before plan.

Lemma first_decision_app call_id l k : first_decision call_id (l ++ k) =
  match first_decision call_id l with Some b => Some b | None => first_decision call_id k end.
Proof. induction l as [|e l IH]; [done|]. cbn. destruct e as [| [| | | | | | | | |]| | |]; try done. by case_bool_decide. Qed.
Lemma changes_approved_nil mode : changes_approved mode [].
Proof. by intros [|] ? ?. Qed.
Lemma changes_approved_snoc mode log e : changes_approved mode log →
  (∀ plan, e = LApply plan → approved_plan mode log plan) → changes_approved mode (log ++ [e]).
Proof.
  intros Hlog He before plan after Heq. destruct after as [|a after _] using rev_ind.
  - apply app_inj_tail in Heq as [-> ->]. by apply He.
  - rewrite app_comm_cons, app_assoc in Heq. apply app_inj_tail in Heq as [-> _]. by eapply Hlog.
Qed.
Lemma changes_approved_other mode log e : changes_approved mode log → opens_or_applies e = false ∨ (∃ c, e = LAwaits c) →
  changes_approved mode (log ++ [e]).
Proof. intros Hlog He. apply changes_approved_snoc; [done|]. intros plan ->. destruct He as [?|[? ?]]; done. Qed.
Lemma changes_approved_ask log : changes_approved Ask log → ∀ plan, LApply plan ∉ log.
Proof.
  intros Hlog plan (before & after & Heq)%list_elem_of_split. apply Hlog in Heq as (? & ? & ? & _ & _ & _ & _ & _ & d & Hd & Ha & _).
  cbn in Hd. apply bool_decide_eq_true in Hd. congruence.
Qed.

(** ** The channels of a session *)

Definition session_wf (s : SessionRuntime) : Prop :=
  (∀ call_id rx, sn_approvals s !! call_id = Some rx → rx < sn_next s) ∧
  (∀ rx d, sn_decisions s !! rx = Some d → rx < sn_next s).
Lemma session_wf_new id mode : session_wf (SessionRuntime_new id mode).
Proof. split; intros ? ? H; cbn in H; by rewrite lookup_empty in H. Qed.
Definition same_channels (s s' : SessionRuntime) : Prop :=
  sn_approvals s' = sn_approvals s ∧ sn_next s' = sn_next s ∧ sn_decisions s' = sn_decisions s ∧ sn_receivers s' = sn_receivers s.
Lemma session_wf_same s s' : same_channels s s' → session_wf s → session_wf s'.
Proof. intros (Ha & Hn & Hd & _) [H1 H2]. unfold session_wf. by rewrite Ha, Hn, Hd. Qed.
Lemma cancel_session_channels s : same_channels s (cancel_session s).
Proof. unfold cancel_session. repeat case_match; done. Qed.
Lemma clear_approval_wf call_id s : session_wf s → session_wf (clear_approval call_id s).
Proof. intros [H1 H2]. split; cbn; [|done]. intros c rx. rewrite lookup_delete_Some. intros [_ Hc]. eauto. Qed.
Lemma drop_receiver_wf rx s : session_wf s → session_wf (drop_receiver rx s).
Proof. done. Qed.
Lemma resolve_approval_wf call_id approved s : session_wf s → session_wf (resolve_approval call_id approved s).2.
Proof.
  intros Hwf. unfold resolve_approval. destruct (sn_approvals s !! call_id) as [sender|] eqn:Hs; [|done].
  case_bool_decide; [|by apply clear_approval_wf]. pose proof (clear_approval_wf call_id s Hwf) as [H1 H2].
  split; cbn; [done|]. intros rx d. rewrite lookup_insert_Some. intros [[<- _]|[_ Hd]]; [|eauto].
  by apply (proj1 Hwf _ _ Hs).
Qed.
Lemma command_session_wf c s : session_wf s → session_wf (command_session c s).
Proof.
  intros Hwf. destruct c; try done; cbn.
  - eapply session_wf_same, Hwf. apply cancel_session_channels.
  - by apply resolve_approval_wf.
  - eapply session_wf_same, Hwf. apply cancel_session_channels.
Qed.
Lemma start_run_wf s : session_wf s → session_wf (start_run s).2.
Proof.
  intros Hwf. unfold start_run. destruct (negb _); [done|]. destruct Hwf as [H1 H2]. split; cbn; intros ? ? Hx.
  - apply H1 in Hx. lia.
  - apply H2 in Hx. lia.
Qed.
Lemma begin_awaiting_approval_wf call_id s : session_wf s → session_wf (begin_awaiting_approval call_id s).2.
Proof.
  intros [H1 H2]. split; cbn; intros ? ?; [rewrite lookup_insert_Some|]; intros Hx.
  - destruct Hx as [[_ <-]|[_ Hx%H1]]; lia.
  - apply H2 in Hx. lia.
Qed.

Section approval.
Context `{UrlCrate} `{Backends} `{ValueText} `{Blake3} (build : Build) {T : Type} (descriptor : T → ToolDescriptor).
#[local] Abbreviation World := (World (T := T)).
#[local] Abbreviation Task A := (Task (T := T) A).

(** ** Rules *)

(** A property of worlds that commands keep and that does not look at the script *)
Record Stable (P : World → Prop) : Prop := {
  stable_execute c w : P w → P (execute build c w);
  stable_script l w : P w → P (with_script l w) }.
(** From a world of [P], the task returns in a world of [Q] or is suspended in one of [S]. *)
Definition task_post {A} (P : World → Prop) (m : Task A) (Q : Result AiError A → World → Prop) (S : World → Prop) : Prop :=
  ∀ w, P w → match m w with Returned r w' => Q r w' | Suspended w' => S w' end.
(** It keeps [P]. *)
Definition keeps {A} (P : World → Prop) (m : Task A) : Prop := task_post P m (λ _, P) P.

Lemma stable_commands P script w : Stable P → P w → P (commands_before build script w).
Proof.
  intros HP. revert w. induction script as [|e script IH]; intros w Hw; cbn; [by apply HP|].
  destruct e; [apply IH|..]; by apply HP.
Qed.
Lemma post_ret {A} P (a : A) (Q : Result AiError A → World → Prop) S : (∀ w, P w → Q (Ok a) w) → task_post P (mret a) Q S.
Proof. intros HQ w Hw. exact (HQ w Hw). Qed.
Lemma post_fail {A} P e (Q : Result AiError A → World → Prop) S : (∀ w, P w → Q (Err e) w) → task_post P (fail e) Q S.
Proof. intros HQ w Hw. exact (HQ w Hw). Qed.
Lemma post_bind {A B} P (m : Task A) (f : A → Task B) R (Q : Result AiError B → World → Prop) S :
  task_post P m R S → (∀ a, task_post (R (Ok a)) (f a) Q S) → (∀ e w, R (Err e) w → Q (Err e) w) →
  task_post P (x ← m; f x) Q S.
Proof.
  intros Hm Hf He w Hw. specialize (Hm w Hw). unfold mbind, task_bind. destruct (m w) as [[a|e] w'|w']; [|by apply He|done].
  by apply Hf.
Qed.
Lemma post_catch {A} P (m : Task A) (Q : Result AiError (Result AiError A) → World → Prop) S :
  task_post P m (λ r, Q (Ok r)) S → task_post P (catch m) Q S.
Proof. intros Hm w Hw. specialize (Hm w Hw). unfold catch. by destruct (m w). Qed.
Lemma post_mono {A} (P P' : World → Prop) (m : Task A) (Q Q' : Result AiError A → World → Prop) (S S' : World → Prop) :
  task_post P m Q S → (∀ w, P' w → P w) → (∀ r w, Q r w → Q' r w) → (∀ w, S w → S' w) → task_post P' m Q' S'.
Proof. intros Hm HP HQ HS w Hw. specialize (Hm w (HP w Hw)). destruct (m w); auto. Qed.
Lemma post_step {A} P (f : World → Result AiError A * World) (Q : Result AiError A → World → Prop) S :
  Stable P → (∀ w, P w → Q (f w).1 (f w).2) → task_post P (step build f) Q S.
Proof.
  intros HP Hf w Hw. unfold step. pose proof (Hf _ (stable_commands P (w_script w) w HP Hw)) as HQ.
  by destruct (f _).
Qed.
Lemma post_read {A} P (f : World → A) (Q : Result AiError A → World → Prop) S :
  Stable P → (∀ w, P w → Q (Ok (f w)) w) → task_post P (read build f) Q S.
Proof. intros HP HQ. by apply post_step. Qed.
Lemma post_update P f (Q : Result AiError unit → World → Prop) S :
  Stable P → (∀ w, P w → Q (Ok tt) (f w)) → task_post P (update build f) Q S.
Proof. intros HP HQ. by apply post_step. Qed.
Lemma post_await {A} P (accept : Answer → World → option (Result AiError A * World)) (Q : Result AiError A → World → Prop) :
  Stable P → (∀ a w r w' l, P w → accept a w = Some (r, w') → Q r (with_script l w')) →
  task_post P (await build accept) Q P.
Proof.
  intros HP HQ w Hw. unfold await. generalize (w_script w). intros script. revert w Hw.
  induction script as [|[c| |a] script IH]; intros w Hw; cbn [wait].
  - by apply HP.
  - apply IH. by apply HP.
  - by apply IH.
  - destruct (accept a w) as [[r w']|] eqn:Ha; [|by apply HP]. by eapply HQ.
Qed.
Lemma post_read_stream P (Q : Result AiError RoundReceived → World → Prop) cancel r :
  Stable P → (∀ e w, P w → P (announce_event e w)) →
  (∀ w r, P w → Q (Ok r) w) → (∀ w e, P w → Q (Err e) w) →
  task_post P (λ w, read_stream build cancel r (w_script w) w) Q P.
Proof.
  intros HP Hann HOk HErr w Hw. generalize (w_script w). intros script. revert w Hw r.
  induction script as [|[c| |a] script IH]; intros w Hw r'; cbn [read_stream]; [by apply HP| | |].
  - apply IH. by apply HP.
  - by apply IH.
  - destruct a as [| |[[e|]|]| | | | |]; try by apply HP.
    + apply IH. by apply Hann.
    + apply HErr. by apply HP.
    + apply HOk. by apply HP.
    + destruct (is_cancelled _ _); [apply HErr|]; by apply HP.
Qed.
Lemma keeps_bind {A B} P (m : Task A) (f : A → Task B) : keeps P m → (∀ a, keeps P (f a)) → keeps P (x ← m; f x).
Proof. intros Hm Hf. eapply post_bind; [exact Hm|exact Hf|done]. Qed.
Lemma keeps_ret {A} P (a : A) : keeps P (mret a).
Proof. by apply post_ret. Qed.
Lemma keeps_fail {A} P e : keeps (A := A) P (fail e).
Proof. by apply post_fail. Qed.
Lemma keeps_catch {A} P (m : Task A) : keeps P m → keeps P (catch m).
Proof. intros Hm. by apply post_catch. Qed.
Lemma keeps_lift {A} P (r : Result AiError A) : keeps P (task_lift r).
Proof. by intros w Hw. Qed.
Lemma keeps_step {A} P (f : World → Result AiError A * World) : Stable P → (∀ w, P w → P (f w).2) → keeps P (step build f).
Proof. intros HP Hf. by apply post_step. Qed.
Lemma keeps_read {A} P (f : World → A) : Stable P → keeps P (read build f).
Proof. intros HP. by apply post_read. Qed.
Lemma keeps_update P f : Stable P → (∀ w, P w → P (f w)) → keeps P (update build f).
Proof. intros HP Hf. by apply post_update. Qed.
Lemma keeps_await {A} P (accept : Answer → World → option (Result AiError A * World)) :
  Stable P → (∀ a w r w', P w → accept a w = Some (r, w') → P w') → keeps P (await build accept).
Proof. intros HP Ha. apply post_await; [done|]. intros a w r w' l Hw Hacc. apply HP. by eapply Ha. Qed.

(** ** Waiting for a decision *)

Definition decision_of (approved : bool) : ApprovalDecision := if approved then Approve else Reject.
(** The channel of a call, [since] being what happened after it was registered *)
Definition channel_ok (rx : nat) (call_id : string) (since : list LogEntry) (s : SessionRuntime) : Prop :=
  rx ∈ sn_receivers s ∧ (∀ c, sn_approvals s !! c = Some rx → c = call_id) ∧
  match first_decision call_id since with
  | None => sn_approvals s !! call_id = Some rx ∧ sn_decisions s !! rx = None
  | Some b => sn_decisions s !! rx = Some (decision_of b) ∧ ∀ c, sn_approvals s !! c ≠ Some rx
  end.
Lemma channel_ok_same rx call_id since e s s' : same_channels s s' → first_decision call_id [e] = None →
  channel_ok rx call_id since s → channel_ok rx call_id (since ++ [e]) s'.
Proof.
  intros (Ha & Hn & Hd & Hr) He (H3 & H4 & H5). unfold channel_ok. rewrite Ha, Hd, Hr, first_decision_app.
  split_and!; [done..|]. destruct (first_decision call_id since); [done|]. by rewrite He.
Qed.
Lemma channel_ok_command rx call_id since c s : channel_ok rx call_id since s →
  channel_ok rx call_id (since ++ [LCommand c]) (command_session c s).
Proof.
  intros Hok. destruct c as [|c approved| | | | | | | |];
    try (apply (channel_ok_same _ _ _ _ s); [first [apply cancel_session_channels|done]|done|done]).
  cbn [command_session]. destruct Hok as (Hr & Huniq & Hdec). unfold channel_ok. rewrite first_decision_app. cbn [first_decision].
  unfold resolve_approval. destruct (sn_approvals s !! c) as [sender|] eqn:Hsender.
  - destruct (decide (sender = rx)) as [->|Hne].
    + assert (c = call_id) as -> by auto. cbn [clear_approval with_channels sn_receivers].
      rewrite bool_decide_eq_true_2 by done. cbn. split; [done|]. split.
      { intros c. rewrite lookup_delete_Some. intros [_ Hc]. auto. }
      destruct (first_decision call_id since) as [b|] eqn:Hf; [by destruct Hdec as [_ []%(λ H, H call_id)]|].
      rewrite bool_decide_eq_true_2 by done. rewrite lookup_insert_eq. split; [done|].
      intros c. rewrite lookup_delete_Some. intros [Hc1 Hc2]. by apply Hc1, eq_sym, Huniq.
    + assert (Hkeep : ∀ m, (m = sn_decisions s ∨ ∃ d, m = <[sender := d]> (sn_decisions s)) →
        m !! rx = sn_decisions s !! rx).
      { intros m [->|[d ->]]; [done|]. by rewrite lookup_insert_ne. }
      assert (Hc : first_decision call_id since = None → c ≠ call_id).
      { intros Hf ->. rewrite Hf in Hdec. destruct Hdec as [Hd _]. congruence. }
      set (s' := (if bool_decide _ then _ else _).2).
      assert (Hs' : sn_receivers s' = sn_receivers s ∧ sn_approvals s' = base.delete c (sn_approvals s) ∧
        sn_decisions s' !! rx = sn_decisions s !! rx).
      { unfold s'. case_bool_decide; cbn; split_and!; try done. apply Hkeep. right. eauto. }
      destruct Hs' as (-> & -> & ->). split; [done|]. split.
      { intros c'. rewrite lookup_delete_Some. intros [_ Hc']. auto. }
      destruct (first_decision call_id since) as [b|].
      { split; [apply Hdec|]. intros c'. rewrite lookup_delete_Some. intros [_ Hc']. by apply Hdec in Hc'. }
      rewrite bool_decide_eq_false_2 by auto. rewrite lookup_delete_ne by auto. done.
  - cbn [snd]. split; [done|]. split; [done|]. destruct (first_decision call_id since) as [b|]; [done|].
    case_bool_decide as Hc; [|done]. subst c. destruct Hdec as [Hd _]. congruence.
Qed.
Lemma quiet_snoc since e : quiet since → opens_or_applies e = false → quiet (since ++ [e]).
Proof. intros H3 H4. apply Forall_app. by split; [|constructor]. Qed.

Variable mode : ChatMode.
Definition sound (w : World) : Prop := changes_approved mode (w_log w) ∧ session_wf (w_session w).
Lemma sound_stable : Stable sound.
Proof.
  split; [|done]. intros c w [H3 H4]. split; [|by apply command_session_wf]. apply changes_approved_other; [done|by left].
Qed.
(** Waiting for the decision on [p], which was shown or is not yet *)
Definition gate_waiting (p : PendingApproval) (rx : nat) (shown : bool) (w : World) : Prop :=
  sound w ∧ ∃ earlier since, w_log w = earlier ++ LAwaits (pa_call_id p) :: since ∧ quiet since ∧
    channel_ok rx (pa_call_id p) since (w_session w) ∧ (shown = true → LEvent (PendingApprovalEvent p) ∈ since).
Definition gate_approved (p : PendingApproval) (w : World) : Prop :=
  sound w ∧ ∃ earlier since, w_log w = earlier ++ LAwaits (pa_call_id p) :: since ∧ quiet since ∧
    LEvent (PendingApprovalEvent p) ∈ since ∧ first_decision (pa_call_id p) since = Some true.
Lemma gate_waiting_stable p rx shown : Stable (gate_waiting p rx shown).
Proof.
  split; [|done]. intros c w (Hs & earlier & since & Hlog & Hq & Hch & Hev).
  split; [by apply sound_stable|]. exists earlier, (since ++ [LCommand c]). split.
  { cbn. by rewrite Hlog, <-app_assoc. }
  split; [by apply quiet_snoc|]. split; [by apply channel_ok_command|]. intros H3. apply elem_of_app. left. auto.
Qed.
Lemma gate_approved_stable p : Stable (gate_approved p).
Proof.
  split; [|done]. intros c w (Hs & earlier & since & Hlog & Hq & Hev & Hd).
  split; [by apply sound_stable|]. exists earlier, (since ++ [LCommand c]). split.
  { cbn. by rewrite Hlog, <-app_assoc. }
  split; [by apply quiet_snoc|]. split; [apply elem_of_app; by left|]. by rewrite first_decision_app, Hd.
Qed.

Lemma sound_logged e w : sound w → opens_or_applies e = false ∨ (∃ c, e = LAwaits c) → sound (logged e w).
Proof. intros [H3 H4] He. split; [by apply changes_approved_other|done]. Qed.
Lemma sound_session f w : (session_wf (w_session w) → session_wf (f (w_session w))) → sound w → sound (with_session (f (w_session w)) w).
Proof. intros Hf [H3 H4]. split; [done|by apply Hf]. Qed.
Lemma emit_waiting p rx : task_post (gate_waiting p rx false) (emit build (PendingApprovalEvent p))
  (λ _, gate_waiting p rx true) sound.
Proof.
  apply post_update; [apply gate_waiting_stable|]. intros w (Hs & earlier & since & Hlog & Hq & Hch & Hev).
  split; [by apply sound_logged; [|left]|]. exists earlier, (since ++ [LEvent (PendingApprovalEvent p)]). split.
  { cbn. by rewrite Hlog, <-app_assoc. }
  split; [by apply quiet_snoc|]. split; [by apply (channel_ok_same _ _ _ _ (w_session w))|].
  intros _. apply elem_of_app. right. by apply list_elem_of_singleton.
Qed.
Lemma await_decision_post p cancel rx : task_post (gate_waiting p rx true) (await_decision build cancel rx)
  (λ r w, sound w ∧ (r = Ok (Some Approve) → gate_approved p w)) sound.
Proof.
  eapply post_mono; [apply post_await; [apply (gate_waiting_stable p rx true)|]|by intros w Hw| |by intros w [Hw _]].
  2: { intros r w Hr. exact Hr. }
  intros a w r w' l (Hs & earlier & since & Hlog & Hq & Hch & Hev) Ha.
  assert (Hw' : w' = with_session (drop_receiver rx (w_session w)) w ∧
    (r = Ok (Some Approve) → sn_decisions (w_session w) !! rx = Some Approve)).
  { destruct a; try done; cbn in Ha.
    - destruct (is_cancelled _ _); [|done]. by injection Ha as <- <-.
    - unfold try_receive in Ha. destruct (sn_decisions (w_session w) !! rx) as [d|] eqn:Hd.
      + injection Ha as <- <-. split; [done|]. by intros [= ->].
      + case_bool_decide; [done|]. by injection Ha as <- <-. }
  destruct Hw' as [-> Happrove]. assert (Hs' : sound (with_script l (with_session (drop_receiver rx (w_session w)) w))).
  { apply sound_stable. by apply (sound_session (drop_receiver rx)). }
  split; [done|]. intros Hr. specialize (Happrove Hr). split; [done|]. exists earlier, since. split; [done|]. split; [done|].
  split; [auto|]. destruct Hch as (_ & _ & Hdec). destruct (first_decision _ since) as [[|]|]; [done| |].
  - destruct Hdec as [Hdec _]. cbn in Hdec. congruence.
  - destruct Hdec as [_ Hdec]. congruence.
Qed.
Lemma keeps_sound_runtime f : (∀ s, session_wf s → session_wf (f s)) → keeps sound (on_runtime build f).
Proof. intros Hf. apply keeps_update; [apply sound_stable|]. intros w Hw. by apply sound_session; [apply Hf|]. Qed.
Lemma keeps_sound_channels f : (∀ s, same_channels s (f s)) → keeps sound (on_runtime build f).
Proof. intros Hf. apply keeps_sound_runtime. intros s. by apply session_wf_same. Qed.
Lemma keeps_sound_emit e : keeps sound (emit build e).
Proof. apply keeps_update; [apply sound_stable|]. intros w Hw. by apply sound_logged; [|left]. Qed.
Lemma apply_mutation_post p : proposed_by_tool mode p →
  task_post (gate_approved p) (apply_mutation build (pa_plan p)) (λ _, sound) sound.
Proof.
  intros Hp. unfold apply_mutation. apply (post_bind _ _ _ (λ _, sound)).
  - apply post_update; [apply gate_approved_stable|]. intros w (Hs & earlier & since & Hlog & Hq & Hev & Hd).
    split; [|apply Hs]. apply changes_approved_snoc; [apply Hs|]. intros plan [= <-]. exists earlier, p, since. by split_and!.
  - intros _. apply keeps_await; [apply sound_stable|]. intros a w r w' Hw Ha. destruct a; try done. by injection Ha as _ <-.
  - done.
Qed.
Lemma after_apply_keeps operations result : keeps sound (after_apply build operations result).
Proof. destruct result; [by apply keeps_sound_channels..|apply keeps_ret]. Qed.
(** A step from one assertion to another that implies soundness *)
Lemma gated_post p cancel rx : proposed_by_tool mode p →
  task_post (gate_waiting p rx false) (gated build cancel rx p) (λ _, sound) sound.
Proof.
  intros Hp. unfold gated. apply (post_bind _ _ _ (λ _, gate_waiting p rx true)); [apply emit_waiting| |by intros e w [Hw _]].
  intros _. eapply post_bind; [apply await_decision_post| |by intros e w [Hw _]].
  intros [[|]|].
  - apply (post_bind _ _ _ (λ _, gate_approved p)); [| |by intros e w [Hw _]].
    { apply (post_mono (gate_approved p) _ _ (λ _, gate_approved p) _ sound sound); [|by intros w [_ Hw]; apply Hw|done|done].
      by apply post_read; [apply gate_approved_stable|]. }
    intros host. destruct (negb host); [apply post_fail; by intros w [Hw _]|].
    apply (post_bind _ _ _ (λ _, gate_approved p)); [| |by intros e w [Hw _]].
    { apply post_update; [apply gate_approved_stable|]. intros w (Hs & Hg). split; [|done]. by apply (sound_session (set_status Applying)). }
    intros _. apply (post_bind _ _ _ (λ _, sound)); [by apply apply_mutation_post| |done].
    intros result. apply keeps_bind; [apply after_apply_keeps|]. intros _.
    apply keeps_bind; [apply keeps_read, sound_stable|]. intros [|]; [apply keeps_fail|apply keeps_ret].
  - apply post_ret. by intros w [Hw _].
  - apply (post_mono sound _ _ (λ _, sound) _ sound sound); [|by intros w [Hw _]|done|done].
    apply keeps_bind; [apply keeps_sound_runtime, clear_approval_wf|]. intros _. apply keeps_fail.
Qed.
Lemma begin_step_post p : task_post sound (begin_step build (pa_call_id p))
  (λ r w, ∃ rx, r = Ok rx ∧ gate_waiting p rx false w) sound.
Proof.
  apply post_step; [apply sound_stable|]. intros w [Hc Hwf]. exists (sn_next (w_session w)). split; [done|].
  split; [split; [|by apply begin_awaiting_approval_wf]|].
  { apply changes_approved_other; [done|]. right. eauto. }
  exists (w_log w), []. split; [done|]. split; [constructor|]. split; [|done].
  destruct Hwf as [H3 H4]. split; cbn; [set_solver|]. split.
  { intros c. rewrite lookup_insert_Some. intros [[<- _]|[_ Hc']]; [done|]. apply H3 in Hc'. lia. }
  rewrite lookup_insert_eq. split; [done|]. apply eq_None_not_Some. intros [d Hd%H4]. lia.
Qed.
Lemma gate_and_apply_keeps p cancel : proposed_by_tool mode p → keeps sound (gate_and_apply build cancel p).
Proof.
  intros Hp. unfold gate_and_apply. eapply post_bind; [apply begin_step_post| |by intros e w (? & ? & _)].
  intros rx. apply (post_mono (gate_waiting p rx false) _ _ (λ _, sound) _ sound sound);
    [|by intros w (? & [= <-] & Hw)|done|done].
  apply (post_bind _ _ _ (λ _, sound)); [apply post_catch; by apply gated_post| |done].
  intros result. apply keeps_bind; [by apply keeps_sound_channels|]. intros _. apply keeps_lift.
Qed.
End approval.
