(* ===== verification/AiInvariants.v ===== *)
(** * What every turn keeps

    A property of worlds that the steps of a turn keep is kept by the whole turn: changes
    are approved, and the end of the run is not announced before the run has ended. *)
From Stdlib Require Import Ascii String.
#[local] Set Warnings "-clear-no-such-hyp,-register-all".
From S2P Require Import Prelude Text Indexer AiTypes AiSession AiEndpoint AiState AiHistory AiTurn AiApproval.

Section invariants.
Context `{UrlCrate} `{Backends} `{ValueText} `{Blake3} (build : Build) {T : Type} (descriptor : T → ToolDescriptor).
#[local] Abbreviation World := (World (T := T)).
#[local] Abbreviation Task A := (Task (T := T) A).
Definition announces_end (e : TurnEvent) : bool := match e with Done _ _ => true | _ => false end.
Definition event_pending (e : TurnEvent) : bool := match e with PendingApprovalEvent _ => true | _ => false end.

(** What the calls of tools and of the provider need of a property *)
Class ToolInvariant (mode : ChatMode) (P : World → Prop) : Prop := {
  ti_stable : Stable build P;
  ti_event e w : announces_end e = false → P w → P (logged (LEvent e) w);
  ti_state s w : P w → P (with_state s w);
  ti_gate p cancel : proposed_by_tool mode p → keeps P (gate_and_apply build cancel p) }.
(** What the whole turn needs *)
Class TurnInvariant (mode : ChatMode) (P : World → Prop) : Prop := {
  ri_tool :: ToolInvariant mode P;
  ri_request r w : P w → P (logged (LRequest r) w);
  ri_start w : P w → P (with_session (start_run (w_session w)).2 w);
  ri_runtime f w : same_channels (w_session w) (f (w_session w)) → P w → P (with_session (f (w_session w)) w) }.

Section tools.
Context (mode : ChatMode) (P : World → Prop) `{!ToolInvariant mode P}.
Lemma keeps_emit e : announces_end e = false → keeps P (emit build e).
Proof. intros He. apply keeps_update; [apply (ti_stable (mode := mode))|]. intros w. by apply (ti_event (mode := mode)). Qed.
Lemma keeps_reading {A} (f : World → A) : keeps P (read build f).
Proof. apply keeps_read, (ti_stable (mode := mode)). Qed.
Lemma keeps_broker f : keeps P (update build (λ w, with_state (with_broker (f w) (w_state w)) w)).
Proof. apply keeps_update; [apply (ti_stable (mode := mode))|]. intros w. apply (ti_state (mode := mode)). Qed.
Lemma tool_outcome_keeps r : keeps P (tool_outcome r).
Proof. destruct r as [o|e]; [apply keeps_ret|]. destruct e; first [apply keeps_fail|apply keeps_ret]. Qed.
Lemma execute_native_tool_keeps cancel tool_call d : mode_allows mode d = true → td_name d = tc_tool_name tool_call →
  keeps P (execute_native_tool build cancel tool_call d).
Proof.
  intros Hallowed Hname. apply keeps_bind; [apply keeps_reading|]. intros [tool|]; [|apply keeps_fail].
  apply keeps_bind.
  { apply keeps_await; [apply (ti_stable (mode := mode))|]. intros a w r w' Hw Ha. destruct a; try done. by injection Ha as _ <-. }
  intros [result|error]; [|apply keeps_ret]. destruct (filter_mutation _ _) as [mutation|] eqn:Hm; [|apply keeps_ret].
  apply ti_gate. exists d. unfold filter_mutation in Hm. split_and!; [done| |done|done].
  case_bool_decide as Hd; [done|]. by destruct (td_access d).
Qed.
Lemma execute_proxy_tool_keeps cancel tool_call tool_id : keeps P (execute_proxy_tool build cancel tool_call tool_id).
Proof.
  apply keeps_bind; [apply keeps_reading|]. intros [proxy|]; [|apply keeps_ret].
  apply keeps_bind. { apply keeps_step; [apply (ti_stable (mode := mode))|]. intros w. apply (ti_state (mode := mode)). }
  intros rx. apply keeps_bind; [by apply keeps_emit|]. intros _. apply keeps_bind.
  - apply keeps_await; [apply (ti_stable (mode := mode))|]. intros a w r w' Hw Ha.
    destruct a; try done; cbn in Ha; repeat case_match; try done; injection Ha as _ <-; by apply (ti_state (mode := mode)).
  - intros [|  | |]; [apply keeps_ret..| |]; (apply keeps_bind; [apply keeps_broker|]; intros _; apply keeps_fail).
Qed.
Lemma find_tool_allowed ds name d : find_tool (allowed_tools mode ds) name = Some d → mode_allows mode d = true ∧ td_name d = name.
Proof.
  intros [Hin Hn%bool_decide_eq_true]%find_some. split; [|done]. by apply filter_In in Hin as [_ ?].
Qed.
Lemma handle_tool_call_keeps cancel ds tool_call : keeps P (handle_tool_call build cancel mode (allowed_tools mode ds) tool_call).
Proof.
  apply keeps_bind; [by apply keeps_emit|]. intros _. apply keeps_bind.
  - unfold run_tool. destruct (find_tool _ _) as [d|] eqn:Hd; [|apply keeps_ret].
    apply find_tool_allowed in Hd as [Hallowed Hname]. destruct (td_source d).
    + apply keeps_bind; [|apply tool_outcome_keeps]. by apply keeps_catch, execute_native_tool_keeps.
    + apply keeps_bind; [|apply tool_outcome_keeps]. by apply keeps_catch, execute_proxy_tool_keeps.
  - intros outcome. apply keeps_bind; [by apply keeps_emit|]. intros _. apply keeps_ret.
Qed.
Lemma host_header_keeps : keeps P (host_header build).
Proof. apply keeps_await; [apply (ti_stable (mode := mode))|]. intros a w r w' Hw Ha. destruct a; try done. by injection Ha as _ <-. Qed.
Lemma authorization_keeps call : keeps P call → keeps P (authorization build call).
Proof.
  intros Hcall. apply keeps_bind; [apply keeps_reading|]. intros [|]; [|apply keeps_fail].
  apply keeps_bind; [done|]. intros [|]; [apply keeps_ret|apply keeps_fail].
Qed.
Lemma stream_turn_post P0 request : Stable build P0 → (∀ w, P0 w → P (logged (LRequest request) w)) →
  task_post P0 (stream_turn build request) (λ _, P) P.
Proof.
  intros HP0 Hreq. apply (post_bind _ _ _ (λ _, P)); [by apply post_update| |done].
  intros _. apply keeps_await; [apply (ti_stable (mode := mode))|]. intros a w r w' Hw Ha. destruct a; try done. by injection Ha as _ <-.
Qed.
Lemma receive_round_keeps cancel : keeps P (receive_round build cancel).
Proof.
  apply post_read_stream; [apply (ti_stable (mode := mode))| |done|done]. intros [delta| |] w Hw; [by apply (ti_event (mode := mode))|done|done].
Qed.
Lemma round_header_keeps config :
  keeps P (if is_remote config then header ← authorization build (host_header build); mret (Some header) else mret None).
Proof.
  destruct (is_remote config); [|apply keeps_ret]. apply keeps_bind; [apply authorization_keeps, host_header_keeps|].
  intros h. apply keeps_ret.
Qed.
End tools.

Section turns.
Context (mode : ChatMode) (P : World → Prop) `{!TurnInvariant mode P}.
#[local] Hint Extern 0 (ToolInvariant _ _) => typeclasses eauto : core.
Lemma keeps_runtime f : (∀ s, same_channels s (f s)) → keeps P (on_runtime build f).
Proof. intros Hf. apply keeps_update; [apply ti_stable|]. intros w. by apply (ri_runtime (mode := mode)). Qed.
Lemma open_stream_keeps config request : keeps P (open_stream build config request).
Proof.
  assert (Hst : ∀ r, keeps P (stream_turn build r)).
  { intros r. apply (stream_turn_post mode); [done|apply (ti_stable (mode := mode))|]. intros w. apply (ri_request (mode := mode)). }
  apply keeps_bind; [by apply keeps_catch|]. intros [u|e]; [apply keeps_ret|].
  destruct e; try apply keeps_fail. destruct (is_remote config); [|apply keeps_fail].
  apply keeps_bind; [by apply (authorization_keeps mode), (host_header_keeps mode)|]. intros h. apply Hst.
Qed.
Lemma ask_model_keeps cancel config ds : keeps P (ask_model build cancel mode config (allowed_tools mode ds)).
Proof.
  apply keeps_bind; [by apply (keeps_reading mode)|]. intros messages.
  apply keeps_bind; [by apply (round_header_keeps mode)|]. intros header.
  apply keeps_bind; [apply open_stream_keeps|]. intros _.
  apply keeps_bind; [by apply (receive_round_keeps mode)|]. intros r.
  apply keeps_bind; [|intros _; apply keeps_ret]. unfold push_reply. destruct (_ && _); [apply keeps_ret|by apply keeps_runtime].
Qed.
Lemma call_tools_keeps cancel ds tool_calls : keeps P (call_tools build cancel mode (allowed_tools mode ds) tool_calls).
Proof.
  induction tool_calls as [|tool_call tool_calls IH]; [apply keeps_ret|]. cbn [call_tools].
  apply keeps_bind; [by apply handle_tool_call_keeps|]. intros result.
  apply keeps_bind; [by apply keeps_runtime|]. done.
Qed.
Lemma rounds_keeps limit cancel config ds usage : keeps P (rounds build limit cancel mode config (allowed_tools mode ds) usage).
Proof.
  revert usage. induction limit as [|limit IH]; intros usage; [apply keeps_ret|]. cbn [rounds].
  apply keeps_bind; [apply ask_model_keeps|]. intros r. destruct (rd_tool_calls r) as [|c cs]; [apply keeps_ret|].
  apply keeps_bind; [apply call_tools_keeps|]. intros _. apply IH.
Qed.
Lemma remember_embedded_channels ec s : same_channels s (remember_embedded_file_snapshots ec s).
Proof.
  unfold remember_embedded_file_snapshots. generalize (ec_embedded_files ec). intros files. revert s.
  induction files as [|file files IH]; intros s; [done|]. cbn [foldl].
  exact (IH (remember_path_snapshot (ef_path file) (ef_checksum file) false s)).
Qed.
Lemma state_backend_keeps : keeps P (state_backend (T := T) build).
Proof.
  apply keeps_bind; [by apply (keeps_reading mode)|]. intros [provider|]; [apply keeps_ret|].
  apply keeps_bind; [by apply (keeps_reading mode)|]. intros config.
  apply keeps_bind; [by intros w Hw|]. intros provider.
  apply keeps_bind; [|intros _; apply keeps_ret].
  apply keeps_step; [apply ti_stable|]. intros w Hw. by apply (ti_state (mode := mode)).
Qed.
Lemma run_turn_inner_keeps content ec : keeps P (run_turn_inner build descriptor mode content ec).
Proof.
  apply keeps_bind.
  { apply keeps_step; [apply ti_stable|]. intros w Hw. apply (ri_start (mode := mode)) in Hw. by destruct (start_run _). }
  intros cancel. apply keeps_bind.
  { apply keeps_step; [apply ti_stable|]. intros w Hw. by apply (ri_runtime (mode := mode) (with_mode mode)). }
  intros previous_mode. apply keeps_bind; [apply keeps_runtime, remember_embedded_channels|]. intros _.
  apply keeps_bind; [by apply keeps_runtime|]. intros _.
  apply keeps_bind; [by apply keeps_runtime|]. intros _.
  apply keeps_bind; [apply state_backend_keeps|].
  intros _. apply keeps_bind; [by apply (keeps_reading mode)|]. intros config.
  apply keeps_bind; [by apply (keeps_reading mode)|]. intros ds. apply rounds_keeps.
Qed.
End turns.
End invariants.
