(* ===== verification/AiTurnTheorems.v ===== *)
(** * What a turn of the assistant guarantees *)
From Stdlib Require Import Ascii String.
#[local] Set Warnings "-clear-no-such-hyp,-register-all".
From S2P Require Import Prelude Text Indexer AiTypes AiSession AiEndpoint AiState AiHistory AiTurn AiApproval AiInvariants.

Section theorems.
Context `{UrlCrate} `{Backends} `{ValueText} `{Blake3} (build : Build) {T : Type} (descriptor : T → ToolDescriptor).
#[local] Abbreviation World := (World (T := T)).
#[local] Abbreviation Task A := (Task (T := T) A).
#[local] Abbreviation sound := (sound (T := T)).
Definition outcome_world {A} (o : Outcome (T := T) A) : World := match o with Returned _ w | Suspended w => w end.
(** A turn that begins on a session and a state, with what will happen during it *)
Definition turn_world (s : SessionRuntime) (st : AiState (T := T)) (script : list Entry) : World :=
  {| w_session := s; w_state := st; w_log := []; w_script := script |}.
Lemma keeps_outcome {A} P (m : Task A) w : keeps P m → P w → P (outcome_world (m w)).
Proof. intros Hm Hw. specialize (Hm w Hw). by destruct (m w). Qed.

(** ** Approvals *)

Lemma sound_tool_invariant mode : ToolInvariant build mode (sound mode).
Proof.
  split; [apply sound_stable|..].
  - intros e w _ Hw. by apply sound_logged; [|left].
  - done.
  - intros p cancel. apply gate_and_apply_keeps.
Qed.
#[local] Instance sound_turn_invariant mode : TurnInvariant build mode (sound mode).
Proof.
  split; [apply sound_tool_invariant|..].
  - intros r w Hw. by apply sound_logged; [|left].
  - intros w [H3 H4]. split; [done|by apply start_run_wf].
  - intros f w Hf [H3 H4]. split; [done|by apply (session_wf_same (w_session w))].
Qed.
Lemma finalize_run_sound mode r : keeps (sound mode) (finalize_run build r).
Proof.
  apply keeps_bind; [apply keeps_step; [apply sound_stable|done]|]. intros d. unfold announce_result.
  destruct r as [[reason usage]|e]; [apply keeps_sound_emit|].
  apply keeps_bind; [apply keeps_sound_emit|]. intros _. apply keeps_sound_emit.
Qed.

(** C4: the assistant changes the vault only with the user's approval: in every run of a
    turn, whatever the provider, the tools, the host and the other commands do and however
    they interleave, a plan reaches the host only after it was shown to the user and the
    user's first decision on that call was to approve it, each approval permits one
    application, the plan comes from a tool that the mode may use for changes, and in Ask
    mode nothing is ever applied. *)
Theorem changes_need_approval mode content ec s st script : session_wf s →
  let log := w_log (outcome_world (run_turn build descriptor mode content ec (turn_world s st script))) in
  changes_approved mode log ∧ (mode = Ask → ∀ plan, LApply plan ∉ log).
Proof.
  intros Hwf. cbv zeta.
  assert (Hsound : sound mode (outcome_world (run_turn build descriptor mode content ec (turn_world s st script)))).
  { apply keeps_outcome; [|split; [apply changes_approved_nil|done]].
    apply keeps_bind; [apply keeps_catch, run_turn_inner_keeps, _|]. intros r. apply finalize_run_sound. }
  split; [apply Hsound|]. intros ->. apply changes_approved_ask, Hsound.
Qed.

(** ** The end of a run *)

(** Tasks that only look at the messages and at the events of the end *)
Lemma gate_keeps (P : World → Prop) p cancel : Stable build P →
  (∀ e w, opens_or_applies e = true ∨ e = LEvent (PendingApprovalEvent p) → P w → P (logged e w)) →
  (∀ s w, sn_messages s = sn_messages (w_session w) → P w → P (with_session s w)) →
  keeps P (gate_and_apply build cancel p).
Proof.
  intros HP Hlog Hsession.
  assert (Hruntime : ∀ f, (∀ s, sn_messages (f s) = sn_messages s) → keeps P (on_runtime build f)).
  { intros f Hf. apply keeps_update; [done|]. intros w. apply Hsession, Hf. }
  apply keeps_bind.
  { apply keeps_step; [done|]. intros w Hw. cbn. apply Hlog; [by left|]. by apply Hsession. }
  intros rx. apply keeps_bind; [|intros r; apply keeps_bind; [by apply Hruntime|intros _; apply keeps_lift]].
  apply keeps_catch. apply keeps_bind; [apply keeps_update; [done|]; intros w; apply Hlog; by right|]. intros _.
  apply keeps_bind.
  { apply keeps_await; [done|]. intros a w r w' Hw Ha. destruct a; try done; cbn in Ha; repeat case_match; try done;
      injection Ha as _ <-; by apply Hsession. }
  intros [[|]|]; [|apply keeps_ret|apply keeps_bind; [by apply Hruntime|intros _; apply keeps_fail]].
  apply keeps_bind; [by apply keeps_read|]. intros [|]; [|apply keeps_fail].
  apply keeps_bind; [by apply Hruntime|]. intros _.
  apply keeps_bind.
  { apply keeps_bind; [apply keeps_update; [done|]; intros w; apply Hlog; by left|]. intros _.
    apply keeps_await; [done|]. intros a w r w' Hw Ha. destruct a; try done. by injection Ha as _ <-. }
  intros result. apply keeps_bind; [destruct result; [by apply Hruntime..|apply keeps_ret]|]. intros _.
  apply keeps_bind; [by apply keeps_read|]. intros [|]; [apply keeps_fail|apply keeps_ret].
Qed.
Definition ends (log : list LogEntry) : list LogEntry :=
  List.filter (λ e, match e with LEvent e => announces_end e | _ => false end) log.
Definition ended (d : list LogEntry) (w : World) : Prop := ends (w_log w) = d.
Lemma ends_snoc log e : ends (log ++ [e]) = ends log ++ ends [e].
Proof. apply List.filter_app. Qed.
Lemma ended_logged d e w : ends [e] = [] → ended d w → ended d (logged e w).
Proof. unfold ended. cbn [w_log logged]. rewrite ends_snoc. intros -> <-. by rewrite app_nil_r. Qed.
Lemma ended_stable d : Stable build (ended d).
Proof. split; [|done]. intros c w Hw. by apply ended_logged. Qed.
#[local] Instance ended_turn_invariant mode d : TurnInvariant build mode (ended d).
Proof.
  split; [split; [apply ended_stable|..]|intros r w; by apply ended_logged|done|done].
  - intros e w He. apply ended_logged. cbn. by rewrite He.
  - done.
  - intros p cancel _. apply gate_keeps; [apply ended_stable| |done]. intros e w He. apply ended_logged.
    destruct He as [He| ->]; [|done]. by destruct e.
Qed.
(** Idle, and no decision is waited for *)
Definition idle (w : World) : Prop := sn_control (w_session w) = idle_control.
Lemma idle_stable : Stable build idle.
Proof.
  split; [|done]. unfold idle. intros c w Hw. destruct c as [|c approved| | | | | | | |]; try done; cbn; unfold cancel_session; rewrite ?Hw; try done.
  unfold resolve_approval. destruct (_ !! c); [|done]. by case_bool_decide.
Qed.
Definition reason_of (result : Result AiError (FinishReason * option TokenUsage)) (deferred : bool) : FinishReason :=
  match result with
  | Ok (reason, _) => if deferred then FinishCancelled else reason
  | Err error => if bool_decide (error = Cancelled) || deferred then FinishCancelled else FinishError
  end.
Definition usage_of (result : Result AiError (FinishReason * option TokenUsage)) : option TokenUsage :=
  match result with Ok (_, usage) => usage | Err _ => None end.
(** The events of a log, in order *)
Definition events (log : list LogEntry) : list TurnEvent := omap (λ e, match e with LEvent e => Some e | _ => None end) log.
Definition told (d : list TurnEvent) (w : World) : Prop := events (w_log w) = d.
Lemma events_snoc log e : events (log ++ [e]) = events log ++ events [e].
Proof. apply omap_app. Qed.
Lemma told_idle_stable d : Stable build (λ w, told d w ∧ idle w).
Proof.
  split; [|done]. intros c w [He Hi]. split; [|by apply idle_stable]. unfold told. cbn [execute w_log logged].
  by rewrite events_snoc, app_nil_r.
Qed.
(** What the front end is told at the end of a run: the error if there was one, then the end *)
Definition closing (result : Result AiError (FinishReason * option TokenUsage)) (deferred : bool) : list TurnEvent :=
  match result with Err e => [ErrorEvent e] | Ok _ => [] end ++ [Done (reason_of result deferred) (usage_of result)].
Lemma closing_event d e : task_post (λ w, told d w ∧ idle w) (emit build e)
  (λ r w, r = Ok tt ∧ told (d ++ [e]) w ∧ idle w) (λ _, False).
Proof.
  apply post_update; [apply told_idle_stable|]. intros w [He Hi]. split_and!; [done| |done].
  unfold told in *. cbn [w_log logged]. by rewrite events_snoc, He.
Qed.
Lemma announce_result_post d result deferred : task_post (λ w, told d w ∧ idle w) (announce_result build result deferred)
  (λ r w, r = Ok tt ∧ told (d ++ closing result deferred) w ∧ idle w) (λ _, False).
Proof.
  destruct result as [[reason usage]|error]; [apply closing_event|].
  apply (post_bind _ _ _ (λ r w, r = Ok tt ∧ told (d ++ [ErrorEvent error]) w ∧ idle w)); [apply closing_event| |by intros e w [? _]].
  intros u. unfold closing. cbn [app]. change (?a :: [?b]) with ([a] ++ [b]). rewrite app_assoc.
  apply (post_mono (λ w, told (d ++ [ErrorEvent error]) w ∧ idle w) _ _
    (λ r w, r = Ok tt ∧ told ((d ++ [ErrorEvent error]) ++ [Done (reason_of (Err error) deferred) None]) w ∧ idle w) _ (λ _, False) _);
    [apply closing_event|by intros w [_ ?]|done|done].
Qed.
(** C16: a turn ends once: as long as it is suspended the front end is not told that the run
    ended; when it returns, the last thing the front end was told is the end, once, right
    after the error if there was one, with [Cancelled] for a cancelled run, and the session is
    idle and can start another run. *)
Theorem turn_ends_once mode content ec w :
  match run_turn build descriptor mode content ec w with
  | Suspended w' => ends (w_log w') = ends (w_log w)
  | Returned r w' =>
      r = Ok tt ∧ sn_control (w_session w') = idle_control ∧ (start_run (w_session w')).1 = Ok (sn_next (w_session w')) ∧
      ∃ result w1, run_turn_inner build descriptor mode content ec w = Returned result w1 ∧ ends (w_log w1) = ends (w_log w) ∧
        let deferred := sc_deferred_cancel (sn_control (w_session (commands_before build (w_script w1) w1))) in
        events (w_log w') = events (w_log w1) ++
          match result with Err e => [ErrorEvent e] | Ok _ => [] end ++ [Done (reason_of result deferred) (usage_of result)]
  end.
Proof.
  pose proof (run_turn_inner_keeps build descriptor mode (ended (ends (w_log w))) content ec w eq_refl) as Hinner.
  unfold run_turn, finalize_run, mbind, task_bind, catch, step.
  destruct (run_turn_inner build descriptor mode content ec w) as [result w1|w1]; [|done]. cbn [complete_run].
  set (w2 := commands_before build (w_script w1) w1).
  assert (Hw2 : told (events (w_log w1)) w2).
  { apply stable_commands; [|done]. split; [|done]. intros c w0 Hw0. unfold told. cbn [execute w_log logged].
    by rewrite events_snoc, app_nil_r. }
  pose proof (announce_result_post (events (w_log w1)) result (sc_deferred_cancel (sn_control (w_session w2)))
    (with_session (with_control idle_control (w_session w2)) w2) (conj Hw2 eq_refl)) as Hend.
  destruct (announce_result _ _ _ _) as [r w'|w']; [|done].
  destruct Hend as (-> & Htold & Hidle). split_and!; [done..| |].
  - unfold start_run. by rewrite Hidle.
  - exists result, w1. by split_and!.
Qed.

(** ** A message sent while the session runs *)

(** C34: a message that is sent while a turn of the session runs is refused, and its failed run
    is finalised like any other: the session is set idle and its cancellation token is
    forgotten although the first turn still runs, so that cancelling no longer cancels that
    turn and a second turn can start beside it. *)
Theorem busy_send_frees_the_session mode content ec w : sc_status (sn_control (w_session w)) ≠ Idle → w_script w = [] →
  ∃ w', run_turn build descriptor mode content ec w = Returned (Ok tt) w' ∧
    w_log w' = w_log w ++ [LEvent (ErrorEvent SessionBusy);
                           LEvent (Done (reason_of (Err SessionBusy) (sc_deferred_cancel (sn_control (w_session w)))) None)] ∧
    w_session w' = with_control idle_control (w_session w) ∧
    sn_cancelled (cancel_session (w_session w')) = sn_cancelled (w_session w) ∧
    (start_run (w_session w')).1 = Ok (sn_next (w_session w)).
Proof.
  intros Hbusy Hscript. destruct w as [session state log script]. cbn in *. subst script.
  unfold run_turn, run_turn_inner, mbind, task_bind, catch, step. cbn [w_script commands_before with_script].
  cbn [w_session]. unfold start_run at 1. rewrite bool_decide_eq_false_2 by done. cbn [negb].
  unfold finalize_run, announce_result, mbind, task_bind, step, emit, update, step. cbn. eexists. split; [reflexivity|]. cbn.
  split_and!; [by rewrite <-app_assoc|done..].
Qed.
End theorems.
