(* ===== verification/AiRounds.v ===== *)
(** * The history that a turn leaves *)
From Stdlib Require Import Ascii String.
#[local] Set Warnings "-clear-no-such-hyp,-register-all".
From S2P Require Import Prelude Text Indexer AiTypes AiSession AiEndpoint AiState AiHistory AiTurn AiApproval AiInvariants AiTurnTheorems.

Section rounds.
Context `{UrlCrate} `{Backends} `{ValueText} `{Blake3} (build : Build) {T : Type} (descriptor : T → ToolDescriptor).
#[local] Abbreviation World := (World (T := T)).
#[local] Abbreviation Task A := (Task (T := T) A).

(** ** Messages and requests *)

Definition requests (log : list LogEntry) : nat := length (List.filter (λ e, match e with LRequest _ => true | _ => false end) log).
(** The session has these messages, and at most [n] requests were made. *)
Definition has_messages (l : list ChatMessage) (n : nat) (w : World) : Prop :=
  sn_messages (w_session w) = l ∧ requests (w_log w) ≤ n.
Lemma requests_snoc log e : requests (log ++ [e]) = requests log + requests [e].
Proof. unfold requests. by rewrite List.filter_app, length_app. Qed.
Lemma command_session_messages c s : sn_messages (command_session c s) = sn_messages s.
Proof.
  destruct c as [|c approved| | | | | | | |]; try done; cbn; unfold cancel_session, resolve_approval; by repeat case_match.
Qed.
Lemma has_messages_logged l n e w : requests [e] = 0 → has_messages l n w → has_messages l n (logged e w).
Proof. intros He [Hm Hr]. split; [done|]. cbn [w_log logged]. rewrite requests_snoc, He. lia. Qed.
Lemma has_messages_stable l n : Stable build (has_messages l n).
Proof.
  split; [|done]. intros c w [Hm Hr]. apply has_messages_logged; [done|]. split; [|done].
  cbn. by rewrite command_session_messages.
Qed.
#[local] Instance has_messages_tool mode l n : ToolInvariant build mode (has_messages l n).
Proof.
  split; [apply has_messages_stable|..].
  - intros e w _. by apply has_messages_logged.
  - done.
  - intros p cancel _. apply gate_keeps; [apply has_messages_stable|..].
    + intros e w He. apply has_messages_logged. destruct He as [He| ->]; [|done]. by destruct e.
    + intros s w Hs [Hm Hr]. split; [|done]. cbn. by rewrite Hs.
Qed.
Lemma has_messages_push l n m : task_post (has_messages l n) (on_runtime build (push_message m))
  (λ r w, r = Ok tt ∧ has_messages (l ++ [m]) n w) (λ _, False).
Proof.
  apply post_update; [apply has_messages_stable|]. intros w [Hm Hr]. split; [done|]. split; [|done]. cbn. by rewrite Hm.
Qed.
Lemma has_messages_weaken l n k w : n ≤ k → has_messages l n w → has_messages l k w.
Proof. intros Hnk [Hm Hr]. split; [done|lia]. Qed.

(** ** Calls of tools *)

(** A tool call only fails when the turn is cancelled. *)
Definition only_cancels {A} (m : Task A) : Prop := ∀ w e w', m w = Returned (Err e) w' → e = Cancelled.
Lemma only_cancels_bind {A B} (m : Task A) (f : A → Task B) : only_cancels m → (∀ a, only_cancels (f a)) → only_cancels (x ← m; f x).
Proof.
  intros Hm Hf w e w'. unfold mbind, task_bind. destruct (m w) as [[a|e1] w1|w1] eqn:Heq; [apply Hf| |done].
  intros [= <- <-]. by eapply Hm.
Qed.
Lemma only_cancels_catch {A} (m : Task A) : only_cancels (catch m).
Proof. intros w e w'. unfold catch. by destruct (m w). Qed.
Lemma handle_tool_call_only_cancels cancel mode allowed tool_call : only_cancels (handle_tool_call build cancel mode allowed tool_call).
Proof.
  assert (Hemit : ∀ e, only_cancels (emit build e)) by (intros e w e' w'; done).
  assert (Hret : ∀ A (a : A), only_cancels (mret a)) by (intros A a w e' w'; done).
  assert (Hout : ∀ r, only_cancels (tool_outcome r)) by (intros [o|[]] w e w2 [=]; done).
  apply only_cancels_bind; [apply Hemit|]. intros _. apply only_cancels_bind.
  - unfold run_tool. destruct (find_tool _ _) as [d|]; [|apply Hret].
    destruct (td_source d); apply only_cancels_bind; try apply only_cancels_catch; apply Hout.
  - intros o. apply only_cancels_bind; [apply Hemit|]. intros _. apply Hret.
Qed.
Definition results (calls : list ModelToolCall) (outcomes : list (string * bool)) : list ChatMessage :=
  zip_with tool_result_message calls outcomes.
(** Some of the calls have their results, in their order. *)
Definition interrupted (l : list ChatMessage) (n : nat) (calls : list ModelToolCall) (w : World) : Prop :=
  ∃ outcomes, length outcomes < length calls ∧ has_messages (l ++ results calls outcomes) n w.
Lemma call_tools_post l n cancel mode ds calls :
  task_post (has_messages l n) (call_tools build cancel mode (allowed_tools mode ds) calls)
    (λ r w, match r with
            | Ok _ => ∃ outcomes, length outcomes = length calls ∧ has_messages (l ++ results calls outcomes) n w
            | Err e => e = Cancelled ∧ interrupted l n calls w
            end)
    (interrupted l n calls).
Proof.
  revert l. induction calls as [|call calls IH]; intros l; cbn [call_tools].
  { apply post_ret. intros w Hw. exists []. split; [done|]. by rewrite app_nil_r. }
  assert (Hzero : ∀ w, has_messages l n w → interrupted l n (call :: calls) w).
  { intros w Hw. exists []. split; [cbn; lia|]. by rewrite app_nil_r. }
  assert (Hmore : ∀ o w, interrupted (l ++ [tool_result_message call o]) n calls w → interrupted l n (call :: calls) w).
  { intros o w (outcomes & Hlen & Hw). exists (o :: outcomes). split; [cbn; lia|]. cbn. by rewrite <-app_assoc in Hw. }
  apply (post_bind _ _ _ (λ r w, has_messages l n w ∧ ∀ e, r = Err e → e = Cancelled)).
  - intros w Hw. pose proof (handle_tool_call_keeps build mode (has_messages l n) cancel ds call w Hw) as Hkeep.
    pose proof (handle_tool_call_only_cancels cancel mode (allowed_tools mode ds) call w) as Hcancel.
    destruct (handle_tool_call _ _ _ _ _ _) as [r w'|w']; [|by apply Hzero].
    split; [done|]. intros e ->. by eapply Hcancel.
  - intros o. apply (post_bind _ _ _ (λ r w, r = Ok tt ∧ has_messages (l ++ [tool_result_message call o]) n w)).
    + apply (post_mono (has_messages l n) _ _ _ _ (λ _, False) _ (has_messages_push _ _ _)); [by intros w [? _]|done|done].
    + intros u. eapply post_mono; [apply (IH (l ++ [tool_result_message call o]))|by intros w [_ ?]| |apply Hmore].
      intros [u'|e] w; cbn.
      * intros (outcomes & Hlen & Hw). exists (o :: outcomes). split; [cbn; lia|]. cbn. by rewrite <-app_assoc in Hw.
      * intros [-> Hi]. split; [done|by eapply Hmore].
    + by intros e w [? _].
  - intros e w [Hw He]. split; [auto|by apply Hzero].
Qed.

(** ** Rounds *)

Definition request_cost (config : AiConfig) : nat := if is_remote config then 2 else 1.
Lemma stream_turn_messages l n request : task_post (has_messages l n) (stream_turn build request)
  (λ _, has_messages l (S n)) (has_messages l (S n)).
Proof.
  apply (stream_turn_post build Ask); [apply has_messages_tool|apply has_messages_stable|].
  intros w [Hm Hr]. split; [done|]. cbn [w_log logged]. rewrite requests_snoc. cbn. lia.
Qed.
Lemma open_stream_messages l n config request : task_post (has_messages l n) (open_stream build config request)
  (λ _, has_messages l (n + request_cost config)) (has_messages l (n + request_cost config)).
Proof.
  assert (Hcost : S n ≤ n + request_cost config) by (unfold request_cost; case_match; lia).
  assert (Hle : ∀ w, has_messages l (S n) w → has_messages l (n + request_cost config) w).
  { intros w. by apply has_messages_weaken. }
  apply (post_bind _ _ _ (λ _, has_messages l (S n))).
  { apply post_catch. eapply post_mono; [apply stream_turn_messages|done| |apply Hle]. by intros r w Hw. }
  2: { intros e w. apply Hle. }
  intros [u|e]; [by apply post_ret|]. destruct e; try by apply post_fail.
  destruct (is_remote config) eqn:Hremote; [|by apply post_fail].
  assert (Hn : n + request_cost config = S (S n)) by (unfold request_cost; rewrite Hremote; lia).
  apply (post_bind _ _ _ (λ _, has_messages l (S n))); [| |intros e w; apply Hle].
  - apply (post_mono (has_messages l (S n)) _ _ (λ _, has_messages l (S n)) _ (has_messages l (S n)) _);
      [|done|done|apply Hle].
    apply (authorization_keeps build Ask (has_messages l (S n))), (host_header_keeps build Ask); apply has_messages_tool.
  - intros h. rewrite Hn. apply stream_turn_messages.
Qed.
Definition reply (r : RoundReceived) : list ChatMessage :=
  if str_is_empty (rd_text r) && bool_decide (length (rd_tool_calls r) = 0) then [] else [MAssistant (rd_text r) (rd_tool_calls r)].
Lemma ask_model_post l n cancel mode config allowed :
  task_post (has_messages l n) (ask_model build cancel mode config allowed)
    (λ r w, match r with
            | Ok r => has_messages (l ++ reply r) (n + request_cost config) w
            | Err _ => has_messages l (n + request_cost config) w
            end)
    (has_messages l (n + request_cost config)).
Proof.
  set (k := n + request_cost config).
  assert (Hle : ∀ w, has_messages l n w → has_messages l k w) by (intros w; apply has_messages_weaken; lia).
  assert (Hkeep : ∀ A (m : Task A), keeps (has_messages l n) m →
    task_post (has_messages l n) m (λ r w, match r with Ok _ => has_messages l n w | Err _ => has_messages l k w end) (has_messages l k)).
  { intros A m Hm. eapply post_mono; [apply Hm|done| |apply Hle]. intros [a|e] w Hw; [done|by apply Hle]. }
  eapply post_bind; [apply Hkeep, (keeps_reading build Ask); apply has_messages_tool| |done].
  intros messages. eapply post_bind; [apply Hkeep, (round_header_keeps build Ask); apply has_messages_tool| |done].
  intros header. eapply post_bind; [apply open_stream_messages| |done].
  intros u. eapply post_bind; [apply (receive_round_keeps build Ask); apply has_messages_tool| |done].
  intros r. apply (post_bind _ _ _ (λ r' w, r' = Ok tt ∧ has_messages (l ++ reply r) k w)).
  - unfold push_reply, reply. destruct (_ && _).
    + apply post_ret. intros w Hw. by rewrite app_nil_r.
    + eapply post_mono; [apply has_messages_push|done|done|done].
  - intros u'. apply post_ret. by intros w [_ Hw].
  - by intros e w [? _].
Qed.

(** One round with tool calls: the reply of the model and the results of its calls *)
Record Exchange := { ex_text : string; ex_calls : list ModelToolCall; ex_outcomes : list (string * bool) }.
Definition exchange_messages (e : Exchange) : list ChatMessage :=
  MAssistant (ex_text e) (ex_calls e) :: results (ex_calls e) (ex_outcomes e).
Definition complete (e : Exchange) : Prop := ex_calls e ≠ [] ∧ length (ex_outcomes e) = length (ex_calls e).
Definition partial (e : Exchange) : Prop := length (ex_outcomes e) < length (ex_calls e).
(** What the rounds add: complete exchanges, then nothing, a reply without calls (the turn has
    ended), or an exchange that misses results (the turn was cancelled or is suspended). *)
Inductive tail_of : option (Result AiError (FinishReason * option TokenUsage)) → list ChatMessage → Prop :=
| tail_none o : tail_of o []
| tail_reply reason usage text : text ≠ EmptyString → tail_of (Some (Ok (reason, usage))) [MAssistant text []]
| tail_cancelled e : partial e → tail_of (Some (Err Cancelled)) (exchange_messages e)
| tail_suspended e : partial e → tail_of None (exchange_messages e).
Definition grown (l : list ChatMessage) (n limit : nat) (o : option (Result AiError (FinishReason * option TokenUsage)))
  (w : World) : Prop :=
  ∃ es tail, length es ≤ limit ∧ Forall complete es ∧ tail_of o tail ∧
    has_messages (l ++ concat (exchange_messages <$> es) ++ tail) n w.
Lemma rounds_post limit l n cancel mode config ds usage :
  task_post (has_messages l n) (rounds build limit cancel mode config (allowed_tools mode ds) usage)
    (λ r, grown l (n + limit * request_cost config) limit (Some r))
    (grown l (n + limit * request_cost config) limit None).
Proof.
  revert l n usage. induction limit as [|limit IH]; intros l n usage; cbn [rounds].
  { apply post_ret. intros w Hw. exists [], []. split_and!; [done|constructor..|]. by rewrite Nat.add_0_r, !app_nil_r. }
  set (k := n + S limit * request_cost config).
  assert (Hk : k = (n + request_cost config) + limit * request_cost config) by (unfold k; lia).
  assert (Hnone : ∀ o w, has_messages l (n + request_cost config) w → grown l k (S limit) o w).
  { intros o w Hw. exists [], []. split_and!; [cbn; lia|constructor..|]. rewrite !app_nil_r. eapply has_messages_weaken, Hw. lia. }
  eapply post_bind.
  { eapply post_mono; [apply ask_model_post|intros w Hw; exact Hw|intros r w Hw; exact Hw|apply Hnone]. }
  2: { intros e w. apply Hnone. }
  intros r. destruct (rd_tool_calls r) as [|c cs] eqn:Hcalls.
  - apply post_ret. intros w Hw. unfold reply in Hw. rewrite Hcalls in Hw. destruct (str_is_empty (rd_text r)) eqn:Hempty.
    + cbn in Hw. rewrite app_nil_r in Hw. by apply Hnone.
    + exists [], [MAssistant (rd_text r) []]. split_and!; [cbn; lia|constructor| |].
      * constructor. intros He. by rewrite He in Hempty.
      * eapply has_messages_weaken, Hw. lia.
  - assert (Hreply : reply r = [MAssistant (rd_text r) (c :: cs)]).
    { unfold reply. rewrite Hcalls. by destruct (str_is_empty _). }
    rewrite Hreply.
    assert (Hpart : ∀ o w, (∀ e, partial e → tail_of o (exchange_messages e)) →
      interrupted (l ++ [MAssistant (rd_text r) (c :: cs)]) (n + request_cost config) (c :: cs) w → grown l k (S limit) o w).
    { intros o w Ho (outcomes & Hlen & Hw). exists [], (exchange_messages {| ex_text := rd_text r; ex_calls := c :: cs; ex_outcomes := outcomes |}).
      split_and!; [cbn; lia|constructor|by apply Ho|]. rewrite <-app_assoc in Hw. eapply has_messages_weaken, Hw. lia. }
    eapply post_bind.
    { eapply post_mono; [apply call_tools_post|intros w Hw; exact Hw|intros r' w Hw; exact Hw|].
      intros w. apply Hpart. intros e. apply tail_suspended. }
    2: { intros e w [-> Hi]. eapply Hpart, Hi. intros e'. apply tail_cancelled. }
    intros u w (outcomes & Hlen & Hw). specialize (IH _ _ (rd_usage r) w Hw).
    assert (Hmore : ∀ o w', grown ((l ++ [MAssistant (rd_text r) (c :: cs)]) ++ results (c :: cs) outcomes)
      (n + request_cost config + limit * request_cost config) limit o w' → grown l k (S limit) o w').
    { intros o w' (es & tail & Hes & Hcomplete & Htail & Hw'). rewrite <-Hk in Hw'.
      exists ({| ex_text := rd_text r; ex_calls := c :: cs; ex_outcomes := outcomes |} :: es), tail.
      split_and!; [cbn; lia|by constructor|done|]. rewrite fmap_cons. cbn [concat exchange_messages ex_text ex_calls ex_outcomes].
      rewrite <-!app_assoc in Hw'. cbn [app]. by rewrite <-app_assoc. }
    destruct (rounds _ _ _ _ _ _ _ w) as [r' w'|w']; by apply Hmore.
Qed.
Definition outcome_result {A} (o : Outcome (T := T) A) : option (Result AiError A) :=
  match o with Returned r _ => Some r | Suspended _ => None end.

(** C17: the history that the rounds of a turn leave: at most [round_limit] rounds, each the
    reply of the model with its tool calls followed by one result for each call, in their
    order and with their ids; then nothing more, or a last reply without calls. Only a
    cancelled (or still suspended) turn ends with a reply that misses results. The provider
    is asked once per round, or twice when a remote authorization was refused. *)
Theorem rounds_history limit cancel mode config ds usage w :
  let o := rounds build limit cancel mode config (allowed_tools mode ds) usage w in
  ∃ es tail, length es ≤ limit ∧ Forall complete es ∧ tail_of (outcome_result o) tail ∧
    sn_messages (w_session (outcome_world o)) = sn_messages (w_session w) ++ concat (exchange_messages <$> es) ++ tail ∧
    requests (w_log (outcome_world o)) ≤ requests (w_log w) + limit * request_cost config.
Proof.
  cbv zeta. pose proof (rounds_post limit _ _ cancel mode config ds usage w (conj eq_refl (le_n (requests (w_log w))))) as Hpost.
  destruct (rounds _ _ _ _ _ _ _ w) as [r w'|w']; destruct Hpost as (es & tail & Hlen & Hes & Htail & Hm & Hr);
    exists es, tail; by split_and!.
Qed.
End rounds.
