(* ===== verification/AiExamples.v ===== *)
(** * Turns of the assistant on concrete inputs *)
From Stdlib Require Import Ascii String.
#[local] Set Warnings "-clear-no-such-hyp,-register-all".
From S2P Require Import Prelude Text Indexer AiTypes AiSession AiEndpoint AiState AiHistory AiTurn AiApproval AiInvariants AiTurnTheorems AiRounds.

(** ** The parameters, made concrete *)

(** A parser that knows one URL *)
Definition ollama : Url :=
  {| url_scheme := "http"; url_username := EmptyString; url_password := None; url_query := None; url_fragment := None;
     url_host := Some "127.0.0.1"; url_path := "/v1/"; url_with_path path := "http://127.0.0.1:11434" +:+ path |}.
#[local] Instance one_url : UrlCrate :=
  {| url_parse s := if bool_decide (s = "http://127.0.0.1:11434/v1/") then Ok ollama else Err "not a URL" |}.
#[local] Instance unit_backends : Backends :=
  {| Backend := unit; gemini_new _ _ := Ok tt; remote_new _ _ := Ok tt; openai_client _ _ _ := Ok tt |}.
#[local] Instance null_text : ValueText := {| value_to_string _ := "null" |}.
#[local] Existing Instance Concrete.pad_blake3.
Definition release : Build := {| debug_assertions := false; kuku_api_url := None |}.
Definition edit_tool : ToolDescriptor :=
  {| td_tool_id := "builtin.edit_file"; td_name := "edit_file"; td_description := "Edit"; td_parameters := VNull;
     td_category := "vault"; td_access := ProposesMutation; td_source := Native |}.
Definition example_config : AiConfig :=
  {| ac_provider := Gemini; ac_api_key := Some "key"; ac_openai_api_key := None; ac_openai_base_url := None;
     ac_openai_model := None; ac_model := "model"; ac_server_url := None; ac_round_limit := 2; ac_proxy_tool_timeout_ms := 15000 |}.
Definition example_state : AiState (T := ToolDescriptor) :=
  {| as_config := example_config; as_provider := None; as_sessions := ∅;
     as_tools := register_native id edit_tool {| reg_native := ∅; reg_proxy := ∅ |};
     as_broker := ProxyBroker_default; as_host := true |}.
Definition example_call : ModelToolCall :=
  {| tc_call_id := "call-1"; tc_tool_name := "edit_file"; tc_arguments := VNull; tc_signature := None;
     tc_tool_call_id := None; tc_provider_call_id := None |}.
Definition example_plan : MutationPlan :=
  {| mp_summary := "edit a.md"; mp_operations := [ReplaceFile "a.md" "new" "old" None] |}.
Definition proposal : NativeToolResult := {| nr_text := "proposed"; nr_mutation := Some example_plan; nr_preview_text := None |}.
Definition example_session : SessionRuntime := SessionRuntime_new "s" Agent.
(** The model calls the tool, which proposes a change. *)
Definition proposes : list Entry :=
  [Answered (AnsStream (Ok tt)); Answered (AnsItem (Some (Ok (EvToolCalls [example_call])))); Answered (AnsItem None);
   Answered (AnsTool (Ok proposal))].
Definition replies : list Entry :=
  [Answered (AnsStream (Ok tt)); Answered (AnsItem (Some (Ok (TextDelta "done")))); Answered (AnsItem None)].
Definition approves : list Entry :=
  [Proceed; Proceed; During (ResolveApproval "call-1" true); Answered AnsReceived;
   Answered (AnsApply (Ok (MutationApplied "edit a.md" [])))].
Definition run (mode : ChatMode) (script : list Entry) : Outcome (T := ToolDescriptor) unit :=
  run_turn release id mode "hello" EditorContext_default (turn_world example_session example_state script).
Definition plans (l : list LogEntry) : list MutationPlan := omap (λ e, match e with LApply p => Some p | _ => None end) l.

Example approved_edit_is_applied :
  let w := outcome_world (run Agent (proposes ++ approves ++ replies)) in
  plans (w_log w) = [example_plan] ∧ length (sn_messages (w_session w)) = 4 ∧
  sn_path_snapshots (w_session w) !! "a.md" = Some {| ps_checksum := Concrete.pad_hash "new"; ps_is_dir := false |} ∧
  ends (w_log w) = [LEvent (Done Stop None)] ∧ w_script w = [].
Proof. vm_compute. auto. Qed.
Example rejected_edit_is_not_applied :
  let w := outcome_world (run Agent (proposes ++ [Proceed; Proceed; During (ResolveApproval "call-1" false); Answered AnsReceived] ++ replies)) in
  plans (w_log w) = [] ∧ ends (w_log w) = [LEvent (Done Stop None)].
Proof. vm_compute. auto. Qed.
(** In Ask mode the tool is refused, and the call gets a result that says so. *)
Example ask_mode_refuses :
  let w := outcome_world (run Ask ([Answered (AnsStream (Ok tt)); Answered (AnsItem (Some (Ok (EvToolCalls [example_call]))));
    Answered (AnsItem None)] ++ replies)) in
  plans (w_log w) = [] ∧ ends (w_log w) = [LEvent (Done Stop None)] ∧ w_script w = [].
Proof. vm_compute. auto. Qed.
(** A call that was cancelled while it waited for the user stays in the history without a
    result, and the next turn sends it to the model. *)
Example cancelled_call_has_no_result :
  let o := run Agent (proposes ++ [Proceed; Proceed; During Cancel; Answered AnsCancelled]) in
  let messages := sn_messages (w_session (outcome_world o)) in
  ends (w_log (outcome_world o)) = [LEvent (Done FinishCancelled None)] ∧
  drop 1 messages = [MAssistant EmptyString [example_call]] ∧
  match omap (λ e, match e with LRequest r => Some (cr_messages r) | _ => None end)
          (w_log (outcome_world (run_turn release id Agent "again" EditorContext_default
             (turn_world (w_session (outcome_world o)) (w_state (outcome_world o)) [])))) with
  | [sent] => take 2 sent = messages
  | _ => False
  end.
Proof. vm_compute. auto. Qed.

(** ** Witnesses *)

Lemma changes_need_approval_witness :
  let log := w_log (outcome_world (run Agent (proposes ++ approves ++ replies))) in
  plans log = [example_plan] ∧ changes_approved Agent log ∧ (Agent = Ask → ∀ plan, LApply plan ∉ log).
Proof.
  cbv zeta. split.
  - vm_compute. reflexivity.
  - unfold run. exact (changes_need_approval release id Agent "hello" EditorContext_default example_session example_state
      (proposes ++ approves ++ replies) (session_wf_new _ _)).
Defined.
Definition running_world : World (T := ToolDescriptor) := turn_world (start_run example_session).2 example_state [].
Lemma busy_send_frees_the_session_witness :
  sc_status (sn_control (w_session running_world)) = Streaming ∧
  ∃ w', run_turn release id Agent "hello" EditorContext_default running_world = Returned (Ok tt) w' ∧
    w_log w' = [LEvent (ErrorEvent SessionBusy); LEvent (Done FinishError None)] ∧
    w_session w' = with_control idle_control (w_session running_world) ∧
    sn_cancelled (cancel_session (w_session w')) = sn_cancelled (w_session running_world) ∧
    (start_run (w_session w')).1 = Ok (sn_next (w_session running_world)).
Proof.
  split; [reflexivity|].
  exact (busy_send_frees_the_session release id Agent "hello" EditorContext_default running_world ltac:(discriminate) eq_refl).
Defined.
Definition local_config : AiConfig :=
  {| ac_provider := OpenAi; ac_api_key := None; ac_openai_api_key := Some "  "; ac_openai_base_url := Some "http://127.0.0.1:11434/v1/";
     ac_openai_model := None; ac_model := "llama"; ac_server_url := None; ac_round_limit := 2; ac_proxy_tool_timeout_ms := 15000 |}.
Example local_endpoint : parse_endpoint "http://127.0.0.1:11434/v1/" false =
  Ok {| ep_base := "http://127.0.0.1:11434/v1"; ep_requirement := KeyOptional |} ∧
  (∃ e, parse_endpoint "http://127.0.0.1:11434/v1/" true = Err e).
Proof. split; [reflexivity|]. eexists. reflexivity. Qed.
Lemma openai_key_is_protected_witness :
  build_backend release local_config = Ok (Some tt) ∧
  ∃ url host key base, url_parse "http://127.0.0.1:11434/v1/" = Ok url ∧ url_host url = Some host ∧
    openai_client key base "llama" = Ok tt ∧
    (url_scheme url = "https" ∨ url_scheme url = "http" ∧ key = "local" ∧
       local_host (to_ascii_lowercase (trim_end_char "." (trim_end_char "]" (trim_start_char "[" host))))).
Proof.
  split; [reflexivity|]. exact (openai_key_is_protected release local_config tt eq_refl eq_refl).
Defined.

(** ** Backends *)

Module Race.
(** A backend is known by its model. *)
#[local] Instance named_backends : Backends :=
  {| Backend := string; gemini_new _ model := Ok model; remote_new _ model := Ok model; openai_client _ _ model := Ok model |}.
Definition gemini (model : string) : AiConfig :=
  {| ac_provider := Gemini; ac_api_key := Some "key"; ac_openai_api_key := None; ac_openai_base_url := None;
     ac_openai_model := None; ac_model := model; ac_server_url := None; ac_round_limit := 2; ac_proxy_tool_timeout_ms := 15000 |}.
(** Two configurations are set one after the other, then a turn asks for its backend. *)
Definition in_order : list StateEvent :=
  [Calls (Method_set_config (gemini "one")); Continues 0; Continues 0; Calls (Method_set_config (gemini "two"));
   Continues 1; Continues 1; Calls Method_backend; Continues 2].
Lemma backend_follows_config_witness :
  as_provider (cc_state (concurrent_run (T := ToolDescriptor) release in_order)) = Some "two" ∧
  build_backend release (as_config (cc_state (concurrent_run (T := ToolDescriptor) release in_order))) = Ok (Some "two").
Proof.
  split; [vm_compute; reflexivity|].
  refine (proj1 (proj2 (backend_follows_config release in_order) _ _) "two" _).
  - cbn [all_apart in_order]. split_and!; try exact I; apply (bool_decide_unpack _); vm_compute; exact I.
  - apply (bool_decide_unpack _). vm_compute. exact I.
  - vm_compute. reflexivity.
Defined.
(** A turn has built a backend of the configuration it has read; before it stores it, the
    configuration is changed. The old backend is stored over the new one, and the next turn
    gets it. *)
Definition overlapping : list StateEvent :=
  [Calls Method_backend; Continues 0; Continues 0; Calls (Method_set_config (gemini "two")); Continues 1; Continues 1;
   Continues 0; Calls Method_backend; Continues 2].
Example backend_outlives_its_configuration :
  let c := concurrent_run (T := ToolDescriptor) release overlapping in
  cc_tasks c !! 2 = Some (MethodDone (Ok (Some "gemini-3.1-flash-lite"))) ∧
  build_backend release (as_config (cc_state c)) = Ok (Some "two").
Proof. vm_compute. done. Qed.
End Race.
