(* ===== verification/Guarded.v ===== *)
(** * Guarded changes of files (vault/checksum.rs)

    Checksums of files and directories, and the changes of the vault that check first what
    they replace. A guarded change is one step: other programs act between the changes. *)
From Stdlib Require Import Ascii String.
#[local] Set Warnings "-clear-no-such-hyp,-register-all".
From S2P Require Import Prelude Paths SyncDb Scanner AiTypes.

(** ** Calls of the file system *)

Inductive FileError := FileNotFound | FileNotADirectory | FileIsADirectory | FileInvalidUtf8 | FileInvalidInput.
#[export] Instance FileError_eq_dec : EqDecision FileError.
Proof. solve_decision. Defined.
(** The texts of the operating system *)
Class FileErrors := { file_error_text : FileError → string }.
(** A call on the files; what it did before it failed stays done. *)
Abbreviation OnFiles A := (Act Fs FileError A).

(** A file among the ancestors of a path makes a look-up fail. *)
Definition under_a_file (fs : Fs) (p : AbsPath) : bool :=
  existsb (λ q, match fs !! q with Some (File _ _) => true | _ => false end) (prefixes (removelast p)).
Definition missing_entry (fs : Fs) (p : AbsPath) : FileError :=
  if under_a_file fs p then FileNotADirectory else FileNotFound.
(** [tokio::fs::try_exists], [metadata] (whether it is a directory), [read_to_string] *)
Definition try_exists (p : AbsPath) (fs : Fs) : Result FileError bool :=
  match fs !! p with
  | Some _ => Ok (path_exists fs p)
  | None => if bool_decide (p = []) then Ok true else if under_a_file fs p then Err FileNotADirectory else Ok false
  end.
Definition metadata_is_dir (p : AbsPath) (fs : Fs) : Result FileError bool :=
  match fs !! p with
  | Some Dir => Ok true
  | Some (File _ _) => Ok false
  | Some (Symlink b) => if b then Ok false else Err FileNotFound
  | None => if bool_decide (p = []) then Ok true else Err (missing_entry fs p)
  end.
Definition fs_read_to_string (p : AbsPath) (fs : Fs) : Result FileError string :=
  match fs !! p with
  | Some (File c _) => if utf8_valid c then Ok c else Err FileInvalidUtf8
  | Some Dir => Err FileIsADirectory
  | Some (Symlink _) => Err FileNotFound
  | None => Err (missing_entry fs p)
  end.
(** [create_dir_all], one directory at a time *)
Definition make_directory (p : AbsPath) : OnFiles unit := λ fs,
  match create_dir_step fs p with Ok fs => (Ok tt, fs) | Err _ => (Err FileNotADirectory, fs) end.
Definition make_directories (p : AbsPath) : OnFiles unit := act_fold (λ _ q, make_directory q) tt (prefixes p).
(** [tokio::fs::write] at a time *)
Definition fs_write_file (now : Z) (p : AbsPath) (content : string) : OnFiles unit := λ fs,
  if negb (is_dir fs (removelast p)) then (Err (missing_entry fs p), fs)
  else match fs !! p with
       | Some Dir => (Err FileIsADirectory, fs)
       | Some (Symlink _) => (Err FileNotFound, fs)
       | _ => (Ok tt, <[p := File content now]> fs)
       end.
Definition fs_remove_file (p : AbsPath) : OnFiles unit := λ fs,
  match fs !! p with
  | None => (Err (missing_entry fs p), fs)
  | Some Dir => (Err FileIsADirectory, fs)
  | Some _ => (Ok tt, base.delete p fs)
  end.
(** [remove_dir_all] *)
Definition without_tree (p : AbsPath) (fs : Fs) : Fs := filter (λ x : AbsPath * Node, ¬ p `prefix_of` x.1) fs.
Definition remove_dir_all (p : AbsPath) : OnFiles unit := λ fs,
  match fs !! p with
  | Some Dir => (Ok tt, without_tree p fs)
  | Some _ => (Err FileNotADirectory, fs)
  | None => (Err (missing_entry fs p), fs)
  end.
(** [tokio::fs::rename] to a free name: the entry moves with everything below it *)
Definition renamed (from to q : AbsPath) : AbsPath :=
  if bool_decide (from `prefix_of` q) then to ++ drop (length from) q else q.
Definition move_tree (from to : AbsPath) (fs : Fs) : Fs :=
  list_to_map ((λ x : AbsPath * Node, (renamed from to x.1, x.2)) <$> map_to_list fs).
Definition rename_entry (from to : AbsPath) : OnFiles unit := λ fs,
  match fs !! from with
  | None => (Err (missing_entry fs from), fs)
  | Some _ =>
      if bool_decide (from `prefix_of` to) then (Err FileInvalidInput, fs)
      else if negb (is_dir fs (removelast to)) then (Err (missing_entry fs to), fs)
      else (Ok tt, move_tree from to fs)
  end.

(** ** Checksums *)

Section guarded.
Context `{Blake3} `{FileErrors}.
Definition path_display (p : AbsPath) : string := "/" +:+ slash_join p.
Definition compute_checksum (content : string) : string := blake3_hex content.
Record DirectoryEntryChecksum := {
  de_relative_path : string;
  de_kind : string;
  de_checksum : option string }.
(** [strip_prefix(root)], with [/] for every backslash *)
Definition entry_relative_path (root p : AbsPath) : string := str_replace "\" "/" (slash_join (drop (length root) p)).
(** One unit of fuel per level *)
Fixpoint collect_directory_entries (fuel : nat) (fs : Fs) (root dir : AbsPath) : list DirectoryEntryChecksum :=
  match fuel with
  | 0 => []
  | S fuel =>
      concat ((λ entry : string * Node,
        let path := dir ++ [entry.1] in
        let relative_path := entry_relative_path root path in
        match entry.2 with
        | Symlink _ => []
        | Dir =>
            {| de_relative_path := relative_path; de_kind := "dir"; de_checksum := None |}
            :: collect_directory_entries fuel fs root path
        | File content _ =>
            [{| de_relative_path := relative_path; de_kind := "file"; de_checksum := Some (blake3_hex content) |}]
        end) <$> read_dir fs dir)
  end.
Definition NUL : string := String Ascii.zero EmptyString.
Definition LINE_FEED : string := String (ascii_of_nat 10) EmptyString.
Definition entry_text (e : DirectoryEntryChecksum) : string :=
  de_kind e +:+ NUL +:+ de_relative_path e +:+ NUL +:+ default EmptyString (de_checksum e) +:+ LINE_FEED.
Definition compute_directory_checksum (p : AbsPath) (fs : Fs) : Result string string :=
  if is_dir fs p then
    Ok (blake3_hex (str_concat (entry_text <$> sort_by (leb_on de_relative_path)
          (collect_directory_entries (S (scan_depth fs)) fs p p))))
  else Err ("Failed to read directory " +:+ path_display p +:+ ": " +:+ file_error_text (missing_entry fs p)).

(** ** Conflicts *)

Definition conflict (path reason : string) : ConflictItem :=
  {| ci_path := path; ci_reason := reason; ci_expected := None; ci_actual := None |}.
Definition checksum_conflict (path expected actual : string) : ConflictItem :=
  {| ci_path := path; ci_reason := "Checksum mismatch: expected " +:+ expected +:+ ", actual " +:+ actual;
     ci_expected := Some expected; ci_actual := Some actual |}.
(** [.map_err(|e| conflict(path, format!("…: {e}")))] *)
Definition failing {A} (p : AbsPath) (what : string) (m : OnFiles A) : Act Fs ConflictItem A := λ fs,
  let '(r, fs) := m fs in (map_err (λ e, conflict (path_display p) (what +:+ ": " +:+ file_error_text e)) r, fs).
Definition look {A} (f : Fs → Result FileError A) : OnFiles A := λ fs, (f fs, fs).
Definition conflict_if (b : bool) (c : ConflictItem) : Act Fs ConflictItem unit := lift (reject_if b c).

(** ** The guarded changes *)

Definition guarded_create (now : Z) (path : AbsPath) (content : string) : Act Fs ConflictItem unit :=
  exists_ ← failing path "Existence check failed" (look (try_exists path));
  conflict_if exists_ (conflict (path_display path) "File already exists");;
  failing path "Failed to create parent directories" (make_directories (removelast path));;
  failing path "Failed to write file" (fs_write_file now path content).
Definition guarded_create_dir (path : AbsPath) : Act Fs ConflictItem unit :=
  exists_ ← failing path "Existence check failed" (look (try_exists path));
  conflict_if exists_ (conflict (path_display path) "Directory already exists");;
  failing path "Failed to create directory" (make_directories path).
Definition check_content (path : AbsPath) (expected_checksum : string) : Act Fs ConflictItem unit :=
  current ← failing path "Failed to read file" (look (fs_read_to_string path));
  let actual := compute_checksum current in
  conflict_if (negb (bool_decide (actual = expected_checksum))) (checksum_conflict (path_display path) expected_checksum actual).
Definition guarded_write (now : Z) (path : AbsPath) (content expected_checksum : string) : Act Fs ConflictItem unit :=
  check_content path expected_checksum;;
  failing path "Failed to write file" (fs_write_file now path content).
Definition guarded_delete (path : AbsPath) (expected_checksum : string) : Act Fs ConflictItem unit :=
  check_content path expected_checksum;;
  failing path "Failed to delete file" (fs_remove_file path).
Definition guarded_delete_dir (path : AbsPath) (expected_checksum : string) : Act Fs ConflictItem unit :=
  is_dir ← failing path "Failed to stat directory" (look (metadata_is_dir path));
  conflict_if (negb is_dir) (conflict (path_display path) "Path is not a directory");;
  actual ← (λ fs, (map_err (λ e, conflict (path_display path) ("Failed to checksum directory: " +:+ e))
                     (compute_directory_checksum path fs), fs));
  conflict_if (negb (bool_decide (actual = expected_checksum))) (checksum_conflict (path_display path) expected_checksum actual);;
  failing path "Failed to delete directory" (remove_dir_all path).
Definition guarded_rename (from to : AbsPath) : Act Fs ConflictItem unit :=
  from_exists ← failing from "Existence check failed" (look (try_exists from));
  conflict_if (negb from_exists) (conflict (path_display from) "Source file does not exist");;
  to_exists ← failing to "Existence check failed" (look (try_exists to));
  conflict_if to_exists (conflict (path_display to) "Destination file already exists");;
  failing to "Failed to create parent directories" (make_directories (removelast to));;
  failing from "Failed to rename file" (rename_entry from to).
End guarded.
