(* ===== verification/ProtectedPaths.v ===== *)
(** * Paths the assistant may not change (knowledge/protected_paths.rs) *)
From Stdlib Require Import Ascii String.
#[local] Set Warnings "-clear-no-such-hyp,-register-all".
From S2P Require Import Prelude Text Paths SyncDb Scanner Knowledge AiTypes Guarded.

Definition PROTECTED_PREFIXES : list string := ["Knowledge/memory"; "Knowledge/decisions"; "Knowledge/wiki"].
(** [ProtectedPathError] has only a message. *)
Abbreviation PathResult := (Result string).

(** ** The normal form of a path *)

Definition has_drive_prefix (value : string) : bool :=
  match value with
  | String a (String b _) => (is_ascii_lowercase a || is_ascii_uppercase a) && Ascii.eqb b ":"
  | _ => false
  end.
Fixpoint decode_bytes (value : string) : PathResult bytes :=
  match value with
  | EmptyString => Ok EmptyString
  | String a rest =>
      if negb (Ascii.eqb a "%") then String a <$> decode_bytes rest
      else match rest with
           | String b (String c rest) =>
               high ← ok_or (hex_value b) "Malformed percent encoding";
               low ← ok_or (hex_value c) "Malformed percent encoding";
               let decoded := ascii_of_N (high * 16 + low) in
               reject_if (Ascii.eqb decoded slash || Ascii.eqb decoded backslash) "Percent-encoded separators are not allowed";;
               String decoded <$> decode_bytes rest
           | _ => Err "Malformed percent encoding"
           end
  end.
Definition decode_segment (value : string) : PathResult string :=
  decoded ← decode_bytes value;
  reject_if (negb (utf8_valid decoded)) "Invalid UTF-8";;
  reject_if (contains_percent_encoding decoded) "Repeated percent encoding is not allowed";;
  Ok decoded.
Section protected.
Context `{Nfc} `{Unicode}.
Definition add_segment (segments : list string) (raw_segment : string) : PathResult (list string) :=
  if str_is_empty raw_segment then Ok segments
  else
    decoded ← decode_segment raw_segment;
    let segment := nfc decoded in
    if bool_decide (segment = ".") then Ok segments
    else if bool_decide (segment = "..") then Err "Path traversal is not allowed"
    else Ok (segments ++ [segment]).
Definition normalize_ai_raw_mutation_path (value : string) : PathResult string :=
  let trimmed := trim value in
  reject_if (str_is_empty trimmed) "Path is empty";;
  reject_if (starts_with "/" trimmed || starts_with (String backslash EmptyString) trimmed || has_drive_prefix trimmed)
    "Absolute paths are not allowed";;
  reject_if (has_control trimmed) "Path contains NUL or control characters";;
  segments ← try_fold add_segment [] (split_on slash (str_replace backslash slash trimmed));
  reject_if (bool_decide (segments = [])) "Path is empty";;
  Ok (join "/" segments).

(** ** Protected paths *)

(** [path == protected || path.starts_with(protected + "/")] *)
Definition path_key_is_under (path protected : string) : bool :=
  bool_decide (path = protected) || starts_with (protected +:+ "/") path.
Definition is_protected_relative_path (path : string) : bool :=
  existsb (λ prefix, path_key_is_under (to_lowercase path) (to_lowercase prefix)) PROTECTED_PREFIXES.
Definition protected_path_error (path : string) : string :=
  "AI raw file mutation is not allowed for protected Knowledge path: " +:+ path.

(** Where links lead: [canonicalize] of a path, and the canonical target of a link or why it
    cannot be resolved *)
Class Links := {
  canonicalize : Fs → AbsPath → option AbsPath;
  symlink_target : Fs → AbsPath → PathResult AbsPath }.
Context `{Links} `{FileErrors}.
Definition path_key (p : AbsPath) : string := to_lowercase (str_replace backslash slash (path_display p)).
(** [dedup] of a sorted list *)
Fixpoint dedup_adjacent (l : list string) : list string :=
  match l with
  | x :: ((y :: _) as rest) => if bool_decide (x = y) then dedup_adjacent rest else x :: dedup_adjacent rest
  | _ => l
  end.
Definition protected_absolute_keys (fs : Fs) (root : AbsPath) : list string :=
  dedup_adjacent (sort_by str_leb (concat ((λ prefix,
    let lexical := path_join root prefix in
    path_key lexical :: option_list (path_key <$> canonicalize fs lexical)) <$> PROTECTED_PREFIXES))).
Fixpoint resolve_segments (fs : Fs) (current : AbsPath) (segments : list string) : PathResult AbsPath :=
  match segments with
  | [] => Ok current
  | segment :: rest =>
      let next := path_join current segment in
      match fs !! next with
      | Some (Symlink _) => current ← symlink_target fs next; resolve_segments fs current rest
      | Some _ => resolve_segments fs (default next (canonicalize fs next)) rest
      | None =>
          match missing_entry fs next with
          | FileNotFound => Ok (foldl path_join next rest)
          | error => Err (file_error_text error)
          end
      end
  end.
Definition resolved_absolute_key (fs : Fs) (root : AbsPath) (normalized_path : string) : PathResult string :=
  current ← resolve_segments fs (default root (canonicalize fs root)) (split_on slash normalized_path);
  Ok (path_key current).
Definition resolved_path_is_protected (fs : Fs) (root : AbsPath) (normalized_path : string) : PathResult bool :=
  resolved_key ← resolved_absolute_key fs root normalized_path;
  Ok (existsb (path_key_is_under resolved_key) (protected_absolute_keys fs root)).
Definition guard_ai_raw_mutation_path (fs : Fs) (root : AbsPath) (value : string) : PathResult string :=
  normalized ← normalize_ai_raw_mutation_path value;
  reject_if (is_protected_relative_path normalized) (protected_path_error normalized);;
  under ← resolved_path_is_protected fs root normalized;
  reject_if under (protected_path_error normalized);;
  Ok normalized.
End protected.
