(* ===== verification/AiHost.v ===== *)
(** * The host of the assistant (ai_host/desktop_host.rs)

    A plan of changes is checked against the vault, then applied change by change. Other
    programs may change the files before each check and each change: [h_others] lists what
    they do. *)
From Stdlib Require Import Ascii String.
#[local] Set Warnings "-clear-no-such-hyp,-register-all".
From S2P Require Import Prelude Text Paths SyncDb Scanner Watcher Knowledge AiTypes Guarded ProtectedPaths.

(** [h_search] is what happened to the search index: a notice, or a request to rebuild. *)
Inductive SearchCall := Notified (n : SearchNotice) | RebuildRequested (reason : string).
Record HostWorld := {
  h_fs : Fs;
  h_ledger : ExpectedMutationLedger;
  h_search : list SearchCall;
  h_now : Z;
  h_others : list (Fs → Fs);
  h_done : list (MutationOp * Fs * Fs) }.
Definition with_fs (fs : Fs) (w : HostWorld) : HostWorld :=
  {| h_fs := fs; h_ledger := h_ledger w; h_search := h_search w; h_now := h_now w; h_others := h_others w; h_done := h_done w |}.
Definition with_ledger (l : ExpectedMutationLedger) (w : HostWorld) : HostWorld :=
  {| h_fs := h_fs w; h_ledger := l; h_search := h_search w; h_now := h_now w; h_others := h_others w; h_done := h_done w |}.
Definition search_called (c : SearchCall) (w : HostWorld) : HostWorld :=
  {| h_fs := h_fs w; h_ledger := h_ledger w; h_search := h_search w ++ [c]; h_now := h_now w; h_others := h_others w;
     h_done := h_done w |}.
(** A ghost: the change, and the files before and after it *)
Definition note_done (op : MutationOp) (before : Fs) (w : HostWorld) : HostWorld :=
  {| h_fs := h_fs w; h_ledger := h_ledger w; h_search := h_search w; h_now := h_now w; h_others := h_others w;
     h_done := h_done w ++ [(op, before, h_fs w)] |}.
Definition others_act (w : HostWorld) : HostWorld :=
  match h_others w with
  | [] => w
  | f :: others =>
      {| h_fs := f (h_fs w); h_ledger := h_ledger w; h_search := h_search w; h_now := h_now w; h_others := others;
         h_done := h_done w |}
  end.
Abbreviation OnHost A := (Act HostWorld AiError A).
Definition looking {A} (f : Fs → Result AiError A) : OnHost A := λ w, (f (h_fs w), w).

Section host.
Context `{Nfc} `{Unicode} `{Links} `{FileErrors} `{Blake3} (root : AbsPath).
(** The search index accepts a notice or says why not. *)
Context (search_accepts : SearchNotice → Result string unit).

Definition state_error {A} (r : Result string A) : Result AiError A := map_err AiStateError r.
Definition io_error {A} (r : Result FileError A) : Result AiError A := map_err (λ e, AiIo (file_error_text e)) r.
Definition resolve (fs : Fs) (path : string) : Result AiError AbsPath :=
  state_error (resolve_vault_path_strict (is_symlink fs) root path).

(** ** Checks before anything is changed *)

Definition guard_mutation_op (fs : Fs) (op : MutationOp) : Result string unit :=
  match op with
  | CreateFile path _ | CreateDirectory path | ReplaceFile path _ _ _ | DeleteFile path _ | DeleteDirectory path _ =>
      _ ← guard_ai_raw_mutation_path fs root path; Ok tt
  | RenameFileOp from to =>
      _ ← guard_ai_raw_mutation_path fs root from; _ ← guard_ai_raw_mutation_path fs root to; Ok tt
  end.
Definition content_conflicts (fs : Fs) (path expected_checksum : string) : Result AiError (list ConflictItem) :=
  resolved ← resolve fs path;
  Ok (match fs_read_to_string resolved fs with
      | Ok current =>
          let actual := compute_checksum current in
          if bool_decide (actual = expected_checksum) then [] else [checksum_conflict path expected_checksum actual]
      | Err error => [conflict path ("Failed to read file: " +:+ file_error_text error)]
      end).
Definition existing_conflict (fs : Fs) (path reason : string) : Result AiError (list ConflictItem) :=
  resolved ← resolve fs path;
  exists_ ← io_error (try_exists resolved fs);
  Ok (if exists_ : bool then [conflict path reason] else []).
Definition op_conflicts (fs : Fs) (op : MutationOp) : Result AiError (list ConflictItem) :=
  match op with
  | CreateFile path _ => existing_conflict fs path "File already exists"
  | CreateDirectory path => existing_conflict fs path "Directory already exists"
  | ReplaceFile path _ expected_checksum _ | DeleteFile path expected_checksum => content_conflicts fs path expected_checksum
  | DeleteDirectory path expected_checksum =>
      resolved ← resolve fs path;
      Ok (match metadata_is_dir resolved fs with
          | Ok false => [conflict path "Path is not a directory"]
          | Ok true =>
              match compute_directory_checksum resolved fs with
              | Ok actual =>
                  if bool_decide (actual = expected_checksum) then [] else [checksum_conflict path expected_checksum actual]
              | Err error => [conflict path ("Failed to checksum directory: " +:+ error)]
              end
          | Err error => [conflict path ("Failed to stat directory: " +:+ file_error_text error)]
          end)
  | RenameFileOp from to =>
      from_resolved ← resolve fs from;
      to_resolved ← resolve fs to;
      from_exists ← io_error (try_exists from_resolved fs);
      to_exists ← io_error (try_exists to_resolved fs);
      Ok ((if from_exists : bool then [] else [conflict from "Source file does not exist"])
          ++ (if to_exists : bool then [conflict to "Destination file already exists"] else []))
  end.

(** ** Changes *)

Definition mutation_for_applied_op (fs : Fs) (op : MutationOp) : Result string AppMutation :=
  match op with
  | CreateFile path _ | ReplaceFile path _ _ _ => Ok (MWrite path false)
  | CreateDirectory path => Ok (MWrite path true)
  | DeleteFile path _ => Ok (MDelete path false)
  | DeleteDirectory path _ => Ok (MDelete path true)
  | RenameFileOp from to =>
      from_resolved ← resolve_vault_path_strict (is_symlink fs) root from;
      Ok (MRename from to (match metadata_is_dir from_resolved fs with Ok b => b | Err _ => false end))
  end.
Definition op_summary (op : MutationOp) : string :=
  match op with
  | CreateFile path _ => "Created " +:+ path
  | CreateDirectory path => "Created directory " +:+ path
  | ReplaceFile path _ _ _ => "Modified " +:+ path
  | DeleteFile path _ => "Deleted " +:+ path
  | DeleteDirectory path _ => "Deleted directory " +:+ path
  | RenameFileOp from to => "Renamed " +:+ from +:+ " -> " +:+ to
  end.
(** The guarded change; the outer error is that of the resolution of a path. *)
Definition guarded_op (now : Z) (op : MutationOp) (fs : Fs) : Result AiError (Result ConflictItem unit * Fs) :=
  match op with
  | CreateFile path content => resolved ← resolve fs path; Ok (guarded_create now resolved content fs)
  | CreateDirectory path => resolved ← resolve fs path; Ok (guarded_create_dir resolved fs)
  | ReplaceFile path content expected_checksum _ =>
      resolved ← resolve fs path; Ok (guarded_write now resolved content expected_checksum fs)
  | DeleteFile path expected_checksum => resolved ← resolve fs path; Ok (guarded_delete resolved expected_checksum fs)
  | DeleteDirectory path expected_checksum =>
      resolved ← resolve fs path; Ok (guarded_delete_dir resolved expected_checksum fs)
  | RenameFileOp from to =>
      from_resolved ← resolve fs from;
      to_resolved ← resolve fs to;
      Ok (guarded_rename from_resolved to_resolved fs)
  end.
(** [sync_search]: a warning when the index refused the notice *)
Definition sync_search (recorded : RecordedAppMutation) : OnHost (option string) := λ w,
  match notify_applied "ai-mutation" recorded with
  | None => (Ok None, w)
  | Some notice =>
      match search_accepts notice with
      | Ok _ => (Ok None, search_called (Notified notice) w)
      | Err error =>
          (Ok (Some ("Search sync fallback: " +:+ error)),
           search_called (RebuildRequested "sync-error") (search_called (Notified notice) w))
      end
  end.
Definition record_mutation (mutation : AppMutation) : OnHost RecordedAppMutation := λ w,
  let '(l, recorded) := record_app (h_now w) (h_ledger w) mutation in (Ok recorded, with_ledger l w).
Definition cancel_mutation (recorded : RecordedAppMutation) : OnHost unit :=
  modify (λ w, with_ledger (cancel_app (h_ledger w) recorded) w).
Definition run_guarded (op : MutationOp) : OnHost (Result ConflictItem unit) := λ w,
  match guarded_op (h_now w) op (h_fs w) with
  | Err e => (Err e, w)
  | Ok (Ok _, fs) => (Ok (Ok tt), note_done op (h_fs w) (with_fs fs w))
  | Ok (Err c, fs) => (Ok (Err c), with_fs fs w)
  end.
(** One change with its record in the ledger and its notice; the warning of the index *)
Definition apply_op (op : MutationOp) : OnHost (Result ConflictItem (option string)) :=
  _ ← modify others_act;
  mutation ← looking (λ fs, state_error (mutation_for_applied_op fs op));
  recorded ← record_mutation mutation;
  result ← run_guarded op;
  match result with
  | Ok _ => warning ← sync_search recorded; mret (Ok warning)
  | Err conflict_item => cancel_mutation recorded;; mret (Err conflict_item)
  end.
Definition nat_text (n : nat) : string := fmt_int (Z.of_nat n).
Definition failed_result (applied warnings : list string) (op : MutationOp) (item : ConflictItem) (rest : list MutationOp) :
  MutationApplyResult :=
  match applied with
  | [] => MutationConflict "Commit-time conflict. No changes were applied." [item]
  | _ =>
      let skipped := op_summary <$> rest in
      PartiallyApplied (nat_text (length applied) +:+ " applied, 1 failed, " +:+ nat_text (length skipped) +:+ " skipped")
        applied [op_summary op +:+ ": " +:+ ci_reason item] skipped warnings
  end.
Definition applied_result (summary : string) (applied warnings : list string) : MutationApplyResult :=
  MutationApplied
    (if is_blank summary then match applied with [] => "No operations" | _ => join "; " applied end else summary) warnings.
Fixpoint apply_ops (summary : string) (applied warnings : list string) (ops : list MutationOp) : OnHost MutationApplyResult :=
  match ops with
  | [] => mret (applied_result summary applied warnings)
  | op :: rest =>
      result ← apply_op op;
      match result with
      | Ok warning => apply_ops summary (applied ++ [op_summary op]) (warnings ++ option_list warning) rest
      | Err item => mret (failed_result applied warnings op item rest)
      end
  end.
Definition add_conflicts (conflicts : list ConflictItem) (op : MutationOp) : OnHost (list ConflictItem) :=
  modify others_act;;
  found ← looking (λ fs, op_conflicts fs op);
  mret (conflicts ++ found).
(** [apply_mutation] with an open vault *)
Definition host_apply_mutation (plan : MutationPlan) : OnHost MutationApplyResult :=
  act_fold (λ _ op, modify others_act;; looking (λ fs, state_error (guard_mutation_op fs op))) tt (mp_operations plan);;
  conflicts ← act_fold add_conflicts [] (mp_operations plan);
  match conflicts with
  | [] => apply_ops (mp_summary plan) [] [] (mp_operations plan)
  | _ =>
      mret (MutationConflict (nat_text (length conflicts) +:+ " conflict(s) detected. No changes were applied.") conflicts)
  end.
End host.
