(* ===== verification/AiTools.v ===== *)
(** * The file and document tools of the assistant (ai_tools/)

    Tools read the vault, record what they read in the session, and propose changes; none of
    them changes the vault. *)
From Stdlib Require Import Ascii String.
#[local] Set Warnings "-clear-no-such-hyp,-register-all".
From S2P Require Import Prelude Text Paths SyncDb Scanner Knowledge Chars Indexer Wikilinks Extract SearchLinks SearchDb SearchQueries SearchSimple AiTypes AiSession AiEndpoint AiState Guarded ProtectedPaths.

(** ** Arguments *)

Definition normalize_vault_path (value : string) : string :=
  let trimmed := trim value in
  if bool_decide (trimmed ∈ [EmptyString; "."; "./"]) then EmptyString
  else trim_end_char "/" (trim_start_char "/" (default trimmed (strip_prefix "./" trimmed))).
Definition non_empty (s : option string) : option string :=
  match s with Some s => if str_is_empty s then None else Some s | None => None end.
Definition normalize_non_empty_path (value : option string) : option string := non_empty (normalize_vault_path <$> value).
Definition named_path_arg (args : Value) (key : string) : option string :=
  normalize_vault_path <$> (value_get args key ≫= as_str).
Definition optional_path_arg (args : Value) : option string := named_path_arg args "path".
Definition path_arg (args : Value) : option string := non_empty (optional_path_arg args).
Definition content_arg (args : Value) : option string := value_get args "content" ≫= as_str.
Definition invalid_arguments {A} (message : string) : Result ToolError A := Err (ToolInvalidArguments message).
Definition move_paths_arg (args : Value) : Result ToolError (string * string) :=
  from ← ok_or (non_empty (named_path_arg args "from")) (ToolInvalidArguments "Missing from");
  to ← ok_or (non_empty (named_path_arg args "to")) (ToolInvalidArguments "Missing to");
  reject_if (bool_decide (from = to)) (ToolInvalidArguments "Source and destination must be different");;
  Ok (from, to).
Inductive PathKind := KindFile | KindDirectory.
#[export] Instance PathKind_eq_dec : EqDecision PathKind.
Proof. solve_decision. Defined.
Definition path_kind_text (k : PathKind) : string := match k with KindFile => "file" | KindDirectory => "directory" end.
Definition optional_kind_arg (args : Value) : Result ToolError (option PathKind) :=
  match value_get args "kind" ≫= as_str with
  | None => Ok None
  | Some raw =>
      let kind := to_ascii_lowercase (trim raw) in
      if str_is_empty kind then Ok None
      else if bool_decide (kind = "file") then Ok (Some KindFile)
      else if bool_decide (kind ∈ ["directory"; "dir"; "folder"]) then Ok (Some KindDirectory)
      else invalid_arguments ("Unsupported kind '" +:+ kind +:+ "'. Use 'file' or 'directory'.")
  end.
Definition kind_arg (args : Value) : Result ToolError PathKind := kind ← optional_kind_arg args; Ok (default KindFile kind).
(** [Path::parent] of a path text, without the separators at its end *)
Fixpoint drop_last_name (rev_path : string) : string :=
  match rev_path with
  | EmptyString => EmptyString
  | String a rest => if Ascii.eqb a "/" then trim_start_char "/" rest else drop_last_name rest
  end.
Definition parent_text (path : string) : string := String.rev (drop_last_name (trim_start_char "/" (String.rev path))).
Definition directory_arg (args : Value) (fallback : option string) : string :=
  match optional_path_arg args with
  | Some path => path
  | None => match fallback with Some file => normalize_vault_path (parent_text file) | None => EmptyString end
  end.
Definition preview_excerpt (text : string) : string := take_chars 240 text.
(** The file that an edit is for: in Inline mode only the active one *)
Definition resolve_edit_target_path (mode : ChatMode) (requested_path active_file : option string) : Result ToolError string :=
  let active_path := normalize_non_empty_path active_file in
  match mode with
  | Inline =>
      active_path ← ok_or active_path
        (ToolInvalidArguments "Inline mode can only edit the active file, but no active file is available.");
      match requested_path with
      | Some requested_path =>
          if bool_decide (requested_path = active_path) then Ok active_path
          else invalid_arguments ("Inline mode can only edit the active file: " +:+ active_path)
      | None => Ok active_path
      end
  | _ => ok_or (match requested_path with Some p => Some p | None => active_path end) (ToolInvalidArguments "No path specified")
  end.

(** ** The listing of a directory (vault/mod.rs) *)

Inductive FileEntry := Entry_ (name path : string) (is_directory : bool) (children : option (list FileEntry)).
Definition entry_name (e : FileEntry) : string := let 'Entry_ name _ _ _ := e in name.
(** One unit of fuel per level *)
Fixpoint read_directory_recursive (fuel : nat) (fs : Fs) (dir root : AbsPath) (extensions : list string) : list FileEntry :=
  match fuel with
  | 0 => []
  | S fuel =>
      let listed (directories : bool) : list FileEntry :=
        omap (λ entry : string * Node,
          let path := dir ++ [entry.1] in
          let relative := drop (length root) path in
          if should_ignore_path relative then None
          else match entry.2 with
               | Symlink _ => None
               | Dir =>
                   if directories
                   then Some (Entry_ entry.1 (to_relative_path relative) true (Some (read_directory_recursive fuel fs path root extensions)))
                   else None
               | File _ _ =>
                   if negb directories && matches_extensions entry.1 extensions
                   then Some (Entry_ entry.1 (to_relative_path relative) false None) else None
               end) (read_dir fs dir) in
      sort_by (leb_on entry_name) (listed true) ++ sort_by (leb_on entry_name) (listed false)
  end.
Definition DEFAULT_FILE_EXTENSIONS : list string := ["md"].

(** ** Outlines and tags (document_tools.rs) *)

Record OutlineItem := { oi_level : nat; oi_text : string; oi_breadcrumb : string }.
Definition is_indexed_tag_key (key prefix : string) : bool :=
  match strip_prefix prefix key ≫= strip_prefix "[" with
  | None => false
  | Some rest =>
      match strip_prefix "]" (String.rev rest) with
      | None => false
      | Some index => negb (str_is_empty index) && str_forallb (in_range 48 57) index
      end
  end.
Definition is_top_level_tag_key (key : string) : bool :=
  bool_decide (key ∈ ["tag"; "tags"]) || is_indexed_tag_key key "tag" || is_indexed_tag_key key "tags".
Section documents.
Context `{Unicode} `{MarkdownParser} `{YamlValues}.
Definition build_outline_payload (markdown : string) : list OutlineItem :=
  omap (λ section : Section_,
    if (0 <? sc_level section) && negb (bool_decide (sc_path section = []))
    then Some {| oi_level := sc_level section; oi_text := from_chars (default [] (last (sc_path section)));
                 oi_breadcrumb := join " > " (from_chars <$> sc_path section) |}
    else None) (ed_sections (extract_document (chars markdown))).
Definition build_tags_payload (markdown : string) : list string :=
  let doc := extract_document (chars markdown) in
  dedup_adjacent (sort_by str_leb (List.filter (λ s, negb (str_is_empty s))
    (omap (λ e : FrontmatterEntry,
       if is_top_level_tag_key (from_chars (fe_key e)) then Some (trim (from_chars (fe_value e))) else None) (ed_frontmatter doc)))).
End documents.

(** ** Tools *)

(** The descriptions and parameters are texts for the model. *)
Definition tool_descriptor (name tool_id category : string) (access : ToolAccess) (description : string) (parameters : Value) :
  ToolDescriptor :=
  {| td_tool_id := tool_id; td_name := name; td_description := description; td_parameters := parameters;
     td_category := category; td_access := access; td_source := Native |}.
Inductive BuiltinTool := ReadFileTool | ListFilesTool | SearchVaultTool | CreateFileTool | EditFileTool | DeleteFileTool | MoveFileTool
| GetOutlineTool | GetTagsTool.
Definition builtin_name (t : BuiltinTool) : string :=
  match t with
  | ReadFileTool => "read_file" | ListFilesTool => "list_files" | SearchVaultTool => "search_vault"
  | CreateFileTool => "create_file" | EditFileTool => "edit_file" | DeleteFileTool => "delete_file"
  | MoveFileTool => "move_file" | GetOutlineTool => "get_outline" | GetTagsTool => "get_tags"
  end.
Definition canonical_builtin_tool_id (name : string) : string := "builtin." +:+ name.
Definition builtin_access (t : BuiltinTool) : ToolAccess :=
  match t with
  | CreateFileTool | EditFileTool | DeleteFileTool | MoveFileTool => ProposesMutation
  | _ => ReadOnly
  end.
Definition builtin_category (t : BuiltinTool) : string :=
  match t with SearchVaultTool => "search" | GetOutlineTool | GetTagsTool => "document" | _ => "file" end.
Definition register_all : list BuiltinTool :=
  [ReadFileTool; ListFilesTool; SearchVaultTool; CreateFileTool; EditFileTool; DeleteFileTool; MoveFileTool; GetOutlineTool; GetTagsTool].

Record ToolCallContext := { tx_session_id : string; tx_mode : ChatMode; tx_editor_context : EditorContext }.
(** [Value::as_u64] *)
Definition as_u64 (v : Value) : option N :=
  match v with
  | VNumber digits =>
      if negb (str_is_empty digits) && str_forallb (in_range 48 57) digits then
        let n := foldl (λ n c, (n * 10 + (ascii_code c - 48))%N) 0%N (list_ascii_of_string digits) in
        if (n <? 2 ^ 64)%N then Some n else None
      else None
  | _ => None
  end.
Section tools.
Context `{Nfc} `{Unicode} `{Alphabet} `{SectionPathParser} `{FullText} `{Links} `{FileErrors} `{Blake3} `{MarkdownParser} `{YamlValues} `{UrlCrate} `{Backends}.
Context {T : Type} (root : Result string AbsPath) (fs : Fs).
(** serde_json's text of what a tool returns; the tables of the index, once there are any, and
    the error of a query *)
Context (entries_json : list FileEntry → string) (outline_json : string → list OutlineItem → string)
  (tags_json : string → list string → string) (results_json : SimpleSearchResult → string).
Context (index : option SearchTables) (query_error : string).
Abbreviation OnState A := (Act (AiState (T := T)) ToolError A).

Definition vault_root : Result ToolError AbsPath := map_err ExecutionFailed root.
Definition tool_resolve (root : AbsPath) (path : string) : Result ToolError AbsPath :=
  map_err ToolInvalidArguments (resolve_vault_path_strict (is_symlink fs) root path).
Definition executed {A} (r : Result FileError A) : Result ToolError A := map_err (λ e, ExecutionFailed (file_error_text e)) r.
Definition guard_raw_mutation_path (root : AbsPath) (path : string) : Result ToolError string :=
  map_err ToolInvalidArguments (guard_ai_raw_mutation_path fs root path).
Definition remember_snapshot (ctx : ToolCallContext) (path checksum : string) (is_dir : bool) : OnState unit := λ s,
  let '(r, s) := state_remember_path_snapshot (tx_session_id ctx) path checksum is_dir s in
  (map_err (λ e, ExecutionFailed (ai_error_text e)) r, s).
Definition session_path_snapshot (ctx : ToolCallContext) (path : string) : OnState (option (string * bool)) := λ s,
  (map_err (λ e, ExecutionFailed (ai_error_text e)) (state_path_snapshot (tx_session_id ctx) path s), s).
Definition plain_result (text : string) : NativeToolResult :=
  {| nr_text := text; nr_mutation := None; nr_preview_text := None |}.
Definition proposes_one (text summary preview : string) (op : MutationOp) : NativeToolResult :=
  {| nr_text := text; nr_mutation := Some {| mp_summary := summary; mp_operations := [op] |}; nr_preview_text := Some preview |}.
Definition document_path_arg (ctx : ToolCallContext) (args : Value) : Result ToolError string :=
  ok_or (match path_arg args with Some p => Some p | None => normalize_non_empty_path (ec_active_file (tx_editor_context ctx)) end)
    (ToolInvalidArguments "No path specified").

Definition read_file_call (ctx : ToolCallContext) (args : Value) : OnState NativeToolResult :=
  path ← lift (document_path_arg ctx args);
  root ← lift vault_root;
  resolved ← lift (tool_resolve root path);
  content ← lift (executed (fs_read_to_string resolved fs));
  remember_snapshot ctx path (compute_checksum content) false;;
  mret (plain_result content).
Definition list_files_call (ctx : ToolCallContext) (args : Value) : OnState NativeToolResult :=
  let path := directory_arg args (ec_active_file (tx_editor_context ctx)) in
  root ← lift vault_root;
  resolved ← lift (tool_resolve root path);
  entries ← lift (if is_dir fs resolved then Ok (read_directory_recursive (S (scan_depth fs)) fs resolved root DEFAULT_FILE_EXTENSIONS)
                  else Err (ExecutionFailed ("Failed to read directory " +:+ path_display resolved +:+ ": "
                              +:+ file_error_text (missing_entry fs resolved))));
  checksum ← lift (map_err ExecutionFailed (compute_directory_checksum resolved fs));
  remember_snapshot ctx path checksum true;;
  mret (plain_result (entries_json entries)).
Definition search_vault_call (args : Value) : OnState NativeToolResult :=
  query ← lift (ok_or (value_get args "query" ≫= as_str) (ToolInvalidArguments "Missing query"));
  let max_results := default 20%N (value_get args "max_results" ≫= as_u64) in
  result ← lift (ok_or (query_simple index query (N.to_nat max_results)) (ExecutionFailed query_error));
  mret (plain_result (results_json result)).
Definition create_file_call (ctx : ToolCallContext) (args : Value) : OnState NativeToolResult :=
  path ← lift (ok_or (path_arg args) (ToolInvalidArguments "Missing path"));
  root ← lift vault_root;
  path ← lift (guard_raw_mutation_path root path);
  kind ← lift (kind_arg args);
  match kind with
  | KindFile =>
      content ← lift (ok_or (content_arg args) (ToolInvalidArguments "Missing content"));
      mret (proposes_one ("Proposed creation of " +:+ path) ("Create " +:+ path) (preview_excerpt content) (CreateFile path content))
  | KindDirectory =>
      mret (proposes_one ("Proposed creation of directory " +:+ path) ("Create directory " +:+ path)
              ("Create directory " +:+ path) (CreateDirectory path))
  end.
(** Why there is no snapshot of a path *)
Definition missing_snapshot_error (resolved : AbsPath) (path prerequisite_tool action_tool : string) : ToolError :=
  match metadata_is_dir resolved fs with
  | Ok true => ToolInvalidArguments ("Path is a directory: " +:+ path +:+ ". Call list_files on that directory before " +:+ action_tool +:+ ".")
  | Ok false => ToolInvalidArguments ("Missing read-time checksum for " +:+ path +:+ ". Call " +:+ prerequisite_tool
                  +:+ " on this path before " +:+ action_tool +:+ ".")
  | Err FileNotFound => ToolInvalidArguments ("Path does not exist: " +:+ path)
  | Err error => ExecutionFailed (file_error_text error)
  end.
Definition expected_file_checksum (ctx : ToolCallContext) (path : string) (resolved : AbsPath) (prerequisite_tool action_tool : string) :
  OnState string :=
  snapshot ← session_path_snapshot ctx path;
  match snapshot with
  | None => lift (Err (missing_snapshot_error resolved path prerequisite_tool action_tool))
  | Some (checksum, is_dir) =>
      if is_dir : bool
      then lift (invalid_arguments ("Path is a directory: " +:+ path +:+ ". Use list_files before directory operations."))
      else mret checksum
  end.
Definition edit_file_call (ctx : ToolCallContext) (args : Value) : OnState NativeToolResult :=
  path ← lift (resolve_edit_target_path (tx_mode ctx) (path_arg args) (ec_active_file (tx_editor_context ctx)));
  content ← lift (ok_or (content_arg args) (ToolInvalidArguments "Missing content"));
  root ← lift vault_root;
  path ← lift (guard_raw_mutation_path root path);
  resolved ← lift (tool_resolve root path);
  expected_checksum ← expected_file_checksum ctx path resolved "read_file" "edit_file";
  mret (proposes_one ("Proposed edit to " +:+ path) ("Edit " +:+ path) (preview_excerpt content)
          (ReplaceFile path content expected_checksum None)).
Definition delete_target_snapshot (ctx : ToolCallContext) (path : string) (resolved : AbsPath) : OnState (PathKind * string) :=
  snapshot ← session_path_snapshot ctx path;
  match snapshot with
  | Some (checksum, is_dir) => mret (if is_dir : bool then KindDirectory else KindFile, checksum)
  | None =>
      lift (Err (match metadata_is_dir resolved fs with
        | Ok true => ToolInvalidArguments ("Missing read-time checksum for " +:+ path +:+ ". Call list_files on this directory before delete_file.")
        | Ok false => ToolInvalidArguments ("Missing read-time checksum for " +:+ path +:+ ". Call read_file on this path before delete_file.")
        | Err FileNotFound => ToolInvalidArguments ("Path does not exist: " +:+ path)
        | Err error => ExecutionFailed (file_error_text error)
        end))
  end.
Definition delete_file_call (ctx : ToolCallContext) (args : Value) : OnState NativeToolResult :=
  path ← lift (document_path_arg ctx args);
  root ← lift vault_root;
  path ← lift (guard_raw_mutation_path root path);
  resolved ← lift (tool_resolve root path);
  target ← delete_target_snapshot ctx path resolved;
  requested_kind ← lift (optional_kind_arg args);
  lift (reject_if (match requested_kind with Some k => negb (bool_decide (k = target.1)) | None => false end)
    (ToolInvalidArguments ("Path kind mismatch for " +:+ path +:+ ": requested " +:+ default EmptyString (path_kind_text <$> requested_kind)
       +:+ ", detected " +:+ path_kind_text target.1)));;
  mret (match target.1 with
        | KindFile => proposes_one ("Proposed deletion of " +:+ path) ("Delete " +:+ path) ("Delete file " +:+ path)
                        (DeleteFile path target.2)
        | KindDirectory => proposes_one ("Proposed recursive deletion of directory " +:+ path) ("Delete directory " +:+ path)
                             ("Delete directory " +:+ path +:+ " recursively") (DeleteDirectory path target.2)
        end).
Definition build_move_plan (root : AbsPath) (args : Value) : Result ToolError NativeToolResult :=
  '(from, to) ← move_paths_arg args;
  from ← guard_raw_mutation_path root from;
  to ← guard_raw_mutation_path root to;
  from_resolved ← tool_resolve root from;
  to_resolved ← tool_resolve root to;
  reject_if (bool_decide (from_resolved = root) || bool_decide (to_resolved = root))
    (ToolInvalidArguments "Cannot move or rename the vault root");;
  match metadata_is_dir from_resolved fs with
  | Ok _ => Ok (proposes_one ("Proposing to move " +:+ from +:+ " -> " +:+ to) ("Move " +:+ from +:+ " to " +:+ to)
                  ("Move: " +:+ from +:+ " -> " +:+ to) (RenameFileOp from to))
  | Err FileNotFound => invalid_arguments ("Source path does not exist: " +:+ from)
  | Err error => Err (ExecutionFailed (file_error_text error))
  end.
Definition move_file_call (args : Value) : OnState NativeToolResult :=
  root ← lift vault_root; lift (build_move_plan root args).
(** The document tools resolve their path without looking for links; [read_through] is what the
    system reads there. *)
Context (read_through : AbsPath → Result FileError string).
Definition document_markdown (ctx : ToolCallContext) (args : Value) : Result ToolError (string * string) :=
  path ← document_path_arg ctx args;
  root ← vault_root;
  resolved ← map_err ToolInvalidArguments (resolve_vault_path root path);
  markdown ← executed (read_through resolved);
  Ok (path, markdown).
Definition get_outline_call (ctx : ToolCallContext) (args : Value) : OnState NativeToolResult :=
  document ← lift (document_markdown ctx args);
  mret (plain_result (outline_json document.1 (build_outline_payload document.2))).
Definition get_tags_call (ctx : ToolCallContext) (args : Value) : OnState NativeToolResult :=
  document ← lift (document_markdown ctx args);
  mret (plain_result (tags_json document.1 (build_tags_payload document.2))).
Definition tool_call (t : BuiltinTool) (ctx : ToolCallContext) (args : Value) : OnState NativeToolResult :=
  match t with
  | ReadFileTool => read_file_call ctx args
  | ListFilesTool => list_files_call ctx args
  | SearchVaultTool => search_vault_call args
  | CreateFileTool => create_file_call ctx args
  | EditFileTool => edit_file_call ctx args
  | DeleteFileTool => delete_file_call ctx args
  | MoveFileTool => move_file_call args
  | GetOutlineTool => get_outline_call ctx args
  | GetTagsTool => get_tags_call ctx args
  end.
End tools.
