(* ===== verification/HostTheorems.v ===== *)
(** * The assistant changes only what it has seen *)
From Stdlib Require Import Ascii String.
#[local] Set Warnings "-clear-no-such-hyp,-register-all".
From S2P Require Import Prelude Text Paths SyncDb Scanner Watcher Knowledge AiTypes Guarded ProtectedPaths AiHost.

(** ** What a guarded change does *)

(** Only directories on the way to [p] were added. *)
Definition directories_added (p : AbsPath) (fs fs' : Fs) : Prop :=
  ∀ q, fs' !! q = fs !! q ∨ fs !! q = None ∧ fs' !! q = Some Dir ∧ q `prefix_of` p.
Lemma directories_added_refl p fs : directories_added p fs fs.
Proof. by left. Qed.
Lemma directories_added_trans p fs1 fs2 fs3 : directories_added p fs1 fs2 → directories_added p fs2 fs3 → directories_added p fs1 fs3.
Proof.
  intros H12 H23 q. destruct (H23 q) as [->|(Hn & Hd & Hq)]; [apply H12|]. right. split_and!; [|done..].
  destruct (H12 q) as [<-|(? & Hd' & _)]; [done|congruence].
Qed.
Lemma make_directory_added p q fs r fs' : q `prefix_of` p → make_directory q fs = (r, fs') → directories_added p fs fs'.
Proof.
  intros Hq. unfold make_directory, create_dir_step. destruct (is_dir fs q); [intros [= _ <-]; apply directories_added_refl|].
  destruct (fs !! q) as [n|] eqn:Hn; intros [= _ <-]; [apply directories_added_refl|].
  intros q'. destruct (decide (q = q')) as [<-|Hne]; [right; by rewrite lookup_insert_eq|left; by rewrite lookup_insert_ne].
Qed.
Lemma prefixes_prefix p q : q ∈ prefixes p → q `prefix_of` p.
Proof. unfold prefixes. intros (n & -> & _)%list_elem_of_fmap. exists (drop n p). by rewrite take_drop. Qed.
Lemma make_directories_added p fs r fs' : make_directories p fs = (r, fs') → directories_added p fs fs'.
Proof.
  unfold make_directories. assert (Hall : ∀ q, q ∈ prefixes p → q `prefix_of` p) by apply prefixes_prefix.
  revert fs Hall. induction (prefixes p) as [|q l IH]; intros fs Hall; cbn; [intros [= _ <-]; apply directories_added_refl|].
  unfold mbind, act_bind. destruct (make_directory q fs) as [[u|e] fs1] eqn:Hq.
  - intros Hl. eapply directories_added_trans; [eapply make_directory_added; [|done]; apply Hall; set_solver|].
    destruct u. eapply IH; [|done]. intros q' Hq'. apply Hall. set_solver.
  - intros [= _ <-]. eapply make_directory_added; [|done]. apply Hall. set_solver.
Qed.

Section host.
Context `{Nfc} `{Unicode} `{Links} `{FileErrors} `{Blake3} (root : AbsPath) (search_accepts : SearchNotice → Result string unit).

(** A change was made: its guard held, and this is what it did. *)
Definition content_seen (p : AbsPath) (expected_checksum : string) (fs : Fs) : Prop :=
  ∃ content mtime, fs !! p = Some (File content mtime) ∧ compute_checksum content = expected_checksum.
Definition free (p : AbsPath) (fs : Fs) : Prop := try_exists p fs = Ok false.
Definition performed (now : Z) (op : MutationOp) (fs fs' : Fs) : Prop :=
  match op with
  | CreateFile path content => ∃ p fs1, resolve root fs path = Ok p ∧ free p fs ∧
      directories_added (removelast p) fs fs1 ∧ fs' = <[p := File content now]> fs1
  | CreateDirectory path => ∃ p, resolve root fs path = Ok p ∧ free p fs ∧ directories_added p fs fs'
  | ReplaceFile path content expected_checksum _ => ∃ p, resolve root fs path = Ok p ∧
      content_seen p expected_checksum fs ∧ fs' = <[p := File content now]> fs
  | DeleteFile path expected_checksum => ∃ p, resolve root fs path = Ok p ∧
      content_seen p expected_checksum fs ∧ fs' = base.delete p fs
  | DeleteDirectory path expected_checksum => ∃ p, resolve root fs path = Ok p ∧ fs !! p = Some Dir ∧
      compute_directory_checksum p fs = Ok expected_checksum ∧ fs' = without_tree p fs
  | RenameFileOp from to => ∃ p q fs1, resolve root fs from = Ok p ∧ resolve root fs to = Ok q ∧
      try_exists p fs = Ok true ∧ free q fs ∧ ¬ p `prefix_of` q ∧
      directories_added (removelast q) fs fs1 ∧ fs' = move_tree p q fs1
  end.
Lemma look_bind {A B : Type} (p : AbsPath) (what : string) (f : Fs → Result FileError A) (k : A → Act Fs ConflictItem B) (fs : Fs) :
  (x ← failing p what (look f); k x) fs =
  match f fs with
  | Ok a => k a fs
  | Err e => (Err (conflict (path_display p) (what +:+ ": " +:+ file_error_text e)), fs)
  end.
Proof. unfold mbind, act_bind, failing, look. by destruct (f fs). Qed.
Lemma conflict_if_bind {B : Type} (b : bool) (c : ConflictItem) (k : Act Fs ConflictItem B) (fs : Fs) : (conflict_if b c;; k) fs = if b then (Err c, fs) else k fs.
Proof. unfold conflict_if, lift, mbind, act_bind. by destruct b. Qed.
Lemma failing_bind {A B : Type} (p : AbsPath) (what : string) (m : Act Fs FileError A) (k : A → Act Fs ConflictItem B) (fs : Fs) :
  (x ← failing p what m; k x) fs =
  match m fs with
  | (Ok a, fs) => k a fs
  | (Err e, fs) => (Err (conflict (path_display p) (what +:+ ": " +:+ file_error_text e)), fs)
  end.
Proof. unfold mbind, act_bind, failing. by destruct (m fs) as [[a|e] fs']. Qed.
(** What a guarded change gives: the change was performed, or the files are as before but for
    directories *)
Definition guarded_outcome (done : Fs → Prop) (fs : Fs) (o : Result ConflictItem unit * Fs) : Prop :=
  match o with
  | (Ok _, fs') => done fs'
  | (Err _, fs') => ∃ p, directories_added p fs fs'
  end.
Lemma unchanged fs : ∃ p, directories_added p fs fs.
Proof. exists []. apply directories_added_refl. Qed.
Lemma refuses done fs c : guarded_outcome done fs (Err c, fs).
Proof. exists []. apply directories_added_refl. Qed.
#[local] Hint Resolve refuses : core.

Lemma guarded_create_outcome now p content fs :
  guarded_outcome (λ fs', free p fs ∧ ∃ fs1, directories_added (removelast p) fs fs1 ∧ fs' = <[p := File content now]> fs1) fs
    (guarded_create now p content fs).
Proof.
  unfold guarded_create. rewrite look_bind. destruct (try_exists p fs) as [found|e] eqn:Hfree; [|done].
  rewrite conflict_if_bind. destruct found; [done|]. rewrite failing_bind.
  destruct (make_directories _ fs) as [[u|e] fs1] eqn:Hdirs; apply make_directories_added in Hdirs; [|by exists (removelast p)].
  unfold failing, fs_write_file. destruct (negb _); [by exists (removelast p)|].
  destruct (fs1 !! p) as [[c t| |b]|]; cbn; first [by exists (removelast p)|split; [done|by exists fs1]].
Qed.
Lemma guarded_create_dir_outcome p fs :
  guarded_outcome (λ fs', free p fs ∧ directories_added p fs fs') fs (guarded_create_dir p fs).
Proof.
  unfold guarded_create_dir. rewrite look_bind. destruct (try_exists p fs) as [found|e] eqn:Hfree; [|done].
  rewrite conflict_if_bind. destruct found; [done|]. unfold failing.
  destruct (make_directories _ fs) as [[u|e] fs1] eqn:Hdirs; apply make_directories_added in Hdirs; [done|by exists p].
Qed.
Lemma check_content_bind {B : Type} (p : AbsPath) (expected_checksum : string) (k : Act Fs ConflictItem B) (fs : Fs) :
  (∃ c, (check_content p expected_checksum;; k) fs = (Err c, fs)) ∨
  content_seen p expected_checksum fs ∧ (check_content p expected_checksum;; k) fs = k fs.
Proof.
  assert (Hassoc : (check_content p expected_checksum;; k) fs =
    match fs_read_to_string p fs with
    | Ok current => if negb (bool_decide (compute_checksum current = expected_checksum))
                    then (Err (checksum_conflict (path_display p) expected_checksum (compute_checksum current)), fs) else k fs
    | Err e => (Err (conflict (path_display p) ("Failed to read file" +:+ ": " +:+ file_error_text e)), fs)
    end).
  { unfold check_content, conflict_if, lift, failing, look, mbind, act_bind. destruct (fs_read_to_string p fs); [|done].
    cbn. by case_bool_decide. }
  rewrite Hassoc. destruct (fs_read_to_string p fs) as [current|e] eqn:Hread; [|left; eauto].
  case_bool_decide as Hc; [|left; cbn; eauto]. right. split; [|done].
  unfold fs_read_to_string in Hread. destruct (fs !! p) as [[c t| |]|] eqn:Hp; try done.
  destruct (utf8_valid c); [|done]. injection Hread as ->. by exists current, t.
Qed.
Lemma guarded_write_outcome now p content expected_checksum fs :
  guarded_outcome (λ fs', content_seen p expected_checksum fs ∧ fs' = <[p := File content now]> fs) fs
    (guarded_write now p content expected_checksum fs).
Proof.
  unfold guarded_write. destruct (check_content_bind p expected_checksum (failing p "Failed to write file" (fs_write_file now p content)) fs)
    as [[c ->]|[Hseen ->]]; [done|]. unfold failing, fs_write_file. destruct (negb _); [apply unchanged|].
  destruct (fs !! p) as [[c t| |b]|]; cbn; done || apply unchanged.
Qed.
Lemma guarded_delete_outcome p expected_checksum fs :
  guarded_outcome (λ fs', content_seen p expected_checksum fs ∧ fs' = base.delete p fs) fs (guarded_delete p expected_checksum fs).
Proof.
  unfold guarded_delete. destruct (check_content_bind p expected_checksum (failing p "Failed to delete file" (fs_remove_file p)) fs)
    as [[c ->]|[Hseen ->]]; [done|]. unfold failing, fs_remove_file.
  destruct (fs !! p) as [[c t| |b]|]; cbn; done || apply unchanged.
Qed.
Lemma guarded_delete_dir_outcome p expected_checksum fs :
  guarded_outcome (λ fs', fs !! p = Some Dir ∧ compute_directory_checksum p fs = Ok expected_checksum ∧ fs' = without_tree p fs) fs
    (guarded_delete_dir p expected_checksum fs).
Proof.
  unfold guarded_delete_dir. rewrite look_bind. destruct (metadata_is_dir p fs) as [d|e]; [|done].
  rewrite conflict_if_bind. destruct (negb d); [done|]. unfold mbind at 1, act_bind at 1.
  destruct (compute_directory_checksum p fs) as [actual|e]; cbn [map_err]; [|done].
  rewrite conflict_if_bind. case_bool_decide as Hc; cbn [negb]; [|done]. subst actual.
  unfold failing, remove_dir_all. destruct (fs !! p) as [[c t| |b]|]; cbn; done || apply unchanged.
Qed.
Lemma guarded_rename_outcome from to fs :
  guarded_outcome (λ fs', try_exists from fs = Ok true ∧ free to fs ∧ ¬ from `prefix_of` to ∧
    ∃ fs1, directories_added (removelast to) fs fs1 ∧ fs' = move_tree from to fs1) fs (guarded_rename from to fs).
Proof.
  unfold guarded_rename. rewrite look_bind. destruct (try_exists from fs) as [found|e] eqn:Hfrom; [|done].
  rewrite conflict_if_bind. destruct found; cbn [negb]; [|done]. rewrite look_bind.
  destruct (try_exists to fs) as [taken|e] eqn:Hto; [|done]. rewrite conflict_if_bind. destruct taken; [done|].
  rewrite failing_bind. destruct (make_directories _ fs) as [[u|e] fs1] eqn:Hdirs; apply make_directories_added in Hdirs;
    [|by exists (removelast to)]. unfold failing, rename_entry.
  destruct (fs1 !! from); [|by exists (removelast to)]. case_bool_decide as Hprefix; [by exists (removelast to)|].
  destruct (negb _); [by exists (removelast to)|]. split_and!; [done..|]. by exists fs1.
Qed.
Lemma guarded_op_outcome now op fs o : guarded_op root now op fs = Ok o → guarded_outcome (performed now op fs) fs o.
Proof.
  assert (Hmono : ∀ (P Q : Fs → Prop) o, (∀ fs', P fs' → Q fs') → guarded_outcome P fs o → guarded_outcome Q fs o).
  { intros P Q [[u|e] fs'] HPQ; cbn; auto. }
  unfold guarded_op. destruct op as [path content|path|path content sum excerpt|path sum|path sum|from to];
    intros (p & Hp & Ho)%bind_Ok_inv; cbn beta in Ho; try injection Ho as <-.
  - eapply Hmono, guarded_create_outcome. intros fs' (Hf & fs1 & Hd & ->). exists p, fs1. by split_and!.
  - eapply Hmono, guarded_create_dir_outcome. intros fs' (Hf & Hd). exists p. by split_and!.
  - eapply Hmono, guarded_write_outcome. intros fs' (Hf & ->). exists p. by split_and!.
  - eapply Hmono, guarded_delete_outcome. intros fs' (Hf & ->). exists p. by split_and!.
  - eapply Hmono, guarded_delete_dir_outcome. intros fs' (Hf & Hsum & ->). exists p. by split_and!.
  - apply bind_Ok_inv in Ho as (q & Hq & Ho). injection Ho as <-. eapply Hmono, guarded_rename_outcome.
    intros fs' (Hf & Hq' & Hn & fs1 & Hd & ->). exists p, q, fs1. by split_and!.
Qed.

(** ** Plans *)

Definition op_of (d : MutationOp * Fs * Fs) : MutationOp := d.1.1.
Definition all_performed (now : Z) (done : list (MutationOp * Fs * Fs)) : Prop :=
  Forall (λ d : MutationOp * Fs * Fs, performed now d.1.1 d.1.2 d.2) done.
(** One change after the other, and then at most new directories *)
Inductive chain : Fs → list (MutationOp * Fs * Fs) → Fs → Prop :=
| chain_end p a b : directories_added p a b → chain a [] b
| chain_step op a b rest c : chain b rest c → chain a ((op, a, b) :: rest) c.
(** What one change leaves of the world *)
Definition op_result (op : MutationOp) (w w' : HostWorld) (ok : bool) : Prop :=
  h_now w' = h_now w ∧ (h_others w = [] → h_others w' = []) ∧
  ∃ done, h_done w' = h_done w ++ done ∧ all_performed (h_now w) done ∧ (op_of <$> done) = (if ok then [op] else []) ∧
    (h_others w = [] → if ok then ∃ a b, done = [(op, a, b)] ∧ h_fs w = a ∧ h_fs w' = b
                      else ∃ p, directories_added p (h_fs w) (h_fs w')).
Definition is_done {E A B} (r : Result E (Result A B)) : bool := match r with Ok (Ok _) => true | _ => false end.
Lemma sync_search_keeps recorded w : ∃ warning calls, sync_search search_accepts recorded w =
  (Ok warning, {| h_fs := h_fs w; h_ledger := h_ledger w; h_search := h_search w ++ calls; h_now := h_now w;
                  h_others := h_others w; h_done := h_done w |}).
Proof.
  unfold sync_search. destruct (notify_applied _ _) as [notice|].
  - destruct (search_accepts notice); [by exists None, [Notified notice]|].
    eexists _, [Notified notice; RebuildRequested "sync-error"]. unfold search_called. cbn. by rewrite <-app_assoc.
  - exists None, []. rewrite app_nil_r. by destruct w.
Qed.
Lemma others_act_quiet w : h_others w = [] → others_act w = w.
Proof. unfold others_act. by intros ->. Qed.
Lemma others_act_keeps w : h_now (others_act w) = h_now w ∧ h_done (others_act w) = h_done w.
Proof. unfold others_act. by destruct (h_others w). Qed.
Lemma op_result_refused op w w' : h_now w' = h_now w → h_done w' = h_done w → (h_others w = [] → h_others w' = []) →
  (h_others w = [] → ∃ p, directories_added p (h_fs w) (h_fs w')) → op_result op w w' false.
Proof.
  intros Hnow Hdone Hothers Hfs. split_and!; [done..|]. exists []. rewrite app_nil_r. split_and!; [done|constructor|done..].
Qed.
Lemma apply_op_result op w r w' : apply_op root search_accepts op w = (r, w') → op_result op w w' (is_done r).
Proof.
  unfold apply_op, mbind, act_bind, modify, looking. destruct (others_act_keeps w) as [Hnow Hdone].
  assert (Hquiet : h_others w = [] → h_others (others_act w) = [] ∧ h_fs (others_act w) = h_fs w).
  { intros Hq. by rewrite others_act_quiet. }
  destruct (state_error _) as [mutation|e] eqn:Hm.
  2: { intros [= <- <-]. apply op_result_refused; [done..|naive_solver|]. intros Hq%Hquiet. rewrite (proj2 Hq). apply unchanged. }
  unfold record_mutation. destruct (record_app _ _ _) as [l recorded]. unfold run_guarded.
  cbn [with_ledger h_now h_fs]. rewrite Hnow.
  destruct (guarded_op root (h_now w) op (h_fs (others_act w))) as [[[u|c] fs']|e] eqn:Hop.
  - apply guarded_op_outcome in Hop. cbn in Hop.
    destruct (sync_search_keeps recorded (note_done op (h_fs (others_act w)) (with_fs fs' (with_ledger l (others_act w)))))
      as (warning & calls & ->). intros [= <- <-]. cbn [is_done]. split_and!; [done|naive_solver|].
    exists [(op, h_fs (others_act w), fs')]. cbn. rewrite Hdone. split_and!; [done|by repeat constructor|done|].
    intros Hq%Hquiet. exists (h_fs (others_act w)), fs'. by rewrite (proj2 Hq).
  - apply guarded_op_outcome in Hop. cbn in Hop. intros [= <- <-].
    apply op_result_refused; cbn; [done..|naive_solver|]. intros Hq%Hquiet. by rewrite <-(proj2 Hq).
  - intros [= <- <-]. apply op_result_refused; cbn; [done..|naive_solver|]. intros Hq%Hquiet. rewrite (proj2 Hq). apply unchanged.
Qed.

(** What is reported of a plan and what was done *)
Definition reported (ops : list MutationOp) (done : list MutationOp) (r : Result AiError MutationApplyResult) : Prop :=
  match r with
  | Ok (MutationApplied _ _) => done = ops
  | Ok (PartiallyApplied _ applied failed skipped _) => ∃ op rest item, ops = done ++ op :: rest ∧ done ≠ [] ∧
      applied = op_summary <$> done ∧ failed = [op_summary op +:+ ": " +:+ ci_reason item] ∧ skipped = op_summary <$> rest
  | Ok (MutationConflict _ _) => done = []
  | Err _ => done `prefix_of` ops
  end.
Lemma apply_ops_result summary past warnings ops w r w' :
  apply_ops root search_accepts summary (op_summary <$> past) warnings ops w = (r, w') →
  h_now w' = h_now w ∧
  ∃ done, h_done w' = h_done w ++ done ∧ all_performed (h_now w) done ∧ reported (past ++ ops) (past ++ (op_of <$> done)) r ∧
    (h_others w = [] → chain (h_fs w) done (h_fs w')).
Proof.
  revert past warnings w. induction ops as [|op ops IH]; intros past warnings w; cbn [apply_ops].
  { intros [= <- <-]. split; [done|]. exists []. rewrite !app_nil_r. split_and!; [done|constructor|done|].
    intros _. destruct (unchanged (h_fs w)) as [p Hp]. by apply (chain_end p). }
  unfold mbind, act_bind. destruct (apply_op root search_accepts op w) as [r1 w1] eqn:Hop.
  apply apply_op_result in Hop as (Hnow & Hothers & done1 & Hdone & Hperf & Hops & Hfs).
  destruct r1 as [[warning|item]|e]; cbn [is_done] in *.
  - intros Hrest. change [op_summary op] with (op_summary <$> [op]) in Hrest. rewrite <-fmap_app in Hrest.
    apply IH in Hrest as (Hnow2 & done & Hdone2 & Hperf2 & Hrep & Hchain). split; [congruence|].
    exists (done1 ++ done). split_and!.
    + by rewrite Hdone2, Hdone, app_assoc.
    + apply Forall_app. split; [done|]. by rewrite <-Hnow.
    + rewrite fmap_app, Hops. by rewrite <-!app_assoc in Hrep.
    + intros Hq. destruct (Hfs Hq) as (a & b & -> & <- & <-). cbn. apply chain_step. auto.
  - intros [= <- <-]. split; [done|]. apply fmap_nil_inv in Hops as ->. exists []. rewrite !app_nil_r in *. split_and!; [done|constructor| |].
    + unfold failed_result. destruct past as [|p past]; cbn; [done|]. by exists op, ops, item.
    + intros Hq. destruct (Hfs Hq) as [p Hp]. by apply (chain_end p).
  - intros [= <- <-]. split; [done|]. apply fmap_nil_inv in Hops as ->. exists []. rewrite !app_nil_r in *. split_and!; [done|constructor| |].
    + cbn. by apply prefix_app_r.
    + intros Hq. destruct (Hfs Hq) as [p Hp]. by apply (chain_end p).
Qed.
(** The checks before the changes leave the files to the others. *)
Definition only_others (w w' : HostWorld) : Prop :=
  h_now w' = h_now w ∧ h_done w' = h_done w ∧ (h_others w = [] → w' = w).
Lemma only_others_trans w1 w2 w3 : only_others w1 w2 → only_others w2 w3 → only_others w1 w3.
Proof.
  intros (Hn1 & Hd1 & Hq1) (Hn2 & Hd2 & Hq2). split_and!; [congruence..|]. intros Hq. specialize (Hq1 Hq). subst w2. auto.
Qed.
Lemma look_fold {S X} (body : S → X → Act HostWorld AiError S) (P : X → Prop) (s : S) l w r w' :
  (∀ s x w r w', body s x w = (r, w') → only_others w w' ∧ (∀ s', r = Ok s' → P x)) →
  act_fold body s l w = (r, w') → only_others w w' ∧ (∀ s', r = Ok s' → Forall P l).
Proof.
  intros Hbody. revert s w. induction l as [|x l IH]; intros s w; cbn [act_fold].
  { intros [= <- <-]. split; [by split_and!|]. by constructor. }
  unfold mbind, act_bind. destruct (body s x w) as [[s1|e] w1] eqn:Hx; apply Hbody in Hx as [Hw1 HP].
  - intros Hl. apply IH in Hl as [Hw' Hl]. split; [by eapply only_others_trans|]. intros s' Hs'. constructor; [by eapply HP|by eapply Hl].
  - intros [= <- <-]. by split.
Qed.
Lemma others_then_look {A} (f : Fs → Result AiError A) w r w' : (modify others_act;; looking f) w = (r, w') →
  only_others w w' ∧ ∃ fs, r = f fs.
Proof.
  unfold mbind, act_bind, modify, looking. intros [= <- <-]. destruct (others_act_keeps w) as [Hn Hd].
  split; [|by exists (h_fs (others_act w))]. split_and!; [done..|apply others_act_quiet].
Qed.
Lemma add_conflicts_others conflicts op w r w' : add_conflicts root conflicts op w = (r, w') → only_others w w'.
Proof.
  unfold add_conflicts, mbind, act_bind, modify, looking. destruct (others_act_keeps w) as [Hn Hd].
  pose proof (others_act_quiet w). destruct (op_conflicts _ _ _); intros [= <- <-]; by split_and!.
Qed.

Lemma reported_one op done r : reported [op] done r → done = [] ∨ done = [op].
Proof.
  destruct r as [[summary warnings|summary applied failed skipped warnings|summary conflicts]|e]; cbn; [by right| |by left|].
  - intros (op' & rest & item & Heq & Hne & _). destruct done as [|op1 [|op2 done]]; [by left| |]; done.
  - intros [[|op' rest] Heq]; rewrite ?app_nil_r in Heq; [by right|].
    destruct done as [|op1 [|op2 done]]; [by left|done..].
Qed.
(** The run of a plan *)
Lemma host_apply_result plan w : h_done w = [] →
  let '(r, w') := host_apply_mutation root search_accepts plan w in
  all_performed (h_now w) (h_done w') ∧
  reported (mp_operations plan) (op_of <$> h_done w') r ∧
  (h_done w' ≠ [] → ∀ op, op ∈ mp_operations plan → ∃ fs, guard_mutation_op root fs op = Ok tt) ∧
  (h_others w = [] → chain (h_fs w) (h_done w') (h_fs w')).
Proof.
  intros Hdone. destruct (host_apply_mutation _ _ _ _) as [r w'] eqn:Hrun. unfold host_apply_mutation, mbind, act_bind in Hrun.
  assert (Hnothing : ∀ w', only_others w w' → all_performed (h_now w) (h_done w') ∧ op_of <$> h_done w' = [] ∧
    (h_done w' ≠ [] → ∀ op, op ∈ mp_operations plan → ∃ fs, guard_mutation_op root fs op = Ok tt) ∧
    (h_others w = [] → chain (h_fs w) (h_done w') (h_fs w'))).
  { intros w2 (Hn & Hd & Hq). rewrite Hd, Hdone. split_and!; [constructor|done|done|].
    intros Hw2%Hq. subst w2. destruct (unchanged (h_fs w)) as [p Hp]. by apply (chain_end p). }
  destruct (act_fold _ tt _ w) as [[u|e] w1] eqn:Hguard.
  - apply (look_fold _ (λ op, ∃ fs, guard_mutation_op root fs op = Ok tt)) in Hguard as [Hw1 Hguarded].
    2: { intros s x w0 r0 w2 Hx. apply others_then_look in Hx as [? [fs ->]]. split; [done|]. intros s' Hs'. exists fs.
         unfold state_error in Hs'. destruct (guard_mutation_op root fs x) as [[]|]; [done|done]. }
    destruct (act_fold _ [] _ w1) as [[conflicts|e] w2] eqn:Hconf;
      (apply (look_fold _ (λ _, True)) in Hconf as [Hw2 _]; [|intros ????? Hx; split; [by eapply add_conflicts_others|done]]);
      pose proof (only_others_trans _ _ _ Hw1 Hw2) as Hw.
    2: { injection Hrun as <- <-. destruct (Hnothing _ Hw) as (? & Hops & ?). split_and!; try done; [|naive_solver..].
         rewrite Hops. apply prefix_nil. }
    destruct conflicts as [|c cs].
    2: { injection Hrun as <- <-. destruct (Hnothing _ Hw) as (? & Hops & ?). split_and!; try done; naive_solver. }
    change (@nil string) with (op_summary <$> []) in Hrun at 1.
    apply (apply_ops_result _ []) in Hrun as (Hnow & done & Hd & Hperf & Hrep & Hchain).
    destruct Hw as (Hn & Hd2 & Hq). rewrite Hd2, Hdone in Hd. cbn in Hd, Hrep. rewrite Hd, <-Hn. split_and!; [done..| |].
    + intros _ op Hop. specialize (Hguarded u eq_refl). rewrite Forall_forall in Hguarded. by apply Hguarded.
    + intros Hw. specialize (Hq Hw). subst w2. by apply Hchain.
  - apply (look_fold _ (λ _, True)) in Hguard as [Hw1 _].
    2: { intros s x w0 r0 w2 Hx. by apply others_then_look in Hx as [? _]. }
    injection Hrun as <- <-. destruct (Hnothing _ Hw1) as (? & Hops & ?). split_and!; try done; [|naive_solver..].
    rewrite Hops. apply prefix_nil.
Qed.
(** C5: the host changes the vault only as planned and checked, and reports what it did: every
    change it made was a change of the plan, passed the guard for protected paths, and found
    what it expected (a free place, or a file or directory with the checksum of the plan); a plan
    reported as applied was made in full, a partial one up to the failed change, a conflict
    not at all; when no other program interferes the files are those the changes leave, and
    what was not planned is kept, except that directories may have been made. *)
Theorem host_apply_guarded plan w : h_done w = [] →
  let '(r, w') := host_apply_mutation root search_accepts plan w in
  all_performed (h_now w) (h_done w') ∧
  reported (mp_operations plan) (op_of <$> h_done w') r ∧
  (h_done w' ≠ [] → ∀ op, op ∈ mp_operations plan → ∃ fs, guard_mutation_op root fs op = Ok tt) ∧
  (h_others w = [] → chain (h_fs w) (h_done w') (h_fs w')).
Proof. apply host_apply_result. Qed.
End host.
