(* ===== verification/ToolTheorems.v ===== *)
(** * What the tools of the assistant propose *)
From Stdlib Require Import Ascii String.
#[local] Set Warnings "-clear-no-such-hyp,-register-all".
From S2P Require Import Prelude Text Paths SyncDb Scanner Watcher Knowledge Chars Indexer Wikilinks Extract SearchLinks SearchDb SearchQueries SearchSimple AiTypes AiSession AiEndpoint AiState Guarded ProtectedPaths AiHost AiTools HostTheorems.

Section tools.
Context `{Nfc} `{Unicode} `{Alphabet} `{SectionPathParser} `{FullText} `{Links} `{FileErrors} `{Blake3} `{MarkdownParser} `{YamlValues} `{UrlCrate} `{Backends}.
Context {T : Type} (root : Result string AbsPath) (fs : Fs).
Context (entries_json : list FileEntry → string) (outline_json : string → list OutlineItem → string)
  (tags_json : string → list string → string) (results_json : SimpleSearchResult → string)
  (index : option SearchTables) (query_error : string) (read_through : AbsPath → Result FileError string).

(** A path that passed the guard for protected paths *)
Definition guarded_path (path : string) : Prop :=
  ∃ dir raw, root = Ok dir ∧ guard_ai_raw_mutation_path fs dir raw = Ok path.
(** What the session saw of a path *)
Definition seen (ctx : ToolCallContext) (path checksum : string) (is_dir : bool) (s : AiState (T := T)) : Prop :=
  state_path_snapshot (tx_session_id ctx) path s = Ok (Some (checksum, is_dir)).
(** A change the assistant may propose *)
Definition sound_proposal (ctx : ToolCallContext) (s : AiState (T := T)) (op : MutationOp) : Prop :=
  match op with
  | CreateFile path _ | CreateDirectory path => guarded_path path
  | ReplaceFile path _ checksum _ =>
      guarded_path path ∧ seen ctx path checksum false s ∧
      (tx_mode ctx = Inline → ∃ active dir, normalize_non_empty_path (ec_active_file (tx_editor_context ctx)) = Some active ∧
         root = Ok dir ∧ guard_ai_raw_mutation_path fs dir active = Ok path)
  | DeleteFile path checksum => guarded_path path ∧ seen ctx path checksum false s
  | DeleteDirectory path checksum => guarded_path path ∧ seen ctx path checksum true s
  | RenameFileOp from to => guarded_path from ∧ guarded_path to
  end.
(** A result that proposes nothing, or one sound change *)
Definition sound_result (may_change : bool) (ctx : ToolCallContext) (s : AiState (T := T)) (result : NativeToolResult) : Prop :=
  match nr_mutation result with
  | None => True
  | Some plan => may_change = true ∧ ∃ op, mp_operations plan = [op] ∧ sound_proposal ctx s op
  end.

Lemma guard_guarded path path' dir : root = Ok dir → guard_raw_mutation_path fs dir path = Ok path' → guarded_path path'.
Proof. unfold guard_raw_mutation_path. intros Hroot Hguard%map_err_Ok. by exists dir, path. Qed.
Lemma vault_root_Ok dir : vault_root root = Ok dir → root = Ok dir.
Proof. apply map_err_Ok. Qed.
Lemma expected_file_checksum_inv {B} ctx path resolved p a (k : string → Act (AiState (T := T)) ToolError B) s b s' :
  (x ← expected_file_checksum fs ctx path resolved p a; k x) s = (Ok b, s') →
  ∃ checksum, seen ctx path checksum false s ∧ k checksum s = (Ok b, s').
Proof.
  unfold expected_file_checksum, session_path_snapshot, seen, mbind, act_bind.
  destruct (state_path_snapshot _ _ _) as [[[checksum []]|]|e]; cbn; try done. by exists checksum.
Qed.
Lemma delete_target_snapshot_inv {B} ctx path resolved (k : PathKind * string → Act (AiState (T := T)) ToolError B) s b s' :
  (x ← delete_target_snapshot fs ctx path resolved; k x) s = (Ok b, s') →
  ∃ checksum is_dir, seen ctx path checksum is_dir s ∧
    k (if is_dir then KindDirectory else KindFile, checksum) s = (Ok b, s').
Proof.
  unfold delete_target_snapshot, session_path_snapshot, seen, mbind, act_bind.
  destruct (state_path_snapshot _ _ _) as [[[checksum d]|]|e]; cbn; try done. by exists checksum, d.
Qed.
Lemma resolve_edit_target_inline requested active path :
  resolve_edit_target_path Inline requested active = Ok path → normalize_non_empty_path active = Some path.
Proof.
  unfold resolve_edit_target_path. destruct (normalize_non_empty_path active) as [a|]; [|done]. cbn.
  destruct requested; [case_bool_decide; [|done]|]; congruence.
Qed.
Lemma create_file_call_sound ctx args s r s' :
  create_file_call root fs ctx args s = (Ok r, s') → s' = s ∧ sound_result true ctx s r.
Proof.
  unfold create_file_call. intros (path & _ & (dir & Hdir%vault_root_Ok & (path' & Hp & (kind & _ & Hk)%act_lift_Ok)%act_lift_Ok)%act_lift_Ok)%act_lift_Ok.
  apply (guard_guarded _ _ _ Hdir) in Hp. destruct kind.
  - apply act_lift_Ok in Hk as (content & _ & [= <- <-]). split; [done|]. split; [done|]. by eexists.
  - injection Hk as <- <-. split; [done|]. split; [done|]. by eexists.
Qed.
Lemma edit_file_call_sound ctx args s r s' :
  edit_file_call root fs ctx args s = (Ok r, s') → s' = s ∧ sound_result true ctx s r.
Proof.
  unfold edit_file_call.
  intros (path & Htarget & (content & _ & (dir & Hdir%vault_root_Ok & (path' & Hp & (resolved & _ & Hk)%act_lift_Ok)%act_lift_Ok)%act_lift_Ok)%act_lift_Ok)%act_lift_Ok.
  apply expected_file_checksum_inv in Hk as (checksum & Hseen & [= <- <-]). split; [done|]. split; [done|].
  eexists. split; [done|]. split_and!; [by eapply guard_guarded|done|].
  intros Hmode. rewrite Hmode in Htarget. apply resolve_edit_target_inline in Htarget. exists path, dir.
  split_and!; [done..|]. by apply map_err_Ok in Hp.
Qed.
Lemma delete_file_call_sound ctx args s r s' :
  delete_file_call root fs ctx args s = (Ok r, s') → s' = s ∧ sound_result true ctx s r.
Proof.
  unfold delete_file_call.
  intros (path & _ & (dir & Hdir%vault_root_Ok & (path' & Hp & (resolved & _ & Hk)%act_lift_Ok)%act_lift_Ok)%act_lift_Ok)%act_lift_Ok.
  apply delete_target_snapshot_inv in Hk as (checksum & d & Hseen & (kind & _ & (u & _ & [= <- <-])%act_lift_Ok)%act_lift_Ok).
  apply (guard_guarded _ _ _ Hdir) in Hp. split; [done|].
  destruct d; (split; [done|]; eexists; split; [done|]; by split).
Qed.
Lemma move_file_call_sound ctx args s r s' :
  move_file_call root fs args s = (Ok r, s') → s' = s ∧ sound_result true ctx s r.
Proof.
  unfold move_file_call. intros (dir & Hdir%vault_root_Ok & Hk)%act_lift_Ok. unfold lift in Hk. injection Hk as Hr <-.
  split; [done|]. unfold build_move_plan in Hr.
  apply bind_Ok_inv in Hr as ([from to] & _ & Hr).
  apply bind_Ok_inv in Hr as (from' & Hfrom%(guard_guarded _ _ _ Hdir) & Hr).
  apply bind_Ok_inv in Hr as (to' & Hto%(guard_guarded _ _ _ Hdir) & Hr).
  apply bind_Ok_inv in Hr as (fr & _ & Hr). apply bind_Ok_inv in Hr as (tr & _ & Hr).
  apply bind_Ok_inv in Hr as (u & _ & Hr).
  destruct (metadata_is_dir fr fs) as [d|[]]; try done. injection Hr as <-. split; [done|]. eexists. split; [done|]. by split.
Qed.
Lemma plain_result_sound may_change ctx s text : sound_result may_change ctx s (plain_result text).
Proof. done. Qed.

(** C7: a tool of the assistant changes nothing itself: a tool that only reads proposes nothing,
    and a tool that may change the vault leaves the session alone and proposes one change, of
    paths that passed the guard for protected paths; a file is replaced or deleted, and a
    directory deleted, with the checksum of what the session saw at that path, as a file or
    as a directory; in Inline mode only the active file is edited. *)
Theorem tools_propose_guarded t ctx args s :
  match tool_call root fs entries_json outline_json tags_json results_json index query_error read_through t ctx args s with
  | (Ok r, s') =>
      sound_result (bool_decide (builtin_access t = ProposesMutation)) ctx s r ∧
      (builtin_access t = ProposesMutation → s' = s)
  | _ => True
  end.
Proof.
  destruct (tool_call _ _ _ _ _ _ _ _ _ _ _ _ _) as [[r|e] s'] eqn:Hcall; [|done]. destruct t; cbn [tool_call builtin_access] in *.
  - unfold read_file_call in Hcall.
    apply act_lift_Ok in Hcall as (? & _ & (? & _ & (? & _ & (? & _ & Hcall)%act_lift_Ok)%act_lift_Ok)%act_lift_Ok).
    apply act_bind_Ok in Hcall as (? & ? & _ & [= <- <-]). done.
  - unfold list_files_call in Hcall.
    apply act_lift_Ok in Hcall as (? & _ & (? & _ & (? & _ & (? & _ & Hcall)%act_lift_Ok)%act_lift_Ok)%act_lift_Ok).
    apply act_bind_Ok in Hcall as (? & ? & _ & [= <- <-]). done.
  - by apply act_lift_Ok in Hcall as (? & _ & (? & _ & [= <- <-])%act_lift_Ok).
  - by apply create_file_call_sound in Hcall as [-> ?].
  - by apply edit_file_call_sound in Hcall as [-> ?].
  - by apply delete_file_call_sound in Hcall as [-> ?].
  - by apply (move_file_call_sound ctx) in Hcall as [-> ?].
  - by apply act_lift_Ok in Hcall as (? & _ & [= <- <-]).
  - by apply act_lift_Ok in Hcall as (? & _ & [= <- <-]).
Qed.

(** ** From a reading to a change *)

Lemma remembered ctx path checksum is_dir s u s' :
  remember_snapshot ctx path checksum is_dir s = (Ok u, s') → seen ctx path checksum is_dir s'.
Proof.
  unfold remember_snapshot, state_remember_path_snapshot, on_session, seen, state_path_snapshot, get_session.
  destruct (as_sessions s !! tx_session_id ctx) as [session|]; cbn; [|done]. intros [= _ <-].
  unfold with_sessions, path_snapshot, remember_path_snapshot, with_snapshots. cbn. rewrite lookup_insert_eq. cbn.
  by rewrite lookup_insert_eq.
Qed.
(** What [read_file] shows is the file at its path, and the session notes its checksum. *)
Lemma read_file_call_shows ctx args s r s' :
  read_file_call root fs ctx args s = (Ok r, s') →
  ∃ path dir p, document_path_arg ctx args = Ok path ∧ root = Ok dir ∧ tool_resolve fs dir path = Ok p ∧
    fs_read_to_string p fs = Ok (nr_text r) ∧ seen ctx path (compute_checksum (nr_text r)) false s'.
Proof.
  unfold read_file_call.
  intros (path & Hpath & (dir & Hdir%vault_root_Ok & (p & Hp & (content & Hread%map_err_Ok & Hk)%act_lift_Ok)%act_lift_Ok)%act_lift_Ok)%act_lift_Ok.
  apply act_bind_Ok in Hk as (u & s1 & Hs1%remembered & [= <- <-]). by exists path, dir, p.
Qed.
(** The proposal of an edit *)
Lemma edit_file_call_proposes ctx args s r s' :
  edit_file_call root fs ctx args s = (Ok r, s') →
  ∃ path content checksum, nr_mutation r = Some {| mp_summary := "Edit " +:+ path; mp_operations := [ReplaceFile path content checksum None] |} ∧
    content_arg args = Some content ∧ seen ctx path checksum false s.
Proof.
  unfold edit_file_call.
  intros (path & _ & (content & Hcontent%ok_or_Ok & (dir & _ & (path' & _ & (resolved & _ & Hk)%act_lift_Ok)%act_lift_Ok)%act_lift_Ok)%act_lift_Ok)%act_lift_Ok.
  apply expected_file_checksum_inv in Hk as (checksum & Hseen & [= <- <-]). by exists path', content, checksum.
Qed.
End tools.

Section edits.
Context `{Nfc} `{Unicode} `{Links} `{FileErrors} `{Blake3} `{UrlCrate} `{Backends} {T : Type}.
Context (search_accepts : SearchNotice → Result string unit) (vault : AbsPath).

Definition edited_path (op : MutationOp) : option string :=
  match op with ReplaceFile path _ _ _ => Some path | _ => None end.
(** C6: an edit replaces only what the model was shown: when [read_file] showed a file, [edit_file]
    then proposed a change of that path, and the host carried the plan out, on files that others
    may have changed at any time, then either nothing was changed, or the file the host found at
    the path had the checksum of what was shown, and it was replaced by the proposed content and
    nothing else was changed. *)
Theorem edit_replaces_what_was_shown (ctx : ToolCallContext) (read_args edit_args : Value) (fs_read fs_edit : Fs)
  (s s1 s2 : AiState (T := T)) (shown proposed : NativeToolResult) (path : string) (plan : MutationPlan) (w : HostWorld) :
  read_file_call (Ok vault) fs_read ctx read_args s = (Ok shown, s1) →
  document_path_arg ctx read_args = Ok path →
  edit_file_call (Ok vault) fs_edit ctx edit_args s1 = (Ok proposed, s2) →
  nr_mutation proposed = Some plan →
  edited_path <$> mp_operations plan = [Some path] →
  h_done w = [] →
  let done := h_done (host_apply_mutation vault search_accepts plan w).2 in
  done = [] ∨
  ∃ content p before found mtime, content_arg edit_args = Some content ∧
    done = [(ReplaceFile path content (compute_checksum (nr_text shown)) None, before, <[p := File content (h_now w)]> before)] ∧
    resolve vault before path = Ok p ∧ before !! p = Some (File found mtime) ∧
    compute_checksum found = compute_checksum (nr_text shown).
Proof.
  intros Hread Hpath Hedit Hplan Hop Hw. apply read_file_call_shows in Hread as (path1 & dir & p1 & Hpath1 & _ & _ & _ & Hseen).
  assert (path1 = path) as -> by congruence.
  apply edit_file_call_proposes in Hedit as (path' & content & checksum & Hplan' & Hcontent & Hseen').
  rewrite Hplan in Hplan'. injection Hplan' as ->. cbn in Hop. injection Hop as ->.
  assert (checksum = compute_checksum (nr_text shown)) as -> by (unfold seen in *; congruence).
  pose proof (host_apply_result vault search_accepts
    {| mp_summary := "Edit " +:+ path; mp_operations := [ReplaceFile path content (compute_checksum (nr_text shown)) None] |} w Hw) as Hhost.
  destruct (host_apply_mutation _ _ _ w) as [r w']. destruct Hhost as (Hperf & Hrep & _). cbn [snd mp_operations] in *.
  apply reported_one in Hrep as [Hnil|Hone]; [left; by apply fmap_nil_inv in Hnil|right].
  destruct (h_done w') as [|[[op before] after] [|]]; try done. unfold op_of in Hone. cbn in Hone. injection Hone as ->.
  apply Forall_cons in Hperf as [(p & Hp & (found & mtime & Hfound & Hsum) & Hafter) _]. cbn in *.
  exists content, p, before, found, mtime. by rewrite <-Hafter.
Qed.
End edits.
