(* ===== verification/HostExamples.v ===== *)
(** * Plans of the assistant on a concrete vault *)
From Stdlib Require Import Ascii String.
#[local] Set Warnings "-clear-no-such-hyp,-register-all".
From S2P Require Import Prelude Text Paths SyncDb Scanner Watcher Knowledge AiTypes AiSession AiEndpoint AiState Guarded ProtectedPaths AiHost AiTools HostTheorems ToolTheorems.

(** ** The parameters, made concrete *)

(** No name needs composing, and there are no links. *)
#[local] Instance composed : Nfc := {| nfc s := s |}.
#[local] Instance no_links : Links := {| canonicalize _ p := Some p; symlink_target _ _ := Err "no links" |}.
#[local] Instance linux_errors : FileErrors :=
  {| file_error_text e := match e with
       | FileNotFound => "No such file or directory" | FileNotADirectory => "Not a directory"
       | FileIsADirectory => "Is a directory" | FileInvalidUtf8 => "stream did not contain valid UTF-8"
       | FileInvalidInput => "Invalid argument" end |}.
#[local] Existing Instance Concrete.ascii_unicode.
#[local] Existing Instance Concrete.pad_blake3.
Definition vault_dir : AbsPath := ["vault"].
Definition vault_files : Fs := list_to_map
  [(["vault"], Dir); (["vault"; "a.md"], File "one" 1); (["vault"; "a"], Dir); (["vault"; "a"; "b.md"], File "two" 1);
   (["vault"; "Knowledge"], Dir); (["vault"; "Knowledge"; "decisions"], Dir);
   (["vault"; "Knowledge"; "decisions"; "d.md"], File "three" 1); (["vault"; "100%.md"], File "four" 1)].
Definition host_world (others : list (Fs → Fs)) : HostWorld :=
  {| h_fs := vault_files; h_ledger := empty_ledger; h_search := []; h_now := 2; h_others := others; h_done := [] |}.
Definition accepts (n : SearchNotice) : Result string unit := Ok tt.
Definition host_run (others : list (Fs → Fs)) (ops : list MutationOp) : Result AiError MutationApplyResult * HostWorld :=
  host_apply_mutation vault_dir accepts {| mp_summary := "plan"; mp_operations := ops |} (host_world others).
Definition content_of (fs : Fs) (p : AbsPath) : option string :=
  match fs !! p with Some (File content _) => Some content | _ => None end.
(** Another program writes a file. *)
Definition saves (p : AbsPath) (content : string) : Fs → Fs := λ fs, <[p := File content 2]> fs.
Definition checksum : string := compute_checksum "one".

(** ** Edits *)

Example edit_of_what_was_read :
  let '(r, w) := host_run [] [ReplaceFile "a.md" "new" checksum None] in
  r = Ok (MutationApplied "plan" []) ∧ content_of (h_fs w) ["vault"; "a.md"] = Some "new".
Proof. vm_compute. auto. Qed.
(** Saved by another program before the check, or between the check and the change *)
Example late_edit_is_refused :
  let '(r, w) := host_run [id; saves ["vault"; "a.md"] "other"] [ReplaceFile "a.md" "new" checksum None] in
  (∃ conflicts, r = Ok (MutationConflict "1 conflict(s) detected. No changes were applied." conflicts)) ∧
  content_of (h_fs w) ["vault"; "a.md"] = Some "other" ∧ h_done w = [].
Proof. vm_compute. eauto. Qed.
Example very_late_edit_is_refused :
  let '(r, w) := host_run [id; id; saves ["vault"; "a.md"] "other"] [ReplaceFile "a.md" "new" checksum None] in
  (∃ conflicts, r = Ok (MutationConflict "Commit-time conflict. No changes were applied." conflicts)) ∧
  content_of (h_fs w) ["vault"; "a.md"] = Some "other" ∧ l_entries (h_ledger w) = [].
Proof. vm_compute. eauto. Qed.
(** Two changes, the second of which finds another file than planned *)
Example second_change_fails :
  let '(r, w) := host_run [id; id; id; id; id; saves ["vault"; "a.md"] "other"]
    [CreateFile "c/d.md" "new"; DeleteFile "a.md" checksum; CreateDirectory "e"] in
  (∃ failed, r = Ok (PartiallyApplied "1 applied, 1 failed, 1 skipped" ["Created c/d.md"] failed ["Created directory e"] [])) ∧
  content_of (h_fs w) ["vault"; "c"; "d.md"] = Some "new" ∧ content_of (h_fs w) ["vault"; "a.md"] = Some "other".
Proof. vm_compute. eauto. Qed.

(** ** Findings *)

(** A move that fails leaves the directories it made, and reports that nothing was applied. *)
Example failed_move_leaves_directories :
  let '(r, w) := host_run [] [RenameFileOp "a" "a/c/d"] in
  (∃ conflicts, r = Ok (MutationConflict "Commit-time conflict. No changes were applied." conflicts)) ∧
  vault_files !! ["vault"; "a"; "c"] = None ∧ h_fs w !! ["vault"; "a"; "c"] = Some Dir.
Proof. vm_compute. eauto. Qed.
(** The directory above the protected ones is not protected: all decisions are moved away. *)
Example protected_directories_can_be_moved :
  guard_ai_raw_mutation_path vault_files vault_dir "Knowledge/decisions/d.md" = Err (protected_path_error "Knowledge/decisions/d.md") ∧
  let '(r, w) := host_run [] [RenameFileOp "Knowledge" "Old"] in
  r = Ok (MutationApplied "plan" []) ∧ content_of (h_fs w) ["vault"; "Knowledge"; "decisions"; "d.md"] = None ∧
  content_of (h_fs w) ["vault"; "Old"; "decisions"; "d.md"] = Some "three".
Proof. vm_compute. auto. Qed.
(** A percent sign has to be encoded for the tool, whose plan has it decoded; the host decodes
    the path of the plan again and refuses it. *)
Example percent_sign_is_decoded_twice :
  (∃ e, guard_ai_raw_mutation_path vault_files vault_dir "100%.md" = Err e) ∧
  guard_ai_raw_mutation_path vault_files vault_dir "100%25.md" = Ok "100%.md" ∧
  (host_run [] [ReplaceFile "100%.md" "new" (compute_checksum "four") None]).1 = Err (AiStateError "Malformed percent encoding").
Proof. vm_compute. eauto. Qed.
(** A line break in a path is refused unless it is encoded. *)
Example control_character_passes_encoded :
  normalize_ai_raw_mutation_path (String.append "a" (String (ascii_of_nat 10) "b.md")) = Err "Path contains NUL or control characters" ∧
  normalize_ai_raw_mutation_path "a%0Ab.md" = Ok (String.append "a" (String (ascii_of_nat 10) "b.md")).
Proof. vm_compute. auto. Qed.

(** ** Witnesses *)

Lemma host_apply_guarded_witness :
  h_done (host_world []) = [] ∧
  let '(r, w') := host_apply_mutation vault_dir accepts
    {| mp_summary := "plan"; mp_operations := [ReplaceFile "a.md" "new" checksum None; CreateDirectory "e"] |} (host_world []) in
  all_performed vault_dir (h_now (host_world [])) (h_done w') ∧
  reported [ReplaceFile "a.md" "new" checksum None; CreateDirectory "e"] (op_of <$> h_done w') r ∧
  (h_done w' ≠ [] → ∀ op, op ∈ [ReplaceFile "a.md" "new" checksum None; CreateDirectory "e"] →
     ∃ fs, guard_mutation_op vault_dir fs op = Ok tt) ∧
  (h_others (host_world []) = [] → chain (h_fs (host_world [])) (h_done w') (h_fs w')).
Proof.
  split; [reflexivity|].
  exact (host_apply_guarded vault_dir accepts
    {| mp_summary := "plan"; mp_operations := [ReplaceFile "a.md" "new" checksum None; CreateDirectory "e"] |} (host_world []) eq_refl).
Defined.

(** ** A reading, an edit, and the change *)

#[local] Instance no_urls : UrlCrate := {| url_parse _ := Err "not a URL" |}.
#[local] Instance no_backends : Backends :=
  {| Backend := unit; gemini_new _ _ := Ok tt; remote_new _ _ := Ok tt; openai_client _ _ _ := Ok tt |}.
Definition build : Build := {| debug_assertions := false; kuku_api_url := None |}.
Definition asked : AiState (T := unit) := create_session "s" Agent (AiState_default build).
Definition context : ToolCallContext := {| tx_session_id := "s"; tx_mode := Agent; tx_editor_context := EditorContext_default |}.
Definition reading : Value := VObject [("path", VString "a.md")].
Definition edit : Value := VObject [("path", VString "a.md"); ("content", VString "new")].
Definition after_reading : AiState (T := unit) := (read_file_call (Ok vault_dir) vault_files context reading asked).2.
Definition shown : NativeToolResult := plain_result "one".
Definition edit_proposal : NativeToolResult :=
  proposes_one "Proposed edit to a.md" "Edit a.md" "new" (ReplaceFile "a.md" "new" checksum None).
Definition edit_plan : MutationPlan := {| mp_summary := "Edit a.md"; mp_operations := [ReplaceFile "a.md" "new" checksum None] |}.
(** A file has to be read before it is edited. *)
Example edit_needs_a_reading :
  (edit_file_call (Ok vault_dir) vault_files context edit asked).1 =
    Err (ToolInvalidArguments "Missing read-time checksum for a.md. Call read_file on this path before edit_file.").
Proof. vm_compute. reflexivity. Qed.
Lemma edit_replaces_what_was_shown_witness :
  op_of <$> h_done (host_apply_mutation vault_dir accepts edit_plan (host_world [])).2 = [ReplaceFile "a.md" "new" checksum None] ∧
  let done := h_done (host_apply_mutation vault_dir accepts edit_plan (host_world [])).2 in
  done = [] ∨
  ∃ content p before found mtime, content_arg edit = Some content ∧
    done = [(ReplaceFile "a.md" content (compute_checksum (nr_text shown)) None, before,
             <[p := File content (h_now (host_world []))]> before)] ∧
    resolve vault_dir before "a.md" = Ok p ∧ before !! p = Some (File found mtime) ∧
    compute_checksum found = compute_checksum (nr_text shown).
Proof.
  split; [vm_compute; reflexivity|].
  refine (edit_replaces_what_was_shown accepts vault_dir context reading edit vault_files vault_files asked after_reading after_reading
    shown edit_proposal "a.md" edit_plan (host_world []) _ _ _ _ _ _); vm_compute; reflexivity.
Defined.
